(* ===== verification/_CoqProject ===== *)
-Q . S2P
Prelude.v
RustStr.v
StdText.v
Net.v
GeoList.v
LogRedact.v
NetlinkData.v
Types.v
OpenVpnManagement.v
OpenVpnConfig.v
World.v
ManagedXray.v
Policy.v
Validate.v
PrivateStore.v
CondRules.v
Intents.v
CoreState.v
Netlink.v
NetlinkProps.v
RouteIntents.v
RouteConditions.v
HelperRoutes.v
HelperIntents.v
HelperLive.v
RouteIntentProps.v
NetlinkActor.v
CoreTeardown.v
CoreRoutes.v
LinkNames.v
Dns.v
Auth.v
Json.v
XrayConfig.v
ServiceChecks.v
ProxyExits.v
XrayPlan.v
XrayProps.v
XrayTheorems.v
WireGuardConfig.v
OpenVpn.v
OpenVpnProcess.v
XrayProcess.v
ProcessProps.v
CoreTunnels.v
CoreOpenVpn.v
CoreReconcile.v
CoreXray.v
CoreIntents.v
AlwaysOn.v
RouteProps.v
TunnelProps.v
Failover.v
Watchdog.v
Trace.v
Kernel.v
Journal.v
Settings.v
Protocol.v
XrayProcessProps.v
XrayRecordProps.v
QuicReject.v
ManagedXrayProps.v
HelperProps.v
HelperTheorems.v
NetlinkActorProps.v
XrayConnect.v
Server.v
ServerAuth.v
Session.v
SessionProps.v
SafetyTeardown.v
SafetyRoutes.v
SafetyWireGuard.v
SafetyOpenVpn.v
SafetyIntents.v
Safety.v
XrayReload.v
ServerPolicy.v
SafetyTheorems.v
