(* ===== verification/Prelude.v ===== *)
(** * Network Orchestrator: a verification library (root file)

    Network Orchestrator is a desktop program that manages routes, policy
    rules and VPN tunnels. A privileged daemon ([src/crates/daemon]) does
    everything that needs root; clients (desktop, CLI, macOS) talk to it over
    a local socket. On macOS a helper ([src/crates/macos-helper]) takes its
    place. This library models the daemon, the core state machine
    and what it depends on, the routing intents of the macOS helper, and the
    parts of the shared crate ([src/crates/core]) they call. It is a shallow embedding: pure
    functions are functions, stateful code is a state monad over
    [CoreState.DaemonCore] and a history of external calls, and a panic is
    the result [None].

    ** How the program is put together

    A request is authorized and handed to one method of [DaemonCore], under
    one lock. The method checks the request, writes what it is about to do in
    the ownership journal, does it through an executor trait (netlink,
    systemd-resolved, a tunnel process), and keeps the journal entry for as
    long as the effect lives. At start the journal is read back and every
    entry torn down. Worker threads (watchdog, failover) watch the tunnels.
    The helper keeps no journal: it stores what clients want as intents and
    rules, derives the routes they mean from the network it sees, and
    reconciles the route table with them by the system's [route] tool.
    Supervisors, executors and files are outside the core; every call to them
    is a constructor of [World.ext], answered by [World.Env], a function of
    the call and of all the calls before it. Theorems over any [Env] hold
    whatever the kernel, the disk and the network answer.

    ** Files

    Foundations.
    - [Prelude]: [Result], options, lists, sorting; the library's notations.
    - [RustStr], [StdText], [Net]: the standard library's strings, words,
      lines, paths and addresses; [ipnet] as the class [IpNetLib].
    - [Types]: [core/src/daemon_protocol.rs], [models.rs] and the journal's
      resources. [World]: the executor traits as calls, the monad, [wp].
    - [Json]: [serde_json::Value], the accessors the code uses.

    Requests.
    - [Validate] ([validate.rs]), [LinkNames] ([link_names.rs]),
      [WireGuardConfig] ([wireguard.rs]), [OpenVpnConfig]
      ([core/src/openvpn_config.rs]), [OpenVpn] ([openvpn.rs]),
      [ServiceChecks] ([core/src/service_checks.rs]), [ProxyExits]
      ([proxy_exits.rs] of both crates), [XrayConfig] and [XrayPlan]
      ([xray.rs]).
    - [Protocol] (frames and parameters of [core/src/daemon_protocol.rs]),
      [Auth] ([auth.rs]) and [Server]: [dispatch] and every method of
      [server.rs] over the core and the stores, with what other tasks do
      between two of its locks as a parameter. [Session]: a connection around
      it, step by step, and the watch over client processes.

    Stores.
    - [PrivateStore] (the code the three stores share), [CondRules]
      ([cond_rules.rs]), [Intents] ([intents.rs]), [AlwaysOn]
      ([always_on.rs]), [Journal] ([core/src/journal.rs]), [Settings]
      ([settings.rs]).

    The core ([core.rs]).
    - [CoreState]: [DaemonCore] and its helpers; [CoreTeardown]: teardown,
      recovery, cleanup; [CoreRoutes]: [apply_routes], [net.route.*],
      [net.rule.*], attach; [CoreTunnels]: WireGuard; [CoreOpenVpn];
      [CoreXray]; [CoreReconcile]: reconciliation and healing; [CoreIntents].
    - [Policy] ([core/src/policy.rs]) and [OpenVpnManagement]
      ([core/src/openvpn_management.rs]) are called from it.

    Processes and workers.
    - [OpenVpnProcess] ([openvpn_process.rs]), [XrayProcess]
      ([xray_process.rs]), [ManagedXray] ([core/src/managed_xray.rs]: the
      package the runner starts), [QuicReject] ([quic_reject.rs]),
      [Failover] ([failover.rs]), [Watchdog] ([watchdog.rs], [egress.rs]),
      [Dns] ([dns.rs]).
    - [NetlinkData], [Netlink] and [NetlinkActor] ([netlink.rs]): the
      messages, and the executor traits of routes, rules and links request by
      request on the rtnetlink socket.

    - [GeoList] ([core/src/geo_list.rs]): the merge of geo asset lists.
      [LogRedact] ([core/src/vpn.rs], [log_sanitize.rs]): what is shown of a
      log.

    The macOS helper.
    - [RouteIntents] ([core/src/route_intents.rs]) and [RouteConditions]
      ([core/src/route_conditions.rs]): validation, the routes an intent or a
      rule wants, their comparison with the table, what is shown of them.
    - [HelperRoutes] ([macos-helper/src/routes.rs]): the commands, the plans
      of the tunnels and their installation.
    - [HelperIntents] ([macos-helper/src/intents.rs]): the executor, its file
      and every operation on it.
    - [RouteIntentProps], [HelperProps], [HelperLive],
      [HelperTheorems]: their properties.

    Properties that need more than one component: [RouteProps],
    [TunnelProps], [ProcessProps], [XrayProcessProps],
    [XrayRecordProps], [ManagedXrayProps], [XrayProps], [XrayTheorems], [XrayConnect], [XrayReload], [ServerAuth],
    [ServerPolicy], [SessionProps], [NetlinkProps], [NetlinkActorProps], the trace logic
    [Trace], and the crash-safety
    argument [Kernel], [SafetyTeardown], [SafetyRoutes],
    [SafetyWireGuard], [SafetyOpenVpn], [SafetyIntents], [Safety],
    [SafetyTheorems].

    ** What is shown

    - Crash safety. [Safety.step] is the daemon as a transition system:
      start, operations one at a time, a crash between any two calls.
      [Kernel.live] is what a history of calls left in the kernel,
      [Kernel.disk] what the journal file may hold. In every reachable state
      every document on the disk accounts for everything live
      ([SafetyTheorems.journal_accounts_for_kernel]); no operation panics
      ([operations_return]); the journal stays well formed
      ([journal_well_formed]); a cleanup that reports no failure left nothing
      of the user's ([cleanup_uid_complete]).
    - The journal file. The load and save the core sees as two calls are
      refined by the code of [journal.rs] on a disk that may lose unsynced
      data ([Journal.journal_save_refines], [journal_load_refines]).
    - Containment of what clients send: the OpenVPN configuration written to
      disk reads back as an allow-listed one
      ([OpenVpnConfig.sanitized_config_inert]); credentials cannot leave
      their quotes ([OpenVpnManagement.management_reply_reads_back]); the
      staging code stays in its directory
      ([ProcessProps.openvpn_staging_confined]); the Xray configuration
      listens on loopback and marks its packets
      ([XrayTheorems.xray_plan_confined]); what a log line says after a
      sensitive key is not shown ([LogRedact.logged_secret_hidden]).
    - The Xray child. The runner starts only the managed binary after reading
      its package with the pinned digests, writes only into the tunnel's
      directory, and signals only its own children or a process it identified
      after it had a handle on it ([XrayProcessProps.xray_runner_confined]);
      the package appears only whole and verified
      ([ManagedXrayProps.install_only_pinned]); the record of a child names it
      ([XrayRecordProps.process_record_identifies]).
    - Authorization: whatever a client sends, nothing is changed before
      polkit authorized that client while the request was served
      ([ServerAuth.dispatch_asks_first]); what connects without an
      administrator ([ServerPolicy]). A connection does nothing before it was
      greeted, tells events of its own user only, and answers in order
      ([SessionProps.connection_serves]); a session ends no earlier than the
      grace period after its last client ([session_ends_after_grace]).
    - The kernel. The netlink executor deletes only what it just verified to
      be the daemon's ([NetlinkActorProps.executor_deletes_own]); its answers
      rest on dumps ([rule_removal_answers], [wg_create_answers]); messages
      are inverse to their reading ([NetlinkProps]). The nftables executor
      changes only the tunnel's own table, which it recognises by a comment
      ([QuicReject.quic_own_table_only], [quic_batch_recognised]).
    - Functional behaviour of the operations on every branch: [RouteProps],
      [TunnelProps], [Policy], [Validate]; convergence of
      OpenVPN reconciliation; write-ahead and reload gate of Xray tunnels.
    - Workers: restarts are rate limited ([Watchdog.restarts_rate_limited]),
      the balancer only points at candidates
      ([Failover.failover_points_to_candidates]).

    - The macOS helper: routes of others are never deleted, whatever requests
      come and the tools answer ([HelperTheorems.helper_routes_own]); limits
      are kept ([helper_limits_kept]); a stored request is accepted again
      ([RouteIntentProps.stored_intent_normalizes]); the uplink's gateway
      stays on the uplink ([derive_spares_uplink]); a plan is installed whole
      or taken back ([HelperRoutes.helper_apply_outcome]); where the tools
      work, a reconcile reaches a state in which the next has nothing to do
      ([HelperLive.reconcile_settles]).

    Theorems that show the code falling short of its own comments are stated
    as what the code does; the manifest lists them as findings.

    ** Parameters and assumptions

    Library code is a class whose laws state documented behaviour, each with
    a concrete instance: [IpNetLib] and [NetmaskLib] (the [ipnet] crate),
    [JsonText] and [JsonCodec] (serde_json), [NetlinkLib]
    (netlink_packet_route), [UrlLib] (url), [Base64Lib] (base64),
    [HashOrder], [RetainOrder] and [EntryOrder] (the order a [HashMap] is visited in),
    [Sha256Lib] (sha2), [ZipLib] (zip),
    [RuntimeDir] (an environment variable). The safety theorems assume
    [load_faithful]: a load that succeeds returns a document the file may
    hold, which [Journal.journal_load_refines] shows of the code. The
    operations of [Safety.operation] are those of a daemon whose executors
    are wired as its [main] does ([daemon_wired]); [reconcile_network] and
    the Xray operations are not among them: attach reconciliation adds routes
    before it journals them, and an Xray tunnel's routes live and die with a
    device its child owns. [XrayConnect] states the part of the invariant
    that holds for Xray on its own.

    ** Integers, loops and fuel

    Machine integers are [Z]; where the code wraps, saturates or casts, the
    definition says so. Every recursion is structural, or on a measure given
    with the definition: [drain_lines] on the length of the buffer, a poll on
    [MAX_POLL_BYTES] of reading, slot searches on the 128 slots of the code,
    the loops of [XrayProcess] and [QuicReject] that wait until a deadline on the sleeps that
    fit before it (10 or 25 ms each, and one turn more), as the clock is
    monotonic and a sleep lasts at least its time.
    No theorem is conditional on fuel: where a bound is used it is the code's
    own or proved to be enough.

    ** Not modelled

    The rtnetlink socket and its thread; D-Bus ([nm.rs], [dns_status.rs]);
    starting and signalling the children of
    [openvpn_process.rs] and the timeout of [resolvectl]; the download of the
    Xray package and its Windows and macOS layouts;
    accepting on sockets, the scheduling of tasks and the timers ([Session]
    takes what they deliver as arrivals in any order); probes and HTTP; the clients, their profile handling, subscription
    parsing, analysis and diagnostics; the tunnels of the macOS helper and
    its socket, and the Windows back end.
    Concurrency inside the core does not exist (one lock); the worker threads
    are modelled by the granularity of their own locks. *)

From stdpp Require Export base tactics list strings gmap pretty.
From stdpp Require Import sorting.
From Stdlib Require Export ZArith Lia Ascii.

#[export] Set Default Goal Selector "!".

(** ** Rust's [Result] *)

Inductive result (A E : Type) : Type :=
| Ok (a : A)
| Err (e : E).
Arguments Ok {A E} a.
Arguments Err {A E} e.

Declare Scope rust_scope.
Delimit Scope rust_scope with rust.
Open Scope rust_scope.

Definition rbind {A B E : Type} (r : result A E) (f : A → result B E) : result B E :=
  match r with
  | Ok a => f a
  | Err e => Err e
  end.

Definition map_err {A E F : Type} (f : E → F) (r : result A E) : result A F :=
  match r with
  | Ok a => Ok a
  | Err e => Err (f e)
  end.

Definition is_ok {A E : Type} (r : result A E) : bool :=
  match r with Ok _ => true | Err _ => false end.

Definition is_err {A E : Type} (r : result A E) : bool :=
  match r with Ok _ => false | Err _ => true end.

Definition ok_or {A E : Type} (o : option A) (e : E) : result A E :=
  match o with Some a => Ok a | None => Err e end.

Definition ok {A E : Type} (r : result A E) : option A :=
  match r with Ok a => Some a | Err _ => None end.

(** [x <-? r ; k] is Rust's [let x = r?; k] on pure results. *)
Notation "x <-? r ; k" := (rbind r (λ x, k))
  (at level 20, r at level 100, k at level 200, right associativity) : rust_scope.
Notation "' x <-? r ; k" := (rbind r (λ x, k))
  (at level 20, x pattern, r at level 100, k at level 200, right associativity) : rust_scope.

#[export] Instance result_eq_dec {A E} `{EqDecision A, EqDecision E} : EqDecision (result A E).
Proof. solve_decision. Defined.

(** ** Options the way Rust tests them *)

Definition is_some {A : Type} (o : option A) : bool :=
  match o with Some _ => true | None => false end.

Definition is_none {A : Type} (o : option A) : bool := negb (is_some o).

Definition is_some_and {A : Type} (p : A → bool) (o : option A) : bool :=
  match o with Some a => p a | None => false end.

Definition is_none_or {A : Type} (p : A → bool) (o : option A) : bool :=
  match o with Some a => p a | None => true end.

Definition unwrap_or {A : Type} (o : option A) (d : A) : A := default d o.

(** ** Iterators over slices *)

(** [len()] as an integer, for comparison with the code's limits. *)
Definition zlen {A : Type} (l : list A) : Z := Z.of_nat (length l).

Fixpoint find_map {A B : Type} (f : A → option B) (l : list A) : option B :=
  match l with
  | [] => None
  | x :: l' => match f x with Some b => Some b | None => find_map f l' end
  end.

(** [iter().position(p)] *)
Fixpoint position {A : Type} (p : A → bool) (l : list A) : option nat :=
  match l with
  | [] => None
  | x :: l' => if p x then Some 0 else S <$> position p l'
  end.

(** [contains(&x)] on a vector. *)
Definition vec_contains {A : Type} `{EqDecision A} (l : list A) (x : A) : bool :=
  bool_decide (x ∈ l).

(** [iter().filter(p).collect()] with a boolean predicate. *)
Definition bfilter {A : Type} (p : A → bool) (l : list A) : list A := List.filter p l.

(** Rust's [==] on a type with derived [PartialEq]. *)
Notation "x =b y" := (bool_decide (x = y)) (at level 70, no associativity) : rust_scope.

Definition count_if {A : Type} (p : A → bool) (l : list A) : nat := length (bfilter p l).

Fixpoint enumerate_from {A : Type} (i : nat) (l : list A) : list (nat * A) :=
  match l with
  | [] => []
  | x :: l' => (i, x) :: enumerate_from (S i) l'
  end.

Definition enumerate {A : Type} (l : list A) : list (nat * A) := enumerate_from 0 l.

(** [iter().min_by_key(f)]: the first element with the least key. *)
Fixpoint min_by_key {A : Type} (f : A → Z) (l : list A) : option A :=
  match l with
  | [] => None
  | x :: l' =>
    match min_by_key f l' with
    | None => Some x
    | Some y => if Z.leb (f x) (f y) then Some x else Some y
    end
  end.

(** [sort_by] of a slice: a stable sort, by insertion. *)
Fixpoint insert_by {A : Type} (le : A → A → bool) (x : A) (l : list A) : list A :=
  match l with
  | [] => [x]
  | y :: l' => if le x y then x :: y :: l' else y :: insert_by le x l'
  end.

Fixpoint sort_by {A : Type} (le : A → A → bool) (l : list A) : list A :=
  match l with
  | [] => []
  | x :: l' => insert_by le x (sort_by le l')
  end.

(** ** Lemmas on these functions *)

Lemma min_by_key_spec {A} (f : A → Z) (l : list A) x :
  min_by_key f l = Some x → x ∈ l ∧ ∀ y, y ∈ l → (f x ≤ f y)%Z.
Proof.
  revert x. induction l as [|z l IH]; intros x Hx; simpl in Hx; [done|].
  destruct (min_by_key f l) as [y|] eqn:Hy.
  - destruct (IH y eq_refl) as [Hin Hmin].
    destruct (Z.leb_spec (f z) (f y)); simplify_eq; split; try set_solver;
      intros w [->|Hw]%elem_of_cons; try lia; specialize (Hmin w Hw); lia.
  - simplify_eq. destruct l as [|w l]; [set_solver by lia|].
    simpl in Hy. destruct (min_by_key f l); [case_match|]; done.
Qed.

Lemma min_by_key_none {A} (f : A → Z) (l : list A) : min_by_key f l = None ↔ l = [].
Proof.
  split; [|by intros ->]. destruct l as [|x l]; [done|]. simpl.
  destruct (min_by_key f l); [case_match|]; done.
Qed.

Lemma bfilter_all {A} (p : A → bool) l : Forall (λ x, p x = true) l → bfilter p l = l.
Proof. induction 1 as [|x l Hx _ IH]; simpl; [done|]. by rewrite Hx, IH. Qed.

Lemma bfilter_none {A} (p : A → bool) l : Forall (λ x, p x = true) l → bfilter (λ x, negb (p x)) l = [].
Proof. induction 1 as [|x l Hx _ IH]; simpl; [done|]. by rewrite Hx. Qed.

Lemma elem_of_bfilter {A} (p : A → bool) (l : list A) x :
  x ∈ bfilter p l ↔ p x = true ∧ x ∈ l.
Proof. unfold bfilter. rewrite !list_elem_of_In, List.filter_In. tauto. Qed.

Lemma elem_of_rev {A} (l : list A) x : x ∈ rev l ↔ x ∈ l.
Proof. by rewrite !list_elem_of_In, <- in_rev. Qed.

Lemma insert_by_perm {A} (le : A → A → bool) x (l : list A) : insert_by le x l ≡ₚ x :: l.
Proof.
  induction l as [|y l IH]; simpl; [done|]. case_match; [done|].
  rewrite IH. apply perm_swap.
Qed.

Lemma sort_by_perm {A} (le : A → A → bool) (l : list A) : sort_by le l ≡ₚ l.
Proof.
  induction l as [|x l IH]; simpl; [done|]. by rewrite insert_by_perm, IH.
Qed.

(** Sorting by a total order is a normal form up to permutation. *)
Section sorted.
Context {A : Type} (le : A → A → bool).
Context (total : ∀ x y, le x y = true ∨ le y x = true).
Context (trans : ∀ x y z, le x y = true → le y z = true → le x z = true).
Context (antisymm : ∀ x y, le x y = true → le y x = true → x = y).

Lemma insert_by_sorted x l :
  StronglySorted (λ x y, le x y = true) l → StronglySorted (λ x y, le x y = true) (insert_by le x l).
Proof using total trans.
  induction 1 as [|y l Hl IH Hy]; simpl; [repeat constructor|].
  destruct (le x y) eqn:Hxy.
  - constructor; [by constructor|]. constructor; [done|].
    eapply Forall_impl; [exact Hy|]. intros z. by apply trans.
  - constructor; [done|]. rewrite insert_by_perm. constructor; [|done].
    destruct (total x y); congruence.
Qed.

Lemma sort_by_sorted l : StronglySorted (λ x y, le x y = true) (sort_by le l).
Proof using total trans. induction l; simpl; [constructor|by apply insert_by_sorted]. Qed.

Lemma sort_by_eq l1 l2 : sort_by le l1 = sort_by le l2 ↔ l1 ≡ₚ l2.
Proof using total trans antisymm.
  split; intros Hl.
  - by rewrite <- (sort_by_perm le l1), Hl, sort_by_perm.
  - apply (StronglySorted_unique_strong (λ x y, le x y = true)); [naive_solver|apply sort_by_sorted..|].
    by rewrite !sort_by_perm.
Qed.

End sorted.

Lemma vec_contains_spec {A} `{EqDecision A} (l : list A) x :
  vec_contains l x = true ↔ x ∈ l.
Proof. apply bool_decide_eq_true. Qed.

Lemma is_some_spec {A} (o : option A) : is_some o = true ↔ ∃ a, o = Some a.
Proof. destruct o; simpl; naive_solver. Qed.

Lemma position_Some {A} (p : A → bool) (l : list A) i :
  position p l = Some i ↔
  (∃ x, l !! i = Some x ∧ p x = true) ∧ (∀ j x, j < i → l !! j = Some x → p x = false).
Proof.
  revert i. induction l as [|y l IH]; intros i; simpl.
  - split; [done|]. intros [(x & Hx & _) _]. by rewrite lookup_nil in Hx.
  - destruct (p y) eqn:Hy.
    + split.
      * intros [= <-]. split; [by exists y|]. lia.
      * intros [_ Hmin]. destruct i as [|i]; [done|].
        specialize (Hmin 0 y (Nat.lt_0_succ i) eq_refl). congruence.
    + rewrite fmap_Some. split.
      * intros (j & Hj & ->). apply IH in Hj as [(x & Hx & Hpx) Hmin].
        split; [by exists x|]. intros [|k] z Hk Hz; simpl in Hz; [congruence|].
        apply (Hmin k z); [lia|done].
      * intros [(x & Hx & Hpx) Hmin]. destruct i as [|i]; simpl in Hx; [congruence|].
        exists i. split; [|done]. apply IH. split; [by exists x|].
        intros j z Hj Hz. apply (Hmin (S j) z); [lia|done].
Qed.

Lemma position_None {A} (p : A → bool) (l : list A) :
  position p l = None ↔ ∀ x, x ∈ l → p x = false.
Proof.
  induction l as [|y l IH]; simpl; [set_solver|].
  destruct (p y) eqn:Hy.
  - split; [done|]. intros Hall. rewrite (Hall y) in Hy; set_solver.
  - rewrite fmap_None, IH. split; [|set_solver].
    intros Hall x [->|Hx]%elem_of_cons; auto.
Qed.

Lemma is_ok_rbind {A B E} (r : result A E) (k : result B E) :
  is_ok (rbind r (λ _, k)) = true ↔ is_ok r = true ∧ is_ok k = true.
Proof. destruct r, k; simpl; tauto. Qed.
