(* ===== verification/RustStr.v ===== *)
(** * The string and character functions of Rust's standard library

    A Rust [String] is its UTF-8 byte sequence, here Stdlib's [string]; [len]
    is the number of bytes. [chars] decodes the scalar values. Only the
    functions the modelled code calls are here. *)

From S2P Require Export Prelude.

(** ** Bytes and scalar values *)

Definition byte_of (a : ascii) : Z := Z.of_N (N_of_ascii a).

Definition str_len (s : string) : nat := String.length s.

Fixpoint str_bytes (s : string) : list Z :=
  match s with
  | EmptyString => []
  | String a s' => byte_of a :: str_bytes s'
  end.

(** One decoding step: the scalar value at the head of valid UTF-8 and the
    rest. A byte that cannot start a scalar value (which valid UTF-8 never
    has in head position) yields [-1]. *)
Definition decode_one (s : string) : option (Z * string) :=
  match s with
  | EmptyString => None
  | String a s1 =>
      let b0 := byte_of a in
      if Z.ltb b0 128 then Some (b0, s1)
      else if Z.ltb b0 192 then Some ((-1)%Z, s1)
      else if Z.ltb b0 224 then
        match s1 with
        | String b s2 => Some ((Z.land b0 31 * 64 + Z.land (byte_of b) 63)%Z, s2)
        | EmptyString => Some ((-1)%Z, s1)
        end
      else if Z.ltb b0 240 then
        match s1 with
        | String b (String c s3) =>
            Some ((Z.land b0 15 * 4096 + Z.land (byte_of b) 63 * 64
                   + Z.land (byte_of c) 63)%Z, s3)
        | _ => Some ((-1)%Z, s1)
        end
      else
        match s1 with
        | String b (String c (String d s4)) =>
            Some ((Z.land b0 7 * 262144 + Z.land (byte_of b) 63 * 4096
                   + Z.land (byte_of c) 63 * 64 + Z.land (byte_of d) 63)%Z, s4)
        | _ => Some ((-1)%Z, s1)
        end
  end.

(** [str::chars]: a string of [n] bytes has at most [n] scalar values. *)
Fixpoint chars_fuel (fuel : nat) (s : string) : list Z :=
  match fuel with
  | 0 => []
  | S fuel' =>
      match decode_one s with
      | None => []
      | Some (c, s') => c :: chars_fuel fuel' s'
      end
  end.

Definition chars (s : string) : list Z := chars_fuel (str_len s) s.

(** ** Character classes *)

Definition in_range (lo hi c : Z) : bool := Z.leb lo c && Z.leb c hi.

(** [char::is_control]: general category Cc. *)
Definition is_control (c : Z) : bool := in_range 0 31 c || in_range 127 159 c.

(** [char::is_whitespace]: the White_Space property. *)
Definition is_whitespace (c : Z) : bool :=
  in_range 9 13 c || Z.eqb c 32 || Z.eqb c 133 || Z.eqb c 160 || Z.eqb c 5760
  || in_range 8192 8202 c || Z.eqb c 8232 || Z.eqb c 8233 || Z.eqb c 8239
  || Z.eqb c 8287 || Z.eqb c 12288.

Definition is_ascii_digit (c : Z) : bool := in_range 48 57 c.
Definition is_ascii_lowercase (c : Z) : bool := in_range 97 122 c.
Definition is_ascii_uppercase (c : Z) : bool := in_range 65 90 c.
Definition is_ascii_alphabetic (c : Z) : bool :=
  is_ascii_lowercase c || is_ascii_uppercase c.
Definition is_ascii_alphanumeric (c : Z) : bool :=
  is_ascii_alphabetic c || is_ascii_digit c.

(** [char::to_ascii_lowercase] *)
Definition to_ascii_lowercase (c : Z) : Z :=
  if is_ascii_uppercase c then (c + 32)%Z else c.

(** The scalar value of an ASCII character literal. *)
Definition ch (a : ascii) : Z := byte_of a.

(** ** Operations on strings *)

Definition starts_with (s p : string) : bool := String.prefix p s.

Definition str_is_empty (s : string) : bool :=
  match s with EmptyString => true | _ => false end.

Fixpoint str_drop (n : nat) (s : string) : string :=
  match n, s with
  | 0, _ => s
  | S n', String _ s' => str_drop n' s'
  | S _, EmptyString => EmptyString
  end.

Fixpoint str_take (n : nat) (s : string) : string :=
  match n, s with
  | S n', String a s' => String a (str_take n' s')
  | _, _ => EmptyString
  end.

(** [str::strip_prefix] *)
Definition strip_prefix (s p : string) : option string :=
  if starts_with s p then Some (str_drop (str_len p) s) else None.

Definition ascii_of_byte (b : Z) : ascii := ascii_of_N (Z.to_N b).

(** [str::trim_start] *)
Fixpoint trim_start_fuel (fuel : nat) (s : string) : string :=
  match fuel with
  | 0 => s
  | S fuel' =>
      match decode_one s with
      | Some (c, s') => if is_whitespace c then trim_start_fuel fuel' s' else s
      | None => s
      end
  end.

Definition trim_start (s : string) : string := trim_start_fuel (str_len s) s.

(** [str::trim_end]: cut where the rest decodes to whitespace only. *)
Fixpoint trim_end (s : string) : string :=
  if forallb is_whitespace (chars s) then EmptyString
  else match s with
       | EmptyString => EmptyString
       | String a s' => String a (trim_end s')
       end.

Definition trim (s : string) : string := trim_end (trim_start s).

(** [u32::to_string] and the other unsigned displays. *)
Definition show_Z (n : Z) : string := pretty (Z.to_N n).

(** [s.parse::<uN>()]: an optional [+], then digits, below the bound. *)
Fixpoint parse_digits (bound : Z) (s : string) (acc : Z) : option Z :=
  match s with
  | EmptyString => Some acc
  | String a s' =>
    if is_ascii_digit (byte_of a) then
      let acc' := (acc * 10 + (byte_of a - 48))%Z in
      if Z.ltb acc' bound then parse_digits bound s' acc' else None
    else None
  end.

Definition parse_uint (bound : Z) (s : string) : option Z :=
  let digits := match strip_prefix s "+" with Some rest => rest | None => s end in
  if str_is_empty digits then None else parse_digits bound digits 0.

(** [s.split(c)] for an ASCII character: never empty. *)
Fixpoint split_char (c : ascii) (s : string) : list string :=
  match s with
  | EmptyString => [EmptyString]
  | String a s' =>
    if Ascii.eqb a c then EmptyString :: split_char c s'
    else match split_char c s' with
         | p :: ps => String a p :: ps
         | [] => [String a EmptyString]
         end
  end.

(** [s.lines()]: pieces ended by a newline, a carriage return before it
    dropped; a last piece without newline only when it is not empty. *)
Definition strip_cr (s : string) : string :=
  let n := str_len s in
  match str_drop (n - 1) s with
  | String "013" EmptyString => str_take (n - 1) s
  | _ => s
  end.
Fixpoint lines_of (pieces : list string) : list string :=
  match pieces with
  | [] => []
  | [last] => if str_is_empty last then [] else [last]
  | p :: ps => strip_cr p :: lines_of ps
  end.
Definition lines (s : string) : list string := lines_of (split_char "010" s).

(** [s.split_once(c)] and [s.rsplit_once(c)]. *)
Fixpoint split_once (c : ascii) (s : string) : option (string * string) :=
  match s with
  | EmptyString => None
  | String a s' =>
    if Ascii.eqb a c then Some (EmptyString, s')
    else (λ p, (String a p.1, p.2)) <$> split_once c s'
  end.
Fixpoint rsplit_once (c : ascii) (s : string) : option (string * string) :=
  match s with
  | EmptyString => None
  | String a s' =>
    match rsplit_once c s' with
    | Some (l, r) => Some (String a l, r)
    | None => if Ascii.eqb a c then Some (EmptyString, s') else None
    end
  end.

(** [s.split_once(p)] for a string pattern. *)
Fixpoint split_once_str (p s : string) : option (string * string) :=
  if starts_with s p then Some (EmptyString, str_drop (str_len p) s)
  else match s with
       | EmptyString => None
       | String a s' => (λ q, (String a q.1, q.2)) <$> split_once_str p s'
       end.

Definition contains_char (s : string) (c : ascii) : bool := is_some (split_once c s).

(** [s.to_ascii_lowercase()] *)
Fixpoint str_lowercase (s : string) : string :=
  match s with
  | EmptyString => EmptyString
  | String a s' => String (ascii_of_byte (to_ascii_lowercase (byte_of a))) (str_lowercase s')
  end.

(** ** Lemmas *)

Lemma str_len_app (s t : string) : str_len (s +:+ t) = str_len s + str_len t.
Proof. induction s as [|a s IH]; simpl; [done|]. by rewrite IH. Qed.

Lemma starts_with_app (p s : string) : starts_with (p +:+ s) p = true.
Proof.
  unfold starts_with. induction p as [|a p IH]; [by destruct s|].
  simpl. destruct (ascii_dec a a); [done|congruence].
Qed.

Lemma starts_with_spec (s p : string) :
  starts_with s p = true → ∃ t, s = p +:+ t.
Proof.
  unfold starts_with. revert s. induction p as [|a p IH]; intros s H.
  - by exists s.
  - destruct s as [|b s]; simpl in H; [done|].
    destruct (ascii_dec a b) as [->|]; [|done].
    destruct (IH s H) as [t ->]. by exists t.
Qed.

Lemma str_drop_app (p s : string) : str_drop (str_len p) (p +:+ s) = s.
Proof. induction p as [|a p IH]; simpl; [done|]. exact IH. Qed.

Lemma strip_prefix_app (p s : string) : strip_prefix (p +:+ s) p = Some s.
Proof. unfold strip_prefix. by rewrite starts_with_app, str_drop_app. Qed.

Lemma strip_prefix_spec (s p t : string) :
  strip_prefix s p = Some t ↔ s = p +:+ t.
Proof.
  split.
  - unfold strip_prefix. destruct (starts_with s p) eqn:E; [|done].
    apply starts_with_spec in E as [u ->]. rewrite str_drop_app. congruence.
  - intros ->. apply strip_prefix_app.
Qed.

Lemma app_inj_l (p s t : string) : p +:+ s = p +:+ t → s = t.
Proof. induction p as [|a p IH]; simpl; [done|]. intros [=]; auto. Qed.

(** ** More of [str], for ASCII text *)

(** [s.as_bytes().iter().all(p)] *)
Fixpoint str_all (p : ascii → bool) (s : string) : bool :=
  match s with
  | EmptyString => true
  | String a s' => p a && str_all p s'
  end.

(** [String::push] of an ASCII character. *)
Definition str_push (s : string) (c : Z) : string := s +:+ String (ascii_of_byte c) EmptyString.

(** [ends_with(c)] and [trim_end_matches(c)] for an ASCII character. *)
Fixpoint ends_with_char (s : string) (c : ascii) : bool :=
  match s with
  | EmptyString => false
  | String a EmptyString => Ascii.eqb a c
  | String _ s' => ends_with_char s' c
  end.

Fixpoint trim_end_char (s : string) (c : ascii) : string :=
  if str_all (λ a, Ascii.eqb a c) s then EmptyString
  else match s with
       | EmptyString => EmptyString
       | String a s' => String a (trim_end_char s' c)
       end.

(** [{:0width$x}] of a number below [16^width]. *)
Definition hex_digit (z : Z) : ascii :=
  ascii_of_byte (if Z.ltb z 10 then 48 + z else 87 + z)%Z.
Fixpoint hex_padded (width : nat) (z : Z) : string :=
  match width with
  | O => EmptyString
  | S w => hex_padded w (Z.shiftr z 4) +:+ String (hex_digit (Z.land z 15)) EmptyString
  end.

Lemma str_all_app p s t : str_all p (s +:+ t) = str_all p s && str_all p t.
Proof. induction s as [|a s IH]; simpl; [done|]. by rewrite IH, andb_assoc. Qed.

Lemma str_all_impl (p q : ascii → bool) s :
  (∀ a, p a = true → q a = true) → str_all p s = true → str_all q s = true.
Proof.
  intros Hpq. induction s as [|a s IH]; simpl; [done|].
  intros [Ha Hs]%andb_true_iff. by rewrite Hpq, IH.
Qed.

Lemma str_all_take p n s : str_all p s = true → str_all p (str_take n s) = true.
Proof.
  revert s. induction n as [|n IH]; intros [|a s]; simpl; try done.
  intros [Ha Hs]%andb_true_iff. by rewrite Ha, IH.
Qed.

Lemma str_len_take n s : str_len (str_take n s) = Nat.min n (str_len s).
Proof. revert s. induction n as [|n IH]; intros [|a s]; simpl; try done. by rewrite IH. Qed.

Lemma trim_end_char_prefix s c : ∃ n, trim_end_char s c = str_take n s.
Proof.
  induction s as [|a s [n IH]]; simpl; [by exists 0|].
  destruct (Ascii.eqb a c && str_all _ s); [by exists 0|]. exists (S n). simpl. by rewrite IH.
Qed.

Lemma str_len_hex_padded w z : str_len (hex_padded w z) = w.
Proof.
  revert z. induction w as [|w IH]; intros z; simpl; [done|].
  rewrite str_len_app, IH. simpl. lia.
Qed.

(** A byte string below 128 decodes to its bytes. *)
Definition is_ascii_byte (a : ascii) : bool := Z.ltb (byte_of a) 128.

Lemma chars_fuel_ascii s fuel :
  str_all is_ascii_byte s = true → str_len s ≤ fuel → chars_fuel fuel s = str_bytes s.
Proof.
  revert fuel. induction s as [|a s IH]; intros [|fuel]; simpl; try done; [lia|].
  intros [Ha Hs]%andb_true_iff Hf. unfold is_ascii_byte in Ha. rewrite Ha.
  rewrite IH by (done || lia). done.
Qed.

Lemma chars_ascii s : str_all is_ascii_byte s = true → chars s = str_bytes s.
Proof. intros Hs. by apply chars_fuel_ascii. Qed.

Lemma forallb_str_bytes (p : Z → bool) s :
  forallb p (str_bytes s) = str_all (λ a, p (byte_of a)) s.
Proof. induction s as [|a s IH]; simpl; [done|]. by rewrite IH. Qed.

(** ** Pieces of a string keep what all its bytes have *)

Lemma str_all_drop p n s : str_all p s = true → str_all p (str_drop n s) = true.
Proof.
  revert s. induction n as [|n IH]; intros [|a s]; simpl; try done.
  intros [_ Hs]%andb_true_iff. by apply IH.
Qed.

Lemma str_all_decode p s c s' :
  decode_one s = Some (c, s') → str_all p s = true → str_all p s' = true.
Proof.
  destruct s as [|a s]; simpl; [done|]. intros Hd [_ Hs]%andb_true_iff.
  repeat (case_match; simplify_eq/=; try done);
    repeat match goal with
    | H : (_ && _)%bool = true |- _ => apply andb_true_iff in H as [_ ?]
    end; done.
Qed.

Lemma str_all_trim p s : str_all p s = true → str_all p (trim s) = true.
Proof.
  intros Hs. unfold trim.
  assert (str_all p (trim_start s) = true) as Ht.
  { unfold trim_start. generalize (str_len s). intros fuel. revert s Hs.
    induction fuel as [|fuel IH]; intros s Hs; simpl; [done|].
    destruct (decode_one s) as [[c s']|] eqn:Hd; [|done].
    destruct (is_whitespace c); [|done]. apply IH. by eapply str_all_decode. }
  revert Ht. generalize (trim_start s). clear s Hs. intros s.
  induction s as [|a s IH]; [done|]. simpl. intros [Ha Hs]%andb_true_iff.
  destruct (forallb _ _); [done|]. simpl. by rewrite Ha, IH.
Qed.

Lemma str_all_split_char p c s piece :
  str_all p s = true → piece ∈ split_char c s → str_all p piece = true.
Proof.
  revert piece. induction s as [|a s IH]; intros piece; simpl.
  - by intros _ ->%list_elem_of_singleton.
  - intros [Ha Hs]%andb_true_iff. destruct (Ascii.eqb a c).
    + intros [->|Hin]%elem_of_cons; [done|by apply IH].
    + destruct (split_char c s) as [|q qs] eqn:Hq.
      * intros ->%list_elem_of_singleton. simpl. by rewrite Ha.
      * intros [->|Hin]%elem_of_cons.
        -- simpl. rewrite Ha. apply IH; [done|]. apply list_elem_of_here.
        -- apply IH; [done|]. by apply list_elem_of_further.
Qed.

Lemma split_char_none c s piece :
  piece ∈ split_char c s → str_all (λ a, negb (Ascii.eqb a c)) piece = true.
Proof.
  revert piece. induction s as [|a s IH]; intros piece; simpl.
  - by intros ->%list_elem_of_singleton.
  - destruct (Ascii.eqb a c) eqn:Ha.
    + intros [->|Hin]%elem_of_cons; [done|by apply IH].
    + destruct (split_char c s) as [|q qs] eqn:Hq.
      * intros ->%list_elem_of_singleton. simpl. by rewrite Ha.
      * intros [->|Hin]%elem_of_cons.
        -- simpl. rewrite Ha. apply IH. apply list_elem_of_here.
        -- apply IH. by apply list_elem_of_further.
Qed.

Lemma lines_no_newline s line :
  line ∈ lines s → str_all (λ a, negb (Ascii.eqb a "010")) line = true.
Proof.
  unfold lines. intros Hl.
  assert (∀ pieces, (∀ q, q ∈ pieces → str_all (λ a, negb (Ascii.eqb a "010")) q = true) →
    line ∈ lines_of pieces → str_all (λ a, negb (Ascii.eqb a "010")) line = true) as Hgen.
  { clear Hl. intros pieces. induction pieces as [|q pieces IH]; intros Hall; simpl.
    - by intros ?%elem_of_nil.
    - destruct pieces as [|q' pieces].
      + destruct (str_is_empty q); [by intros ?%elem_of_nil|].
        intros ->%list_elem_of_singleton. apply Hall, list_elem_of_here.
      + intros [->|Hin]%elem_of_cons.
        * unfold strip_cr.
          assert (str_all (λ a, negb (Ascii.eqb a "010")) q = true)
            by apply Hall, list_elem_of_here.
          repeat case_match; try done. by apply str_all_take.
        * apply IH; [|done]. intros r Hr. apply Hall. by apply list_elem_of_further. }
  eapply Hgen; [|exact Hl]. intros q Hq. by apply (split_char_none "010" s).
Qed.

Lemma split_once_all p c s l r :
  split_once c s = Some (l, r) → str_all p s = true → str_all p l = true ∧ str_all p r = true.
Proof.
  revert l r. induction s as [|a s IH]; intros l r; simpl; [done|].
  destruct (Ascii.eqb a c).
  - by intros [= <- <-] [_ ?]%andb_true_iff.
  - destruct (split_once c s) as [[l' r']|]; simpl; [|done].
    intros [= <- <-] [Ha Hs]%andb_true_iff. simpl. rewrite Ha.
    by destruct (IH l' r' eq_refl Hs) as [-> ->].
Qed.

Lemma str_take_app n s t : n = str_len s → str_take n (s +:+ t) = s.
Proof.
  intros ->. induction s as [|a s IH]; [by destruct t|].
  change (String a (str_take (str_len s) (s +:+ t)) = String a s). by rewrite IH.
Qed.

Lemma str_drop_app_ge n s t : n = str_len s → str_drop n (s +:+ t) = t.
Proof. intros ->. apply str_drop_app. Qed.

Lemma str_app_assoc (s t u : string) : s +:+ t +:+ u = (s +:+ t) +:+ u.
Proof.
  induction s as [|a s IH]; [done|].
  change (String a (s +:+ t +:+ u) = String a ((s +:+ t) +:+ u)). by rewrite IH.
Qed.

Lemma str_app_nil_r (s : string) : s +:+ "" = s.
Proof.
  induction s as [|a s IH]; [done|]. change (String a (s +:+ "") = String a s). by rewrite IH.
Qed.

Lemma str_all_concat p sep l :
  str_all p sep = true → (∀ s, s ∈ l → str_all p s = true) →
  str_all p (String.concat sep l) = true.
Proof.
  intros Hsep. induction l as [|s l IH]; intros Hall; [done|].
  destruct l as [|s' l].
  - apply Hall, list_elem_of_here.
  - change (String.concat sep (s :: s' :: l)) with (s +:+ sep +:+ String.concat sep (s' :: l)).
    rewrite !str_all_app, Hsep, IH, Hall; [done|apply list_elem_of_here|].
    intros t Ht. apply Hall. by apply list_elem_of_further.
Qed.
