(* ===== verification/StdText.v ===== *)
(** * Words, lines and paths

    What the modelled code uses of [str::split_whitespace], of [std::path]
    and of text built line by line, with the lemmas that read such a text
    back. *)

From S2P Require Export RustStr.

Definition newline : string := String "010" EmptyString.

(** ** Words *)

(** [[word]], or nothing when it is empty. *)
Definition flush_word (word : string) : list string :=
  if str_is_empty word then [] else [word].

(** [str::split_whitespace] *)
Fixpoint split_ws_fuel (fuel : nat) (s word : string) : list string :=
  match fuel with
  | 0 => flush_word word
  | S fuel' =>
    match decode_one s with
    | None => flush_word word
    | Some (c, rest) =>
      if is_whitespace c then flush_word word ++ split_ws_fuel fuel' rest EmptyString
      else split_ws_fuel fuel' rest (word +:+ str_take (str_len s - str_len rest) s)
    end
  end.

Definition split_whitespace (s : string) : list string := split_ws_fuel (str_len s) s EmptyString.

(** [u8::is_ascii_whitespace]: no vertical tab. *)
Definition is_ascii_whitespace (c : Z) : bool :=
  Z.eqb c 9 || Z.eqb c 10 || Z.eqb c 12 || Z.eqb c 13 || Z.eqb c 32.

(** [trim_start_matches(c)] and [trim_matches(c)] for an ASCII character. *)
Fixpoint trim_start_char (s : string) (c : ascii) : string :=
  match s with
  | String a s' => if Ascii.eqb a c then trim_start_char s' c else s
  | EmptyString => EmptyString
  end.

Definition trim_char (s : string) (c : ascii) : string := trim_end_char (trim_start_char s c) c.

(** [strip_suffix(c)] for an ASCII character. *)
Fixpoint strip_suffix_char (s : string) (c : ascii) : option string :=
  match s with
  | EmptyString => None
  | String a EmptyString => if Ascii.eqb a c then Some EmptyString else None
  | String a s' => String a <$> strip_suffix_char s' c
  end.

(** [bytes.windows(p.len()).any(|w| w == p)] for a non-empty pattern. *)
Fixpoint contains_bytes (p s : list Z) : bool :=
  match s with
  | [] => false
  | _ :: s' => (take (length p) s =b p) || contains_bytes p s'
  end.

(** [matches!(s, "a" | "b" | ...)] *)
Definition one_of (s : string) (l : list string) : bool := existsb (λ t, s =b t) l.

(** ** Paths (Unix) *)

Inductive Component : Type := RootDir | CurDir | ParentDir | Normal (name : string).

#[export] Instance Component_eq_dec : EqDecision Component.
Proof. solve_decision. Defined.

(** [Path::components]: repeated slashes and inner dots are skipped. *)
Definition piece_component (first : bool) (piece : string) : option Component :=
  if str_is_empty piece then None
  else if piece =b "." then if first then Some CurDir else None
  else if piece =b ".." then Some ParentDir
  else Some (Normal piece).

Definition components (p : string) : list Component :=
  match split_char "/" p with
  | [] => []
  | piece :: pieces =>
    (if starts_with p "/" then [RootDir] else [])
      ++ omap id (piece_component true piece :: map (piece_component false) pieces)
  end.

(** [path.strip_prefix(base)], as the remaining components. *)
Fixpoint strip_components (p base : list Component) : option (list Component) :=
  match base, p with
  | [], _ => Some p
  | b :: base', c :: p' => if b =b c then strip_components p' base' else None
  | _, [] => None
  end.

(** [Path::join] *)
Definition path_join (p s : string) : string :=
  if starts_with s "/" then s
  else if str_is_empty p || ends_with_char p "/" then p +:+ s
  else p +:+ "/" +:+ s.

(** ** Texts built line by line *)

Definition unlines (ls : list string) : string :=
  foldr (λ l acc, l +:+ newline +:+ acc) EmptyString ls.

(** A line [str::lines] gives back unchanged. *)
Definition whole_line (l : string) : bool :=
  str_all (λ a, negb (Ascii.eqb a "010") && negb (Ascii.eqb a "013")) l.

Lemma unlines_app ls ls' : unlines (ls ++ ls') = unlines ls +:+ unlines ls'.
Proof.
  induction ls as [|l ls IH]; [done|]. simpl. by rewrite IH, !str_app_assoc.
Qed.

Lemma unlines_one l : unlines [l] = l +:+ newline.
Proof. simpl. by rewrite str_app_nil_r. Qed.

Lemma split_char_app c l s :
  str_all (λ a, negb (Ascii.eqb a c)) l = true →
  split_char c (l +:+ String c s) = l :: split_char c s.
Proof.
  induction l as [|a l IH]; simpl.
  - by rewrite Ascii.eqb_refl.
  - intros [Ha Hl]%andb_true_iff. apply negb_true_iff in Ha. rewrite Ha.
    by rewrite (IH Hl).
Qed.

Lemma split_char_nonempty c s : split_char c s ≠ [].
Proof.
  destruct s as [|a s]; simpl; [done|]. destruct (Ascii.eqb a c); [done|].
  by destruct (split_char c s).
Qed.

Lemma str_drop_last l : str_drop (str_len l - 1) l = EmptyString ∨
  ∃ l' a, l = l' +:+ String a EmptyString ∧ str_drop (str_len l - 1) l = String a EmptyString.
Proof.
  induction l as [|b l IH]; [by left|]. right. destruct l as [|b' l].
  - by exists EmptyString, b.
  - destruct IH as [IH|(l' & a & IH1 & IH2)].
    + simpl in *. replace (str_len l - 0) with (str_len l) in * by lia.
      exfalso. clear -IH. revert b' IH. induction l as [|c l IHl]; intros b' IH; [done|].
      simpl in IH. by apply (IHl c).
    + exists (String b l'), a. rewrite IH1 at 1. split; [done|].
      simpl in *. by replace (str_len l - 0) with (str_len l) in * by lia.
Qed.

Lemma strip_cr_whole l : whole_line l = true → strip_cr l = l.
Proof.
  intros Hl. unfold strip_cr. destruct (str_drop_last l) as [->|(l' & a & Heq & ->)]; [done|].
  rewrite Heq in Hl. unfold whole_line in Hl. rewrite str_all_app in Hl.
  apply andb_true_iff in Hl as [_ Ha]. simpl in Ha.
  rewrite andb_true_r in Ha. apply andb_true_iff in Ha as [_ Ha].
  destruct a as [b0 b1 b2 b3 b4 b5 b6 b7].
  by destruct b0, b1, b2, b3, b4, b5, b6, b7.
Qed.

Lemma lines_unlines ls : forallb whole_line ls = true → lines (unlines ls) = ls.
Proof.
  unfold lines. induction ls as [|l ls IH]; [done|]. simpl.
  intros [Hl Hls]%andb_true_iff.
  change (newline +:+ unlines ls) with (String "010" (unlines ls)). rewrite split_char_app.
  - specialize (IH Hls). simpl.
    destruct (split_char "010" (unlines ls)) as [|p ps] eqn:Hs; [by apply split_char_nonempty in Hs|].
    by rewrite strip_cr_whole, IH.
  - eapply str_all_impl; [|exact Hl]. intros a Ha. by apply andb_true_iff in Ha as [? _].
Qed.

(** ** Words joined by a space *)

Fixpoint unwords (ws : list string) : string :=
  match ws with
  | [] => EmptyString
  | [w] => w
  | w :: ws' => w +:+ " " +:+ unwords ws'
  end.

(** The words C's [isspace] separates. *)
Definition is_space (a : ascii) : bool := in_range 9 13 (byte_of a) || Z.eqb (byte_of a) 32.

Fixpoint words_from (s word : string) : list string :=
  match s with
  | EmptyString => flush_word word
  | String a s' =>
    if is_space a then flush_word word ++ words_from s' EmptyString
    else words_from s' (word +:+ String a EmptyString)
  end.

Definition words (s : string) : list string := words_from s EmptyString.

Definition is_word (w : string) : bool :=
  negb (str_is_empty w) && str_all (λ a, negb (is_space a)) w.

Lemma words_from_word w s word :
  str_all (λ a, negb (is_space a)) w = true → words_from (w +:+ s) word = words_from s (word +:+ w).
Proof.
  revert word. induction w as [|a w IH]; intros word; simpl; [by rewrite str_app_nil_r|].
  intros [Ha Hw]%andb_true_iff. apply negb_true_iff in Ha. rewrite Ha, IH by done.
  by rewrite <- str_app_assoc.
Qed.

Lemma words_unwords ws : forallb is_word ws = true → words (unwords ws) = ws.
Proof.
  unfold words. induction ws as [|w ws IH]; [done|]. cbn [forallb].
  intros [Hw Hws]%andb_true_iff. unfold is_word in Hw. apply andb_true_iff in Hw as [Hne Hall].
  apply negb_true_iff in Hne. destruct ws as [|w' ws].
  - cbn [unwords]. rewrite <- (str_app_nil_r w) at 1. rewrite words_from_word by done.
    change (flush_word w = [w]). unfold flush_word. by rewrite Hne.
  - change (unwords (w :: w' :: ws)) with (w +:+ " " +:+ unwords (w' :: ws)).
    rewrite words_from_word by done.
    change (words_from (" " +:+ unwords (w' :: ws)) (EmptyString +:+ w))
      with (flush_word w ++ words_from (unwords (w' :: ws)) EmptyString).
    rewrite IH by done. unfold flush_word. by rewrite Hne.
Qed.

Lemma str_all_unwords p ws :
  p " "%char = true → forallb (str_all p) ws = true → str_all p (unwords ws) = true.
Proof.
  intros Hsp. induction ws as [|w ws IH]; [done|]. cbn [forallb].
  intros [Hw Hws]%andb_true_iff. destruct ws as [|w' ws]; [done|].
  change (unwords (w :: w' :: ws)) with (w +:+ " " +:+ unwords (w' :: ws)).
  rewrite !str_all_app, Hw, IH by done. simpl. by rewrite Hsp.
Qed.

(** A path whose pieces are made of [p] is made of [p] and slashes. *)
Lemma str_all_pieces p c s :
  p c = true → forallb (str_all p) (split_char c s) = true → str_all p s = true.
Proof.
  intros Hc. induction s as [|a s IH]; [done|]. simpl.
  destruct (Ascii.eqb_spec a c) as [->|Hne].
  - simpl. intros H. by rewrite Hc, IH.
  - destruct (split_char c s) as [|q qs] eqn:Hs; [by apply split_char_nonempty in Hs|].
    cbn [forallb str_all]. intros [[Ha Hq]%andb_true_iff Hqs]%andb_true_iff. rewrite Ha, IH; [done|].
    cbn [forallb]. by rewrite Hq.
Qed.

(** ** Valid UTF-8

    A Rust [String] is always valid: no byte stands alone that may not, and
    the bytes after the first of a scalar value are continuation bytes. *)

Definition continues (a : ascii) : bool := Z.leb 128 (byte_of a).

Fixpoint utf8_fuel (fuel : nat) (s : string) : bool :=
  match fuel with
  | 0 => str_is_empty s
  | S fuel' =>
    match decode_one s with
    | None => true
    | Some (c, rest) =>
      Z.leb 0 c && str_all continues (str_drop 1 (str_take (str_len s - str_len rest) s))
      && utf8_fuel fuel' rest
    end
  end.

Definition valid_utf8 (s : string) : bool := utf8_fuel (str_len s) s.

(** A byte of a longer scalar value, or no control character. *)
Definition plain_byte (a : ascii) : bool := continues a || negb (is_control (byte_of a)).

Lemma take_all_but s t : str_take (str_len (s +:+ t) - str_len t) (s +:+ t) = s.
Proof. rewrite str_len_app, Nat.add_sub. by apply str_take_app. Qed.

(** What one decoding step takes. *)
Lemma decode_one_takes s c rest :
  decode_one s = Some (c, rest) → (0 ≤ c)%Z →
  (∃ a, s = String a rest ∧ byte_of a = c) ∨
  (∃ a taken, s = String a taken +:+ rest ∧ continues a = true).
Proof.
  destruct s as [|a s1]; [done|]. unfold decode_one, continues.
  destruct (Z.ltb_spec (byte_of a) 128); [intros [= <- <-] _; left; by exists a|].
  assert (Z.leb 128 (byte_of a) = true) as Ha by (by apply Z.leb_le).
  destruct (Z.ltb (byte_of a) 192); [by intros [= <- <-]|].
  destruct (Z.ltb (byte_of a) 224).
  { destruct s1 as [|b s2]; [by intros [= <- <-]|]. intros [= <- <-] _. right.
    by exists a, (String b EmptyString). }
  destruct (Z.ltb (byte_of a) 240).
  { destruct s1 as [|b [|d s3]]; try by intros [= <- <-]. intros [= <- <-] _. right.
    by exists a, (String b (String d EmptyString)). }
  destruct s1 as [|b [|d [|e s4]]]; try by intros [= <- <-]. intros [= <- <-] _. right.
  by exists a, (String b (String d (String e EmptyString))).
Qed.

Lemma decode_one_none s : decode_one s = None → s = EmptyString.
Proof. destruct s as [|a s]; [done|]. unfold decode_one. intros Hd. by repeat case_match. Qed.

Lemma utf8_plain fuel s :
  utf8_fuel fuel s = true → existsb is_control (chars_fuel fuel s) = false →
  str_all plain_byte s = true.
Proof.
  revert s. induction fuel as [|fuel IH]; intros s; [by destruct s|]. cbn [utf8_fuel chars_fuel].
  destruct (decode_one s) as [[c rest]|] eqn:Hd; [|by apply decode_one_none in Hd as ->].
  intros [[Hc%Z.leb_le Htail]%andb_true_iff Hrest]%andb_true_iff.
  cbn [existsb]. intros [Hctl Hctls]%orb_false_iff. specialize (IH rest Hrest Hctls).
  destruct (decode_one_takes s c rest Hd Hc) as [(a & -> & <-)|(a & taken & -> & Ha)].
  - cbn [str_all]. unfold plain_byte at 1. by rewrite Hctl, IH, orb_true_r.
  - rewrite take_all_but in Htail. cbn [str_drop] in Htail.
    rewrite str_all_app, IH, andb_true_r. cbn [str_all]. unfold plain_byte at 1. rewrite Ha. simpl.
    eapply str_all_impl; [|exact Htail]. intros b Hb. unfold plain_byte. by rewrite Hb.
Qed.

Lemma plain_line s : str_all plain_byte s = true → whole_line s = true.
Proof.
  apply str_all_impl. intros a Ha. unfold plain_byte in Ha.
  destruct (Ascii.eqb_spec a "010") as [->|]; [done|].
  by destruct (Ascii.eqb_spec a "013") as [->|].
Qed.

(** ** [std::str::from_utf8]

    The byte sequences of Unicode's table of well-formed UTF-8. *)

Definition continuation (b : Z) : bool := in_range 128 191 b.

(** The second byte a first byte of a longer sequence allows. *)
Definition second_of_three (a b : Z) : bool :=
  if Z.eqb a 224 then in_range 160 191 b
  else if Z.eqb a 237 then in_range 128 159 b
  else continuation b.

Definition second_of_four (a b : Z) : bool :=
  if Z.eqb a 240 then in_range 144 191 b
  else if Z.eqb a 244 then in_range 128 143 b
  else continuation b.

Fixpoint well_formed_utf8 (bs : list Z) : bool :=
  match bs with
  | [] => true
  | a :: bs1 =>
    if Z.ltb a 128 then well_formed_utf8 bs1
    else match bs1 with
    | [] => false
    | b :: bs2 =>
      if in_range 194 223 a then continuation b && well_formed_utf8 bs2
      else match bs2 with
      | [] => false
      | c :: bs3 =>
        if in_range 224 239 a then second_of_three a b && continuation c && well_formed_utf8 bs3
        else match bs3 with
        | [] => false
        | d :: bs4 =>
          in_range 240 244 a && second_of_four a b && continuation c && continuation d
          && well_formed_utf8 bs4
        end
      end
    end
  end.

Definition string_of_bytes (bs : list Z) : string :=
  foldr (λ b s, String (ascii_of_byte b) s) EmptyString bs.

Definition from_utf8 (bs : list Z) : option string :=
  if well_formed_utf8 bs then Some (string_of_bytes bs) else None.

Example from_utf8_euro : from_utf8 [226; 130; 172; 10]%Z = Some ("€" +:+ newline).
Proof. reflexivity. Qed.
Example from_utf8_surrogate : from_utf8 [237; 160; 128]%Z = None.
Proof. reflexivity. Qed.
Example from_utf8_overlong : from_utf8 [192; 128]%Z = None.
Proof. reflexivity. Qed.

(** ** Numbers read back *)

Lemma show_digits (n : N) : str_all (λ a, is_ascii_digit (byte_of a)) (pretty n) = true.
Proof.
  unfold pretty, pretty_N. destruct (decide (n = 0%N)); [done|].
  enough (∀ s, str_all (λ a, is_ascii_digit (byte_of a)) s = true →
            str_all (λ a, is_ascii_digit (byte_of a)) (pretty_N_go n s) = true) as H by by apply H.
  match goal with Hn : n ≠ 0%N |- _ => clear Hn end.
  induction (N.lt_wf_0 n) as [m _ IH]. intros s Hs.
  destruct (decide (0 < m)%N) as [Hm|Hm].
  - rewrite pretty_N_go_step by done. apply IH; [apply N.div_lt; lia|]. simpl. rewrite Hs.
    assert (∀ k, (k < 10)%N → is_ascii_digit (byte_of (pretty_N_char k)) = true) as Hk.
    { intros k Hlt. destruct k as [|[[[|[]|]|[[]|[]|]|]|[[[]|[]|]|[[]|[]|]|]|]]; try done; lia. }
    rewrite Hk; [done|]. apply N.mod_lt. lia.
  - assert (m = 0%N) as -> by lia. by rewrite pretty_N_go_0.
Qed.

Lemma parse_pretty_go bound x s :
  (Z.of_N x < bound)%Z →
  parse_digits bound (pretty_N_go x s) 0 = parse_digits bound s (Z.of_N x).
Proof.
  revert s. induction (N.lt_wf_0 x) as [x _ IH]. intros s Hx. destruct (decide (x = 0)%N) as [->|Hne].
  { by rewrite pretty_N_go_0. }
  rewrite pretty_N_go_step by lia.
  rewrite IH by (try apply N.div_lt; rewrite ?N2Z.inj_div; try apply Z.div_lt_upper_bound; lia).
  cbn [parse_digits].
  assert (∀ d, (d < 10)%N → is_ascii_digit (byte_of (pretty_N_char d)) = true ∧
            (byte_of (pretty_N_char d) - 48)%Z = Z.of_N d) as Hdigit.
  { intros d Hd. assert (d = 0 ∨ d = 1 ∨ d = 2 ∨ d = 3 ∨ d = 4 ∨ d = 5 ∨ d = 6 ∨ d = 7 ∨ d = 8 ∨ d = 9)%N
      as Hcases by lia. by repeat destruct Hcases as [->|Hcases]; [..|subst d]. }
  destruct (Hdigit (x `mod` 10)%N) as [-> ->]; [by apply N.mod_lt|].
  assert (Z.of_N (x `div` 10) * 10 + Z.of_N (x `mod` 10) = Z.of_N x)%Z as ->.
  { rewrite N2Z.inj_div, N2Z.inj_mod. pose proof (Z.div_mod (Z.of_N x) 10). lia. }
  by rewrite (proj2 (Z.ltb_lt _ _) Hx).
Qed.

Lemma parse_digits_show bound z :
  (0 ≤ z < bound)%Z → parse_digits bound (show_Z z) 0 = Some z.
Proof.
  intros Hz. unfold show_Z, pretty, pretty_N. case_decide as H0.
  - assert (z = 0)%Z as -> by lia. change (parse_digits bound "0" 0) with (if Z.ltb 0 bound then Some 0%Z else None).
    by rewrite (proj2 (Z.ltb_lt 0 bound)) by lia.
  - rewrite parse_pretty_go by lia. cbn [parse_digits]. f_equal. lia.
Qed.

(** A displayed number is its digits. *)
Lemma show_Z_start z : ∃ a s, show_Z z = String a s ∧ is_ascii_digit (byte_of a) = true.
Proof.
  destruct (show_Z z) as [|a s] eqn:Hs.
  { exfalso. unfold show_Z in Hs. destruct (decide (Z.to_N z = 0)%N) as [H0|H0].
    - by rewrite H0 in Hs.
    - assert (∀ x s, s ≠ EmptyString → pretty_N_go x s ≠ EmptyString) as Hgo.
      { intros x. induction (N.lt_wf_0 x) as [x _ IH]. intros s Hne.
        destruct (decide (x = 0)%N) as [->|]; [by rewrite pretty_N_go_0|].
        rewrite pretty_N_go_step by lia. apply IH; [apply N.div_lt; lia|done]. }
      unfold pretty, pretty_N in Hs. rewrite decide_False in Hs by done.
      rewrite pretty_N_go_step in Hs by lia. by apply Hgo in Hs. }
  exists a, s. split; [done|]. pose proof (show_digits (Z.to_N z)) as Hd. change (pretty (Z.to_N z)) with (show_Z z) in Hd.
  rewrite Hs in Hd.
  cbn [str_all] in Hd. by apply andb_true_iff in Hd as [Hd _].
Qed.

(** ASCII text without white space is not trimmed. *)
Definition visible (a : ascii) : bool := is_ascii_byte a && negb (is_whitespace (byte_of a)).

Lemma trim_visible s : str_all visible s = true → trim s = s.
Proof.
  intros Hs. assert (trim_start s = s) as Hstart.
  { destruct s as [|a s]; [done|]. simpl in Hs. apply andb_prop in Hs as [[Ha Hw]%andb_prop _].
    unfold trim_start. simpl. unfold is_ascii_byte in Ha. rewrite Ha.
    apply negb_true_iff in Hw. by rewrite Hw. }
  unfold trim. rewrite Hstart. clear Hstart.
  induction s as [|a s IH]; [done|]. cbn [trim_end].
  rewrite chars_ascii by (apply str_all_impl with (2 := Hs); by intros c [? ?]%andb_prop).
  simpl in Hs. apply andb_prop in Hs as [[Ha Hw]%andb_prop Hs]. apply negb_true_iff in Hw.
  cbn [str_bytes forallb]. by rewrite Hw, IH.
Qed.
