(* ===== verification/Net.v ===== *)
(** * Addresses and networks

    [IpAddr] is the standard library's; [IpNet] is the [ipnet] crate's
    network type: an address with a prefix length, host bits allowed. Its
    operations are the class [IpNetLib], whose fields state what the crate
    documents and what the code relies on; [ipnet_model] instantiates it. *)

From S2P Require Export RustStr.

(** [std::net::IpAddr]: 32-bit and 128-bit addresses. *)
Inductive IpAddr : Type :=
| V4 (a : Z)
| V6 (a : Z).

(** [ipnet::IpNet] through its accessors [addr()] and [prefix_len()]. *)
Record IpNet : Type := mkNet { net_addr : IpAddr; prefix_len : Z }.

#[export] Instance IpAddr_eq_dec : EqDecision IpAddr.
Proof. solve_decision. Defined.
#[export] Instance IpNet_eq_dec : EqDecision IpNet.
Proof. solve_decision. Defined.

#[export] Instance IpAddr_countable : Countable IpAddr.
Proof.
  refine (inj_countable' (λ a, match a with V4 z => inl z | V6 z => inr z end)
            (λ s, match s with inl z => V4 z | inr z => V6 z end) _).
  by intros [].
Defined.
#[export] Instance IpNet_countable : Countable IpNet.
Proof.
  refine (inj_countable' (λ n, (net_addr n, prefix_len n)) (λ p, mkNet p.1 p.2) _).
  by intros [].
Defined.

(** ** [IpAddr] predicates of the standard library *)

Definition is_ipv4 (a : IpAddr) : bool := match a with V4 _ => true | V6 _ => false end.
Definition is_ipv6 (a : IpAddr) : bool := negb (is_ipv4 a).

Definition is_unspecified (a : IpAddr) : bool :=
  match a with V4 z => Z.eqb z 0 | V6 z => Z.eqb z 0 end.

(** 224.0.0.0/4 and ff00::/8 *)
Definition is_multicast (a : IpAddr) : bool :=
  match a with
  | V4 z => Z.eqb (Z.shiftr z 28) 14
  | V6 z => Z.eqb (Z.shiftr z 120) 255
  end.

(** 127.0.0.0/8 and ::1 *)
Definition is_loopback (a : IpAddr) : bool :=
  match a with
  | V4 z => Z.eqb (Z.shiftr z 24) 127
  | V6 z => Z.eqb z 1
  end.

(** [Ipv4Addr::is_link_local]: 169.254.0.0/16 *)
Definition v4_is_link_local (z : Z) : bool := Z.eqb (Z.shiftr z 16) 43518.

(** [Ipv6Addr::segments()[0]] *)
Definition v6_segment0 (z : Z) : Z := Z.shiftr z 112.

Definition addr_width (a : IpAddr) : Z := if is_ipv4 a then 32 else 128.
Definition addr_bits (a : IpAddr) : Z := match a with V4 z => z | V6 z => z end.
Definition with_bits (a : IpAddr) (z : Z) : IpAddr :=
  match a with V4 _ => V4 z | V6 _ => V6 z end.

Definition net_is_ipv4 (n : IpNet) : bool := is_ipv4 (net_addr n).
Definition net_is_ipv6 (n : IpNet) : bool := is_ipv6 (net_addr n).

(** [IpNet::from(addr)]: the host network. *)
Definition net_of_ip (a : IpAddr) : IpNet := mkNet a (addr_width a).

(** [IpNet::new(addr, len).ok()] *)
Definition net_new (a : IpAddr) (len : Z) : option IpNet :=
  if Z.leb len (addr_width a) then Some (mkNet a len) else None.

(** Octet constructor for examples and constants. *)
Definition ip4 (a b c d : Z) : IpAddr := V4 (((a * 256 + b) * 256 + c) * 256 + d).

(** ** What the code uses of the [ipnet] crate *)

Class IpNetLib : Type := {
  (** [IpNet::trunc]: clear the host bits. *)
  trunc : IpNet → IpNet;
  (** [IpNet::contains(&IpAddr)] *)
  contains_ip : IpNet → IpAddr → bool;
  (** [IpNet::contains(&IpNet)] *)
  contains_net : IpNet → IpNet → bool;
  (** [IpNet::aggregate] *)
  aggregate : list IpNet → list IpNet;
  (** [str::parse::<IpNet>] and [str::parse::<IpAddr>] *)
  parse_net : string → option IpNet;
  parse_ip : string → option IpAddr;
  (** [IpNet::to_string] *)
  net_to_string : IpNet → string;
  (** the documented laws *)
  trunc_idem n : trunc (trunc n) = trunc n;
  trunc_prefix_len n : prefix_len (trunc n) = prefix_len n;
  trunc_family n : net_is_ipv4 (trunc n) = net_is_ipv4 n;
  trunc_host a : trunc (net_of_ip a) = net_of_ip a;
  contains_ip_family n a : contains_ip n a = true → is_ipv4 a = net_is_ipv4 n;
  net_to_string_line n : str_all (λ c, negb (Ascii.eqb c "010")) (net_to_string n) = true;
}.

Section net_new.
Context `{IpNetLib}.

Lemma net_new_trunc a len n : trunc <$> net_new a len = Some n →
  trunc n = n ∧ prefix_len n = len ∧ (prefix_len n ≤ addr_width (net_addr n))%Z ∧
  is_ipv4 (net_addr n) = is_ipv4 a.
Proof.
  unfold net_new. destruct (Z.leb_spec len (addr_width a)) as [Hle|]; [|done]. intros [= <-].
  rewrite trunc_idem, trunc_prefix_len. pose proof (trunc_family (mkNet a len)) as Hf.
  unfold net_is_ipv4 in Hf. cbn in *. unfold addr_width in *. by rewrite Hf.
Qed.

Lemma net_new_exact n :
  trunc n = n → (prefix_len n ≤ addr_width (net_addr n))%Z →
  trunc <$> net_new (net_addr n) (prefix_len n) = Some n.
Proof.
  intros Ht Hle. unfold net_new. rewrite (proj2 (Z.leb_le _ _) Hle). simpl. destruct n. cbn in *. by rewrite Ht.
Qed.
End net_new.

(** ** Formatted text *)

Inductive tok : Type :=
| TStr (s : string)
| TNum (n : Z)
| TIp (a : IpAddr)
| TNet (n : IpNet)
| TDbg (s : string).

Definition text : Type := list tok.

#[export] Instance tok_eq_dec : EqDecision tok.
Proof. solve_decision. Defined.

Definition txt (s : string) : text := [TStr s].

(** ** [std::io::Error] *)

Inductive ErrorKind : Type :=
| NotFound
| AlreadyExists
| InvalidInput
| InvalidData
| NotConnected
| Unsupported
| TimedOut
| WouldBlock
| Interrupted
| UnexpectedEof
| PermissionDenied
| Other
| BrokenPipe
| ConnectionRefused
| OtherKind (code : nat).

Record io_error : Type := mkErr { ekind : ErrorKind; emsg : text }.

#[export] Instance ErrorKind_eq_dec : EqDecision ErrorKind.
Proof. solve_decision. Defined.
#[export] Instance io_error_eq_dec : EqDecision io_error.
Proof. solve_decision. Defined.

Abbreviation io_result A := (result A io_error).

(** [io::Error::new(kind, message)], [io::Error::other(message)] and
    [io::Error::from(kind)]. *)
Definition err_new (k : ErrorKind) (m : string) : io_error := mkErr k (txt m).
Definition err_other (m : string) : io_error := mkErr Other (txt m).
Definition kind_description (k : ErrorKind) : string :=
  match k with
  | NotFound => "entity not found"
  | AlreadyExists => "entity already exists"
  | InvalidInput => "invalid input parameter"
  | InvalidData => "invalid data"
  | NotConnected => "not connected"
  | Unsupported => "unsupported"
  | TimedOut => "timed out"
  | WouldBlock => "operation would block"
  | Interrupted => "operation interrupted"
  | UnexpectedEof => "unexpected end of file"
  | PermissionDenied => "permission denied"
  | BrokenPipe => "broken pipe"
  | ConnectionRefused => "connection refused"
  | Other | OtherKind _ => "other error"
  end.
Definition err_kind (k : ErrorKind) : io_error := mkErr k (txt (kind_description k)).

Definition invalid_input (m : text) : io_error := mkErr InvalidInput m.

Definition has_kind (k : ErrorKind) (e : io_error) : bool := ekind e =b k.

(** ** A concrete [IpNetLib]

    Masks by shifting; the parsers read dotted quads, which is what the
    witnesses use. *)

Definition host_bits (n : IpNet) : Z := Z.max 0 (addr_width (net_addr n) - prefix_len n).

Definition model_trunc (n : IpNet) : IpNet :=
  let k := host_bits n in
  mkNet (with_bits (net_addr n) (Z.shiftl (Z.shiftr (addr_bits (net_addr n)) k) k))
        (prefix_len n).

Definition model_contains_ip (n : IpNet) (a : IpAddr) : bool :=
  Bool.eqb (is_ipv4 a) (net_is_ipv4 n) &&
  Z.eqb (Z.shiftr (addr_bits a) (host_bits n)) (Z.shiftr (addr_bits (net_addr n)) (host_bits n)).

Definition model_contains_net (n m : IpNet) : bool :=
  Z.leb (prefix_len n) (prefix_len m) && model_contains_ip n (net_addr m).

(** The parent network of two sibling halves. *)
Definition model_join (n m : IpNet) : option IpNet :=
  let parent x := model_trunc (mkNet (net_addr x) (prefix_len x - 1)) in
  if model_contains_net n m then Some n
  else if model_contains_net m n then Some m
  else if Z.eqb (prefix_len n) (prefix_len m) && Z.ltb 0 (prefix_len n) && (parent n =b parent m)
  then Some (parent n) else None.

(** Insert a network, joining it with those already there while it can. *)
Fixpoint model_insert (fuel : nat) (n : IpNet) (l : list IpNet) : list IpNet :=
  match fuel with
  | O => n :: l
  | S fuel =>
    match find_map (λ m, (λ j, (m, j)) <$> model_join n m) l with
    | Some (m, j) => model_insert fuel j (bfilter (λ x, negb (x =b m)) l)
    | None => n :: l
    end
  end.

Definition model_aggregate (l : list IpNet) : list IpNet :=
  fold_left (λ acc n, model_insert (length acc) (model_trunc n) acc) l [].

(** Decimal digits up to the separator; the rest. *)
Fixpoint model_number (s : string) (acc : option Z) : option Z * string :=
  match s with
  | EmptyString => (acc, s)
  | String c s' =>
    let d := (Z.of_nat (nat_of_ascii c) - 48)%Z in
    if Z.leb 0 d && Z.leb d 9
    then model_number s' (Some (unwrap_or acc 0 * 10 + d)%Z)
    else (acc, s)
  end.

Fixpoint model_octets (k : nat) (s : string) (acc : Z) : option (Z * string) :=
  match model_number s None with
  | (Some o, s') =>
    if Z.leb o 255 then
      match k, s' with
      | O, _ => Some ((acc * 256 + o)%Z, s')
      | S k, String "." s'' => model_octets k s'' (acc * 256 + o)
      | _, _ => None
      end
    else None
  | (None, _) => None
  end.

Definition model_parse_ip (s : string) : option IpAddr :=
  match model_octets 3 s 0 with
  | Some (z, EmptyString) => Some (V4 z)
  | _ => None
  end.

Definition model_parse_net (s : string) : option IpNet :=
  match model_octets 3 s 0 with
  | Some (z, String "/" s') =>
    match model_number s' None with
    | (Some p, EmptyString) => if Z.leb p 32 then Some (mkNet (V4 z) p) else None
    | _ => None
    end
  | _ => None
  end.

(** Decimal digits of a number below [10^fuel]. *)
Fixpoint model_decimal (fuel : nat) (z : Z) : string :=
  match fuel with
  | O => EmptyString
  | S fuel =>
    (if Z.ltb z 10 then EmptyString else model_decimal fuel (z / 10))
      +:+ String (hex_digit (Z.modulo z 10)) EmptyString
  end.

Definition model_net_to_string (n : IpNet) : string :=
  let z := addr_bits (net_addr n) in
  let octet i := model_decimal 3 (Z.land (Z.shiftr z (8 * i)) 255) in
  ((if net_is_ipv4 n
    then octet 3%Z +:+ "." +:+ octet 2%Z +:+ "." +:+ octet 1%Z +:+ "." +:+ octet 0%Z
    else "::" +:+ hex_padded 32 z)
   +:+ "/" +:+ model_decimal 3 (prefix_len n)).

Lemma shift_idem z k : (0 ≤ k →
  Z.shiftl (Z.shiftr (Z.shiftl (Z.shiftr z k) k) k) k = Z.shiftl (Z.shiftr z k) k)%Z.
Proof. intros Hk. by rewrite Z.shiftr_shiftl_l, Z.sub_diag, Z.shiftl_0_r. Qed.

Lemma with_bits_bits a z : addr_bits (with_bits a z) = z ∧ is_ipv4 (with_bits a z) = is_ipv4 a.
Proof. by destruct a. Qed.

Lemma model_trunc_host_bits n : host_bits (model_trunc n) = host_bits n.
Proof. by destruct n as [[] ?]. Qed.

Lemma model_trunc_idem n : model_trunc (model_trunc n) = model_trunc n.
Proof.
  unfold model_trunc at 1. rewrite model_trunc_host_bits.
  destruct n as [[z|z] p]; unfold model_trunc; simpl;
    f_equal; f_equal; apply shift_idem; unfold host_bits; lia.
Qed.

Lemma model_trunc_host a : model_trunc (net_of_ip a) = net_of_ip a.
Proof.
  destruct a; unfold model_trunc, net_of_ip, host_bits; simpl;
    by rewrite Z.shiftr_0_r, Z.shiftl_0_r.
Qed.

Lemma model_contains_ip_family n a :
  model_contains_ip n a = true → is_ipv4 a = net_is_ipv4 n.
Proof. unfold model_contains_ip. intros [?%Bool.eqb_prop _]%andb_prop. done. Qed.

Lemma hex_digit_no_newline z :
  (0 ≤ z < 16)%Z → negb (Ascii.eqb (hex_digit z) "010") = true.
Proof.
  intros Hz. rewrite <- (Z2Nat.id z) by lia.
  assert (Z.to_nat z < 16) as Hn by lia. generalize dependent (Z.to_nat z). intros n Hn.
  do 16 (destruct n as [|n]; [reflexivity|]). lia.
Qed.

Lemma hex_padded_no_newline w z :
  str_all (λ c, negb (Ascii.eqb c "010")) (hex_padded w z) = true.
Proof.
  revert z. induction w as [|w IH]; intros z; simpl; [done|].
  rewrite str_all_app, IH. cbn [str_all]. rewrite hex_digit_no_newline; [done|].
  change 15%Z with (Z.ones 4). rewrite Z.land_ones by lia. apply Z.mod_pos_bound. lia.
Qed.

Lemma model_decimal_no_newline k z :
  str_all (λ c, negb (Ascii.eqb c "010")) (model_decimal k z) = true.
Proof.
  revert z. induction k as [|k IH]; intros z; simpl; [done|].
  rewrite str_all_app. cbn [str_all]. rewrite hex_digit_no_newline.
  - destruct (Z.ltb z 10); [done|]. by rewrite IH.
  - pose proof (Z.mod_pos_bound z 10). lia.
Qed.

Lemma model_net_to_string_line n :
  str_all (λ c, negb (Ascii.eqb c "010")) (model_net_to_string n) = true.
Proof.
  unfold model_net_to_string. rewrite !str_all_app, model_decimal_no_newline.
  destruct (net_is_ipv4 n); rewrite !str_all_app, ?model_decimal_no_newline,
    ?hex_padded_no_newline; done.
Qed.

Definition ipnet_model : IpNetLib := {|
  trunc := model_trunc;
  contains_ip := model_contains_ip;
  contains_net := model_contains_net;
  aggregate := model_aggregate;
  parse_net := model_parse_net;
  parse_ip := model_parse_ip;
  net_to_string := model_net_to_string;
  trunc_idem := model_trunc_idem;
  trunc_prefix_len n := eq_refl;
  trunc_family n := proj2 (with_bits_bits _ _);
  trunc_host := model_trunc_host;
  contains_ip_family := model_contains_ip_family;
  net_to_string_line := model_net_to_string_line;
|}.

Example model_aggregate_halves :
  model_aggregate [mkNet (ip4 0 0 0 0) 1; mkNet (ip4 128 0 0 0) 1] = [mkNet (ip4 0 0 0 0) 0].
Proof. vm_compute. done. Qed.

Example model_parse : model_parse_net "10.1.0.0/16" = Some (mkNet (ip4 10 1 0 0) 16).
Proof. vm_compute. done. Qed.
