(* ===== verification/GeoList.v ===== *)
(** * Merging geo asset lists

    [crates/core/src/geo_list.rs]: the entries of a [GeoSiteList] or
    [GeoIPList] protobuf and the merge of a provider's overlay over the stock
    file. A position in the input is the list of the bytes that follow. *)

From S2P Require Export Net.

Abbreviation octets := (list Z).

Definition geo_invalid_data : io_error := err_new InvalidData "geo list is malformed".

Definition U64 : Z := 2 ^ 64.

(** The loop of [read_varint]: [value] so far, and the next [shift]. *)
Fixpoint read_varint_from (bytes : octets) (value shift : Z) : io_result (Z * octets) :=
  match bytes with
  | [] => Err geo_invalid_data
  | byte :: rest =>
    let value := Z.lor value (Z.modulo (Z.shiftl (Z.land byte 127) shift) U64) in
    if Z.eqb (Z.land byte 128) 0 then Ok (value, rest)
    else
      let shift := (shift + 7)%Z in
      if Z.leb 64 shift then Err geo_invalid_data else read_varint_from rest value shift
  end.

Definition read_varint (bytes : octets) : io_result (Z * octets) := read_varint_from bytes 0 0.

(** A [u64] takes ten bytes of seven bits at most. *)
Fixpoint write_varint_fuel (fuel : nat) (value : Z) : octets :=
  let byte := Z.land value 127 in
  let value := Z.shiftr value 7 in
  match fuel with
  | O => [byte]
  | S fuel =>
    if Z.eqb value 0 then [byte] else Z.lor byte 128 :: write_varint_fuel fuel value
  end.

Definition write_varint (value : Z) : octets := write_varint_fuel 9 value.

(** [pos.checked_add(len).filter(|end| *end <= bytes.len())]: the bytes up to
    there and those after. *)
Definition take_exact (len : Z) (rest : octets) : io_result (octets * octets) :=
  if Z.leb len (zlen rest) then Ok (take (Z.to_nat len) rest, drop (Z.to_nat len) rest)
  else Err geo_invalid_data.

Definition skip_field (rest : octets) (wire : Z) : io_result octets :=
  if Z.eqb wire 0 then '(_, rest) <-? read_varint rest; Ok rest
  else if Z.eqb wire 1 then '(_, rest) <-? take_exact 8 rest; Ok rest
  else if Z.eqb wire 2 then
    '(len, rest) <-? read_varint rest;
    '(_, rest) <-? take_exact len rest;
    Ok rest
  else if Z.eqb wire 5 then '(_, rest) <-? take_exact 4 rest; Ok rest
  else Err geo_invalid_data.

(** Every turn reads a tag, so the length of the payload is enough fuel. *)
Fixpoint record_code_fuel (fuel : nat) (rest : octets) : io_result octets :=
  match fuel, rest with
  | S fuel, _ :: _ =>
    '(tag, rest) <-? read_varint rest;
    if Z.eqb (Z.shiftr tag 3) 1 && Z.eqb (Z.land tag 7) 2 then
      '(len, rest) <-? read_varint rest;
      '(code, _) <-? take_exact len rest;
      Ok code
    else
      rest <-? skip_field rest (Z.land tag 7);
      record_code_fuel fuel rest
  | _, _ => Err geo_invalid_data
  end.

Definition record_code (payload : octets) : io_result octets :=
  record_code_fuel (length payload) payload.

(** A record: its code and its payload. *)
Abbreviation geo_record := (octets * octets)%type.

Fixpoint geo_records_fuel (fuel : nat) (rest : octets) (out : list geo_record)
    : io_result (list geo_record) :=
  match rest, fuel with
  | [], _ => Ok out
  | _, S fuel =>
    '(tag, rest) <-? read_varint rest;
    if negb (Z.eqb tag 10) then Err geo_invalid_data
    else
      '(len, rest) <-? read_varint rest;
      '(payload, rest) <-? take_exact len rest;
      code <-? record_code payload;
      geo_records_fuel fuel rest (out ++ [(code, payload)])
  | _, O => Err geo_invalid_data
  end.

Definition geo_records (bytes : octets) : io_result (list geo_record) :=
  geo_records_fuel (length bytes) bytes [].

Definition write_record (payload : octets) : octets :=
  10%Z :: write_varint (zlen payload) ++ payload.

(** [last_occurrence[code] == index] *)
Definition is_last (records : list geo_record) (index : nat) (code : octets) : bool :=
  negb (existsb (λ r, r.1 =b code) (drop (S index) records)).

Definition merge_geo_list (stock overlay : octets) : io_result octets :=
  stock_records <-? geo_records stock;
  overlay_records <-? geo_records overlay;
  let overlay_codes := map fst overlay_records in
  Ok (concat (map (λ r, write_record r.2)
        (bfilter (λ r, negb (vec_contains overlay_codes r.1)) stock_records))
      ++ concat (map (λ ir, write_record ir.2.2)
           (bfilter (λ ir, is_last overlay_records ir.1 ir.2.1) (enumerate overlay_records)))).

(** [geo_codes]; the conversion to text is the caller's. *)
Definition geo_codes (bytes : octets) : io_result (list octets) :=
  records <-? geo_records bytes;
  Ok (map fst records).

(** ** Varints *)

Lemma lor_shiftl a b n : (0 ≤ n)%Z → (0 ≤ a < 2 ^ n)%Z →
  Z.lor a (Z.shiftl b n) = (a + b * 2 ^ n)%Z.
Proof.
  intros Hn Ha. rewrite <- (Z.shiftl_mul_pow2 b n) by done.
  pose proof (Z.add_lor_land a (Z.shiftl b n)) as Hadd.
  replace (Z.land a (Z.shiftl b n)) with 0%Z in Hadd; [lia|].
  symmetry. apply Z.bits_inj'. intros i Hi. rewrite Z.land_spec, Z.bits_0.
  destruct (Z.lt_ge_cases i n) as [Hlt|Hge].
  - rewrite Z.shiftl_spec_low by done. apply andb_false_r.
  - replace (Z.testbit a i) with false; [done|]. symmetry.
    destruct (Z.eq_dec a 0) as [->|]; [apply Z.bits_0|].
    apply Z.bits_above_log2; [lia|]. apply Z.log2_lt_pow2; [lia|].
    apply Z.lt_le_trans with (2 ^ n)%Z; [lia|]. by apply Z.pow_le_mono_r.
Qed.

(** The continuation bit of a byte of seven bits. *)
Definition seven_bits (b : Z) : bool :=
  Z.eqb (Z.land (Z.lor b 128) 127) b && negb (Z.eqb (Z.land (Z.lor b 128) 128) 0)
  && Z.eqb (Z.land b 127) b && Z.eqb (Z.land b 128) 0.

Lemma seven_bits_all : forallb (λ n, seven_bits (Z.of_nat n)) (seq 0 128) = true.
Proof. vm_compute. reflexivity. Qed.

Lemma seven_bits_spec b : (0 ≤ b < 128)%Z → seven_bits b = true.
Proof.
  intros Hb. rewrite <- (Z2Nat.id b) by lia.
  apply (proj1 (forallb_forall _ _) seven_bits_all), in_seq. lia.
Qed.

Lemma varint_step a b shift : (0 ≤ shift)%Z → (0 ≤ a < 2 ^ shift)%Z → (0 ≤ b)%Z →
  (b * 2 ^ shift < U64)%Z →
  Z.lor a (Z.modulo (Z.shiftl b shift) U64) = (a + b * 2 ^ shift)%Z.
Proof.
  intros Hs Ha Hb Hlt. pose proof (Z.pow_pos_nonneg 2 shift ltac:(lia) Hs).
  rewrite Z.mod_small; [by apply lor_shiftl|]. rewrite Z.shiftl_mul_pow2 by done. nia.
Qed.

Lemma read_write_varint fuel v acc shift rest :
  (0 ≤ shift)%Z → (0 ≤ acc < 2 ^ shift)%Z → (0 ≤ v < 2 ^ (64 - shift))%Z →
  (64 ≤ shift + 7 * (Z.of_nat fuel + 1))%Z → (shift < 64)%Z →
  read_varint_from (write_varint_fuel fuel v ++ rest) acc shift
  = Ok ((acc + v * 2 ^ shift)%Z, rest).
Proof.
  revert v acc shift. induction fuel as [|fuel IH]; intros v acc shift Hs Hacc Hv Hfuel Hlt;
    cbn [write_varint_fuel]; cbv zeta; set (b := Z.land v 127); set (v' := Z.shiftr v 7);
    (assert (0 ≤ b < 128 ∧ v = b + v' * 128)%Z as [Hb Hvb];
     [subst b v'; change 127%Z with (Z.ones 7); rewrite Z.land_ones, Z.shiftr_div_pow2 by lia;
      change (2 ^ 7)%Z with 128%Z; pose proof (Z.mod_pos_bound v 128); pose proof (Z.div_mod v 128); lia|]);
    pose proof (seven_bits_spec b Hb) as [[[H127%Z.eqb_eq H128%negb_true_iff]%andb_prop
      Hb127%Z.eqb_eq]%andb_prop Hb128]%andb_prop;
    assert (0 ≤ v')%Z as Hv' by (apply Z.shiftr_nonneg; lia);
    pose proof (Z.pow_pos_nonneg 2 shift ltac:(lia) Hs) as Hpos;
    assert (v * 2 ^ shift < U64)%Z as HU
      by (unfold U64; replace 64%Z with ((64 - shift) + shift)%Z by lia;
          rewrite Z.pow_add_r by lia; nia);
    assert (b * 2 ^ shift < U64)%Z as HbU by nia.
  - assert (v' = 0)%Z as Hz.
    { assert (v < 128)%Z; [|lia]. apply Z.lt_le_trans with (2 ^ (64 - shift))%Z; [lia|].
      change 128%Z with (2 ^ 7)%Z. apply Z.pow_le_mono_r; lia. }
    cbn [app read_varint_from]. cbv zeta. rewrite Hb127, Hb128, varint_step by (done || lia).
    do 2 f_equal. nia.
  - destruct (Z.eqb_spec v' 0) as [Hz|Hnz]; cbn [app read_varint_from]; cbv zeta.
    + rewrite Hb127, Hb128, varint_step by (done || lia). do 2 f_equal. nia.
    + assert (shift + 7 < 64)%Z as Hlt7.
      { assert (128 ≤ v)%Z by lia. apply Z.nle_gt. intros Hle.
        assert (2 ^ (64 - shift) ≤ 2 ^ 7)%Z by (apply Z.pow_le_mono_r; lia). lia. }
      assert (2 ^ (shift + 7) = 2 ^ shift * 128)%Z as Hpow by (by rewrite Z.pow_add_r by lia).
      rewrite H127, H128, varint_step by (done || lia).
      rewrite (proj2 (Z.leb_gt 64 (shift + 7))) by lia.
      rewrite IH; [do 2 f_equal; nia|lia|nia| |lia|lia].
      split; [done|]. replace (64 - shift)%Z with ((64 - (shift + 7)) + 7)%Z in Hv by lia.
      rewrite Z.pow_add_r in Hv by lia. change (2 ^ 7)%Z with 128%Z in Hv. lia.
Qed.

Lemma read_write v rest : (0 ≤ v < U64)%Z → read_varint (write_varint v ++ rest) = Ok (v, rest).
Proof.
  intros Hv. unfold read_varint, write_varint.
  rewrite read_write_varint; [by rewrite Z.mul_1_r|done|done|exact Hv|done|done].
Qed.


(** ** Records *)

Definition record_ok (bytes : octets) (r : geo_record) : Prop :=
  record_code r.2 = Ok r.1 ∧ (zlen r.2 ≤ zlen bytes)%Z.

Lemma take_exact_app p rest : take_exact (zlen p) (p ++ rest) = Ok (p, rest).
Proof.
  unfold take_exact, zlen. rewrite length_app, Nat2Z.id, take_app_length, drop_app_length.
  by rewrite (proj2 (Z.leb_le _ _)) by lia.
Qed.

Lemma take_exact_length len bytes p rest : take_exact len bytes = Ok (p, rest) →
  length p ≤ length bytes ∧ length rest ≤ length bytes.
Proof.
  unfold take_exact. case_match; [|done]. intros [= <- <-].
  rewrite length_take, length_drop. lia.
Qed.

Lemma read_varint_length bytes acc shift v rest : read_varint_from bytes acc shift = Ok (v, rest) →
  length rest ≤ length bytes.
Proof.
  revert acc shift. induction bytes as [|b bytes IH]; intros acc shift; simpl; [done|].
  case_match; [intros [= _ <-]; lia|]. case_match; [done|]. intros Hr%IH. lia.
Qed.

Lemma geo_records_ok fuel bytes out rs all :
  geo_records_fuel fuel bytes out = Ok rs → length bytes ≤ length all →
  Forall (record_ok all) out → Forall (record_ok all) rs.
Proof.
  revert bytes out. induction fuel as [|fuel IH]; intros bytes out; destruct bytes as [|b bytes]; simpl;
    try done; [by intros [= <-]..|].
  destruct (read_varint (b :: bytes)) as [[tag r1]|] eqn:Htag; cbn [rbind]; [|done].
  destruct (negb _); [done|]. destruct (read_varint r1) as [[len r2]|] eqn:Hlen; cbn [rbind]; [|done].
  destruct (take_exact len r2) as [[payload r3]|] eqn:Htake; cbn [rbind]; [|done].
  destruct (record_code payload) as [code|] eqn:Hcode; cbn [rbind]; [|done].
  apply read_varint_length in Htag, Hlen. apply take_exact_length in Htake as [Hp Hr]. simpl in Htag.
  intros Hrec Hall Hout. eapply IH; [exact Hrec|lia|]. apply Forall_app. split; [done|].
  apply Forall_singleton. split; [done|]. unfold zlen. simpl. lia.
Qed.

Lemma write_records_length (rs : list geo_record) :
  length rs ≤ length (concat (map (λ r, write_record r.2) rs)).
Proof. induction rs as [|r rs IH]; simpl; [lia|]. rewrite !length_app. lia. Qed.

(** Reading what was written. *)
Lemma geo_records_written rs fuel out :
  length rs ≤ fuel → Forall (λ r, record_code r.2 = Ok r.1 ∧ (zlen r.2 < U64)%Z) rs →
  geo_records_fuel fuel (concat (map (λ r, write_record r.2) rs)) out = Ok (out ++ rs).
Proof.
  revert fuel out. induction rs as [|[code payload] rs IH]; intros fuel out Hfuel Hrs.
  { destruct fuel; simpl; by rewrite app_nil_r. }
  apply Forall_cons in Hrs as [[Hcode Hlen] Hrs]. destruct fuel as [|fuel]; [simpl in Hfuel; lia|].
  cbn [map concat]. unfold write_record at 1. cbn [app fst snd] in *. rewrite <- app_assoc. cbn [geo_records_fuel].
  assert (∀ r, read_varint (10%Z :: r) = Ok (10%Z, r)) as -> by reflexivity. cbn [rbind Z.eqb negb].
  rewrite read_write by (split; [unfold zlen; lia|done]). cbn [rbind].
  rewrite take_exact_app. cbn [rbind]. rewrite Hcode. cbn [rbind].
  rewrite IH by (done || (simpl in Hfuel; lia)). by rewrite <- app_assoc.
Qed.

(** ** The merge *)

(** The last definition of each code, in the order they stand. *)
Fixpoint last_definitions (records : list geo_record) : list geo_record :=
  match records with
  | [] => []
  | r :: rest =>
    if existsb (λ r', r'.1 =b r.1) rest then last_definitions rest
    else r :: last_definitions rest
  end.

Lemma last_definitions_filter (before records : list geo_record) :
  map snd (bfilter (λ ir, is_last (before ++ records) ir.1 ir.2.1)
             (enumerate_from (length before) records)) = last_definitions records.
Proof.
  revert before. induction records as [|r records IH]; intros before; [done|].
  simpl. assert (is_last (before ++ r :: records) (length before) r.1
    = negb (existsb (λ r', r'.1 =b r.1) records)) as ->.
  { unfold is_last. rewrite drop_app_ge by lia.
    by replace (S (length before) - length before) with 1 by lia. }
  specialize (IH (before ++ [r])). rewrite length_app, <- app_assoc in IH. simpl in IH.
  rewrite Nat.add_1_r in IH. destruct (existsb _ records); simpl; by rewrite IH.
Qed.

Lemma last_definitions_sub records r : r ∈ last_definitions records → r ∈ records.
Proof.
  induction records as [|x records IH]; simpl; [done|]. case_match.
  - intros Hr. right. by apply IH.
  - intros [-> | Hr]%elem_of_cons; [by left|right; by apply IH].
Qed.

Lemma existsb_code (records : list geo_record) code :
  existsb (λ r, r.1 =b code) records = true ↔ code ∈ map fst records.
Proof.
  rewrite existsb_exists, list_elem_of_In, in_map_iff. split.
  - intros (r & Hr & <-%bool_decide_eq_true). by exists r.
  - intros (r & <- & Hr). exists r. split; [done|]. by apply bool_decide_eq_true.
Qed.

Lemma last_definitions_codes records :
  NoDup (map fst (last_definitions records)) ∧
  ∀ code, code ∈ map fst (last_definitions records) ↔ code ∈ map fst records.
Proof.
  induction records as [|r records [Hnd Hcodes]]; simpl; [split; [constructor|done]|].
  destruct (existsb _ records) eqn:He.
  - apply existsb_code in He. split; [done|]. intros code. rewrite Hcodes, elem_of_cons.
    split; [by right|]. by intros [->|].
  - split; simpl.
    + constructor; [|done]. rewrite Hcodes. intros Hin%existsb_code. congruence.
    + intros code. by rewrite !elem_of_cons, Hcodes.
Qed.

Lemma concat_records {A} (f : A → geo_record) l :
  concat (map (λ x, write_record (f x).2) l) = concat (map (λ r, write_record r.2) (map f l)).
Proof. by rewrite map_map. Qed.

(** C32. The merge of two geo lists read back. When both inputs are well
    formed the merge succeeds, and parsing what it wrote gives the stock
    records whose code the overlay does not have, in their order and with
    their payloads byte for byte, followed by the overlay's records, each code
    once, with its last definition; every code of the overlay is there. When
    either input is malformed the merge is an error. A list of 2^64 bytes or
    more, which no slice is, is left out. *)
Theorem merge_geo_list_reads (stock overlay : octets) :
  (zlen stock < U64)%Z → (zlen overlay < U64)%Z →
  match geo_records stock, geo_records overlay with
  | Ok s, Ok o => ∃ out, merge_geo_list stock overlay = Ok out ∧
      geo_records out
        = Ok (bfilter (λ r, negb (vec_contains (map fst o) r.1)) s ++ last_definitions o) ∧
      NoDup (map fst (last_definitions o)) ∧
      ∀ code, code ∈ map fst (last_definitions o) ↔ code ∈ map fst o
  | _, _ => is_err (merge_geo_list stock overlay) = true
  end.
Proof.
  intros Hs Ho. unfold merge_geo_list.
  destruct (geo_records stock) as [s|] eqn:Es; cbn [rbind]; [|done].
  destruct (geo_records overlay) as [o|] eqn:Eo; cbn [rbind]; [|done].
  eexists. split; [reflexivity|]. split; [|apply last_definitions_codes].
  pose proof (last_definitions_filter [] o) as Hlast. simpl in Hlast.
  rewrite (concat_records snd), <- concat_app, <- map_app.
  unfold enumerate. rewrite Hlast.
  apply geo_records_ok with (all := stock) in Es; [|done|constructor].
  apply geo_records_ok with (all := overlay) in Eo; [|done|constructor].
  unfold geo_records. rewrite geo_records_written; [done|apply write_records_length|].
  rewrite Forall_forall in Es, Eo. apply Forall_app. split; apply Forall_forall; intros r Hr.
  - apply elem_of_bfilter in Hr as [_ Hr]. destruct (Es r Hr). split; [done|lia].
  - apply last_definitions_sub in Hr. destruct (Eo r Hr). split; [done|lia].
Qed.

(** Two entries with the codes A and B; the overlay redefines B twice. *)
Definition demo_entry (code value : Z) : octets := write_record [10; 1; code; 16; value]%Z.

Definition demo_stock : octets := demo_entry 65 1 ++ demo_entry 66 1.
Definition demo_overlay : octets := demo_entry 66 2 ++ demo_entry 66 3.

Lemma merge_geo_list_reads_witness :
  ∃ out, merge_geo_list demo_stock demo_overlay = Ok out ∧
    geo_records out = Ok [([65], [10; 1; 65; 16; 1]); ([66], [10; 1; 66; 16; 3])]%Z.
Proof.
  pose proof (merge_geo_list_reads demo_stock demo_overlay eq_refl eq_refl) as Hm.
  assert (geo_records demo_stock = Ok [([65], [10; 1; 65; 16; 1]); ([66], [10; 1; 66; 16; 1])]%Z) as Es
    by (vm_compute; reflexivity).
  assert (geo_records demo_overlay = Ok [([66], [10; 1; 66; 16; 2]); ([66], [10; 1; 66; 16; 3])]%Z) as Eo
    by (vm_compute; reflexivity).
  rewrite Es, Eo in Hm. destruct Hm as (out & Hout & Hrec & _). exists out. split; [exact Hout|].
  rewrite Hrec. vm_compute. reflexivity.
Defined.
