(* ===== verification/LogRedact.v ===== *)
(** * Runtime logs shown to users

    [redact_runtime_log] of [crates/core/src/vpn.rs] strips credentials from
    the log of a tunnel process, [crates/core/src/log_sanitize.rs] masks
    public addresses and host names in what is left. An index into the text
    is the rest of the text, with the byte before it. *)

From S2P Require Export Net.
From S2P Require Export StdText.

(** ** Scanning *)

(** The text after the longest run of bytes that satisfy [p]. *)
Fixpoint skip (p : ascii → bool) (s : string) : string :=
  match s with
  | String a s' => if p a then skip p s' else s
  | EmptyString => EmptyString
  end.

(** What stands before [rest], a suffix of [s]. *)
Definition before (s rest : string) : string := str_take (str_len s - str_len rest) s.

(** The last byte of [s], or the one that was last before it. *)
Fixpoint last_byte (prev : option ascii) (s : string) : option ascii :=
  match s with
  | String a s' => last_byte (Some a) s'
  | EmptyString => prev
  end.

Definition SENSITIVE_KEYS : list string := ["privatekey"; "password"; "token"; "authorization"]%string.

(** [u8::eq_ignore_ascii_case] *)
Definition same_letter (a b : ascii) : bool :=
  Z.eqb (to_ascii_lowercase (byte_of a)) (to_ascii_lowercase (byte_of b)).

Fixpoint starts_with_ascii_ci (s pattern : string) : bool :=
  match pattern, s with
  | EmptyString, _ => true
  | String p pattern, String a s => same_letter a p && starts_with_ascii_ci s pattern
  | String _ _, EmptyString => false
  end.

Definition utf8_len (lead : ascii) : nat :=
  let lead := byte_of lead in
  if Z.ltb lead 128 then 1 else if Z.ltb lead 224 then 2 else if Z.ltb lead 240 then 3 else 4.

Definition is_ascii_hexdigit (c : Z) : bool :=
  is_ascii_digit c || in_range 97 102 c || in_range 65 70 c.

(** The bytes of a UUID from [offset] on. *)
Fixpoint uuid_from (offset count : nat) (s : string) : bool :=
  match count, s with
  | O, _ => true
  | S _, EmptyString => false
  | S count, String b s =>
    (if existsb (Nat.eqb offset) [8; 13; 18; 23] then Ascii.eqb b "-"
     else is_ascii_hexdigit (byte_of b)) && uuid_from (S offset) count s
  end.

Definition is_uuid_at (s : string) : bool := uuid_from 0 36 s.

Definition alphanumeric (a : ascii) : bool := is_ascii_alphanumeric (byte_of a).

(** [i == 0 || !bytes[i - 1].is_ascii_alphanumeric()] *)
Definition word_boundary (prev : option ascii) : bool := is_none_or (λ a, negb (alphanumeric a)) prev.

Definition blank (a : ascii) : bool := Ascii.eqb a " " || Ascii.eqb a "009".
Definition separator (a : ascii) : bool := Ascii.eqb a "=" || Ascii.eqb a ":".
Definition in_line (a : ascii) : bool := negb (Ascii.eqb a "010") && negb (Ascii.eqb a "013").
Definition visible_byte (a : ascii) : bool := negb (is_ascii_whitespace (byte_of a)).

Definition REDACTED : string := "[redacted]".

(** The value of [key] at the head of [s]: where it starts and where it ends. *)
Definition key_value (s key : string) : option (string * string) :=
  if starts_with_ascii_ci s key then
    match skip blank (str_drop (str_len key) s) with
    | String c rest =>
      if separator c then let value := skip blank rest in Some (value, skip in_line value) else None
    | EmptyString => None
    end
  else None.

(** One turn of the loop at [s]: what is put out, and the text to go on with. *)
Definition redact_step (prev : option ascii) (s : string) : string * string :=
  if starts_with_ascii_ci s "vless://" then
    (REDACTED, skip visible_byte (str_drop 8 s))
  else
    match (if word_boundary prev then find_map (key_value s) SENSITIVE_KEYS else None) with
    | Some (value, rest) => (before s value +:+ REDACTED, rest)
    | None =>
      if is_uuid_at s && word_boundary prev
         && match str_drop 36 s with String a _ => negb (alphanumeric a) | EmptyString => true end
      then (REDACTED, str_drop 36 s)
      else match s with
           | String lead _ => (str_take (utf8_len lead) s, str_drop (utf8_len lead) s)
           | EmptyString => (EmptyString, EmptyString)
           end
    end.

(** Every turn takes a byte at least, so the length of the text is enough. *)
Fixpoint redact_fuel (fuel : nat) (prev : option ascii) (s : string) : string :=
  match fuel, s with
  | S fuel, String _ _ =>
    let '(out, rest) := redact_step prev s in
    out +:+ redact_fuel fuel (last_byte prev (before s rest)) rest
  | _, _ => EmptyString
  end.

(** The first pass of [redact_runtime_log]. *)
Definition redact_credentials (s : string) : string := redact_fuel (str_len s) None s.

(** ** Addresses and host names *)

Definition octet (z i : Z) : Z := Z.land (Z.shiftr z (24 - 8 * i)) 255.
Definition segment (z i : Z) : Z := Z.land (Z.shiftr z (112 - 16 * i)) 65535.

(** 10.0.0.0/8, 172.16.0.0/12 and 192.168.0.0/16 *)
Definition v4_is_private (z : Z) : bool :=
  Z.eqb (octet z 0) 10
  || (Z.eqb (octet z 0) 172 && in_range 16 31 (octet z 1))
  || (Z.eqb (octet z 0) 192 && Z.eqb (octet z 1) 168).

Definition keep_ipv4 (z : Z) : bool :=
  v4_is_private z || is_loopback (V4 z) || v4_is_link_local z || is_multicast (V4 z)
  || is_unspecified (V4 z) || Z.eqb z (2 ^ 32 - 1) || Z.eqb (octet z 0) 0.

(** [Ipv6Addr::to_ipv4_mapped] *)
Definition to_ipv4_mapped (z : Z) : option Z :=
  if Z.eqb (Z.shiftr z 32) 65535 then Some (Z.land z (2 ^ 32 - 1)) else None.

Definition keep_ipv6 (z : Z) : bool :=
  is_loopback (V6 z) || is_multicast (V6 z) || is_unspecified (V6 z)
  || Z.eqb (Z.land (segment z 0) 65024) 64512
  || Z.eqb (Z.land (segment z 0) 65472) 65152
  || is_some_and keep_ipv4 (to_ipv4_mapped z).

Definition mask_ipv4 (z : Z) : string :=
  show_Z (octet z 0) +:+ "." +:+ show_Z (octet z 1) +:+ ".x.x".

(** [{:x}] of a [u16] *)
Definition show_hex (z : Z) : string :=
  if Z.eqb z 0 then "0" else trim_start_char (hex_padded 4 z) "0".

Definition mask_ipv6 (z : Z) : string :=
  show_hex (segment z 0) +:+ ":" +:+ show_hex (segment z 1) +:+ "::".

Definition FILE_SUFFIXES : list string :=
  ["log"; "dat"; "json"; "conf"; "txt"; "exe"; "dll"; "so"; "pid"; "tmp"; "md"; "yaml"; "yml";
   "toml"; "lock"; "db"; "sock"; "pid"; "plist"; "pem"; "crt"]%string.

Definition tld_byte (a : ascii) : bool := is_ascii_alphabetic (byte_of a) || Ascii.eqb a "-".
Definition label_byte (a : ascii) : bool :=
  alphanumeric a || Ascii.eqb a "-" || Ascii.eqb a "_".
Definition str_any (p : ascii → bool) (s : string) : bool := negb (str_all (λ a, negb (p a)) s).

Definition host_label (label : string) : bool :=
  negb (str_is_empty label) && Nat.leb (str_len label) 63 && str_all label_byte label.

Definition is_domain_shaped (token : string) : bool :=
  let labels := split_char "." token in
  if Nat.ltb (length labels) 2 then false
  else
    let last := List.last labels EmptyString in
    if negb (Nat.leb 2 (str_len last) && Nat.leb (str_len last) 63
             && str_all tld_byte last && str_any (λ a, is_ascii_alphabetic (byte_of a)) last)
    then false
    else if one_of (str_lowercase last) FILE_SUFFIXES then false
    else forallb host_label (removelast labels).

Definition mask_domain (token : string) : string :=
  let labels := split_char "." token in
  "*." +:+ String.concat "." (drop (Nat.max (length labels - 2) 1) labels).

Fixpoint ends_with (s suffix : string) : bool :=
  (s =b suffix) || match s with String _ s' => ends_with s' suffix | EmptyString => false end.

Section mask.
Context `{IpNetLib}.

(** [host:port] with a numeric port, split at the last colon. *)
Definition host_and_port (token : string) : option (string * string) :=
  match rsplit_once ":" token with
  | Some (host, port) =>
    if negb (contains_char host ":") && negb (str_is_empty port)
       && str_all (λ a, is_ascii_digit (byte_of a)) port && is_some (parse_uint 65536 port)
    then Some (host, port) else None
  | None => None
  end.

(** [[host]suffix] *)
Definition bracketed (token : string) : option (string * string) :=
  match strip_prefix token "[" with
  | Some inner => split_once "]" inner
  | None => None
  end.

(** Every call is on a part of the token, so its length is enough fuel. *)
Fixpoint mask_token_fuel (fuel : nat) (token : string) : string :=
  match fuel with
  | O => token
  | S fuel =>
    if str_is_empty token || (token =b "localhost") || ends_with token ".local" then token
    else
      match parse_ip token with
      | Some (V4 ip) => if keep_ipv4 ip then token else mask_ipv4 ip
      | Some (V6 ip) => if keep_ipv6 ip then token else mask_ipv6 ip
      | None =>
        match host_and_port token with
        | Some (host, port) => mask_token_fuel fuel host +:+ ":" +:+ port
        | None =>
          match bracketed token with
          | Some (host, suffix) => "[" +:+ mask_token_fuel fuel host +:+ "]" +:+ suffix
          | None =>
            match parse_net token with
            | Some net =>
              match net_addr net with
              | V4 v4 => if keep_ipv4 v4 then token
                         else mask_ipv4 v4 +:+ "/" +:+ show_Z (prefix_len net)
              | V6 v6 => if keep_ipv6 v6 then token
                         else mask_ipv6 v6 +:+ "/" +:+ show_Z (prefix_len net)
              end
            | None => if is_domain_shaped token then mask_domain token else token
            end
          end
        end
      end
  end.

Definition mask_token (token : string) : string := mask_token_fuel (S (str_len token)) token.

Definition scheme_byte (a : ascii) : bool :=
  alphanumeric a || Ascii.eqb a "+" || Ascii.eqb a "-" || Ascii.eqb a ".".
Definition authority_byte (a : ascii) : bool :=
  negb (Ascii.eqb a "/" || Ascii.eqb a "?" || Ascii.eqb a "#").

Definition mask_word (word : string) : string :=
  match split_once_str "://" word with
  | Some (scheme, rest) =>
    if negb (str_is_empty scheme) && str_all scheme_byte scheme then
      let tail := skip authority_byte rest in
      scheme +:+ "://" +:+ mask_token (before rest tail) +:+ tail
    else mask_token word
  | None => mask_token word
  end.

Definition between_words (c : Z) : bool :=
  is_whitespace c
  || existsb (Z.eqb c) [34; 39; 60; 62; 40; 41; 44; 59; 124; 123; 125]%Z.

(** A word that has started, if any. *)
Definition masked_word (word : string) : string :=
  if str_is_empty word then EmptyString else mask_word word.

(** [char_indices]: a character a turn; [word] is what was read of a word. *)
Fixpoint sanitize_fuel (fuel : nat) (s word : string) : string :=
  match fuel with
  | O => masked_word word
  | S fuel =>
    match decode_one s with
    | None => masked_word word
    | Some (c, rest) =>
      if between_words c
      then masked_word word +:+ before s rest +:+ sanitize_fuel fuel rest EmptyString
      else sanitize_fuel fuel rest (word +:+ before s rest)
    end
  end.

Definition sanitize_log_line (line : string) : string :=
  sanitize_fuel (str_len line) line EmptyString.

(** The pieces of [split_char] at newlines are those of [split_inclusive]
    without their newline; there is none after the last, which is skipped
    when it is empty. *)
Fixpoint sanitize_pieces (pieces : list string) : string :=
  match pieces with
  | [] => EmptyString
  | [last] => if str_is_empty last then EmptyString else sanitize_log_line last
  | line :: pieces => sanitize_log_line line +:+ newline +:+ sanitize_pieces pieces
  end.

Definition sanitize_log_text (text : string) : string := sanitize_pieces (split_char "010" text).

Definition redact_runtime_log (text : string) : string := sanitize_log_text (redact_credentials text).

End mask.

(** ** Scanning, as lemmas *)

Lemma str_cons_app a s t : String a s +:+ t = String a (s +:+ t).
Proof. done. Qed.

Lemma skip_stop p u c t : p c = false → skip p (u +:+ String c t) = skip p u +:+ String c t.
Proof.
  intros Hc. induction u as [|a u IH]; simpl; [by rewrite Hc|]. by destruct (p a).
Qed.

Lemma skip_app p u t :
  skip p (u +:+ t) = if str_is_empty (skip p u) then skip p t else skip p u +:+ t.
Proof. induction u as [|a u IH]; simpl; [done|]. by destruct (p a). Qed.

Lemma skip_all p u t : str_all p u = true → skip p (u +:+ t) = skip p t.
Proof. induction u as [|a u IH]; simpl; [done|]. intros [-> Hu]%andb_prop. by apply IH. Qed.

Lemma skip_suffix p u : ∃ v, u = v +:+ skip p u ∧ str_all p v = true.
Proof.
  induction u as [|a u (v & Hv & Hall)]; simpl; [by exists EmptyString|].
  destruct (p a) eqn:Ha; [|by exists EmptyString]. exists (String a v). split.
  - rewrite Hv at 1. done.
  - simpl. by rewrite Ha.
Qed.

Lemma take_drop_str n s : str_take n s +:+ str_drop n s = s.
Proof. revert s. induction n as [|n IH]; intros [|a s]; try done.
  simpl. rewrite str_cons_app. by rewrite IH.
Qed.

Lemma str_drop_app_lt n s t : n ≤ str_len s → str_drop n (s +:+ t) = str_drop n s +:+ t.
Proof. revert s. induction n as [|n IH]; intros [|a s]; simpl; try done; [lia|]. intros. apply IH. lia. Qed.

Lemma str_take_app_lt n s t : n ≤ str_len s → str_take n (s +:+ t) = str_take n s.
Proof.
  revert s. induction n as [|n IH]; intros [|a s]; simpl; try done; [lia|]. intros. f_equal. apply IH. lia.
Qed.

Lemma before_app u rest : before (u +:+ rest) rest = u.
Proof. apply take_all_but. Qed.

Lemma app_inj_r (u u' t : string) : u +:+ t = u' +:+ t → u = u'.
Proof. intros He. rewrite <- (before_app u t), <- (before_app u' t). by rewrite He. Qed.

Lemma last_byte_app prev u t : last_byte prev (u +:+ t) = last_byte (last_byte prev u) t.
Proof. revert prev. induction u as [|a u IH]; intros prev; [done|]. apply IH. Qed.

Definition ws (a : ascii) : bool := is_ascii_whitespace (byte_of a).

Lemma byte_range a : (0 ≤ byte_of a < 256)%Z.
Proof. unfold byte_of. pose proof (N_ascii_bounded a). lia. Qed.

Lemma ws_other w c : ws w = true → visible_byte c = true → same_letter w c = false.
Proof.
  unfold ws, visible_byte, same_letter, is_ascii_whitespace, to_ascii_lowercase, is_ascii_uppercase, in_range.
  intros Hw Hc. apply Z.eqb_neq.
  destruct (Z.leb_spec 65 (byte_of w)), (Z.leb_spec (byte_of w) 90), (Z.leb_spec 65 (byte_of c)),
    (Z.leb_spec (byte_of c) 90); simpl; lia.
Qed.

Lemma starts_ci_stop q w t pattern : ws w = true → str_all visible_byte pattern = true →
  starts_with_ascii_ci (q +:+ String w t) pattern = starts_with_ascii_ci q pattern.
Proof.
  intros Hw. revert q. induction pattern as [|c pattern IH]; intros q; [by destruct q|]. cbn [str_all].
  intros [Hc Hp]%andb_prop. destruct q as [|a q]; simpl; [by rewrite ws_other|]. by rewrite IH.
Qed.

Lemma starts_ci_length s pattern : starts_with_ascii_ci s pattern = true → str_len pattern ≤ str_len s.
Proof.
  revert s. induction pattern as [|c pattern IH]; intros [|a s]; simpl; [lia..|done|].
  intros [_ Hs%IH]%andb_prop. lia.
Qed.

Lemma uuid_from_stop offset count q w t : ws w = true →
  uuid_from offset count (q +:+ String w t) = uuid_from offset count q.
Proof.
  intros Hw. revert offset count. induction q as [|a q IH]; intros offset [|count]; simpl; try done; [|by rewrite IH].
  assert (Ascii.eqb w "-" = false) as -> by (by destruct (Ascii.eqb_spec w "-") as [->|]).
  replace (is_ascii_hexdigit (byte_of w)) with false; [by destruct (_ || _)|].
  symmetry. unfold ws, is_ascii_whitespace, is_ascii_hexdigit, is_ascii_digit, in_range in *. lia.
Qed.

Lemma uuid_from_length offset count s : uuid_from offset count s = true → count ≤ str_len s.
Proof.
  revert offset s. induction count as [|count IH]; intros offset [|a s]; simpl; [lia..|done|].
  intros [_ Hs%IH]%andb_prop. lia.
Qed.

(** ** The loop *)

Lemma key_value_suffix s key value rest : key_value s key = Some (value, rest) →
  ∃ u v, s = u +:+ value ∧ value = v +:+ rest ∧ str_all in_line v = true ∧
    str_len key < str_len u.
Proof.
  unfold key_value. destruct (starts_with_ascii_ci s key) eqn:Hkey; [|done].
  apply starts_ci_length in Hkey.
  destruct (skip_suffix blank (str_drop (str_len key) s)) as (b1 & Hb1 & _).
  destruct (skip blank (str_drop (str_len key) s)) as [|c rest']; [done|].
  destruct (separator c); [|done]. cbv zeta. intros [= <- <-].
  destruct (skip_suffix blank rest') as (b2 & Hb2 & _).
  destruct (skip_suffix in_line (skip blank rest')) as (v & Hv & Hall).
  exists (str_take (str_len key) s +:+ b1 +:+ String c b2), v. split_and!; try done.
  - rewrite <- (take_drop_str (str_len key) s) at 1. rewrite Hb1, Hb2 at 1.
    rewrite <- !str_app_assoc. by simpl.
  - rewrite !str_len_app, str_len_take. simpl. lia.
Qed.

(** Every turn takes something off the front. *)
Lemma redact_step_progress prev s : s ≠ EmptyString →
  ∃ r, r ≠ EmptyString ∧ s = r +:+ (redact_step prev s).2.
Proof.
  intros Hs. assert (∀ n t, 0 < n → (∃ u, str_drop n s = u +:+ t) → ∃ r, r ≠ EmptyString ∧ s = r +:+ t) as Hdrop.
  { intros n t Hn (u & Hu). exists (str_take n s +:+ u). split.
    - destruct n, s; simpl; [lia|lia|done|done].
    - by rewrite <- str_app_assoc, <- Hu, take_drop_str. }
  unfold redact_step. destruct (starts_with_ascii_ci s "vless://").
  { apply (Hdrop 8); [lia|]. destruct (skip_suffix visible_byte (str_drop 8 s)) as (u & Hu & _). by exists u. }
  destruct (if word_boundary prev then _ else _) as [[value rest]|] eqn:Hkey.
  - destruct (word_boundary prev); [|done].
    assert (∃ key, key_value s key = Some (value, rest)) as (key & Hk).
    { revert Hkey. generalize SENSITIVE_KEYS. induction l as [|k l IH]; simpl; [done|].
      destruct (key_value s k) eqn:Hk; [intros [= ->]; by exists k|done]. }
    apply key_value_suffix in Hk as (u & v & -> & -> & _ & Hlen). exists (u +:+ v). split.
    + destruct u; simpl in *; [lia|done].
    + by rewrite str_app_assoc.
  - destruct (is_uuid_at s && word_boundary prev && _).
    + apply (Hdrop 36); [lia|]. by exists EmptyString.
    + destruct s as [|lead s]; [done|]. apply (Hdrop (utf8_len lead)); [|by exists EmptyString].
      unfold utf8_len. repeat case_match; lia.
Qed.

Lemma redact_fuel_enough f1 f2 prev s : str_len s ≤ f1 → str_len s ≤ f2 →
  redact_fuel f1 prev s = redact_fuel f2 prev s.
Proof.
  revert f2 prev s. induction f1 as [|f1 IH]; intros f2 prev s H1 H2; destruct s as [|a s].
  1,3: by destruct f2. 1: simpl in H1; lia.
  destruct f2 as [|f2]; [simpl in H2; lia|]. cbn [redact_fuel].
  destruct (redact_step_progress prev (String a s)) as (r & Hr & He); [done|].
  destruct (redact_step prev (String a s)) as [out rest]. simpl in He. f_equal.
  assert (str_len rest ≤ str_len s) as Hle.
  { destruct r as [|b r]; [done|]. injection He as _ ->. rewrite str_len_app. lia. }
  simpl in H1, H2. apply IH; unfold str_len in *; lia.
Qed.

(** ** What is redacted does not show *)

(** Every byte that starts a character has the bytes of it after it. *)
Fixpoint complete (s : string) : bool :=
  match s with
  | EmptyString => true
  | String a s' => Nat.leb (utf8_len a - 1) (str_len s') && complete s'
  end.

Lemma complete_app s t : complete (s +:+ t) = true → complete t = true.
Proof. induction s as [|a s IH]; [done|]. rewrite str_cons_app. simpl. by intros [_ Hs%IH]%andb_prop. Qed.

(** Text before a word: nothing, or white space at its end. *)
Fixpoint up_to_word (s : string) : bool :=
  match s with
  | EmptyString => true
  | String a EmptyString => ws a
  | String _ s' => up_to_word s'
  end.

Lemma up_to_word_app s t : up_to_word (s +:+ t) = true → up_to_word t = true.
Proof.
  induction s as [|a s IH]; [done|]. rewrite str_cons_app. intros Hup.
  destruct (s +:+ t) eqn:He; [by destruct s, t|]. rewrite <- He in *. apply IH. by rewrite He in *.
Qed.

Lemma up_to_word_last s : up_to_word s = true → s ≠ EmptyString →
  ∃ q w, s = q +:+ String w EmptyString ∧ ws w = true.
Proof.
  induction s as [|a s IH]; [done|]. intros Hup _. destruct s as [|b s]; [by exists EmptyString, a|].
  destruct IH as (q & w & He & Hw); [done..|]. exists (String a q), w. split; [|done]. by rewrite He.
Qed.

Section hide.
(** [k0 K'] is a key with its separator, [T] nothing or the end of a line. *)
Context (k0 : ascii) (K' T : string) (good : string → Prop).
Context (Hblank : blank k0 = false) (Hsep : separator k0 = false)
  (Hline : str_all in_line (String k0 K') = true).
Context (HT : T = EmptyString ∨ ∃ c T', T = String c T' ∧ in_line c = false).
Context (Hgood : ∀ v, good v → str_all in_line v = true).
(** The text from the key on. *)
Let X (v : string) : string := String k0 K' +:+ v +:+ T.
Context (Hstep : ∀ prev v, word_boundary prev = true → good v →
  redact_step prev (X v) = (String k0 K' +:+ REDACTED, T)).

Lemma skip_to_end u v : good v →
  skip in_line (u +:+ X v) = if str_is_empty (skip in_line u) then T else skip in_line u +:+ X v.
Proof.
  intros Hv. rewrite skip_app. destruct (str_is_empty _); [|done]. unfold X.
  rewrite str_app_assoc, skip_all by (by rewrite str_all_app, Hline, Hgood).
  destruct HT as [->|(c & T' & -> & Hc)]; [done|]. simpl. by rewrite Hc.
Qed.

(** [f] looks at the text before the key only, or is the same at the end of
    the line. *)
Definition local_value (f : string → option (string * string)) : Prop :=
  (∀ v, good v → f (X v) = None) ∨
  (∃ a b, ∀ v, good v → f (X v) = Some (a +:+ X v, b +:+ X v)) ∨
  (∃ a, ∀ v, good v → f (X v) = Some (a +:+ X v, T)).

Lemma key_local p key : up_to_word p = true → p ≠ EmptyString → str_all visible_byte key = true →
  local_value (λ x, key_value (p +:+ x) key).
Proof.
  intros Hp Hne Hkey. destruct (up_to_word_last p Hp Hne) as (q & w & -> & Hw).
  assert (∀ x, starts_with_ascii_ci ((q +:+ String w EmptyString) +:+ x) key = starts_with_ascii_ci q key) as Hs.
  { intros x. rewrite <- str_app_assoc, str_cons_app. by apply starts_ci_stop. }
  unfold local_value, key_value. setoid_rewrite Hs.
  destruct (starts_with_ascii_ci q key) eqn:Hq; [|by left]. apply starts_ci_length in Hq.
  set (p := q +:+ String w EmptyString). assert (str_len key ≤ str_len p) as Hlen.
  { unfold p. rewrite str_len_app. simpl. lia. }
  assert (∀ u v, skip blank (u +:+ X v) = skip blank u +:+ X v) as Hskip.
  { intros u v. unfold X. rewrite str_cons_app. by apply skip_stop. }
  assert (∀ x, str_drop (str_len key) (p +:+ x) = str_drop (str_len key) p +:+ x) as Hdrop.
  { intros x. by apply str_drop_app_lt. }
  setoid_rewrite Hdrop. setoid_rewrite Hskip. destruct (skip blank (str_drop (str_len key) p)) as [|c u].
  { left. intros v Hv. unfold X. rewrite str_cons_app. simpl. by rewrite Hsep. }
  setoid_rewrite str_cons_app. destruct (separator c); [|by left]. cbv zeta. right.
  setoid_rewrite Hskip. set (a := skip blank u).
  destruct (str_is_empty (skip in_line a)) eqn:Ha.
  - right. exists a. intros v Hv. by rewrite skip_to_end, Ha.
  - left. exists a, (skip in_line a). intros v Hv. by rewrite skip_to_end, Ha.
Qed.

Lemma keys_local p keys : up_to_word p = true → p ≠ EmptyString →
  forallb (str_all visible_byte) keys = true →
  local_value (λ x, find_map (key_value (p +:+ x)) keys).
Proof.
  intros Hp Hne. induction keys as [|key keys IH]; simpl; [by left|]. intros [Hkey Hkeys]%andb_prop.
  destruct (key_local p key Hp Hne Hkey) as [Hk|[(a & b & Hk)|(a & Hk)]].
  - destruct (IH Hkeys) as [Hks|[(a & b & Hks)|(a & Hks)]]; [left|right; left; exists a, b|right; right; exists a];
      intros v Hv; rewrite Hk by done; by apply Hks.
  - right. left. exists a, b. intros v Hv. by rewrite Hk.
  - right. right. exists a. intros v Hv. by rewrite Hk.
Qed.

Lemma before_local p a v : before (p +:+ X v) (a +:+ X v) = str_take (str_len p - str_len a) p.
Proof.
  unfold before. rewrite !str_len_app.
  replace (str_len p + str_len (X v) - (str_len a + str_len (X v))) with (str_len p - str_len a) by lia.
  apply str_take_app_lt. lia.
Qed.

(** A character before the key is taken whole. *)
Lemma character_local p v : complete p = true → p ≠ EmptyString →
  match p +:+ X v with
  | String lead _ => (str_take (utf8_len lead) (p +:+ X v), str_drop (utf8_len lead) (p +:+ X v))
  | EmptyString => (EmptyString, EmptyString)
  end = match p with
        | String lead _ => (str_take (utf8_len lead) p, str_drop (utf8_len lead) p +:+ X v)
        | EmptyString => (EmptyString, EmptyString)
        end.
Proof.
  intros Hc Hne. destruct p as [|lead p]; [done|]. simpl in Hc. apply andb_prop in Hc as [Hc%Nat.leb_le _].
  rewrite str_cons_app. rewrite <- str_cons_app.
  by rewrite str_take_app_lt, str_drop_app_lt by (simpl; lia).
Qed.

(** So is the byte after a UUID before the key. *)
Lemma after_uuid_local q w v : ws w = true → 36 ≤ str_len q →
  match str_drop 36 (q +:+ String w (X v)) with
  | String a _ => negb (alphanumeric a) | EmptyString => true
  end = match str_drop 36 q with String a _ => negb (alphanumeric a) | EmptyString => true end.
Proof.
  intros Hw Hl. rewrite str_drop_app_lt by done. destruct (str_drop 36 q); [|done]. simpl.
  unfold ws, alphanumeric, is_ascii_whitespace, is_ascii_alphanumeric, is_ascii_alphabetic,
    is_ascii_lowercase, is_ascii_uppercase, is_ascii_digit, in_range in *. lia.
Qed.

Lemma step_local prev p : up_to_word p = true → p ≠ EmptyString → complete p = true →
  (∃ o q, ∀ v, good v → redact_step prev (p +:+ X v) = (o, q +:+ X v)) ∨
  (∃ o, ∀ v, good v → redact_step prev (p +:+ X v) = (o, T)).
Proof.
  intros Hp Hne Hc.
  pose proof (keys_local p SENSITIVE_KEYS Hp Hne eq_refl) as Hkeys.
  destruct (up_to_word_last p Hp Hne) as (q & w & He & Hw).
  assert (∀ v, p +:+ X v = q +:+ String w (X v)) as Hpq by (intros v; by rewrite He, <- str_app_assoc).
  assert (∀ v, starts_with_ascii_ci (p +:+ X v) "vless://" = starts_with_ascii_ci q "vless://") as Hs.
  { intros v. rewrite Hpq. by apply starts_ci_stop. }
  assert (∀ v, is_uuid_at (p +:+ X v) = is_uuid_at q) as Hu.
  { intros v. rewrite Hpq. by apply uuid_from_stop. }
  destruct (starts_with_ascii_ci q "vless://") eqn:Hq.
  { apply starts_ci_length in Hq. left.
    exists REDACTED, (skip visible_byte (str_drop 8 q) +:+ String w EmptyString). intros v Hv.
    unfold redact_step. rewrite Hs, Hpq, str_drop_app_lt, skip_stop
      by (done || (unfold visible_byte; by rewrite negb_false_iff)).
    by rewrite <- str_app_assoc. }
  assert (local_value (λ x, if word_boundary prev then find_map (key_value (p +:+ x)) SENSITIVE_KEYS else None)) as Hk.
  { destruct (word_boundary prev); [done|by left]. }
  destruct Hk as [Hk|[(a & b & Hk)|(a & Hk)]]; cbv beta in Hk.
  - left. destruct (is_uuid_at q && word_boundary prev
      && match str_drop 36 q with String a _ => negb (alphanumeric a) | EmptyString => true end) eqn:Huuid.
    + apply andb_prop in Huuid as [Huw Hnext]. pose proof (andb_prop _ _ Huw) as [Hl%uuid_from_length _].
      exists REDACTED, (str_drop 36 q +:+ String w EmptyString). intros v Hv.
      unfold redact_step. rewrite Hs, Hk, Hu, Huw by done.
      rewrite Hpq, after_uuid_local, Hnext, str_drop_app_lt by done. simpl. by rewrite <- str_app_assoc.
    + exists (match p with String lead _ => str_take (utf8_len lead) p | EmptyString => EmptyString end),
        (match p with String lead _ => str_drop (utf8_len lead) p | EmptyString => EmptyString end).
      intros v Hv. unfold redact_step. rewrite Hs, Hk, Hu, character_local by done.
      replace (is_uuid_at q && word_boundary prev && _) with false; [by destruct p|].
      rewrite <- Huuid. destruct (is_uuid_at q) eqn:Hq36; [|done]. cbn [andb].
      rewrite Hpq, after_uuid_local; [done..|]. by apply uuid_from_length in Hq36.
  - left. exists (str_take (str_len p - str_len a) p +:+ REDACTED), b. intros v Hv.
    unfold redact_step. by rewrite Hs, Hk, before_local.
  - right. exists (str_take (str_len p - str_len a) p +:+ REDACTED). intros v Hv.
    unfold redact_step. by rewrite Hs, Hk, before_local.
Qed.

(** From the end of the line on the byte before does not matter. *)
Lemma end_of_line_same f1 f2 prev1 prev2 : str_len T ≤ f1 → str_len T ≤ f2 →
  redact_fuel f1 prev1 T = redact_fuel f2 prev2 T.
Proof.
  destruct HT as [->|(c & T' & -> & Hc)]; [by destruct f1, f2|].
  destruct f1 as [|f1], f2 as [|f2]; simpl str_len; try lia. intros H1 H2. cbn [redact_fuel].
  assert (c = "010"%char ∨ c = "013"%char) as Hnl.
  { unfold in_line in Hc. destruct (Ascii.eqb_spec c "010"); [by left|].
    destruct (Ascii.eqb_spec c "013"); [by right|done]. }
  assert (∀ prev, redact_step prev (String c T') = (String c EmptyString, T')) as Hs.
  { intros prev. unfold redact_step, SENSITIVE_KEYS, key_value.
    destruct Hnl as [-> | ->]; simpl; by destruct (word_boundary prev). }
  rewrite !Hs. f_equal. change (String c T') with (String c EmptyString +:+ T').
  rewrite before_app. simpl last_byte. apply redact_fuel_enough; lia.
Qed.

Lemma hidden n p prev v1 v2 f1 f2 :
  str_len p ≤ n → up_to_word p = true → complete p = true →
  (p = EmptyString → word_boundary prev = true) → good v1 → good v2 →
  str_len (p +:+ X v1) ≤ f1 → str_len (p +:+ X v2) ≤ f2 →
  redact_fuel f1 prev (p +:+ X v1) = redact_fuel f2 prev (p +:+ X v2).
Proof.
  revert p prev f1 f2. induction n as [|n IH]; intros p prev f1 f2 Hn Hup Hc Hprev Hv1 Hv2 H1 H2.
  all: assert (∀ v, good v → ∃ a s, p +:+ X v = String a s) as Hhead
    by (intros v _; destruct p; unfold X; rewrite ?str_cons_app; eauto).
  all: destruct (Hhead v1 Hv1) as (a1 & s1 & E1), (Hhead v2 Hv2) as (a2 & s2 & E2).
  all: assert (str_len (p +:+ X v1) = S (str_len s1)) as N1 by (by rewrite E1).
  all: assert (str_len (p +:+ X v2) = S (str_len s2)) as N2 by (by rewrite E2).
  all: rewrite N1 in H1; rewrite N2 in H2; destruct f1 as [|f1], f2 as [|f2]; try lia.
  all: rewrite E1, E2; cbn [redact_fuel]; rewrite <- E1, <- E2.
  all: assert (∀ v, good v → p = EmptyString → redact_step prev (p +:+ X v) = (String k0 K' +:+ REDACTED, T))
    as Hk by (intros v Hv ->; apply Hstep; [by apply Hprev|done]).
  all: assert (∀ v r t, p +:+ X v = r +:+ t → r ≠ EmptyString → str_len t < str_len (p +:+ X v)) as Hless
    by (intros v r t -> Hr; rewrite str_len_app; destruct r; simpl; [done|lia]).
  all: destruct (redact_step_progress prev (p +:+ X v1)) as (r1 & Hr1 & P1); [by rewrite E1|].
  all: destruct (redact_step_progress prev (p +:+ X v2)) as (r2 & Hr2 & P2); [by rewrite E2|].
  all: pose proof (Hless _ _ _ P1 Hr1) as L1; pose proof (Hless _ _ _ P2 Hr2) as L2; rewrite N1 in L1; rewrite N2 in L2.
  - assert (p = EmptyString) as Hp by (by destruct p; simpl in Hn; [|lia]).
    rewrite !Hk by done. f_equal. rewrite !Hk in L1, L2 by done. simpl in L1, L2. apply end_of_line_same; lia.
  - destruct (decide (p = EmptyString)) as [Hp|Hne].
    { rewrite !Hk by done. f_equal. rewrite !Hk in L1, L2 by done. simpl in L1, L2. apply end_of_line_same; lia. }
    destruct (step_local prev p Hup Hne Hc) as [(o & q & Hq)|(o & Hq)].
    + rewrite (Hq v1 Hv1) in *. rewrite (Hq v2 Hv2) in *. simpl in P1, P2, L1, L2. f_equal.
      rewrite P1, P2, !before_app. rewrite str_app_assoc in P1, P2.
      apply app_inj_r in P1, P2. assert (r1 = r2) as <- by (apply (app_inj_r _ _ q); congruence).
      apply IH; try done.
      * rewrite P1 in Hn. rewrite str_len_app in Hn. destruct r1; simpl in Hn; [done|lia].
      * rewrite P1 in Hup. by apply up_to_word_app in Hup.
      * rewrite P1 in Hc. by apply complete_app in Hc.
      * intros ->. rewrite str_app_nil_r in P1. subst r1.
        destruct (up_to_word_last p Hup Hne) as (u & w & -> & Hw). rewrite last_byte_app. simpl.
        unfold ws, alphanumeric, is_ascii_whitespace, is_ascii_alphanumeric, is_ascii_alphabetic,
          is_ascii_lowercase, is_ascii_uppercase, is_ascii_digit, in_range in *. lia.
      * lia.
      * lia.
    + rewrite (Hq v1 Hv1) in *. rewrite (Hq v2 Hv2) in *. simpl in L1, L2. f_equal.
      apply end_of_line_same; lia.
Qed.

End hide.

(** ** Keys as they are written *)

Lemma lower_inj a b :
  ascii_of_byte (to_ascii_lowercase (byte_of a)) = ascii_of_byte (to_ascii_lowercase (byte_of b)) ↔
  same_letter a b = true.
Proof.
  unfold same_letter. rewrite Z.eqb_eq. split; [|by intros ->].
  assert (∀ c, (0 ≤ to_ascii_lowercase (byte_of c) < 256)%Z) as Hr.
  { intros c. pose proof (byte_range c). unfold to_ascii_lowercase, is_ascii_uppercase, in_range.
    destruct (Z.leb_spec 65 (byte_of c)), (Z.leb_spec (byte_of c) 90); simpl; lia. }
  intros He. apply (f_equal N_of_ascii) in He. unfold ascii_of_byte in He.
  pose proof (Hr a). pose proof (Hr b). rewrite !N_ascii_embedding in He by lia. lia.
Qed.

Lemma starts_ci_lower s p : starts_with_ascii_ci s p = starts_with (str_lowercase s) (str_lowercase p).
Proof.
  unfold starts_with. revert s. induction p as [|b p IH]; intros [|a s]; simpl; try done. rewrite IH.
  destruct (ascii_dec _ _) as [He|He].
  - symmetry in He. apply lower_inj in He. by rewrite He.
  - replace (same_letter a b) with false; [done|]. symmetry. apply not_true_is_false.
    by intros Hs%lower_inj.
Qed.

Lemma lower_app s t : str_lowercase (s +:+ t) = str_lowercase s +:+ str_lowercase t.
Proof. induction s as [|a s IH]; [done|]. rewrite str_cons_app. simpl. by rewrite IH. Qed.

Lemma lower_len s : str_len (str_lowercase s) = str_len s.
Proof. induction s as [|a s IH]; simpl; [done|]. by rewrite IH. Qed.

Lemma in_line_lower s : str_all alphanumeric (str_lowercase s) = true → str_all alphanumeric s = true.
Proof.
  induction s as [|a s IH]; simpl; [done|]. intros [Ha Hs]%andb_prop. rewrite IH, andb_true_r by done.
  clear -Ha. by destruct a as [[] [] [] [] [] [] [] []].
Qed.

Lemma alphanumeric_plain a : alphanumeric a = true →
  in_line a = true ∧ blank a = false ∧ separator a = false.
Proof. by destruct a as [[] [] [] [] [] [] [] []]. Qed.

(** Every key is a word of lower-case letters. *)
Lemma sensitive_key key : key ∈ SENSITIVE_KEYS →
  str_lowercase key = key ∧ str_all alphanumeric key = true ∧ key ≠ EmptyString.
Proof.
  unfold SENSITIVE_KEYS. intros Hkey.
  repeat (apply elem_of_cons in Hkey as [->|Hkey]; [done|]). by apply elem_of_nil in Hkey.
Qed.

(** The value of a key, up to the end of its line. *)
Definition secret (v : string) : bool :=
  str_all in_line v && match v with String a _ => negb (blank a) | EmptyString => true end.

Definition at_line_end (T : string) : bool :=
  match T with String c _ => negb (in_line c) | EmptyString => true end.

Section key.
Context (key written b1 b2 T : string) (sep : ascii).
Context (Hkey : key ∈ SENSITIVE_KEYS) (Hwritten : str_lowercase written = key).
Context (Hb1 : str_all blank b1 = true) (Hsep : separator sep = true) (Hb2 : str_all blank b2 = true).
Context (HT : at_line_end T = true).
Let K := written +:+ b1 +:+ String sep b2.

Lemma written_value v : secret v = true →
  key_value (K +:+ v +:+ T) key = Some (v +:+ T, T).
Proof.
  intros [Hline Hv]%andb_prop. unfold key_value, K. rewrite <- !str_app_assoc, str_cons_app.
  assert (starts_with_ascii_ci (written +:+ b1 +:+ String sep (b2 +:+ v +:+ T)) key = true) as ->.
  { rewrite starts_ci_lower, lower_app, Hwritten. rewrite <- Hwritten.
    assert (str_lowercase (str_lowercase written) = str_lowercase written) as ->.
    { rewrite Hwritten. by apply sensitive_key. }
    apply starts_with_app. }
  replace (str_len key) with (str_len written) by (by rewrite <- Hwritten, lower_len).
  rewrite str_drop_app, skip_all by done. simpl.
  assert (blank sep = false) as ->.
  { clear -Hsep. unfold separator, blank in *. by destruct sep as [[] [] [] [] [] [] [] []]. }
  rewrite Hsep. cbv zeta. rewrite skip_all by done.
  assert (skip blank (v +:+ T) = v +:+ T) as ->.
  { destruct v as [|a v].
    - change (skip blank T = T). destruct T as [|c T']; [done|]. simpl in *.
      replace (blank c) with false; [done|]. clear -HT. unfold blank, in_line in *. by destruct c as [[] [] [] [] [] [] [] []].
    - rewrite str_cons_app. simpl. apply negb_true_iff in Hv. by rewrite Hv. }
  rewrite skip_all by done. destruct T as [|c T']; [done|]. simpl in *. apply negb_true_iff in HT. by rewrite HT.
Qed.

Lemma written_step prev v : word_boundary prev = true → secret v = true →
  redact_step prev (K +:+ v +:+ T) = (K +:+ REDACTED, T).
Proof.
  intros Hprev Hv. pose proof (written_value v Hv) as Hval. unfold redact_step. rewrite Hprev.
  assert (∀ p, starts_with_ascii_ci (K +:+ v +:+ T) p
    = starts_with (key +:+ str_lowercase (b1 +:+ String sep b2 +:+ v +:+ T)) (str_lowercase p)) as Hs.
  { intros p. unfold K. by rewrite starts_ci_lower, <- !str_app_assoc, lower_app, Hwritten. }
  assert (starts_with_ascii_ci (K +:+ v +:+ T) "vless://" = false ∧
    find_map (key_value (K +:+ v +:+ T)) SENSITIVE_KEYS = key_value (K +:+ v +:+ T) key) as [-> Hfind].
  { rewrite Hs. unfold SENSITIVE_KEYS in *.
    assert (∀ other, starts_with_ascii_ci (K +:+ v +:+ T) other = false →
      key_value (K +:+ v +:+ T) other = None) as Hnone by (intros other Ho; unfold key_value; by rewrite Ho).
    clear Hwritten. repeat (apply elem_of_cons in Hkey as [Heq|Hkey]; [subst key; split; [done|];
      cbn [find_map]; rewrite ?(Hnone "privatekey"), ?(Hnone "password"), ?(Hnone "token") by (rewrite Hs; done);
      by rewrite Hval|]).
    by apply elem_of_nil in Hkey. }
  rewrite Hfind, Hval. by rewrite before_app.
Qed.

End key.

Lemma up_to_word_tail a s : up_to_word (String a s) = true → s = EmptyString ∧ ws a = true ∨ up_to_word s = true.
Proof. destruct s; simpl; [by left|by right]. Qed.

(** A continuation byte is not the last byte before a word. *)
Lemma complete_continuation a s : continuation (byte_of a) = true → up_to_word (String a s) = true →
  complete s = true → up_to_word s = true ∧ complete (String a s) = true.
Proof.
  intros Ha Hup Hc. destruct (up_to_word_tail a s Hup) as [[-> Hw]|Hs].
  - unfold continuation, ws, is_ascii_whitespace, in_range in *. lia.
  - split; [done|]. simpl. rewrite Hc, andb_true_r. apply Nat.leb_le.
    assert (s ≠ EmptyString) as Hne.
    { intros ->. simpl in Hup. unfold continuation, ws, is_ascii_whitespace, in_range in *. lia. }
    unfold continuation, in_range in Ha. unfold utf8_len.
    rewrite (proj2 (Z.ltb_ge _ _)), (proj2 (Z.ltb_lt _ 224)) by lia. destruct s; simpl; [done|lia].
Qed.

Lemma well_formed_complete n s : str_len s ≤ n →
  well_formed_utf8 (str_bytes s) = true → up_to_word s = true → complete s = true.
Proof.
  revert s. induction n as [|n IH]; intros s Hn Hwf Hup; destruct s as [|a s]; try done; simpl in Hn; [lia|].
  assert (∀ b t, up_to_word (String b t) = true → up_to_word t = true) as Htail.
  { intros b t Hb. by apply (up_to_word_app (String b EmptyString)). }
  cbn [str_bytes well_formed_utf8] in Hwf. cbn [complete]. apply andb_true_intro.
  destruct (Z.ltb_spec (byte_of a) 128) as [Hlt|Hge].
  { split; [|apply IH; [lia|done|by eapply Htail]]. unfold utf8_len. by rewrite (proj2 (Z.ltb_lt _ _)). }
  destruct s as [|b s]; [done|]. cbn [str_bytes] in Hwf. pose proof (Htail _ _ Hup) as Hupb.
  assert (∀ k, utf8_len a = S k → k ≤ S (str_len s) → Nat.leb (utf8_len a - 1) (str_len (String b s)) = true) as Hlead.
  { intros k -> Hk. apply Nat.leb_le. simpl. lia. }
  destruct (in_range 194 223 (byte_of a)) eqn:H2.
  { apply andb_prop in Hwf as [Hb Hwf]. split.
    - apply (Hlead 1); [|lia]. unfold utf8_len, in_range in *.
      by rewrite (proj2 (Z.ltb_ge _ _)), (proj2 (Z.ltb_lt _ 224)) by lia.
    - apply complete_continuation; [done..|]. apply IH; [simpl in Hn; lia|done|by eapply Htail]. }
  destruct s as [|c s]; [done|]. cbn [str_bytes] in Hwf. pose proof (Htail _ _ Hupb) as Hupc.
  destruct (in_range 224 239 (byte_of a)) eqn:H3.
  { apply andb_prop in Hwf as [[Hb Hc]%andb_prop Hwf]. split.
    - apply (Hlead 2); [|simpl; lia]. unfold utf8_len, in_range in *.
      by rewrite (proj2 (Z.ltb_ge _ 128)), (proj2 (Z.ltb_ge _ 224)), (proj2 (Z.ltb_lt _ 240)) by lia.
    - apply complete_continuation; [|done|].
      { unfold second_of_three, continuation, in_range in *. repeat case_match; lia. }
      apply complete_continuation; [done..|]. apply IH; [simpl in Hn; lia|done|by eapply Htail]. }
  destruct s as [|d s]; [done|]. cbn [str_bytes] in Hwf. pose proof (Htail _ _ Hupc) as Hupd.
  apply andb_prop in Hwf as [[[[H4 Hb]%andb_prop Hc]%andb_prop Hd]%andb_prop Hwf]. split.
  - apply (Hlead 3); [|simpl; lia]. unfold utf8_len, in_range in *.
    by rewrite (proj2 (Z.ltb_ge _ 128)), (proj2 (Z.ltb_ge _ 224)), (proj2 (Z.ltb_ge _ 240)) by lia.
  - apply complete_continuation; [|done|].
    { unfold second_of_four, continuation, in_range in *. repeat case_match; lia. }
    apply complete_continuation; [done..|]. apply complete_continuation; [done..|].
    apply IH; [simpl in Hn; lia|done|by eapply Htail].
Qed.

(** C31. What a log line says after a sensitive key is not shown. In a
    well-formed text where a key of the list stands as a word of its own, in
    any letter case, followed by blanks, [=] or [:], blanks and a value up to
    the end of the line, the redacted text is the same for every such value:
    the log tells nothing of the secret, not even its length. *)
Theorem logged_secret_hidden `{IpNetLib} (key written blanks blanks' : string) (sep : ascii)
    (earlier v v' later : string) :
  key ∈ SENSITIVE_KEYS → str_lowercase written = key →
  str_all blank blanks = true → separator sep = true → str_all blank blanks' = true →
  well_formed_utf8 (str_bytes earlier) = true → up_to_word earlier = true →
  secret v = true → secret v' = true → at_line_end later = true →
  let log value := earlier +:+ (written +:+ blanks +:+ String sep blanks') +:+ value +:+ later in
  redact_runtime_log (log v) = redact_runtime_log (log v').
Proof.
  intros Hkey Hw Hb Hsep Hb' Hutf Hup Hv Hv' Hend. cbv zeta. unfold redact_runtime_log. f_equal.
  unfold redact_credentials. destruct written as [|k0 K'].
  { subst key. by apply sensitive_key in Hkey as (_ & _ & ?). }
  assert (str_all alphanumeric (String k0 K') = true) as Hal.
  { apply in_line_lower. rewrite Hw. by apply sensitive_key. }
  pose proof Hal as [Hk0 _]%andb_prop. apply alphanumeric_plain in Hk0 as (_ & Hbl & Hse).
  assert (∀ s, str_all blank s = true → str_all in_line s = true) as Hblank.
  { intros s. apply str_all_impl. intros a. by destruct a as [[] [] [] [] [] [] [] []]. }
  eapply (hidden k0 (K' +:+ blanks +:+ String sep blanks') later (λ v, secret v = true)); try done.
  - assert (str_all in_line (String sep blanks') = true) as Hs.
    { cbn [str_all]. rewrite Hblank, andb_true_r by done. clear -Hsep.
      by destruct sep as [[] [] [] [] [] [] [] []]. }
    rewrite <- str_cons_app, !str_all_app, (Hblank blanks), Hs, andb_true_r by done.
    exact (str_all_impl _ in_line _ (λ a Ha, proj1 (alphanumeric_plain a Ha)) Hal).
  - destruct later as [|c T']; [by left|]. right. exists c, T'. split; [done|]. by apply negb_true_iff.
  - by intros u [Hu _]%andb_prop.
  - intros prev u Hprev Hu. rewrite <- str_cons_app. by apply (written_step key).
  - by eapply well_formed_complete.
Qed.

(** Of a public IPv4 address that stands as a word of its own, two octets are
    shown: addresses of one /16 give the same text. *)
Lemma public_address_masked `{IpNetLib} (word word' : string) (z z' : Z) :
  parse_ip word = Some (V4 z) → keep_ipv4 z = false →
  parse_ip word' = Some (V4 z') → keep_ipv4 z' = false →
  split_once_str "://" word = None → split_once_str "://" word' = None →
  str_is_empty word = false → str_is_empty word' = false →
  (word =b "localhost") || ends_with word ".local" = false →
  (word' =b "localhost") || ends_with word' ".local" = false →
  Z.shiftr z 16 = Z.shiftr z' 16 → mask_word word = mask_word word'.
Proof.
  intros Hp Hk Hp' Hk' Hs Hs' He He' Hl Hl' Hz. unfold mask_word. rewrite Hs, Hs'.
  unfold mask_token. cbn [mask_token_fuel].
  rewrite <- !orb_assoc, Hl, Hl', He, He', Hp, Hp', Hk, Hk'. simpl.
  unfold mask_ipv4, octet. change (24 - 8 * 0)%Z with (16 + 8)%Z. change (24 - 8 * 1)%Z with 16%Z.
  by rewrite <- !Z.shiftr_shiftr, Hz by lia.
Qed.

#[local] Existing Instance ipnet_model.

Lemma logged_secret_hidden_witness :
  redact_runtime_log "auth: ok Password : hunter2" = redact_runtime_log "auth: ok Password : correct horse" ∧
  redact_runtime_log "auth: ok Password : hunter2" = "auth: ok Password : [redacted]"%string.
Proof.
  split; [|vm_compute; reflexivity].
  apply (logged_secret_hidden "password" "Password" " " " " ":" "auth: ok " "hunter2" "correct horse" "");
    try (vm_compute; reflexivity). unfold SENSITIVE_KEYS. right. left.
Defined.

(** Neither pass looks behind a quote or a second colon: a secret in JSON and
    a destination the way Xray logs it are shown as they are. *)
Example json_secret_shown : let quote := String "034" EmptyString in
  redact_runtime_log (quote +:+ "password" +:+ quote +:+ ": " +:+ quote +:+ "hunter2" +:+ quote)
  = (quote +:+ "password" +:+ quote +:+ ": " +:+ quote +:+ "hunter2" +:+ quote).
Proof. vm_compute. reflexivity. Qed.
Example xray_destination_shown :
  redact_runtime_log "accepted tcp:www.example.com:443" = "accepted tcp:www.example.com:443"%string.
Proof. vm_compute. reflexivity. Qed.
