(* ===== verification/NetlinkData.v ===== *)
(** * rtnetlink messages

    What [crates/daemon/src/netlink.rs] uses of the messages of the
    [netlink_packet_route] crate: the header fields it reads or writes and
    the attributes it names. Any other attribute is one constructor with its
    kind and contents. The crate's enumerations that convert from and to an
    integer and are only used through it ([RouteProtocol], [IpProtocol]) are
    that integer. *)

From S2P Require Export Net.

Inductive AddressFamily : Type := Inet | Inet6 | OtherFamily (code : Z).

Inductive RouteType : Type :=
| TypeUnspec | Unicast | LocalType | Broadcast | Anycast | Multicast | BlackHole | Unreachable
| Prohibit | Throw | NatType | ExternalResolve | TypeOther (code : Z).

Inductive RouteScope : Type :=
| Universe | Site | LinkScope | Host | NoWhere | ScopeOther (code : Z).

Inductive RuleAction : Type :=
| ActionUnspec | ToTable | GotoAction | Nop | ActionBlackhole | ActionUnreachable | ActionProhibit
| ActionOther (code : Z).

Inductive RuleFlag : Type := Invert | FlagOther (code : Z).

Inductive RouteAddress : Type :=
| RouteInet (a : Z)
| RouteInet6 (a : Z)
| RouteAddressOther (b : list Z).

(** [RouteNextHop] is the record of the second constructor group. *)
Inductive RouteAttribute : Type :=
| RouteDestination (a : RouteAddress)
| RouteOif (index : Z)
| RoutePriority (metric : Z)
| RouteGateway (a : RouteAddress)
| RouteTable (table : Z)
| RoutePrefSource (a : RouteAddress)
| RouteMultiPath (hops : list RouteNextHop)
| RouteAttributeOther (kind : Z) (b : list Z)
with RouteNextHop : Type :=
| mkRouteNextHop (interface_index : Z) (hops : Z) (attributes : list RouteAttribute).

Definition hop_interface_index (hop : RouteNextHop) : Z := let '(mkRouteNextHop i _ _) := hop in i.
Definition hop_hops (hop : RouteNextHop) : Z := let '(mkRouteNextHop _ w _) := hop in w.
Definition hop_attributes (hop : RouteNextHop) : list RouteAttribute :=
  let '(mkRouteNextHop _ _ l) := hop in l.

Record RouteMessage : Type := mkRouteMessage {
  rm_family : AddressFamily;
  rm_prefix_length : Z;
  rm_table : Z;
  rm_protocol : Z;
  rm_scope : RouteScope;
  rm_kind : RouteType;
  rm_attributes : list RouteAttribute;
}.

Inductive RuleAttribute : Type :=
| RuleTable (table : Z)
| RulePriority (priority : Z)
| RuleFwMark (mark : Z)
| RuleFwMask (mask : Z)
| RuleSuppressPrefixLen (length : Z)
| RuleSuppressIfGroup (group : Z)
| RuleProtocol (protocol : Z)
| RuleSource (a : IpAddr)
| RuleDestination (a : IpAddr)
| RuleIifname (name : string)
| RuleOifname (name : string)
| RuleUidRange (first last : Z)
| RuleSourcePortRange (first last : Z)
| RuleDestinationPortRange (first last : Z)
| RuleIpProtocol (protocol : Z)
| RuleTunId (id : Z)
| RuleGoto (priority : Z)
| RuleAttributeOther (kind : Z) (b : list Z).

Record RuleMessage : Type := mkRuleMessage {
  um_family : AddressFamily;
  um_dst_len : Z;
  um_src_len : Z;
  um_tos : Z;
  um_table : Z;
  um_action : RuleAction;
  um_flags : list RuleFlag;
  um_attributes : list RuleAttribute;
}.

Inductive LinkFlag : Type := IffUp | LinkFlagOther (bit : Z).
Inductive InfoKind : Type := WireguardKind | InfoKindOther (name : string).
Inductive LinkInfo : Type := LinkInfoKind (kind : InfoKind) | LinkInfoOther (b : list Z).
Inductive LinkAttribute : Type :=
| IfName (name : string)
| IfAlias (alias : string)
| LinkInfoAttr (info : list LinkInfo)
| LinkAttributeOther (kind : Z) (b : list Z).

Record LinkMessage : Type := mkLinkMessage {
  lm_index : Z;
  lm_flags : list LinkFlag;
  lm_change_mask : list LinkFlag;
  lm_attributes : list LinkAttribute;
}.

Inductive AddressAttribute : Type :=
| AddressAddress (a : IpAddr)
| AddressLocal (a : IpAddr)
| AddressAttributeOther (kind : Z) (b : list Z).

Record AddressMessage : Type := mkAddressMessage {
  am_family : AddressFamily;
  am_prefix_len : Z;
  am_scope : Z;
  am_index : Z;
  am_attributes : list AddressAttribute;
}.

(** [rtnetlink::Error]: the errno of the kernel's answer, with its text, or
    any other failure. *)
Inductive nl_error : Type :=
| NetlinkError (raw_code : Z) (message : text)
| OtherNlError (message : text).

(** A dump: the messages read before the end of the stream or its error. *)
Abbreviation nl_stream A := (list A * option nl_error)%type.

(** The reply to [RTM_GETROUTE]. *)
Inductive LookupReply : Type :=
| NoReply
| NewRoute (route : RouteMessage)
| LookupError (raw_code : Z) (message : text)
| UnexpectedReply.

#[export] Instance AddressFamily_eq_dec : EqDecision AddressFamily.
Proof. solve_decision. Defined.
#[export] Instance RouteType_eq_dec : EqDecision RouteType.
Proof. solve_decision. Defined.
#[export] Instance RouteScope_eq_dec : EqDecision RouteScope.
Proof. solve_decision. Defined.
#[export] Instance RuleAction_eq_dec : EqDecision RuleAction.
Proof. solve_decision. Defined.
#[export] Instance RuleFlag_eq_dec : EqDecision RuleFlag.
Proof. solve_decision. Defined.
#[export] Instance RuleAttribute_eq_dec : EqDecision RuleAttribute.
Proof. solve_decision. Defined.
#[export] Instance LinkFlag_eq_dec : EqDecision LinkFlag.
Proof. solve_decision. Defined.
#[export] Instance InfoKind_eq_dec : EqDecision InfoKind.
Proof. solve_decision. Defined.
#[export] Instance LinkInfo_eq_dec : EqDecision LinkInfo.
Proof. solve_decision. Defined.
#[export] Instance LinkAttribute_eq_dec : EqDecision LinkAttribute.
Proof. solve_decision. Defined.
