(* ===== verification/Types.v ===== *)
(** * The protocol and journal data

    The records and enums of [crates/core/src/daemon_protocol.rs],
    [crates/core/src/models.rs] and [crates/core/src/journal.rs] that the
    modelled operations read and write. Integers of width 32 or 64 are [Z];
    field names carry a prefix where two records share one. *)

From S2P Require Export Net NetlinkData.

(** ** Routes *)

Record AppliedRoute : Type := mkAppliedRoute {
  ar_destination : IpNet;
  ar_interface_index : Z;
  ar_metric : Z;
  ar_gateway : option IpAddr;
  ar_table : option Z;
}.

Definition on_link (destination : IpNet) (interface_index metric : Z) : AppliedRoute :=
  mkAppliedRoute destination interface_index metric None None.

Record PolicyRoute : Type := mkPolicyRoute {
  pr_destination : IpNet;
  pr_metric : Z;
  pr_via : option IpAddr;
}.

Record AttachSpecParams : Type := mkAttachSpec {
  as_interface_name : string;
  as_routes : list PolicyRoute;
  as_endpoint_bypasses : list string;
  as_uplink : bool;
}.

Inductive IpFamily : Type := Ipv4 | Ipv6.

Record SystemNexthop : Type := mkNexthop {
  nh_gateway : option IpAddr;
  nh_interface_index : Z;
  nh_interface_name : option string;
  nh_weight : Z;
}.

Record SystemRoute : Type := mkSystemRoute {
  sr_family : IpFamily;
  sr_destination : IpNet;
  sr_table : Z;
  sr_kind : string;
  sr_scope : string;
  sr_protocol : Z;
  sr_managed : bool;
  sr_gateway : option IpAddr;
  sr_interface_index : option Z;
  sr_interface_name : option string;
  sr_metric : option Z;
  sr_pref_source : option IpAddr;
  sr_nexthops : list SystemNexthop;
}.

Record SystemRule : Type := mkSystemRule {
  ru_family : IpFamily;
  ru_priority : Z;
  ru_action : string;
  ru_table : Z;
  ru_goto : option Z;
  ru_from : option IpNet;
  ru_to : option IpNet;
  ru_fwmark : option Z;
  ru_fwmask : option Z;
  ru_iifname : option string;
  ru_oifname : option string;
  ru_uid_range : option (Z * Z);
  ru_source_port_range : option (Z * Z);
  ru_destination_port_range : option (Z * Z);
  ru_ip_protocol : option string;
  ru_suppress_prefix_length : option Z;
  ru_suppress_if_group : option Z;
  ru_tun_id : option Z;
  ru_tos : Z;
  ru_invert : bool;
  ru_protocol : Z;
  ru_managed : bool;
}.

Record NetTablesResult : Type := mkNetTables {
  nt_routes : list SystemRoute;
  nt_rules : list SystemRule;
  nt_available : bool;
}.

Record NetRouteAddParams : Type := mkNetRouteAdd {
  ra_destination : IpNet;
  ra_table : option Z;
  ra_gateway : option IpAddr;
  ra_interface_name : option string;
  ra_interface_index : option Z;
  ra_metric : option Z;
  ra_pref_source : option IpAddr;
}.

Record NetRuleAddParams : Type := mkNetRuleAdd {
  rp_family : IpFamily;
  rp_priority : Z;
  rp_table : Z;
  rp_from : option IpNet;
  rp_to : option IpNet;
  rp_fwmark : option Z;
  rp_fwmask : option Z;
  rp_iifname : option string;
  rp_oifname : option string;
  rp_invert : bool;
}.

Inductive NetEditOutcome : Type := Deleted | Suppressed.

(** ** Tunnels *)

Inductive TunnelState : Type := Stopped | Running | Failed.

Inductive WireGuardWarning : Type :=
| IgnoredHook
| IgnoredSaveConfig
| DnsNotApplied
| Ipv6NotCovered.

Record WireGuardFullResource : Type := mkFull {
  wf_table : Z;
  wf_fwmark : Z;
  wf_priority_main : Z;
  wf_priority_tunnel : Z;
  wf_ipv4 : bool;
  wf_ipv6 : bool;
}.

Record OwnedRuleResource : Type := mkOwnedRule {
  or_family : IpFamily;
  or_priority : Z;
  or_table : Z;
  or_fwmark : option Z;
  or_invert : bool;
  or_suppress_prefix_length : option Z;
}.

Record WireGuardDnsResource : Type := mkDnsResource {
  wd_interface_index : Z;
  wd_name : string;
  wd_servers : list IpAddr;
  wd_domains : list string;
  wd_full : bool;
  wd_applied : bool;
}.

Record WireGuardLinkResource : Type := mkLinkResource {
  wl_name : string;
  wl_index : Z;
  wl_owner_marker : string;
  wl_full : option WireGuardFullResource;
  wl_warnings : list WireGuardWarning;
}.

Record WireGuardAddressResource : Type := mkAddressResource {
  wa_interface_index : Z;
  wa_address : IpNet;
}.

Record OpenVpnProcessResource : Type := mkOpenVpnProcess {
  op_name : string;
  op_owner_marker : string;
  op_transport_mark : option Z;
  op_full : option WireGuardFullResource;
}.

Record XrayFailoverNode : Type := mkFailoverNode { fn_key : string }.

Record XrayFailoverParams : Type := mkFailoverParams {
  fp_nodes : list XrayFailoverNode;
  fp_primary_key : string;
  fp_auto_return_primary : bool;
  fp_probe_url : string;
  fp_interval_secs : Z;
}.

Inductive ProxyTarget : Type :=
| TargetRules
| TargetNode (endpoint_key : string)
| TargetPool (endpoint_keys : list string)
| TargetDirect.

(** [xray::UNAVAILABLE_TAG] of [crates/core/src/xray.rs]: the blackhole
    outbound. *)
Definition UNAVAILABLE_TAG : string := "unavailable".

(** [ProxyTarget::endpoint_keys] *)
Definition endpoint_keys (t : ProxyTarget) : list string :=
  match t with
  | TargetRules | TargetDirect => []
  | TargetNode k => [k]
  | TargetPool ks => ks
  end.

Record ProxyExitBinding : Type := mkExitBinding {
  pb_name : string;
  pb_target : ProxyTarget;
}.

Record XrayProcessResource : Type := mkXrayProcess {
  xp_name : string;
  xp_index : Z;
  xp_owner_marker : string;
  xp_transport_mark : Z;
  xp_full : option WireGuardFullResource;
  xp_failover : option XrayFailoverParams;
  xp_reject_quic : bool;
  xp_probe_url : option string;
  xp_pinned_keys : list string;
  xp_mtu : option Z;
  xp_proxy_exits : list ProxyExitBinding;
}.

(** ** The ownership journal *)

Inductive OwnedState : Type := Applying | Applied | Stale.

Inductive OwnedResource : Type :=
| Route (r : AppliedRoute)
| WireGuardLink (l : WireGuardLinkResource)
| OpenVpnProcess (p : OpenVpnProcessResource)
| XrayProcess (p : XrayProcessResource)
| Address (a : WireGuardAddressResource)
| Rule (r : OwnedRuleResource)
| Dns (d : WireGuardDnsResource)
| AttachSpec (s : AttachSpecParams)
| NetRoute (r : SystemRoute)
| NetRule (r : SystemRule)
| SuppressedRoute (r : SystemRoute)
| SuppressedRule (r : SystemRule).

Record JournalEntry : Type := mkEntry {
  je_uid : Z;
  je_owner : string;
  je_state : OwnedState;
  je_resources : list OwnedResource;
}.

Definition JOURNAL_VERSION : Z := 5.

Record JournalDocument : Type := mkJournal {
  jd_version : Z;
  jd_entries : list JournalEntry;
}.

(** [JournalDocument::default()] *)
Definition journal_default : JournalDocument := mkJournal JOURNAL_VERSION [].

Record OwnedEntry : Type := mkOwnedEntry {
  oe_owner : string;
  oe_state : OwnedState;
  oe_resources : list OwnedResource;
}.

Record CleanupResult : Type := mkCleanup {
  cr_removed_owners : list string;
  cr_failed : list string;
}.

(** ** Conditional rules *)

Inductive RouteCondition : Type :=
| InterfaceAddressIn (prefix : IpNet).

Record ConditionalRouteRule : Type := mkCondRule {
  cr_id : string;
  cr_name : string;
  cr_enabled : bool;
  cr_condition : RouteCondition;
  cr_routes : list PolicyRoute;
}.

Inductive ConditionalRuleState : Type :=
| RuleDisabled
| RuleInactive
| RuleActive
| RuleError.

Record ConditionalRuleStatus : Type := mkCondStatus {
  cs_state : ConditionalRuleState;
  cs_matched_interface : option string;
  cs_applied_routes : nat;
  cs_detail : option text;
}.

(** ** Routing intents *)

Inductive ExplainStatus : Type :=
| Effective | Deferred | Conflicted | Missing | Active | Disabled.

Record NetIntentPath : Type := mkIntentPath {
  ip_kind : string;
  ip_interface : option string;
  ip_gateway : option string;
}.

Record NetIntentSetParams : Type := mkIntentSet {
  is_id : string;
  is_destinations : list string;
  is_path : NetIntentPath;
  is_metric : option Z;
  is_enabled : option bool;
}.

(** The list entry for an intent. *)
Record NetIntentView : Type := mkIntentView {
  iv_id : string;
  iv_destinations : list string;
  iv_path : NetIntentPath;
  iv_metric : Z;
  iv_enabled : bool;
  iv_status : ExplainStatus;
  iv_detail : text;
  iv_installed : nat;
  iv_wanted : nat;
}.

(** ** What the clients and the macOS helper read of the system *)

Inductive TunnelBackend : Type := NoBackend | WireGuardBackend | OpenVpnBackend | XrayBackend.

Record RouteEntry : Type := mkRouteEntry {
  re_destination : IpAddr;
  re_prefix_len : Z;
  re_gateway : option IpAddr;
  re_interface_index : Z;
  re_interface_name : string;
  re_metric : Z;
}.

(** What the intents read of [NetworkInterface] and its [InterfaceAddress]es. *)
Record ListedInterface : Type := mkListedInterface {
  li_name : string;
  li_if_index : Z;
  li_addresses : list (IpAddr * Z);
}.

(** ** Limits of the protocol *)

Definition MAX_ROUTES_PER_REQUEST : Z := 8192.
Definition MAX_OWNER_BYTES : Z := 128.

(** ** Decidable equality, the derived [PartialEq] *)

#[export] Instance AppliedRoute_eq_dec : EqDecision AppliedRoute.
Proof. solve_decision. Defined.
#[export] Instance PolicyRoute_eq_dec : EqDecision PolicyRoute.
Proof. solve_decision. Defined.
#[export] Instance AttachSpecParams_eq_dec : EqDecision AttachSpecParams.
Proof. solve_decision. Defined.
#[export] Instance IpFamily_eq_dec : EqDecision IpFamily.
Proof. solve_decision. Defined.
#[export] Instance SystemNexthop_eq_dec : EqDecision SystemNexthop.
Proof. solve_decision. Defined.
#[export] Instance SystemRoute_eq_dec : EqDecision SystemRoute.
Proof. solve_decision. Defined.
#[export] Instance SystemRule_eq_dec : EqDecision SystemRule.
Proof. solve_decision. Defined.
#[export] Instance NetEditOutcome_eq_dec : EqDecision NetEditOutcome.
Proof. solve_decision. Defined.
#[export] Instance TunnelState_eq_dec : EqDecision TunnelState.
Proof. solve_decision. Defined.
#[export] Instance WireGuardWarning_eq_dec : EqDecision WireGuardWarning.
Proof. solve_decision. Defined.
#[export] Instance WireGuardFullResource_eq_dec : EqDecision WireGuardFullResource.
Proof. solve_decision. Defined.
#[export] Instance OwnedRuleResource_eq_dec : EqDecision OwnedRuleResource.
Proof. solve_decision. Defined.
#[export] Instance WireGuardDnsResource_eq_dec : EqDecision WireGuardDnsResource.
Proof. solve_decision. Defined.
#[export] Instance WireGuardLinkResource_eq_dec : EqDecision WireGuardLinkResource.
Proof. solve_decision. Defined.
#[export] Instance WireGuardAddressResource_eq_dec : EqDecision WireGuardAddressResource.
Proof. solve_decision. Defined.
#[export] Instance OpenVpnProcessResource_eq_dec : EqDecision OpenVpnProcessResource.
Proof. solve_decision. Defined.
#[export] Instance XrayFailoverNode_eq_dec : EqDecision XrayFailoverNode.
Proof. solve_decision. Defined.
#[export] Instance XrayFailoverParams_eq_dec : EqDecision XrayFailoverParams.
Proof. solve_decision. Defined.
#[export] Instance ProxyTarget_eq_dec : EqDecision ProxyTarget.
Proof. solve_decision. Defined.
#[export] Instance ProxyExitBinding_eq_dec : EqDecision ProxyExitBinding.
Proof. solve_decision. Defined.
#[export] Instance XrayProcessResource_eq_dec : EqDecision XrayProcessResource.
Proof. solve_decision. Defined.
#[export] Instance OwnedState_eq_dec : EqDecision OwnedState.
Proof. solve_decision. Defined.
#[export] Instance OwnedResource_eq_dec : EqDecision OwnedResource.
Proof. solve_decision. Defined.
#[export] Instance JournalEntry_eq_dec : EqDecision JournalEntry.
Proof. solve_decision. Defined.
#[export] Instance RouteCondition_eq_dec : EqDecision RouteCondition.
Proof. solve_decision. Defined.
#[export] Instance ConditionalRouteRule_eq_dec : EqDecision ConditionalRouteRule.
Proof. solve_decision. Defined.
#[export] Instance ConditionalRuleState_eq_dec : EqDecision ConditionalRuleState.
Proof. solve_decision. Defined.
#[export] Instance ExplainStatus_eq_dec : EqDecision ExplainStatus.
Proof. solve_decision. Defined.
#[export] Instance NetIntentPath_eq_dec : EqDecision NetIntentPath.
Proof. solve_decision. Defined.
#[export] Instance NetIntentSetParams_eq_dec : EqDecision NetIntentSetParams.
Proof. solve_decision. Defined.

Inductive TunnelRole : Type := Primary | Secondary.

#[export] Instance TunnelRole_eq_dec : EqDecision TunnelRole.
Proof. solve_decision. Defined.

(** ** What the workers report *)

Record NodeHealth : Type := mkNodeHealth {
  nh_key : string;
  nh_healthy : option bool;
  nh_last_probe_unix : option Z;
  nh_latency_ms : option Z;
}.

Record FailoverStatus : Type := mkFailoverStatus {
  fs_primary_key : string;
  fs_active_key : string;
  fs_auto_return_primary : bool;
  fs_failover_active : bool;
  fs_nodes : list NodeHealth;
}.

Record ConnStorm : Type := mkConnStorm {
  cs_destination : string;
  cs_process : option string;
  cs_count : Z;
}.

(** [WatchdogStatus] of [models.rs], less the service checks, which another
    worker fills. *)
Record WatchdogStatus : Type := mkWatchdogStatus {
  wa_uplink : option bool;
  wa_egress_signature : option string;
  wa_https_stall_streak : Z;
  wa_https_latency_ms : option Z;
  wa_dns_stall_streak : Z;
  wa_udp_sockets : Z;
  wa_conn_storm : option ConnStorm;
  wa_last_egress_change_unix : option Z;
  wa_last_recovery_unix : option Z;
  wa_anomalies : list string;
}.

Definition status_default : WatchdogStatus :=
  mkWatchdogStatus None None 0 None 0 0 None None None [].

(** ** Diagnostics and assets of an Xray connection *)

Record ServiceCheck : Type := mkServiceCheck {
  sv_id : string;
  sv_name : string;
  sv_url : string;
  sv_endpoint_key : string;
  sv_background : bool;
}.

Inductive ServiceCheckOutcome : Type := Http | Timeout | TlsError | TransportError | Unavailable.

Record ServiceCheckResult : Type := mkCheckResult {
  vr_id : string;
  vr_name : string;
  vr_endpoint_key : string;
  vr_outcome : ServiceCheckOutcome;
  vr_http_status : option Z;
  vr_latency_ms : option Z;
  vr_checked_at_unix : Z;
  vr_consecutive_failures : Z;
  vr_degraded : bool;
}.

Record XrayGeoAssets : Type := mkGeoAssets {
  ga_geoip_dat_b64 : option string;
  ga_geosite_dat_b64 : option string;
}.

(** The arguments of [FailoverSupervisors::spawn]. *)
Record FailoverSpec : Type := mkFailoverSpec {
  fx_failover : option XrayFailoverParams;
  fx_exits : list ProxyExitBinding;
  fx_probe_url : option string;
  fx_pinned_keys : list string;
  fx_mark : Z;
}.

(** An interface address as the netlink dump gives it ([cond_rules.rs]). *)
Record IfaceAddr : Type := mkIfaceAddr {
  ia_ifindex : Z;
  ia_name : string;
  ia_address : IpNet;
  ia_scope : Z;
}.

(** ** Authorization *)

Inductive Action : Type := SystemNetwork | ConnectProfile | ConnectProfileAdmin.
Inductive AuthDecision : Type := Authorized | Denied | Dismissed.
Inductive VpnAuthMode : Type := NoPrompt | FullTunnelOnly | Always.

#[export] Instance Action_eq_dec : EqDecision Action.
Proof. solve_decision. Defined.
#[export] Instance AuthDecision_eq_dec : EqDecision AuthDecision.
Proof. solve_decision. Defined.
#[export] Instance VpnAuthMode_eq_dec : EqDecision VpnAuthMode.
Proof. solve_decision. Defined.

(** A pidfd is a handle; its number stands for it. *)
Record PeerIdentity : Type := mkPeer {
  pi_uid : Z;
  pi_pid : Z;
  pi_start_time : option Z;
  pi_pidfd : option Z;
}.
