(* ===== verification/OpenVpnManagement.v ===== *)
(** * The OpenVPN management interface: [crates/core/src/openvpn_management.rs]

    The lines of the management socket become events, the pushed options a
    bounded network configuration, and the credentials quoted commands. Log
    and reason text never leaves the parser. *)

From S2P Require Export StdText Types.

(** What the parser uses of [ipnet::Ipv4Net::with_netmask]: an address and a
    netmask, refused unless the mask is contiguous. *)
Class NetmaskLib : Type := {
  with_netmask : Z → Z → option IpNet;
  with_netmask_v4 a m n : with_netmask a m = Some n → net_is_ipv4 n = true;
}.

(** ** Data *)

Definition MAX_MANAGEMENT_LINE_BYTES : Z := 16384.
Definition MAX_PUSH_BYTES : Z := 8192.
Definition MAX_PUSH_DIRECTIVES : Z := 128.
Definition MAX_ROUTES : Z := 64.
Definition MAX_DNS_ADDRESSES : Z := 16.
Definition MAX_DNS_DOMAINS : Z := 16.
Definition MAX_USERNAME_BYTES : Z := 256.
Definition MAX_SECRET_BYTES : Z := 4096.

Inductive ManagementParseError : Type := Malformed | Unsupported | PushTooLarge.

Inductive OpenVpnFailure : Type :=
| AuthenticationFailure | CredentialsRequired | ResolveError | ConnectError | TlsError
| ConnectionLost | ExitWithError | ExitNotification | Terminated.

Inductive OpenVpnState : Type :=
| Connecting | Resolve | TcpConnect | Wait | Auth | AuthPending | GetConfig | AssignIp
| AddRoutes | Connected | Reconnecting | Exiting.

Record PushedDnsServer : Type := mkPushedDns {
  pd_id : Z;
  pd_addresses : list IpAddr;
  pd_resolve_domains : list string;
}.

Record PushedNetworkConfig : Type := mkPushed {
  pn_routes : list IpNet;
  pn_redirect_gateway_def1 : bool;
  pn_legacy_dns_servers : list IpAddr;
  pn_search_domains : list string;
  pn_dns_servers : list PushedDnsServer;
  pn_more_follows : bool;
}.

Record ManagementSnapshot : Type := mkSnapshot {
  ms_state : option OpenVpnState;
  ms_last_failure : option OpenVpnFailure;
  ms_received : Z;
  ms_sent : Z;
  ms_active_push : option PushedNetworkConfig;
  ms_pending_push : option PushedNetworkConfig;
}.

Inductive PasswordPrompt : Type := AuthPrompt | PrivateKeyPrompt.

Inductive ManagementCredentialError : Type := CredentialMissing | CredentialInvalid.

Record OpenVpnUserPass : Type := mkUserPass { up_username : string; up_password : string }.

Record OpenVpnCredentials : Type := mkCredentials {
  oc_auth_user_pass : option OpenVpnUserPass;
  oc_private_key_passphrase : option string;
}.

Inductive ManagementEvent : Type :=
| EvState (state : OpenVpnState)
| EvFailureDetail (failure : OpenVpnFailure)
| EvByteCount (received sent : Z)
| EvPasswordPrompt (prompt : PasswordPrompt)
| EvAuthenticationFailed
| EvPushReply (push : PushedNetworkConfig).

#[export] Instance OpenVpnState_eq_dec : EqDecision OpenVpnState.
Proof. solve_decision. Defined.
#[export] Instance OpenVpnFailure_eq_dec : EqDecision OpenVpnFailure.
Proof. solve_decision. Defined.

(** [for x in from { if !into.contains(x) { into.push(x) } }] *)
Definition push_new {A} `{EqDecision A} (into from : list A) : list A :=
  fold_left (λ acc x, if vec_contains acc x then acc else acc ++ [x]) from into.

(** [PushedNetworkConfig::merge] *)
Definition push_merge (self next : PushedNetworkConfig) : PushedNetworkConfig :=
  mkPushed (push_new (pn_routes self) (pn_routes next))
    (pn_redirect_gateway_def1 self || pn_redirect_gateway_def1 next)
    (push_new (pn_legacy_dns_servers self) (pn_legacy_dns_servers next))
    (push_new (pn_search_domains self) (pn_search_domains next))
    (pn_dns_servers self ++ pn_dns_servers next) (pn_more_follows next).

(** ** [ManagementSnapshot] *)

Definition snapshot_default : ManagementSnapshot := mkSnapshot None None 0 0 None None.

Definition snapshot_apply (event : ManagementEvent) (self : ManagementSnapshot)
    : ManagementSnapshot :=
  match event with
  | EvState state =>
    let '(active, pending) :=
      match state with
      | Connected => (ms_pending_push self, None)
      | Reconnecting | Exiting => (None, None)
      | _ => (ms_active_push self, ms_pending_push self)
      end in
    mkSnapshot (Some state) (ms_last_failure self) (ms_received self) (ms_sent self) active pending
  | EvByteCount received sent =>
    mkSnapshot (ms_state self) (ms_last_failure self) received sent (ms_active_push self)
      (ms_pending_push self)
  | EvPushReply push =>
    mkSnapshot (ms_state self) (ms_last_failure self) (ms_received self) (ms_sent self)
      (ms_active_push self)
      (match ms_pending_push self with
       | Some pending => if pn_more_follows pending then Some (push_merge pending push) else Some push
       | None => Some push
       end)
  | EvFailureDetail failure =>
    let generic := (failure =b ExitWithError) || (failure =b ExitNotification) in
    mkSnapshot (ms_state self)
      (if is_none (ms_last_failure self) || negb generic then Some failure
       else ms_last_failure self)
      (ms_received self) (ms_sent self) (ms_active_push self) (ms_pending_push self)
  | EvAuthenticationFailed =>
    mkSnapshot (Some Exiting) (Some AuthenticationFailure) (ms_received self) (ms_sent self) None None
  | EvPasswordPrompt _ => self
  end.

(** ** Credentials *)

Definition safe_credential (value : string) (max_bytes : Z) (allow_empty : bool) : bool :=
  (allow_empty || negb (str_is_empty value)) && Z.leb (Z.of_nat (str_len value)) max_bytes
  && negb (existsb is_control (chars value)).

Definition validate_openvpn_credentials (credentials : OpenVpnCredentials)
    : result unit ManagementCredentialError :=
  if is_none (oc_auth_user_pass credentials) && is_none (oc_private_key_passphrase credentials)
  then Err CredentialInvalid
  else if is_some_and (λ auth,
            negb (safe_credential (up_username auth) MAX_USERNAME_BYTES false)
            || negb (safe_credential (up_password auth) MAX_SECRET_BYTES true))
            (oc_auth_user_pass credentials)
  then Err CredentialInvalid
  else if is_some_and (λ passphrase, negb (safe_credential passphrase MAX_SECRET_BYTES false))
            (oc_private_key_passphrase credentials)
  then Err CredentialInvalid
  else Ok tt.

(** The quote and the backslash are single bytes of UTF-8. *)
Fixpoint escape_management (value : string) : string :=
  match value with
  | EmptyString => EmptyString
  | String c value' =>
    if Ascii.eqb c "034" || Ascii.eqb c "\"
    then String "\" (String c (escape_management value'))
    else String c (escape_management value')
  end.

Definition dquote : string := String "034" EmptyString.

Definition quote_management_value (value : string) : string :=
  dquote +:+ escape_management value +:+ dquote.

Definition management_password_reply (prompt : PasswordPrompt)
    (credentials : option OpenVpnCredentials) : result string ManagementCredentialError :=
  credentials <-? ok_or credentials CredentialMissing;
  _ <-? validate_openvpn_credentials credentials;
  match prompt with
  | AuthPrompt =>
    auth <-? ok_or (oc_auth_user_pass credentials) CredentialMissing;
    Ok ("username " +:+ dquote +:+ "Auth" +:+ dquote +:+ " "
          +:+ quote_management_value (up_username auth) +:+ newline
          +:+ "password " +:+ dquote +:+ "Auth" +:+ dquote +:+ " "
          +:+ quote_management_value (up_password auth) +:+ newline)
  | PrivateKeyPrompt =>
    passphrase <-? ok_or (oc_private_key_passphrase credentials) CredentialMissing;
    Ok ("password " +:+ dquote +:+ "Private Key" +:+ dquote +:+ " "
          +:+ quote_management_value passphrase +:+ newline)
  end.

(** ** Pushed options *)

(** [a | b | ...] by a control character a line may not hold. *)
Definition has_line_break (s : string) : bool :=
  contains_char s "013" || contains_char s "010" || contains_char s "000".

(** [BTreeMap<u8, PushedDnsServer>], in the order of the keys. *)
Abbreviation dns_servers := (gmap Z PushedDnsServer).

Definition into_values (servers : dns_servers) : list PushedDnsServer :=
  map snd (sort_by (λ a b, Z.leb a.1 b.1) (map_to_list servers)).

(** A character of a domain label. *)
Definition label_byte (a : ascii) : bool :=
  is_ascii_alphanumeric (byte_of a) || Ascii.eqb a "-".

Definition valid_label (label : string) : bool :=
  negb (str_is_empty label) && Nat.leb (str_len label) 63
  && negb (starts_with label "-") && negb (ends_with_char label "-") && str_all label_byte label.

Definition valid_domain (domain : string) : bool :=
  Nat.leb (str_len domain) 253 && negb (str_is_empty domain)
  && forallb valid_label (split_char "." domain).

Definition validate_domain (domain : string) : result unit ManagementParseError :=
  if valid_domain domain then Ok tt else Err Malformed.

Definition push_unique {A} `{EqDecision A} (items : list A) (item : A) (max : Z)
    : result (list A) ManagementParseError :=
  if vec_contains items item then Ok items
  else if Z.leb max (zlen items) then Err PushTooLarge
  else Ok (items ++ [item]).

Section push.
Context `{IpNetLib} `{NetmaskLib}.

Definition add_route (routes : list IpNet) (route : IpNet) : result (list IpNet) ManagementParseError :=
  push_unique routes route MAX_ROUTES.

Fixpoint add_routes (routes : list IpNet) (new : list IpNet)
    : result (list IpNet) ManagementParseError :=
  match new with
  | [] => Ok routes
  | route :: rest => routes <-? add_route routes route; add_routes routes rest
  end.

(** [str::parse::<Ipv4Addr>]: the addresses that parse as IPv4. *)
Definition parse_ipv4 (s : string) : option Z :=
  match parse_ip s with Some (V4 z) => Some z | _ => None end.

Definition u32_bound : Z := 4294967296.

(** The arms of [parse_ipv4_route] for one and two tokens. *)
Definition parse_ipv4_network (tokens : list string) : result (option IpNet) ManagementParseError :=
  match tokens with
  | [address] =>
    if contains_char address "/" then
      match parse_net address with
      | Some route => if net_is_ipv4 route then Ok (Some (trunc route)) else Err Malformed
      | None => Err Malformed
      end
    else
      address <-? ok_or (parse_ipv4 address) Malformed;
      Ok (Some (mkNet (V4 address) 32))
  | [address; mask] =>
    address <-? ok_or (parse_ipv4 address) Malformed;
    mask <-? ok_or (parse_ipv4 mask) Malformed;
    route <-? ok_or (with_netmask address mask) Malformed;
    Ok (Some (trunc route))
  | _ => Err Malformed
  end.

Definition parse_ipv4_route (tokens : list string) : result (option IpNet) ManagementParseError :=
  match tokens with
  | address :: mask :: gateway :: rest =>
    if one_of gateway ["net_gateway"; "remote_host"]%string then Ok None
    else match rest with
    | [] | [_] =>
      if negb ((gateway =b "vpn_gateway"%string) || is_some (parse_ipv4 gateway))
         || negb (is_none_or (λ m, is_some (parse_uint u32_bound m)) (head rest))
      then Err Malformed
      else parse_ipv4_network [address; mask]
    | _ => Err Malformed
    end
  | _ => parse_ipv4_network tokens
  end.

(** [dns_server]: the id, and the entry found or inserted. *)
Definition dns_server (servers : dns_servers) (id : string)
    : result (Z * PushedDnsServer) ManagementParseError :=
  id <-? ok_or (parse_uint 256 id) Malformed;
  if Z.ltb 127 id then Err Malformed
  else Ok (id, unwrap_or (servers !! id) (mkPushedDns id [] [])).

Fixpoint push_domains (domains new : list string) : result (list string) ManagementParseError :=
  match new with
  | [] => Ok domains
  | domain :: rest =>
    _ <-? validate_domain domain;
    domains <-? push_unique domains domain MAX_DNS_DOMAINS;
    push_domains domains rest
  end.

Fixpoint push_addresses (addresses : list IpAddr) (new : list string) (max : Z)
    : result (list IpAddr) ManagementParseError :=
  match new with
  | [] => Ok addresses
  | address :: rest =>
    address <-? ok_or (parse_ip address) Malformed;
    addresses <-? push_unique addresses address max;
    push_addresses addresses rest max
  end.

(** The local variables of the loop over directives. *)
Record PushState : Type := mkPush { pu_config : PushedNetworkConfig; pu_servers : dns_servers }.

Definition push_empty : PushState := mkPush (mkPushed [] false [] [] [] false) ∅.

Definition with_routes (routes : list IpNet) (redirect : bool) (s : PushState) : PushState :=
  let c := pu_config s in
  mkPush (mkPushed routes redirect (pn_legacy_dns_servers c) (pn_search_domains c)
            (pn_dns_servers c) (pn_more_follows c)) (pu_servers s).
Definition with_legacy_dns (servers : list IpAddr) (s : PushState) : PushState :=
  let c := pu_config s in
  mkPush (mkPushed (pn_routes c) (pn_redirect_gateway_def1 c) servers (pn_search_domains c)
            (pn_dns_servers c) (pn_more_follows c)) (pu_servers s).
Definition with_search (domains : list string) (s : PushState) : PushState :=
  let c := pu_config s in
  mkPush (mkPushed (pn_routes c) (pn_redirect_gateway_def1 c) (pn_legacy_dns_servers c) domains
            (pn_dns_servers c) (pn_more_follows c)) (pu_servers s).
Definition with_more_follows (s : PushState) : PushState :=
  let c := pu_config s in
  mkPush (mkPushed (pn_routes c) (pn_redirect_gateway_def1 c) (pn_legacy_dns_servers c)
            (pn_search_domains c) (pn_dns_servers c) true) (pu_servers s).
Definition with_server (id : Z) (server : PushedDnsServer) (s : PushState) : PushState :=
  mkPush (pu_config s) (<[id := server]> (pu_servers s)).

Definition redirect_flags : list string :=
  ["def1"; "local"; "autolocal"; "bypass-dhcp"; "bypass-dns"; "block-local"; "ipv6"; "!ipv4"]%string.

Definition ipv4_halves : list IpNet := [mkNet (V4 0) 1; mkNet (ip4 128 0 0 0) 1].
Definition ipv6_halves : list IpNet := [mkNet (V6 0) 1; mkNet (V6 (Z.shiftl 32768 112)) 1].

Definition push_redirect (flags : list string) (s : PushState) : result PushState ManagementParseError :=
  if negb (forallb (λ flag, one_of flag redirect_flags) flags) then Err Unsupported
  else
    let c := pu_config s in
    let ipv4 := negb (one_of "!ipv4" flags) in
    routes <-? (if ipv4 then add_routes (pn_routes c) ipv4_halves else Ok (pn_routes c));
    routes <-? (if one_of "ipv6" flags then add_routes routes ipv6_halves else Ok routes);
    Ok (with_routes routes (pn_redirect_gateway_def1 c || ipv4) s).

Definition push_dhcp_option (args : list string) (s : PushState)
    : result PushState ManagementParseError :=
  let c := pu_config s in
  match args with
  | option :: rest =>
    if option =b "DNS"%string then
      match rest with
      | [address] =>
        servers <-? push_addresses (pn_legacy_dns_servers c) [address] MAX_DNS_ADDRESSES;
        Ok (with_legacy_dns servers s)
      | _ => Err Malformed
      end
    else if one_of option ["DOMAIN"; "DOMAIN-SEARCH"]%string then
      match rest with
      | [domain] =>
        domains <-? push_domains (pn_search_domains c) [domain];
        Ok (with_search domains s)
      | _ => Err Malformed
      end
    else Ok s
  | [] => Ok s
  end.

Definition push_dns (args : list string) (s : PushState) : result PushState ManagementParseError :=
  match args with
  | kind :: (first :: rest) as names =>
    if kind =b "search-domains"%string then
      domains <-? push_domains (pn_search_domains (pu_config s)) names;
      Ok (with_search domains s)
    else if kind =b "server"%string then
      match rest with
      | option :: (_ :: _) as values =>
        if option =b "address"%string then
          '(id, server) <-? dns_server (pu_servers s) first;
          addresses <-? push_addresses (pd_addresses server) values 8;
          Ok (with_server id (mkPushedDns (pd_id server) addresses (pd_resolve_domains server)) s)
        else if option =b "resolve-domains"%string then
          '(id, server) <-? dns_server (pu_servers s) first;
          domains <-? push_domains (pd_resolve_domains server) values;
          Ok (with_server id (mkPushedDns (pd_id server) (pd_addresses server) domains) s)
        else Ok s
      | _ => Ok s
      end
    else Ok s
  | _ => Ok s
  end.

Definition push_directive (directive : string) (s : PushState)
    : result PushState ManagementParseError :=
  let c := pu_config s in
  match split_whitespace directive with
  | [] => Ok s
  | name :: args =>
    if name =b "route"%string then
      route <-? parse_ipv4_route args;
      match route with
      | Some route =>
        routes <-? add_route (pn_routes c) route;
        Ok (with_routes routes (pn_redirect_gateway_def1 c) s)
      | None => Ok s
      end
    else if name =b "route-ipv6"%string then
      match args with
      | [network] =>
        route <-? ok_or (parse_net network) Malformed;
        if net_is_ipv6 route then
          routes <-? add_route (pn_routes c) (trunc route);
          Ok (with_routes routes (pn_redirect_gateway_def1 c) s)
        else Err Malformed
      | _ => Err Malformed
      end
    else if name =b "redirect-gateway"%string then push_redirect args s
    else if (name =b "push-continuation"%string) && (args =b ["2"%string]) then
      Ok (with_more_follows s)
    else if name =b "dhcp-option"%string then push_dhcp_option args s
    else if name =b "dns"%string then push_dns args s
    else Ok s
  end.

(** The loop over the directives, [index] the next one's. *)
Fixpoint push_directives (index : Z) (directives : list string) (s : PushState)
    : result PushState ManagementParseError :=
  match directives with
  | [] => Ok s
  | directive :: rest =>
    if Z.leb MAX_PUSH_DIRECTIVES index then Err PushTooLarge
    else s <-? push_directive directive s; push_directives (index + 1) rest s
  end.

Definition sum_lengths {A} (f : PushedDnsServer → list A) (servers : list PushedDnsServer) : Z :=
  foldr (λ server n, zlen (f server) + n)%Z 0%Z servers.

Definition parse_push_reply (payload : string) : result PushedNetworkConfig ManagementParseError :=
  if Z.ltb MAX_PUSH_BYTES (Z.of_nat (str_len payload)) then Err PushTooLarge
  else if has_line_break payload then Err Malformed
  else match split_char "," payload with
  | first :: directives =>
    if negb (first =b "PUSH_REPLY"%string) then Err Malformed
    else
      s <-? push_directives 0 directives push_empty;
      let c := pu_config s in
      let servers := into_values (pu_servers s) in
      if Z.ltb MAX_DNS_ADDRESSES
           (zlen (pn_legacy_dns_servers c) + sum_lengths pd_addresses servers)
         || Z.ltb MAX_DNS_DOMAINS
              (sum_lengths pd_resolve_domains servers + zlen (pn_search_domains c))
      then Err PushTooLarge
      else Ok (mkPushed (pn_routes c) (pn_redirect_gateway_def1 c) (pn_legacy_dns_servers c)
                 (pn_search_domains c) servers (pn_more_follows c))
  | [] => Err Malformed
  end.

(** ** Lines *)

(** [s.splitn(3, ',')] *)
Definition split3 (s : string) : list string :=
  match split_once "," s with
  | None => [s]
  | Some (a, rest) =>
    match split_once "," rest with
    | None => [a; rest]
    | Some (b, c) => [a; b; c]
    end
  end.

Definition state_name (token : string) : bool :=
  negb (str_is_empty token)
  && str_all (λ a, is_ascii_uppercase (byte_of a) || is_ascii_digit (byte_of a)
                   || Ascii.eqb a "_") token.

Definition u64_bound : Z := 18446744073709551616.

Definition parse_timestamp (field : option string) : result unit ManagementParseError :=
  match field with
  | Some s =>
    if negb (str_is_empty s) && str_all (λ a, is_ascii_digit (byte_of a)) s
       && is_some (parse_uint u64_bound s)
    then Ok tt else Err Malformed
  | None => Err Malformed
  end.

Definition state_of_name (name : string) : option OpenVpnState :=
  snd <$> List.find (λ p, p.1 =b name)
    [("CONNECTING", Connecting); ("RESOLVE", Resolve); ("TCP_CONNECT", TcpConnect);
     ("WAIT", Wait); ("AUTH", Auth); ("AUTH_PENDING", AuthPending); ("GET_CONFIG", GetConfig);
     ("ASSIGN_IP", AssignIp); ("ADD_ROUTES", AddRoutes); ("CONNECTED", Connected);
     ("RECONNECTING", Reconnecting); ("EXITING", Exiting)]%string.

Definition log_flags (flags : string) : bool :=
  str_all (λ a, existsb (Ascii.eqb a) ["I"; "F"; "N"; "W"; "D"]%char) flags.

(** [a.or_else(|| b)] *)
Definition or_else {A} (a b : option A) : option A := match a with Some _ => a | None => b end.

Definition starts_with_digit (line : string) : bool :=
  match line with String a _ => is_ascii_digit (byte_of a) | EmptyString => false end.

Definition then_some {A} (b : bool) (a : A) : option A := if b then Some a else None.

Definition parse_state (data : string) : result (option ManagementEvent) ManagementParseError :=
  let fields := split_char "," data in
  _ <-? parse_timestamp (head fields);
  match fields !! 1 with
  | Some name =>
    match state_of_name name with
    | Some state => Ok (Some (EvState state))
    | None => if state_name name then Ok None else Err Malformed
    end
  | None => Err Malformed
  end.

Definition parse_password (data : string) : result (option ManagementEvent) ManagementParseError :=
  if starts_with data "Verification Failed:" then Ok (Some EvAuthenticationFailed)
  else if starts_with data "Auth-Token:" then Ok None
  else if data =b "Need 'Auth' username/password"%string then Ok (Some (EvPasswordPrompt AuthPrompt))
  else if data =b "Need 'Private Key' password"%string
  then Ok (Some (EvPasswordPrompt PrivateKeyPrompt))
  else Err Unsupported.

Definition PUSH_PREFIX : string := "PUSH: Received control message: '".

Definition parse_log (data : string) : result (option ManagementEvent) ManagementParseError :=
  let fields := split3 data in
  _ <-? parse_timestamp (head fields);
  flags <-? ok_or (fields !! 1) Malformed;
  if negb (log_flags flags) then Err Malformed
  else
    message <-? ok_or (fields !! 2) Malformed;
    match strip_prefix message PUSH_PREFIX with
    | Some rest =>
      payload <-? ok_or (strip_suffix_char rest "'") Malformed;
      if starts_with payload "PUSH_REPLY" then
        push <-? parse_push_reply payload; Ok (Some (EvPushReply push))
      else Ok None
    | None => Ok None
    end.

Definition parse_management_line (line : string)
    : result (option ManagementEvent) ManagementParseError :=
  if Z.ltb MAX_MANAGEMENT_LINE_BYTES (Z.of_nat (str_len line)) then Err PushTooLarge
  else
    let line := unwrap_or (strip_suffix_char line "013") line in
    if has_line_break line then Err Malformed
    else
      let numeric := starts_with_digit line in
      let numeric_log :=
        numeric && is_some_and log_flags (split_once "," line ≫= λ p, head (split_char "," p.2)) in
      match or_else (strip_prefix line ">STATE:")
              (or_else (strip_prefix line "STATE:") (then_some (numeric && negb numeric_log) line)) with
      | Some data => parse_state data
      | None =>
        match strip_prefix line ">BYTECOUNT:" with
        | Some data =>
          '(received, sent) <-? ok_or (split_once "," data) Malformed;
          received <-? ok_or (parse_uint u64_bound received) Malformed;
          sent <-? ok_or (parse_uint u64_bound sent) Malformed;
          Ok (Some (EvByteCount received sent))
        | None =>
          match strip_prefix line ">PASSWORD:" with
          | Some data => parse_password data
          | None =>
            match or_else (strip_prefix line ">LOG:") (then_some numeric_log line) with
            | Some data => parse_log data
            | None => Ok None
            end
          end
        end
      end.

Definition failure_of_detail (detail : string) : option OpenVpnFailure :=
  if detail =b "auth-failure"%string then Some AuthenticationFailure
  else if detail =b "resolve-error"%string then Some ResolveError
  else if one_of detail ["connect-error"; "proxy-reconnect"]%string then Some ConnectError
  else if one_of detail ["tls-error"; "tls-failed"]%string then Some TlsError
  else if one_of detail ["connection-reset"; "ping-restart"; "ping-exit"; "inactive-exit";
                         "reconnect"; "suspend"; "network-change"; "primary-changing"]%string
  then Some ConnectionLost
  else if detail =b "exit-with-error"%string then Some ExitWithError
  else if detail =b "exit-with-notification"%string then Some ExitNotification
  else if one_of detail ["sigint"; "sigterm"; "sighup"; "sigusr1"]%string then Some Terminated
  else None.

Definition state_failure_detail (line : string) : option OpenVpnFailure :=
  let line := unwrap_or (strip_suffix_char line "013") line in
  data ← or_else (strip_prefix line ">STATE:")
           (or_else (strip_prefix line "STATE:") (then_some (starts_with_digit line) line));
  split_char "," data !! 2 ≫= failure_of_detail.

End push.

(** ** What OpenVPN reads of a reply

    A management command is a line of words; a quoted word ends at the next
    quote, and a backslash takes the character after it literally. *)

Fixpoint command_words (s : string) (word : option string) (quoted escaped : bool)
    : option (list string) :=
  match s with
  | EmptyString =>
    if quoted || escaped then None
    else Some (match word with Some w => [w] | None => [] end)
  | String c s' =>
    let add := Some (unwrap_or word EmptyString +:+ String c EmptyString) in
    if escaped then command_words s' add quoted false
    else if Ascii.eqb c "\" then command_words s' (Some (unwrap_or word EmptyString)) quoted true
    else if Ascii.eqb c "034" then
      command_words s' (Some (unwrap_or word EmptyString)) (negb quoted) false
    else if negb quoted && Ascii.eqb c " " then
      rest ← command_words s' None false false;
      Some (match word with Some w => w :: rest | None => rest end)
    else command_words s' add quoted false
  end.

Definition read_command (line : string) : option (list string) :=
  command_words line None false false.

Lemma command_words_quoted value rest word :
  command_words (escape_management value +:+ rest) (Some word) true false
  = command_words rest (Some (word +:+ value)) true false.
Proof.
  revert word. induction value as [|c value IH]; intros word; simpl; [by rewrite str_app_nil_r|].
  destruct (Ascii.eqb_spec c "034") as [->|Hq]; [|destruct (Ascii.eqb_spec c "\") as [->|Hb]].
  - simpl. rewrite IH. by rewrite <- str_app_assoc.
  - simpl. rewrite IH. by rewrite <- str_app_assoc.
  - simpl. apply Ascii.eqb_neq in Hq, Hb. rewrite Hq, Hb, IH. by rewrite <- str_app_assoc.
Qed.

Lemma read_quoted value word :
  command_words (quote_management_value value) word false false
  = Some [unwrap_or word EmptyString +:+ value].
Proof.
  unfold quote_management_value, dquote. simpl.
  change (EmptyString +:+ ?s) with s.  rewrite command_words_quoted. simpl. by destruct word.
Qed.

Lemma escape_line value : whole_line value = true → whole_line (escape_management value) = true.
Proof.
  unfold whole_line. induction value as [|c value IH]; simpl; [done|].
  intros [Hc Hv]%andb_true_iff. destruct (_ || _); simpl; by rewrite ?Hc, IH.
Qed.

Lemma quote_line value : whole_line value = true → whole_line (quote_management_value value) = true.
Proof.
  intros Hv%escape_line. unfold quote_management_value, whole_line, dquote in *.
  by rewrite !str_all_app, Hv.
Qed.

Lemma safe_credential_line value max allow_empty :
  valid_utf8 value = true → safe_credential value max allow_empty = true → whole_line value = true.
Proof.
  intros Hu [_ Hc%negb_true_iff]%andb_true_iff. apply plain_line. by eapply utf8_plain.
Qed.

(** The credentials are Rust strings. *)
Definition credentials_utf8 (c : OpenVpnCredentials) : bool :=
  is_none_or (λ auth, valid_utf8 (up_username auth) && valid_utf8 (up_password auth))
    (oc_auth_user_pass c)
  && is_none_or valid_utf8 (oc_private_key_passphrase c).

(** The words of the commands a prompt is answered with. *)
Definition expected_commands (prompt : PasswordPrompt) (c : OpenVpnCredentials)
    : option (list (list string)) :=
  match prompt with
  | AuthPrompt =>
    (λ auth, [["username"; "Auth"; up_username auth]; ["password"; "Auth"; up_password auth]]%string)
      <$> oc_auth_user_pass c
  | PrivateKeyPrompt =>
    (λ passphrase, [["password"; "Private Key"; passphrase]]%string) <$> oc_private_key_passphrase c
  end.

(** Characters a command word, and a literal between quotes, may have. *)
Definition literal_byte (a : ascii) : bool := negb (existsb (Ascii.eqb a) ["034"; "\"]%char).
Definition bare_byte (a : ascii) : bool := literal_byte a && negb (Ascii.eqb a " ").

Lemma literal_byte_spec a :
  literal_byte a = true → Ascii.eqb a "\" = false ∧ Ascii.eqb a "034" = false.
Proof.
  unfold literal_byte. simpl. rewrite orb_false_r, negb_orb, andb_true_iff, !negb_true_iff. tauto.
Qed.

Lemma command_words_bare s word rest :
  str_all bare_byte s = true →
  command_words (s +:+ rest) (Some word) false false
  = command_words rest (Some (word +:+ s)) false false.
Proof.
  revert word. induction s as [|c s IH]; intros word Hs; [simpl; by rewrite str_app_nil_r|].
  cbn [str_all] in Hs. apply andb_true_iff in Hs as [[Hl Hsp]%andb_true_iff Hs].
  apply literal_byte_spec in Hl as [Hb Hq]. apply negb_true_iff in Hsp.
  simpl. rewrite Hb, Hq, Hsp. simpl. rewrite IH by done. by rewrite <- str_app_assoc.
Qed.

(** The first character starts the word. *)
Lemma command_words_start s rest :
  str_is_empty s = false → str_all bare_byte s = true →
  command_words (s +:+ rest) None false false = command_words rest (Some s) false false.
Proof.
  destruct s as [|c s]; [done|]. intros _ Hs. cbn [str_all] in Hs.
  apply andb_true_iff in Hs as [[Hl Hsp]%andb_true_iff Hs].
  apply literal_byte_spec in Hl as [Hb Hq]. apply negb_true_iff in Hsp.
  simpl. rewrite Hb, Hq, Hsp. simpl. by rewrite command_words_bare.
Qed.

Lemma command_words_literal s word rest :
  str_all literal_byte s = true →
  command_words (s +:+ rest) (Some word) true false
  = command_words rest (Some (word +:+ s)) true false.
Proof.
  revert word. induction s as [|c s IH]; intros word Hs; [simpl; by rewrite str_app_nil_r|].
  cbn [str_all] in Hs. apply andb_true_iff in Hs as [Hl Hs].
  apply literal_byte_spec in Hl as [Hb Hq].
  simpl. rewrite Hb, Hq. simpl. rewrite IH by done. by rewrite <- str_app_assoc.
Qed.

(** Three words: one bare, one between quotes, one quoted as a value. *)
Lemma read_reply_line command kind value :
  str_is_empty command = false → str_all bare_byte command = true →
  str_all literal_byte kind = true →
  read_command (command +:+ " " +:+ dquote +:+ kind +:+ dquote +:+ " "
                  +:+ quote_management_value value) = Some [command; kind; value].
Proof.
  intros Hne Hcommand Hkind. unfold read_command. rewrite command_words_start by done.
  assert (∀ w rest, command_words (" " +:+ rest) (Some w) false false
    = rest ← command_words rest None false false; Some (w :: rest)) as Hspace by done.
  assert (∀ w rest q, command_words (dquote +:+ rest) w q false
    = command_words rest (Some (unwrap_or w EmptyString)) (negb q) false) as Hquote by by destruct q.
  rewrite Hspace, Hquote. simpl negb. simpl unwrap_or.
  rewrite command_words_literal by done. rewrite Hquote. simpl negb.
  rewrite Hspace, read_quoted. done.
Qed.

(** A line of a reply. *)
Definition reply_line (command kind value : string) : string :=
  command +:+ " " +:+ dquote +:+ kind +:+ dquote +:+ " " +:+ quote_management_value value.

Lemma reply_line_whole command kind value :
  whole_line (command +:+ " " +:+ dquote +:+ kind +:+ dquote +:+ " ") = true →
  whole_line value = true → whole_line (reply_line command kind value) = true.
Proof.
  intros Hc Hv%quote_line.
  assert (reply_line command kind value
          = (command +:+ " " +:+ dquote +:+ kind +:+ dquote +:+ " ")
              +:+ quote_management_value value) as ->
    by (unfold reply_line; by rewrite <- !str_app_assoc).
  unfold whole_line in *. by rewrite str_all_app, Hc, Hv.
Qed.

(** C14. Credentials cannot inject a management command. Whatever they
    contain, the reply to a prompt is exactly the commands the prompt asks
    for, one per line, and OpenVPN reads from them the credentials unchanged. *)
Theorem management_reply_reads_back prompt credentials reply
    (Hutf8 : credentials_utf8 credentials = true)
    (Hreply : management_password_reply prompt (Some credentials) = Ok reply) :
  mapM read_command (lines reply) = expected_commands prompt credentials.
Proof.
  unfold management_password_reply in Hreply. cbn [ok_or rbind] in Hreply.
  destruct (validate_openvpn_credentials credentials) as [[]|] eqn:Hvalid; [|done].
  cbn [rbind] in Hreply. unfold validate_openvpn_credentials in Hvalid.
  destruct (_ && _) in Hvalid; [done|].
  destruct (is_some_and _ (oc_auth_user_pass credentials)) eqn:Hauth in Hvalid; [done|].
  destruct (is_some_and _ (oc_private_key_passphrase credentials)) eqn:Hkey in Hvalid; [done|].
  clear Hvalid. apply andb_true_iff in Hutf8 as [Hu1 Hu2]. unfold expected_commands.
  destruct prompt.
  - destruct (oc_auth_user_pass credentials) as [[username password]|]; [|done].
    cbn [ok_or rbind up_username up_password is_some_and is_none_or] in *.
    rewrite orb_false_iff, !negb_false_iff in Hauth. destruct Hauth as [H1 H2].
    apply andb_true_iff in Hu1 as [Hu1 Hu3].
    apply safe_credential_line in H1, H2; [|done..].
    assert (reply = unlines [reply_line "username" "Auth" username;
                             reply_line "password" "Auth" password]) as ->.
    { injection Hreply as <-. unfold unlines, reply_line. simpl foldr.
      by rewrite <- !str_app_assoc, str_app_nil_r. }
    rewrite lines_unlines by (cbn [forallb]; by rewrite !reply_line_whole).
    cbn [mapM]. unfold reply_line. by rewrite !read_reply_line.
  - destruct (oc_private_key_passphrase credentials) as [passphrase|]; [|done].
    cbn [ok_or rbind is_some_and is_none_or] in *. apply negb_false_iff in Hkey.
    apply safe_credential_line in Hkey; [|done].
    assert (reply = unlines [reply_line "password" "Private Key" passphrase]) as ->.
    { injection Hreply as <-. unfold unlines, reply_line. simpl foldr.
      by rewrite <- !str_app_assoc, str_app_nil_r. }
    rewrite lines_unlines by (cbn [forallb]; by rewrite reply_line_whole).
    cbn [mapM]. unfold reply_line. by rewrite read_reply_line.
Qed.

Definition tricky_credentials : OpenVpnCredentials :=
  mkCredentials (Some (mkUserPass ("al" +:+ dquote +:+ " \signal SIGTERM")%string "p w")) None.

Lemma management_reply_reads_back_witness :
  credentials_utf8 tricky_credentials = true ∧
  ∃ reply, management_password_reply AuthPrompt (Some tricky_credentials) = Ok reply ∧
    mapM read_command (lines reply) = expected_commands AuthPrompt tricky_credentials.
Proof.
  split; [vm_compute; reflexivity|].
  destruct (management_password_reply AuthPrompt (Some tricky_credentials)) as [reply|] eqn:Hr;
    [|exfalso; vm_compute in Hr; discriminate Hr].
  exists reply. split; [reflexivity|].
  apply (management_reply_reads_back AuthPrompt tricky_credentials reply); [|exact Hr].
  vm_compute. reflexivity.
Defined.

(** ** A push reply is a well-formed, bounded configuration *)

Section push_facts.
Context `{IpNetLib} `{NetmaskLib}.

(** A network the parser made itself, or one with its host bits cleared. *)
Definition clean_route (route : IpNet) : Prop :=
  trunc route = route ∨ route ∈ ipv4_halves ++ ipv6_halves.

Definition server_ok (id : Z) (server : PushedDnsServer) : Prop :=
  pd_id server = id ∧ (0 ≤ id ≤ 127)%Z ∧
  NoDup (pd_addresses server) ∧ (zlen (pd_addresses server) ≤ 8)%Z ∧
  NoDup (pd_resolve_domains server) ∧ (zlen (pd_resolve_domains server) ≤ MAX_DNS_DOMAINS)%Z ∧
  Forall (λ d, valid_domain d = true) (pd_resolve_domains server).

(** What holds of the configuration while it is read. *)
Definition config_ok (c : PushedNetworkConfig) : Prop :=
  NoDup (pn_routes c) ∧ (zlen (pn_routes c) ≤ MAX_ROUTES)%Z ∧ Forall clean_route (pn_routes c) ∧
  (pn_redirect_gateway_def1 c = true → ∀ half, half ∈ ipv4_halves → half ∈ pn_routes c) ∧
  NoDup (pn_legacy_dns_servers c) ∧ (zlen (pn_legacy_dns_servers c) ≤ MAX_DNS_ADDRESSES)%Z ∧
  NoDup (pn_search_domains c) ∧ (zlen (pn_search_domains c) ≤ MAX_DNS_DOMAINS)%Z ∧
  Forall (λ d, valid_domain d = true) (pn_search_domains c).

Definition push_inv (s : PushState) : Prop :=
  config_ok (pu_config s) ∧ map_Forall server_ok (pu_servers s).

Lemma push_unique_Ok {A} `{EqDecision A} (items items' : list A) item max :
  push_unique items item max = Ok items' → NoDup items → (zlen items ≤ max)%Z →
  NoDup items' ∧ (zlen items' ≤ max)%Z ∧ (∀ x, x ∈ items' ↔ x ∈ items ∨ x = item).
Proof.
  unfold push_unique. destruct (vec_contains items item) eqn:Hin.
  - apply vec_contains_spec in Hin. intros [= <-] Hnd Hlen. split_and!; [done..|].
    intros x. split; [by left|]. by intros [?| ->].
  - destruct (Z.leb_spec max (zlen items)); [done|]. intros [= <-] Hnd _.
    assert (item ∉ items) as Hnew
      by (intros Hx; apply vec_contains_spec in Hx; by rewrite Hin in Hx).
    split_and!.
    + apply NoDup_app. split_and!; [done| |apply NoDup_singleton].
      by intros x Hx ->%list_elem_of_singleton.
    + unfold zlen in *. rewrite length_app. simpl. lia.
    + intros x. rewrite elem_of_app, list_elem_of_singleton. done.
Qed.

Lemma add_routes_Ok routes new routes' :
  add_routes routes new = Ok routes' → NoDup routes → (zlen routes ≤ MAX_ROUTES)%Z →
  NoDup routes' ∧ (zlen routes' ≤ MAX_ROUTES)%Z ∧ (∀ x, x ∈ routes' ↔ x ∈ routes ∨ x ∈ new).
Proof.
  revert routes. induction new as [|n new IH]; intros routes; cbn [add_routes].
  - intros [= <-] ? ?. split_and!; [done..|]. intros x. rewrite elem_of_nil. tauto.
  - destruct (add_route routes n) as [r|] eqn:Hr; [|done]. cbn [rbind]. intros Hrest Hnd Hlen.
    apply push_unique_Ok in Hr as (H1 & H2 & H3); [|done..].
    destruct (IH r Hrest H1 H2) as (H4 & H5 & H6). split_and!; [done..|].
    intros x. rewrite H6, H3, elem_of_cons. tauto.
Qed.

Lemma push_domains_Ok domains new domains' :
  push_domains domains new = Ok domains' → NoDup domains →
  Forall (λ d, valid_domain d = true) domains → (zlen domains ≤ MAX_DNS_DOMAINS)%Z →
  NoDup domains' ∧ Forall (λ d, valid_domain d = true) domains' ∧ (zlen domains' ≤ MAX_DNS_DOMAINS)%Z.
Proof.
  revert domains. induction new as [|n new IH]; intros domains; cbn [push_domains];
    [by intros [= <-]|].
  unfold validate_domain. destruct (valid_domain n) eqn:Hn; [|done]. cbn [rbind].
  destruct (push_unique domains n _) as [d|] eqn:Hd; [|done]. cbn [rbind].
  intros Hrest Hnd Hall Hlen. apply push_unique_Ok in Hd as (H1 & H2 & H3); [|done..].
  apply (IH d); [done..| |done]. apply Forall_forall. intros x [Hx| ->]%H3; [|done].
  rewrite Forall_forall in Hall. by apply Hall.
Qed.

Lemma push_addresses_Ok addresses new max addresses' :
  push_addresses addresses new max = Ok addresses' → NoDup addresses → (zlen addresses ≤ max)%Z →
  NoDup addresses' ∧ (zlen addresses' ≤ max)%Z.
Proof.
  revert addresses. induction new as [|n new IH]; intros addresses; cbn [push_addresses];
    [by intros [= <-]|].
  destruct (parse_ip n) as [a|]; [|done]. cbn [ok_or rbind].
  destruct (push_unique addresses a max) as [d|] eqn:Hd; [|done]. cbn [rbind].
  intros Hrest Hnd Hlen. apply push_unique_Ok in Hd as (H1 & H2 & _); [|done..]. by apply (IH d).
Qed.

Lemma parse_ipv4_network_clean tokens route :
  parse_ipv4_network tokens = Ok (Some route) → clean_route route.
Proof.
  unfold parse_ipv4_network, clean_route. intros Hr. left.
  destruct tokens as [|a [|m [|]]]; try done.
  - destruct (contains_char a "/").
    + destruct (parse_net a) as [r|]; [|done]. destruct (net_is_ipv4 r); [|done].
      injection Hr as <-. apply trunc_idem.
    + destruct (parse_ipv4 a) as [z|]; [|done]. injection Hr as <-. apply (trunc_host (V4 z)).
  - destruct (parse_ipv4 a); [|done]. cbn [ok_or rbind] in Hr. destruct (parse_ipv4 m); [|done].
    cbn [ok_or rbind] in Hr. destruct (with_netmask _ _); [|done]. injection Hr as <-.
    apply trunc_idem.
Qed.

Lemma parse_ipv4_route_clean tokens route :
  parse_ipv4_route tokens = Ok (Some route) → clean_route route.
Proof.
  unfold parse_ipv4_route. destruct tokens as [|a [|m [|g rest]]];
    try apply parse_ipv4_network_clean.
  destruct (one_of g _); [done|]. destruct rest as [|x [|]]; try done;
    (destruct (_ || _); [done|apply parse_ipv4_network_clean]).
Qed.

(** Routes that are added keep the configuration. *)
Lemma config_ok_routes c routes new redirect :
  config_ok c → add_routes (pn_routes c) new = Ok routes → Forall clean_route new →
  (redirect = true → pn_redirect_gateway_def1 c = true ∨ ∀ half, half ∈ ipv4_halves → half ∈ new) →
  config_ok (mkPushed routes redirect (pn_legacy_dns_servers c) (pn_search_domains c)
               (pn_dns_servers c) (pn_more_follows c)).
Proof.
  intros (Hnd & Hlen & Hclean & Hredirect & Hrest) Hadd Hnew Hr.
  apply add_routes_Ok in Hadd as (H1 & H2 & H3); [|done..].
  split_and!; [done|done| | |apply Hrest..].
  - rewrite Forall_forall in Hclean, Hnew. apply Forall_forall. intros x [Hx|Hx]%H3; auto.
  - intros [Hc|Hc]%Hr half Hhalf; apply H3; auto.
Qed.

Lemma add_routes_app routes a b :
  add_routes routes (a ++ b) = (r <-? add_routes routes a; add_routes r b).
Proof.
  revert routes. induction a as [|n a IH]; intros routes; simpl; [done|].
  destruct (add_route routes n); simpl; [apply IH|done].
Qed.

Lemma halves_clean l : l ⊆ ipv4_halves ++ ipv6_halves → Forall clean_route l.
Proof. intros Hl. apply Forall_forall. intros x Hx. right. by apply Hl. Qed.

Lemma push_redirect_inv flags s s' : push_redirect flags s = Ok s' → push_inv s → push_inv s'.
Proof.
  unfold push_redirect. destruct (negb (forallb _ flags)); [done|].
  set (ipv4 := negb (one_of "!ipv4" flags)). set (ipv6 := one_of "ipv6" flags).
  intros Hs [Hc Hsv].
  assert (∃ routes, add_routes (pn_routes (pu_config s))
            ((if ipv4 then ipv4_halves else []) ++ (if ipv6 then ipv6_halves else [])) = Ok routes ∧
          s' = with_routes routes (pn_redirect_gateway_def1 (pu_config s) || ipv4) s)
    as (routes & Hadd & ->).
  { rewrite add_routes_app. revert Hs. destruct ipv4; cbn [rbind].
    - destruct (add_routes (pn_routes (pu_config s)) ipv4_halves) as [r|]; [|done]. cbn [rbind].
      destruct ipv6; [|intros [= <-]; by exists r].
      destruct (add_routes r ipv6_halves) as [r'|]; [|done]. intros [= <-]. by exists r'.
    - cbn [add_routes rbind]. destruct ipv6; [|intros [= <-]; by eexists].
      destruct (add_routes _ ipv6_halves) as [r'|]; [|done]. intros [= <-]. by exists r'. }
  split; [|done]. eapply config_ok_routes; [done|exact Hadd| |].
  - apply halves_clean. destruct ipv4, ipv6; set_solver.
  - intros [|Hv]%orb_true_iff; [by left|right]. intros half Hh. apply elem_of_app. left.
    by rewrite Hv.
Qed.

Lemma push_one_route_inv s route routes :
  add_route (pn_routes (pu_config s)) route = Ok routes → clean_route route →
  push_inv s → push_inv (with_routes routes (pn_redirect_gateway_def1 (pu_config s)) s).
Proof.
  intros Hadd Hclean [Hc Hsv]. split; [|done]. apply (config_ok_routes _ _ [route]).
  - done.
  - cbn [add_routes]. by rewrite Hadd.
  - by constructor.
  - by left.
Qed.

Lemma with_search_inv s new domains :
  push_domains (pn_search_domains (pu_config s)) new = Ok domains →
  push_inv s → push_inv (with_search domains s).
Proof.
  intros Hd [(H1 & H2 & H3 & H4 & H5 & H6 & H7 & H8 & H9) Hsv].
  apply push_domains_Ok in Hd as (Hnd & Hv & Hl); [|done..].
  split; [|done]. by split_and!.
Qed.

Lemma with_legacy_dns_inv s new servers :
  push_addresses (pn_legacy_dns_servers (pu_config s)) new MAX_DNS_ADDRESSES = Ok servers →
  push_inv s → push_inv (with_legacy_dns servers s).
Proof.
  intros Hd [(H1 & H2 & H3 & H4 & H5 & H6 & H7 & H8 & H9) Hsv].
  apply push_addresses_Ok in Hd as (Hnd & Hl); [|done..]. split; [|done]. by split_and!.
Qed.

Lemma push_dhcp_option_inv args s s' :
  push_dhcp_option args s = Ok s' → push_inv s → push_inv s'.
Proof.
  unfold push_dhcp_option. intros Hs Hi. destruct args as [|option rest]; [by injection Hs as <-|].
  destruct (bool_decide _).
  { destruct rest as [|address [|]]; try done.
    destruct (push_addresses _ _ _) as [servers|] eqn:Hp; [|done]. injection Hs as <-.
    by eapply with_legacy_dns_inv. }
  destruct (one_of option _); [|by injection Hs as <-]. destruct rest as [|domain [|]]; try done.
  destruct (push_domains _ _) as [domains|] eqn:Hp; [|done]. injection Hs as <-.
  by eapply with_search_inv.
Qed.

Lemma dns_server_Ok servers id n server :
  map_Forall server_ok servers → dns_server servers id = Ok (n, server) → server_ok n server.
Proof.
  intros Hall. unfold dns_server. destruct (parse_uint 256 id) as [k|] eqn:Hk; [|done].
  cbn [ok_or rbind]. destruct (Z.ltb_spec 127 k); [done|]. intros [= <- <-].
  destruct (servers !! k) as [sv|] eqn:Hsv; [by apply Hall in Hsv|]. simpl.
  assert (0 ≤ k)%Z as Hk0.
  { unfold parse_uint in Hk. destruct (str_is_empty _); [done|].
    assert (∀ s acc, (0 ≤ acc)%Z → parse_digits 256 s acc = Some k → (0 ≤ k)%Z) as Hp.
    { induction s as [|c s IH]; intros acc Hacc; simpl; [intros [= <-]; done|].
      unfold is_ascii_digit, in_range. destruct (_ && _) eqn:Hc; [|done].
      rewrite andb_true_iff, !Z.leb_le in Hc. destruct (Z.ltb _ _); [|done]. apply IH. lia. }
    by eapply Hp, Hk. }
  split_and!; try done; first [lia|constructor].
Qed.

Lemma with_server_inv s id server :
  server_ok id server → push_inv s → push_inv (with_server id server s).
Proof. intros Hok [Hc Hsv]. split; [done|]. by apply map_Forall_insert_2. Qed.

Lemma push_dns_inv args s s' : push_dns args s = Ok s' → push_inv s → push_inv s'.
Proof.
  unfold push_dns. intros Hs Hi. destruct args as [|kind [|first rest]]; try by injection Hs as <-.
  destruct (bool_decide (kind = "search-domains"%string)).
  { destruct (push_domains _ _) as [domains|] eqn:Hp; [|done]. injection Hs as <-.
    by eapply with_search_inv. }
  destruct (bool_decide (kind = "server"%string)); [|by injection Hs as <-].
  destruct rest as [|option [|v values]]; try by injection Hs as <-.
  pose proof Hi as [_ Hall].
  destruct (bool_decide (option = "address"%string)); [|destruct (bool_decide (option = _));
    [|by injection Hs as <-]];
    (destruct (dns_server (pu_servers s) first) as [[id server]|] eqn:Hsv; [|done]);
    cbn [rbind] in Hs; apply dns_server_Ok in Hsv as (E1 & E2 & E3 & E4 & E5 & E6 & E7); try done.
  - destruct (push_addresses _ _ _) as [addresses|] eqn:Hp; [|done]. injection Hs as <-.
    apply push_addresses_Ok in Hp as [P1 P2]; [|done..]. apply with_server_inv; [|done].
    split_and!; first [done|lia].
  - destruct (push_domains _ _) as [domains|] eqn:Hp; [|done]. injection Hs as <-.
    apply push_domains_Ok in Hp as (P1 & P2 & P3); [|done..]. apply with_server_inv; [|done].
    split_and!; first [done|lia].
Qed.

Lemma push_directive_inv directive s s' :
  push_directive directive s = Ok s' → push_inv s → push_inv s'.
Proof.
  unfold push_directive. intros Hs Hi.
  destruct (split_whitespace directive) as [|name args]; [by injection Hs as <-|].
  destruct (bool_decide (name = "route"%string)).
  { destruct (parse_ipv4_route args) as [[route|]|] eqn:Hr; [| |done]; cbn [rbind] in Hs;
      [|by injection Hs as <-].
    destruct (add_route _ route) as [routes|] eqn:Ha; [|done]. injection Hs as <-.
    apply (push_one_route_inv s route routes); [done| |done]. by eapply parse_ipv4_route_clean. }
  destruct (bool_decide (name = "route-ipv6"%string)).
  { destruct args as [|network [|]]; try done. destruct (parse_net network) as [route|]; [|done].
    cbn [ok_or rbind] in Hs. destruct (net_is_ipv6 route); [|done].
    destruct (add_route _ _) as [routes|] eqn:Ha; [|done]. injection Hs as <-.
    apply (push_one_route_inv s (trunc route) routes); [done| |done]. left. apply trunc_idem. }
  destruct (bool_decide (name = "redirect-gateway"%string)); [by eapply push_redirect_inv|].
  destruct (_ && _); [by injection Hs as <-|].
  destruct (bool_decide (name = "dhcp-option"%string)); [by eapply push_dhcp_option_inv|].
  destruct (bool_decide (name = "dns"%string)); [by eapply push_dns_inv|by injection Hs as <-].
Qed.

Lemma push_directives_inv index directives s s' :
  push_directives index directives s = Ok s' → push_inv s → push_inv s'.
Proof.
  revert index s. induction directives as [|d rest IH]; intros index s; cbn [push_directives];
    [by intros [= <-]|].
  destruct (Z.leb _ _); [done|]. destruct (push_directive d s) as [s1|] eqn:Hd; [|done].
  cbn [rbind]. intros Hrest Hi. eapply IH; [exact Hrest|]. by eapply push_directive_inv.
Qed.
End push_facts.

Section push_theorem.
Context `{IpNetLib} `{NetmaskLib}.

Lemma into_values_elem servers server :
  map_Forall server_ok servers → server ∈ into_values servers → server_ok (pd_id server) server.
Proof.
  intros Hall. unfold into_values. intros ((id & sv) & -> & Hin)%list_elem_of_fmap.
  rewrite sort_by_perm in Hin. apply elem_of_map_to_list in Hin.
  apply Hall in Hin. simpl. destruct Hin as [Hid Hin]. rewrite Hid. by split.
Qed.

Lemma into_values_ids servers : map_Forall server_ok servers → NoDup (map pd_id (into_values servers)).
Proof.
  intros Hall. unfold into_values. rewrite map_map.
  assert (map (λ p : Z * PushedDnsServer, pd_id p.2) (sort_by (λ a b, Z.leb a.1 b.1) (map_to_list servers))
          ≡ₚ (map_to_list servers).*1) as ->; [|apply NoDup_fst_map_to_list].
  assert (map (λ p : Z * PushedDnsServer, pd_id p.2) (map_to_list servers)
          = (map_to_list servers).*1) as <-; [|apply Permutation_map, sort_by_perm].
  apply map_ext_in. intros [id sv] Hin%list_elem_of_In%elem_of_map_to_list. simpl.
  by apply Hall in Hin as [-> _].
Qed.

(** A push reply the parser accepts is a well-formed, bounded network
    configuration, whatever the server sent: at most 64 distinct networks with
    their host bits clear, a gateway redirect backed by both IPv4 halves, at
    most 16 DNS addresses and 16 domains in all, every domain a valid name,
    and servers with distinct ids below 128. *)
Theorem push_reply_well_formed payload config
    (Hparse : parse_push_reply payload = Ok config) :
  config_ok config ∧
  Forall (λ server, server_ok (pd_id server) server) (pn_dns_servers config) ∧
  NoDup (map pd_id (pn_dns_servers config)) ∧
  (zlen (pn_legacy_dns_servers config) + sum_lengths pd_addresses (pn_dns_servers config)
   ≤ MAX_DNS_ADDRESSES)%Z ∧
  (zlen (pn_search_domains config) + sum_lengths pd_resolve_domains (pn_dns_servers config)
   ≤ MAX_DNS_DOMAINS)%Z.
Proof.
  unfold parse_push_reply in Hparse. destruct (Z.ltb _ _) in Hparse; [done|].
  destruct (has_line_break payload) in Hparse; [done|].
  destruct (split_char "," payload) as [|first directives]; [done|].
  destruct (negb _) in Hparse; [done|].
  destruct (push_directives 0 directives push_empty) as [s|] eqn:Hs; [|done].
  cbn [rbind] in Hparse. destruct (_ || _) eqn:Hlim in Hparse; [done|].
  rewrite orb_false_iff, !Z.ltb_ge in Hlim. destruct Hlim as [L1 L2]. injection Hparse as <-.
  apply push_directives_inv in Hs as [Hc Hsv]; [|split; [|done]; split_and!; first [done|constructor]].
  cbn [pn_dns_servers pn_legacy_dns_servers pn_search_domains]. split_and!.
  - exact Hc.
  - apply Forall_forall. intros server. by apply into_values_elem.
  - by apply into_values_ids.
  - done.
  - lia.
Qed.
End push_theorem.

(** ** A concrete push *)

(** Contiguous netmasks of 32 bits. *)
Definition model_with_netmask (address mask : Z) : option IpNet :=
  (λ p, mkNet (V4 address) (Z.of_nat p))
    <$> List.find (λ p, Z.eqb mask (4294967296 - Z.shiftl 1 (32 - Z.of_nat p))) (seq 0 33).

Lemma model_with_netmask_v4 a m n : model_with_netmask a m = Some n → net_is_ipv4 n = true.
Proof. unfold model_with_netmask. by intros (p & _ & ->)%fmap_Some. Qed.

Definition netmask_model : NetmaskLib :=
  {| with_netmask := model_with_netmask; with_netmask_v4 := model_with_netmask_v4 |}.

#[local] Existing Instance ipnet_model.
#[local] Existing Instance netmask_model.

Definition sample_push : string :=
  "PUSH_REPLY,route 10.8.0.0 255.255.255.0,redirect-gateway def1,dhcp-option DNS 10.8.0.1,dhcp-option DOMAIN corp.example,route 192.0.2.1 255.255.255.255 net_gateway,ping 10".

Definition sample_pushed : PushedNetworkConfig :=
  mkPushed [mkNet (ip4 10 8 0 0) 24; mkNet (V4 0) 1; mkNet (ip4 128 0 0 0) 1] true
    [ip4 10 8 0 1] ["corp.example"%string] [] false.

Lemma push_reply_well_formed_witness :
  parse_push_reply sample_push = Ok sample_pushed ∧ config_ok sample_pushed.
Proof.
  split; [vm_compute; reflexivity|].
  apply (push_reply_well_formed sample_push sample_pushed). vm_compute. reflexivity.
Defined.

(** A log line with the push, and one that is only a log. *)
Example management_lines :
  parse_management_line (">LOG:1700000000,,PUSH: Received control message: '" +:+ sample_push +:+ "'")
  = Ok (Some (EvPushReply sample_pushed)) ∧
  parse_management_line ">LOG:1700000000,I,Initialization Sequence Completed" = Ok None ∧
  parse_management_line ">STATE:1700000000,CONNECTED,SUCCESS,10.8.0.2,192.0.2.1"
  = Ok (Some (EvState Connected)) ∧
  parse_management_line ">PASSWORD:Need 'Auth' username/password SC:1,token" = Err Unsupported.
Proof. vm_compute. done. Qed.

(** ** The snapshot assembles continued pushes *)

(** The events of one push in fragments, then the connection. *)
Definition fragments (first : PushedNetworkConfig) (rest : list PushedNetworkConfig)
    : list ManagementEvent :=
  map EvPushReply (first :: rest) ++ [EvState Connected].

Definition apply_events (events : list ManagementEvent) (s : ManagementSnapshot) : ManagementSnapshot :=
  foldl (λ s e, snapshot_apply e s) s events.

(** Fragments that each announce the next are merged in order, and become
    the active push when the connection is up. *)
Lemma snapshot_assembles first rest last s :
  Forall (λ p, pn_more_follows p = true) (first :: rest) → ms_pending_push s = None →
  ms_active_push (apply_events (fragments first (rest ++ [last])) s)
  = Some (foldl push_merge first (rest ++ [last])).
Proof.
  intros Hmore Hnone. unfold apply_events, fragments. rewrite foldl_app. simpl.
  rewrite Hnone.
  assert (∀ rest acc s, ms_pending_push s = Some acc → pn_more_follows acc = true →
    Forall (λ p, pn_more_follows p = true) rest →
    ms_pending_push (foldl (λ s e, snapshot_apply e s) s (map EvPushReply (rest ++ [last])))
    = Some (foldl push_merge acc (rest ++ [last]))) as Hgen.
  { clear. induction rest as [|p rest IH]; intros acc s Hp Ha Hall; simpl.
    - by rewrite Hp, Ha.
    - apply Forall_cons in Hall as [Hh Hall]. apply IH; [|done|done]. simpl. by rewrite Hp, Ha. }
  apply Forall_cons in Hmore as [H1 H2]. by apply Hgen.
Qed.
