(* ===== verification/World.v ===== *)
(** * The world outside the daemon, and the monad of the stateful code

    Every call that leaves the modelled code (an executor trait method, the
    journal file, the file system, the clock) is a request of type [ext A].
    What the world answers may depend on everything that happened before, so
    an environment is a function from the history of past calls and answers
    to the next answer: theorems that quantify over [Env] cover every
    behaviour of the world, faults and foreign changes included.

    [M S A] is the code: it threads the state [S] and the history and may
    panic ([None]), which the code does on an index out of range or an
    [unwrap] of nothing. *)

From S2P Require Export Types OpenVpnManagement.
From S2P Require Import OpenVpnConfig.

(** ** Requests *)

(** [ExternalLinkKind] of [crates/daemon/src/core.rs]. *)
Inductive ExternalLinkKind : Type :=
| KindWireGuard
| KindTun
| KindMissing
| KindOther.

(** [DnsApply] and [DnsError] of [crates/daemon/src/dns.rs]. *)
Inductive DnsApply : Type := DnsApplied | DnsUnavailable | DnsSkipped.
Inductive DnsError : Type := DnsErrUnavailable | DnsErrFailed (message : string).

(** What the code reads of [std::fs::Metadata] of a path (no link followed). *)
Record FileMeta : Type := mkFileMeta {
  fm_is_dir : bool;
  fm_is_file : bool;
  fm_is_symlink : bool;
  fm_is_socket : bool;
  fm_uid : Z;
  fm_mode : Z;
  fm_len : Z;
}.

(** [WatchdogSpec] of [crates/daemon/src/watchdog.rs]. *)
Record WatchdogSpec : Type := mkWatchdogSpec {
  ws_uid : Z;
  ws_tun_name : string;
  ws_tun_addr : IpAddr;
  ws_mark : Z;
  ws_dns_servers : list IpAddr;
  ws_probe_url : option string;
}.

(** A path as its components, and file contents. *)
Abbreviation path := (list string).
Abbreviation bytes := (list Z).

(** A child as [std::process::Command] starts it: no environment but [cc_env],
    nothing on its standard input; [cc_output] is the open file both output
    streams go to, [None] a pipe for the standard output alone. *)
Record ChildCommand : Type := mkChildCommand {
  cc_program : path;
  cc_args : list string;
  cc_env : list (string * path);
  cc_dir : option path;
  cc_output : option path;
}.

Inductive ext : Type → Type :=
(* JournalStore, crates/core/src/journal.rs *)
| StoreSave (doc : JournalDocument) : ext (io_result unit)
| StoreLoad : ext (io_result JournalDocument)
(* trait RouteExecutor, crates/core/src/policy.rs *)
| AddRoute (r : AppliedRoute) : ext (io_result unit)
| RemoveRoute (r : AppliedRoute) : ext (io_result unit)
| DefaultGateways : ext (io_result (list (IpAddr * Z)))
| OnLinkNetworks : ext (io_result (list (Z * IpNet)))
| NetTables : ext (io_result NetTablesResult)
| AddSystemRoute (r : SystemRoute) : ext (io_result unit)
| RemoveSystemRoute (r : SystemRoute) : ext (io_result unit)
(* trait LinkExecutor, crates/daemon/src/core.rs *)
| SetLinkState (name : string) (up : bool) : ext (io_result unit)
| RemoveLink (name : string) : ext (io_result unit)
| LinkKind (name : string) : ext (io_result ExternalLinkKind)
| LinkIndex (name : string) : ext (io_result (option Z))
(* trait WgSystem *)
| WgCreateLink (name marker : string) : ext (io_result Z)
| WgLinkOwned (name : string) (index : Z) (marker : string) : ext (io_result bool)
| WgLinkPresent (name : string) (index : Z) : ext (io_result bool)
| WgDeleteLink (name : string) (index : Z) (marker : string) : ext (io_result unit)
| WgAddAddress (index : Z) (address : IpNet) : ext (io_result unit)
| WgRemoveAddress (index : Z) (address : IpNet) : ext (io_result unit)
| WgSetMtu (index mtu : Z) : ext (io_result unit)
| WgSetState (index : Z) (up : bool) : ext (io_result unit)
(* trait WgConfigExecutor *)
| WgConfigure (name config : string) : ext (io_result unit)
| WgSetFwmark (name : string) (mark : Z) : ext (io_result unit)
| WgMarksInUse : ext (io_result (list Z))
| WgEndpointIps (name : string) : ext (io_result (list IpAddr))
| WgVerifyTransport (name : string) (mark : Z) (ipv4 ipv6 : bool) : ext (io_result unit)
| WgHealth (name : string) : ext (io_result (option Z * Z * Z))
(* trait PolicyRuleExecutor *)
| RulesSnapshot : ext (io_result (list OwnedRuleResource))
| TableInUse (table : Z) : ext (io_result bool)
| AddRule (r : OwnedRuleResource) : ext (io_result unit)
| RemoveRule (r : OwnedRuleResource) : ext (io_result unit)
| RulePresent (r : OwnedRuleResource) : ext (io_result bool)
| AddSystemRule (r : SystemRule) : ext (io_result unit)
| RemoveSystemRule (r : SystemRule) : ext (io_result unit)
(* trait DnsExecutor, crates/daemon/src/dns.rs *)
| DnsApplyLink (link : string) (servers : list IpAddr) (domains : list string) (full : bool)
    : ext (result DnsApply DnsError)
| DnsRevert (link : string) : ext (result unit DnsError)
(* trait OpenVpnProcessRunner, crates/daemon/src/openvpn_process.rs *)
| OvpnVerifyBinary : ext (io_result unit)
| OvpnStagingExists (uid : Z) (name : string) : ext (io_result bool)
| OvpnStart (uid : Z) (name : string) (config : SanitizedOpenVpnConfig)
    (credentials : option OpenVpnCredentials) (mark : Z) : ext (io_result unit)
| OvpnPoll (name : string) : ext (io_result (list ManagementEvent))
| OvpnLinkIndex (name : string) : ext (io_result (option Z))
| OvpnStop (name : string) : ext (io_result unit)
| OvpnCleanup (uid : Z) (name : string) : ext (io_result unit)
(* trait XrayProcessRunner *)
| XrayLinkIndex (name : string) : ext (io_result (option Z))
| XrayHealth (name : string) : ext (io_result bool)
| XrayStop (name : string) : ext (io_result unit)
| XrayCleanup (uid : Z) (name : string) : ext (io_result unit)
| XrayVerifyBinary : ext (io_result unit)
| XrayStart (uid : Z) (name config : string) (geo_assets : option XrayGeoAssets)
    : ext (io_result unit)
| XrayReload (uid : Z) (name config : string) (geo_assets : option XrayGeoAssets)
    : ext (io_result unit)
| XrayQueryStats (name : string) (api_port : Z) : ext (io_result (Z * Z))
| XrayRespawn (uid : Z) (name : string) : ext (io_result unit)
(* the supervisor threads, crates/daemon/src/watchdog.rs, failover.rs and service_checks.rs *)
| WatchdogSpawn (key : Z * string) (spec : WatchdogSpec) : ext (result unit unit)
| WatchdogFinished (key : Z * string) : ext bool
| WatchdogOnline (key : Z * string) : ext bool
| WatchdogTakeRequest (key : Z * string) : ext bool
| WatchdogRecovered (key : Z * string) (now : Z) : ext unit
| WatchdogReport (key : Z * string) : ext WatchdogStatus
| FailoverSpawn (key : Z * string) (spec : FailoverSpec) : ext unit
| FailoverReport (key : Z * string) : ext (option FailoverStatus)
| PoolReport (key : Z * string) (exit : string) : ext (option FailoverStatus)
| ServiceChecksSpawn (key : Z * string) (checks : list ServiceCheck) (ports : list (string * Z))
    : ext bool
| ServiceChecksReport (key : Z * string) : ext (list ServiceCheckResult)
(* trait QuicRejectExecutor *)
| QuicRemove (uid : Z) (name : string) : ext (io_result unit)
| QuicEnsure (uid : Z) (name : string) : ext (io_result unit)
(* systemd, the resolver, the clock *)
| StopWgQuickUnit (name : string) : ext bool
| ResolveHost (host : string) : ext (list IpAddr)
| UnixNow : ext Z
| IfNametoindex (name : string) : ext Z
(* std::fs and geteuid *)
| FsMetadata (p : path) : ext (io_result FileMeta)
| FsCreateDir (p : path) (mode : Z) : ext (io_result unit)
| FsCreateDirAll (p : path) : ext (io_result unit)
| FsReadDir (p : path) : ext (io_result (list (io_result (option string))))
| FsRead (p : path) : ext (io_result bytes)
| FsRemoveFile (p : path) : ext (io_result unit)
| FsCreateNew (p : path) (mode : Z) : ext (io_result unit)
| FsWriteAll (p : path) (b : bytes) : ext (io_result unit)
| FsSyncAll (p : path) : ext (io_result unit)
| FsRename (p q : path) : ext (io_result unit)
| FsExists (p : path) : ext bool
| FsRemoveDir (p : path) : ext (io_result unit)
| Geteuid : ext Z
(* a child process of the runners and its management socket *)
| ChildExited (name : string) : ext (io_result bool)
| ManagementRead (name : string) : ext (io_result bytes)
| ManagementBlocking (name : string) (blocking : bool) : ext (io_result unit)
| ManagementWrite (name : string) (reply : string) : ext (io_result unit)
(* trait DnsCommandRunner, crates/daemon/src/dns.rs, and std::fs::metadata *)
| FsStat (p : path) : ext (io_result FileMeta)
| Resolvectl (args : list string) : ext (io_result (bool * string))
(* trait Authorizer, crates/daemon/src/auth.rs *)
| PolkitCheck (peer : PeerIdentity) (action : Action) : ext (io_result AuthDecision)
(* what the server reaches besides the core: the event channel, tailscaled,
   NetworkManager, the resolver, the network observer and the Xray package;
   a report the code only passes on is its text *)
| Notify (uid : Z) (owner : string) : ext unit
| TailscaleStatus : ext (io_result string)
| TailscaleSetRunning (running : bool) : ext (io_result unit)
| NmList : ext (io_result string)
| NmSetActive (uuid : string) (active : bool) : ext (io_result unit)
| DnsStatus : ext (io_result string)
| DnsProbe (hostname : string) (server : option IpAddr) (family : option IpFamily)
    : ext (io_result string)
| ObserveAddrs : ext (io_result (list IfaceAddr))
| ObserveRoutes : ext (io_result (list AppliedRoute))
| XrayInstallPackage (archive : bytes) : ext (io_result (option string * bool))
| XrayRemovePackage : ext (io_result bool)
| ProbeDeadline : ext bool
(* whether [DISPATCH_TIMEOUT] ran out while the request awaited an answer *)
| RequestExpired : ext bool
| PidfdAlive (fd : Z) : ext bool
| Monotonic : ext Z
(* rtnetlink requests of the actor of crates/daemon/src/netlink.rs; [None]: no
   reply came before the command was given up *)
| NlRouteAdd (m : RouteMessage) : ext (option (result unit nl_error))
| NlRouteDel (m : RouteMessage) : ext (option (result unit nl_error))
| NlRouteDump (version : IpFamily) : ext (option (nl_stream RouteMessage))
| NlRouteGet (m : RouteMessage) (flags : Z) : ext (option (result LookupReply nl_error))
| NlRuleAdd (m : RuleMessage) : ext (option (result unit nl_error))
| NlRuleDel (m : RuleMessage) : ext (option (result unit nl_error))
| NlRuleDump (version : IpFamily) : ext (option (nl_stream RuleMessage))
| NlLinkDump : ext (option (nl_stream LinkMessage))
| NlLinkByName (name : string) : ext (option (result (option LinkMessage) nl_error))
| NlLinkByIndex (index : Z) : ext (option (result (option LinkMessage) nl_error))
| NlLinkAdd (m : LinkMessage) : ext (option (result unit nl_error))
| NlLinkSet (index : Z) (m : LinkMessage) : ext (option (result unit nl_error))
| NlLinkSetAlias (index : Z) (alias : string) : ext (option (result unit nl_error))
| NlLinkSetMtu (index mtu : Z) : ext (option (result unit nl_error))
| NlLinkDel (index : Z) : ext (option (result unit nl_error))
| NlAddressDump : ext (option (nl_stream AddressMessage))
| NlAddressAdd (index : Z) (address : IpAddr) (length : Z) : ext (option (result unit nl_error))
| NlAddressDel (m : AddressMessage) : ext (option (result unit nl_error))
(* the macOS helper: trait Runner (crates/macos-helper/src/sysexec.rs), the
   system's inventory (crates/core/src/explorer.rs) and std::fs *)
| RunTool (program : string) (args : list string) : ext (io_result string)
| ListRoutes : ext (io_result (list RouteEntry))
| ListInterfaces : ext (io_result (list ListedInterface))
| FsSetPermissions (p : path) (mode : Z) : ext (io_result unit)
| FsOpenTruncate (p : path) (mode : Z) : ext (io_result unit)
(* what crates/daemon/src/xray_process.rs and crates/core/src/managed_xray.rs
   use of std::fs, std::process, the clock and pidfds; a file that is open is
   known by its path, a child by its process id *)
| FsOpen (p : path) : ext (io_result unit)
| FsSeek (p : path) (start : Z) : ext (io_result unit)
| FsReadSome (p : path) (limit : Z) : ext (bytes * option io_error)
| FsOpenAppend (p : path) : ext (io_result unit)
| FsCloneHandle (p : path) : ext (io_result unit)
| FsReadLink (p : path) : ext (io_result string)
| FsCanonicalize (p : path) : ext (io_result path)
| FsRemoveDirAll (p : path) : ext (io_result unit)
| ProcessTag : ext (Z * Z)
| ChildSpawn (c : ChildCommand) : ext (io_result Z)
| ChildTryWait (child : Z) : ext (io_result (option bool))
| ChildOutput (child : Z) : ext (io_result string)
| PidfdOpen (pid : Z) : ext (option Z)
| PidfdSendSignal (pidfd signal : Z) : ext bool
| PidfdPoll (pidfd : Z) : ext (option bool)
| SleepMillis (millis : Z) : ext unit
| Eprintln (line : string) : ext unit
(* a child with pipes, crates/daemon/src/quic_reject.rs; [ChildStdout] is what
   the reader thread took of the output up to a limit *)
| PipedSpawn (binary : path) (args : list string) (env : list (string * string)) (stdin : bool)
    : ext (io_result Z)
| ChildStdin (child : Z) (input : bytes) : ext (io_result unit)
| ChildStdout (child limit : Z) : ext (bytes * option io_error)
| ChildDrain (child : Z) : ext (io_result unit)
| ChildKill (child : Z) : ext unit
| ChildWait (child : Z) : ext unit
(* a connection of crates/daemon/src/server.rs, and [tools_probe] *)
| StreamWrite (line : bytes) : ext (io_result unit)
| StreamFlush : ext (io_result unit)
| ToolsProbe : ext (list (string * bool)).

(** One completed call, and the calls so far, newest first. *)
Inductive event : Type :=
| Ev {A : Type} (c : ext A) (a : A).

Definition history : Type := list event.

Class Env : Type := answer : ∀ A : Type, ext A → history → A.

(** ** The monad *)

Definition M (S A : Type) : Type := S → history → option A * S * history.

Definition ret {S A} (a : A) : M S A := λ s h, (Some a, s, h).

Definition bind {S A B} (m : M S A) (f : A → M S B) : M S B := λ s h,
  match m s h with
  | (Some a, s', h') => f a s' h'
  | (None, s', h') => (None, s', h')
  end.

Definition panic {S A} : M S A := λ s h, (None, s, h).

Definition get {S} : M S S := λ s h, (Some s, s, h).
Definition put {S} (s : S) : M S unit := λ _ h, (Some tt, s, h).
Definition modify {S} (f : S → S) : M S unit := λ s h, (Some tt, f s, h).

Definition call `{Env} {S A} (c : ext A) : M S A := λ s h,
  let a := answer A c h in (Some a, s, Ev c a :: h).

(** [let! x := m in k] sequences; [let? x := m in k] is Rust's [?]: it
    returns the error early. *)
Definition try_bind {S A B E} (m : M S (result A E)) (f : A → M S (result B E))
    : M S (result B E) :=
  bind m (λ r, match r with Ok a => f a | Err e => ret (Err e) end).

Notation "'let!' x := m 'in' k" := (bind m (λ x, k))
  (at level 10, x name, m at level 100, k at level 200) : rust_scope.
Notation "'let!' ' x := m 'in' k" := (bind m (λ x, k))
  (at level 10, x strict pattern, m at level 100, k at level 200) : rust_scope.
Notation "'let?' x := m 'in' k" := (try_bind m (λ x, k))
  (at level 10, x name, m at level 100, k at level 200) : rust_scope.
Notation "'let?' ' x := m 'in' k" := (try_bind m (λ x, k))
  (at level 10, x strict pattern, m at level 100, k at level 200) : rust_scope.
Notation "m ;;; k" := (bind m (λ _, k))
  (at level 199, right associativity) : rust_scope.

(** A pure [Result] inside stateful code, and an early error. *)
Definition lift {S A E} (r : result A E) : M S (result A E) := ret r.
Definition fail {S A E} (e : E) : M S (result A E) := ret (Err e).

(** [for x in l { body }] *)
Fixpoint for_each {S A} (l : list A) (body : A → M S unit) : M S unit :=
  match l with
  | [] => ret tt
  | x :: l' => bind (body x) (λ _, for_each l' body)
  end.

(** A loop that updates local variables [acc]. *)
Fixpoint for_acc {S A B} (l : list A) (acc : B) (body : B → A → M S B) : M S B :=
  match l with
  | [] => ret acc
  | x :: l' => bind (body acc x) (λ acc', for_acc l' acc' body)
  end.

(** A loop whose body may leave the function with an error. *)
Fixpoint for_try {S A B E} (l : list A) (acc : B) (body : B → A → M S (result B E))
    : M S (result B E) :=
  match l with
  | [] => ret (Ok acc)
  | x :: l' => try_bind (body acc x) (λ acc', for_try l' acc' body)
  end.

(** ** Weakest preconditions

    [wp m Q s h]: from state [s] and history [h], [m] does not panic and ends
    with [Q]. *)

Definition wp {S A} (m : M S A) (Q : A → S → history → Prop) (s : S) (h : history) : Prop :=
  match m s h with
  | (Some a, s', h') => Q a s' h'
  | (None, _, _) => False
  end.

(** ** Rules *)

Section wp_rules.
Context {S : Type}.

Lemma wp_ret {A} (a : A) (Q : A → S → history → Prop) s h :
  Q a s h → wp (ret a) Q s h.
Proof. done. Qed.

Lemma wp_bind {A B} (m : M S A) (f : A → M S B) Q s h :
  wp m (λ a, wp (f a) Q) s h → wp (bind m f) Q s h.
Proof. unfold wp, bind. destruct (m s h) as [[[a|] s'] h']; done. Qed.

Lemma wp_bind_inv {A B} (m : M S A) (f : A → M S B) Q s h :
  wp (bind m f) Q s h → wp m (λ a, wp (f a) Q) s h.
Proof. unfold wp, bind. destruct (m s h) as [[[a|] s'] h']; done. Qed.

Lemma wp_mono {A} (m : M S A) (Q Q' : A → S → history → Prop) s h :
  (∀ a s' h', Q a s' h' → Q' a s' h') → wp m Q s h → wp m Q' s h.
Proof. unfold wp. destruct (m s h) as [[[a|] s'] h']; auto. Qed.

Lemma wp_and {A} (m : M S A) (Q Q' : A → S → history → Prop) s h :
  wp m Q s h → wp m Q' s h → wp m (λ a s' h', Q a s' h' ∧ Q' a s' h') s h.
Proof. unfold wp. by destruct (m s h) as [[[a|] s'] h']. Qed.

Lemma wp_try_bind {A B E} (m : M S (result A E)) (f : A → M S (result B E)) Q s h :
  wp m (λ r, match r with Ok a => wp (f a) Q | Err e => Q (Err e) end) s h →
  wp (try_bind m f) Q s h.
Proof.
  intros Hm. apply wp_bind. eapply wp_mono; [|exact Hm]. intros [a|e]; auto.
Qed.

Lemma wp_get (Q : S → S → history → Prop) s h : Q s s h → wp get Q s h.
Proof. done. Qed.

Lemma wp_put (s' : S) (Q : unit → S → history → Prop) s h : Q tt s' h → wp (put s') Q s h.
Proof. done. Qed.

Lemma wp_modify (f : S → S) (Q : unit → S → history → Prop) s h :
  Q tt (f s) h → wp (modify f) Q s h.
Proof. done. Qed.

Lemma wp_call `{Env} {A} (c : ext A) (Q : A → S → history → Prop) s h :
  (∀ a, Q a s (Ev c a :: h)) → wp (call c) Q s h.
Proof. intros HQ. apply HQ. Qed.

Lemma wp_for_each {A} (l : list A) (body : A → M S unit) (I : list A → S → history → Prop)
    (Q : unit → S → history → Prop) s h :
  I l s h →
  (∀ x l' s h, I (x :: l') s h → wp (body x) (λ _, I l') s h) →
  (∀ s h, I [] s h → Q tt s h) →
  wp (for_each l body) Q s h.
Proof.
  intros HI Hbody HQ. revert s h HI. induction l as [|x l IH]; intros s h HI; simpl.
  - apply wp_ret, HQ, HI.
  - apply wp_bind. eapply wp_mono; [|by apply Hbody]. intros ? s' h'. apply IH.
Qed.

Lemma wp_for_acc {A B} (l : list A) (acc : B) (body : B → A → M S B)
    (I : list A → B → S → history → Prop) (Q : B → S → history → Prop) s h :
  I l acc s h →
  (∀ x l' b s h, I (x :: l') b s h → wp (body b x) (I l') s h) →
  (∀ b s h, I [] b s h → Q b s h) →
  wp (for_acc l acc body) Q s h.
Proof.
  intros HI Hbody HQ. revert acc s h HI.
  induction l as [|x l IH]; intros acc s h HI; simpl.
  - apply wp_ret, HQ, HI.
  - apply wp_bind. eapply wp_mono; [|by apply Hbody]. intros b s' h'. apply IH.
Qed.

Lemma wp_for_try {A B E} (l : list A) (acc : B) (body : B → A → M S (result B E))
    (I : list A → B → S → history → Prop) (Q : result B E → S → history → Prop) s h :
  I l acc s h →
  (∀ x l' b s h, I (x :: l') b s h →
     wp (body b x) (λ r, match r with Ok b' => I l' b' | Err e => Q (Err e) end) s h) →
  (∀ b s h, I [] b s h → Q (Ok b) s h) →
  wp (for_try l acc body) Q s h.
Proof.
  intros HI Hbody HQ. revert acc s h HI.
  induction l as [|x l IH]; intros acc s h HI; simpl.
  - apply wp_ret, HQ, HI.
  - apply wp_try_bind. eapply wp_mono; [|by apply Hbody].
    intros [b|e] s' h'; [apply IH|done].
Qed.
(** What a run of a [wp] gives. *)
Lemma wp_run {A} (m : M S A) Q s h a s' h' :
  wp m Q s h → m s h = (Some a, s', h') → Q a s' h'.
Proof. unfold wp. intros Hm Hrun. by rewrite Hrun in Hm. Qed.
End wp_rules.

Create HintDb wp discriminated.
#[export] Hint Constants Opaque : wp.
#[export] Hint Resolve wp_ret wp_get wp_put wp_modify : wp.

(** One step of symbolic execution; [wp_steps] runs to the next branch. *)
Ltac wp_step :=
  lazymatch goal with
  | |- wp (bind _ _) _ _ _ => apply wp_bind
  | |- wp (try_bind _ _) _ _ _ => apply wp_try_bind
  | |- wp (ret _) _ _ _ => apply wp_ret
  | |- wp (lift _) _ _ _ => apply wp_ret
  | |- wp (fail _) _ _ _ => apply wp_ret
  | |- wp get _ _ _ => apply wp_get
  | |- wp (put _) _ _ _ => apply wp_put
  | |- wp (modify _) _ _ _ => apply wp_modify
  | |- wp (call _) _ _ _ => apply wp_call; intros ?
  | |- wp (let _ := _ in _) _ _ _ => cbv zeta
  end; cbv beta.

Ltac wp_steps := repeat wp_step.

(** ** A world to run examples in: every call fails *)

Definition failing_answer {A} (c : ext A) : A.
Proof.
  destruct c; first
    [ exact status_default | exact None | exact (Err (err_new Other "failure"%string)) | exact false | exact [] | exact 0%Z | exact tt
    | exact (Err tt) | exact (Err DnsErrUnavailable) | exact ([], None) | exact (0%Z, 0%Z) ].
Defined.
