(* ===== verification/ManagedXray.v ===== *)
(** * The managed Xray package

    [crates/core/src/managed_xray.rs] as the Linux daemon uses it: the check
    of the installed executable, the installation of a release archive with a
    pinned digest, its removal; [protect_path] of [config_security.rs]. The
    [sha2] and [zip] crates are parameters. *)

From S2P Require Export World.

(** [format!("{:x}", Sha256::digest(data))] *)
Class Sha256Lib : Type := { sha256_hex : bytes → string }.

(** An entry as [ZipArchive::by_index] gives it. *)
Record ZipEntry : Type := mkZipEntry {
  ze_name : string;
  ze_is_file : bool;
  ze_unix_mode : option Z;
  ze_size : Z;
}.

(** [ZipArchive::new] with [by_index] of every entry, and what [take(limit)]
    of an entry reads. *)
Class ZipLib : Type := {
  zip_open : bytes → result (list (result ZipEntry text)) text;
  zip_read : bytes → nat → Z → io_result bytes;
}.

(** The order a [HashMap] of entry names is visited in. *)
Class EntryOrder : Type := {
  entry_order : list (string * nat) → list (string * nat);
  entry_order_perm l : entry_order l ≡ₚ l;
}.

Definition MAX_XRAY_ARCHIVE_BYTES : Z := 64 * 1024 * 1024.
Definition MAX_XRAY_ENTRY_BYTES : Z := 48 * 1024 * 1024.
Definition MAX_XRAY_TOTAL_BYTES : Z := 96 * 1024 * 1024.

Record ArchiveLayout : Type := mkLayout {
  al_version : string;
  al_executable_name : string;
  al_allowlist : list string;
  al_required_names : list string;
}.

Definition LINUX_XRAY_VERSION : string := "v26.10.31".
Definition LINUX_XRAY_SHA256 : string :=
  "e4bd9119f50ae7c41658b1abd0679ae06f98bd864a2907ff33f2f2cf7081b214".
Definition LINUX_ALLOWLIST : list string :=
  ["xray"; "geoip.dat"; "geosite.dat"; "LICENSE"; "README.md"]%string.
Definition LINUX_REQUIRED : list string := ["xray"; "geoip.dat"; "geosite.dat"]%string.
Definition LINUX_LAYOUT : ArchiveLayout :=
  mkLayout LINUX_XRAY_VERSION "xray" LINUX_ALLOWLIST LINUX_REQUIRED.
Definition LINUX_REQUIRED_SHA256 : list (string * string) :=
  [("xray", "cc4b84d3069569f297a61f04b914f2bb37e9d202fd7b84cb50def1fc30fd40e1");
   ("geoip.dat", "ce90dc02a81528109c99d769e1f8fe3071ded6b02a574f31e62d8f4eee312563");
   ("geosite.dat", "9ee94acb06e2f795831fb1589c0dc7af9242b0fb8d9196afd981b915b1097ed3")]%string.

Record ManagedXrayInstallation : Type := mkInstallation {
  mi_executable : path;
  mi_version_dir : path;
  mi_created : bool;
}.

Definition managed_invalid (m : text) : io_error := mkErr InvalidData m.

Definition linux_managed_version_dir (root : path) : path := root ++ [LINUX_XRAY_VERSION].

(** ** The central directory of an archive *)

Definition slice (archive : bytes) (from to : Z) : bytes :=
  take (Z.to_nat (to - from)) (drop (Z.to_nat from) archive).

(** [u16::from_le_bytes] and [u32::from_le_bytes] of what stands at [pos]. *)
Definition le_value (bs : bytes) : Z := foldr (λ b acc, b + 256 * acc)%Z 0%Z bs.
Definition read_u16 (archive : bytes) (pos : Z) : Z := le_value (slice archive pos (pos + 2)).
Definition read_u32 (archive : bytes) (pos : Z) : Z := le_value (slice archive pos (pos + 4)).

(** The end of the central directory at [pos]. *)
Definition eocd_at (archive : bytes) (pos : Z) : bool :=
  (slice archive pos (pos + 4) =b [80; 75; 5; 6]%Z)
  && Z.eqb (pos + 22 + read_u16 archive (pos + 20)) (zlen archive).

(** The loop over the positions, from the last down; [count] are left. *)
Fixpoint find_eocd (archive : bytes) (scan_from : Z) (count : nat) : option Z :=
  match count with
  | O => None
  | S count =>
    let pos := (scan_from + Z.of_nat count)%Z in
    if eocd_at archive pos then Some pos else find_eocd archive scan_from count
  end.

(** One record of the directory at [pos]: its name and where the next is. *)
Definition central_record (archive : bytes) (pos : Z) : io_result (string * Z) :=
  if Z.ltb (zlen archive) (pos + 46) || negb (slice archive pos (pos + 4) =b [80; 75; 1; 2]%Z)
  then Err (managed_invalid (txt "archive central directory is malformed"))
  else
    let name_end := (pos + 46 + read_u16 archive (pos + 28))%Z in
    if Z.ltb (zlen archive) name_end
    then Err (managed_invalid (txt "archive central directory is truncated"))
    else
      name <-? ok_or (from_utf8 (slice archive (pos + 46) name_end))
                 (managed_invalid (txt "archive entry name is not UTF-8"));
      Ok (name, name_end + read_u16 archive (pos + 30) + read_u16 archive (pos + 32))%Z.

Fixpoint central_names (archive : bytes) (allowlist : list string) (records : nat) (pos : Z)
    (names : list string) : io_result (list string) :=
  match records with
  | O => Ok names
  | S records =>
    '(name, next) <-? central_record archive pos;
    central_names archive allowlist records next
      (if vec_contains allowlist name then names ++ [name] else names)
  end.

Definition allowlisted_central_names (archive : bytes) (allowlist : list string)
    : io_result (list string) :=
  let scan_from := Z.max 0 (zlen archive - (22 + 65535)) in
  let scan_to := Z.max 0 (zlen archive - 21) in
  eocd <-? ok_or (find_eocd archive scan_from (Z.to_nat (scan_to - scan_from)))
             (managed_invalid (txt "archive end-of-central-directory not found"));
  central_names archive allowlist (Z.to_nat (read_u16 archive (eocd + 10)))
    (read_u32 archive (eocd + 16)) [].

Definition duplicate_entry (name : string) : io_error :=
  managed_invalid (txt "archive contains a duplicate entry '" ++ txt name ++ txt "'").

(** [seen_names.insert] on each name. *)
Fixpoint no_duplicates (seen names : list string) : io_result unit :=
  match names with
  | [] => Ok tt
  | name :: names =>
    if vec_contains seen name then Err (duplicate_entry name) else no_duplicates (name :: seen) names
  end.

(** ** The entries *)

Section package.
Context `{Env} `{Sha256Lib} `{ZipLib} `{EntryOrder} {S : Type}.

(** [mode & 0o170000 == 0o120000] *)
Definition is_link_mode (mode : Z) : bool := Z.eqb (Z.land mode 61440) 40960.

(** One turn of the loop over the entries: the selected names with their
    indices, and their sizes together. *)
Definition select_entry (layout : ArchiveLayout) (acc : list (string * nat) * Z)
    (indexed : nat * result ZipEntry text) : io_result (list (string * nat) * Z) :=
  let '(selected, total) := acc in
  let '(index, entry) := indexed in
  entry <-? map_err managed_invalid entry;
  let name := ze_name entry in
  if negb (ze_is_file entry) || negb (vec_contains (al_allowlist layout) name) then Ok acc
  else if is_some_and is_link_mode (ze_unix_mode entry)
  then Err (managed_invalid (txt "archive contains a symlink"))
  else if vec_contains (map fst selected) name then Err (duplicate_entry name)
  else if Z.ltb MAX_XRAY_ENTRY_BYTES (ze_size entry)
  then Err (managed_invalid (txt "archive entry '" ++ txt name ++ txt "' exceeds the "
              ++ [TNum MAX_XRAY_ENTRY_BYTES] ++ txt " byte limit"))
  else
    let total := Z.min (total + ze_size entry) (2 ^ 64 - 1) in
    if Z.ltb MAX_XRAY_TOTAL_BYTES total
    then Err (managed_invalid (txt "archive entries exceed the " ++ [TNum MAX_XRAY_TOTAL_BYTES]
                ++ txt " byte total limit"))
    else Ok (selected ++ [(name, index)], total).

Fixpoint select_entries (layout : ArchiveLayout) (acc : list (string * nat) * Z)
    (entries : list (nat * result ZipEntry text)) : io_result (list (string * nat) * Z) :=
  match entries with
  | [] => Ok acc
  | entry :: entries => acc <-? select_entry layout acc entry; select_entries layout acc entries
  end.

(** The first required name that was not selected. *)
Definition missing_required (layout : ArchiveLayout) (selected : list (string * nat)) : option string :=
  find_map (λ required, if vec_contains (map fst selected) required then None else Some required)
    (al_required_names layout).

(** Everything that is checked of an archive before the disk is touched. *)
Definition selected_entries (layout : ArchiveLayout) (archive : bytes)
    : io_result (list (string * nat)) :=
  names <-? allowlisted_central_names archive (al_allowlist layout);
  _ <-? no_duplicates [] names;
  entries <-? map_err managed_invalid (zip_open archive);
  '(selected, _) <-? select_entries layout ([], 0%Z) (enumerate entries);
  match missing_required layout selected with
  | Some required =>
    Err (managed_invalid (txt "archive is missing required entry '" ++ txt required ++ txt "'"))
  | None => Ok selected
  end.

(** ** The version tree *)

(** [config_security::protect_path] on Unix *)
Definition protect_path (p : path) : M S (io_result unit) :=
  let? metadata := call (FsStat p) in
  call (FsSetPermissions p (if fm_is_dir metadata then 448 else 384)).

Definition integrity_failed (name : string) : io_error :=
  managed_invalid (txt "managed xray file '" ++ txt name ++ txt "' failed integrity verification").

Definition verify_required_hashes (version_dir : path) (expected_required : list (string * string))
    : M S (io_result unit) :=
  for_try expected_required tt (λ _ '(name, expected_hash),
    let? data := call (FsRead (version_dir ++ [name])) in
    if negb (sha256_hex data =b expected_hash) then fail (integrity_failed name) else ret (Ok tt)).

(** [iter().all]: the files after one that fails are not looked at. *)
Fixpoint version_verified (version_dir : path) (expected_required : list (string * string))
    : M S bool :=
  match expected_required with
  | [] => ret true
  | (name, expected_hash) :: rest =>
    let! metadata := call (FsMetadata (version_dir ++ [name])) in
    match metadata with
    | Ok metadata =>
      if fm_is_file metadata && negb (fm_is_symlink metadata) then
        let! data := call (FsRead (version_dir ++ [name])) in
        match data with
        | Ok data => if sha256_hex data =b expected_hash then version_verified version_dir rest else ret false
        | Err _ => ret false
        end
      else ret false
    | Err _ => ret false
    end
  end.

Definition protect_version_tree (root version_dir : path) (required_names : list string)
    (executable_name : string) : M S (io_result unit) :=
  let? _ := protect_path root in
  let? _ := protect_path version_dir in
  let? _ := for_try required_names tt (λ _ name, protect_path (version_dir ++ [name])) in
  if executable_name =b "xray" then call (FsSetPermissions (version_dir ++ [executable_name]) 448)
  else ret (Ok tt).

(** One selected entry into the staging directory. *)
Definition extract_entry (archive : bytes) (entries : list (result ZipEntry text)) (staging : path)
    (selected : string * nat) : M S (io_result unit) :=
  let '(name, index) := selected in
  let? entry := lift (map_err managed_invalid (unwrap_or (entries !! index) (Err (txt "")))) in
  let target := staging ++ [name] in
  let? _ := call (FsCreateNew target 438) in
  let? data := lift (zip_read archive index (MAX_XRAY_ENTRY_BYTES + 1)) in
  let? _ := call (FsWriteAll target data) in
  if negb (Z.eqb (zlen data) (ze_size entry))
  then fail (managed_invalid (txt "archive entry '" ++ txt name ++ txt "' did not match its declared size"))
  else protect_path target.

(** The closure of [install_archive_for_platform]. *)
Definition fill_staging (layout : ArchiveLayout) (expected_required : list (string * string))
    (root staging final_dir : path) (archive : bytes) (entries : list (result ZipEntry text))
    (selected : list (string * nat)) : M S (io_result ManagedXrayInstallation) :=
  let executable := final_dir ++ [al_executable_name layout] in
  let? _ := call (FsCreateDir staging 511) in
  let? _ := protect_path staging in
  let? _ := for_try (entry_order selected) tt (λ _, extract_entry archive entries staging) in
  let? _ := verify_required_hashes staging expected_required in
  let? _ := protect_version_tree root staging (al_required_names layout) (al_executable_name layout) in
  let! renamed := call (FsRename staging final_dir) in
  match renamed with
  | Ok _ => ret (Ok (mkInstallation executable final_dir true))
  | Err err =>
    let! verified := version_verified final_dir expected_required in
    if verified : bool then
      let? _ := protect_version_tree root final_dir (al_required_names layout) (al_executable_name layout) in
      ret (Ok (mkInstallation executable final_dir false))
    else fail err
  end.

(** [path.is_dir()], links followed. *)
Definition is_dir (p : path) : M S bool :=
  let! metadata := call (FsStat p) in
  ret (match metadata with Ok metadata => fm_is_dir metadata | Err _ => false end).

(** The staging directory: the version, the process and the time. *)
Definition staging_name (version : string) (pid nanos : Z) : string :=
  version +:+ ".tmp-" +:+ show_Z pid +:+ "-" +:+ show_Z nanos.

Definition install_archive_for_platform (root : path) (archive : bytes) (expected_hash : string)
    (expected_required : list (string * string)) (layout : ArchiveLayout)
    : M S (io_result ManagedXrayInstallation) :=
  if Z.ltb MAX_XRAY_ARCHIVE_BYTES (zlen archive)
  then fail (invalid_input (txt "archive exceeds the " ++ [TNum MAX_XRAY_ARCHIVE_BYTES]
               ++ txt " byte download limit"))
  else if negb (sha256_hex archive =b expected_hash)
  then fail (managed_invalid (txt "archive sha-256 does not match the pinned digest"))
  else
    let final_dir := root ++ [al_version layout] in
    let executable := final_dir ++ [al_executable_name layout] in
    let! installed := is_dir final_dir in
    if installed : bool then
      let! verified := version_verified final_dir expected_required in
      if verified : bool then
        let? _ := protect_version_tree root final_dir (al_required_names layout) (al_executable_name layout) in
        ret (Ok (mkInstallation executable final_dir false))
      else fail (mkErr AlreadyExists (txt "managed xray directory '" ++ txt (al_version layout)
                   ++ txt "' exists but is incomplete; remove it explicitly before reinstalling"))
    else
      let? selected := lift (selected_entries layout archive) in
      let? entries := lift (map_err managed_invalid (zip_open archive)) in
      let? _ := call (FsCreateDirAll root) in
      let? _ := protect_path root in
      let! '(pid, nanos) := call ProcessTag in
      let staging := root ++ [staging_name (al_version layout) pid nanos] in
      let! outcome := fill_staging layout expected_required root staging final_dir archive entries selected in
      let! left := if is_err outcome then ret true else call (FsExists staging) in
      (if left : bool then call (FsRemoveDirAll staging) ;;; ret tt else ret tt) ;;;
      ret outcome.

Definition install_verified_linux_archive (root : path) (archive : bytes)
    : M S (io_result ManagedXrayInstallation) :=
  install_archive_for_platform root archive LINUX_XRAY_SHA256 LINUX_REQUIRED_SHA256 LINUX_LAYOUT.

(** ** Removal, permissions and the check before use *)

Definition remove_incomplete_version_dir (version_dir : path)
    (expected_required : list (string * string)) : M S (io_result unit) :=
  let! metadata := call (FsMetadata version_dir) in
  match metadata with
  | Ok metadata =>
    if fm_is_dir metadata then
      let! verified := version_verified version_dir expected_required in
      if verified : bool then ret (Ok tt) else call (FsRemoveDirAll version_dir)
    else call (FsRemoveFile version_dir)
  | Err err => if has_kind NotFound err then ret (Ok tt) else fail err
  end.

Definition remove_incomplete_linux_version (root : path) : M S (io_result unit) :=
  remove_incomplete_version_dir (linux_managed_version_dir root) LINUX_REQUIRED_SHA256.

Definition remove_linux_version (root : path) : M S (io_result bool) :=
  let version_dir := linux_managed_version_dir root in
  let! metadata := call (FsMetadata version_dir) in
  match metadata with
  | Ok metadata =>
    let? _ := if fm_is_dir metadata then call (FsRemoveDirAll version_dir)
              else call (FsRemoveFile version_dir) in
    ret (Ok true)
  | Err err => if has_kind NotFound err then ret (Ok false) else fail err
  end.

Definition relax_entry (version_dir : path) (entry : io_result (option string))
    : M S (io_result unit) :=
  let? name := lift entry in
  (* A name that is not text stands for itself here. *)
  let p := version_dir ++ [unwrap_or name EmptyString] in
  let? metadata := call (FsMetadata p) in
  if fm_is_symlink metadata then ret (Ok tt)
  else call (FsSetPermissions p (if name =b Some "xray"%string then 493 else 420)).

Definition relax_linux_package_permissions (root : path) : M S (io_result unit) :=
  let version_dir := linux_managed_version_dir root in
  let? _ := call (FsSetPermissions root 493) in
  let? _ := call (FsSetPermissions version_dir 493) in
  let? entries := call (FsReadDir version_dir) in
  for_try entries tt (λ _, relax_entry version_dir).

Definition package_executable_mode_allowed (mode uid : Z) : bool := Z.eqb mode 493 && Z.eqb uid 0.

(** [path.ancestors()]: the path and its parents up to the root. *)
Definition ancestors (p : path) : list path :=
  map (λ n, take n p) (rev (seq 1 (length p))).

Definition verify_root_owned_readonly_path (p : path) : M S (io_result unit) :=
  for_try (ancestors p) tt (λ _ component,
    let? metadata := call (FsMetadata component) in
    if fm_is_symlink metadata || negb (Z.eqb (fm_uid metadata) 0)
       || negb (Z.eqb (Z.land (fm_mode metadata) 18) 0)
    then fail (managed_invalid (txt "managed xray package path is not root-owned and read-only"))
    else ret (Ok tt)).

Definition contains_symlink : io_error :=
  managed_invalid (txt "managed xray installation contains a symlink").

Definition verify_managed_linux_executable (root executable : path) : M S (io_result unit) :=
  let? root_metadata := call (FsMetadata root) in
  if fm_is_symlink root_metadata then fail contains_symlink
  else
    let? root := call (FsCanonicalize root) in
    let expected_dir := linux_managed_version_dir root in
    let? canonical := call (FsCanonicalize executable) in
    if negb (canonical =b expected_dir ++ ["xray"%string])
    then fail (err_new PermissionDenied "executable is outside the managed xray installation")
    else
      let? _ := for_try LINUX_REQUIRED tt (λ _ name,
        let? metadata := call (FsMetadata (expected_dir ++ [name])) in
        if fm_is_symlink metadata then fail contains_symlink else ret (Ok tt)) in
      let? _ := verify_required_hashes expected_dir LINUX_REQUIRED_SHA256 in
      let? executable_metadata := call (FsMetadata (expected_dir ++ ["xray"%string])) in
      let mode := Z.land (fm_mode executable_metadata) 511 in
      if Z.eqb mode 448 then ret (Ok tt)
      else if negb (package_executable_mode_allowed mode (fm_uid executable_metadata))
      then fail (managed_invalid (txt "managed xray executable has unsafe permissions"))
      else for_try LINUX_REQUIRED tt (λ _ name,
             verify_root_owned_readonly_path (expected_dir ++ [name])).

(** [install_managed_package_at] and [remove_managed_package_at] of
    [xray_process.rs] on x86-64. *)
Definition install_managed_package_at (root : path) (archive : bytes)
    : M S (io_result ManagedXrayInstallation) :=
  let? _ := remove_incomplete_linux_version root in
  let? installation := install_verified_linux_archive root archive in
  let? _ := relax_linux_package_permissions root in
  ret (Ok installation).

Definition remove_managed_package_at (root : path) : M S (io_result bool) := remove_linux_version root.

End package.
