(* ===== verification/Policy.v ===== *)
(** * Route planning and route transactions: [crates/core/src/policy.rs]

    [apply_routes_transactional] and [remove_routes_best_effort] drive any
    [RouteExecutor]; [PolicyManager] keeps the routes of each profile;
    [plan_profile] turns a profile and the interfaces present into routes. *)

From S2P Require Export World.

(** ** Data *)

Inductive InterfaceCategory : Type :=
| Physical | Vpn | Virtual | System | Tunnel | Filter.

#[export] Instance InterfaceCategory_eq_dec : EqDecision InterfaceCategory.
Proof. solve_decision. Defined.

(** The fields of [NetworkInterface] the planner reads. *)
Record NetworkInterface : Type := mkInterface {
  ni_name : string;
  ni_friendly_name : string;
  ni_if_index : Z;
  ni_gateway : option IpAddr;
  ni_ipv6_gateway : option IpAddr;
  ni_category : InterfaceCategory;
}.

(** The fields of [Profile] the planner reads. *)
Record Profile : Type := mkProfile {
  pf_id : string;
  pf_interface_name : string;
  pf_routes : list PolicyRoute;
  pf_endpoint_bypasses : list string;
  pf_wait_for_interface : bool;
}.

Record AppliedProfileRoutes : Type := mkAppliedProfile {
  ap_profile_id : string;
  ap_routes : list AppliedRoute;
}.

Record RoutePlan : Type := mkPlan {
  pl_routes : list AppliedRoute;
  pl_deferred : list PolicyRoute;
  pl_bypasses : list AppliedRoute;
  pl_pending_bypasses : list string;
}.

(** The executor of [PolicyManager] is the world. *)
Record PolicyManager : Type := mkManager {
  pm_applied : gmap string (list AppliedRoute);
}.

#[export] Instance AppliedProfileRoutes_eq_dec : EqDecision AppliedProfileRoutes.
Proof. solve_decision. Defined.

(** ** Route transactions *)

Section transactions.
Context `{Env} {S : Type}.

(** The rollback loop: over the routes already added, newest first. *)
Fixpoint rollback_routes (rev_added : list AppliedRoute)
    (message : text) (still_applied : list AppliedRoute)
    : M S (text * list AppliedRoute) :=
  match rev_added with
  | [] => ret (message, still_applied)
  | rollback :: rest =>
    let! r := call (RemoveRoute rollback) in
    match r with
    | Ok _ => rollback_routes rest message still_applied
    | Err rb_err =>
      rollback_routes rest
        (message ++ [TStr "; rollback failed for "; TNet (ar_destination rollback); TStr ": "]
           ++ emsg rb_err)
        (still_applied ++ [rollback])
    end
  end.

(** [rev_added] is [routes[..added].iter().rev()]. *)
Fixpoint apply_routes_from (rev_added routes : list AppliedRoute)
    : M S (result unit (io_error * list AppliedRoute)) :=
  match routes with
  | [] => ret (Ok tt)
  | route :: rest =>
    let! r := call (AddRoute route) in
    match r with
    | Ok _ => apply_routes_from (route :: rev_added) rest
    | Err err =>
      let! '(message, still_applied) := rollback_routes rev_added (emsg err) [] in
      ret (Err (mkErr (ekind err) message, still_applied))
    end
  end.

Definition apply_routes_transactional (routes : list AppliedRoute)
    : M S (result unit (io_error * list AppliedRoute)) :=
  apply_routes_from [] routes.

Fixpoint remove_routes_from (rev_routes : list AppliedRoute)
    (failed : list AppliedRoute) (messages : list text)
    : M S (list AppliedRoute * list text) :=
  match rev_routes with
  | [] => ret (failed, messages)
  | route :: rest =>
    let! r := call (RemoveRoute route) in
    match r with
    | Ok _ => remove_routes_from rest failed messages
    | Err err =>
      remove_routes_from rest (failed ++ [route])
        (messages ++ [[TNet (ar_destination route); TStr ": "] ++ emsg err])
    end
  end.

(** [messages.join("; ")] *)
Fixpoint join_text (messages : list text) : text :=
  match messages with
  | [] => []
  | [m] => m
  | m :: ms => m ++ txt "; " ++ join_text ms
  end.

Definition remove_routes_best_effort (routes : list AppliedRoute)
    : M S (result unit (list AppliedRoute * text)) :=
  let! '(failed, messages) := remove_routes_from (rev routes) [] [] in
  ret (match failed with
       | [] => Ok tt
       | _ => Err (failed, join_text messages)
       end).

End transactions.

(** ** Planning *)

Definition ENDPOINT_BYPASS_METRIC : Z := 50.

Section planning.
Context `{IpNetLib}.

Definition interface_gateway_for (interface : NetworkInterface) (destination : IpNet)
    : option IpAddr :=
  if negb (ni_category interface =b Physical) then None
  else match ni_gateway interface with
       | Some gateway =>
         if Bool.eqb (is_ipv4 gateway) (net_is_ipv4 destination) then Some gateway else None
       | None => None
       end.

Definition ambiguous_interface (name : string) : io_error :=
  mkErr InvalidInput [TStr "interface name '"; TStr name; TStr "' matches multiple interfaces"].

Definition resolve_interface (profile : Profile) (interfaces : list NetworkInterface)
    : io_result NetworkInterface :=
  let friendly := bfilter (λ i, ni_friendly_name i =b pf_interface_name profile) interfaces in
  match friendly with
  | [i] => Ok i
  | _ :: _ :: _ => Err (ambiguous_interface (pf_interface_name profile))
  | [] =>
    let named := bfilter (λ i, ni_name i =b pf_interface_name profile) interfaces in
    match named with
    | [i] => Ok i
    | [] => Err (mkErr NotFound
                   [TStr "interface '"; TStr (pf_interface_name profile); TStr "' not found"])
    | _ => Err (ambiguous_interface (pf_interface_name profile))
    end
  end.

Definition plan_routes_on (profile : Profile) (interface : NetworkInterface)
    : list AppliedRoute :=
  map (λ route,
    let destination := trunc (pr_destination route) in
    {| ar_destination := destination;
       ar_interface_index := ni_if_index interface;
       ar_metric := pr_metric route;
       ar_gateway := match pr_via route with
                     | Some via => Some via
                     | None => interface_gateway_for interface destination
                     end;
       ar_table := None |}) (pf_routes profile).

(** The gateway of the uplink's family, when it is of that family. *)
Definition uplink_gateway (host : IpAddr) (i : NetworkInterface) : option IpAddr :=
  let gateway := if is_ipv4 host then ni_gateway i else ni_ipv6_gateway i in
  match gateway with
  | Some g => if Bool.eqb (is_ipv4 g) (is_ipv4 host) then Some g else None
  | None => None
  end.

Definition uplink_route (host : IpAddr) (interfaces : list NetworkInterface)
    : option AppliedRoute :=
  let physical := bfilter (λ i, ni_category i =b Physical) interfaces in
  let candidates :=
    omap (λ i, (λ g, (i, g)) <$> uplink_gateway host i) physical in
  (λ '(i, gateway),
     {| ar_destination := net_of_ip host;
        ar_interface_index := ni_if_index i;
        ar_metric := ENDPOINT_BYPASS_METRIC;
        ar_gateway := Some gateway;
        ar_table := None |}) <$> min_by_key (λ p, ni_if_index p.1) candidates.

Fixpoint plan_endpoint_bypasses_from (entries : list string)
    (interfaces : list NetworkInterface)
    (seen_routes : gset IpNet) (seen_pending : gset string) (plan : RoutePlan) : RoutePlan :=
  match entries with
  | [] => plan
  | entry :: rest =>
    match parse_ip entry ≫= λ ip, uplink_route ip interfaces with
    | Some route =>
      if decide (ar_destination route ∈ seen_routes)
      then plan_endpoint_bypasses_from rest interfaces seen_routes seen_pending plan
      else plan_endpoint_bypasses_from rest interfaces
             ({[ar_destination route]} ∪ seen_routes) seen_pending
             {| pl_routes := pl_routes plan; pl_deferred := pl_deferred plan;
                pl_bypasses := pl_bypasses plan ++ [route];
                pl_pending_bypasses := pl_pending_bypasses plan |}
    | None =>
      if decide (entry ∈ seen_pending)
      then plan_endpoint_bypasses_from rest interfaces seen_routes seen_pending plan
      else plan_endpoint_bypasses_from rest interfaces
             seen_routes ({[entry]} ∪ seen_pending)
             {| pl_routes := pl_routes plan; pl_deferred := pl_deferred plan;
                pl_bypasses := pl_bypasses plan;
                pl_pending_bypasses := pl_pending_bypasses plan ++ [entry] |}
    end
  end.

Definition plan_endpoint_bypasses (profile : Profile) (interfaces : list NetworkInterface)
    (plan : RoutePlan) : RoutePlan :=
  plan_endpoint_bypasses_from (pf_endpoint_bypasses profile) interfaces ∅ ∅ plan.

Definition plan_profile (profile : Profile) (interfaces : list NetworkInterface)
    : io_result RoutePlan :=
  rbind
    (match pf_routes profile with
     | [] => Ok ([], [])
     | _ =>
       match resolve_interface profile interfaces with
       | Ok interface => Ok (plan_routes_on profile interface, [])
       | Err err =>
         if pf_wait_for_interface profile
            && negb (str_is_empty (pf_interface_name profile))
            && has_kind NotFound err
         then Ok ([], pf_routes profile)
         else Err err
       end
     end)
    (λ '(routes, deferred),
       Ok (plan_endpoint_bypasses profile interfaces
             {| pl_routes := routes; pl_deferred := deferred;
                pl_bypasses := []; pl_pending_bypasses := [] |})).

Definition plan_profile_routes (profile : Profile) (interfaces : list NetworkInterface)
    : io_result (list AppliedRoute) :=
  rbind (plan_profile profile interfaces) (λ plan, Ok (pl_routes plan)).

End planning.

(** ** The policy manager *)

Section manager.
Context `{Env} `{IpNetLib}.

Definition with_executor : PolicyManager := mkManager ∅.

Definition has_applied_profile (self : PolicyManager) (profile_id : string) : bool :=
  is_some (pm_applied self !! profile_id).

Definition applied_for (self : PolicyManager) (profile_id : string) : list AppliedRoute :=
  unwrap_or (pm_applied self !! profile_id) [].

Definition apply_profile (profile : Profile) (interfaces : list NetworkInterface)
    : M PolicyManager (io_result (list AppliedRoute)) :=
  let! self := get in
  if has_applied_profile self (pf_id profile)
  then fail (mkErr AlreadyExists
               [TStr "profile '"; TStr (pf_id profile); TStr "' already has applied routes"])
  else
    let? routes := lift (plan_profile_routes profile interfaces) in
    let! r := apply_routes_transactional routes in
    match r with
    | Err (err, _) => fail err
    | Ok _ =>
      modify (λ self, mkManager (<[pf_id profile := routes]> (pm_applied self))) ;;;
      ret (Ok routes)
    end.

Definition remove_profile (profile_id : string) : M PolicyManager (io_result unit) :=
  let! self := get in
  match pm_applied self !! profile_id with
  | None => fail (mkErr NotFound
                    [TStr "profile '"; TStr profile_id; TStr "' has no applied routes"])
  | Some routes =>
    put (mkManager (delete profile_id (pm_applied self))) ;;;
    let! r := remove_routes_best_effort routes in
    match r with
    | Ok _ => ret (Ok tt)
    | Err (failed, message) =>
      modify (λ self, mkManager (<[profile_id := failed]> (pm_applied self))) ;;;
      fail (mkErr Other message)
    end
  end.

(** [a.profile_id.cmp(&b.profile_id)] on UTF-8 bytes. *)
Definition profile_id_le (a b : AppliedProfileRoutes) : bool :=
  String.leb (ap_profile_id a) (ap_profile_id b).

Definition snapshot (self : PolicyManager) : list AppliedProfileRoutes :=
  sort_by profile_id_le
    (map (λ '(profile_id, routes), mkAppliedProfile profile_id routes)
       (map_to_list (pm_applied self))).

Fixpoint restore_entries (profiles : list AppliedProfileRoutes)
    (applied : gmap string (list AppliedRoute)) : io_result (gmap string (list AppliedRoute)) :=
  match profiles with
  | [] => Ok applied
  | entry :: rest =>
    if str_is_empty (trim (ap_profile_id entry))
    then Err (err_new InvalidData "applied route entry has a blank profile id")
    else if is_some (applied !! ap_profile_id entry)
    then Err (mkErr InvalidData
                [TStr "duplicate applied route entry for profile '";
                 TStr (ap_profile_id entry); TStr "'"])
    else restore_entries rest (<[ap_profile_id entry := ap_routes entry]> applied)
  end.

Definition restore (profiles : list AppliedProfileRoutes) : M PolicyManager (io_result unit) :=
  let? applied := lift (restore_entries profiles ∅) in
  put (mkManager applied) ;;;
  ret (Ok tt).

Definition applied_profile_ids (self : PolicyManager) : list string :=
  sort_by String.leb (elements (dom (pm_applied self))).

End manager.

(** ** Traces *)

Definition add_ok (r : AppliedRoute) : event := Ev (AddRoute r) (Ok tt).
Definition removal (p : AppliedRoute * io_result unit) : event := Ev (RemoveRoute p.1) p.2.

(** The routes whose removal failed, in the order tried. *)
Definition not_removed (tries : list (AppliedRoute * io_result unit)) : list AppliedRoute :=
  map fst (bfilter (λ p, is_err p.2) tries).

Section trace_lemmas.
Context `{Env} {S : Type}.

Lemma wp_rollback_routes (l : list AppliedRoute) msg still (s : S) h :
  wp (rollback_routes l msg still) (λ r s' h', s' = s ∧
    ∃ tries, map fst tries = l ∧ h' = rev (map removal tries) ++ h ∧
      r.2 = still ++ not_removed tries) s h.
Proof.
  revert msg still h. induction l as [|x l IH]; intros msg still h; simpl.
  - apply wp_ret. split; [done|]. exists []. by rewrite app_nil_r.
  - wp_steps. destruct a as [[]|e].
    + eapply wp_mono; [|apply IH]. intros r s' h' (-> & tries & <- & -> & ->).
      split; [done|]. exists ((x, Ok tt) :: tries). simpl. by rewrite <- app_assoc.
    + eapply wp_mono; [|apply IH]. intros r s' h' (-> & tries & <- & -> & ->).
      split; [done|]. exists ((x, Err e) :: tries). simpl. by rewrite <- !app_assoc.
Qed.

Lemma wp_remove_routes_from (l : list AppliedRoute) failed msgs (s : S) h :
  wp (remove_routes_from l failed msgs) (λ r s' h', s' = s ∧
    ∃ tries, map fst tries = l ∧ h' = rev (map removal tries) ++ h ∧
      r.1 = failed ++ not_removed tries) s h.
Proof.
  revert failed msgs h. induction l as [|x l IH]; intros failed msgs h; simpl.
  - apply wp_ret. split; [done|]. exists []. by rewrite app_nil_r.
  - wp_steps. destruct a as [[]|e].
    + eapply wp_mono; [|apply IH]. intros r s' h' (-> & tries & <- & -> & ->).
      split; [done|]. exists ((x, Ok tt) :: tries). simpl. by rewrite <- app_assoc.
    + eapply wp_mono; [|apply IH]. intros r s' h' (-> & tries & <- & -> & ->).
      split; [done|]. exists ((x, Err e) :: tries). simpl. by rewrite <- !app_assoc.
Qed.

(** What [apply_routes_transactional] does, for the callers' proofs. *)
Definition transaction_post (routes : list AppliedRoute) (s : S) (h : history)
    (r : result unit (io_error * list AppliedRoute)) (s' : S) (h' : history) : Prop :=
  s' = s ∧
  match r with
  | Ok _ => h' = rev (map add_ok routes) ++ h
  | Err (e, still_applied) => ∃ added route rest err tries,
      routes = added ++ route :: rest ∧ ekind e = ekind err ∧
      map fst tries = rev added ∧
      h' = rev (map removal tries) ++ Ev (AddRoute route) (Err err) :: rev (map add_ok added) ++ h ∧
      still_applied = not_removed tries
  end.

Lemma wp_apply_routes_from done_ (routes : list AppliedRoute) (s : S) h :
  wp (apply_routes_from (rev done_) routes) (transaction_post (done_ ++ routes) s h)
     s (rev (map add_ok done_) ++ h).
Proof.
  revert done_. induction routes as [|x routes IH]; intros done_; simpl.
  - apply wp_ret. split; [done|]. by rewrite app_nil_r.
  - wp_steps. destruct a as [[]|err].
    + specialize (IH (done_ ++ [x])).
      rewrite map_app, !rev_app_distr in IH. simpl in IH.
      rewrite <- app_assoc in IH. apply IH.
    + wp_steps. eapply wp_mono; [|apply wp_rollback_routes].
      intros [msg still] s' h' (-> & tries & Ht & -> & Hs). apply wp_ret.
      split; [done|]. exists done_, x, routes, err, tries. simpl in Hs. by rewrite Hs.
Qed.

Lemma wp_apply_routes_transactional (routes : list AppliedRoute) (s : S) h :
  wp (apply_routes_transactional routes) (transaction_post routes s h) s h.
Proof. apply (wp_apply_routes_from []). Qed.

Lemma wp_remove_routes_best_effort (routes : list AppliedRoute) (s : S) h :
  wp (remove_routes_best_effort routes) (λ r s' h', s' = s ∧
    ∃ tries, map fst tries = rev routes ∧ h' = rev (map removal tries) ++ h ∧
      match r with
      | Ok _ => not_removed tries = []
      | Err (failed, _) => failed = not_removed tries ∧ failed ≠ []
      end) s h.
Proof.
  unfold remove_routes_best_effort. wp_steps.
  eapply wp_mono; [|apply wp_remove_routes_from].
  intros [failed msgs] s' h' (-> & tries & Ht & -> & Hf). simpl in Hf. apply wp_ret.
  split; [done|]. exists tries. destruct failed as [|x failed]; naive_solver.
Qed.
End trace_lemmas.

(** ** Properties *)

(** A route transaction is atomic in every world. On success exactly the
    requested routes were added, in order, and nothing else happened. On
    failure the routes added before the failing one were each asked to be
    removed, newest first, the error keeps the kind of the failing call, and
    the routes reported as still applied are exactly those whose removal
    failed. *)
Theorem apply_routes_transactional_atomic `{Env} (S : Type) routes (s : S) h :
  wp (apply_routes_transactional routes) (transaction_post routes s h) s h.
Proof. apply wp_apply_routes_transactional. Qed.

Section manager_lemmas.
Context `{Env} `{IpNetLib}.

Lemma restore_entries_app l m :
  NoDup (ap_profile_id <$> l) →
  (∀ e, e ∈ l → str_is_empty (trim (ap_profile_id e)) = false ∧ m !! ap_profile_id e = None) →
  restore_entries l m =
    Ok (list_to_map ((λ e, (ap_profile_id e, ap_routes e)) <$> l) ∪ m).
Proof.
  revert m. induction l as [|e l IH]; intros m Hnd Hok; simpl.
  - by rewrite map_empty_union.
  - apply NoDup_cons in Hnd as [Hnin Hnd].
    destruct (Hok e) as [Hblank Hnone]; [set_solver|]. rewrite Hblank, Hnone. simpl.
    rewrite IH; [|done|].
    + f_equal. rewrite <- insert_union_l. rewrite <- insert_union_r; [done|].
      apply not_elem_of_list_to_map_1. rewrite <- list_fmap_compose. done.
    + intros e' He'. destruct (Hok e') as [? Hn]; [set_solver|]. split; [done|].
      rewrite lookup_insert_ne; [done|]. intros Heq. apply Hnin.
      rewrite Heq. by apply list_elem_of_fmap_2.
Qed.

Lemma elem_of_snapshot self e :
  e ∈ snapshot self ↔ pm_applied self !! ap_profile_id e = Some (ap_routes e).
Proof.
  unfold snapshot. rewrite sort_by_perm. split.
  - intros ([id rs] & -> & Hin)%list_elem_of_fmap. by apply elem_of_map_to_list in Hin.
  - intros He. apply list_elem_of_fmap. exists (ap_profile_id e, ap_routes e).
    split; [by destruct e|]. by apply elem_of_map_to_list.
Qed.

Lemma snapshot_pairs self :
  (λ e, (ap_profile_id e, ap_routes e)) <$> snapshot self ≡ₚ map_to_list (pm_applied self).
Proof.
  unfold snapshot. rewrite sort_by_perm. rewrite <- list_fmap_compose.
  rewrite (list_fmap_ext _ id); [by rewrite list_fmap_id|]. by intros ? [].
Qed.

Lemma snapshot_ids_nodup self : NoDup (ap_profile_id <$> snapshot self).
Proof.
  replace (ap_profile_id <$> snapshot self)
    with ((λ e, (ap_profile_id e, ap_routes e)) <$> snapshot self).*1.
  - rewrite snapshot_pairs. apply NoDup_fst_map_to_list.
  - by rewrite <- list_fmap_compose.
Qed.
End manager_lemmas.

(** Saving and restoring the manager is the identity: a snapshot of a
    manager whose profile ids are not blank restores to that same manager
    whatever the manager held before, without any effect on the kernel. *)
Theorem snapshot_restore_roundtrip (self other : PolicyManager) h
    (Hids : ∀ id, is_Some (pm_applied self !! id) → str_is_empty (trim id) = false) :
  restore (snapshot self) other h = (Some (Ok tt), self, h).
Proof.
  unfold restore, lift, try_bind, bind, ret.
  rewrite (restore_entries_app (snapshot self) ∅).
  - unfold put. simpl. f_equal. f_equal. rewrite map_union_empty.
    rewrite (list_to_map_proper _ (map_to_list (pm_applied self))).
    + rewrite list_to_map_to_list. by destruct self.
    + rewrite snapshot_pairs. apply NoDup_fst_map_to_list.
    + apply snapshot_pairs.
  - apply snapshot_ids_nodup.
  - intros e He%elem_of_snapshot. split; [by apply Hids|done].
Qed.

Lemma snapshot_restore_roundtrip_witness :
  let m := mkManager (<["work" := [on_link (mkNet (ip4 10 0 0 0) 8) 3 50]]> ∅) in
  restore (snapshot m) (mkManager ∅) [] = (Some (Ok tt), m, []).
Proof.
  apply (snapshot_restore_roundtrip (mkManager (<["work" := _]> ∅))).
  intros id [rs Hrs]. simpl in Hrs. apply lookup_insert_Some in Hrs as [[<- _]|[_ Hrs]].
  - reflexivity.
  - by rewrite lookup_empty in Hrs.
Defined.

(** What a failed [remove_profile] keeps: the profile stays recorded with
    exactly the routes whose removal failed, every other profile is untouched,
    and a success forgets the profile. *)
Theorem remove_profile_keeps_failed `{Env} profile_id self h :
  wp (remove_profile profile_id) (λ r self' h',
    match pm_applied self !! profile_id with
    | None => self' = self ∧ h' = h ∧ is_err r = true
    | Some routes => ∃ tries, map fst tries = rev routes ∧
        h' = rev (map removal tries) ++ h ∧
        is_ok r = (not_removed tries =b []) ∧
        pm_applied self' =
          match not_removed tries with
          | [] => delete profile_id (pm_applied self)
          | failed => <[profile_id := failed]> (pm_applied self)
          end
    end) self h.
Proof.
  unfold remove_profile. wp_steps.
  destruct (pm_applied self !! profile_id) as [routes|] eqn:Hl; [|by apply wp_ret].
  wp_steps. eapply wp_mono; [|apply wp_remove_routes_best_effort].
  intros r s' h' (-> & tries & Ht & -> & Hr).
  destruct r as [[]|[failed msg]].
  - apply wp_ret. exists tries. by rewrite Hr.
  - destruct Hr as [-> Hne]. wp_steps. exists tries. simpl.
    rewrite bool_decide_eq_false_2 by done.
    destruct (not_removed tries); [done|]. by rewrite insert_delete_eq.
Qed.

Section planning_lemmas.
Context `{IpNetLib}.

(** What makes a route a bypass for a host. *)
Definition bypass_for (interfaces : list NetworkInterface) (host : IpAddr) (r : AppliedRoute) :=
  ∃ i g, i ∈ interfaces ∧ ni_category i = Physical ∧
    r = mkAppliedRoute (net_of_ip host) (ni_if_index i) ENDPOINT_BYPASS_METRIC (Some g) None ∧
    is_ipv4 g = is_ipv4 host ∧ g ∈ (option_list (ni_gateway i) ++ option_list (ni_ipv6_gateway i)) ∧
    ∀ j, j ∈ interfaces → ni_category j = Physical → is_Some (uplink_gateway host j) →
      (ni_if_index i ≤ ni_if_index j)%Z.

Lemma uplink_gateway_spec host i g :
  uplink_gateway host i = Some g →
  is_ipv4 g = is_ipv4 host ∧ g ∈ (option_list (ni_gateway i) ++ option_list (ni_ipv6_gateway i)).
Proof.
  unfold uplink_gateway. intros Hg.
  assert (∃ o, (o = ni_gateway i ∨ o = ni_ipv6_gateway i) ∧ o = Some g ∧ is_ipv4 g = is_ipv4 host)
    as (o & Ho & -> & Hf).
  { destruct (is_ipv4 host); [exists (ni_gateway i)|exists (ni_ipv6_gateway i)];
      repeat case_match; simplify_eq; try (by rewrite ?Bool.eqb_true_iff in *; naive_solver). }
  split; [done|]. destruct Ho as [Ho|Ho]; rewrite <- Ho; set_solver.
Qed.

Lemma uplink_route_bypass host interfaces r :
  uplink_route host interfaces = Some r → bypass_for interfaces host r.
Proof.
  unfold uplink_route. rewrite fmap_Some. intros ([i g] & Hmin & ->).
  apply min_by_key_spec in Hmin as [Hin Hle].
  apply list_elem_of_omap in Hin as (j & Hj & Hg).
  destruct (uplink_gateway host j) as [g'|] eqn:Hgw; [|done]. simplify_eq/=.
  apply elem_of_bfilter in Hj as [Hcat Hj]. apply bool_decide_eq_true in Hcat.
  destruct (uplink_gateway_spec _ _ _ Hgw) as [Hf Hmem].
  exists i, g. repeat split; try done.
  intros k Hk Hkc [gk Hgk].
  apply (Hle (k, gk)). apply list_elem_of_omap. exists k. rewrite Hgk. split; [|done].
  apply elem_of_bfilter. split; [by apply bool_decide_eq_true|done].
Qed.

(** The invariant of the bypass loop. *)
Definition bypasses_ok (interfaces : list NetworkInterface) (done_ : list string)
    (seen_routes : gset IpNet) (seen_pending : gset string) (plan : RoutePlan) : Prop :=
  (∀ r, r ∈ pl_bypasses plan → ∃ entry host,
     entry ∈ done_ ∧ parse_ip entry = Some host ∧ bypass_for interfaces host r) ∧
  seen_routes = list_to_set (ar_destination <$> pl_bypasses plan) ∧
  seen_pending = list_to_set (pl_pending_bypasses plan) ∧
  NoDup (ar_destination <$> pl_bypasses plan) ∧ NoDup (pl_pending_bypasses plan) ∧
  (∀ entry, entry ∈ done_ →
     (∃ host, parse_ip entry = Some host ∧
        net_of_ip host ∈ (ar_destination <$> pl_bypasses plan)) ∨
     entry ∈ pl_pending_bypasses plan).

Lemma plan_endpoint_bypasses_from_ok entries interfaces done_ sr sp plan :
  bypasses_ok interfaces done_ sr sp plan →
  ∃ sr' sp', bypasses_ok interfaces (done_ ++ entries) sr' sp'
    (plan_endpoint_bypasses_from entries interfaces sr sp plan).
Proof.
  revert done_ sr sp plan.
  induction entries as [|e entries IH]; intros done_ sr sp plan Hok; simpl.
  - rewrite app_nil_r. eauto.
  - rewrite cons_middle, app_assoc.
    destruct Hok as (H1 & Hsr & Hsp & H2 & H3 & H4). subst sr sp.
    destruct (parse_ip e ≫= λ ip, uplink_route ip interfaces) as [r|] eqn:Hr.
    + apply bind_Some in Hr as (host & Hhost & Hr).
      apply uplink_route_bypass in Hr.
      assert (ar_destination r = net_of_ip host) as Hd by (by destruct Hr as (?&?&?&?&->&?)).
      destruct (decide _) as [Hin|Hin]; apply IH; split_and!; simpl; try done.
      * set_solver.
      * intros e' [He'| ->%list_elem_of_singleton]%elem_of_app; [by apply H4|].
        left. exists host. rewrite <- Hd. split; [done|]. by apply elem_of_list_to_set in Hin.
      * intros r' [Hr'| ->%list_elem_of_singleton]%elem_of_app; [set_solver|].
        exists e, host. set_solver.
      * rewrite fmap_app, list_to_set_app_L. set_solver.
      * rewrite fmap_app. apply NoDup_app. rewrite elem_of_list_to_set in Hin.
        split; [done|]. split; [set_solver|]. apply NoDup_singleton.
      * intros e' [He'| ->%list_elem_of_singleton]%elem_of_app;
          rewrite fmap_app; [destruct (H4 _ He'); set_solver|].
        left. exists host. rewrite <- Hd. set_solver.
    + destruct (decide _) as [Hin|Hin]; apply IH; split_and!; simpl; try done.
      * set_solver.
      * intros e' [He'| ->%list_elem_of_singleton]%elem_of_app; [by apply H4|].
        right. by apply elem_of_list_to_set in Hin.
      * set_solver.
      * rewrite list_to_set_app_L. set_solver.
      * apply NoDup_app. rewrite elem_of_list_to_set in Hin.
        split; [done|]. split; [set_solver|]. apply NoDup_singleton.
      * intros e' [He'| ->%list_elem_of_singleton]%elem_of_app; [|set_solver].
        destruct (H4 _ He'); set_solver.
Qed.
End planning_lemmas.

(** A profile's endpoint bypasses are routed only through physical
    uplinks. Each planned bypass is the host route of a literal entry through
    the gateway, of the host's family, of the physical interface with the
    lowest index that has one; destinations are not repeated; and every entry
    is either covered by a planned bypass or left pending. *)
Theorem plan_profile_bypasses `{IpNetLib} profile interfaces plan
    (Hplan : plan_profile profile interfaces = Ok plan) :
  (∀ r, r ∈ pl_bypasses plan → ∃ entry host,
     entry ∈ pf_endpoint_bypasses profile ∧ parse_ip entry = Some host ∧
     bypass_for interfaces host r) ∧
  NoDup (ar_destination <$> pl_bypasses plan) ∧ NoDup (pl_pending_bypasses plan) ∧
  (∀ entry, entry ∈ pf_endpoint_bypasses profile →
     (∃ host, parse_ip entry = Some host ∧
        net_of_ip host ∈ (ar_destination <$> pl_bypasses plan)) ∨
     entry ∈ pl_pending_bypasses plan).
Proof.
  unfold plan_profile in Hplan.
  match type of Hplan with rbind ?r _ = _ => destruct r as [[rs df]|] end; [|done].
  simpl in Hplan. injection Hplan as <-. unfold plan_endpoint_bypasses.
  edestruct (plan_endpoint_bypasses_from_ok (pf_endpoint_bypasses profile) interfaces [] ∅ ∅)
    as (sr & sp & H1 & _ & _ & H2 & H3 & H4); [|repeat split; eassumption].
  split_and!; simpl; try set_solver; apply NoDup_nil_2.
Qed.

Lemma plan_profile_bypasses_witness :
  let profile := mkProfile "p" "" [] ["203.0.113.7"; "vpn.example"; "203.0.113.7"] false in
  let interfaces :=
    [mkInterface "tun0" "tun0" 2 (Some (ip4 10 8 0 1)) None Vpn;
     mkInterface "eth0" "eth0" 7 (Some (ip4 192 168 1 1)) None Physical;
     mkInterface "wlan0" "wlan0" 3 (Some (ip4 192 168 2 1)) None Physical] in
  let plan := mkPlan [] []
    [mkAppliedRoute (net_of_ip (ip4 203 0 113 7)) 3 50 (Some (ip4 192 168 2 1)) None]
    ["vpn.example"] in
  plan_profile (H := ipnet_model) profile interfaces = Ok plan ∧
  NoDup (ar_destination <$> pl_bypasses plan).
Proof.
  intros profile interfaces plan.
  assert (plan_profile (H := ipnet_model) profile interfaces = Ok plan) as Hp by reflexivity.
  split; [exact Hp|].
  exact (proj1 (proj2 (plan_profile_bypasses (H := ipnet_model) profile interfaces plan Hp))).
Defined.
