(* ===== verification/Validate.v ===== *)
(** * Request validation: [crates/daemon/src/validate.rs]

    Every field a client controls is checked here before the daemon core
    acts on it. Each check is the code's function; the theorems give the set
    of requests it accepts. *)

From S2P Require Export World.

Definition MAX_ENDPOINT_BYPASSES : Z := 256.

Section validate.
Context `{IpNetLib}.

(** Comparing [net.to_string()] with ["0.0.0.0/0"] or ["::/0"] compares the
    network: [Display] is injective. *)
Definition full_coverage (routes : list IpNet) : bool * bool :=
  let aggregated := aggregate routes in
  (existsb (λ net, net =b mkNet (V4 0) 0) aggregated,
   existsb (λ net, net =b mkNet (V6 0) 0) aggregated).

Definition iface_char (c : Z) : bool :=
  is_ascii_alphanumeric c || Z.eqb c (ch ".") || Z.eqb c (ch "_") || Z.eqb c (ch "-").

Definition validate_iface_name (name : string) : result unit text :=
  if str_is_empty name || Nat.ltb 15 (str_len name)
  then Err [TStr "interface name must be 1-15 bytes, got "; TNum (Z.of_nat (str_len name))]
  else if starts_with name "-"
  then Err (txt "interface name must not start with '-'")
  else if negb (forallb iface_char (chars name))
  then Err (txt "interface name contains unsupported characters")
  else Ok tt.

Definition validate_owner (owner : string) : result unit text :=
  if str_is_empty owner || Z.ltb MAX_OWNER_BYTES (Z.of_nat (str_len owner))
  then Err [TStr "owner must be 1-"; TNum MAX_OWNER_BYTES; TStr " bytes, got ";
            TNum (Z.of_nat (str_len owner))]
  else if existsb is_control (chars owner)
  then Err (txt "owner must not contain control characters")
  else Ok tt.

(** [a.is_ipv4() == b.addr().is_ipv4()] *)
Definition same_family (a : IpAddr) (n : IpNet) : bool :=
  Bool.eqb (is_ipv4 a) (net_is_ipv4 n).

Fixpoint validate_attach_routes (routes : list PolicyRoute) : result unit text :=
  match routes with
  | [] => Ok tt
  | route :: rest =>
    match pr_via route with
    | Some via =>
      if negb (same_family via (pr_destination route)) || is_unspecified via || is_multicast via
      then Err [TStr "via "; TIp via; TStr " must be a unicast address in the family of ";
                TNet (pr_destination route)]
      else validate_attach_routes rest
    | None => validate_attach_routes rest
    end
  end.

Definition host_char (c : Z) : bool :=
  is_ascii_alphanumeric c || Z.eqb c (ch ".") || Z.eqb c (ch "-") || Z.eqb c (ch "_").

Fixpoint validate_attach_hosts (hosts : list string) : result unit text :=
  match hosts with
  | [] => Ok tt
  | host :: rest =>
    if str_is_empty host || Nat.ltb 253 (str_len host)
    then Err (txt "endpoint bypass host must be 1-253 bytes")
    else if is_none (parse_ip host) && negb (forallb host_char (chars host))
    then Err [TStr "endpoint bypass host "; TDbg host; TStr " is not a DNS name or IP"]
    else validate_attach_hosts rest
  end.

Definition validate_attach (spec : AttachSpecParams) : result unit text :=
  _ <-? (if as_uplink spec then
           if negb (str_is_empty (as_interface_name spec))
           then Err (txt "uplink specs do not take an interface name")
           else Ok tt
         else if negb (str_is_empty (as_interface_name spec))
         then validate_iface_name (as_interface_name spec)
         else if negb (Z.eqb (zlen (as_routes spec)) 0)
         then Err (txt "attach routes need an interface name")
         else Ok tt);
  if Z.ltb MAX_ROUTES_PER_REQUEST (zlen (as_routes spec))
  then Err [TStr "at most "; TNum MAX_ROUTES_PER_REQUEST; TStr " spec routes, got ";
            TNum (zlen (as_routes spec))]
  else if Z.ltb MAX_ENDPOINT_BYPASSES (zlen (as_endpoint_bypasses spec))
  then Err [TStr "at most "; TNum MAX_ENDPOINT_BYPASSES; TStr " endpoint bypasses, got ";
            TNum (zlen (as_endpoint_bypasses spec))]
  else
    _ <-? validate_attach_routes (as_routes spec);
    validate_attach_hosts (as_endpoint_bypasses spec).

Definition validate_route (route : AppliedRoute) : result unit text :=
  let destination := ar_destination route in
  if negb (trunc destination =b destination)
  then Err [TStr "destination "; TNet destination; TStr " has host bits set"]
  else if is_some (ar_table route)
  then Err (txt "routing table is chosen by the daemon, not the client")
  else if Z.eqb (ar_interface_index route) 0
  then Err [TStr "route "; TNet destination; TStr " has no interface index"]
  else match ar_gateway route with
       | Some gateway =>
         if negb (same_family gateway destination)
         then Err [TStr "gateway "; TIp gateway; TStr " is not in the address family of ";
                   TNet destination]
         else if is_unspecified gateway || is_multicast gateway
         then Err [TStr "gateway "; TIp gateway; TStr " must be a unicast address"]
         else Ok tt
       | None => Ok tt
       end.

Fixpoint validate_apply_routes (routes : list AppliedRoute) (seen : gset (IpNet * Z))
    : result unit text :=
  match routes with
  | [] => Ok tt
  | route :: rest =>
    _ <-? validate_route route;
    if decide ((ar_destination route, ar_metric route) ∈ seen)
    then Err [TStr "duplicate route "; TNet (ar_destination route); TStr " with metric ";
              TNum (ar_metric route)]
    else validate_apply_routes rest ({[(ar_destination route, ar_metric route)]} ∪ seen)
  end.

Definition validate_apply (routes : list AppliedRoute) : result unit text :=
  if Z.ltb MAX_ROUTES_PER_REQUEST (zlen routes)
  then Err [TStr "at most "; TNum MAX_ROUTES_PER_REQUEST; TStr " routes per request, got ";
            TNum (zlen routes)]
  else validate_apply_routes routes ∅.

(** ** What is accepted *)

Definition unicast_next_hop (gateway : IpAddr) (destination : IpNet) : Prop :=
  is_ipv4 gateway = net_is_ipv4 destination ∧
  is_unspecified gateway = false ∧ is_multicast gateway = false.

Definition route_acceptable (r : AppliedRoute) : Prop :=
  trunc (ar_destination r) = ar_destination r ∧ ar_table r = None ∧
  ar_interface_index r ≠ 0%Z ∧
  ∀ g, ar_gateway r = Some g → unicast_next_hop g (ar_destination r).

Definition route_key (r : AppliedRoute) : IpNet * Z := (ar_destination r, ar_metric r).

Definition iface_name_acceptable (name : string) : Prop :=
  name ≠ EmptyString ∧ str_len name ≤ 15 ∧ starts_with name "-" = false ∧
  Forall (λ c, iface_char c = true) (chars name).

Definition host_acceptable (host : string) : Prop :=
  host ≠ EmptyString ∧ str_len host ≤ 253 ∧
  (is_Some (parse_ip host) ∨ Forall (λ c, host_char c = true) (chars host)).

Definition attach_acceptable (spec : AttachSpecParams) : Prop :=
  (if as_uplink spec then as_interface_name spec = EmptyString
   else iface_name_acceptable (as_interface_name spec) ∨
        (as_interface_name spec = EmptyString ∧ as_routes spec = [])) ∧
  (zlen (as_routes spec) ≤ MAX_ROUTES_PER_REQUEST)%Z ∧
  (zlen (as_endpoint_bypasses spec) ≤ MAX_ENDPOINT_BYPASSES)%Z ∧
  (∀ r g, r ∈ as_routes spec → pr_via r = Some g → unicast_next_hop g (pr_destination r)) ∧
  (∀ host, host ∈ as_endpoint_bypasses spec → host_acceptable host).

(** ** Lemmas *)

Lemma str_is_empty_spec s : str_is_empty s = true ↔ s = EmptyString.
Proof. by destruct s. Qed.

Lemma forallb_Forall {A} (p : A → bool) l : forallb p l = true ↔ Forall (λ x, p x = true) l.
Proof. rewrite forallb_forall, Forall_forall. setoid_rewrite list_elem_of_In. done. Qed.

Lemma validate_route_ok r : is_ok (validate_route r) = true ↔ route_acceptable r.
Proof.
  unfold validate_route, route_acceptable, unicast_next_hop, same_family.
  destruct r as [d i m g t]; simpl.
  destruct (decide (trunc d = d)) as [Ht|Ht];
    [rewrite bool_decide_eq_true_2 by done|rewrite bool_decide_eq_false_2 by done]; simpl;
    [|naive_solver].
  destruct t as [t|]; simpl; [naive_solver|].
  destruct (Z.eqb_spec i 0) as [->|Hi]; simpl; [naive_solver|].
  destruct g as [g|]; [|naive_solver].
  destruct (is_ipv4 g) eqn:?, (net_is_ipv4 d) eqn:?, (is_unspecified g) eqn:?,
    (is_multicast g) eqn:?; simpl; split; try done; try (by naive_solver congruence);
    intros (_ & _ & _ & Hg); specialize (Hg g eq_refl); naive_solver congruence.
Qed.

Lemma validate_apply_routes_ok routes seen :
  is_ok (validate_apply_routes routes seen) = true ↔
  (∀ r, r ∈ routes → route_acceptable r ∧ route_key r ∉ seen) ∧ NoDup (route_key <$> routes).
Proof.
  revert seen. induction routes as [|r routes IH]; intros seen; simpl.
  - split; [|done]. intros _. split; [set_solver|constructor].
  - pose proof (validate_route_ok r) as Hr. unfold rbind.
    destruct (validate_route r) as [[]|e]; simpl in *.
    + destruct (decide _) as [Hin|Hin]; simpl.
      * split; [done|]. intros [Hall _]. destruct (Hall r) as [_ Hn]; [apply list_elem_of_here|].
        by unfold route_key in Hn.
      * rewrite IH, NoDup_cons. split.
        -- intros [Hall Hnd]. split_and!; [| |done].
           ++ intros r' [->|Hr']%elem_of_cons; [split; [by apply Hr|done]|].
              destruct (Hall r' Hr') as [? Hn]. split; [done|].
              intros Hs. by apply Hn, elem_of_union_r.
           ++ intros (r' & Hk & Hr')%list_elem_of_fmap.
              destruct (Hall r' Hr') as [_ Hn]. apply Hn, elem_of_union_l, elem_of_singleton.
              by rewrite <- Hk.
        -- intros [Hall [Hnin Hnd]]. split; [|done]. intros r' Hr'.
           destruct (Hall r') as [? ?]; [by apply list_elem_of_further|]. split; [done|].
           apply not_elem_of_union. split; [|done].
           intros Heq%elem_of_singleton. apply Hnin.
           replace (route_key r) with (route_key r') by done. by apply list_elem_of_fmap_2.
    + split; [done|]. intros [Hall _]. apply Hr, Hall, list_elem_of_here.
Qed.

Lemma validate_iface_name_ok name :
  is_ok (validate_iface_name name) = true ↔ iface_name_acceptable name.
Proof.
  unfold validate_iface_name, iface_name_acceptable.
  rewrite <- forallb_Forall.
  destruct (str_is_empty name) eqn:He; simpl.
  { apply str_is_empty_spec in He as ->. naive_solver. }
  assert (name ≠ EmptyString) by (intros ->; done).
  destruct (Nat.ltb_spec 15 (str_len name)); simpl; [naive_solver lia|].
  destruct (starts_with name "-"); simpl; [naive_solver|].
  destruct (forallb iface_char (chars name)); simpl; naive_solver.
Qed.

Lemma validate_attach_routes_ok routes :
  is_ok (validate_attach_routes routes) = true ↔
  ∀ r g, r ∈ routes → pr_via r = Some g → unicast_next_hop g (pr_destination r).
Proof.
  induction routes as [|r routes IH]; simpl; [set_solver|].
  transitivity ((∀ g, pr_via r = Some g → unicast_next_hop g (pr_destination r)) ∧
    is_ok (validate_attach_routes routes) = true).
  - unfold unicast_next_hop, same_family. destruct (pr_via r) as [g|] eqn:Hvia; [|naive_solver].
    destruct (is_ipv4 g) eqn:?, (net_is_ipv4 (pr_destination r)) eqn:?,
      (is_unspecified g) eqn:?, (is_multicast g) eqn:?; simpl; split; try done;
      try (intros [Hg _]; specialize (Hg g eq_refl); naive_solver congruence);
      naive_solver congruence.
  - rewrite IH. split.
    + intros [H1 H2] r' g [->|Hr']%elem_of_cons; [apply H1|by apply H2].
    + intros Hall. split; [intros g; apply Hall; set_solver|].
      intros r' g Hr'. apply Hall. set_solver.
Qed.

Lemma validate_attach_hosts_ok hosts :
  is_ok (validate_attach_hosts hosts) = true ↔ ∀ host, host ∈ hosts → host_acceptable host.
Proof.
  induction hosts as [|x hosts IH]; simpl; [set_solver|].
  transitivity (host_acceptable x ∧ is_ok (validate_attach_hosts hosts) = true).
  - unfold host_acceptable. rewrite <- forallb_Forall.
    destruct (str_is_empty x) eqn:He; simpl.
    { apply str_is_empty_spec in He as ->. naive_solver. }
    assert (x ≠ EmptyString) by (intros ->; done).
    destruct (Nat.ltb_spec 253 (str_len x)); simpl; [naive_solver lia|].
    unfold is_none, is_Some. destruct (parse_ip x) as [a|]; simpl; [naive_solver|].
    destruct (forallb host_char (chars x)); simpl; naive_solver.
  - rewrite IH. split; [|set_solver].
    intros [H1 H2] y [->|Hy]%elem_of_cons; auto.
Qed.

Lemma validate_apply_ok routes :
  is_ok (validate_apply routes) = true ↔
  (zlen routes ≤ MAX_ROUTES_PER_REQUEST)%Z ∧
  (∀ r, r ∈ routes → route_acceptable r) ∧ NoDup (route_key <$> routes).
Proof.
  unfold validate_apply. destruct (Z.ltb_spec MAX_ROUTES_PER_REQUEST (zlen routes)).
  - simpl. naive_solver lia.
  - rewrite validate_apply_routes_ok. set_solver by lia.
Qed.
End validate.

(** ** Properties *)

(** [routes.apply] validation accepts exactly the well-formed requests:
    at most 8192 routes, each with a masked destination, no table, an
    interface index and a unicast next hop of its family when it has one, and
    no two with the same destination and metric. *)
Theorem validate_apply_spec `{IpNetLib} routes :
  is_ok (validate_apply routes) = true ↔
  (zlen routes ≤ MAX_ROUTES_PER_REQUEST)%Z ∧
  (∀ r, r ∈ routes → route_acceptable r) ∧ NoDup (route_key <$> routes).
Proof. apply validate_apply_ok. Qed.

(** [attach] validation accepts exactly the acceptable specs: an uplink
    spec names no interface, any other names a safe interface unless it has no
    routes; the sizes are bounded; every next hop is unicast and of its
    destination's family; every bypass host is an address or a DNS name. *)
Theorem validate_attach_spec `{IpNetLib} spec :
  is_ok (validate_attach spec) = true ↔ attach_acceptable spec.
Proof.
  unfold validate_attach, attach_acceptable. rewrite is_ok_rbind. f_equiv.
  - destruct (as_uplink spec).
    + by destruct (as_interface_name spec).
    + rewrite <- validate_iface_name_ok. unfold zlen.
      destruct (as_interface_name spec), (as_routes spec); simpl; split; try done;
        try (by right); try (by left); intros [?|[]]; done.
  - destruct (Z.ltb_spec MAX_ROUTES_PER_REQUEST (zlen (as_routes spec))); [simpl; split; [done|lia]|].
    destruct (Z.ltb_spec MAX_ENDPOINT_BYPASSES (zlen (as_endpoint_bypasses spec)));
      [simpl; split; [done|lia]|].
    rewrite is_ok_rbind, validate_attach_routes_ok, validate_attach_hosts_ok. tauto.
Qed.
