(* ===== verification/PrivateStore.v ===== *)
(** * Per-user private stores

    [CondRuleStore], [IntentStore] and [AlwaysOnStore] of [crates/daemon/src/]
    keep one JSON document per uid under [<root>/<uid>/<file>] with the same
    code: directories and file must be the daemon's own and closed to others,
    a document is replaced through a synced temporary file. [StoreConfig]
    holds what differs; the store files instantiate it. *)

From S2P Require Export World.

(** ** [check_private_dir], crates/daemon/src/always_on.rs *)

Definition always_on_invalid_data : io_error :=
  err_new InvalidData "always-on definitions are not safe to load".

(** [metadata.permissions().mode() & 0o077 != 0] *)
Definition open_to_others (m : FileMeta) : bool := negb (Z.eqb (Z.land (fm_mode m) 63) 0).

(** What the documents need of [serde_json]: [to_vec] and [from_slice],
    which are inverse on what was serialized. *)
Class JsonCodec (D : Type) : Type := {
  to_vec : D → option bytes;
  from_slice : bytes → option D;
  from_slice_to_vec d b : to_vec d = Some b → from_slice b = Some d;
}.

Record StoreConfig (D : Type) : Type := mkStoreConfig {
  st_root : path;
  st_file : string;
  st_temp : string;
  st_max_bytes : Z;
  st_default : D;
  (** the version and size checks on a loaded document *)
  st_acceptable : D → bool;
  (** what [save] writes for a document *)
  st_stamp : D → D;
  st_invalid_data : io_error;
}.
Arguments st_root {D}. Arguments st_file {D}. Arguments st_temp {D}.
Arguments st_max_bytes {D}. Arguments st_default {D}. Arguments st_acceptable {D}.
Arguments st_stamp {D}. Arguments st_invalid_data {D}.

(** [name.parse::<u32>()] *)
Definition parse_u32 (s : string) : option Z := parse_uint 4294967296 s.

Section ops.
Context `{Env} {S : Type}.

Definition check_private_dir (p : path) (create : bool) : M S (io_result bool) :=
  let! first := call (FsMetadata p) in
  let! metadata :=
    match first with
    | Ok metadata => ret (Ok (Some metadata))
    | Err err =>
      if has_kind NotFound err && create then
        let? _ := call (FsCreateDir p 448) in
        let? metadata := call (FsMetadata p) in
        ret (Ok (Some metadata))
      else if has_kind NotFound err then ret (Ok None)
      else fail err
    end in
  match metadata with
  | Err err => fail err
  | Ok None => ret (Ok false)
  | Ok (Some metadata) =>
    if negb (fm_is_dir metadata) || fm_is_symlink metadata then fail always_on_invalid_data
    else
      let! euid := call Geteuid in
      if negb (Z.eqb (fm_uid metadata) euid) || open_to_others metadata
      then fail always_on_invalid_data
      else ret (Ok true)
  end.

Section store.
Context {D : Type} `{JsonCodec D} (cfg : StoreConfig D).

Definition uid_dir (uid : Z) : path := st_root cfg ++ [show_Z uid].
Definition doc_path (uid : Z) : path := uid_dir uid ++ [st_file cfg].
Definition temp_path (uid : Z) : path := uid_dir uid ++ [st_temp cfg].

Definition store_load_uid (uid : Z) : M S (io_result D) :=
  let? root_ok := check_private_dir (st_root cfg) false in
  if negb root_ok then ret (Ok (st_default cfg)) else
  let? dir_ok := check_private_dir (uid_dir uid) false in
  if negb dir_ok then ret (Ok (st_default cfg)) else
  let! first := call (FsMetadata (doc_path uid)) in
  match first with
  | Err err => if has_kind NotFound err then ret (Ok (st_default cfg)) else fail err
  | Ok metadata =>
    if negb (fm_is_file metadata) || fm_is_symlink metadata
    then fail (st_invalid_data cfg)
    else
      let! euid := call Geteuid in
      if negb (Z.eqb (fm_uid metadata) euid) || open_to_others metadata
         || Z.ltb (st_max_bytes cfg) (fm_len metadata)
      then fail (st_invalid_data cfg)
      else
        let? contents := call (FsRead (doc_path uid)) in
        if Z.ltb (st_max_bytes cfg) (zlen contents) then fail (st_invalid_data cfg)
        else match from_slice contents with
             | None => fail (st_invalid_data cfg)
             | Some document =>
               if st_acceptable cfg document then ret (Ok document)
               else fail (st_invalid_data cfg)
             end
  end.

Definition store_save (uid : Z) (document : D) : M S (io_result unit) :=
  let? _ := check_private_dir (st_root cfg) true in
  let? _ := check_private_dir (uid_dir uid) true in
  match to_vec (st_stamp cfg document) with
  | None => fail (st_invalid_data cfg)
  | Some contents =>
    if Z.ltb (st_max_bytes cfg) (zlen contents) then fail (st_invalid_data cfg) else
    let! removed := call (FsRemoveFile (temp_path uid)) in
    let? _ :=
      match removed with
      | Ok _ => ret (Ok tt)
      | Err err => if has_kind NotFound err then ret (Ok tt) else fail err
      end in
    let? _ := call (FsCreateNew (temp_path uid) 384) in
    let? _ := call (FsWriteAll (temp_path uid) contents) in
    let? _ := call (FsSyncAll (temp_path uid)) in
    let? _ := call (FsRename (temp_path uid) (doc_path uid)) in
    call (FsSyncAll (uid_dir uid))
  end.

(** The names of the root that read as a uid, in increasing order. *)
Fixpoint collect_uids (entries : list (io_result (option string))) (uids : list Z)
    : io_result (list Z) :=
  match entries with
  | [] => Ok uids
  | Err err :: _ => Err err
  | Ok name :: rest =>
    match name ≫= parse_u32 with
    | Some uid => collect_uids rest (uids ++ [uid])
    | None => collect_uids rest uids
    end
  end.

Definition store_load_all : M S (io_result (list (Z * io_result D))) :=
  let? root_ok := check_private_dir (st_root cfg) false in
  if negb root_ok then ret (Ok []) else
  let? entries := call (FsReadDir (st_root cfg)) in
  let? uids := lift (collect_uids entries []) in
  let! documents :=
    for_acc (sort_by Z.leb uids) [] (λ acc uid,
      let! document := store_load_uid uid in
      ret (acc ++ [(uid, document)])) in
  ret (Ok documents).

End store.
End ops.

(** ** Lemmas *)

(** A directory or file of the daemon's own, closed to everybody else. *)
Definition private_meta (m : FileMeta) (euid : Z) : Prop :=
  fm_is_symlink m = false ∧ fm_uid m = euid ∧ open_to_others m = false.

(** [h'] extends [h]. *)
Definition extends (h h' : history) : Prop := ∃ k, h' = k ++ h.

Lemma extends_refl h : extends h h.
Proof. by exists []. Qed.
Lemma extends_cons e h h' : extends h h' → extends h (e :: h').
Proof. intros [k ->]. by exists (e :: k). Qed.
Lemma extends_trans h h' h'' : extends h h' → extends h' h'' → extends h h''.
Proof. intros [k ->] [k' ->]. exists (k' ++ k). by rewrite app_assoc. Qed.

Create HintDb extends discriminated.
#[export] Hint Resolve extends_refl extends_cons extends_trans : extends.

Lemma extends_elem h h' e : extends h h' → e ∈ h → e ∈ h'.
Proof. intros [k ->] He. apply elem_of_app. by right. Qed.

Section lemmas.
Context `{Env} {S : Type}.

Lemma wp_check_private_dir p create (s : S) h :
  wp (check_private_dir p create) (λ r s' h', s' = s ∧ extends h h' ∧
    (r = Ok true → ∃ m euid, Ev (FsMetadata p) (Ok m) ∈ h' ∧ Ev Geteuid euid ∈ h' ∧
       fm_is_dir m = true ∧ private_meta m euid)) s h.
Proof.
  assert (∀ metadata h0, extends h h0 → Ev (FsMetadata p) (Ok metadata) ∈ h0 →
    wp (if negb (fm_is_dir metadata) || fm_is_symlink metadata then fail always_on_invalid_data
        else let! euid := call Geteuid in
          if negb (Z.eqb (fm_uid metadata) euid) || open_to_others metadata
          then fail always_on_invalid_data else ret (Ok true))
      (λ r s' h', s' = s ∧ extends h h' ∧
        (r = Ok true → ∃ m euid, Ev (FsMetadata p) (Ok m) ∈ h' ∧ Ev Geteuid euid ∈ h' ∧
           fm_is_dir m = true ∧ private_meta m euid)) s h0) as Hmeta.
  { intros m h0 Hext Hm. destruct (fm_is_dir m) eqn:?; simpl; [|by wp_steps].
    destruct (fm_is_symlink m) eqn:?; simpl; [by wp_steps|]. wp_steps.
    destruct (Z.eqb_spec (fm_uid m) a); simpl; [|wp_steps; split_and!; [done|by apply extends_cons|done]].
    destruct (open_to_others m) eqn:?; wp_steps; (split_and!; [done|by apply extends_cons|]); [done|].
    intros _. exists m, a. unfold private_meta. split_and!; try done; set_solver. }
  unfold check_private_dir. wp_steps. destruct a as [m|err].
  - wp_steps. apply Hmeta; [eauto with extends|set_solver].
  - destruct (has_kind NotFound err); simpl; [destruct create; simpl|].
    + wp_steps. destruct a as [[]|e]; wp_steps.
      * destruct a as [m|e]; wp_steps; [apply Hmeta; [eauto with extends|set_solver]|].
        split_and!; [done|eauto 6 with extends|done].
      * split_and!; [done|eauto 6 with extends|done].
    + wp_steps. split_and!; [done|eauto with extends|done].
    + wp_steps. split_and!; [done|eauto with extends|done].
Qed.

Context {D : Type} `{JsonCodec D} (cfg : StoreConfig D).

(** A loaded document is the default, or was read from a private regular
    file inside private directories, within the size limits. *)
Definition loaded_safely (uid : Z) (document : D) (h : history) : Prop :=
  document = st_default cfg ∨
  ∃ root_m dir_m m contents euid0 euid1 euid2,
    Ev (FsMetadata (st_root cfg)) (Ok root_m) ∈ h ∧ Ev Geteuid euid0 ∈ h ∧
    fm_is_dir root_m = true ∧ private_meta root_m euid0 ∧
    Ev (FsMetadata (uid_dir cfg uid)) (Ok dir_m) ∈ h ∧ Ev Geteuid euid1 ∈ h ∧
    fm_is_dir dir_m = true ∧ private_meta dir_m euid1 ∧
    Ev (FsMetadata (doc_path cfg uid)) (Ok m) ∈ h ∧ Ev Geteuid euid2 ∈ h ∧
    fm_is_file m = true ∧ private_meta m euid2 ∧ (fm_len m ≤ st_max_bytes cfg)%Z ∧
    Ev (FsRead (doc_path cfg uid)) (Ok contents) ∈ h ∧
    (zlen contents ≤ st_max_bytes cfg)%Z ∧ from_slice contents = Some document ∧
    st_acceptable cfg document = true.

Lemma loaded_safely_acceptable uid document h :
  loaded_safely uid document h →
  document = st_default cfg ∨ st_acceptable cfg document = true.
Proof.
  intros [->|Hd]; [by left|]. destruct Hd as (? & ? & ? & ? & ? & ? & ? & ? & Hd).
  right. tauto.
Qed.

Lemma wp_store_load_uid uid (s : S) h :
  wp (store_load_uid cfg uid) (λ r s' h', s' = s ∧ extends h h' ∧
    match r with Ok d => loaded_safely uid d h' | Err _ => True end) s h.
Proof.
  unfold store_load_uid. wp_steps.
  eapply wp_mono; [|apply wp_check_private_dir]. intros r1 s1 h1 (-> & Hx1 & Hr1).
  destruct r1 as [b1|e1]; [|done]. destruct b1; simpl; [|wp_steps; by split_and!; [| |left]].
  destruct Hr1 as (rm & eu0 & H1 & H2 & H3 & H4); [done|].
  wp_steps. eapply wp_mono; [|apply wp_check_private_dir]. intros r2 s2 h2 (-> & Hx2 & Hr2).
  destruct r2 as [b2|e2]; [|split_and!; eauto with extends].
  destruct b2; simpl; [|wp_steps; split_and!; [done|eauto with extends|by left]].
  destruct Hr2 as (dm & eu1 & H5 & H6 & H7 & H8); [done|].
  assert (extends h h2) as Hx by eauto with extends.
  apply (extends_elem _ _ _ Hx2) in H1, H2.
  wp_steps. destruct a as [m|err].
  2:{ destruct (has_kind NotFound err); wp_steps; split_and!; try done;
      [eauto with extends|by left|eauto with extends]. }
  destruct (fm_is_file m) eqn:Hf; simpl;
    [|wp_steps; split_and!; [done|eauto with extends|done]].
  destruct (fm_is_symlink m) eqn:Hl; simpl;
    [wp_steps; split_and!; [done|eauto with extends|done]|].
  wp_steps.
  destruct (Z.eqb_spec (fm_uid m) a) as [Hu|]; simpl;
    [|wp_steps; split_and!; [done|eauto with extends|done]].
  destruct (open_to_others m) eqn:Ho; simpl;
    [wp_steps; split_and!; [done|eauto with extends|done]|].
  destruct (Z.ltb_spec (st_max_bytes cfg) (fm_len m)); simpl;
    [wp_steps; split_and!; [done|eauto with extends|done]|].
  wp_steps. destruct a0 as [contents|e]; [|split_and!; [done|eauto with extends|done]].
  destruct (Z.ltb_spec (st_max_bytes cfg) (zlen contents));
    [wp_steps; split_and!; [done|eauto 6 with extends|done]|].
  destruct (from_slice contents) as [d|] eqn:Hd;
    [|wp_steps; split_and!; [done|eauto 6 with extends|done]].
  destruct (st_acceptable cfg d) eqn:Ha; wp_steps;
    (split_and!; [done|eauto 6 with extends|]); [|done].
  right. exists rm, dm, m, contents, eu0, eu1, a.
  unfold private_meta in *. split_and!; try tauto; try done; set_solver.
Qed.
End lemmas.

Section save_lemmas.
Context `{Env} {S : Type} {D : Type} `{JsonCodec D} (cfg : StoreConfig D).

(** The calls that replace the document: temporary file created exclusively
    with mode 0600, written, synced, renamed over the document, directory
    synced. *)
Definition replaced (uid : Z) (contents : bytes) (h' : history) : Prop :=
  ∃ h0, h' = Ev (FsSyncAll (uid_dir cfg uid)) (Ok tt)
          :: Ev (FsRename (temp_path cfg uid) (doc_path cfg uid)) (Ok tt)
          :: Ev (FsSyncAll (temp_path cfg uid)) (Ok tt)
          :: Ev (FsWriteAll (temp_path cfg uid) contents) (Ok tt)
          :: Ev (FsCreateNew (temp_path cfg uid) 384) (Ok tt) :: h0.

Lemma wp_store_save uid d (s : S) h :
  wp (store_save cfg uid d) (λ r s' h', s' = s ∧ extends h h' ∧
    match r with
    | Ok _ => ∃ contents, to_vec (st_stamp cfg d) = Some contents ∧
        (zlen contents ≤ st_max_bytes cfg)%Z ∧ replaced uid contents h'
    | Err _ => True
    end) s h.
Proof.
  unfold store_save. wp_steps.
  eapply wp_mono; [|apply wp_check_private_dir]. intros [b1|e1] s1 h1 (-> & Hx1 & _);
    [|by split_and!].
  wp_steps. eapply wp_mono; [|apply wp_check_private_dir]. intros [b2|e2] s2 h2 (-> & Hx2 & _);
    [|split_and!; eauto with extends].
  assert (extends h h2) as Hx by eauto with extends.
  destruct (to_vec (st_stamp cfg d)) as [contents|] eqn:Hc;
    [|wp_steps; split_and!; eauto with extends].
  destruct (Z.ltb_spec (st_max_bytes cfg) (zlen contents));
    [wp_steps; split_and!; eauto with extends|].
  wp_steps.
  assert (∀ h3, extends h h3 → wp
    (let? _ := call (FsCreateNew (temp_path cfg uid) 384) in
     let? _ := call (FsWriteAll (temp_path cfg uid) contents) in
     let? _ := call (FsSyncAll (temp_path cfg uid)) in
     let? _ := call (FsRename (temp_path cfg uid) (doc_path cfg uid)) in
     call (FsSyncAll (uid_dir cfg uid)))
    (λ r s' h', s' = s ∧ extends h h' ∧
      match r with
      | Ok _ => ∃ contents0, Some contents = Some contents0 ∧
          (zlen contents0 ≤ st_max_bytes cfg)%Z ∧ replaced uid contents0 h'
      | Err _ => True
      end) s h3) as Hwrite.
  { intros h3 Hx3. wp_steps. destruct a0 as [[]|e]; [|split_and!; eauto with extends].
    wp_steps. destruct a0 as [[]|e]; [|split_and!; eauto 6 with extends].
    wp_steps. destruct a0 as [[]|e]; [|split_and!; eauto 6 with extends].
    wp_steps. destruct a0 as [[]|e]; [|split_and!; eauto 8 with extends].
    wp_steps. split_and!; [done|eauto 8 with extends|].
    destruct a0 as [[]|e]; [|done]. exists contents. split_and!; [done|done|]. by eexists. }
  destruct a as [u|e]; [|destruct (has_kind NotFound e)]; wp_step.
  - apply Hwrite. eauto with extends.
  - apply Hwrite. eauto with extends.
  - split_and!; eauto with extends.
Qed.
End save_lemmas.
