(* ===== verification/CondRules.v ===== *)
(** * Conditional route rules: [crates/daemon/src/cond_rules.rs]

    Rules that install routes while a local interface has an address inside
    a prefix: the matching, the routes planned, the validation and the
    per-user store. *)

From S2P Require Export PrivateStore Validate.

Definition OWNER_PREFIX : string := "cond:".

Definition VERSION : Z := 1.
Definition MAX_DOCUMENT_BYTES : Z := 1048576.
Definition MAX_RULES : Z := 32.
Definition MAX_RULE_ROUTES : Z := 256.
Definition MAX_ID_BYTES : Z := 48.
Definition MAX_NAME_BYTES : Z := 128.

Definition NON_UPLINK_PREFIXES : list string :=
  ["lo"; "wg"; "xray"; "ovpn"; "tun"; "tap"; "tailscale"; "happ"; "docker"; "veth"; "br-";
   "virbr"; "vnet"; "podman"; "cni"; "flannel"; "lxc"; "ppp"; "gre"; "gretap"; "erspan";
   "ipip"; "sit"; "ip6tnl"; "vti"; "ifb"; "dummy"; "vcan"; "vxcan"; "nlmon"; "zt"].

Definition non_uplink_name (name : string) : bool :=
  existsb (λ prefix, starts_with name prefix) NON_UPLINK_PREFIXES.

Record CondRulesDocument : Type := mkCondRulesDocument {
  cd_version : Z;
  cd_rules : list ConditionalRouteRule;
}.

Definition cond_rules_default : CondRulesDocument := mkCondRulesDocument VERSION [].

Definition cond_invalid_data : io_error :=
  err_new InvalidData "conditional rules are not safe to load".

Section matching.
Context `{IpNetLib}.

Definition address_matches (prefix : IpNet) (owned_ifindices : gset Z) (addr : IfaceAddr) : bool :=
  Z.eqb (ia_scope addr) 0
  && negb (Z.eqb (ia_ifindex addr) 0)
  && negb (bool_decide (ia_ifindex addr ∈ owned_ifindices))
  && negb (non_uplink_name (ia_name addr))
  && contains_ip prefix (net_addr (ia_address addr)).

Definition match_interface (addrs : list IfaceAddr) (prefix : IpNet) (owned_ifindices : gset Z)
    : option (Z * string) :=
  (λ addr, (ia_ifindex addr, ia_name addr)) <$>
    min_by_key ia_ifindex (bfilter (address_matches prefix owned_ifindices) addrs).

Definition plan_routes (rule : ConditionalRouteRule) (ifindex : Z) : list AppliedRoute :=
  map (λ route,
    {| ar_destination := pr_destination route;
       ar_interface_index := ifindex;
       ar_metric := pr_metric route;
       ar_gateway := pr_via route;
       ar_table := None |}) (cr_routes rule).

Definition validate_policy_route (route : PolicyRoute) : result unit text :=
  if negb (trunc (pr_destination route) =b pr_destination route)
  then Err [TStr "destination "; TNet (pr_destination route); TStr " has host bits set"]
  else match pr_via route with
       | Some via =>
         if negb (same_family via (pr_destination route))
         then Err [TStr "gateway "; TIp via; TStr " is not in the address family of ";
                   TNet (pr_destination route)]
         else if is_unspecified via || is_multicast via
         then Err [TStr "gateway "; TIp via; TStr " must be a unicast address"]
         else Ok tt
       | None => Ok tt
       end.

Fixpoint validate_rule_routes (routes : list PolicyRoute) (seen : gset (IpNet * Z))
    : result unit text :=
  match routes with
  | [] => Ok tt
  | route :: rest =>
    _ <-? validate_policy_route route;
    if decide ((pr_destination route, pr_metric route) ∈ seen)
    then Err [TStr "duplicate route "; TNet (pr_destination route); TStr " with metric ";
              TNum (pr_metric route)]
    else validate_rule_routes rest ({[(pr_destination route, pr_metric route)]} ∪ seen)
  end.

Definition id_char (c : Z) : bool :=
  is_ascii_alphanumeric c || Z.eqb c (ch ".") || Z.eqb c (ch "_") || Z.eqb c (ch "-").

Definition validate_rule (rule : ConditionalRouteRule) : result unit text :=
  let id := cr_id rule in
  if str_is_empty id
     || Z.ltb MAX_ID_BYTES (Z.of_nat (str_len id))
     || negb (is_some_and is_ascii_alphanumeric (head (chars id)))
     || negb (forallb id_char (chars id))
  then Err [TStr "rule id must be 1-"; TNum MAX_ID_BYTES;
            TStr " bytes of [a-zA-Z0-9._-] starting with a letter or digit"]
  else if str_is_empty (cr_name rule)
     || Z.ltb MAX_NAME_BYTES (Z.of_nat (str_len (cr_name rule)))
     || existsb is_control (chars (cr_name rule))
  then Err [TStr "rule name must be 1-"; TNum MAX_NAME_BYTES;
            TStr " bytes without control characters"]
  else match cr_condition rule with
       | InterfaceAddressIn prefix =>
         if negb (trunc prefix =b prefix)
         then Err [TStr "condition prefix "; TNet prefix; TStr " has host bits set"]
         else if Z.eqb (zlen (cr_routes rule)) 0 || Z.ltb MAX_RULE_ROUTES (zlen (cr_routes rule))
         then Err [TStr "a rule needs 1-"; TNum MAX_RULE_ROUTES; TStr " routes, got ";
                   TNum (zlen (cr_routes rule))]
         else validate_rule_routes (cr_routes rule) ∅
       end.
End matching.

(** ** [CondRuleStore] *)

Section store.
Context `{Env} {S : Type} `{JsonCodec CondRulesDocument} (root : path).

Definition cond_store : StoreConfig CondRulesDocument := {|
  st_root := root;
  st_file := "rules.json";
  st_temp := "rules.json.tmp";
  st_max_bytes := MAX_DOCUMENT_BYTES;
  st_default := cond_rules_default;
  st_acceptable d := Z.eqb (cd_version d) VERSION && Z.leb (zlen (cd_rules d)) MAX_RULES;
  st_stamp d := d;
  st_invalid_data := cond_invalid_data;
|}.

Definition load_uid (uid : Z) : M S (io_result CondRulesDocument) :=
  store_load_uid cond_store uid.

Definition save (uid : Z) (document : CondRulesDocument) : M S (io_result unit) :=
  store_save cond_store uid document.

Definition load_all : M S (io_result (list (Z * io_result CondRulesDocument))) :=
  store_load_all cond_store.

Definition load_all_rules : M S (io_result (list (Z * ConditionalRouteRule))) :=
  let? documents := load_all in
  ret (Ok (concat (map (λ '(uid, document),
    match document with
    | Ok document => map (λ rule, (uid, rule)) (cd_rules document)
    | Err _ => []
    end) documents))).

(** The update of the document: [None] when the rule is already there. *)
Definition upsert_document (document : CondRulesDocument) (rule : ConditionalRouteRule)
    : io_result (option CondRulesDocument) :=
  match position (λ item, cr_id item =b cr_id rule) (cd_rules document) with
  | Some i =>
    match cd_rules document !! i with
    | Some existing =>
      if existing =b rule then Ok None
      else Ok (Some (mkCondRulesDocument (cd_version document) (<[i := rule]> (cd_rules document))))
    | None => Ok None
    end
  | None =>
    if Z.leb MAX_RULES (zlen (cd_rules document)) then Err cond_invalid_data
    else Ok (Some (mkCondRulesDocument (cd_version document) (cd_rules document ++ [rule])))
  end.

Definition upsert (uid : Z) (rule : ConditionalRouteRule) : M S (io_result bool) :=
  let? document := load_uid uid in
  let? updated := lift (upsert_document document rule) in
  match updated with
  | None => ret (Ok false)
  | Some document =>
    let? _ := save uid document in
    ret (Ok true)
  end.

Definition remove (uid : Z) (rule_id : string) : M S (io_result bool) :=
  let? document := load_uid uid in
  let rules := bfilter (λ rule, negb (cr_id rule =b rule_id)) (cd_rules document) in
  if Nat.eqb (length rules) (length (cd_rules document)) then ret (Ok false) else
  let? _ := save uid (mkCondRulesDocument (cd_version document) rules) in
  ret (Ok true).

End store.

(** ** Lemmas *)

Section matching_lemmas.
Context `{IpNetLib}.

Lemma address_matches_spec prefix owned a :
  address_matches prefix owned a = true ↔
  ia_scope a = 0%Z ∧ ia_ifindex a ≠ 0%Z ∧ ia_ifindex a ∉ owned ∧
  non_uplink_name (ia_name a) = false ∧ contains_ip prefix (net_addr (ia_address a)) = true.
Proof.
  unfold address_matches. rewrite !andb_true_iff, !negb_true_iff, Z.eqb_eq, Z.eqb_neq,
    bool_decide_eq_false. tauto.
Qed.

(** What a rule may plan: routes of a validated rule are valid requests. *)
Lemma validate_policy_route_ok r :
  is_ok (validate_policy_route r) = true →
  trunc (pr_destination r) = pr_destination r ∧
  ∀ g, pr_via r = Some g → unicast_next_hop g (pr_destination r).
Proof.
  unfold validate_policy_route, unicast_next_hop, same_family.
  case_bool_decide as Ht; simpl; [|done]. intros Hok. split; [done|].
  intros g Hg. rewrite Hg in Hok.
  destruct (is_ipv4 g) eqn:?, (net_is_ipv4 (pr_destination r)) eqn:?,
    (is_unspecified g), (is_multicast g); done.
Qed.

Lemma validate_rule_routes_ok routes seen :
  is_ok (validate_rule_routes routes seen) = true →
  (∀ r, r ∈ routes → is_ok (validate_policy_route r) = true ∧
     (pr_destination r, pr_metric r) ∉ seen) ∧
  NoDup ((λ r, (pr_destination r, pr_metric r)) <$> routes).
Proof.
  revert seen. induction routes as [|r routes IH]; intros seen Hok; simpl in *.
  - split; [|constructor]. intros r Hr. by apply elem_of_nil in Hr.
  - destruct (validate_policy_route r) as [[]|] eqn:Hr; [|done]. simpl in Hok.
    destruct (decide _) as [|Hin]; [done|]. apply IH in Hok as [H1 H2]. split.
    + intros r' [->|Hr']%elem_of_cons; [by rewrite Hr|].
      destruct (H1 r' Hr') as [? Hn]. split; [done|]. intros Hs. by apply Hn, elem_of_union_r.
    + constructor; [|done]. intros (r' & Hk & Hr')%list_elem_of_fmap.
      destruct (H1 r' Hr') as [_ Hn]. apply Hn, elem_of_union_l, elem_of_singleton. by rewrite Hk.
Qed.
End matching_lemmas.

(** ** Properties *)

(** The interface of a rule: the match is an interface that has a global
    address inside the prefix, is not the daemon's and does not look like a
    tunnel; among those it has the lowest index; and there is no match only
    when no interface qualifies. *)
Theorem match_interface_spec `{IpNetLib} addrs prefix owned :
  match match_interface addrs prefix owned with
  | Some (ifindex, name) =>
    (∃ a, a ∈ addrs ∧ address_matches prefix owned a = true ∧
       ia_ifindex a = ifindex ∧ ia_name a = name) ∧
    ifindex ∉ owned ∧ non_uplink_name name = false ∧
    ∀ a, a ∈ addrs → address_matches prefix owned a = true → (ifindex ≤ ia_ifindex a)%Z
  | None => ∀ a, a ∈ addrs → address_matches prefix owned a = false
  end.
Proof.
  unfold match_interface.
  destruct (min_by_key ia_ifindex _) as [a|] eqn:Hmin; simpl.
  - apply min_by_key_spec in Hmin as [Hin Hle].
    apply elem_of_bfilter in Hin as [Hm Hin].
    pose proof Hm as (_ & _ & Hown & Hname & _)%address_matches_spec.
    split_and!; try done; [by exists a|].
    intros b Hb Hbm. apply Hle, elem_of_bfilter. done.
  - apply min_by_key_none in Hmin. intros a Ha.
    destruct (address_matches prefix owned a) eqn:Hm; [|done].
    assert (a ∈ bfilter (address_matches prefix owned) addrs) as Hin by by apply elem_of_bfilter.
    rewrite Hmin in Hin. by apply elem_of_nil in Hin.
Qed.

(** A rule [condRules.put] accepts plans only requests [routes.apply]
    would accept, whatever interface it matches: the daemon never journals a
    malformed conditional route. *)
Theorem validated_rule_plans_valid_routes `{IpNetLib} rule ifindex
    (Hrule : is_ok (validate_rule rule) = true) (Hindex : ifindex ≠ 0%Z) :
  is_ok (validate_apply (plan_routes rule ifindex)) = true.
Proof.
  unfold validate_rule in Hrule. destruct (cr_condition rule) as [prefix].
  repeat (case_match; [done|]).
  apply validate_rule_routes_ok in Hrule as [Hall Hnd].
  apply validate_apply_ok. split_and!.
  - unfold plan_routes, zlen. rewrite length_map.
    apply orb_false_iff in H3 as [_ Hlen]. unfold zlen, MAX_RULE_ROUTES, MAX_ROUTES_PER_REQUEST in *.
    lia.
  - intros r (p & -> & Hp)%list_elem_of_fmap.
    destruct (Hall p Hp) as [[Ht Hg]%validate_policy_route_ok _]. by split_and!.
  - replace (route_key <$> plan_routes rule ifindex)
      with ((λ r, (pr_destination r, pr_metric r)) <$> cr_routes rule); [done|].
    unfold plan_routes. by rewrite <- list_fmap_compose.
Qed.

Lemma validated_rule_plans_valid_routes_witness :
  let rule := mkCondRule "office-1" "Office" true (InterfaceAddressIn (mkNet (ip4 10 1 0 0) 16))
                [mkPolicyRoute (mkNet (ip4 10 9 0 0) 16) 50 (Some (ip4 10 1 0 1))] in
  is_ok (validate_rule (H := ipnet_model) rule) = true ∧
  is_ok (validate_apply (H := ipnet_model) (plan_routes rule 3)) = true.
Proof.
  split; [vm_compute; reflexivity|].
  apply (validated_rule_plans_valid_routes (H := ipnet_model)); [vm_compute; reflexivity|lia].
Defined.

(** In any world, a conditional-rule document that [load_uid] returns is
    the empty default or was parsed from a regular file of the daemon's own,
    closed to others and of bounded size, inside directories of the same kind,
    has the current version and at most 32 rules; and loading changes nothing
    in the daemon. *)
Theorem load_uid_safe `{Env} {S : Type} `{JsonCodec CondRulesDocument} root uid (s : S) h :
  wp (load_uid root uid) (λ r s' h', s' = s ∧ extends h h' ∧
    match r with
    | Ok d => loaded_safely (cond_store root) uid d h' ∧
        cd_version d = VERSION ∧ (zlen (cd_rules d) ≤ MAX_RULES)%Z
    | Err _ => True
    end) s h.
Proof.
  eapply wp_mono; [|apply (wp_store_load_uid (cond_store root))].
  intros [d|e] s' h' (-> & Hx & Hd); split_and!; try done;
    destruct (loaded_safely_acceptable _ _ _ _ Hd) as [->|Hacc]; try done;
    simpl in Hacc; apply andb_true_iff in Hacc as [Hv Hl]; lia.
Qed.
