(* ===== verification/Intents.v ===== *)
(** * The routing-intent store: [crates/daemon/src/intents.rs]

    One document per user with the routing intents the user declared. The
    daemon replays them at start. *)

From S2P Require Export PrivateStore.

Definition VERSION : Z := 1.
Definition MAX_DOCUMENT_BYTES : Z := 262144.
Definition MAX_INTENTS : Z := 64.
Definition MAX_DESTINATIONS : Z := 512.

Record IntentDocument : Type := mkIntentDocument {
  id_version : Z;
  id_intents : list NetIntentSetParams;
}.

(** The derived [Default]: version 0. *)
Definition intent_default : IntentDocument := mkIntentDocument 0 [].

Definition intent_invalid_data : io_error :=
  err_new InvalidData "intent store is not safe to load".

(** The checks of [load_uid] on the parsed document. *)
Definition intent_acceptable (d : IntentDocument) : bool :=
  negb (negb (Z.eqb (id_version d) VERSION)
        || Z.ltb MAX_INTENTS (zlen (id_intents d))
        || existsb (λ intent, Z.ltb MAX_DESTINATIONS (zlen (is_destinations intent)))
             (id_intents d)).

Section store.
Context `{Env} {S : Type} `{JsonCodec IntentDocument} (root : path).

Definition intent_store : StoreConfig IntentDocument := {|
  st_root := root;
  st_file := "intents.json";
  st_temp := "intents.json.tmp";
  st_max_bytes := MAX_DOCUMENT_BYTES;
  st_default := intent_default;
  st_acceptable := intent_acceptable;
  st_stamp d := mkIntentDocument VERSION (id_intents d);
  st_invalid_data := intent_invalid_data;
|}.

Definition load_uid (uid : Z) : M S (io_result IntentDocument) :=
  store_load_uid intent_store uid.

Definition save (uid : Z) (document : IntentDocument) : M S (io_result unit) :=
  store_save intent_store uid document.

(** An unreadable store counts as empty here. *)
Definition load_all : M S (io_result (list (Z * IntentDocument))) :=
  let? documents := store_load_all intent_store in
  ret (Ok (map (λ '(uid, document),
    match document with
    | Ok document => (uid, document)
    | Err _ => (uid, intent_default)
    end) documents)).

Definition upsert_document (document : IntentDocument) (intent : NetIntentSetParams)
    : io_result IntentDocument :=
  match position (λ item, is_id item =b is_id intent) (id_intents document) with
  | Some i => Ok (mkIntentDocument (id_version document) (<[i := intent]> (id_intents document)))
  | None =>
    if Z.leb MAX_INTENTS (zlen (id_intents document)) then Err intent_invalid_data
    else Ok (mkIntentDocument (id_version document) (id_intents document ++ [intent]))
  end.

Definition upsert (uid : Z) (intent : NetIntentSetParams) : M S (io_result unit) :=
  let? document := load_uid uid in
  let? document := lift (upsert_document document intent) in
  save uid document.

Definition remove (uid : Z) (id : string) : M S (io_result bool) :=
  let? document := load_uid uid in
  let intents := bfilter (λ intent, negb (is_id intent =b id)) (id_intents document) in
  if Nat.eqb (length intents) (length (id_intents document)) then ret (Ok false) else
  let? _ := save uid (mkIntentDocument (id_version document) intents) in
  ret (Ok true).

End store.

(** ** Properties *)

(** What [upsert] writes loads again exactly when the new intent is
    within the 512 destinations the loader allows: [upsert] checks the number
    of intents but not their size, so a larger intent is stored and makes the
    user's whole store unreadable from then on. *)
Theorem upsert_document_loadable root document intent
    (Hdoc : intent_acceptable (st_stamp (intent_store root) document) = true) :
  match upsert_document document intent with
  | Ok document' =>
    intent_acceptable (st_stamp (intent_store root) document') =
      Z.leb (zlen (is_destinations intent)) MAX_DESTINATIONS
  | Err _ => (MAX_INTENTS ≤ zlen (id_intents document))%Z ∧
      ∀ item, item ∈ id_intents document → is_id item ≠ is_id intent
  end.
Proof.
  unfold intent_acceptable in *. simpl in *.
  apply negb_true_iff, orb_false_iff in Hdoc as [Hlen Hall].
  unfold upsert_document.
  destruct (position _ _) as [i|] eqn:Hpos.
  - apply position_Some in Hpos as [(item & Hi & _) _]. simpl.
    unfold zlen in *. rewrite length_insert, Hlen. simpl.
    rewrite (insert_take_drop _ i) by (by eapply lookup_lt_Some).
    rewrite existsb_app. simpl.
    rewrite <- (take_drop i (id_intents document)) in Hall.
    rewrite (drop_S _ item i Hi), existsb_app in Hall. simpl in Hall.
    apply orb_false_iff in Hall as [H1 [_ H2]%orb_false_iff].
    rewrite H1, H2, orb_false_r. simpl. symmetry. apply Z.leb_antisym.
  - destruct (Z.leb_spec MAX_INTENTS (zlen (id_intents document))) as [Hm|Hm].
    + split; [done|]. rewrite position_None in Hpos. intros item Hitem Heq.
      specialize (Hpos item Hitem). by apply bool_decide_eq_false in Hpos.
    + simpl. unfold zlen in *. rewrite length_app, existsb_app, Hall. simpl.
      rewrite orb_false_r.
      destruct (Z.ltb_spec MAX_INTENTS (Z.of_nat (length (id_intents document) + 1))); [lia|].
      simpl. symmetry. apply Z.leb_antisym.
Qed.

Lemma upsert_document_loadable_witness :
  let path := mkIntentPath "interface" (Some "wg0") None in
  let small := mkIntentSet "a" ["10.0.0.0/8"] path None None in
  let big := mkIntentSet "b" (replicate 513 "10.0.0.0/8") path None None in
  intent_acceptable (mkIntentDocument VERSION [small]) = true ∧
  ∃ stored, upsert_document (mkIntentDocument VERSION [small]) big = Ok stored ∧
    intent_acceptable stored = false.
Proof.
  intros path small big.
  assert (intent_acceptable (mkIntentDocument VERSION [small]) = true) as Hok by reflexivity.
  split; [exact Hok|].
  exists (mkIntentDocument VERSION [small; big]).
  split; [reflexivity|].
  exact (upsert_document_loadable [] (mkIntentDocument VERSION [small]) big Hok).
Defined.
