(* ===== verification/CoreState.v ===== *)
(** * The daemon core: state and helpers

    [DaemonCore] of [crates/daemon/src/core.rs]: the in-memory ownership
    journal and the runtime maps, with the pure helpers of the file. The
    executors of the struct are the world; [Executors] says which of the
    optional ones are wired. The supervisor maps hold threads, of which the
    core only uses the key. *)

From S2P Require Export CondRules Intents Policy.

(** ** Constants *)

Definition WIREGUARD_REJECT_AFTER_SECS : Z := 180.
Definition WIREGUARD_UNANSWERED_SECS : Z := 20.
Definition MANUAL_OWNER : string := "manual".
Definition INTENT_OWNER_PREFIX : string := "intent:".
Definition INTENT_DEFAULT_METRIC : Z := 100.
Definition RT_TABLE_UNSPEC : Z := 0.
Definition RT_TABLE_MAIN : Z := 254.
Definition RT_TABLE_LOCAL : Z := 255.

(** [crate::netlink::RTPROT_NETWORK_ORCHESTRATOR] *)
Definition RTPROT_NETWORK_ORCHESTRATOR : Z := 79.

(** ** Kernel objects *)

Definition table_name (table : Z) : text :=
  if Z.eqb table RT_TABLE_UNSPEC then txt "unspec"
  else if Z.eqb table RT_TABLE_MAIN then txt "main"
  else if Z.eqb table 253 then txt "default"
  else if Z.eqb table RT_TABLE_LOCAL then txt "local"
  else [TNum table].

(** The kernel stores an IPv6 route of metric 0 with metric 1024. *)
Definition kernel_route (route : AppliedRoute) : AppliedRoute :=
  if is_ipv6 (net_addr (ar_destination route)) && Z.eqb (ar_metric route) 0
  then mkAppliedRoute (ar_destination route) (ar_interface_index route) 1024
         (ar_gateway route) (ar_table route)
  else route.

Definition same_route (system : SystemRoute) (applied : AppliedRoute) : bool :=
  let applied := kernel_route applied in
  (sr_kind system =b "unicast"%string)
  && (sr_destination system =b ar_destination applied)
  && (sr_interface_index system =b Some (ar_interface_index applied))
  && (unwrap_or (sr_metric system) 0%Z =b ar_metric applied)
  && (sr_gateway system =b ar_gateway applied)
  && (sr_table system =b unwrap_or (ar_table applied) RT_TABLE_MAIN).

Definition same_system_route (a b : SystemRoute) : bool :=
  (sr_family a =b sr_family b)
  && (sr_destination a =b sr_destination b)
  && (sr_table a =b sr_table b)
  && (sr_interface_index a =b sr_interface_index b)
  && (sr_gateway a =b sr_gateway b)
  && (unwrap_or (sr_metric a) 0%Z =b unwrap_or (sr_metric b) 0%Z)
  && Nat.eqb (length (sr_nexthops a)) (length (sr_nexthops b))
  && forallb (λ '(x, y), (nh_interface_index x =b nh_interface_index y)
                         && (nh_gateway x =b nh_gateway y))
       (zip (sr_nexthops a) (sr_nexthops b)).

Definition same_rule (system : SystemRule) (owned : OwnedRuleResource) : bool :=
  (ru_family system =b or_family owned)
  && (ru_priority system =b or_priority owned)
  && (ru_table system =b or_table owned)
  && (ru_fwmark system =b or_fwmark owned)
  && Bool.eqb (ru_invert system) (or_invert owned)
  && (ru_suppress_prefix_length system =b or_suppress_prefix_length owned).

(** A default route or one of its def1 halves in a family that is fully
    tunnelled; comparing the printed network compares the network. *)
Definition is_full_route (full_ipv4 full_ipv6 : bool) (destination : IpNet) : bool :=
  if net_is_ipv4 destination then
    full_ipv4 && ((destination =b mkNet (V4 0) 0) || (destination =b mkNet (V4 0) 1)
                  || (destination =b mkNet (ip4 128 0 0 0) 1))
  else
    full_ipv6 && ((destination =b mkNet (V6 0) 0) || (destination =b mkNet (V6 0) 1)
                  || (destination =b mkNet (V6 (Z.shiftl 32768 112)) 1)).

Definition full_policy_rules (full : WireGuardFullResource) : list OwnedRuleResource :=
  concat (map (λ family,
    if ((family =b Ipv4) && negb (wf_ipv4 full)) || ((family =b Ipv6) && negb (wf_ipv6 full))
    then []
    else [mkOwnedRule family (wf_priority_main full) 254 None false (Some 0%Z);
          mkOwnedRule family (wf_priority_tunnel full) (wf_table full)
            (Some (wf_fwmark full)) true None]) [Ipv4; Ipv6]).

(** ** WireGuard handshake supervision *)

Record HandshakeWatch : Type := mkWatch {
  hw_baseline_tx : Z;
  hw_sending_since : option Z;
}.

#[export] Instance HandshakeWatch_eq_dec : EqDecision HandshakeWatch.
Proof. solve_decision. Defined.

(** [u64::saturating_sub] *)
Definition saturating_sub (a b : Z) : Z := Z.max 0 (a - b).

Definition observe_handshake (watch : option HandshakeWatch) (latest_handshake : option Z)
    (tx now : Z) : TunnelState * option HandshakeWatch :=
  let usable := is_some_and
    (λ handshake, Z.leb (saturating_sub now handshake) WIREGUARD_REJECT_AFTER_SECS)
    latest_handshake in
  if usable then (Running, None) else
  let watch :=
    match watch with
    | Some w => if Z.leb (hw_baseline_tx w) tx then w else mkWatch tx None
    | None => mkWatch tx None
    end in
  let watch :=
    if Z.ltb (hw_baseline_tx watch) tx && is_none (hw_sending_since watch)
    then mkWatch (hw_baseline_tx watch) (Some now) else watch in
  let failed := is_some_and
    (λ since, Z.leb WIREGUARD_UNANSWERED_SECS (saturating_sub now since))
    (hw_sending_since watch) in
  (if failed then Failed else Running, Some watch).

(** ** OpenVPN runtime *)

Record OpenVpnRuntime : Type := mkRuntime {
  ov_explicit_routes : list PolicyRoute;
  ov_role : TunnelRole;
  ov_dns_domains : list string;
  ov_snapshot : ManagementSnapshot;
}.

Record OpenVpnNetworkPlan : Type := mkNetworkPlan {
  np_routes : list PolicyRoute;
  np_full_ipv4 : bool;
  np_full_ipv6 : bool;
  np_dns_servers : list IpAddr;
  np_dns_domains : list string;
}.

(** The pushed routes join the explicit ones with metric 5. *)
Definition push_routes (routes : list PolicyRoute) (pushed : list IpNet) : list PolicyRoute :=
  fold_left (λ acc destination,
    if existsb (λ route, pr_destination route =b destination) acc then acc
    else acc ++ [mkPolicyRoute destination 5 None]) pushed routes.

Definition plan_from_runtime (runtime : OpenVpnRuntime) : io_result OpenVpnNetworkPlan :=
  let secondary := ov_role runtime =b Secondary in
  let '(routes, dns_servers, dns_domains, redirect_def1) :=
    match ms_active_push (ov_snapshot runtime) with
    | None => (ov_explicit_routes runtime, [], [], false)
    | Some push =>
      (push_routes (ov_explicit_routes runtime) (if secondary then [] else pn_routes push),
       push_new [] (pn_legacy_dns_servers push ++ concat (map pd_addresses (pn_dns_servers push))),
       push_new [] (if secondary then ov_dns_domains runtime
                    else pn_search_domains push
                           ++ concat (map pd_resolve_domains (pn_dns_servers push))),
       pn_redirect_gateway_def1 push && negb secondary)
    end in
  let dns_domains :=
    match dns_servers with [] => if secondary then [] else dns_domains | _ => dns_domains end in
  if Z.ltb 8 (zlen dns_servers) || Z.ltb 16 (zlen dns_domains)
  then Err (err_new InvalidInput "OpenVPN pushed too many DNS settings")
  else if negb (Z.eqb (zlen dns_domains) 0) && Z.eqb (zlen dns_servers) 0
  then Err (err_new InvalidInput "OpenVPN pushed DNS domains without a server")
  else
    let has network := existsb (λ route, pr_destination route =b network) routes in
    Ok {| np_routes := routes;
          np_full_ipv4 := redirect_def1 || has (mkNet (V4 0) 0)
            || (has (mkNet (V4 0) 1) && has (mkNet (ip4 128 0 0 0) 1));
          np_full_ipv6 := has (mkNet (V6 0) 0)
            || (has (mkNet (V6 0) 1) && has (mkNet (V6 (Z.shiftl 32768 112)) 1));
          np_dns_servers := dns_servers;
          np_dns_domains := dns_domains |}.

(** ** The core *)

Record CondRuleEval : Type := mkEval {
  ev_matched_interface : option string;
  ev_error : option text;
}.

Record Executors : Type := mkExecutors {
  ex_wg : bool;
  ex_wg_config : bool;
  ex_openvpn : bool;
  ex_xray : bool;
  ex_quic_reject : bool;
  ex_policy : bool;
  ex_dns : bool;
  ex_watchdog_network : bool;
  ex_intents : option path;
}.

Abbreviation owner_key := (Z * string)%type.

Record DaemonCore : Type := mkCore {
  dc_journal : JournalDocument;
  dc_wired : Executors;
  dc_openvpn_runtime : gmap owner_key OpenVpnRuntime;
  dc_openvpn_failed : gset owner_key;
  dc_openvpn_auth_failed : gset owner_key;
  dc_openvpn_failures : gmap owner_key OpenVpnFailure;
  dc_wireguard_handshake : gmap owner_key HandshakeWatch;
  dc_tunnel_failed : gset owner_key;
  dc_xray_restarts : gmap owner_key Z;
  dc_failovers : gset owner_key;
  dc_watchdogs : gset owner_key;
  dc_service_checks : gset owner_key;
  dc_cond_eval : gmap owner_key CondRuleEval;
}.

Definition set_journal (f : JournalDocument → JournalDocument) (c : DaemonCore) : DaemonCore :=
  mkCore (f (dc_journal c)) (dc_wired c) (dc_openvpn_runtime c) (dc_openvpn_failed c)
    (dc_openvpn_auth_failed c) (dc_openvpn_failures c) (dc_wireguard_handshake c)
    (dc_tunnel_failed c) (dc_xray_restarts c) (dc_failovers c) (dc_watchdogs c)
    (dc_service_checks c) (dc_cond_eval c).
Definition set_openvpn_runtime (f : gmap owner_key OpenVpnRuntime → gmap owner_key OpenVpnRuntime) (c : DaemonCore) : DaemonCore :=
  mkCore (dc_journal c) (dc_wired c) (f (dc_openvpn_runtime c)) (dc_openvpn_failed c)
    (dc_openvpn_auth_failed c) (dc_openvpn_failures c) (dc_wireguard_handshake c)
    (dc_tunnel_failed c) (dc_xray_restarts c) (dc_failovers c) (dc_watchdogs c)
    (dc_service_checks c) (dc_cond_eval c).
Definition set_openvpn_failed (f : gset owner_key → gset owner_key) (c : DaemonCore) : DaemonCore :=
  mkCore (dc_journal c) (dc_wired c) (dc_openvpn_runtime c) (f (dc_openvpn_failed c))
    (dc_openvpn_auth_failed c) (dc_openvpn_failures c) (dc_wireguard_handshake c)
    (dc_tunnel_failed c) (dc_xray_restarts c) (dc_failovers c) (dc_watchdogs c)
    (dc_service_checks c) (dc_cond_eval c).
Definition set_openvpn_auth_failed (f : gset owner_key → gset owner_key) (c : DaemonCore) : DaemonCore :=
  mkCore (dc_journal c) (dc_wired c) (dc_openvpn_runtime c) (dc_openvpn_failed c) (f
    (dc_openvpn_auth_failed c)) (dc_openvpn_failures c) (dc_wireguard_handshake c)
    (dc_tunnel_failed c) (dc_xray_restarts c) (dc_failovers c) (dc_watchdogs c)
    (dc_service_checks c) (dc_cond_eval c).
Definition set_openvpn_failures (f : gmap owner_key OpenVpnFailure → gmap owner_key OpenVpnFailure) (c : DaemonCore) : DaemonCore :=
  mkCore (dc_journal c) (dc_wired c) (dc_openvpn_runtime c) (dc_openvpn_failed c)
    (dc_openvpn_auth_failed c) (f (dc_openvpn_failures c)) (dc_wireguard_handshake c)
    (dc_tunnel_failed c) (dc_xray_restarts c) (dc_failovers c) (dc_watchdogs c)
    (dc_service_checks c) (dc_cond_eval c).
Definition set_wireguard_handshake (f : gmap owner_key HandshakeWatch → gmap owner_key HandshakeWatch) (c : DaemonCore) : DaemonCore :=
  mkCore (dc_journal c) (dc_wired c) (dc_openvpn_runtime c) (dc_openvpn_failed c)
    (dc_openvpn_auth_failed c) (dc_openvpn_failures c) (f (dc_wireguard_handshake c))
    (dc_tunnel_failed c) (dc_xray_restarts c) (dc_failovers c) (dc_watchdogs c)
    (dc_service_checks c) (dc_cond_eval c).
Definition set_tunnel_failed (f : gset owner_key → gset owner_key) (c : DaemonCore) : DaemonCore :=
  mkCore (dc_journal c) (dc_wired c) (dc_openvpn_runtime c) (dc_openvpn_failed c)
    (dc_openvpn_auth_failed c) (dc_openvpn_failures c) (dc_wireguard_handshake c) (f
    (dc_tunnel_failed c)) (dc_xray_restarts c) (dc_failovers c) (dc_watchdogs c)
    (dc_service_checks c) (dc_cond_eval c).
Definition set_xray_restarts (f : gmap owner_key Z → gmap owner_key Z) (c : DaemonCore) : DaemonCore :=
  mkCore (dc_journal c) (dc_wired c) (dc_openvpn_runtime c) (dc_openvpn_failed c)
    (dc_openvpn_auth_failed c) (dc_openvpn_failures c) (dc_wireguard_handshake c)
    (dc_tunnel_failed c) (f (dc_xray_restarts c)) (dc_failovers c) (dc_watchdogs c)
    (dc_service_checks c) (dc_cond_eval c).
Definition set_failovers (f : gset owner_key → gset owner_key) (c : DaemonCore) : DaemonCore :=
  mkCore (dc_journal c) (dc_wired c) (dc_openvpn_runtime c) (dc_openvpn_failed c)
    (dc_openvpn_auth_failed c) (dc_openvpn_failures c) (dc_wireguard_handshake c)
    (dc_tunnel_failed c) (dc_xray_restarts c) (f (dc_failovers c)) (dc_watchdogs c)
    (dc_service_checks c) (dc_cond_eval c).
Definition set_watchdogs (f : gset owner_key → gset owner_key) (c : DaemonCore) : DaemonCore :=
  mkCore (dc_journal c) (dc_wired c) (dc_openvpn_runtime c) (dc_openvpn_failed c)
    (dc_openvpn_auth_failed c) (dc_openvpn_failures c) (dc_wireguard_handshake c)
    (dc_tunnel_failed c) (dc_xray_restarts c) (dc_failovers c) (f (dc_watchdogs c))
    (dc_service_checks c) (dc_cond_eval c).
Definition set_service_checks (f : gset owner_key → gset owner_key) (c : DaemonCore) : DaemonCore :=
  mkCore (dc_journal c) (dc_wired c) (dc_openvpn_runtime c) (dc_openvpn_failed c)
    (dc_openvpn_auth_failed c) (dc_openvpn_failures c) (dc_wireguard_handshake c)
    (dc_tunnel_failed c) (dc_xray_restarts c) (dc_failovers c) (dc_watchdogs c) (f
    (dc_service_checks c)) (dc_cond_eval c).
Definition set_cond_eval (f : gmap owner_key CondRuleEval → gmap owner_key CondRuleEval) (c : DaemonCore) : DaemonCore :=
  mkCore (dc_journal c) (dc_wired c) (dc_openvpn_runtime c) (dc_openvpn_failed c)
    (dc_openvpn_auth_failed c) (dc_openvpn_failures c) (dc_wireguard_handshake c)
    (dc_tunnel_failed c) (dc_xray_restarts c) (dc_failovers c) (dc_watchdogs c)
    (dc_service_checks c) (f (dc_cond_eval c)).

(** The journal's entry list. *)
Definition entries (c : DaemonCore) : list JournalEntry := jd_entries (dc_journal c).
Definition set_entries (f : list JournalEntry → list JournalEntry) : DaemonCore → DaemonCore :=
  set_journal (λ j, mkJournal (jd_version j) (f (jd_entries j))).

Definition with_state (st : OwnedState) (e : JournalEntry) : JournalEntry :=
  mkEntry (je_uid e) (je_owner e) st (je_resources e).
Definition with_resources (f : list OwnedResource → list OwnedResource) (e : JournalEntry)
    : JournalEntry :=
  mkEntry (je_uid e) (je_owner e) (je_state e) (f (je_resources e)).

(** [entry.resources.push(r)] and [pop()] *)
Definition push_resource (r : OwnedResource) : JournalEntry → JournalEntry :=
  with_resources (λ rs, rs ++ [r]).
Definition pop_list {A} (l : list A) : list A := take (length l - 1) l.
Definition pop_resource : JournalEntry → JournalEntry := with_resources pop_list.

(** [self.position(uid, owner)] *)
Definition position_of (c : DaemonCore) (uid : Z) (owner : string) : option nat :=
  position (λ entry, Z.eqb (je_uid entry) uid && (je_owner entry =b owner)) (entries c).

Section access.
Context `{Env}.

(** [self.journal.entries[index]]: a panic out of range. *)
Definition entry_at (index : nat) : M DaemonCore JournalEntry :=
  let! c := get in
  match entries c !! index with
  | Some e => ret e
  | None => panic
  end.

(** [let entry = &mut self.journal.entries[index]; ...] *)
Definition update_entry (index : nat) (f : JournalEntry → JournalEntry) : M DaemonCore unit :=
  let! e := entry_at index in
  modify (set_entries (λ es, <[index := f e]> es)).

(** [self.journal.entries.remove(index)]: a panic out of range. *)
Definition remove_entry (index : nat) : M DaemonCore unit :=
  let! _ := entry_at index in
  modify (set_entries (delete index)).

Definition push_entry (e : JournalEntry) : M DaemonCore unit :=
  modify (set_entries (λ es, es ++ [e])).

(** [self.journal.entries.pop()] *)
Definition pop_entry : M DaemonCore unit := modify (set_entries pop_list).

(** [self.store.save(&self.journal)] *)
Definition store_save_journal : M DaemonCore (io_result unit) :=
  let! c := get in call (StoreSave (dc_journal c)).

(** [self.persist()]: the failure is only logged. *)
Definition persist : M DaemonCore unit :=
  let! _ := store_save_journal in ret tt.

Definition policy_unavailable : io_error :=
  err_new NotConnected "policy executor is unavailable".

(** [self.with_policy(|policy| ...)] *)
Definition with_policy {A} (f : M DaemonCore (io_result A)) : M DaemonCore (io_result A) :=
  let! c := get in
  if ex_policy (dc_wired c) then f else fail policy_unavailable.

Definition unwired : Executors := mkExecutors false false false false false false false false None.

(** The state [open*] starts from. *)
Definition core_with (journal : JournalDocument) (wired : Executors) : DaemonCore :=
  mkCore journal wired ∅ ∅ ∅ ∅ ∅ ∅ ∅ ∅ ∅ ∅ ∅.

End access.

(** ** Lemmas *)

Lemma entries_set f s : entries (set_entries f s) = f (entries s).
Proof. by destruct s. Qed.

Lemma set_entries_journal f s :
  dc_journal (set_entries f s) = mkJournal (jd_version (dc_journal s)) (f (entries s)).
Proof. by destruct s as [[]]. Qed.

Lemma set_entries_twice f g s : set_entries f (set_entries g s) = set_entries (λ es, f (g es)) s.
Proof. by destruct s as [[]]. Qed.

Lemma set_entries_id f s : f (entries s) = entries s → set_entries f s = s.
Proof. destruct s as [[v es]]; unfold set_entries, set_journal, entries; simpl. by intros ->. Qed.

Lemma set_entries_ext f g s : f (entries s) = g (entries s) → set_entries f s = set_entries g s.
Proof. destruct s as [[v es]]; unfold set_entries, set_journal, entries; simpl. by intros ->. Qed.

(** The last entry, as [push_entry] left it. *)
Lemma lookup_snoc {A} (l : list A) x : (l ++ [x]) !! (length (l ++ [x]) - 1) = Some x.
Proof. rewrite length_app. simpl. rewrite Nat.add_sub. by apply list_lookup_middle. Qed.

Lemma insert_snoc {A} (l : list A) x y : <[length (l ++ [x]) - 1 := y]> (l ++ [x]) = l ++ [y].
Proof.
  rewrite length_app. simpl. rewrite Nat.add_sub, insert_app_r_alt by lia.
  by rewrite Nat.sub_diag.
Qed.

Lemma delete_snoc {A} (l : list A) x : delete (length (l ++ [x]) - 1) (l ++ [x]) = l.
Proof.
  rewrite length_app. simpl. rewrite Nat.add_sub, delete_take_drop, take_app_length.
  rewrite drop_ge; [by rewrite app_nil_r|]. rewrite length_app. simpl. lia.
Qed.

Lemma pop_list_app {A} (l : list A) x : pop_list (l ++ [x]) = l.
Proof. unfold pop_list. rewrite length_app. simpl. by rewrite Nat.add_sub, take_app_length. Qed.

(** [self.position(..)] finds the first entry of the owner. *)
Lemma position_key c uid owner i :
  position_of c uid owner = Some i →
  ∃ e, entries c !! i = Some e ∧ je_uid e = uid ∧ je_owner e = owner.
Proof.
  intros [(e & He & Hp) _]%position_Some. exists e. apply andb_true_iff in Hp as [Hu Ho].
  apply Z.eqb_eq in Hu. by apply bool_decide_eq_true in Ho.
Qed.
