(* ===== verification/Netlink.v ===== *)
(** * Netlink messages of the daemon

    The pure half of [crates/daemon/src/netlink.rs]: building the bodies of
    route, rule, link and address requests, reading the kernel's dumps, and
    the errors. *)

From S2P Require Export NetlinkData CoreState.

(** [RouteHeader::RT_TABLE_*], [u32::MAX] *)
Definition HEADER_TABLE_MAIN : Z := 254.
Definition HEADER_TABLE_UNSPEC : Z := 0.
Definition U32_MAX : Z := 2 ^ 32 - 1.

Inductive RouteOp : Type := OpAdd | OpDelete.

(** [RouteMessage::default()] and [RuleMessage::default()]. *)
Class NetlinkLib : Type := {
  route_message_default : RouteMessage;
  rule_message_default : RuleMessage;
  route_message_default_empty : rm_attributes route_message_default = [];
  rule_message_default_zero :
    um_flags rule_message_default = [] ∧ um_attributes rule_message_default = [] ∧
    um_src_len rule_message_default = 0%Z ∧ um_dst_len rule_message_default = 0%Z ∧
    um_tos rule_message_default = 0%Z ∧ um_table rule_message_default = 0%Z;
}.

(** ** Addresses *)

Definition route_address (ip : IpAddr) : RouteAddress :=
  match ip with V4 a => RouteInet a | V6 a => RouteInet6 a end.
Definition address_of (a : RouteAddress) : option IpAddr :=
  match a with RouteInet z => Some (V4 z) | RouteInet6 z => Some (V6 z) | RouteAddressOther _ => None end.
Definition family_of (ip : IpAddr) : AddressFamily :=
  match ip with V4 _ => Inet | V6 _ => Inet6 end.

(** The address a default route of a family leaves out. *)
Definition unspecified_of (family : AddressFamily) : option IpAddr :=
  match family with Inet => Some (V4 0) | Inet6 => Some (V6 0) | OtherFamily _ => None end.

(** ** Attributes *)

Definition route_oif (a : RouteAttribute) : option Z :=
  match a with RouteOif index => Some index | _ => None end.
Definition route_priority (a : RouteAttribute) : option Z :=
  match a with RoutePriority metric => Some metric | _ => None end.
Definition route_table_attr (a : RouteAttribute) : option Z :=
  match a with RouteTable table => Some table | _ => None end.
Definition route_destination (a : RouteAttribute) : option RouteAddress :=
  match a with RouteDestination d => Some d | _ => None end.
Definition route_gateway (a : RouteAttribute) : option RouteAddress :=
  match a with RouteGateway g => Some g | _ => None end.
Definition route_pref_source (a : RouteAttribute) : option RouteAddress :=
  match a with RoutePrefSource s => Some s | _ => None end.
Definition route_multipath (a : RouteAttribute) : option (list RouteNextHop) :=
  match a with RouteMultiPath hops => Some hops | _ => None end.

(** The first address of the wanted attribute that is an IP address. *)
Definition find_address (wanted : RouteAttribute → option RouteAddress) (l : list RouteAttribute)
    : option IpAddr :=
  find_map (λ a, wanted a ≫= address_of) l.

Definition rule_table_attr (a : RuleAttribute) : option Z :=
  match a with RuleTable table => Some table | _ => None end.
Definition rule_priority_attr (a : RuleAttribute) : option Z :=
  match a with RulePriority priority => Some priority | _ => None end.
Definition rule_fwmark (a : RuleAttribute) : option Z :=
  match a with RuleFwMark mark => Some mark | _ => None end.
Definition rule_fwmask (a : RuleAttribute) : option Z :=
  match a with RuleFwMask mask => Some mask | _ => None end.
Definition rule_suppress_prefix (a : RuleAttribute) : option Z :=
  match a with RuleSuppressPrefixLen n => Some n | _ => None end.
Definition rule_suppress_group (a : RuleAttribute) : option Z :=
  match a with RuleSuppressIfGroup n => Some n | _ => None end.
Definition rule_protocol (a : RuleAttribute) : option Z :=
  match a with RuleProtocol p => Some p | _ => None end.
Definition rule_source (a : RuleAttribute) : option IpAddr :=
  match a with RuleSource ip => Some ip | _ => None end.
Definition rule_destination (a : RuleAttribute) : option IpAddr :=
  match a with RuleDestination ip => Some ip | _ => None end.
Definition rule_iifname (a : RuleAttribute) : option string :=
  match a with RuleIifname name => Some name | _ => None end.
Definition rule_oifname (a : RuleAttribute) : option string :=
  match a with RuleOifname name => Some name | _ => None end.
Definition rule_uid_range (a : RuleAttribute) : option (Z * Z) :=
  match a with RuleUidRange x y => Some (x, y) | _ => None end.
Definition rule_source_ports (a : RuleAttribute) : option (Z * Z) :=
  match a with RuleSourcePortRange x y => Some (x, y) | _ => None end.
Definition rule_destination_ports (a : RuleAttribute) : option (Z * Z) :=
  match a with RuleDestinationPortRange x y => Some (x, y) | _ => None end.
Definition rule_ip_protocol (a : RuleAttribute) : option Z :=
  match a with RuleIpProtocol p => Some p | _ => None end.
Definition rule_tun_id (a : RuleAttribute) : option Z :=
  match a with RuleTunId id => Some id | _ => None end.
Definition rule_goto (a : RuleAttribute) : option Z :=
  match a with RuleGoto target => Some target | _ => None end.

Definition rule_priority (message : RuleMessage) : option Z :=
  find_map rule_priority_attr (um_attributes message).
Definition rule_table (message : RuleMessage) : Z :=
  unwrap_or (find_map rule_table_attr (um_attributes message)) (um_table message).
Definition route_table (message : RouteMessage) : Z :=
  unwrap_or (find_map route_table_attr (rm_attributes message)) (rm_table message).

(** ** Routes of the daemon *)

Section routes.
Context `{IpNetLib}.

Definition route_scope (route : AppliedRoute) (op : RouteOp) : RouteScope :=
  match op, net_addr (ar_destination route), ar_gateway route with
  | OpDelete, _, _ => NoWhere
  | OpAdd, V4 _, None => LinkScope
  | OpAdd, _, _ => Universe
  end.

Definition route_request (route : AppliedRoute) (op : RouteOp) : RouteMessage :=
  let network := net_addr (trunc (ar_destination route)) in
  let '(header_table, table) :=
    match ar_table route with
    | None => (HEADER_TABLE_MAIN, [])
    | Some table => if Z.leb table 255 then (table, []) else (HEADER_TABLE_UNSPEC, [RouteTable table])
    end in
  {| rm_family := family_of (net_addr (ar_destination route));
     rm_prefix_length := prefix_len (ar_destination route);
     rm_table := header_table;
     rm_protocol := RTPROT_NETWORK_ORCHESTRATOR;
     rm_scope := route_scope route op;
     rm_kind := Unicast;
     rm_attributes :=
       [RouteDestination (route_address network)] ++ table
       ++ [RouteOif (ar_interface_index route); RoutePriority (ar_metric route)]
       ++ match ar_gateway route with Some gw => [RouteGateway (route_address gw)] | None => [] end |}.

(** The destination of a message: its attribute, or the default route's. *)
Definition message_destination (message : RouteMessage) : option IpNet :=
  let address :=
    match find_address route_destination (rm_attributes message) with
    | Some a => Some a
    | None => if negb (Z.eqb (rm_prefix_length message) 0) then None
              else unspecified_of (rm_family message)
    end in
  a ← address; trunc <$> net_new a (rm_prefix_length message).

Definition owned_route_snapshot (message : RouteMessage) : option AppliedRoute :=
  if negb (Z.eqb (rm_protocol message) RTPROT_NETWORK_ORCHESTRATOR)
     || negb (rm_kind message =b Unicast) then None else
  destination ← message_destination message;
  interface_index ← find_map route_oif (rm_attributes message);
  let table := match find_map route_table_attr (rm_attributes message) with
               | Some table => Some table
               | None => if Z.eqb (rm_table message) HEADER_TABLE_MAIN then None
                         else Some (rm_table message)
               end in
  Some (mkAppliedRoute destination interface_index
          (unwrap_or (find_map route_priority (rm_attributes message)) 0%Z)
          (find_address route_gateway (rm_attributes message))
          (t ← table; if Z.eqb t HEADER_TABLE_MAIN then None else Some t)).

Definition has_gateway (message : RouteMessage) : bool :=
  existsb (λ a, is_some (route_gateway a)) (rm_attributes message).

Definition on_link_network (message : RouteMessage) : option (Z * IpNet) :=
  if negb (rm_kind message =b Unicast) || Z.eqb (rm_prefix_length message) 0
     || negb (Z.eqb (route_table message) HEADER_TABLE_MAIN) || has_gateway message then None else
  destination ← find_address route_destination (rm_attributes message);
  interface ← find_map route_oif (rm_attributes message);
  net ← net_new destination (rm_prefix_length message);
  Some (interface, trunc net).

Definition default_gateway (message : RouteMessage) : option (IpAddr * Z) :=
  if negb (Z.eqb (rm_prefix_length message) 0) || negb (rm_kind message =b Unicast)
     || Z.eqb (rm_protocol message) RTPROT_NETWORK_ORCHESTRATOR
     || negb (Z.eqb (route_table message) HEADER_TABLE_MAIN) then None else
  gateway ← find_address route_gateway (rm_attributes message);
  interface ← find_map route_oif (rm_attributes message);
  Some (gateway, interface).

End routes.

(** ** Policy rules of the daemon *)

Section rules.
Context `{NetlinkLib}.

Definition rule_family (family : IpFamily) : AddressFamily :=
  match family with Ipv4 => Inet | Ipv6 => Inet6 end.
Definition family_of_rule (message : RuleMessage) : IpFamily :=
  if um_family message =b Inet6 then Ipv6 else Ipv4.
Definition has_invert (message : RuleMessage) : bool := vec_contains (um_flags message) Invert.

Definition rule_snapshot (message : RuleMessage) : OwnedRuleResource :=
  mkOwnedRule (family_of_rule message) (unwrap_or (rule_priority message) 0%Z) (rule_table message)
    (find_map rule_fwmark (um_attributes message)) (has_invert message)
    (find_map rule_suppress_prefix (um_attributes message)).

Definition rule_request (rule : OwnedRuleResource) : RuleMessage :=
  let message := rule_message_default in
  let small := Z.leb (or_table rule) 255 in
  {| um_family := rule_family (or_family rule);
     um_dst_len := um_dst_len message;
     um_src_len := um_src_len message;
     um_tos := um_tos message;
     um_table := if small then or_table rule else um_table message;
     um_action := ToTable;
     um_flags := um_flags message ++ (if or_invert rule then [Invert] else []);
     um_attributes :=
       um_attributes message
       ++ (if small then [] else [RuleTable (or_table rule)])
       ++ [RulePriority (or_priority rule)]
       ++ match or_fwmark rule with Some mark => [RuleFwMark mark; RuleFwMask U32_MAX] | None => [] end
       ++ match or_suppress_prefix_length rule with
          | Some prefix => [RuleSuppressPrefixLen prefix] | None => [] end
       ++ [RuleProtocol RTPROT_NETWORK_ORCHESTRATOR] |}.

(** The attributes without the first that satisfies [p]. *)
Fixpoint remove_first (p : RuleAttribute → bool) (l : list RuleAttribute)
    : option (list RuleAttribute) :=
  match l with
  | [] => None
  | a :: l' => if p a then Some l' else cons a <$> remove_first p l'
  end.

(** [expected.iter().all(...)], removing each from the candidates. *)
Fixpoint take_all (expected attributes : list RuleAttribute) : bool :=
  match expected with
  | [] => true
  | a :: expected' =>
    match remove_first (λ c, c =b a) attributes with
    | Some attributes' => take_all expected' attributes'
    | None => false
    end
  end.

(** The attributes of a dumped rule as the daemon would have written them. *)
Definition normalized (rule : OwnedRuleResource) (attributes : list RuleAttribute)
    : list RuleAttribute :=
  let attributes :=
    if is_some (or_suppress_prefix_length rule) then attributes
    else bfilter (λ a, negb (a =b RuleSuppressPrefixLen U32_MAX)) attributes in
  let attributes :=
    if is_some (or_fwmark rule) && negb (existsb (λ a, is_some (rule_fwmask a)) attributes)
    then attributes ++ [RuleFwMask U32_MAX] else attributes in
  if Z.leb (or_table rule) 255
  then match remove_first (λ a, a =b RuleTable (or_table rule)) attributes with
       | Some attributes => attributes
       | None => attributes
       end
  else attributes.

Definition is_owned_rule (message : RuleMessage) (rule : OwnedRuleResource) : bool :=
  let expected := rule_request rule in
  let small := Z.leb (or_table rule) 255 in
  if negb (um_family message =b um_family expected)
     || negb (Z.eqb (um_src_len message) 0) || negb (Z.eqb (um_dst_len message) 0)
     || negb (Z.eqb (um_tos message) 0)
     || negb (um_action message =b ToTable)
     || negb (um_flags message =b um_flags expected)
     || negb (Z.eqb (rule_table message) (or_table rule))
     || (negb (Z.eqb (um_table message) (um_table expected))
         && negb (small && Z.eqb (um_table message) 0)
         && negb (negb small && Z.eqb (um_table message) 252))
  then false
  else
    let attributes := normalized rule (um_attributes message) in
    Nat.eqb (length attributes) (length (um_attributes expected))
    && take_all (um_attributes expected) attributes.

End rules.

(** ** Names *)

Definition route_kind_name (kind : RouteType) : string :=
  match kind with
  | TypeUnspec => "unspec" | Unicast => "unicast" | LocalType => "local"
  | Broadcast => "broadcast" | Anycast => "anycast" | Multicast => "multicast"
  | BlackHole => "blackhole" | Unreachable => "unreachable" | Prohibit => "prohibit"
  | Throw => "throw" | NatType => "nat" | ExternalResolve => "xresolve"
  | TypeOther code => "type " +:+ show_Z code
  end.

Definition route_scope_name (scope : RouteScope) : string :=
  match scope with
  | Universe => "universe" | Site => "site" | LinkScope => "link" | Host => "host"
  | NoWhere => "nowhere" | ScopeOther code => "scope " +:+ show_Z code
  end.

Definition rule_action_name (action : RuleAction) : string :=
  match action with
  | ToTable => "lookup" | GotoAction => "goto" | Nop => "nop"
  | ActionBlackhole => "blackhole" | ActionUnreachable => "unreachable"
  | ActionProhibit => "prohibit" | ActionUnspec => "unspec"
  | ActionOther code => "type " +:+ show_Z code
  end.

(** [i32::to_string] and [str::parse::<i32>]. *)
Definition show_i32 (z : Z) : string := if Z.ltb z 0 then "-" +:+ show_Z (- z) else show_Z z.
Definition parse_i32 (s : string) : option Z :=
  match strip_prefix s "-" with
  | Some digits => if str_is_empty digits then None else Z.opp <$> parse_digits (2 ^ 31 + 1) digits 0
  | None => parse_uint (2 ^ 31) s
  end.

Definition ip_protocol_name (protocol : Z) : string :=
  match protocol with
  | 1%Z => "icmp" | 6%Z => "tcp" | 17%Z => "udp" | 58%Z => "icmpv6" | 132%Z => "sctp"
  | other => show_i32 other
  end.

(** [name.strip_prefix(prefix).and_then(|code| code.parse::<u8>().ok())] *)
Definition code_after (prefix name : string) : option Z :=
  rest ← strip_prefix name prefix; parse_uint 256 rest.

Definition route_kind_value (name : string) : RouteType :=
  if name =b "unicast"%string then Unicast else if name =b "local"%string then LocalType
  else if name =b "broadcast"%string then Broadcast else if name =b "anycast"%string then Anycast
  else if name =b "multicast"%string then Multicast else if name =b "blackhole"%string then BlackHole
  else if name =b "unreachable"%string then Unreachable
  else if name =b "prohibit"%string then Prohibit else if name =b "throw"%string then Throw
  else if name =b "nat"%string then NatType else if name =b "xresolve"%string then ExternalResolve
  else unwrap_or (TypeOther <$> code_after "type " name) TypeUnspec.

Definition route_scope_value (name : string) : RouteScope :=
  if name =b "universe"%string then Universe else if name =b "site"%string then Site
  else if name =b "link"%string then LinkScope else if name =b "host"%string then Host
  else if name =b "nowhere"%string then NoWhere
  else unwrap_or (ScopeOther <$> code_after "scope " name) NoWhere.

Definition rule_action_value (name : string) : RuleAction :=
  if name =b "lookup"%string then ToTable else if name =b "goto"%string then GotoAction
  else if name =b "nop"%string then Nop else if name =b "blackhole"%string then ActionBlackhole
  else if name =b "unreachable"%string then ActionUnreachable
  else if name =b "prohibit"%string then ActionProhibit
  else if name =b "unspec"%string then ActionUnspec
  else unwrap_or (ActionOther <$> code_after "type " name) ActionUnspec.

Definition ip_protocol_value (name : string) : option Z :=
  if name =b "icmp"%string then Some 1%Z else if name =b "tcp"%string then Some 6%Z
  else if name =b "udp"%string then Some 17%Z else if name =b "icmpv6"%string then Some 58%Z
  else if name =b "sctp"%string then Some 132%Z else parse_i32 name.

(** ** The inventory view *)

Section view.
Context `{IpNetLib} `{NetlinkLib}.

Definition rule_selector (message : RuleMessage) (is_source : bool) : option IpNet :=
  let '(address, length) :=
    if is_source
    then (find_map rule_source (um_attributes message), um_src_len message)
    else (find_map rule_destination (um_attributes message), um_dst_len message) in
  let address :=
    match address with
    | Some a => Some a
    | None => if Z.eqb length 0 then None else unspecified_of (um_family message)
    end in
  a ← address; trunc <$> net_new a length.

Definition system_nexthop (names : gmap Z string) (hop : RouteNextHop) : SystemNexthop :=
  mkNexthop (find_address route_gateway (hop_attributes hop)) (hop_interface_index hop)
    (names !! hop_interface_index hop) (hop_hops hop).

Definition route_view_family (message : RouteMessage) : option IpFamily :=
  match rm_family message with Inet => Some Ipv4 | Inet6 => Some Ipv6 | OtherFamily _ => None end.

Definition system_route (message : RouteMessage) (names : gmap Z string) : option SystemRoute :=
  family ← route_view_family message;
  destination ← message_destination message;
  let attributes := rm_attributes message in
  let interface_index := find_map route_oif attributes in
  Some (mkSystemRoute family destination (route_table message)
    (route_kind_name (rm_kind message)) (route_scope_name (rm_scope message))
    (rm_protocol message) (Z.eqb (rm_protocol message) RTPROT_NETWORK_ORCHESTRATOR)
    (find_address route_gateway attributes)
    interface_index (index ← interface_index; names !! index)
    (find_map route_priority attributes) (find_address route_pref_source attributes)
    (map (system_nexthop names) (unwrap_or (find_map route_multipath attributes) []))).

(** A suppressor the kernel reports as unset. *)
Definition set_suppressor (n : option Z) : option Z :=
  v ← n; if Z.eqb v U32_MAX then None else Some v.

Definition suppressor (wanted : RuleAttribute → option Z) (l : list RuleAttribute) : option Z :=
  find_map (λ a, set_suppressor (wanted a)) l.

Definition system_rule (message : RuleMessage) : SystemRule :=
  let l := um_attributes message in
  let protocol := unwrap_or (find_map rule_protocol l) 0%Z in
  {| ru_family := family_of_rule message;
     ru_priority := unwrap_or (rule_priority message) 0%Z;
     ru_action := rule_action_name (um_action message);
     ru_table := rule_table message;
     ru_goto := find_map rule_goto l;
     ru_from := rule_selector message true;
     ru_to := rule_selector message false;
     ru_fwmark := find_map rule_fwmark l;
     ru_fwmask := find_map rule_fwmask l;
     ru_iifname := find_map rule_iifname l;
     ru_oifname := find_map rule_oifname l;
     ru_uid_range := find_map rule_uid_range l;
     ru_source_port_range := find_map rule_source_ports l;
     ru_destination_port_range := find_map rule_destination_ports l;
     ru_ip_protocol := ip_protocol_name <$> find_map rule_ip_protocol l;
     ru_suppress_prefix_length := suppressor rule_suppress_prefix l;
     ru_suppress_if_group := suppressor rule_suppress_group l;
     ru_tun_id := find_map rule_tun_id l;
     ru_tos := um_tos message;
     ru_invert := has_invert message;
     ru_protocol := protocol;
     ru_managed := Z.eqb protocol RTPROT_NETWORK_ORCHESTRATOR |}.

Definition option_attr {A B} (f : A → B) (o : option A) : list B :=
  match o with Some a => [f a] | None => [] end.

Definition nexthop_message (hop : SystemNexthop) : RouteNextHop :=
  mkRouteNextHop (nh_interface_index hop) (nh_weight hop)
    (option_attr (λ gw, RouteGateway (route_address gw)) (nh_gateway hop)).

Definition system_route_message (route : SystemRoute) : RouteMessage :=
  let small := Z.leb (sr_table route) 255 in
  let length := prefix_len (sr_destination route) in
  {| rm_family := rule_family (sr_family route);
     rm_prefix_length := length;
     rm_table := if small then sr_table route else HEADER_TABLE_UNSPEC;
     rm_protocol := sr_protocol route;
     rm_scope := route_scope_value (sr_scope route);
     rm_kind := route_kind_value (sr_kind route);
     rm_attributes :=
       (if small then [] else [RouteTable (sr_table route)])
       ++ (if Z.eqb length 0 then []
           else [RouteDestination (route_address (net_addr (sr_destination route)))])
       ++ option_attr RouteOif (sr_interface_index route)
       ++ option_attr RoutePriority (sr_metric route)
       ++ option_attr (λ gw, RouteGateway (route_address gw)) (sr_gateway route)
       ++ option_attr (λ src, RoutePrefSource (route_address src)) (sr_pref_source route)
       ++ match sr_nexthops route with
          | [] => [] | hops => [RouteMultiPath (map nexthop_message hops)] end |}.

Definition prefix_or_zero (net : option IpNet) : Z :=
  match net with Some n => prefix_len n | None => 0 end.

Definition system_rule_message (rule : SystemRule) : RuleMessage :=
  let message := rule_message_default in
  let small := Z.leb (ru_table rule) 255 in
  {| um_family := rule_family (ru_family rule);
     um_dst_len := prefix_or_zero (ru_to rule);
     um_src_len := prefix_or_zero (ru_from rule);
     um_tos := ru_tos rule;
     um_table := if small then ru_table rule else um_table message;
     um_action := rule_action_value (ru_action rule);
     um_flags := um_flags message ++ (if ru_invert rule then [Invert] else []);
     um_attributes :=
       um_attributes message
       ++ (if small then [] else [RuleTable (ru_table rule)])
       ++ (if Z.eqb (ru_priority rule) 0 then [] else [RulePriority (ru_priority rule)])
       ++ option_attr (λ net, RuleSource (net_addr net)) (ru_from rule)
       ++ option_attr (λ net, RuleDestination (net_addr net)) (ru_to rule)
       ++ option_attr RuleFwMark (ru_fwmark rule)
       ++ option_attr RuleFwMask (ru_fwmask rule)
       ++ option_attr RuleIifname (ru_iifname rule)
       ++ option_attr RuleOifname (ru_oifname rule)
       ++ option_attr (λ range, RuleUidRange range.1 range.2) (ru_uid_range rule)
       ++ option_attr (λ range, RuleSourcePortRange range.1 range.2) (ru_source_port_range rule)
       ++ option_attr (λ range, RuleDestinationPortRange range.1 range.2) (ru_destination_port_range rule)
       ++ option_attr RuleIpProtocol (ru_ip_protocol rule ≫= ip_protocol_value)
       ++ [RuleSuppressPrefixLen (unwrap_or (ru_suppress_prefix_length rule) U32_MAX);
           RuleSuppressIfGroup (unwrap_or (ru_suppress_if_group rule) U32_MAX)]
       ++ option_attr RuleTunId (ru_tun_id rule)
       ++ option_attr RuleGoto (ru_goto rule)
       ++ (if Z.eqb (ru_protocol rule) 0 then [] else [RuleProtocol (ru_protocol rule)]) |}.

End view.

(** ** Links and addresses *)

Definition link_request (index : Z) (up : bool) : LinkMessage :=
  mkLinkMessage index (if up then [IffUp] else []) [IffUp] [].

Definition wireguard_create_request (name owner_marker : string) : LinkMessage :=
  mkLinkMessage 0 [] [] [IfName name; IfAlias owner_marker; LinkInfoAttr [LinkInfoKind WireguardKind]].

Definition is_wireguard_info (a : LinkAttribute) : bool :=
  match a with LinkInfoAttr info => vec_contains info (LinkInfoKind WireguardKind) | _ => false end.

Definition is_wireguard_link (message : LinkMessage) (name : string) (index : Z) : bool :=
  (Z.eqb index 0 || Z.eqb (lm_index message) index)
  && vec_contains (lm_attributes message) (IfName name)
  && existsb is_wireguard_info (lm_attributes message).

Definition is_owned_wireguard_link (message : LinkMessage) (name : string) (index : Z)
    (owner_marker : string) : bool :=
  is_wireguard_link message name index
  && vec_contains (lm_attributes message) (IfAlias owner_marker).

Definition address_delete_request (index : Z) (address : IpNet) : AddressMessage :=
  let ip := net_addr address in
  mkAddressMessage (family_of ip) (prefix_len address) 0 index [AddressAddress ip; AddressLocal ip].

(** ** Errors *)

Definition EPERM : Z := 1.
Definition ENOENT : Z := 2.
Definition ESRCH : Z := 3.
Definition EACCES : Z := 13.
Definition EEXIST : Z := 17.
Definition ENODEV : Z := 19.
Definition EINVAL : Z := 22.
Definition EADDRNOTAVAIL : Z := 99.
Definition ENETUNREACH : Z := 101.
Definition EHOSTUNREACH : Z := 113.

Definition classify_errno (errno : Z) : ErrorKind :=
  if Z.eqb errno EEXIST then AlreadyExists
  else if Z.eqb errno ESRCH || Z.eqb errno ENOENT || Z.eqb errno ENODEV then NotFound
  else if Z.eqb errno EPERM || Z.eqb errno EACCES then PermissionDenied
  else if Z.eqb errno EINVAL || Z.eqb errno ENETUNREACH || Z.eqb errno EHOSTUNREACH then InvalidInput
  else Other.

Definition classify_address_delete_errno (errno : Z) : ErrorKind :=
  if Z.eqb errno EADDRNOTAVAIL then NotFound else classify_errno errno.

Definition netlink_error_with (err : nl_error) (classify : Z → ErrorKind) : io_error :=
  match err with
  | NetlinkError raw_code message => mkErr (classify (Z.abs raw_code)) message
  | OtherNlError message => mkErr Other message
  end.
Definition netlink_error_to_io (err : nl_error) : io_error := netlink_error_with err classify_errno.
