(* ===== verification/NetlinkProps.v ===== *)
(** * What the daemon writes to the kernel and reads back

    The messages of [Netlink] are inverse to each other: what the inventory
    shows of a rule or a route can be written back to the same effect, a
    route of the daemon is read back as it was, and a rule of the kernel is
    taken for the daemon's own exactly when its attributes are those of the
    request. *)

From S2P Require Export Netlink.

(** ** Attributes of a list of options *)

Lemma find_map_app {A B} (f : A → option B) l k :
  find_map f (l ++ k) = match find_map f l with Some b => Some b | None => find_map f k end.
Proof. induction l as [|a l IH]; simpl; [done|]. by destruct (f a). Qed.

Lemma find_map_attr {A B C} (f : A → option B) (g : C → A) o :
  find_map f (option_attr g o) = o ≫= λ c, f (g c).
Proof. destruct o as [c|]; [|done]. simpl. by destruct (f (g c)). Qed.

Lemma bind_none {A B} (o : option A) : (o ≫= λ _, @None B) = None.
Proof. by destruct o. Qed.

Lemma bind_some {A} (o : option A) : (o ≫= λ a, Some a) = o.
Proof. by destruct o. Qed.

(** ** Names *)

Definition u8 (z : Z) : Prop := (0 ≤ z < 256)%Z.

Lemma code_after_show p z : u8 z → code_after p (p +:+ show_Z z) = Some z.
Proof.
  intros Hz. unfold code_after. rewrite strip_prefix_app. cbn [mbind option_bind]. unfold parse_uint.
  destruct (show_Z_start z) as (a & s & Hs & Ha). rewrite Hs.
  assert (strip_prefix (String a s) "+" = None) as ->.
  { unfold strip_prefix. destruct (starts_with (String a s) "+") eqn:Hp; [|done].
    apply starts_with_spec in Hp as [r Hr]. by injection Hr as -> _. }
  cbn [str_is_empty]. rewrite <- Hs. by apply parse_digits_show.
Qed.

Definition type_ok (kind : RouteType) : Prop := match kind with TypeOther c => u8 c | _ => True end.
Definition scope_ok (scope : RouteScope) : Prop := match scope with ScopeOther c => u8 c | _ => True end.
Definition action_ok (action : RuleAction) : Prop :=
  match action with ActionOther c => u8 c | _ => True end.

Ltac by_name :=
  repeat (let H := fresh in case_bool_decide as H; [cbn in H; discriminate H|clear H]).

Lemma route_kind_reads_back kind : type_ok kind → route_kind_value (route_kind_name kind) = kind.
Proof.
  destruct kind; try reflexivity. intros Hc. unfold route_kind_value, route_kind_name.
  rewrite code_after_show by done. by by_name.
Qed.

Lemma route_scope_reads_back scope : scope_ok scope → route_scope_value (route_scope_name scope) = scope.
Proof.
  destruct scope; try reflexivity. intros Hc. unfold route_scope_value, route_scope_name.
  rewrite code_after_show by done. by by_name.
Qed.

Lemma rule_action_reads_back action :
  action_ok action → rule_action_value (rule_action_name action) = action.
Proof.
  destruct action; try reflexivity. intros Hc. unfold rule_action_value, rule_action_name.
  rewrite code_after_show by done. by by_name.
Qed.

(** A protocol number of the kernel. *)
Definition i32 (z : Z) : Prop := (- 2 ^ 31 ≤ z < 2 ^ 31)%Z.

Lemma parse_i32_show z : i32 z → parse_i32 (show_i32 z) = Some z.
Proof.
  intros Hz. unfold i32 in Hz. unfold show_i32, parse_i32. destruct (Z.ltb_spec z 0) as [Hneg|Hpos].
  - rewrite strip_prefix_app. destruct (show_Z_start (- z)) as (a & s & Hs & _).
    rewrite Hs. cbn [str_is_empty]. rewrite <- Hs, parse_digits_show by lia. simpl. f_equal. lia.
  - destruct (show_Z_start z) as (a & s & Hs & Ha). unfold parse_uint. rewrite Hs.
    assert (∀ p, byte_of p < 48 → strip_prefix (String a s) (String p EmptyString) = None)%Z as Hp.
    { intros p Hlt. unfold strip_prefix.
      destruct (starts_with (String a s) (String p EmptyString)) eqn:Hst; [|done].
      apply starts_with_spec in Hst as [r Hr]. injection Hr as -> _.
      unfold is_ascii_digit, in_range in Ha. lia. }
    rewrite (Hp "-"%char), (Hp "+"%char) by reflexivity. cbn [str_is_empty].
    rewrite <- Hs. apply parse_digits_show. lia.
Qed.

Lemma ip_protocol_reads_back p : i32 p → ip_protocol_value (ip_protocol_name p) = Some p.
Proof.
  intros Hp.
  assert (p = 1 ∨ p = 6 ∨ p = 17 ∨ p = 58 ∨ p = 132 ∨ ip_protocol_name p = show_i32 p)%Z as Hcases.
  { unfold ip_protocol_name. repeat case_match; auto 10. }
  destruct Hcases as [-> | [-> | [-> | [-> | [-> | ->]]]]]; try reflexivity.
  assert (∀ a s, show_i32 p = String a s → is_ascii_digit (byte_of a) = true ∨ a = "-"%char) as Hstart.
  { intros a s. unfold show_i32. destruct (Z.ltb p 0); [intros [= <- _]; by right|].
    destruct (show_Z_start p) as (b & t & -> & Hb). intros [= <- _]. by left. }
  unfold ip_protocol_value. rewrite parse_i32_show by done.
  repeat (case_bool_decide as Hname; [by destruct (Hstart _ _ Hname)|clear Hname]). done.
Qed.

(** ** Rules of the inventory *)

Section rules.
Context `{IpNetLib} `{NetlinkLib}.

Lemma default_attributes : um_attributes rule_message_default = [].
Proof. apply rule_message_default_zero. Qed.
Lemma default_flags : um_flags rule_message_default = [].
Proof. apply rule_message_default_zero. Qed.

Lemma find_map_unless {A B} (f : A → option B) (b : bool) x :
  find_map f (if b then [] else [x]) = if b then None else f x.
Proof. destruct b; [done|]. simpl. by destruct (f x). Qed.

Lemma find_map_two {A B} (f : A → option B) x y :
  find_map f [x; y] = match f x with Some b => Some b | None => f y end.
Proof. simpl. destruct (f x); [done|]. by destruct (f y). Qed.

Lemma unless_none {A} (b : bool) : (if b then None else @None A) = None.
Proof. by destruct b. Qed.

Lemma some_or_none {A} (o : option A) : match o with Some a => Some a | None => None end = o.
Proof. by destruct o. Qed.

(** What an attribute the rebuilt rule holds once is read as. *)
Ltac read_attributes :=
  unfold system_rule_message; cbn [um_attributes];
  rewrite default_attributes, ?app_nil_l, ?find_map_app, ?find_map_attr, ?find_map_unless, ?find_map_two;
  cbn; rewrite ?bind_none, ?unless_none; cbn; rewrite ?some_or_none, ?bind_some;
  match goal with
  | |- ?o ≫= _ = _ => by destruct o as [[]|]
  | |- unwrap_or (if Z.eqb ?z 0 then _ else _) _ = _ => by destruct (Z.eqb_spec z 0)
  | |- unwrap_or (if ?b then _ else _) _ = _ => by destruct b
  | |- context [unwrap_or ?o U32_MAX] => by destruct o
  | |- _ => done
  end.

Context (r : SystemRule).

Lemma read_fwmark : find_map rule_fwmark (um_attributes (system_rule_message r)) = ru_fwmark r.
Proof. read_attributes. Qed.
Lemma read_fwmask : find_map rule_fwmask (um_attributes (system_rule_message r)) = ru_fwmask r.
Proof. read_attributes. Qed.
Lemma read_iifname : find_map rule_iifname (um_attributes (system_rule_message r)) = ru_iifname r.
Proof. read_attributes. Qed.
Lemma read_oifname : find_map rule_oifname (um_attributes (system_rule_message r)) = ru_oifname r.
Proof. read_attributes. Qed.
Lemma read_uid_range : find_map rule_uid_range (um_attributes (system_rule_message r)) = ru_uid_range r.
Proof. read_attributes. Qed.
Lemma read_source_ports :
  find_map rule_source_ports (um_attributes (system_rule_message r)) = ru_source_port_range r.
Proof. read_attributes. Qed.
Lemma read_destination_ports :
  find_map rule_destination_ports (um_attributes (system_rule_message r)) = ru_destination_port_range r.
Proof. read_attributes. Qed.
Lemma read_ip_protocol :
  find_map rule_ip_protocol (um_attributes (system_rule_message r)) = ru_ip_protocol r ≫= ip_protocol_value.
Proof. read_attributes. Qed.
Lemma read_tun_id : find_map rule_tun_id (um_attributes (system_rule_message r)) = ru_tun_id r.
Proof. read_attributes. Qed.
Lemma read_goto : find_map rule_goto (um_attributes (system_rule_message r)) = ru_goto r.
Proof. read_attributes. Qed.
Lemma read_source : find_map rule_source (um_attributes (system_rule_message r)) = net_addr <$> ru_from r.
Proof. read_attributes. Qed.
Lemma read_destination :
  find_map rule_destination (um_attributes (system_rule_message r)) = net_addr <$> ru_to r.
Proof. read_attributes. Qed.
Lemma read_suppress_prefix :
  suppressor rule_suppress_prefix (um_attributes (system_rule_message r))
  = set_suppressor (ru_suppress_prefix_length r).
Proof. unfold suppressor. read_attributes. Qed.
Lemma read_suppress_group :
  suppressor rule_suppress_group (um_attributes (system_rule_message r))
  = set_suppressor (ru_suppress_if_group r).
Proof. unfold suppressor. read_attributes. Qed.
Lemma read_protocol :
  unwrap_or (find_map rule_protocol (um_attributes (system_rule_message r))) 0%Z = ru_protocol r.
Proof. read_attributes. Qed.
Lemma read_priority : unwrap_or (rule_priority (system_rule_message r)) 0%Z = ru_priority r.
Proof. unfold rule_priority. read_attributes. Qed.
Lemma read_table : rule_table (system_rule_message r) = ru_table r.
Proof. unfold rule_table. read_attributes. Qed.

(** What [rule_selector] returns: a network without host bits. *)
Definition selector_ok (net : option IpNet) : Prop :=
  ∀ n, net = Some n → trunc n = n ∧ (prefix_len n ≤ addr_width (net_addr n))%Z.

Lemma rule_selector_ok m b : selector_ok (rule_selector m b).
Proof.
  intros n Hn. unfold rule_selector in Hn.
  destruct (if b then _ else _) as [address length]. apply bind_Some in Hn as (a & _ & Hn).
  apply net_new_trunc in Hn as (Ht & _ & Hle & _). done.
Qed.

Lemma selector_reads_back b :
  selector_ok (ru_from r) → selector_ok (ru_to r) →
  rule_selector (system_rule_message r) b = if b then ru_from r else ru_to r.
Proof.
  intros Hf Ht. unfold rule_selector. rewrite read_source, read_destination. cbn [um_src_len um_dst_len system_rule_message].
  destruct b; [destruct (ru_from r) as [n|]|destruct (ru_to r) as [n|]]; try done;
    cbn [fmap option_fmap option_map mbind option_bind prefix_or_zero];
    first [destruct (Hf n eq_refl) | destruct (Ht n eq_refl)]; by apply net_new_exact.
Qed.

Lemma invert_reads_back : has_invert (system_rule_message r) = ru_invert r.
Proof.
  unfold has_invert, system_rule_message. cbn [um_flags]. rewrite default_flags.
  by destruct (ru_invert r).
Qed.

End rules.

(** The codes of a rule's message fit their types. *)
Definition rule_codes (m : RuleMessage) : Prop :=
  action_ok (um_action m) ∧ ∀ p, find_map rule_ip_protocol (um_attributes m) = Some p → i32 p.

Lemma suppressor_set f l : set_suppressor (suppressor f l) = suppressor f l.
Proof.
  unfold suppressor. induction l as [|a l IH]; simpl; [done|].
  destruct (f a) as [v|]; simpl; [|done]. destruct (Z.eqb_spec v U32_MAX) as [|Hne]; [done|].
  simpl. by rewrite (proj2 (Z.eqb_neq _ _) Hne).
Qed.

(** Restoring a rule as the inventory shows it gives a rule the inventory
    shows the same: [system_rule_message] is the inverse its comment says it
    is, for every message of the kernel, whatever its selectors. *)
Theorem rule_view_restores `{IpNetLib} `{NetlinkLib} (m : RuleMessage) (Hcodes : rule_codes m) :
  system_rule (system_rule_message (system_rule m)) = system_rule m.
Proof.
  destruct Hcodes as [Haction Hproto]. unfold system_rule at 1.
  rewrite read_priority, read_table, read_goto, read_fwmark, read_fwmask, read_iifname, read_oifname,
    read_uid_range, read_source_ports, read_destination_ports, read_ip_protocol, read_suppress_prefix,
    read_suppress_group, read_tun_id, read_protocol, invert_reads_back,
    !selector_reads_back by apply rule_selector_ok.
  unfold system_rule. cbn. rewrite !suppressor_set, rule_action_reads_back by done.
  f_equal; [by unfold family_of_rule; cbn; destruct (um_family m)|].
  destruct (find_map rule_ip_protocol _) as [p|]; [|done]. simpl. by rewrite ip_protocol_reads_back by auto.
Qed.

(** ** Routes of the inventory *)

Section system_routes.
Context `{IpNetLib} `{NetlinkLib}.

Lemma address_of_route_address ip : address_of (route_address ip) = Some ip.
Proof. by destruct ip. Qed.

Lemma find_address_attr {C} wanted (g : C → RouteAttribute) (h : C → option IpAddr) o :
  (∀ c, wanted (g c) ≫= address_of = h c) → find_address wanted (option_attr g o) = o ≫= h.
Proof. intros Hg. unfold find_address. rewrite find_map_attr. destruct o; [apply Hg|done]. Qed.

Lemma nexthop_reads_back names hop :
  system_nexthop names (nexthop_message (system_nexthop names hop)) = system_nexthop names hop.
Proof.
  destruct hop as [index weight attributes]. unfold system_nexthop, nexthop_message.
  cbn [hop_attributes hop_interface_index hop_hops nh_gateway nh_interface_index nh_weight]. f_equal.
  rewrite (find_address_attr _ _ Some); [apply bind_some|]. intros gw. apply address_of_route_address.
Qed.

(** What the kernel's dumps respect: codes of their width, a destination of
    the route's family, none for a default route. *)
Definition route_codes (m : RouteMessage) : Prop :=
  type_ok (rm_kind m) ∧ scope_ok (rm_scope m) ∧
  ∀ a, find_address route_destination (rm_attributes m) = Some a →
    family_of a = rm_family m ∧ rm_prefix_length m ≠ 0%Z.

Context (names : gmap Z string) (r : SystemRoute).

Ltac read_route :=
  unfold system_route_message, find_address; cbn [rm_attributes];
  rewrite ?find_map_app, ?find_map_attr, ?find_map_unless; cbn; rewrite ?bind_none, ?unless_none; cbn;
  repeat match goal with
    | |- context [find_map ?f (match ?l with [] => [] | _ => _ end)] => destruct l; cbn
    | |- context [?o ≫= λ c, address_of (route_address c)] => destruct o as [[]|]; cbn
    end; rewrite ?some_or_none, ?bind_some; try done.

Lemma read_oif : find_map route_oif (rm_attributes (system_route_message r)) = sr_interface_index r.
Proof. read_route. Qed.
Lemma read_metric : find_map route_priority (rm_attributes (system_route_message r)) = sr_metric r.
Proof. read_route. Qed.
Lemma read_gateway : find_address route_gateway (rm_attributes (system_route_message r)) = sr_gateway r.
Proof. read_route. Qed.
Lemma read_pref_source :
  find_address route_pref_source (rm_attributes (system_route_message r)) = sr_pref_source r.
Proof. read_route. Qed.
Lemma read_multipath :
  unwrap_or (find_map route_multipath (rm_attributes (system_route_message r))) []
  = map nexthop_message (sr_nexthops r).
Proof. read_route. Qed.
Lemma read_route_table : route_table (system_route_message r) = sr_table r.
Proof. unfold route_table. read_route; cbn; by destruct (Z.leb _ 255). Qed.
Lemma read_destination_address :
  find_address route_destination (rm_attributes (system_route_message r))
  = if Z.eqb (prefix_len (sr_destination r)) 0 then None else Some (net_addr (sr_destination r)).
Proof. read_route; by destruct (Z.eqb _ 0), (net_addr (sr_destination r)). Qed.

(** The destination of a dumped route. *)
Lemma message_destination_ok m d :
  message_destination m = Some d →
  trunc d = d ∧ prefix_len d = rm_prefix_length m ∧ (prefix_len d ≤ addr_width (net_addr d))%Z.
Proof.
  unfold message_destination. intros (a & _ & Hd)%bind_Some. apply net_new_trunc in Hd. tauto.
Qed.

End system_routes.

(** C24. Restoring a route as the inventory shows it gives a route the
    inventory shows the same, its next hops included. *)
Theorem route_view_restores `{IpNetLib} `{NetlinkLib} (m : RouteMessage) (names : gmap Z string)
    (r : SystemRoute) (Hcodes : route_codes m) (Hview : system_route m names = Some r) :
  system_route (system_route_message r) names = Some r.
Proof.
  destruct Hcodes as (Htype & Hscope & Hdest). unfold system_route in Hview.
  apply bind_Some in Hview as (family & Hfamily & Hview). apply bind_Some in Hview as (d & Hd & Hview).
  assert (rule_family family = rm_family m) as Hfam.
  { unfold route_view_family in Hfamily. by destruct (rm_family m); simplify_eq. }
  apply message_destination_ok in Hd as Hok. destruct Hok as (Htrunc & Hlen & Hle).
  unfold system_route. injection Hview as <-.
  match goal with |- context [system_route_message ?v] => set (r := v) end.
  assert (route_view_family (system_route_message r) = Some family) as ->.
  { unfold route_view_family. cbn. by destruct family. }
  assert (message_destination (system_route_message r) = Some d) as ->.
  { unfold message_destination. rewrite read_destination_address. cbn [sr_destination r].
    change (rm_prefix_length (system_route_message r)) with (prefix_len d).
    change (rm_family (system_route_message r)) with (rule_family family). rewrite Hfam.
    destruct (Z.eqb_spec (prefix_len d) 0) as [Hz|Hz]; [|by apply net_new_exact]. cbn [negb].
    rewrite <- Hd. unfold message_destination. rewrite <- Hlen, Hz.
    destruct (find_address route_destination _) as [a|] eqn:Ha; [|done].
    destruct (Hdest a eq_refl). congruence. }
  cbn [mbind option_bind]. rewrite read_route_table, read_oif, read_metric, read_gateway,
    read_pref_source, read_multipath. subst r. cbn.
  rewrite route_kind_reads_back, route_scope_reads_back, map_map by done. do 2 f_equal.
  rewrite map_map. apply map_ext. intros hop. apply nexthop_reads_back.
Qed.

(** ** Routes of the daemon *)

(** The route as the kernel knows it: no host bits, the main table implicit. *)
Definition kernel_form `{IpNetLib} (route : AppliedRoute) : AppliedRoute :=
  mkAppliedRoute (trunc (ar_destination route)) (ar_interface_index route) (ar_metric route)
    (ar_gateway route) (t ← ar_table route; if Z.eqb t HEADER_TABLE_MAIN then None else Some t).

(** A route request read as a dump of the kernel gives the route: what
    [owned_route_snapshot] reports is what the daemon asked for. *)
Theorem route_request_reads_back `{IpNetLib} (route : AppliedRoute) (op : RouteOp)
    (Hlen : (prefix_len (ar_destination route) ≤ addr_width (net_addr (ar_destination route)))%Z) :
  owned_route_snapshot (route_request route op) = Some (kernel_form route).
Proof.
  set (d := trunc (ar_destination route)). set (m := route_request route op).
  assert (∃ table, rm_attributes m =
    RouteDestination (route_address (net_addr d)) :: table ++
    [RouteOif (ar_interface_index route); RoutePriority (ar_metric route)]
    ++ match ar_gateway route with Some gw => [RouteGateway (route_address gw)] | None => [] end ∧
    rm_prefix_length m = prefix_len (ar_destination route) ∧ rm_protocol m = RTPROT_NETWORK_ORCHESTRATOR ∧
    rm_kind m = Unicast ∧
    ((∃ t, table = [RouteTable t] ∧ ar_table route = Some t) ∨
     table = [] ∧ rm_table m = unwrap_or (ar_table route) HEADER_TABLE_MAIN)) as Hshape.
  { subst m. unfold route_request. destruct (ar_table route) as [t|]; [destruct (Z.leb t 255)|];
      eexists; (split; [reflexivity|]); repeat (split; [done|]); eauto. }
  destruct Hshape as (table & Hattrs & Hplen & Hproto & Hkind & Htable).
  assert (message_destination m = Some d) as Hdest.
  { unfold message_destination. rewrite Hattrs. unfold find_address. cbn. rewrite address_of_route_address.
    rewrite Hplen. subst d. rewrite <- (trunc_prefix_len (ar_destination route)).
    apply net_new_exact; [apply trunc_idem|]. rewrite trunc_prefix_len.
    pose proof (trunc_family (ar_destination route)) as Hf. unfold net_is_ipv4 in Hf.
    unfold addr_width in *. by rewrite Hf. }
  unfold owned_route_snapshot. rewrite Hproto, Hkind, Hdest, Hattrs. cbn.
  unfold kernel_form. fold d. destruct Htable as [(t & -> & ->)|[-> ->]]; cbn.
  - destruct (ar_gateway route) as [[]|]; cbn; reflexivity.
  - destruct (ar_table route) as [t|]; cbn; [destruct (Z.eqb_spec t HEADER_TABLE_MAIN) as [->|Hne]|];
      destruct (ar_gateway route) as [[]|]; cbn; try reflexivity;
      by rewrite (proj2 (Z.eqb_neq _ _) Hne).
Qed.

(** ** Rules of the daemon *)

Lemma remove_first_perm p l l' :
  remove_first p l = Some l' → ∃ a, p a = true ∧ l ≡ₚ a :: l'.
Proof.
  revert l'. induction l as [|b l IH]; intros l'; simpl; [done|]. destruct (p b) eqn:Hb.
  - intros [= <-]. by exists b.
  - destruct (remove_first p l) as [k|]; [|done]. intros [= <-].
    destruct (IH k eq_refl) as (a & Ha & Hperm). exists a. split; [done|]. rewrite Hperm. apply perm_swap.
Qed.

Lemma remove_first_none p l : remove_first p l = None → ∀ a, a ∈ l → p a = false.
Proof.
  induction l as [|b l IH]; simpl; [by intros _ a ?%elem_of_nil|]. destruct (p b) eqn:Hb; [done|].
  destruct (remove_first p l); [done|]. intros _ a [->|Ha]%elem_of_cons; auto.
Qed.

Lemma take_all_spec expected l : take_all expected l = true ↔ ∃ rest, l ≡ₚ expected ++ rest.
Proof.
  revert l. induction expected as [|a expected IH]; intros l; simpl; [split; [by exists l|done]|].
  destruct (remove_first _ l) as [k|] eqn:Hk.
  - apply remove_first_perm in Hk as (b & ->%bool_decide_eq_true & Hperm). rewrite IH.
    split; intros [rest Hrest]; exists rest; [by rewrite Hperm, Hrest|].
    apply (Permutation_cons_inv (a := a)). by rewrite <- Hperm.
  - split; [done|]. intros [rest Hrest]. eapply remove_first_none in Hk; [by apply bool_decide_eq_false in Hk|].
    rewrite Hrest. left.
Qed.

Section owned.
Context `{NetlinkLib}.

(** The header and table of a dump of the rule. *)
Definition rule_header_ok (m : RuleMessage) (rule : OwnedRuleResource) : Prop :=
  um_family m = rule_family (or_family rule) ∧ um_src_len m = 0%Z ∧ um_dst_len m = 0%Z ∧
  um_tos m = 0%Z ∧ um_action m = ToTable ∧
  um_flags m = (if or_invert rule then [Invert] else []) ∧ rule_table m = or_table rule ∧
  (um_table m = (if Z.leb (or_table rule) 255 then or_table rule else 0)
   ∨ (or_table rule ≤ 255 ∧ um_table m = 0) ∨ (255 < or_table rule ∧ um_table m = 252))%Z.

Lemma is_owned_rule_spec m rule :
  is_owned_rule m rule = true ↔
  rule_header_ok m rule ∧ normalized rule (um_attributes m) ≡ₚ um_attributes (rule_request rule).
Proof.
  destruct rule_message_default_zero as (Hflags & _ & Hsrc & Hdst & Htos & Htable).
  unfold is_owned_rule. cbv zeta. rewrite <- Is_true_true.
  match goal with |- Is_true (if ?bad then false else ?ok) ↔ _ =>
    transitivity (bad = false ∧ ok = true); [destruct bad; rewrite ?Is_true_true; naive_solver|] end.
  assert (∀ l k : list RuleAttribute, Nat.eqb (length l) (length k) && take_all k l = true ↔ l ≡ₚ k) as ->.
  { intros l k. rewrite andb_true_iff, Nat.eqb_eq, take_all_spec. split.
    - intros [Hlen [rest Hrest]]. rewrite Hrest, length_app in Hlen. destruct rest; [|simpl in Hlen; lia].
      by rewrite Hrest, app_nil_r.
    - intros Hperm. split; [by rewrite Hperm|]. exists []. by rewrite app_nil_r. }
  unfold rule_header_ok. cbn [rule_request um_family um_flags um_table].
  rewrite !orb_false_iff, !negb_false_iff, andb_false_iff, andb_false_iff, !negb_false_iff,
    !bool_decide_eq_true, !Z.eqb_eq, !andb_true_iff.
  rewrite Hflags, Htable, app_nil_l, negb_true_iff, Z.leb_gt, Z.leb_le, !Z.eqb_eq. tauto.
Qed.

(** Reading an attribute that occurs once does not depend on the order. *)
Lemma find_map_one {A B} (f : A → option B) (l : list A) x :
  (∀ a b y, a ∈ l → f a = Some x → b ∈ l → f b = Some y → x = y) →
  (∃ a, a ∈ l ∧ f a = Some x) → find_map f l = Some x.
Proof.
  intros Hone (a & Ha & Hx). induction l as [|b l IH]; [by apply elem_of_nil in Ha|]. simpl.
  destruct (f b) as [y|] eqn:Hb.
  - f_equal. symmetry. eapply Hone; [exact Ha|exact Hx|left|exact Hb].
  - apply elem_of_cons in Ha as [->|Ha]; [congruence|]. apply IH; [|done].
    intros c d z Hc Hcx Hd Hdz. by eapply (Hone c d); [right| |right|].
Qed.

Lemma find_map_some {A B} (f : A → option B) (l : list A) x :
  find_map f l = Some x → ∃ a, a ∈ l ∧ f a = Some x.
Proof.
  induction l as [|b l IH]; simpl; [done|]. destruct (f b) eqn:Hb; [intros [= ->]; exists b; split; [left|done]|].
  intros (a & Ha & Hx)%IH. exists a. split; [by right|done].
Qed.

(** Two lists with the same readings, of which one holds each at most once. *)
Lemma find_map_agree {A B} (f : A → option B) (l k : list A) :
  (∀ x, (∃ a, a ∈ l ∧ f a = Some x) ↔ (∃ a, a ∈ k ∧ f a = Some x)) →
  (∀ a b x y, a ∈ k → f a = Some x → b ∈ k → f b = Some y → x = y) →
  find_map f l = find_map f k.
Proof.
  intros Hsame Hone. destruct (find_map f k) as [x|] eqn:Hk.
  - apply find_map_one; [|by apply Hsame, find_map_some].
    intros a b y Ha Hx Hb Hy. destruct (proj1 (Hsame x)) as (a' & Ha' & Hx'); [eauto|].
    destruct (proj1 (Hsame y)) as (b' & Hb' & Hy'); [eauto|].
    exact (Hone a' b' x y Ha' Hx' Hb' Hy').
  - destruct (find_map f l) as [x|] eqn:Hl; [|done]. exfalso.
    apply find_map_some, Hsame in Hl as (a & Ha & Hx). clear Hsame Hone.
    induction k as [|b k IH]; [by apply elem_of_nil in Ha|]. simpl in Hk.
    destruct (f b) eqn:Hb; [done|]. apply elem_of_cons in Ha as [->|Ha]; [congruence|auto].
Qed.

(** What normalizing drops and adds. *)
Lemma normalized_elem rule l a :
  a ∈ normalized rule l → a ∈ l ∨ a = RuleFwMask U32_MAX.
Proof.
  unfold normalized. cbv zeta. set (k1 := if is_some (or_suppress_prefix_length rule) then _ else _).
  assert (∀ b, b ∈ k1 → b ∈ l) as H1.
  { subst k1. destruct (is_some _); [done|]. by intros b [_ Hb]%elem_of_bfilter. }
  set (k2 := if is_some (or_fwmark rule) && _ then _ else _).
  assert (∀ b, b ∈ k2 → b ∈ l ∨ b = RuleFwMask U32_MAX) as H2.
  { subst k2. intros b. destruct (is_some (or_fwmark rule) && _); [|by left; apply H1].
    intros [Hb|Hb%list_elem_of_singleton]%elem_of_app; [left; by apply H1|by right]. }
  destruct (Z.leb _ 255); [|apply H2]. destruct (remove_first _ k2) as [k3|] eqn:Hk; [|apply H2].
  apply remove_first_perm in Hk as (t & _ & Hperm). intros Ha. apply H2. rewrite Hperm. by right.
Qed.

Lemma elem_normalized rule l a :
  a ∈ l → a ∈ normalized rule l ∨ a = RuleTable (or_table rule)
          ∨ a = RuleSuppressPrefixLen U32_MAX ∧ is_some (or_suppress_prefix_length rule) = false.
Proof.
  intros Ha. unfold normalized. cbv zeta.
  set (k1 := if is_some (or_suppress_prefix_length rule) then _ else _).
  assert (a ∈ k1 ∨ a = RuleSuppressPrefixLen U32_MAX ∧ is_some (or_suppress_prefix_length rule) = false)
    as [H1|H1]; [|set (k2 := if is_some (or_fwmark rule) && _ then _ else _)|by right; right].
  { subst k1. destruct (is_some _); [by left|].
    destruct (decide (a = RuleSuppressPrefixLen U32_MAX)) as [->|Hne]; [by right|]. left.
    apply elem_of_bfilter. split; [|done]. by apply negb_true_iff, bool_decide_eq_false. }
  assert (a ∈ k2) as H2.
  { subst k2. destruct (is_some (or_fwmark rule) && _); [|done]. apply elem_of_app. by left. }
  destruct (Z.leb _ 255); [|by left]. destruct (remove_first _ k2) as [k3|] eqn:Hk; [|by left].
  apply remove_first_perm in Hk as (t & ->%bool_decide_eq_true & Hperm). rewrite Hperm in H2.
  apply elem_of_cons in H2 as [->|H2]; [by right; left|by left].
Qed.

Lemma normalized_reads {B} (f : RuleAttribute → option B) rule l x :
  (∀ n, f (RuleFwMask n) = None) → (∀ n, f (RuleTable n) = None) →
  (is_some (or_suppress_prefix_length rule) = true ∨ f (RuleSuppressPrefixLen U32_MAX) = None) →
  (∃ a, a ∈ l ∧ f a = Some x) ↔ (∃ a, a ∈ normalized rule l ∧ f a = Some x).
Proof.
  intros Hmask Htable Hsup. split; intros (a & Ha & Hx); exists a; (split; [|done]).
  - apply (elem_normalized rule) in Ha as [Ha|[->|[-> Hno]]]; [done|congruence|].
    destruct Hsup; congruence.
  - apply normalized_elem in Ha as [Ha|Ha]; [done|congruence].
Qed.

(** Where the attributes of the request hold [f] once, the dump reads so. *)
Lemma owned_rule_reads {B} (f : RuleAttribute → option B) m rule :
  is_owned_rule m rule = true →
  (∀ n, f (RuleFwMask n) = None) → (∀ n, f (RuleTable n) = None) →
  (is_some (or_suppress_prefix_length rule) = true ∨ f (RuleSuppressPrefixLen U32_MAX) = None) →
  (∀ a b x y, a ∈ um_attributes (rule_request rule) → f a = Some x →
     b ∈ um_attributes (rule_request rule) → f b = Some y → x = y) →
  find_map f (um_attributes m) = find_map f (um_attributes (rule_request rule)).
Proof.
  intros [_ Hperm]%is_owned_rule_spec Hmask Htable Hsup Hone. apply find_map_agree; [|done].
  intros x. rewrite normalized_reads by done. by setoid_rewrite Hperm.
Qed.

Lemma request_attributes rule a :
  a ∈ um_attributes (rule_request rule) →
  a = RuleTable (or_table rule) ∨ a = RulePriority (or_priority rule) ∨
  (∃ mark, or_fwmark rule = Some mark ∧ (a = RuleFwMark mark ∨ a = RuleFwMask U32_MAX)) ∨
  (∃ n, or_suppress_prefix_length rule = Some n ∧ a = RuleSuppressPrefixLen n) ∨
  a = RuleProtocol RTPROT_NETWORK_ORCHESTRATOR.
Proof.
  unfold rule_request. cbn [um_attributes]. destruct rule_message_default_zero as (_ & -> & _).
  destruct (Z.leb _ 255), (or_fwmark rule), (or_suppress_prefix_length rule); cbn;
    rewrite !elem_of_cons, elem_of_nil; naive_solver.
Qed.

(** Any attribute of the request but these is read at most once. *)
Lemma request_reads_once {B} (f : RuleAttribute → option B) rule :
  (∀ n, f (RuleFwMask n) = None) → (∀ n, f (RuleTable n) = None) →
  ((∀ a, is_some (f a) = is_some (rule_priority_attr a)) ∨ (∀ a, is_some (f a) = is_some (rule_fwmark a))
   ∨ (∀ a, is_some (f a) = true → is_some (rule_suppress_prefix a) = true)
   ∨ (∀ a, is_some (f a) = is_some (rule_protocol a))) →
  ∀ a b x y, a ∈ um_attributes (rule_request rule) → f a = Some x →
    b ∈ um_attributes (rule_request rule) → f b = Some y → x = y.
Proof.
  intros Hmask Htable Hkind a b x y Ha Hx Hb Hy.
  assert (is_some (f a) = true ∧ is_some (f b) = true) as [Hfa Hfb] by (by rewrite Hx, Hy).
  assert (a = b) as ->; [|congruence].
  apply request_attributes in Ha as [-> | [-> | [(? & ? & [-> | ->]) | [(? & ? & ->) | ->]]]];
    apply request_attributes in Hb as [-> | [-> | [(? & ? & [-> | ->]) | [(? & ? & ->) | ->]]]];
    try congruence;
    destruct Hkind as [Hk|[Hk|[Hk|Hk]]];
    repeat match goal with
      | H : is_some (f ?c) = true |- _ => first [rewrite Hk in H | apply Hk in H]; simpl in H; try done
      end.
Qed.

(** What the inventory shows of a rule of the daemon. *)
Definition owned_view (rule : OwnedRuleResource) (mask : option Z) : SystemRule :=
  {| ru_family := or_family rule; ru_priority := or_priority rule; ru_action := "lookup";
     ru_table := or_table rule; ru_goto := None; ru_from := None; ru_to := None;
     ru_fwmark := or_fwmark rule; ru_fwmask := mask; ru_iifname := None; ru_oifname := None;
     ru_uid_range := None; ru_source_port_range := None; ru_destination_port_range := None;
     ru_ip_protocol := None;
     ru_suppress_prefix_length := set_suppressor (or_suppress_prefix_length rule);
     ru_suppress_if_group := None; ru_tun_id := None; ru_tos := 0;
     ru_invert := or_invert rule; ru_protocol := RTPROT_NETWORK_ORCHESTRATOR; ru_managed := true |}.

(** A reading the request has no attribute for. *)
Lemma owned_rule_none {B} (f : RuleAttribute → option B) m rule :
  is_owned_rule m rule = true →
  (∀ n, f (RuleFwMask n) = None) → (∀ n, f (RuleTable n) = None) →
  (∀ n, f (RulePriority n) = None) → (∀ n, f (RuleFwMark n) = None) →
  (∀ n, f (RuleSuppressPrefixLen n) = None) → (∀ n, f (RuleProtocol n) = None) →
  find_map f (um_attributes m) = None.
Proof.
  intros [_ Hperm]%is_owned_rule_spec Hmask Htable Hprio Hmark Hsup Hproto.
  destruct (find_map f (um_attributes m)) as [x|] eqn:Hf; [|done]. exfalso.
  apply find_map_some in Hf. rewrite normalized_reads in Hf by auto. destruct Hf as (a & Ha & Hx).
  rewrite Hperm in Ha.
  apply request_attributes in Ha as [-> | [-> | [(? & ? & [-> | ->]) | [(? & ? & ->) | ->]]]]; congruence.
Qed.

Lemma owned_rule_mask m rule :
  is_owned_rule m rule = true →
  find_map rule_fwmask (um_attributes m) = None ∨ find_map rule_fwmask (um_attributes m) = Some U32_MAX.
Proof.
  intros [_ Hperm]%is_owned_rule_spec.
  destruct (find_map rule_fwmask (um_attributes m)) as [n|] eqn:Hf; [right|by left].
  apply find_map_some in Hf as (a & Ha & Hx). destruct a; simplify_eq/=.
  apply (elem_normalized rule) in Ha as [Ha|[|[]]]; [|done..]. rewrite Hperm in Ha.
  apply request_attributes in Ha as [? | [? | [(? & ? & [? | ?]) | [(? & ? & ?) | ?]]]]; by simplify_eq.
Qed.

Ltac read_request :=
  unfold rule_request; cbn [um_attributes]; rewrite default_attributes;
  destruct (Z.leb _ 255), (or_fwmark _), (or_suppress_prefix_length _); reflexivity.

Lemma owned_rule_some rule m :
  is_owned_rule m rule = true →
  rule_priority m = Some (or_priority rule) ∧
  find_map rule_fwmark (um_attributes m) = or_fwmark rule ∧
  suppressor rule_suppress_prefix (um_attributes m) = set_suppressor (or_suppress_prefix_length rule) ∧
  find_map rule_protocol (um_attributes m) = Some RTPROT_NETWORK_ORCHESTRATOR.
Proof.
  intros Hm. unfold rule_priority, suppressor. split; [|split; [|split]].
  - rewrite (owned_rule_reads _ m rule Hm); [read_request|done|done|by right|].
    apply request_reads_once; [done|done|by left].
  - rewrite (owned_rule_reads _ m rule Hm); [read_request|done|done|by right|].
    apply request_reads_once; [done|done|by right; left].
  - rewrite (owned_rule_reads _ m rule Hm).
    + unfold rule_request. cbn [um_attributes]. rewrite default_attributes.
      destruct (Z.leb _ 255), (or_fwmark _), (or_suppress_prefix_length _) as [n|]; try reflexivity;
        cbn; by destruct (Z.eqb n U32_MAX).
    + done.
    + done.
    + by right.
    + apply request_reads_once; [done|done|right; right; left].
      intros a. by destruct (rule_suppress_prefix a).
  - rewrite (owned_rule_reads _ m rule Hm); [read_request|done|done|by right|].
    apply request_reads_once; [done|done|by right; right; right].
Qed.

Lemma owned_rule_viewed `{IpNetLib} m rule :
  is_owned_rule m rule = true →
  ∃ mask, (mask = None ∨ mask = Some U32_MAX) ∧ system_rule m = owned_view rule mask.
Proof.
  intros Hm. pose proof (owned_rule_some rule m Hm) as (Hprio & Hmark & Hsup & Hproto).
  assert (Hm' := Hm). apply is_owned_rule_spec in Hm' as [(Hfam & Hsrc & Hdst & Htos & Haction & Hflags & Htable & _) _].
  exists (find_map rule_fwmask (um_attributes m)). split; [by apply (owned_rule_mask m rule)|].
  unfold system_rule, owned_view, rule_selector. rewrite Hprio, Hmark, Hsup, Hproto, Htable, Htos, Haction, Hsrc, Hdst.
  assert (find_map rule_goto (um_attributes m) = None ∧ find_map rule_source (um_attributes m) = None ∧
    find_map rule_destination (um_attributes m) = None ∧ find_map rule_iifname (um_attributes m) = None ∧
    find_map rule_oifname (um_attributes m) = None ∧ find_map rule_uid_range (um_attributes m) = None ∧
    find_map rule_source_ports (um_attributes m) = None ∧
    find_map rule_destination_ports (um_attributes m) = None ∧
    find_map rule_ip_protocol (um_attributes m) = None ∧ find_map rule_tun_id (um_attributes m) = None ∧
    suppressor rule_suppress_group (um_attributes m) = None)
    as (-> & -> & -> & -> & -> & -> & -> & -> & -> & -> & ->).
  { repeat split; by apply (owned_rule_none _ m rule Hm). }
  cbn. f_equal.
  - unfold family_of_rule. rewrite Hfam. by destruct (or_family rule).
  - unfold has_invert. rewrite Hflags. by destruct (or_invert rule).
Qed.

(** A dump of the rule as the kernel writes it: the attributes of the request
    in some order, the table once more if the header holds it, and an unset
    suppressor as [UINT_MAX]. *)
Definition kernel_echo (rule : OwnedRuleResource) (table_echoed : bool) (m : RuleMessage) : Prop :=
  rule_header_ok m rule ∧
  um_attributes m ≡ₚ um_attributes (rule_request rule)
    ++ (if Z.leb (or_table rule) 255 && table_echoed then [RuleTable (or_table rule)] else [])
    ++ (if is_some (or_suppress_prefix_length rule) then [] else [RuleSuppressPrefixLen U32_MAX]).

Lemma bfilter_perm {A} (p : A → bool) (l k : list A) : l ≡ₚ k → bfilter p l ≡ₚ bfilter p k.
Proof.
  induction 1 as [|x l k _ IH|x y l|l k n _ IH1 _ IH2]; simpl; [done| | |by rewrite IH1].
  - unfold bfilter in *. destruct (p x); by rewrite IH.
  - unfold bfilter. destruct (p x), (p y); try done. apply perm_swap.
Qed.


Lemma remove_first_eq a l k :
  l ≡ₚ a :: k → ∃ l', remove_first (λ c, c =b a) l = Some l' ∧ l' ≡ₚ k.
Proof.
  intros Hl. destruct (remove_first _ l) as [l'|] eqn:Hr.
  - exists l'. split; [done|]. apply remove_first_perm in Hr as (b & ->%bool_decide_eq_true & Hp).
    apply (Permutation_cons_inv (a := a)). by rewrite <- Hp.
  - eapply remove_first_none in Hr; [by apply bool_decide_eq_false in Hr|]. rewrite Hl. left.
Qed.

Lemma echo_recognised rule echoed m : kernel_echo rule echoed m → is_owned_rule m rule = true.
Proof.
  intros [Hheader Hattrs]. apply is_owned_rule_spec. split; [done|]. unfold normalized. cbv zeta.
  set (expected := um_attributes (rule_request rule)) in *.
  set (table := if Z.leb (or_table rule) 255 && echoed then _ else _) in Hattrs.
  set (k1 := if is_some (or_suppress_prefix_length rule) then _ else _).
  assert (k1 ≡ₚ expected ++ table) as H1.
  { subst k1. destruct (or_suppress_prefix_length rule) as [n|] eqn:Hs; cbn [is_some] in *.
    { by rewrite Hattrs, app_nil_r. }
    rewrite (bfilter_perm _ _ _ Hattrs), app_assoc. unfold bfilter. rewrite List.filter_app. simpl.
    rewrite app_nil_r. apply reflexive_eq, bfilter_all, Forall_forall.
    intros a Ha. apply negb_true_iff, bool_decide_eq_false. intros ->.
    apply elem_of_app in Ha as [Ha|Ha].
    - apply request_attributes in Ha as [? | [? | [(? & ? & [? | ?]) | [(? & ? & ?) | ?]]]]; congruence.
    - subst table. destruct (_ && _); [by apply list_elem_of_singleton in Ha|by apply elem_of_nil in Ha]. }
  set (k2 := if is_some (or_fwmark rule) && _ then _ else _).
  assert (k2 ≡ₚ table ++ expected) as H2.
  { rewrite Permutation_app_comm in H1. subst k2. destruct (or_fwmark rule) as [mark|] eqn:Hmark; [|done].
    assert (existsb (λ a, is_some (rule_fwmask a)) k1 = true) as ->; [|done].
    apply existsb_exists. exists (RuleFwMask U32_MAX). split; [|done]. apply list_elem_of_In. rewrite H1.
    apply elem_of_app. right. subst expected. unfold rule_request. rewrite Hmark. cbn [um_attributes].
    rewrite !elem_of_app, !elem_of_cons. tauto. }
  subst table. destruct (Z.leb (or_table rule) 255) eqn:Hsmall; [|done]. destruct echoed; simpl in H2.
  - destruct (remove_first_eq _ _ _ H2) as (l' & -> & Hl'). done.
  - destruct (remove_first _ k2) as [l'|] eqn:Hr; [|done]. exfalso.
    apply remove_first_perm in Hr as (a & ->%bool_decide_eq_true & Hp). rewrite H2 in Hp.
    assert (RuleTable (or_table rule) ∈ expected) as Hin by (rewrite Hp; left). subst expected.
    unfold rule_request in Hin. rewrite Hsmall in Hin. cbn [um_attributes] in Hin.
    rewrite default_attributes in Hin.
    destruct (or_fwmark rule), (or_suppress_prefix_length rule); cbn in Hin;
      rewrite ?elem_of_cons, ?elem_of_nil in Hin; naive_solver.
Qed.

(** C22. The daemon recognises its rules: a dump of the request is taken for
    it, and only messages are that the core takes for the journaled rule too
    ([same_rule]) and shows as managed. *)
Theorem own_rules_recognised `{IpNetLib} (rule : OwnedRuleResource) (m : RuleMessage)
    (Hset : or_suppress_prefix_length rule ≠ Some U32_MAX) :
  (∀ echoed, kernel_echo rule echoed m → is_owned_rule m rule = true) ∧
  (is_owned_rule m rule = true →
   same_rule (system_rule m) rule = true ∧ ru_managed (system_rule m) = true).
Proof.
  split; [intros echoed; apply echo_recognised|].
  intros (mask & _ & ->)%owned_rule_viewed. split; [|done].
  assert (set_suppressor (or_suppress_prefix_length rule) = or_suppress_prefix_length rule) as Hs.
  { destruct (or_suppress_prefix_length rule) as [n|]; [|done]. simpl.
    destruct (Z.eqb_spec n U32_MAX) as [->|]; congruence. }
  unfold same_rule, owned_view. cbn. by rewrite Hs, !bool_decide_true, eqb_reflx by done.
Qed.

End owned.

(** ** Examples *)

#[local] Existing Instance ipnet_model.
Definition netlink_model : NetlinkLib :=
  {| route_message_default := mkRouteMessage (OtherFamily 0) 0 0 0 Universe TypeUnspec [];
     route_message_default_empty := eq_refl;
     rule_message_default := mkRuleMessage (OtherFamily 0) 0 0 0 0 ActionUnspec [] [];
     rule_message_default_zero := conj eq_refl (conj eq_refl (conj eq_refl (conj eq_refl
       (conj eq_refl eq_refl)))) |}.

#[local] Existing Instance netlink_model.

(** A rule of another program: ESP from 10.1.0.0/16 looks up table 1000. *)
Definition foreign_rule : RuleMessage :=
  mkRuleMessage Inet 0 16 0 252 ToTable []
    [RuleTable 1000; RulePriority 900; RuleSource (ip4 10 1 0 0); RuleIpProtocol 50;
     RuleSuppressPrefixLen U32_MAX; RuleProtocol 4].

Lemma rule_view_restores_witness :
  rule_codes foreign_rule ∧
  ru_ip_protocol (system_rule foreign_rule) = Some "50"%string ∧
  system_rule (system_rule_message (system_rule foreign_rule)) = system_rule foreign_rule.
Proof.
  assert (rule_codes foreign_rule) as Hcodes.
  { split; [exact I|]. intros p [= <-]. unfold i32. lia. }
  split; [exact Hcodes|]. split; [vm_compute; reflexivity|]. exact (rule_view_restores _ Hcodes).
Defined.

(** A multipath default route of a routing daemon. *)
Definition foreign_route : RouteMessage :=
  mkRouteMessage Inet 0 254 186 Universe Unicast
    [RoutePriority 20;
     RouteMultiPath [mkRouteNextHop 2 0 [RouteGateway (RouteInet 3232235521)];
                     mkRouteNextHop 3 1 [RouteGateway (RouteInet 3232235777)]]].
Definition foreign_names : gmap Z string := {[2%Z := "eth0"%string; 3%Z := "eth1"%string]}.
Definition foreign_view : SystemRoute :=
  mkSystemRoute Ipv4 (mkNet (V4 0) 0) 254 "unicast" "universe" 186 false None None None (Some 20%Z) None
    [mkNexthop (Some (V4 3232235521)) 2 (Some "eth0"%string) 0;
     mkNexthop (Some (V4 3232235777)) 3 (Some "eth1"%string) 1].

Lemma route_view_restores_witness :
  route_codes foreign_route ∧ system_route foreign_route foreign_names = Some foreign_view ∧
  system_route (system_route_message foreign_view) foreign_names = Some foreign_view.
Proof.
  assert (route_codes foreign_route) as Hcodes by done.
  assert (system_route foreign_route foreign_names = Some foreign_view) as Hview by (vm_compute; reflexivity).
  split; [exact Hcodes|]. split; [exact Hview|]. exact (route_view_restores _ _ _ Hcodes Hview).
Defined.

Lemma route_request_reads_back_witness :
  owned_route_snapshot (route_request (mkAppliedRoute (mkNet (ip4 10 1 2 3) 8) 4 5 None (Some 254%Z)) OpAdd)
  = Some (mkAppliedRoute (mkNet (ip4 10 0 0 0) 8) 4 5 None None).
Proof.
  rewrite (route_request_reads_back (mkAppliedRoute (mkNet (ip4 10 1 2 3) 8) 4 5 None (Some 254%Z)) OpAdd);
    [vm_compute; reflexivity|vm_compute; discriminate].
Defined.

(** The rule that sends unmarked packets to a tunnel, as the kernel shows it. *)
Definition tunnel_rule : OwnedRuleResource := mkOwnedRule Ipv4 10001 52000 (Some 51820%Z) true None.
Definition tunnel_rule_dump : RuleMessage :=
  mkRuleMessage Inet 0 0 0 252 ToTable [Invert]
    [RulePriority 10001; RuleProtocol 79; RuleTable 52000; RuleSuppressPrefixLen U32_MAX;
     RuleFwMark 51820; RuleFwMask U32_MAX].

Lemma own_rules_recognised_witness :
  or_suppress_prefix_length tunnel_rule ≠ Some U32_MAX ∧
  same_rule (system_rule tunnel_rule_dump) tunnel_rule = true.
Proof.
  assert (or_suppress_prefix_length tunnel_rule ≠ Some U32_MAX) as Hset by discriminate.
  split; [exact Hset|].
  destruct (own_rules_recognised tunnel_rule tunnel_rule_dump Hset) as [_ Hview].
  apply Hview. vm_compute. reflexivity.
Defined.
