(* ===== verification/RouteIntents.v ===== *)
(** * Routing intents as pure rules

    [crates/core/src/route_intents.rs]: what a request may say, which routes
    an intent wants given the live network, and how a wanted route compares
    with the route table. *)

From S2P Require Export Types.

Definition MAX_DESTINATIONS : Z := 64.
Definition DEFAULT_METRIC : Z := 100.
Definition MAX_ID_LEN : Z := 64.

Inductive IntentPath : Type :=
| PathDirect
| PathInterface (name : string)
| PathGateway (gateway : IpAddr).

Record Intent : Type := mkIntent {
  in_id : string;
  in_destinations : list IpNet;
  in_path : IntentPath;
  in_metric : Z;
  in_enabled : bool;
}.

Definition captures_default (intent : Intent) : bool :=
  existsb (λ net, Z.leb (prefix_len net) 1) (in_destinations intent).

(** ** The live network *)

Record Uplink : Type := mkUplink { up_interface : string; up_gateway : option IpAddr }.

(** [IfaceAddr] *)
Record LocalAddr : Type := mkLocalAddr {
  la_if_index : Z;
  la_interface : string;
  la_address : IpNet;
}.

Record NetworkView : Type := mkNetworkView {
  nv_uplink : option Uplink;
  nv_interfaces : list string;
  nv_addresses : list LocalAddr;
}.

Inductive RouteTarget : Type :=
| ToGateway (gateway : IpAddr)
| ToInterface (name : string).

Record WantedRoute : Type := mkWanted { wr_destination : IpNet; wr_target : RouteTarget }.

Inductive Derivation : Type :=
| DerivedDisabled
| DerivedDeferred (reason : text)
| DerivedRoutes (routes : list WantedRoute) (skipped : list (IpNet * text)).

Inductive RouteState : Type :=
| RoutePresent
| RouteMissing
| RouteConflicted (detail : text).

#[export] Instance Uplink_eq_dec : EqDecision Uplink.
Proof. solve_decision. Defined.
#[export] Instance LocalAddr_eq_dec : EqDecision LocalAddr.
Proof. solve_decision. Defined.
#[export] Instance NetworkView_eq_dec : EqDecision NetworkView.
Proof. solve_decision. Defined.
#[export] Instance RouteTarget_eq_dec : EqDecision RouteTarget.
Proof. solve_decision. Defined.
#[export] Instance WantedRoute_eq_dec : EqDecision WantedRoute.
Proof. solve_decision. Defined.
#[export] Instance RouteState_eq_dec : EqDecision RouteState.
Proof. solve_decision. Defined.
#[export] Instance ExplainStatus_eq_dec : EqDecision ExplainStatus.
Proof. solve_decision. Defined.
#[export] Instance TunnelBackend_eq_dec : EqDecision TunnelBackend.
Proof. solve_decision. Defined.

(** ** What a request may say *)

Definition id_start (c : Z) : bool := is_ascii_lowercase c || is_ascii_digit c.
Definition id_rest (c : Z) : bool := id_start c || Z.eqb c (ch "_") || Z.eqb c (ch "-").

Definition valid_id (id : string) : bool :=
  Z.leb (Z.of_nat (str_len id)) MAX_ID_LEN &&
  match chars id with
  | [] => false
  | c :: rest => id_start c && forallb id_rest rest
  end.

Definition valid_interface (name : string) : bool :=
  Z.leb (Z.of_nat (str_len name)) 15 &&
  match chars name with
  | [] => false
  | c :: rest => is_ascii_alphabetic c && forallb is_ascii_alphanumeric rest
  end.

(** 169.254.0.0/16 and fe80::/10 *)
Definition link_local (a : IpAddr) : bool :=
  match a with
  | V4 z => v4_is_link_local z
  | V6 z => Z.eqb (Z.land (v6_segment0 z) 65472) 65152
  end.

(** What the code here reads of [models::Profile]. *)
Record StaticProfile : Type := mkStaticProfile {
  spf_id : string;
  spf_backend : TunnelBackend;
  spf_interface_name : string;
  spf_routes : list PolicyRoute;
}.

Section rules.
Context `{IpNetLib} (show_ip : IpAddr → string).

(** [IpNet::network] *)
Definition network (net : IpNet) : IpAddr := net_addr (trunc net).

Definition check_routable (net : IpNet) (shown : tok) : result unit text :=
  let address := network net in
  let host := Z.eqb (prefix_len net) (addr_width (net_addr net)) in
  if is_loopback address || is_multicast address || link_local address
     || (is_unspecified address && host)
  then Err [TStr "'"; shown; TStr "' cannot be routed by an intent"]
  else Ok tt.

Definition check_gateway (gateway : IpAddr) : result unit text :=
  if is_unspecified gateway || is_loopback gateway || is_multicast gateway || link_local gateway
  then Err (txt "This address cannot be used as a gateway")
  else Ok tt.

Definition parse_destination (raw : string) : result IpNet text :=
  let t := trim raw in
  net <-? ok_or (match parse_net t with
                 | Some net => Some net
                 | None => net_of_ip <$> parse_ip t
                 end) [TStr "'"; TStr t; TStr "' is not an address or network"];
  let net := trunc net in
  _ <-? check_routable net (TStr t);
  Ok net.

(** The loop over the destinations; a network already seen is dropped. *)
Fixpoint parse_destinations (raws : list string) (destinations : list IpNet)
    : result (list IpNet) text :=
  match raws with
  | [] => Ok destinations
  | raw :: rest =>
    net <-? parse_destination raw;
    parse_destinations rest
      (if vec_contains destinations net then destinations else destinations ++ [net])
  end.

Definition normalize_path (p : NetIntentPath) : result IntentPath text :=
  if ip_kind p =b "direct"%string then Ok PathDirect
  else if ip_kind p =b "interface"%string then
    let name := unwrap_or (ip_interface p) "" in
    if negb (valid_interface name) || (name =b "lo0"%string)
    then Err (txt "Choose a network interface for this intent")
    else Ok (PathInterface name)
  else if ip_kind p =b "gateway"%string then
    gateway <-? ok_or (parse_ip (trim (unwrap_or (ip_gateway p) "")))
                  (txt "Enter the gateway as an IP address");
    _ <-? check_gateway gateway;
    Ok (PathGateway gateway)
  else Err (txt "The path must be 'direct', an interface or a gateway").

Definition normalize (params : NetIntentSetParams) : result Intent text :=
  if negb (valid_id (is_id params))
  then Err (txt "The intent name must be lowercase letters, digits, '-' or '_'")
  else if Z.eqb (zlen (is_destinations params)) 0
  then Err (txt "An intent needs at least one destination")
  else if Z.ltb MAX_DESTINATIONS (zlen (is_destinations params))
  then Err [TStr "An intent can have at most "; TNum MAX_DESTINATIONS; TStr " destinations"]
  else
    destinations <-? parse_destinations (is_destinations params) [];
    path <-? normalize_path (is_path params);
    Ok {| in_id := is_id params;
          in_destinations := destinations;
          in_path := path;
          in_metric := unwrap_or (is_metric params) DEFAULT_METRIC;
          in_enabled := unwrap_or (is_enabled params) true |}.

(** ** Static-route profiles *)

Definition STATIC_PREFIX : string := "static-".
Definition BYPASS_SUFFIX : string := "-bypass".
Definition GATEWAY_SUFFIX : string := "-gw".

Definition is_static_intent_id (id : string) : bool := starts_with id STATIC_PREFIX.

Definition slug_char (c : Z) : Z :=
  let c := to_ascii_lowercase c in if id_rest c then c else ch "-".

Definition static_slug (profile_id : string) : string :=
  fold_left (λ s c, str_push s (slug_char c)) (chars profile_id) EmptyString.

Definition static_intent_id (profile_id : string) : result string text :=
  let slug := static_slug profile_id in
  let id := STATIC_PREFIX +:+ slug in
  if str_is_empty slug
     || Z.ltb MAX_ID_LEN (Z.of_nat (str_len id + str_len BYPASS_SUFFIX))
     || negb (valid_id id)
  then Err (txt "This profile's identifier is too long for static routes")
  else Ok id.

Definition static_belongs (profile_id intent_id : string) : bool :=
  match static_intent_id profile_id with
  | Err _ => false
  | Ok base =>
    match strip_prefix intent_id base with
    | None => false
    | Some rest =>
      str_is_empty rest || (rest =b BYPASS_SUFFIX)
      || is_some_and (λ n, negb (str_is_empty n) && forallb is_ascii_digit (chars n))
           (strip_prefix rest GATEWAY_SUFFIX)
    end
  end.

(** The endpoint bypass: each address once. *)
Fixpoint bypass_networks (bypass : list IpAddr) (bypassed : list IpNet)
    : result (list IpNet) text :=
  match bypass with
  | [] => Ok bypassed
  | address :: rest =>
    let net := net_of_ip address in
    _ <-? check_routable net (TNet net);
    bypass_networks rest (if vec_contains bypassed net then bypassed else bypassed ++ [net])
  end.

(** One group per distinct gateway, in the order they first appear. *)
Fixpoint push_gateway (gateway : IpAddr) (route : PolicyRoute)
    (gateways : list (IpAddr * list PolicyRoute)) : list (IpAddr * list PolicyRoute) :=
  match gateways with
  | [] => [(gateway, [route])]
  | (known, routes) :: rest =>
    if known =b gateway then (known, routes ++ [route]) :: rest
    else (known, routes) :: push_gateway gateway route rest
  end.

Fixpoint gateway_groups (routes : list PolicyRoute) (gateways : list (IpAddr * list PolicyRoute))
    : result (list (IpAddr * list PolicyRoute)) text :=
  match routes with
  | [] => Ok gateways
  | route :: rest =>
    match pr_via route with
    | None => gateway_groups rest gateways
    | Some gateway =>
      _ <-? check_gateway gateway;
      gateway_groups rest (push_gateway gateway route gateways)
    end
  end.

Definition route_texts (routes : list PolicyRoute) : list string :=
  map (λ r, net_to_string (pr_destination r)) routes.

Definition bypass_intent (base : string) (bypassed : list IpNet) : NetIntentSetParams := {|
  is_id := base +:+ BYPASS_SUFFIX;
  is_destinations := map net_to_string bypassed;
  is_path := mkIntentPath "direct" None None;
  is_metric := None;
  is_enabled := Some true |}.

Definition interface_intent (base interface : string) (direct : list PolicyRoute)
    : NetIntentSetParams := {|
  is_id := base;
  is_destinations := route_texts direct;
  is_path := mkIntentPath "interface" (Some interface) None;
  is_metric := pr_metric <$> head direct;
  is_enabled := Some true |}.

Definition gateway_intent (base : string) (group : nat * (IpAddr * list PolicyRoute))
    : NetIntentSetParams :=
  let '(index, (gateway, routes)) := group in {|
  is_id := base +:+ GATEWAY_SUFFIX +:+ show_Z (Z.of_nat index + 1);
  is_destinations := route_texts routes;
  is_path := mkIntentPath "gateway" None (Some (show_ip gateway));
  is_metric := pr_metric <$> head routes;
  is_enabled := Some true |}.

Definition static_intents (profile : StaticProfile) (bypass : list IpAddr)
    : result (list NetIntentSetParams) text :=
  if negb (spf_backend profile =b NoBackend)
  then Err (txt "This is not a static-route profile")
  else if Z.eqb (zlen (spf_routes profile)) 0
  then Err (txt "Add at least one route")
  else
    base <-? static_intent_id (spf_id profile);
    let interface := trim (spf_interface_name profile) in
    let needs_interface := existsb (λ route, is_none (pr_via route)) (spf_routes profile) in
    if needs_interface && str_is_empty interface
    then Err (txt "Choose the interface these routes go through")
    else if negb (str_is_empty interface)
            && (negb (valid_interface interface) || (interface =b "lo0"%string))
    then Err [TStr "'"; TStr interface;
              TStr "' is not a macOS interface name such as en0 or utun4"]
    else
      bypassed <-? bypass_networks bypass [];
      let direct := bfilter (λ r, is_none (pr_via r)) (spf_routes profile) in
      gateways <-? gateway_groups (spf_routes profile) [];
      Ok ((if Z.eqb (zlen bypassed) 0 then [] else [bypass_intent base bypassed])
          ++ (if Z.eqb (zlen direct) 0 then [] else [interface_intent base interface direct])
          ++ map (gateway_intent base) (enumerate gateways)).

Definition static_state (views : list NetIntentView) : TunnelState * option text :=
  match List.find (λ view, iv_status view =b Conflicted) views with
  | Some view => (Failed, Some (iv_detail view))
  | None =>
    if forallb (λ view, iv_status view =b Disabled) views then (Stopped, None)
    else
      let waiting := List.find (λ view, (iv_status view =b Deferred)
                                        || (iv_status view =b Missing)) views in
      (Running, iv_detail <$> waiting)
  end.

(** ** The routes an intent wants *)

Definition uplink_reason (gateway : IpAddr) : text :=
  [TStr "it contains the uplink gateway "; TIp gateway].

(** Each destination is held back when it contains the protected address. *)
Fixpoint split_protected {A} (destination : A → IpNet) (target : A → RouteTarget)
    (protect : option IpAddr) (l : list A) : list WantedRoute * list (IpNet * text) :=
  match l with
  | [] => ([], [])
  | x :: rest =>
    let '(routes, skipped) := split_protected destination target protect rest in
    match protect with
    | Some gateway =>
      if contains_ip (destination x) gateway
      then (routes, (destination x, uplink_reason gateway) :: skipped)
      else (mkWanted (destination x) (target x) :: routes, skipped)
    | None => (mkWanted (destination x) (target x) :: routes, skipped)
    end
  end.

(** The target of an intent and the address no destination may contain. *)
Definition intent_target (path : IntentPath) (network : NetworkView)
    : result (RouteTarget * option IpAddr) text :=
  match path with
  | PathDirect =>
    match nv_uplink network with
    | None => Err (txt "there is no network connection to route through")
    | Some uplink =>
      Ok (match up_gateway uplink with
          | Some gateway => ToGateway gateway
          | None => ToInterface (up_interface uplink)
          end, None)
    end
  | PathInterface name =>
    if negb (vec_contains (nv_interfaces network) name)
    then Err [TStr "interface "; TStr name; TStr " is absent"]
    else
      let protect := uplink ← nv_uplink network;
        if negb (up_interface uplink =b name) then up_gateway uplink else None in
      Ok (ToInterface name, protect)
  | PathGateway gateway =>
    if negb (existsb (λ l, contains_ip (la_address l) gateway) (nv_addresses network))
    then Err [TStr "the gateway "; TIp gateway; TStr " is not on a connected network"]
    else Ok (ToGateway gateway, Some gateway)
  end.

Definition derive (intent : Intent) (network : NetworkView) : Derivation :=
  if negb (in_enabled intent) then DerivedDisabled
  else
    match intent_target (in_path intent) network with
    | Err reason => DerivedDeferred reason
    | Ok (target, protect) =>
      let '(routes, skipped) :=
        split_protected id (λ _, target) protect (in_destinations intent) in
      DerivedRoutes routes skipped
    end.

(** ** Comparison with the route table *)

(** An entry for the destination: [IpNet::new(..).is_ok_and(..)]. *)
Definition entry_for (destination : IpNet) (entry : RouteEntry) : bool :=
  is_some_and (λ net, trunc net =b destination)
    (net_new (re_destination entry) (re_prefix_len entry)).

Definition target_matches (target : RouteTarget) (entry : RouteEntry) : bool :=
  match target with
  | ToGateway gateway => re_gateway entry =b Some gateway
  | ToInterface name => re_interface_name entry =b name
  end.

Definition judge (wanted : WantedRoute) (ours : bool) (table : list RouteEntry) : RouteState :=
  match bfilter (entry_for (wr_destination wanted)) table with
  | [] => RouteMissing
  | first :: found =>
    let same := target_matches (wr_target wanted) first
                || existsb (target_matches (wr_target wanted)) found in
    if same && ours then RoutePresent
    else if same then
      RouteConflicted (txt "an identical route that was not installed by this app is in place")
    else RouteConflicted [TStr "another route to "; TNet (wr_destination wanted);
                          TStr " via "; TStr (re_interface_name first); TStr " is in place"]
  end.

(** ** The list entry *)

Definition path_of (path : IntentPath) : NetIntentPath :=
  match path with
  | PathGateway gateway => mkIntentPath "gateway" None (Some (show_ip gateway))
  | PathDirect => mkIntentPath "direct" None None
  | PathInterface name => mkIntentPath "interface" (Some name) None
  end.

Definition is_present (s : RouteState) : bool := s =b RoutePresent.
Definition is_missing (s : RouteState) : bool := s =b RouteMissing.
Definition conflict_detail (s : RouteState) : option text :=
  match s with RouteConflicted detail => Some detail | _ => None end.

Definition retried (routes : list WantedRoute) (installed : nat) : text :=
  [TNum (zlen routes - Z.of_nat installed); TStr " route(s) will be retried"].

Definition skipped_text (skipped : list (IpNet * text)) : text :=
  concat (map (λ '(destination, reason),
    [TStr "; skipped "; TNet destination; TStr ": "] ++ reason) skipped).

Definition view_status (derivation : Derivation) (states : list RouteState)
    : ExplainStatus * text * nat * nat :=
  match derivation with
  | DerivedDisabled => (Disabled, txt "turned off", 0, 0)
  | DerivedDeferred reason => (Deferred, reason, 0, 0)
  | DerivedRoutes routes skipped =>
    let installed := count_if is_present states in
    let '(status, detail) :=
      if Z.eqb (zlen routes) 0 && negb (Z.eqb (zlen skipped) 0)
      then (Conflicted, txt "every destination was skipped")
      else match find_map conflict_detail states with
           | Some detail => (Conflicted, detail)
           | None =>
             if existsb is_missing states then (Missing, retried routes installed)
             else (Effective, [TNum (Z.of_nat installed); TStr " route(s) in place"])
           end in
    (status, detail ++ skipped_text skipped, installed, length routes)
  end.

Definition view (intent : Intent) (derivation : Derivation) (states : list RouteState)
    : NetIntentView :=
  let '(status, detail, installed, wanted) := view_status derivation states in
  {| iv_id := in_id intent;
     iv_destinations := map net_to_string (in_destinations intent);
     iv_path := path_of (in_path intent);
     iv_metric := in_metric intent;
     iv_enabled := in_enabled intent;
     iv_status := status;
     iv_detail := detail;
     iv_installed := installed;
     iv_wanted := wanted |}.

End rules.
