(* ===== verification/RouteConditions.v ===== *)
(** * Conditional routes as pure rules

    [crates/core/src/route_conditions.rs]: when the condition of a rule holds,
    which routes the rule wants then, and how it is reported. *)

From S2P Require Export RouteIntents.

Definition MAX_RULES : Z := 32.
Definition MAX_RULE_ROUTES : Z := 256.
Definition MAX_ID_BYTES : Z := 48.
Definition MAX_NAME_BYTES : Z := 128.

(** Tunnels, loopback and Apple's plumbing. *)
Definition NON_UPLINK_PREFIXES : list string :=
  ["lo"; "utun"; "utap"; "gif"; "stf"; "ipsec"; "ppp"; "tun"; "tap"; "awdl"; "llw"; "anpi"; "ap";
   "p2p"; "bridge"; "vmenet"; "vmnet"]%string.

Definition non_uplink_name (name : string) : bool :=
  existsb (λ prefix, starts_with name prefix) NON_UPLINK_PREFIXES.

Definition global_scope (address : IpAddr) : bool :=
  negb (is_loopback address || is_multicast address || is_unspecified address
        || link_local address).

Definition rule_id_char (c : Z) : bool :=
  is_ascii_alphanumeric c || Z.eqb c (ch ".") || Z.eqb c (ch "_") || Z.eqb c (ch "-").

(** [matches!((destination, via), (V4, V4) | (V6, V6))] *)
Definition same_family_as (destination : IpNet) (via : IpAddr) : bool :=
  Bool.eqb (net_is_ipv4 destination) (is_ipv4 via).

Section rules.
Context `{IpNetLib}.

Definition address_matches (prefix : IpNet) (a : LocalAddr) : bool :=
  negb (Z.eqb (la_if_index a) 0)
  && negb (non_uplink_name (la_interface a))
  && global_scope (net_addr (la_address a))
  && contains_ip prefix (net_addr (la_address a)).

Definition match_interface (addresses : list LocalAddr) (prefix : IpNet) : option string :=
  la_interface <$> min_by_key la_if_index (bfilter (address_matches prefix) addresses).

Definition validate_via (destination : IpNet) (via : IpAddr) : result unit text :=
  if negb (same_family_as destination via)
  then Err [TStr "The gateway "; TIp via; TStr " is not in the address family of ";
            TNet destination]
  else if is_unspecified via || is_multicast via
  then Err [TStr "The gateway "; TIp via; TStr " must be a unicast address"]
  else Ok tt.

Fixpoint validate_rule_routes (routes : list PolicyRoute) (seen : gset IpNet)
    : result unit text :=
  match routes with
  | [] => Ok tt
  | route :: rest =>
    let destination := pr_destination route in
    if negb (trunc destination =b destination)
    then Err [TStr "The destination "; TNet destination; TStr " has host bits set"]
    else
      _ <-? check_routable destination (TNet destination);
      _ <-? match pr_via route with
            | Some via => validate_via destination via
            | None => Ok tt
            end;
      if decide (destination ∈ seen)
      then Err [TStr "The route "; TNet destination; TStr " is listed twice"]
      else validate_rule_routes rest ({[destination]} ∪ seen)
  end.

Definition rule_id_ok (id : string) : bool :=
  negb (str_is_empty id)
  && Z.leb (Z.of_nat (str_len id)) MAX_ID_BYTES
  && is_some_and is_ascii_alphanumeric (head (chars id))
  && forallb rule_id_char (chars id).

Definition validate_rule (rule : ConditionalRouteRule) : result unit text :=
  if negb (rule_id_ok (cr_id rule))
  then Err [TStr "The rule id must be 1-"; TNum MAX_ID_BYTES;
            TStr " characters of letters, digits, '.', '_' or '-'"]
  else if str_is_empty (cr_name rule)
     || Z.ltb MAX_NAME_BYTES (Z.of_nat (str_len (cr_name rule)))
     || existsb is_control (chars (cr_name rule))
  then Err [TStr "The rule name must be 1-"; TNum MAX_NAME_BYTES;
            TStr " characters without control characters"]
  else
    let '(InterfaceAddressIn prefix) := cr_condition rule in
    if negb (trunc prefix =b prefix)
    then Err [TStr "The condition network "; TNet prefix; TStr " has host bits set"]
    else if Z.eqb (zlen (cr_routes rule)) 0 || Z.ltb MAX_RULE_ROUTES (zlen (cr_routes rule))
    then Err [TStr "A rule needs 1-"; TNum MAX_RULE_ROUTES; TStr " routes, got ";
              TNum (zlen (cr_routes rule))]
    else validate_rule_routes (cr_routes rule) ∅.

Definition condition_match (rule : ConditionalRouteRule) (network : NetworkView)
    : option string :=
  let '(InterfaceAddressIn prefix) := cr_condition rule in
  match_interface (nv_addresses network) prefix.

(** Where a route of a matched rule points. *)
Definition rule_target (matched : string) (route : PolicyRoute) : RouteTarget :=
  match pr_via route with
  | Some gateway => ToGateway gateway
  | None => ToInterface matched
  end.

(** The uplink's gateway, unless the rule matched the uplink itself. *)
Definition rule_protect (matched : string) (network : NetworkView) : option IpAddr :=
  uplink ← nv_uplink network;
  if negb (up_interface uplink =b matched) then up_gateway uplink else None.

Definition derive_rule (rule : ConditionalRouteRule) (network : NetworkView) : Derivation :=
  if negb (cr_enabled rule) then DerivedDisabled
  else
    let '(InterfaceAddressIn prefix) := cr_condition rule in
    match condition_match rule network with
    | None => DerivedDeferred [TStr "no interface has an address inside "; TNet prefix]
    | Some matched =>
      let '(routes, skipped) :=
        split_protected pr_destination (rule_target matched) (rule_protect matched network)
          (cr_routes rule) in
      DerivedRoutes routes skipped
    end.

Definition skipped_note (skipped : list (IpNet * text)) : option text :=
  if Z.eqb (zlen skipped) 0 then None
  else Some (concat (map (λ '(i, (destination, reason)),
    (if Nat.eqb i 0 then [] else [TStr "; "])
    ++ [TStr "skipped "; TNet destination; TStr ": "] ++ reason) (enumerate skipped))).

Definition rule_status (derivation : Derivation) (states : list RouteState)
    (matched : option string) : ConditionalRuleStatus :=
  match derivation with
  | DerivedDisabled => mkCondStatus RuleDisabled matched 0 None
  | DerivedDeferred _ => mkCondStatus RuleInactive matched 0 None
  | DerivedRoutes routes skipped =>
    let applied := count_if is_present states in
    let note := skipped_note skipped in
    if Z.eqb (zlen routes) 0 && negb (Z.eqb (zlen skipped) 0)
    then mkCondStatus RuleError matched 0 note
    else match find_map conflict_detail states with
         | Some detail => mkCondStatus RuleError matched applied (Some detail)
         | None =>
           if existsb is_missing states
           then mkCondStatus RuleError matched applied (Some (retried routes applied))
           else mkCondStatus RuleActive matched applied note
         end
  end.

End rules.
