(* ===== verification/HelperRoutes.v ===== *)
(** * Route commands of the macOS helper

    [crates/macos-helper/src/routes.rs]: the arguments of [route(8)], the
    plans of the tunnels and the installation of a plan, all or nothing for
    the routes it requires. *)

From S2P Require Export World RouteIntents.

Definition ROUTE : string := "/sbin/route".

(** [tun::GATEWAY] of [crates/macos-helper/src/tun.rs] *)
Definition GATEWAY : IpAddr := ip4 169 254 10 1.

Definition PROTECTED_V4 : list (IpAddr * Z) :=
  [(ip4 128 0 0 0, 1); (ip4 64 0 0 0, 2); (ip4 32 0 0 0, 3); (ip4 16 0 0 0, 4);
   (ip4 8 0 0 0, 5); (ip4 4 0 0 0, 6); (ip4 2 0 0 0, 7); (ip4 1 0 0 0, 8)]%Z.

(** 8000:: *)
Definition v6_upper_half : IpAddr := V6 (Z.shiftl 32768 112).

Definition PROTECTED_V6 : list (IpAddr * Z) := [(V6 0, 1); (v6_upper_half, 1)]%Z.

Inductive Target : Type :=
| TargetGateway (address : IpAddr)
| TargetInterface (name : string).

Record RouteOp : Type := mkRouteOp {
  op_network : IpAddr;
  op_prefix : Z;
  op_target : Target;
  op_optional : bool;
}.

#[export] Instance Target_eq_dec : EqDecision Target.
Proof. solve_decision. Defined.
#[export] Instance RouteOp_eq_dec : EqDecision RouteOp.
Proof. solve_decision. Defined.

(** [routes::Uplink] *)
Record UplinkV4 : Type := mkUplinkV4 { u4_interface : string; u4_gateway : option Z }.

(** [u32::MAX << (32 - bits)] *)
Definition netmask_v4 (bits : Z) : IpAddr :=
  V4 (if Z.eqb bits 0 then 0 else Z.land (Z.shiftl 4294967295 (32 - bits)) 4294967295)%Z.

Definition describe (op : RouteOp) : text :=
  [TIp (op_network op); TStr "/"; TNum (op_prefix op)].

(** A plan names each destination once. *)
Definition push_op (ops : list RouteOp) (op : RouteOp) : list RouteOp :=
  if existsb (λ have, (op_network have =b op_network op) && Z.eqb (op_prefix have) (op_prefix op)) ops
  then ops else ops ++ [op].

(** 100.64.0.0/10, by its octets *)
Definition tailnet (host : Z) : bool :=
  Z.eqb (Z.land (Z.shiftr host 24) 255) 100
  && Z.eqb (Z.land (Z.land (Z.shiftr host 16) 255) 192) 64.

Definition host_bypass (gateway host : Z) : list RouteOp :=
  if Z.eqb host gateway then []
  else if tailnet host then []
  else [mkRouteOp (V4 host) 32 (TargetGateway (V4 gateway)) true].

Definition plan (uplink : UplinkV4) (tun : string) (bypass : list Z) : list RouteOp :=
  match u4_gateway uplink with
  | Some gateway => flat_map (host_bypass gateway) bypass
  | None => []
  end
  ++ map (λ '(network, prefix), mkRouteOp network prefix (TargetGateway GATEWAY) false) PROTECTED_V4
  ++ map (λ '(network, prefix), mkRouteOp network prefix (TargetInterface tun) false) PROTECTED_V6.

Section plans.
Context `{IpNetLib}.

Definition gateway_routes (gateway : IpAddr) (tun : string) (networks : list IpNet) : list RouteOp :=
  fold_left (λ ops net,
    push_op ops {| op_network := network net;
                   op_prefix := prefix_len net;
                   op_target := if net_is_ipv4 net then TargetGateway gateway
                                else TargetInterface tun;
                   op_optional := true |}) networks [].

(** The routes of one network through an interface. *)
Definition interface_ops (tun : string) (net : IpNet) : list RouteOp :=
  let op network prefix optional := mkRouteOp network prefix (TargetInterface tun) optional in
  if Z.eqb (prefix_len net) 0 then
    if net_is_ipv4 net then [op (V4 0) 1 false; op (ip4 128 0 0 0) 1 false]%Z
    else [op (V6 0) 1 false; op v6_upper_half 1 false]%Z
  else [op (network net) (prefix_len net) (Z.ltb 1 (prefix_len net))].

Definition interface_routes (tun : string) (networks : list IpNet) : list RouteOp :=
  fold_left (λ ops net, fold_left push_op (interface_ops tun net) ops) networks [].

(** ** The default route *)

Definition default_route_line (acc : option string * option Z) (line : string)
    : option string * option Z :=
  let line := trim line in
  match strip_prefix line "interface:" with
  | Some value => (Some (trim value), acc.2)
  | None =>
    match strip_prefix line "gateway:" with
    | Some value =>
      (acc.1, match parse_ip (trim value) with Some (V4 z) => Some z | _ => None end)
    | None => acc
    end
  end.

Definition parse_default_route (output : string) : option UplinkV4 :=
  let '(interface, gateway) := fold_left default_route_line (lines output) (None, None) in
  match interface with
  | Some name => if str_is_empty name then None else Some (mkUplinkV4 name gateway)
  | None => None
  end.

End plans.

(** ** The commands *)

Section commands.
Context `{Env} `{IpNetLib} {S : Type} (show_ip : IpAddr → string).

(** The arguments naming the destination. *)
Definition destination_args (op : RouteOp) : list string :=
  match op_network op with
  | V4 _ =>
    if Z.eqb (op_prefix op) 32 then ["-host"; show_ip (op_network op)]%string
    else ["-net"; show_ip (op_network op); "-netmask"; show_ip (netmask_v4 (op_prefix op))]%string
  | V6 _ =>
    "-inet6"%string ::
    (if Z.eqb (op_prefix op) 128 then ["-host"; show_ip (op_network op)]%string
     else ["-net"; show_ip (op_network op); "-prefixlen"; show_Z (op_prefix op)]%string)
  end.

Definition target_args (op : RouteOp) : list string :=
  match op_target op with
  | TargetGateway address => ["-gateway"; show_ip address]%string
  | TargetInterface name => ["-interface"; name]%string
  end.

Definition args (op : RouteOp) (verb : string) : list string :=
  ["-n"; verb]%string ++ destination_args op ++ target_args op.

Definition add (op : RouteOp) : M S (io_result unit) :=
  let? _ := call (RunTool ROUTE (args op "add")) in
  ret (Ok tt).

(** [args.truncate(args.len() - 2)] *)
Definition delete_args (op : RouteOp) : list string :=
  let args := args op "delete" in take (length args - 2) args.

Definition delete (op : RouteOp) : M S (io_result unit) :=
  let! _ := call (RunTool ROUTE (delete_args op)) in
  ret (Ok tt).

Definition default_args : list string := ["-n"; "get"; "default"]%string.

Definition detect_uplink : M S (io_result UplinkV4) :=
  let? output := call (RunTool ROUTE default_args) in
  match parse_default_route output with
  | None => fail (err_other "no default route to protect")
  | Some uplink =>
    if starts_with (u4_interface uplink) "utun"
    then fail (err_new AlreadyExists "another VPN already owns the default route")
    else ret (Ok uplink)
  end.

Definition remove (ops : list RouteOp) : M S unit :=
  for_each (rev ops) (λ op, delete op ;;; ret tt).

Fixpoint apply_from (ops installed : list RouteOp) : M S (io_result (list RouteOp)) :=
  match ops with
  | [] => ret (Ok installed)
  | op :: rest =>
    let! r := add op in
    match r with
    | Ok _ => apply_from rest (installed ++ [op])
    | Err err =>
      if op_optional op then apply_from rest installed
      else
        remove installed ;;;
        fail (mkErr (ekind err) ([TStr "route "] ++ describe op ++ [TStr ": "] ++ emsg err))
    end
  end.

Definition apply (ops : list RouteOp) : M S (io_result (list RouteOp)) := apply_from ops [].

(** [delete] names the destination alone. *)
Lemma delete_args_eq op : delete_args op = ["-n"; "delete"]%string ++ destination_args op.
Proof.
  unfold delete_args, args. destruct (target_args op) as [|x [|y [|]]] eqn:E;
    try (by unfold target_args in E; destruct (op_target op)).
  rewrite app_assoc, take_app_le by (rewrite length_app; simpl; lia).
  apply take_ge. rewrite !length_app. simpl. lia.
Qed.

End commands.

(** ** What a plan captures *)

(** The route's destination contains the address. *)
Definition covers (op : RouteOp) (a : IpAddr) : bool :=
  let k := (addr_width a - op_prefix op)%Z in
  Bool.eqb (is_ipv4 (op_network op)) (is_ipv4 a)
  && Z.eqb (Z.shiftr (addr_bits a) k) (Z.shiftr (addr_bits (op_network op)) k).

Definition required (ops : list RouteOp) : list RouteOp :=
  bfilter (λ op, negb (op_optional op)) ops.

Lemma required_plan uplink tun bypass :
  required (plan uplink tun bypass)
  = map (λ '(network, prefix), mkRouteOp network prefix (TargetGateway GATEWAY) false) PROTECTED_V4
    ++ map (λ '(network, prefix), mkRouteOp network prefix (TargetInterface tun) false) PROTECTED_V6.
Proof.
  unfold required, plan, bfilter. rewrite !List.filter_app.
  replace (List.filter _ (match u4_gateway uplink with Some _ => _ | None => _ end)) with (@nil RouteOp);
    [reflexivity|].
  destruct (u4_gateway uplink) as [g|]; [|done].
  induction bypass as [|host bypass IH]; [done|]. cbn [flat_map]. rewrite List.filter_app, <- IH, app_nil_r.
  unfold host_bypass. by repeat case_match.
Qed.

(** The first octet decides which of the eight prefixes holds an address. *)
Definition octet_covered (o : Z) : nat :=
  count_if (λ '(network, prefix),
    Z.eqb (Z.shiftr o (8 - prefix)) (Z.shiftr (addr_bits network) (32 - prefix))) PROTECTED_V4.

Lemma octets_covered :
  forallb (λ n, Nat.eqb (octet_covered (Z.of_nat n)) (if Nat.eqb n 0 then 0 else 1)) (seq 0 256) = true.
Proof. vm_compute. reflexivity. Qed.

Lemma octet_covered_once o : (0 ≤ o < 256)%Z → octet_covered o = if Z.eqb o 0 then 0 else 1.
Proof.
  intros Ho. rewrite <- (Z2Nat.id o) by lia.
  pose proof (proj1 (forallb_forall _ _) octets_covered (Z.to_nat o)) as H.
  rewrite (proj1 (Nat.eqb_eq _ _) (H ltac:(apply in_seq; lia))).
  by destruct (Z.to_nat o).
Qed.

Lemma protected_v4_short : Forall (λ x, is_ipv4 x.1 = true ∧ (1 ≤ x.2 ≤ 8)%Z) PROTECTED_V4.
Proof. repeat constructor; done. Qed.

Lemma count_if_map {A B} (f : A → B) p l : count_if p (map f l) = count_if (λ x, p (f x)) l.
Proof.
  unfold count_if, bfilter. induction l as [|x l IH]; simpl; [done|]. destruct (p (f x)); simpl; lia.
Qed.

Lemma count_if_ext {A} (p q : A → bool) l : (∀ x, x ∈ l → p x = q x) → count_if p l = count_if q l.
Proof.
  unfold count_if, bfilter. induction l as [|x l IH]; intros Hpq; simpl; [done|].
  rewrite (Hpq x) by (by left). specialize (IH (λ y Hy, Hpq y (list_elem_of_further _ _ _ Hy))).
  destruct (q x); simpl; by rewrite IH.
Qed.

Lemma v4_captured z :
  (0 ≤ z < 2 ^ 32)%Z →
  count_if (λ op, covers op (V4 z))
    (map (λ '(network, prefix), mkRouteOp network prefix (TargetGateway GATEWAY) false) PROTECTED_V4)
  = if Z.ltb z (2 ^ 24) then 0 else 1.
Proof.
  intros Hz. transitivity (octet_covered (Z.shiftr z 24)).
  - unfold octet_covered. rewrite count_if_map. apply count_if_ext. intros [network prefix] Hin.
    pose proof (proj1 (Forall_forall _ _) protected_v4_short _ Hin) as [Hv4 Hp]. simpl in Hv4, Hp.
    unfold covers, addr_width. cbn [op_network op_prefix is_ipv4 addr_bits]. rewrite Hv4. cbn [Bool.eqb andb].
    rewrite Z.shiftr_shiftr by lia. by replace (24 + (8 - prefix))%Z with (32 - prefix)%Z by lia.
  - rewrite octet_covered_once.
    + rewrite Z.shiftr_div_pow2 by lia. destruct (Z.ltb_spec z (2 ^ 24)).
      * by rewrite Z.div_small by lia.
      * destruct (Z.eqb_spec (z / 2 ^ 24) 0) as [H0|]; [|done].
        pose proof (Z.div_le_mono (2 ^ 24) z (2 ^ 24) ltac:(lia) ltac:(lia)). rewrite Z.div_same in * by lia. lia.
    + rewrite Z.shiftr_div_pow2 by lia. split; [apply Z.div_pos; lia|apply Z.div_lt_upper_bound; lia].
Qed.

Lemma v6_captured tun z :
  (0 ≤ z < 2 ^ 128)%Z →
  count_if (λ op, covers op (V6 z))
    (map (λ '(network, prefix), mkRouteOp network prefix (TargetInterface tun) false) PROTECTED_V6) = 1.
Proof.
  intros Hz. unfold count_if, bfilter, PROTECTED_V6, v6_upper_half, covers, addr_width.
  cbn [map op_network op_prefix is_ipv4 addr_bits Bool.eqb andb List.filter].
  assert (Z.shiftr z (128 - 1) = 0 ∨ Z.shiftr z (128 - 1) = 1)%Z as [-> | ->]; [|done..].
  rewrite Z.shiftr_div_pow2 by lia.
  assert (0 ≤ z / 2 ^ (128 - 1) < 2)%Z; [|lia].
  split; [apply Z.div_pos; lia|apply Z.div_lt_upper_bound; lia].
Qed.

(** Of the routes a full tunnel requires, exactly one holds any given
    address, except that none holds an IPv4 address below 1.0.0.0; this does
    not depend on the uplink or the bypasses. *)
Theorem full_tunnel_captures (uplink : UplinkV4) (tun : string) (bypass : list Z) (a : IpAddr) :
  (0 ≤ addr_bits a < 2 ^ addr_width a)%Z →
  count_if (λ op, covers op a) (required (plan uplink tun bypass))
  = match a with V4 z => if Z.ltb z (2 ^ 24) then 0 else 1 | V6 _ => 1 end.
Proof.
  intros Ha. rewrite required_plan. unfold count_if, bfilter. rewrite List.filter_app, length_app.
  destruct a as [z|z]; [pose proof (v4_captured z Ha) as Hc|pose proof (v6_captured tun z Ha) as Hc];
    unfold count_if, bfilter in Hc; rewrite Hc; [apply Nat.add_0_r|reflexivity].
Qed.

Lemma full_tunnel_captures_witness :
  count_if (λ op, covers op (ip4 8 8 8 8))
    (required (plan (mkUplinkV4 "en0" None) "utun9" [])) = 1.
Proof. by rewrite (full_tunnel_captures (mkUplinkV4 "en0" None) "utun9" [] (ip4 8 8 8 8)). Defined.

(** ** A plan names each destination once *)

Definition op_destination (op : RouteOp) : IpAddr * Z := (op_network op, op_prefix op).

Lemma push_op_nodup ops op : NoDup (map op_destination ops) → NoDup (map op_destination (push_op ops op)).
Proof.
  intros Hn. unfold push_op. destruct (existsb _ ops) eqn:He; [done|].
  rewrite map_app. apply NoDup_app. split; [done|]. split; [|apply NoDup_singleton].
  intros d Hd Heq. apply list_elem_of_singleton in Heq as ->.
  apply list_elem_of_In, in_map_iff in Hd as (x & Hx & Hin).
  apply not_true_iff_false in He. apply He, existsb_exists. exists x. split; [done|].
  injection Hx as -> ->. by rewrite bool_decide_eq_true_2, Z.eqb_refl.
Qed.

Lemma fold_push_nodup {A} (f : list RouteOp → A → list RouteOp) l ops :
  (∀ ops x, NoDup (map op_destination ops) → NoDup (map op_destination (f ops x))) →
  NoDup (map op_destination ops) → NoDup (map op_destination (fold_left f l ops)).
Proof. intros Hf. revert ops. induction l as [|x l IH]; intros ops Hn; simpl; auto. Qed.

(** ** Installing a plan *)

Section install.
Context `{Env} `{IpNetLib} {S : Type} (show_ip : IpAddr → string).

Definition add_event (op : RouteOp) (r : io_result string) : event :=
  Ev (RunTool ROUTE (args show_ip op "add")) r.

(** The add commands and their answers, in order. *)
Definition adds (results : list (RouteOp * io_result string)) : history :=
  rev (map (λ '(op, r), add_event op r) results).

Definition added_ops (results : list (RouteOp * io_result string)) : list RouteOp :=
  map fst (bfilter (λ '(_, r), is_ok r) results).

(** Delete commands for [ops], the last route first. *)
Definition deletes (ops : list RouteOp) (new : history) : Prop :=
  Forall2 (λ e op, ∃ r, e = Ev (RunTool ROUTE (delete_args show_ip op)) r) new ops.

Definition required_added (results : list (RouteOp * io_result string)) : Prop :=
  Forall (λ x, op_optional x.1 = false → is_ok x.2 = true) results.

Lemma remove_deletes ops (s : S) h :
  wp (remove show_ip ops) (λ _ s' h', s' = s ∧ ∃ new, h' = new ++ h ∧ deletes ops new) s h.
Proof.
  unfold remove. apply wp_for_each with (I := λ rest s' h', s' = s ∧ ∃ done' new,
    rev ops = done' ++ rest ∧ h' = new ++ h ∧ deletes (rev done') new).
  - split; [done|]. exists [], []. repeat split. constructor.
  - intros op rest s' h' (-> & done' & new & Hops & -> & Hd). unfold delete. wp_steps.
    split; [done|]. exists (done' ++ [op]), (Ev (RunTool ROUTE (delete_args show_ip op)) a :: new).
    rewrite <- app_assoc. split; [done|]. split; [done|]. rewrite rev_app_distr. simpl.
    constructor; [by exists a|done].
  - intros s' h' (-> & done' & new & Hops & -> & Hd). split; [done|]. exists new. split; [done|].
    rewrite app_nil_r in Hops. by rewrite <- (rev_involutive ops), Hops.
Qed.

Definition outcome (ops : list RouteOp) (h : history) (r : io_result (list RouteOp))
    (h' : history) : Prop :=
  match r with
  | Ok installed => ∃ results,
      map fst results = ops ∧ installed = added_ops results ∧ required_added results ∧
      h' = adds results ++ h
  | Err e => ∃ results op err rest removed,
      ops = map fst results ++ op :: rest ∧ op_optional op = false ∧ required_added results ∧
      ekind e = ekind err ∧ deletes (added_ops results) removed ∧
      h' = removed ++ add_event op (Err err) :: adds results ++ h
  end.

Lemma added_ops_snoc results op r :
  added_ops (results ++ [(op, r)]) = added_ops results ++ (if is_ok r then [op] else []).
Proof. unfold added_ops, bfilter. rewrite List.filter_app, map_app. simpl. by destruct (is_ok r). Qed.

Lemma adds_snoc results op r h :
  adds (results ++ [(op, r)]) ++ h = add_event op r :: adds results ++ h.
Proof. unfold adds. by rewrite map_app, rev_app_distr. Qed.

Lemma apply_from_outcome ops results (s : S) h :
  required_added results →
  wp (apply_from show_ip ops (added_ops results)) (λ r s' h',
    s' = s ∧ outcome (map fst results ++ ops) h r h') s (adds results ++ h).
Proof.
  revert results. induction ops as [|op ops IH]; intros results Hreq; simpl.
  - wp_step. split; [done|]. exists results. by rewrite app_nil_r.
  - unfold add. wp_steps. change (Ev _ a :: adds results ++ h) with (add_event op a :: adds results ++ h).
    assert (is_ok a = true ∨ op_optional op = true →
      wp (apply_from show_ip ops (added_ops (results ++ [(op, a)]))) (λ r s' h',
        s' = s ∧ outcome (map fst results ++ op :: ops) h r h') s (add_event op a :: adds results ++ h)) as Hgo.
    { intros Hok. specialize (IH (results ++ [(op, a)])). rewrite adds_snoc, map_app, <- app_assoc in IH.
      apply IH. apply Forall_app. split; [done|]. apply Forall_singleton. simpl.
      destruct Hok as [|Hopt]; [done|]. by rewrite Hopt. }
    rewrite added_ops_snoc in Hgo. destruct a as [out|err]; wp_steps; simpl in Hgo; [by apply Hgo; left|].
    rewrite app_nil_r in Hgo.
    destruct (op_optional op) eqn:Hopt; [by apply Hgo; right|].
    wp_step. eapply wp_mono; [|apply remove_deletes]. intros _ s' h' (-> & new & -> & Hd). wp_step.
    split; [done|]. by exists results, op, err, ops, new.
Qed.
End install.

(** Installing a plan tries the routes in order. It succeeds when every
    required one did, and returns those whose command succeeded; at the first
    required one that fails it deletes the routes it had added, last first,
    tries no more and returns that failure. *)
Theorem helper_apply_outcome `{Env} {S : Type} (show_ip : IpAddr → string)
    (ops : list RouteOp) (s : S) (h : history) :
  wp (HelperRoutes.apply show_ip ops) (λ r s' h', s' = s ∧ outcome show_ip ops h r h') s h.
Proof. apply (apply_from_outcome show_ip ops [] s h). constructor. Qed.
