(* ===== verification/HelperIntents.v ===== *)
(** * The routing intents the macOS helper enforces

    [crates/macos-helper/src/intents.rs]: the store of intents and
    conditional rules with the routes installed for each, and its operations.
    The probe is [SystemProbe], the network as the tools show it. *)

From S2P Require Export RouteConditions HelperRoutes PrivateStore.

Definition DOCUMENT_VERSION : Z := 1.
Definition MAX_INTENTS_PER_UID : Z := 64.
Definition MAX_DESTINATIONS_TOTAL : Z := 256.
(** In milliseconds. *)
Definition FULL_CHECK : Z := 10000.
Definition IFCONFIG : string := "/sbin/ifconfig".

Record Stored : Type := mkStored {
  sd_uid : Z;
  sd_params : NetIntentSetParams;
  sd_installed : list RouteOp;
}.

Record StoredRule : Type := mkStoredRule {
  sr_uid : Z;
  sr_rule : ConditionalRouteRule;
  sr_installed : list RouteOp;
}.

Record Document : Type := mkDocument {
  do_version : Z;
  do_intents : list Stored;
  do_conditions : list StoredRule;
}.

Record State : Type := mkState {
  st_intents : list Stored;
  st_rules : list StoredRule;
  st_last_view : option NetworkView;
  st_last_full : option Z;
}.

(** [xray::Error] of the helper *)
Inductive HelperError : Type :=
| HelperInvalid (message : text)
| HelperConflict (message : text)
| HelperNotFound (message : text)
| HelperUnavailable (message : text).

Definition with_intents (intents : list Stored) (s : State) : State :=
  mkState intents (st_rules s) (st_last_view s) (st_last_full s).
Definition with_rules (rules : list StoredRule) (s : State) : State :=
  mkState (st_intents s) rules (st_last_view s) (st_last_full s).

Definition with_installed (installed : list RouteOp) (stored : Stored) : Stored :=
  mkStored (sd_uid stored) (sd_params stored) installed.
Definition with_rule_installed (installed : list RouteOp) (stored : StoredRule) : StoredRule :=
  mkStoredRule (sr_uid stored) (sr_rule stored) installed.

(** ** Commands and wanted routes *)

Definition target_of (target : RouteTarget) : Target :=
  match target with
  | ToGateway address => TargetGateway address
  | ToInterface name => TargetInterface name
  end.

Section ops.
Context `{IpNetLib}.

Definition op_of (wanted : WantedRoute) : RouteOp := {|
  op_network := network (wr_destination wanted);
  op_prefix := prefix_len (wr_destination wanted);
  op_target := target_of (wr_target wanted);
  op_optional := false |}.

Definition wanted_of (op : RouteOp) : option WantedRoute :=
  net ← net_new (op_network op) (op_prefix op);
  Some {| wr_destination := trunc net;
          wr_target := match op_target op with
                       | TargetGateway address => ToGateway address
                       | TargetInterface name => ToInterface name
                       end |}.

Definition wanted_routes (derivation : Derivation) : list WantedRoute :=
  match derivation with DerivedRoutes routes _ => routes | _ => [] end.

Definition judge_all (derivation : Derivation) (installed : list RouteOp)
    (table : list RouteEntry) : list RouteState :=
  map (λ wanted, judge wanted (vec_contains installed (op_of wanted)) table)
    (wanted_routes derivation).

(** A recorded route is in place as it was installed. *)
Definition still_ours (table : list RouteEntry) (op : RouteOp) : bool :=
  is_some_and (λ wanted, is_present (judge wanted true table)) (wanted_of op).

(** ** Limits *)

Definition destinations_of (intents : list Stored) : Z :=
  fold_right (λ s total, zlen (is_destinations (sd_params s)) + total)%Z 0%Z intents.
Definition routes_of (rules : list StoredRule) : Z :=
  fold_right (λ r total, zlen (cr_routes (sr_rule r)) + total)%Z 0%Z rules.

(** The list without the element at an index, if there is one. *)
Definition without {A} (i : option nat) (l : list A) : list A :=
  match i with
  | Some i => take i l ++ drop (S i) l
  | None => l
  end.

Definition intent_is (uid : Z) (id : string) (s : Stored) : bool :=
  Z.eqb (sd_uid s) uid && (is_id (sd_params s) =b id).
Definition rule_is (uid : Z) (id : string) (r : StoredRule) : bool :=
  Z.eqb (sr_uid r) uid && (cr_id (sr_rule r) =b id).

(** [match position { Some(i) => l[i] = x, None => l.push(x) }] *)
Definition set_at {A} (i : option nat) (x : A) (l : list A) : list A :=
  match i with
  | Some i => <[i := x]> l
  | None => l ++ [x]
  end.

Definition installed_at {A} (installed : A → list RouteOp) (i : option nat) (l : list A)
    : list RouteOp :=
  unwrap_or (installed <$> (i ← i; l !! i)) [].

End ops.

(** ** The probe and the operations *)

Section executor.
Context `{Env} `{IpNetLib} `{JsonCodec Document} (show_ip : IpAddr → string).
(** [state_dir] of [main.rs]; the store is [intents.json] in it. *)
Context (state_dir : path).

Abbreviation M := (M State).

Definition probe_view : M NetworkView :=
  let! found := detect_uplink in
  let uplink := match found with
    | Ok u => Some (mkUplink (u4_interface u) (V4 <$> u4_gateway u))
    | Err _ => None
    end in
  let! list := call (RunTool IFCONFIG ["-l"%string]) in
  let! inventory := call ListInterfaces in
  ret {| nv_uplink := uplink;
         nv_interfaces := match list with Ok l => split_whitespace l | Err _ => [] end;
         nv_addresses :=
           flat_map (λ i, omap (λ '(address, length),
             mkLocalAddr (li_if_index i) (li_name i) <$> net_new address length)
             (li_addresses i)) (unwrap_or (ok inventory) []) |}.

Definition probe_routes : M (list RouteEntry) :=
  let! r := call ListRoutes in
  ret (unwrap_or (ok r) []).

Definition store_path : path := state_dir ++ ["intents.json"%string].
Definition temp_path : path := state_dir ++ ["intents.json.tmp"%string].

(** [IntentExecutor::new]: what it loads. *)
Definition load : M (io_result unit) :=
  let! r := call (FsRead store_path) in
  match r with
  | Ok bytes =>
    match from_slice bytes with
    | Some document =>
      put (mkState (do_intents document) (do_conditions document) None None) ;;; ret (Ok tt)
    | None => fail (err_new InvalidData "corrupt intents")
    end
  | Err err =>
    if has_kind NotFound err then put (mkState [] [] None None) ;;; ret (Ok tt)
    else fail err
  end.

Definition save : M (io_result unit) :=
  let? _ := call (FsCreateDirAll state_dir) in
  let? _ := call (FsSetPermissions state_dir 448) in
  let! s := get in
  let document := mkDocument DOCUMENT_VERSION (st_intents s) (st_rules s) in
  let? _ := call (FsOpenTruncate temp_path 384) in
  match to_vec document with
  | None => fail (err_other "serialization failed")
  | Some bytes =>
    let? _ := call (FsWriteAll temp_path bytes) in
    let? _ := call (FsSyncAll temp_path) in
    call (FsRename temp_path store_path)
  end.

Definition saved (message : string) : M (result unit HelperError) :=
  let! r := save in
  ret (map_err (λ _, HelperUnavailable (txt message)) r).

Definition withdraw (ops : list RouteOp) (table : list RouteEntry) : M unit :=
  for_each ops (λ op,
    if still_ours table op then HelperRoutes.delete show_ip op ;;; ret tt else ret tt).

(** One wanted route: [installed] and [changed] after it. *)
Definition apply_wanted (table : list RouteEntry) (acc : list RouteOp * bool)
    (wanted : WantedRoute) : M (list RouteOp * bool) :=
  let '(installed, changed) := acc in
  let op := op_of wanted in
  let ours := vec_contains installed op in
  match judge wanted ours table with
  | RoutePresent => ret (installed, changed)
  | RouteMissing =>
    let! r := add show_ip op in
    ret (if is_ok r && negb ours then installed ++ [op] else installed, true)
  | RouteConflicted _ => ret (bfilter (λ existing, negb (existing =b op)) installed, changed)
  end.

Definition apply (installed : list RouteOp) (derivation : Derivation) (table : list RouteEntry)
    : M (list RouteOp * bool) :=
  let wanted := wanted_routes derivation in
  let wanted_ops := map op_of wanted in
  let keep := bfilter (vec_contains wanted_ops) installed in
  let stale := bfilter (λ op, negb (vec_contains wanted_ops op)) installed in
  let changed := negb (Z.eqb (zlen stale) 0) in
  withdraw stale table ;;;
  let! table := if changed then probe_routes else ret table in
  for_acc wanted (keep, changed) (apply_wanted table).

(** One stored intent or rule; the table is read again after a command. *)
Definition apply_stored {A} (derivation : A → option Derivation) (installed : A → list RouteOp)
    (with_ : list RouteOp → A → A) (acc : list A * list RouteEntry) (x : A)
    : M (list A * list RouteEntry) :=
  let '(done, table) := acc in
  match derivation x with
  | None => ret (done ++ [x], table)
  | Some d =>
    let! '(now, changed) := apply (installed x) d table in
    let! table := if changed then probe_routes else ret table in
    ret (done ++ [with_ now x], table)
  end.

Definition intent_derivation (network : NetworkView) (s : Stored) : option Derivation :=
  match normalize (sd_params s) with
  | Ok intent => Some (derive intent network)
  | Err _ => None
  end.

Definition reconcile_locked : M unit :=
  let! network := probe_view in
  let! table := probe_routes in
  let! s := get in
  let! '(intents, table) :=
    for_acc (st_intents s) ([], table)
      (apply_stored (intent_derivation network) sd_installed with_installed) in
  let! '(rules, _) :=
    for_acc (st_rules s) ([], table)
      (apply_stored (λ r, Some (derive_rule (sr_rule r) network)) sr_installed
         with_rule_installed) in
  let! now := call Monotonic in
  put (mkState intents rules (Some network) (Some now)).

(** The request as it is kept. *)
Definition stored_params (params : NetIntentSetParams) (intent : Intent) : NetIntentSetParams := {|
  is_id := in_id intent;
  is_destinations := map net_to_string (in_destinations intent);
  is_path := is_path params;
  is_metric := Some (in_metric intent);
  is_enabled := Some (in_enabled intent) |}.

Definition set (uid : Z) (params : NetIntentSetParams) : M (result string HelperError) :=
  match normalize params with
  | Err message => fail (HelperInvalid message)
  | Ok intent =>
    let! s := get in
    let index := position (intent_is uid (in_id intent)) (st_intents s) in
    let mine := count_if (λ s, Z.eqb (sd_uid s) uid) (st_intents s) in
    if is_none index && Z.leb MAX_INTENTS_PER_UID (Z.of_nat mine)
    then fail (HelperConflict [TStr "There can be at most "; TNum MAX_INTENTS_PER_UID;
                               TStr " intents"])
    else
      let others := (destinations_of (without index (st_intents s))
                     + routes_of (st_rules s))%Z in
      if Z.ltb MAX_DESTINATIONS_TOTAL (others + zlen (in_destinations intent))
      then fail (HelperConflict [TStr "All intents together can route at most ";
                                 TNum MAX_DESTINATIONS_TOTAL; TStr " networks"])
      else
        let installed := installed_at sd_installed index (st_intents s) in
        let stored := mkStored uid (stored_params params intent) installed in
        put (with_intents (set_at index stored (st_intents s)) s) ;;;
        reconcile_locked ;;;
        let? _ := saved "The intents could not be saved" in
        ret (Ok (in_id intent))
  end.

Definition delete_intent (uid : Z) (id : string) : M (result string HelperError) :=
  let! s := get in
  match position (intent_is uid id) (st_intents s) with
  | None => fail (HelperNotFound (txt "There is no intent with that name"))
  | Some index =>
    let! table := probe_routes in
    let installed := installed_at sd_installed (Some index) (st_intents s) in
    put (with_intents (without (Some index) (st_intents s)) s) ;;;
    withdraw installed table ;;;
    let? _ := saved "The intents could not be saved" in
    ret (Ok id)
  end.

Definition list_intents (uid : Z) : M (list NetIntentView) :=
  let! s := get in
  let! network := probe_view in
  let! table := probe_routes in
  ret (omap (λ stored,
    match normalize (sd_params stored) with
    | Err _ => None
    | Ok intent =>
      let derivation := derive intent network in
      Some (view show_ip intent derivation (judge_all derivation (sd_installed stored) table))
    end) (bfilter (λ s, Z.eqb (sd_uid s) uid) (st_intents s))).

(** ** Conditional rules *)

Definition entry_status (stored : StoredRule) (network : NetworkView) (table : list RouteEntry)
    : ConditionalRuleStatus :=
  let derivation := derive_rule (sr_rule stored) network in
  rule_status derivation (judge_all derivation (sr_installed stored) table)
    (condition_match (sr_rule stored) network).

(** [rule_entry]: the rule with its status. *)
Definition rule_entry (stored : StoredRule) (network : NetworkView) (table : list RouteEntry)
    : ConditionalRouteRule * ConditionalRuleStatus :=
  (sr_rule stored, entry_status stored network table).

Definition put_rule (uid : Z) (rule : ConditionalRouteRule)
    : M (result ConditionalRuleStatus HelperError) :=
  match validate_rule rule with
  | Err message => fail (HelperInvalid message)
  | Ok _ =>
    let! s := get in
    let index := position (rule_is uid (cr_id rule)) (st_rules s) in
    let mine := count_if (λ r, Z.eqb (sr_uid r) uid) (st_rules s) in
    if is_none index && Z.leb MAX_RULES (Z.of_nat mine)
    then fail (HelperConflict [TStr "There can be at most "; TNum MAX_RULES;
                               TStr " conditional rules"])
    else
      let others := (destinations_of (st_intents s)
                     + routes_of (without index (st_rules s)))%Z in
      if Z.ltb MAX_DESTINATIONS_TOTAL (others + zlen (cr_routes rule))
      then fail (HelperConflict [TStr "All intents and rules together can route at most ";
                                 TNum MAX_DESTINATIONS_TOTAL; TStr " networks"])
      else
        let installed := installed_at sr_installed index (st_rules s) in
        put (with_rules (set_at index (mkStoredRule uid rule installed) (st_rules s)) s) ;;;
        reconcile_locked ;;;
        let? _ := saved "The rules could not be saved" in
        let! network := probe_view in
        let! table := probe_routes in
        let! s := get in
        match List.find (rule_is uid (cr_id rule)) (st_rules s) with
        | None => panic
        | Some stored => ret (Ok (entry_status stored network table))
        end
  end.

Definition remove_rule (uid : Z) (id : string) : M bool :=
  let! s := get in
  match position (rule_is uid id) (st_rules s) with
  | None => ret false
  | Some index =>
    let! table := probe_routes in
    let installed := installed_at sr_installed (Some index) (st_rules s) in
    put (with_rules (without (Some index) (st_rules s)) s) ;;;
    withdraw installed table ;;;
    save ;;;
    ret true
  end.

Definition list_rules (uid : Z) : M (list (ConditionalRouteRule * ConditionalRuleStatus)) :=
  let! s := get in
  let! network := probe_view in
  let! table := probe_routes in
  ret (map (λ stored, rule_entry stored network table)
         (bfilter (λ r, Z.eqb (sr_uid r) uid) (st_rules s))).

Definition is_empty (s : State) : bool :=
  Z.eqb (zlen (st_intents s)) 0 && Z.eqb (zlen (st_rules s)) 0.

Definition reconcile : M unit := reconcile_locked ;;; save ;;; ret tt.

Definition tick : M unit :=
  let! s := get in
  if is_empty s then ret tt
  else
    let! network := probe_view in
    let changed := negb (st_last_view s =b Some network) in
    let! due := match st_last_full s with
      | None => ret true
      | Some at_ => let! now := call Monotonic in ret (Z.leb FULL_CHECK (now - at_))
      end in
    if negb changed && negb due then ret tt
    else reconcile_locked ;;; save ;;; ret tt.

Definition shutdown : M unit :=
  let! s := get in
  let! table := probe_routes in
  let installed := flat_map sd_installed (st_intents s) ++ flat_map sr_installed (st_rules s) in
  put (with_rules (map (with_rule_installed []) (st_rules s))
         (with_intents (map (with_installed []) (st_intents s)) s)) ;;;
  withdraw installed table ;;;
  save ;;;
  ret tt.

End executor.
