(* ===== verification/HelperLive.v ===== *)
(** * Where the route tool works, a reconcile settles

    When [route add] installs what it is asked to, one pass over an intent
    brings each of its routes in place, except where another route to the
    destination is in the way, and a second pass has nothing left to do. *)

From S2P Require Export HelperIntents.

Section live.
Context `{Env} `{IpNetLib} (show_ip : IpAddr → string).
(** The route table of the system. *)
Context (table : history → list RouteEntry).

Definition rivals (destination : IpNet) (t : list RouteEntry) : list RouteEntry :=
  bfilter (entry_for destination) t.

(** [route add] of a wanted route succeeds and adds an entry for it where
    there was none. *)
Definition installs (w : WantedRoute) : Prop := ∀ h,
  rivals (wr_destination w) (table h) = [] →
  let c := RunTool ROUTE (args show_ip (op_of w) "add") in
  ∃ out e, answer _ c h = Ok out ∧ table (Ev c (Ok out) :: h) = e :: table h ∧
    entry_for (wr_destination w) e = true ∧ target_matches (wr_target w) e = true.

(** Reading the table gives the table. *)
Definition readable : Prop := ∀ h,
  answer _ ListRoutes h = Ok (table h) ∧ table (Ev ListRoutes (Ok (table h)) :: h) = table h.

(** In place and on record, or in another route's way and not on record. *)
Definition settled (now : list RouteOp) (t : list RouteEntry) (w : WantedRoute) : Prop :=
  (op_of w ∈ now ∧ judge w true t = RoutePresent) ∨
  (op_of w ∉ now ∧ rivals (wr_destination w) t ≠ []).

Lemma judge_rivals w ours t t' :
  rivals (wr_destination w) t = rivals (wr_destination w) t' → judge w ours t = judge w ours t'.
Proof. unfold rivals, judge. by intros ->. Qed.

Lemma judge_missing w ours t : judge w ours t = RouteMissing ↔ rivals (wr_destination w) t = [].
Proof. unfold judge, rivals. destruct (bfilter _ t); [done|]. split; [by repeat case_match|done]. Qed.

Lemma judge_foreign w t : judge w false t ≠ RoutePresent.
Proof.
  unfold judge. destruct (bfilter _ t); [done|]. cbv zeta. rewrite andb_false_r. by case_match.
Qed.

Lemma settled_same now now' t t' w :
  (op_of w ∈ now ↔ op_of w ∈ now') →
  rivals (wr_destination w) t = rivals (wr_destination w) t' →
  settled now t w → settled now' t' w.
Proof.
  intros Hop Hr [[Hin Hj]|[Hin Hn]].
  - left. split; [by apply Hop|]. by rewrite <- (judge_rivals w true t t' Hr).
  - right. split; [by intros ?%Hop|by rewrite <- Hr].
Qed.

Lemma entry_for_fun d d' e : entry_for d e = true → entry_for d' e = true → d = d'.
Proof.
  unfold entry_for. destruct (net_new _ _); simpl; [|done].
  by intros <-%bool_decide_eq_true <-%bool_decide_eq_true.
Qed.

Definition canonical (w : WantedRoute) : Prop := trunc (wr_destination w) = wr_destination w.

Lemma op_of_destination w w' :
  canonical w → canonical w' → op_of w = op_of w' → wr_destination w = wr_destination w'.
Proof.
  intros Hw Hw' [= Hn Hp _]. unfold network in Hn. rewrite Hw, Hw' in Hn.
  destruct (wr_destination w), (wr_destination w'). by simpl in *; subst.
Qed.

(** What one wanted route does: it is settled, and nothing else changes. *)
Definition only_about (w : WantedRoute) (now : list RouteOp) (t : list RouteEntry)
    (now' : list RouteOp) (t' : list RouteEntry) : Prop :=
  settled now' t' w ∧
  (∀ op, op ≠ op_of w → (op ∈ now' ↔ op ∈ now)) ∧
  (∀ d, d ≠ wr_destination w → rivals d t' = rivals d t).

Lemma apply_wanted_settles w T acc (s : State) h :
  installs w → rivals (wr_destination w) T = rivals (wr_destination w) (table h) →
  wp (apply_wanted show_ip T acc w) (λ acc' s' h',
    only_about w acc.1 (table h) acc'.1 (table h')) s h.
Proof.
  intros Hw HT. destruct acc as [now changed]. unfold apply_wanted. cbv zeta.
  rewrite (judge_rivals _ _ _ _ HT). cbn [fst].
  destruct (judge w _ (table h)) as [| |detail] eqn:Hj.
  - wp_step. split; [|done]. left. destruct (vec_contains now (op_of w)) eqn:Hc.
    + split; [by apply vec_contains_spec|done].
    + by apply judge_foreign in Hj.
  - apply judge_missing in Hj. destruct (Hw h Hj) as (out & e & Ha & Ht & He & Hm).
    unfold add. do 2 wp_step. unfold wp at 1, call. rewrite Ha. cbv zeta. do 2 wp_step. cbn [is_ok fst andb].
    rewrite Ht. split; [|split].
    + left. split.
      * destruct (vec_contains now (op_of w)) eqn:Hc; cbn [negb]; [by apply vec_contains_spec|].
        apply elem_of_app. right. by apply list_elem_of_singleton.
      * unfold judge. simpl. rewrite He. by rewrite Hm.
    + intros op Hop. destruct (vec_contains now (op_of w)); cbn [negb]; [done|].
      rewrite elem_of_app, list_elem_of_singleton. tauto.
    + intros d Hd. unfold rivals. simpl. destruct (entry_for d e) eqn:Hde; [|done].
      by destruct Hd; apply (entry_for_fun d (wr_destination w) e).
  - wp_step. cbn [fst]. split; [|split; [|done]].
    + right. split; [|intros Hn; by rewrite <- (judge_missing w (vec_contains now (op_of w))), Hj in Hn].
      intros [Hop _]%elem_of_bfilter. by rewrite bool_decide_eq_true_2 in Hop.
    + intros op Hop. rewrite elem_of_bfilter, bool_decide_eq_false_2 by done. simpl. tauto.
Qed.

Lemma wanted_loop_settles l T acc (s : State) h :
  NoDup (map wr_destination l) → Forall canonical l → Forall installs l →
  Forall (λ w, rivals (wr_destination w) T = rivals (wr_destination w) (table h)) l →
  wp (for_acc l acc (apply_wanted show_ip T)) (λ acc' s' h',
    Forall (settled acc'.1 (table h')) l ∧
    (∀ op, op ∉ map op_of l → (op ∈ acc'.1 ↔ op ∈ acc.1)) ∧
    (∀ d, d ∉ map wr_destination l → rivals d (table h') = rivals d (table h))) s h.
Proof.
  revert acc s h. induction l as [|w l IH]; intros acc s h Hnd Hc Hi HT; simpl; [by wp_step|].
  apply NoDup_cons in Hnd as [Hnotin Hnd]. apply Forall_cons in Hc as [Hcw Hc].
  apply Forall_cons in Hi as [Hiw Hi]. apply Forall_cons in HT as [HTw HT].
  wp_step. eapply wp_mono; [|by apply apply_wanted_settles].
  intros acc1 s1 h1 (Hset & Hops & Hriv).
  assert (∀ w', w' ∈ l → wr_destination w' ≠ wr_destination w) as Hother.
  { intros w' Hw' Heq. apply Hnotin. rewrite <- Heq. apply list_elem_of_In, in_map. by apply list_elem_of_In. }
  eapply wp_mono; [|apply IH; try done].
  2: { rewrite Forall_forall in HT |- *. intros w' Hw'. rewrite HT by done. symmetry. by apply Hriv, Hother. }
  intros acc2 s2 h2 (Hsettled & Hops2 & Hriv2).
  assert (op_of w ∉ map op_of l) as Hopw.
  { intros (w' & Hw' & Hin)%list_elem_of_In%in_map_iff. apply (Hother w'); [by apply list_elem_of_In|].
    apply op_of_destination; [|done|done]. by apply (proj1 (Forall_forall _ _) Hc), list_elem_of_In. }
  split; [constructor; [|done]|split].
  - eapply settled_same; [symmetry; by apply Hops2|symmetry; by apply Hriv2|done].
  - intros op [Hne Hop]%not_elem_of_cons. rewrite Hops2 by done. by apply Hops.
  - intros d [Hne Hd]%not_elem_of_cons. rewrite Hriv2 by done. by apply Hriv.
Qed.

(** A settled list has nothing left to do. *)
Lemma settled_loop l now (s : State) h :
  Forall (settled now (table h)) l →
  for_acc l (now, false) (apply_wanted show_ip (table h)) s h = (Some (now, false), s, h).
Proof.
  induction l as [|w l IH]; intros Hl; [done|]. apply Forall_cons in Hl as [Hw Hl].
  assert (apply_wanted show_ip (table h) (now, false) w s h = (Some (now, false), s, h)) as Hstep.
  2: { cbn [for_acc]. unfold bind. rewrite Hstep. by apply IH. }
  unfold apply_wanted. cbv zeta. destruct Hw as [[Hin Hj]|[Hin Hn]].
  - rewrite (proj2 (vec_contains_spec now (op_of w)) Hin). by rewrite Hj.
  - assert (bfilter (λ existing, negb (existing =b op_of w)) now = now) as Hsame.
    { clear -Hin. induction now as [|op now IH]; [done|]. apply not_elem_of_cons in Hin as [Hne Hin].
      simpl. rewrite bool_decide_eq_false_2 by done. simpl. f_equal. by apply IH. }
    replace (vec_contains now (op_of w)) with false.
    2: { symmetry. apply not_true_iff_false. by intros ?%vec_contains_spec. }
    destruct (judge w false (table h)) as [| |detail] eqn:Hj; [| |by rewrite Hsame].
    + by apply judge_foreign in Hj.
    + by apply judge_missing in Hj.
Qed.

End live.

(** ** A whole pass *)

Section pass.
Context `{Env} `{IpNetLib} (show_ip : IpAddr → string) (table : history → list RouteEntry).

Lemma withdraw_returns ops t (s : State) h :
  wp (withdraw show_ip ops t) (λ _ _ h', ops = [] → h' = h) s h.
Proof.
  destruct ops as [|op ops]; [done|].
  eapply wp_mono with (Q := λ _ _ _, True); [done|].
  apply wp_for_each with (I := λ _ _ _, True); [done| |done].
  intros x l s' h' _. unfold HelperRoutes.delete. destruct (still_ours t x); by wp_steps.
Qed.

Lemma probe_readable (s : State) h : readable table →
  wp probe_routes (λ t _ h', t = table h' ∧ table h' = table h) s h.
Proof.
  intros Hr. destruct (Hr h) as [Ha Ht]. unfold probe_routes. wp_step. unfold wp at 1, call.
  rewrite Ha. cbv zeta. wp_step. simpl. by rewrite Ht.
Qed.

(** A record of settled routes and no others: the pass is silent. *)
Lemma apply_settled now d (s : State) h :
  Forall (settled now (table h)) (wanted_routes d) →
  Forall (λ op, op ∈ map op_of (wanted_routes d)) now →
  apply show_ip now d (table h) s h = (Some (now, false), s, h).
Proof.
  intros Hs Hin. unfold apply. cbv zeta.
  assert (Forall (λ op, vec_contains (map op_of (wanted_routes d)) op = true) now) as Hc.
  { eapply Forall_impl; [exact Hin|]. intros op. by apply vec_contains_spec. }
  rewrite (bfilter_all _ _ Hc), (bfilter_none _ _ Hc). by apply settled_loop.
Qed.

End pass.

(** C28. Liveness of the macOS helper's reconcile. Where the route table can
    be read and [route add] of a wanted route installs it when nothing leads
    to its destination, one pass of [apply] ends with every wanted route
    settled: in place and on the helper's record, or off the record with
    another route in its way. The pass is then over for good: run again on the
    table it left, it makes no call, reports no change and keeps the record as
    it is. The record and the table it starts from are arbitrary. *)
Theorem reconcile_settles `{Env} `{IpNetLib} (show_ip : IpAddr → string)
    (table : history → list RouteEntry) (installed : list RouteOp) (d : Derivation)
    (s : State) (h : history) :
  readable table →
  NoDup (map wr_destination (wanted_routes d)) →
  Forall canonical (wanted_routes d) →
  Forall (installs show_ip table) (wanted_routes d) →
  wp (apply show_ip installed d (table h)) (λ r _ h',
    Forall (settled r.1 (table h')) (wanted_routes d) ∧
    ∀ s', apply show_ip r.1 d (table h') s' h' = (Some (r.1, false), s', h')) s h.
Proof.
  intros Hr Hnd Hc Hi. unfold apply at 1. cbv zeta. set (stale := bfilter _ installed).
  wp_step. eapply wp_mono; [|apply withdraw_returns]. intros u s1 h1 Hsame. wp_step.
  apply wp_mono with (Q := λ t _ h', t = table h').
  2: { destruct (Z.eqb_spec (zlen stale) 0) as [Hz|]; simpl.
       - wp_step. destruct stale; [by rewrite Hsame|]. unfold zlen in Hz. simpl in Hz. lia.
       - eapply wp_mono; [|by apply probe_readable]. by intros t s2 h2 [-> _]. }
  intros T s2 h2 ->. eapply wp_mono; [|apply (wanted_loop_settles show_ip table); try done; by apply Forall_true].
  intros r s3 h3 (Hset & Hops & _). split; [done|]. intros s'. apply apply_settled; [done|].
  apply Forall_forall. intros op Hop.
  destruct (decide (op ∈ map op_of (wanted_routes d))) as [|Hnot]; [done|].
  apply Hops in Hop; [|done]. simpl in Hop. apply elem_of_bfilter in Hop as [Hv _].
  by apply vec_contains_spec in Hv.
Qed.

(** ** A witness: a system with one route to install *)

#[local] Existing Instance ipnet_model.

Definition live_show (a : IpAddr) : string := model_net_to_string (net_of_ip a).
Definition live_wanted : WantedRoute := mkWanted (mkNet (ip4 10 0 0 0) 8) (ToInterface "utun4").
Definition live_entry : RouteEntry := mkRouteEntry (ip4 10 0 0 0) 8 None 9 "utun4" 0.

(** The entry is in the table once the command for it ran. *)
Definition live_command (e : event) : bool :=
  match e with
  | Ev c _ =>
    match c with
    | RunTool program argv =>
      (program =b ROUTE) && (argv =b args live_show (op_of live_wanted) "add")
    | _ => false
    end
  end.

Definition live_table (h : history) : list RouteEntry :=
  if existsb live_command h then [live_entry] else [].

Definition live_answer {A} (c : ext A) (h : history) : A :=
  match c in ext A return A with
  | RunTool program argv => Ok EmptyString
  | ListRoutes => Ok (live_table h)
  | c => failing_answer c
  end.

#[local] Instance live_world : Env := λ A c h, live_answer c h.

Lemma reconcile_settles_witness :
  wp (apply live_show [] (DerivedRoutes [live_wanted] []) (live_table [])) (λ r _ h',
    Forall (settled r.1 (live_table h')) [live_wanted] ∧
    ∀ s', apply live_show r.1 (DerivedRoutes [live_wanted] []) (live_table h') s' h'
      = (Some (r.1, false), s', h')) (mkState [] [] None None) [].
Proof.
  apply (reconcile_settles live_show live_table [] (DerivedRoutes [live_wanted] [])).
  - intros h. by split.
  - apply NoDup_singleton.
  - repeat constructor.
  - repeat constructor. intros h Hnone. exists EmptyString, live_entry. split; [reflexivity|].
    assert (live_table h = []) as Ht.
    { unfold live_table in *. destruct (existsb live_command h); [|done]. by vm_compute in Hnone. }
    rewrite Ht. split; [vm_compute; reflexivity|]. split; vm_compute; reflexivity.
Defined.
