(* ===== verification/RouteIntentProps.v ===== *)
(** * What the intent rules guarantee

    Accepted requests are well formed and are accepted again as they are
    stored; the routes derived never pull the uplink's gateway off the
    uplink. *)

From S2P Require Export HelperIntents.
From S2P Require Import StdText.

(** ** Splitting off the protected destinations *)

Section split.
Context `{IpNetLib} {A : Type} (destination : A → IpNet) (target : A → RouteTarget).

Lemma split_protected_routes protect l routes skipped :
  split_protected destination target protect l = (routes, skipped) →
  routes = map (λ x, mkWanted (destination x) (target x))
    (bfilter (λ x, negb (is_some_and (contains_ip (destination x)) protect)) l) ∧
  map fst skipped = map destination
    (bfilter (λ x, is_some_and (contains_ip (destination x)) protect) l).
Proof.
  revert routes skipped. induction l as [|x l IH]; intros routes skipped; simpl; [by intros [= <- <-]|].
  destruct (split_protected destination target protect l) as [r s] eqn:Hs.
  destruct (IH r s eq_refl) as [-> Hsk].
  destruct protect as [g|]; simpl; [|by intros [= <- <-]].
  destruct (contains_ip (destination x) g); intros [= <- <-]; simpl; by rewrite ?Hsk.
Qed.

Lemma split_protected_spares g l routes skipped w :
  split_protected destination target (Some g) l = (routes, skipped) →
  w ∈ routes → contains_ip (wr_destination w) g = false.
Proof.
  intros [-> _]%split_protected_routes Hw.
  apply list_elem_of_In, in_map_iff in Hw as (x & <- & [Hx _]%list_elem_of_In%elem_of_bfilter).
  by apply negb_true_iff in Hx.
Qed.
End split.

(** The gateway of an uplink other than [interface]. *)
Definition foreign_gateway (network : NetworkView) (interface : string) : option IpAddr :=
  uplink ← nv_uplink network;
  if negb (up_interface uplink =b interface) then up_gateway uplink else None.

(** C30. No route wanted by an intent or a conditional rule through an
    interface contains the gateway of an uplink on another interface, so the
    packets of a tunnel never loop back into it. *)
Theorem derive_spares_uplink `{IpNetLib} (network : NetworkView) (interface : string)
    (g : IpAddr) (d : Derivation) (w : WantedRoute) :
  foreign_gateway network interface = Some g →
  (∃ intent, in_path intent = PathInterface interface ∧ d = derive intent network) ∨
  (∃ rule, condition_match rule network = Some interface ∧ d = derive_rule rule network) →
  w ∈ match d with DerivedRoutes routes _ => routes | _ => [] end →
  contains_ip (wr_destination w) g = false.
Proof.
  intros Hg [(intent & Hp & ->)|(rule & Hm & ->)].
  - unfold derive, intent_target. rewrite Hp. destruct (in_enabled intent); simpl; [|by intros ?%elem_of_nil].
    destruct (vec_contains _ interface); simpl; [|by intros ?%elem_of_nil].
    unfold foreign_gateway in Hg. rewrite Hg.
    destruct (split_protected _ _ _ _) as [routes skipped] eqn:Hs. simpl.
    by apply split_protected_spares with (1 := Hs).
  - unfold derive_rule, rule_protect. destruct (cr_enabled rule); simpl; [|by intros ?%elem_of_nil].
    destruct (cr_condition rule) as [prefix]. rewrite Hm. unfold foreign_gateway in Hg. rewrite Hg.
    destruct (split_protected _ _ _ _) as [routes skipped] eqn:Hs.
    by apply split_protected_spares with (1 := Hs).
Qed.

(** ** Accepted requests *)

(** What the code relies on when it stores a destination as text: a network
    that was read is read again from its own text. *)
Class NetTextLib `{IpNetLib} : Prop := {
  reads_back s n : parse_net s = Some n →
    parse_net (trim (net_to_string (trunc n))) = Some (trunc n);
  host_reads_back s a : parse_ip s = Some a →
    parse_net (trim (net_to_string (net_of_ip a))) = Some (net_of_ip a);
}.

Section normalize.
Context `{IpNetLib}.

(** A destination of an accepted intent. *)
Definition accepted_destination (n : IpNet) : Prop :=
  trunc n = n ∧ ∃ shown, check_routable n shown = Ok tt.

Lemma check_routable_shown n shown shown' :
  check_routable n shown = Ok tt → check_routable n shown' = Ok tt.
Proof. unfold check_routable. by destruct (_ || _). Qed.

Lemma parse_destination_ok raw n : parse_destination raw = Ok n → accepted_destination n.
Proof.
  unfold parse_destination. destruct (ok_or _ _) as [net|]; [cbn [rbind]|done]. cbv zeta.
  destruct (check_routable _ _) as [[]|] eqn:Hc; [|done]. intros [= <-].
  split; [apply trunc_idem|]. by eexists.
Qed.

Lemma parse_destinations_ok raws acc l :
  parse_destinations raws acc = Ok l → NoDup acc → Forall accepted_destination acc →
  NoDup l ∧ Forall accepted_destination l ∧ (zlen l ≤ zlen acc + zlen raws)%Z ∧
  (zlen acc ≤ zlen l)%Z ∧ (raws ≠ [] → l ≠ []).
Proof.
  revert acc. induction raws as [|raw raws IH]; intros acc; simpl.
  { intros [= <-] Hn Hf. repeat split; try done; unfold zlen; simpl; lia. }
  destruct (parse_destination raw) as [n|] eqn:Hp; [cbn [rbind]|done].
  apply parse_destination_ok in Hp. intros Hl Hn Hf.
  destruct (vec_contains acc n) eqn:Hc.
  - destruct (IH _ Hl Hn Hf) as (? & ? & ? & ? & ?). repeat split; try done; unfold zlen in *; simpl; try lia.
    intros _ ->. apply vec_contains_spec in Hc. simpl in *. destruct acc; [by apply elem_of_nil in Hc|simpl in *; lia].
  - assert (NoDup (acc ++ [n])) as Hn'.
    { apply NoDup_app. split; [done|]. split; [|apply NoDup_singleton].
      intros x Hx ->%list_elem_of_singleton. apply vec_contains_spec in Hx. congruence. }
    destruct (IH _ Hl Hn') as (? & ? & ? & ? & ?); [apply Forall_app; split; [done|by apply Forall_singleton]|].
    unfold zlen in *. rewrite length_app in *. simpl in *. repeat split; try done; try lia.
    intros _ ->. simpl in *. lia.
Qed.

Lemma normalize_ok params intent : normalize params = Ok intent →
  valid_id (in_id intent) = true ∧ NoDup (in_destinations intent) ∧
  Forall accepted_destination (in_destinations intent) ∧
  (1 ≤ zlen (in_destinations intent) ≤ MAX_DESTINATIONS)%Z ∧
  in_id intent = is_id params ∧ normalize_path (is_path params) = Ok (in_path intent) ∧
  parse_destinations (is_destinations params) [] = Ok (in_destinations intent).
Proof.
  unfold normalize. destruct (valid_id (is_id params)) eqn:Hid; simpl; [|done].
  destruct (Z.eqb_spec (zlen (is_destinations params)) 0) as [|Hne]; [done|].
  destruct (Z.ltb_spec MAX_DESTINATIONS (zlen (is_destinations params))) as [|Hmax]; [done|].
  destruct (parse_destinations _ []) as [l|] eqn:Hl; [cbn [rbind]|done].
  destruct (normalize_path _) as [p|] eqn:Hp; [cbn [rbind]|done]. intros [= <-]. simpl.
  destruct (parse_destinations_ok _ _ _ Hl) as (Hn & Hf & Hle & _ & Hnil); [constructor..|].
  repeat split; try done; [|unfold zlen in *; simpl in *; lia].
  destruct l as [|x l]; [|unfold zlen; simpl; lia]. exfalso. apply Hnil; [|done].
  intros E. by rewrite E in Hne.
Qed.

Context {Htext : NetTextLib}.

Lemma parse_destination_again raw n :
  parse_destination raw = Ok n → parse_destination (net_to_string n) = Ok n.
Proof using Htext.
  intros Hp. pose proof (parse_destination_ok _ _ Hp) as [Ht [shown Hc]].
  assert (parse_net (trim (net_to_string n)) = Some n) as Hback.
  { unfold parse_destination in Hp. destruct (parse_net (trim raw)) as [m|] eqn:Hm; cbn [ok_or rbind] in Hp.
    - cbv zeta in Hp. destruct (check_routable _ _); [injection Hp as <-|done]. by eapply reads_back.
    - destruct (parse_ip (trim raw)) as [a|] eqn:Ha; cbn [ok_or rbind fmap option_fmap option_map] in Hp; [|done].
      destruct (check_routable _ _); [injection Hp as <-|done]. rewrite trunc_host. by eapply host_reads_back. }
  unfold parse_destination. rewrite Hback. cbn [ok_or rbind]. cbv zeta.
  by rewrite Ht, (check_routable_shown _ _ _ Hc).
Qed.

Lemma parse_destinations_again raws acc l :
  Forall (λ n, parse_destination (net_to_string n) = Ok n) acc →
  parse_destinations raws acc = Ok l →
  Forall (λ n, parse_destination (net_to_string n) = Ok n) l.
Proof using Htext.
  revert acc. induction raws as [|raw raws IH]; intros acc Hacc; simpl; [by intros [= <-]|].
  destruct (parse_destination raw) as [n|] eqn:Hp; [cbn [rbind]|done].
  apply IH. destruct (vec_contains acc n); [done|]. apply Forall_app. split; [done|].
  apply Forall_singleton. by eapply parse_destination_again.
Qed.

Lemma parse_destinations_texts l acc :
  Forall (λ n, parse_destination (net_to_string n) = Ok n) l → NoDup (acc ++ l) →
  parse_destinations (map net_to_string l) acc = Ok (acc ++ l).
Proof.
  revert acc. induction l as [|n l IH]; intros acc Hl Hn; simpl; [by rewrite app_nil_r|].
  apply Forall_cons in Hl as [-> Hl]. cbn [rbind].
  replace (vec_contains acc n) with false.
  - rewrite IH; [by rewrite <- app_assoc|done|by rewrite <- app_assoc].
  - symmetry. apply not_true_iff_false. intros Hc%vec_contains_spec.
    apply NoDup_app in Hn as (_ & Hd & _). apply (Hd n Hc). by left.
Qed.
End normalize.

(** C29. An accepted request, as it is stored with its networks written as
    text, is accepted again and means the same intent: no later reconcile
    skips it. *)
Theorem stored_intent_normalizes `{IpNetLib} `{!NetTextLib} (params : NetIntentSetParams)
    (intent : Intent) :
  normalize params = Ok intent → normalize (stored_params params intent) = Ok intent.
Proof.
  intros Hn. pose proof (normalize_ok _ _ Hn) as (Hid & Hnd & _ & [Hlo Hhi] & _ & Hp & Hd).
  assert (zlen (map net_to_string (in_destinations intent)) = zlen (in_destinations intent)) as Hlen
    by (unfold zlen; by rewrite length_map).
  unfold normalize, stored_params. simpl. rewrite Hid, Hlen. simpl.
  destruct (Z.eqb_spec (zlen (in_destinations intent)) 0); [lia|].
  destruct (Z.ltb_spec MAX_DESTINATIONS (zlen (in_destinations intent))); [lia|].
  rewrite (parse_destinations_texts _ []); [|by eapply parse_destinations_again|done].
  cbn [rbind]. rewrite Hp. cbn [rbind app]. by destruct intent.
Qed.

(** ** The concrete networks read their own text *)

Section model_text.

Definition is_digit_byte (a : ascii) : bool :=
  let d := (Z.of_nat (nat_of_ascii a) - 48)%Z in Z.leb 0 d && Z.leb d 9.

Lemma model_number_app d rest acc : str_all is_digit_byte d = true →
  ∃ v, model_number d acc = (v, EmptyString) ∧ model_number (d +:+ rest) acc = model_number rest v.
Proof.
  revert acc. induction d as [|a d IH]; intros acc Hd; simpl; [by exists acc|].
  simpl in Hd. apply andb_prop in Hd as [Ha Hd]. unfold is_digit_byte in Ha. cbv zeta in Ha.
  rewrite Ha. by apply IH.
Qed.

(** A decimal of up to three digits, followed by something else. *)
Definition reads_decimal (o : Z) : bool :=
  bool_decide (model_number (model_decimal 3 o) None = (Some o, EmptyString))
  && str_all is_digit_byte (model_decimal 3 o) && str_all visible (model_decimal 3 o).

Lemma decimals_read : forallb (λ n, reads_decimal (Z.of_nat n)) (seq 0 256) = true.
Proof. vm_compute. reflexivity. Qed.

Lemma reads_decimal_all o : (0 ≤ o < 256)%Z → reads_decimal o = true.
Proof.
  intros Ho. rewrite <- (Z2Nat.id o) by lia.
  apply (proj1 (forallb_forall _ _) decimals_read), in_seq. lia.
Qed.

Lemma model_number_decimal o rest : (0 ≤ o < 256)%Z →
  model_number (model_decimal 3 o +:+ rest) None = model_number rest (Some o).
Proof.
  intros Ho. pose proof (reads_decimal_all o Ho) as [[Hn%bool_decide_eq_true Hd]%andb_prop _]%andb_prop.
  destruct (model_number_app _ rest None Hd) as (v & Hv & ->). congruence.
Qed.

Lemma decimal_visible o : (0 ≤ o < 256)%Z → str_all visible (model_decimal 3 o) = true.
Proof. intros Ho. by pose proof (reads_decimal_all o Ho) as [_ ?]%andb_prop. Qed.

(** A separator ends a number. *)
Definition separator (c : ascii) (s : string) : Prop := is_digit_byte c = false.

Lemma model_number_stop c s acc : is_digit_byte c = false →
  model_number (String c s) acc = (acc, String c s).
Proof. intros Hc. simpl. unfold is_digit_byte in Hc. cbv zeta in Hc. by rewrite Hc. Qed.

Definition octet (z i : Z) : Z := Z.land (Z.shiftr z (8 * i)) 255.

Lemma octet_range z i : (0 ≤ octet z i < 256)%Z.
Proof. unfold octet. change 255%Z with (Z.ones 8). rewrite Z.land_ones by lia. by apply Z.mod_pos_bound. Qed.

Lemma octets_join z : (0 ≤ z < 4294967296)%Z →
  ((((0 * 256 + octet z 3) * 256 + octet z 2) * 256 + octet z 1) * 256 + octet z 0 = z)%Z.
Proof.
  intros Hz. unfold octet. change 255%Z with (Z.ones 8).
  rewrite !Z.land_ones, !Z.shiftr_div_pow2 by lia.
  change (2 ^ 8)%Z with 256%Z. change (2 ^ (8 * 3))%Z with 16777216%Z.
  change (2 ^ (8 * 2))%Z with 65536%Z. change (2 ^ (8 * 1))%Z with 256%Z. change (2 ^ (8 * 0))%Z with 1%Z.
  pose proof (Z.div_mod z 256). pose proof (Z.div_mod (z / 256) 256). pose proof (Z.div_mod (z / 65536) 256).
  rewrite Z.div_div in * by lia. change (256 * 256)%Z with 65536%Z in *. change (65536 * 256)%Z with 16777216%Z in *.
  rewrite (Z.mod_small (z / 16777216)) by (split; [apply Z.div_pos; lia|apply Z.div_lt_upper_bound; lia]).
  rewrite Z.div_1_r. lia.
Qed.

Lemma dot_app s : "." +:+ s = String "." s.
Proof. reflexivity. Qed.

Lemma model_octets_text z c s : (0 ≤ z < 4294967296)%Z → is_digit_byte c = false →
  model_octets 3 (model_decimal 3 (octet z 3) +:+ "." +:+ model_decimal 3 (octet z 2) +:+ "."
    +:+ model_decimal 3 (octet z 1) +:+ "." +:+ model_decimal 3 (octet z 0) +:+ String c s) 0
  = Some (z, String c s).
Proof.
  intros Hz Hc. pose proof (octet_range z). rewrite !dot_app. cbn [model_octets].
  assert (∀ i, Z.leb (octet z i) 255 = true) as Hle by (intros i; apply Z.leb_le; specialize (H i); lia).
  do 3 (rewrite model_number_decimal by apply octet_range;
        rewrite model_number_stop by done; rewrite Hle).
  rewrite model_number_decimal by apply octet_range. rewrite model_number_stop by done. rewrite Hle.
  by rewrite octets_join.
Qed.

Lemma model_number_nonneg s acc : (0 ≤ unwrap_or acc 0)%Z →
  (0 ≤ unwrap_or (model_number s acc).1 0)%Z.
Proof.
  revert acc. induction s as [|c s IH]; intros acc Hacc; [done|]. cbn [model_number]. cbv zeta.
  destruct (Z.leb_spec 0 (Z.of_nat (nat_of_ascii c) - 48)) as [Hd|]; [|done].
  destruct (Z.leb _ 9); [|done]. cbn [andb]. apply IH. simpl. lia.
Qed.

Lemma model_octets_range k s acc z rest : model_octets k s acc = Some (z, rest) →
  (acc * 256 ^ Z.of_nat (S k) ≤ z < (acc + 1) * 256 ^ Z.of_nat (S k))%Z.
Proof.
  revert s acc. induction k as [|k IH]; intros s acc; cbn [model_octets];
    pose proof (model_number_nonneg s None ltac:(done)) as Hpos;
    destruct (model_number s None) as [[o|] s']; try done; simpl in Hpos;
    destruct (Z.leb_spec o 255) as [Ho|]; try done.
  - intros [= <- <-]. simpl. lia.
  - destruct s' as [|c s'']; [done|]. intros Hm.
    assert (model_octets k s'' (acc * 256 + o) = Some (z, rest)) as Hrec
      by (revert Hm; by repeat case_match).
    apply IH in Hrec. rewrite (Nat2Z.inj_succ (S k)), Z.pow_succ_r by lia.
    pose proof (Z.pow_pos_nonneg 256 (Z.of_nat (S k)) ltac:(done) ltac:(lia)) as Hp. nia.
Qed.

Lemma model_parse_net_range s n : model_parse_net s = Some n →
  ∃ z p, n = mkNet (V4 z) p ∧ (0 ≤ z < 4294967296)%Z ∧ (0 ≤ p ≤ 32)%Z.
Proof.
  unfold model_parse_net. destruct (model_octets 3 s 0) as [[z rest]|] eqn:Ho; [|done].
  apply model_octets_range in Ho. change (256 ^ Z.of_nat 4)%Z with 4294967296%Z in Ho.
  intros Hn. destruct rest as [|c s']; [done|].
  pose proof (model_number_nonneg s' None ltac:(done)) as Hpos.
  revert Hn. destruct (model_number s' None) as [[p|] [|]]; repeat (case_match; try done).
  all: intros [= <-]. simpl in Hpos. exists z, p. split; [done|].
  split; [lia|]. match goal with Hp : Z.leb p 32 = true |- _ => apply Z.leb_le in Hp; lia end.
Qed.

(** A canonical IPv4 network reads its own text. *)
Lemma model_text_reads z p : (0 ≤ z < 4294967296)%Z → (0 ≤ p ≤ 32)%Z →
  model_parse_net (trim (model_net_to_string (mkNet (V4 z) p))) = Some (mkNet (V4 z) p).
Proof.
  intros Hz Hp. pose proof (octet_range z) as Hr.
  assert (model_net_to_string (mkNet (V4 z) p) =
    model_decimal 3 (octet z 3) +:+ "." +:+ model_decimal 3 (octet z 2) +:+ "."
    +:+ model_decimal 3 (octet z 1) +:+ "." +:+ model_decimal 3 (octet z 0)
    +:+ String "/" (model_decimal 3 p)) as Htext.
  { unfold model_net_to_string. cbn [net_addr prefix_len net_is_ipv4 is_ipv4 addr_bits].
    cbv zeta. rewrite <- !str_app_assoc. reflexivity. }
  rewrite trim_visible.
  - rewrite Htext. unfold model_parse_net. rewrite model_octets_text by done.
    rewrite <- (str_app_nil_r (model_decimal 3 p)), model_number_decimal by lia. cbn [model_number].
    by rewrite (proj2 (Z.leb_le p 32)) by lia.
  - rewrite Htext. rewrite !str_all_app. cbn [str_all]. rewrite !decimal_visible by first [apply octet_range | lia]. done.
Qed.

End model_text.

(** Parsing on the concrete networks meets what the stores rely on. *)
Lemma model_reads_back : @NetTextLib ipnet_model.
Proof.
  split; simpl.
  - intros s n (z & p & -> & Hz & Hp)%model_parse_net_range.
    assert (model_trunc (mkNet (V4 z) p) = mkNet (V4 (Z.shiftl (Z.shiftr z (32 - p)) (32 - p))) p) as ->.
    { unfold model_trunc, host_bits, addr_width. cbn. by rewrite Z.max_r by lia. }
    apply model_text_reads; [|done].
    rewrite Z.shiftl_mul_pow2, Z.shiftr_div_pow2 by lia.
    pose proof (Z.pow_pos_nonneg 2 (32 - p) ltac:(done) ltac:(lia)).
    pose proof (Z.mul_div_le z (2 ^ (32 - p)) ltac:(lia)). pose proof (Z.div_pos z (2 ^ (32 - p)) ltac:(lia) ltac:(lia)). nia.
  - intros s a Ha. unfold model_parse_ip in Ha.
    destruct (model_octets 3 s 0) as [[z [|]]|] eqn:Ho; try done. injection Ha as <-.
    apply model_octets_range in Ho. change (256 ^ Z.of_nat 4)%Z with 4294967296%Z in Ho.
    apply (model_text_reads z 32); lia.
Qed.

(** ** Witnesses *)

#[local] Existing Instance ipnet_model.

Definition demo_view : NetworkView :=
  mkNetworkView (Some (mkUplink "en0" (Some (ip4 192 168 1 1)))) ["en0"; "utun4"]%string [].

Definition demo_request : NetIntentSetParams :=
  mkIntentSet "office" [" 10.1.2.3/8"; "192.168.0.0/16"; "10.0.0.0/8"]%string
    (mkIntentPath "interface" (Some "utun4"%string) None) None None.

Definition demo_intent : Intent :=
  mkIntent "office" [mkNet (ip4 10 0 0 0) 8; mkNet (ip4 192 168 0 0) 16]
    (PathInterface "utun4") 100 true.

Lemma stored_intent_normalizes_witness :
  normalize demo_request = Ok demo_intent ∧
  normalize (stored_params demo_request demo_intent) = Ok demo_intent.
Proof.
  split; [vm_compute; reflexivity|].
  apply (@stored_intent_normalizes ipnet_model model_reads_back). vm_compute. reflexivity.
Defined.

Lemma derive_spares_uplink_witness :
  derive demo_intent demo_view
    = DerivedRoutes [mkWanted (mkNet (ip4 10 0 0 0) 8) (ToInterface "utun4")]
        [(mkNet (ip4 192 168 0 0) 16, uplink_reason (ip4 192 168 1 1))] ∧
  contains_ip (mkNet (ip4 10 0 0 0) 8) (ip4 192 168 1 1) = false.
Proof.
  split; [vm_compute; reflexivity|].
  apply (derive_spares_uplink demo_view "utun4" (ip4 192 168 1 1) (derive demo_intent demo_view)
    (mkWanted (mkNet (ip4 10 0 0 0) 8) (ToInterface "utun4"))).
  - vm_compute. reflexivity.
  - left. by exists demo_intent.
  - vm_compute. by left.
Defined.

(** The slug of one profile with a suffix is the identifier of another. *)
Example static_ids_collide :
  static_intent_id "office-bypass" = Ok "static-office-bypass"%string ∧
  static_belongs "office" "static-office-bypass" = true.
Proof. split; vm_compute; reflexivity. Qed.

(** A gateway path protects its own next hop and not the uplink's. *)
Example gateway_path_takes_uplink :
  let network := mkNetworkView (Some (mkUplink "en0" (Some (ip4 192 168 1 1)))) []
    [mkLocalAddr 9 "utun4" (mkNet (ip4 10 8 0 2) 24)] in
  derive (mkIntent "x" [mkNet (ip4 192 168 0 0) 16] (PathGateway (ip4 10 8 0 1)) 100 true) network
  = DerivedRoutes [mkWanted (mkNet (ip4 192 168 0 0) 16) (ToGateway (ip4 10 8 0 1))] [].
Proof. vm_compute. reflexivity. Qed.
