(* ===== verification/NetlinkActor.v ===== *)
(** * The netlink actor

    [run_actor] of [crates/daemon/src/netlink.rs] and the executor traits
    [NetlinkExecutor] implements with it. A [Command] is one message to the
    actor thread, indexed by what its reply channel carries; the rtnetlink
    requests are calls to the kernel. A request that is never answered is the
    result [None] of the monad: the actor gives the command up after
    [ACTOR_COMMAND_TIMEOUT], and the caller gets [actor_gone]. *)

From S2P Require Export NetlinkProps.

Definition ACTOR_REPLY_TIMEOUT : Z := 15.
Definition ACTOR_COMMAND_TIMEOUT : Z := 10.

Definition actor_gone : io_error := err_new BrokenPipe "netlink actor is not running".

Record RouteLookup : Type := mkRouteLookup {
  rl_source : option IpAddr;
  rl_interface_index : option Z;
  rl_interface_name : option string;
  rl_gateway : option IpAddr;
  rl_table : Z;
}.

Inductive Command : Type → Type :=
| CommandRoute (op : RouteOp) (route : AppliedRoute) : Command unit
| OwnedRoutesSnapshot : Command (list AppliedRoute)
| NetTablesDump : Command NetTablesResult
| CommandSystemRoute (op : RouteOp) (route : SystemRoute) : Command unit
| CommandSystemRule (add : bool) (rule : SystemRule) : Command unit
| CommandRouteLookup (to : IpAddr) : Command RouteLookup
| CommandDefaultGateways : Command (list (IpAddr * Z))
| CommandOnLinkNetworks : Command (list (Z * IpNet))
| CommandRulesSnapshot : Command (list OwnedRuleResource)
| CommandRule (rule : OwnedRuleResource) (add : bool) : Command unit
| CommandTableInUse (table : Z) : Command bool
| CommandRulePresent (rule : OwnedRuleResource) : Command bool
| CommandLink (index : Z) (up : bool) : Command unit
| CommandLinkDel (index : Z) : Command unit
| InterfaceAddrs : Command (list IfaceAddr)
| WgCreate (name owner_marker : string) : Command Z
| WgDelete (name : string) (index : Z) (owner_marker : string) : Command unit
| WgOwned (name : string) (index : Z) (owner_marker : string) : Command bool
| WgPresent (name : string) (index : Z) : Command bool
| WgAddress (index : Z) (address : IpNet) (add : bool) : Command unit
| WgMtu (index mtu : Z) : Command unit.

(** [RTM_F_LOOKUP_TABLE] and [NLM_F_REQUEST]. *)
Definition RTM_F_LOOKUP_TABLE : Z := 4096.
Definition NLM_F_REQUEST : Z := 1.

Section actor.
Context `{Env} `{IpNetLib} `{NetlinkLib} {S : Type}.

(** One request; without an answer the command is never finished. *)
Definition request {A} (c : ext (option A)) : M S A :=
  let! reply := call c in
  match reply with Some a => ret a | None => panic end.

(** [execute().await.map_err(netlink_error_to_io)] *)
Definition send_with {A} (classify : Z → ErrorKind) (c : ext (option (result A nl_error)))
    : M S (io_result A) :=
  let! r := request c in
  ret (map_err (λ err, netlink_error_with err classify) r).
Definition send {A} (c : ext (option (result A nl_error))) : M S (io_result A) :=
  send_with classify_errno c.

(** [while let Some(message) = stream.try_next().await? { ... }] *)
Definition read_stream {A B} (f : A → option B) (c : ext (option (nl_stream A))) : M S (io_result (list B)) :=
  let! '(messages, end_) := request c in
  match end_ with
  | None => ret (Ok (omap f messages))
  | Some err => fail (netlink_error_to_io err)
  end.

Definition both_versions {B} (dump : IpFamily → M S (io_result (list B))) : M S (io_result (list B)) :=
  let? v4 := dump Ipv4 in
  let? v6 := dump Ipv6 in
  ret (Ok (v4 ++ v6)).

Definition read_routes {B} (f : RouteMessage → option B) : M S (io_result (list B)) :=
  both_versions (λ version, read_stream f (NlRouteDump version)).

Definition get_rules : M S (io_result (list RuleMessage)) :=
  both_versions (λ version, read_stream Some (NlRuleDump version)).

Definition link_name (a : LinkAttribute) : option string :=
  match a with IfName name => Some name | _ => None end.

(** The last name of each link. *)
Definition insert_names (names : gmap Z string) (link : LinkMessage) : gmap Z string :=
  fold_left (λ names a, match link_name a with Some name => <[lm_index link := name]> names | None => names end)
    (lm_attributes link) names.

Definition get_link_names : M S (io_result (gmap Z string)) :=
  let? links := read_stream Some NlLinkDump in
  ret (Ok (fold_left insert_names links ∅)).

Definition address_local (a : AddressAttribute) : option IpAddr :=
  match a with AddressLocal ip => Some ip | _ => None end.
Definition address_address (a : AddressAttribute) : option IpAddr :=
  match a with AddressAddress ip => Some ip | _ => None end.

(** [IFA_LOCAL], or [IFA_ADDRESS]; of each the last. *)
Definition own_address (l : list AddressAttribute) : option IpAddr :=
  match find_map address_local (rev l) with
  | Some ip => Some ip
  | None => find_map address_address (rev l)
  end.

Definition iface_addr (names : gmap Z string) (m : AddressMessage) : option IfaceAddr :=
  ip ← own_address (am_attributes m);
  prefix ← net_new ip (am_prefix_len m);
  Some (mkIfaceAddr (am_index m) (unwrap_or (names !! am_index m) EmptyString) prefix (am_scope m)).

Definition get_interface_addrs : M S (io_result (list IfaceAddr)) :=
  let? names := get_link_names in
  read_stream (iface_addr names) NlAddressDump.

Definition get_link (name : string) (index : Z) : M S (io_result (option LinkMessage)) :=
  let! r := if Z.eqb index 0 then send (NlLinkByName name) else send (NlLinkByIndex index) in
  match r with
  | Ok message => ret (Ok message)
  | Err error => if has_kind NotFound error then ret (Ok None) else fail error
  end.

Definition attr_addr (wanted : RouteAttribute → option RouteAddress) (l : list RouteAttribute)
    : option IpAddr :=
  find_map wanted l ≫= address_of.

Definition route_lookup (to : IpAddr) : M S (io_result RouteLookup) :=
  let message :=
    let default := route_message_default in
    mkRouteMessage (family_of to) (addr_width to) (rm_table default) (rm_protocol default)
      (rm_scope default) (rm_kind default)
      (rm_attributes default ++ [RouteDestination (route_address to)]) in
  let? reply := send (NlRouteGet message (Z.lor NLM_F_REQUEST RTM_F_LOOKUP_TABLE)) in
  match reply with
  | NoReply => fail (err_new NotFound "no route")
  | LookupError raw_code text =>
    fail (mkErr (classify_errno (Z.abs raw_code)) (TStr "route lookup failed: " :: text))
  | UnexpectedReply => fail (err_other "unexpected route lookup reply")
  | NewRoute route =>
    let? names := get_link_names in
    let interface_index := find_map route_oif (rm_attributes route) in
    ret (Ok (mkRouteLookup (attr_addr route_pref_source (rm_attributes route)) interface_index
               (index ← interface_index; names !! index)
               (attr_addr route_gateway (rm_attributes route)) (route_table route)))
  end.

Definition net_tables_dump : M S (io_result NetTablesResult) :=
  let? names := get_link_names in
  let? routes := read_routes (λ message, system_route message names) in
  let? rules := get_rules in
  ret (Ok (mkNetTables routes (map system_rule rules) true)).

Definition same_slot (rule : OwnedRuleResource) (message : RuleMessage) : bool :=
  (um_family message =b rule_family (or_family rule))
  && (rule_priority message =b Some (or_priority rule)).

Definition actor_add_rule (rule : OwnedRuleResource) : M S (io_result unit) :=
  let? existing := get_rules in
  if existsb (same_slot rule) existing
  then fail (err_new AlreadyExists "policy rule priority is occupied")
  else send (NlRuleAdd (rule_request rule)).

Definition actor_remove_rule (rule : OwnedRuleResource) : M S (io_result unit) :=
  let? existing := get_rules in
  if negb (existsb (λ message, is_owned_rule message rule) existing) then
    if existsb (same_slot rule) existing
    then fail (err_other "policy rule identity is unverified")
    else fail (err_new NotFound "owned policy rule not found")
  else
    let! deleted := send (NlRuleDel (rule_request rule)) in
    match deleted with
    | Ok _ =>
      let? left_over := get_rules in
      if existsb (λ message, is_owned_rule message rule) left_over
      then fail (err_other "owned policy rule survived deletion")
      else ret (Ok tt)
    | Err err =>
      if has_kind NotFound err then fail (err_other "owned policy rule could not be deleted")
      else fail err
    end.

(** A match ends the reading, before any error of the dump. *)
Definition table_seen (table : Z) (version : IpFamily) : M S (io_result bool) :=
  let! '(messages, end_) := request (NlRouteDump version) in
  if existsb (λ route, Z.eqb (route_table route) table) messages then ret (Ok true)
  else match end_ with None => ret (Ok false) | Some err => fail (netlink_error_to_io err) end.

Definition table_in_use (table : Z) : M S (io_result bool) :=
  let? rules := get_rules in
  if existsb (λ rule, Z.eqb (rule_table rule) table) rules then ret (Ok true)
  else
    let? v4 := table_seen table Ipv4 in
    if v4 : bool then ret (Ok true) else table_seen table Ipv6.

(** ** WireGuard links *)

Definition delete_fresh_link (name : string) (index : Z) : M S (io_result unit) :=
  let? link := get_link name index in
  if is_some_and (λ link, is_wireguard_link link name index) link
  then send (NlLinkDel index) else ret (Ok tt).

Definition wg_create (name owner_marker : string) : M S (io_result Z) :=
  let? _ := send (NlLinkAdd (wireguard_create_request name owner_marker)) in
  let? link := get_link name 0 in
  match link with
  | None => fail (err_new NotFound "created interface not found")
  | Some link =>
    if negb (is_wireguard_link link name 0)
    then fail (err_new PermissionDenied "created interface identity changed")
    else
      let index := lm_index link in
      let! result := send (NlLinkSetAlias index owner_marker) in
      match result with
      | Err err => delete_fresh_link name index ;;; fail err
      | Ok _ =>
        let? verified := get_link name index in
        if negb (is_some_and (λ link, is_owned_wireguard_link link name index owner_marker) verified)
        then delete_fresh_link name index ;;;
             fail (err_other "created interface owner marker is missing")
        else ret (Ok index)
      end
  end.

Definition wg_delete (name : string) (index : Z) (owner_marker : string) : M S (io_result unit) :=
  let? link := get_link name index in
  match link with
  | None => ret (Ok tt)
  | Some link =>
    if negb (is_owned_wireguard_link link name index owner_marker)
    then fail (err_new PermissionDenied "interface identity does not match owner")
    else send (NlLinkDel (lm_index link))
  end.

Definition wg_owned (name : string) (index : Z) (owner_marker : string) : M S (io_result bool) :=
  let? link := get_link name index in
  ret (Ok (is_some_and (λ link, is_owned_wireguard_link link name index owner_marker) link)).

Definition wg_present (name : string) (index : Z) : M S (io_result bool) :=
  let? link := get_link name index in
  ret (Ok (is_some_and (λ link, is_wireguard_link link name index) link)).

(** ** The commands *)

Definition execute {A} (command : Command A) : M S (io_result A) :=
  match command in Command A return M S (io_result A) with
  | CommandRoute OpAdd route => send (NlRouteAdd (route_request route OpAdd))
  | CommandRoute OpDelete route => send (NlRouteDel (route_request route OpDelete))
  | OwnedRoutesSnapshot => read_routes owned_route_snapshot
  | NetTablesDump => net_tables_dump
  | CommandSystemRoute OpAdd route => send (NlRouteAdd (system_route_message route))
  | CommandSystemRoute OpDelete route => send (NlRouteDel (system_route_message route))
  | CommandSystemRule true rule => send (NlRuleAdd (system_rule_message rule))
  | CommandSystemRule false rule => send (NlRuleDel (system_rule_message rule))
  | CommandRouteLookup to => route_lookup to
  | CommandDefaultGateways => read_routes default_gateway
  | CommandOnLinkNetworks => read_routes on_link_network
  | CommandRulesSnapshot => let? rules := get_rules in ret (Ok (map rule_snapshot rules))
  | CommandRule rule true => actor_add_rule rule
  | CommandRule rule false => actor_remove_rule rule
  | CommandTableInUse table => table_in_use table
  | CommandRulePresent rule =>
      let? rules := get_rules in
      ret (Ok (existsb (λ message, is_owned_rule message rule) rules))
  | CommandLink index up => send (NlLinkSet index (link_request index up))
  | CommandLinkDel index => send (NlLinkDel index)
  | InterfaceAddrs => get_interface_addrs
  | WgCreate name owner_marker => wg_create name owner_marker
  | WgDelete name index owner_marker => wg_delete name index owner_marker
  | WgOwned name index owner_marker => wg_owned name index owner_marker
  | WgPresent name index => wg_present name index
  | WgAddress index address true =>
      send (NlAddressAdd index (net_addr address) (prefix_len address))
  | WgAddress index address false =>
      send_with classify_address_delete_errno (NlAddressDel (address_delete_request index address))
  | WgMtu index mtu => send (NlLinkSetMtu index mtu)
  end.

(** What the caller receives: the actor's reply, or that there is none. *)
Definition call_actor {A} (command : Command A) : M S (io_result A) := λ s h,
  match execute command s h with
  | (Some r, s', h') => (Some r, s', h')
  | (None, s', h') => (Some (Err actor_gone), s', h')
  end.

(** ** The traits *)

Definition interface_not_found : io_error := err_new NotFound "interface not found".

(** A name without a NUL byte, as an index; 0 when there is no such link. *)
Definition name_index (name : string) : M S (io_result Z) :=
  if contains_char name "000" then fail (err_new InvalidInput "interface name contains NUL")
  else let! index := call (IfNametoindex name) in ret (Ok index).

Definition netlink_set_link_state (name : string) (up : bool) : M S (io_result unit) :=
  let? index := name_index name in
  if Z.eqb index 0 then fail interface_not_found else call_actor (CommandLink index up).

Definition netlink_remove_link (name : string) : M S (io_result unit) :=
  let? index := name_index name in
  if Z.eqb index 0 then fail interface_not_found else call_actor (CommandLinkDel index).

Definition netlink_link_index (name : string) : M S (io_result (option Z)) :=
  let? index := name_index name in
  ret (Ok (if Z.eqb index 0 then None else Some index)).

Definition sys_class_net (name : string) : path := ["/"; "sys"; "class"; "net"; name]%string.

(** [DEVTYPE=] of a device's uevent. *)
Definition devtype (uevent : io_result bytes) : option string :=
  match uevent with
  | Err _ => None
  | Ok contents =>
    text ← from_utf8 contents;
    find_map (λ line, trim <$> strip_prefix line "DEVTYPE=") (lines text)
  end.

Definition netlink_link_kind (name : string) : M S (io_result ExternalLinkKind) :=
  let base := sys_class_net name in
  let! present := call (FsExists base) in
  if negb present then ret (Ok KindMissing) else
  let! uevent := call (FsRead (base ++ ["uevent"%string])) in
  if devtype uevent =b Some "wireguard"%string then ret (Ok KindWireGuard) else
  let! tun := call (FsExists (base ++ ["tun_flags"%string])) in
  ret (Ok (if tun : bool then KindTun else KindOther)).

(** The methods of the traits [NetlinkExecutor] implements: [RouteExecutor],
    [PolicyRuleExecutor], [LinkExecutor] and [WgSystem]. *)
Definition netlink_executor {A} (c : ext A) : option (M S A) :=
  match c in ext A return option (M S A) with
  | AddRoute route => Some (call_actor (CommandRoute OpAdd route))
  | RemoveRoute route => Some (call_actor (CommandRoute OpDelete route))
  | DefaultGateways => Some (call_actor CommandDefaultGateways)
  | OnLinkNetworks => Some (call_actor CommandOnLinkNetworks)
  | NetTables => Some (call_actor NetTablesDump)
  | AddSystemRoute route => Some (call_actor (CommandSystemRoute OpAdd route))
  | RemoveSystemRoute route => Some (call_actor (CommandSystemRoute OpDelete route))
  | RulesSnapshot => Some (call_actor CommandRulesSnapshot)
  | AddRule rule => Some (call_actor (CommandRule rule true))
  | RemoveRule rule => Some (call_actor (CommandRule rule false))
  | TableInUse table => Some (call_actor (CommandTableInUse table))
  | RulePresent rule => Some (call_actor (CommandRulePresent rule))
  | AddSystemRule rule => Some (call_actor (CommandSystemRule true rule))
  | RemoveSystemRule rule => Some (call_actor (CommandSystemRule false rule))
  | SetLinkState name up => Some (netlink_set_link_state name up)
  | RemoveLink name => Some (netlink_remove_link name)
  | LinkKind name => Some (netlink_link_kind name)
  | LinkIndex name => Some (netlink_link_index name)
  | WgCreateLink name owner_marker => Some (call_actor (WgCreate name owner_marker))
  | WgDeleteLink name index owner_marker => Some (call_actor (WgDelete name index owner_marker))
  | WgLinkOwned name index owner_marker => Some (call_actor (WgOwned name index owner_marker))
  | WgLinkPresent name index => Some (call_actor (WgPresent name index))
  | WgAddAddress index address => Some (call_actor (WgAddress index address true))
  | WgRemoveAddress index address => Some (call_actor (WgAddress index address false))
  | WgSetMtu index mtu => Some (call_actor (WgMtu index mtu))
  | WgSetState index up => Some (call_actor (CommandLink index up))
  (* trait NetworkObservation *)
  | ObserveAddrs => Some (call_actor InterfaceAddrs)
  | ObserveRoutes => Some (call_actor OwnedRoutesSnapshot)
  | _ => None
  end.

End actor.
