(* ===== verification/CoreTeardown.v ===== *)
(** * Teardown of journal entries

    [teardown], [teardown_entry] and the per-tunnel variants of
    [crates/daemon/src/core.rs], with the operations that only tear down:
    [open], [cleanup_uid], [cleanup_session_uid], [shutdown],
    [remove_owner]. *)

From S2P Require Export CoreState.

Section teardown.
Context `{Env}.

(** [Err(err) if err.kind() == k => Ok(())] *)
Definition ok_if (k : ErrorKind) (r : io_result unit) : io_result unit :=
  match r with
  | Err err => if has_kind k err then Ok tt else Err err
  | Ok _ => Ok tt
  end.

(** The [removed] test of the tunnel teardowns. *)
Definition removed (r : io_result unit) : bool :=
  match r with
  | Ok _ => true
  | Err err => has_kind NotFound err
  end.

(** ** Generic owners *)

Definition release_resource (resource : OwnedResource) : M DaemonCore (io_result unit) :=
  match resource with
  | Route route => let! r := call (RemoveRoute route) in ret (ok_if NotFound r)
  | NetRoute route => let! r := call (RemoveSystemRoute route) in ret (ok_if NotFound r)
  | NetRule rule =>
    let! r := with_policy (call (RemoveSystemRule rule)) in ret (ok_if NotFound r)
  | SuppressedRoute route =>
    let! r := call (AddSystemRoute route) in ret (ok_if AlreadyExists r)
  | SuppressedRule rule =>
    let! r := with_policy (call (AddSystemRule rule)) in ret (ok_if AlreadyExists r)
  | _ => ret (Ok tt)
  end.

(** The loop over [resources.iter().rev()]. *)
Definition release_resources (rev_resources : list OwnedResource)
    : M DaemonCore (list OwnedResource) :=
  for_acc rev_resources [] (λ failed resource,
    let! result := release_resource resource in
    ret (match result with Ok _ => failed | Err _ => failed ++ [resource] end)).

Definition mark_stale (index : nat) : M DaemonCore unit :=
  update_entry index (with_state Stale).

(** [entry.state = Stale; entry.resources = failed.into_iter().rev().collect()] *)
Definition keep_failed (index : nat) (failed : list OwnedResource) : M DaemonCore unit :=
  update_entry index (λ e, with_resources (λ _, rev failed) (with_state Stale e)).

Definition teardown_generic (index : nat) : M DaemonCore (io_result unit) :=
  let! entry := entry_at index in
  let! failed := release_resources (rev (je_resources entry)) in
  match failed with
  | [] => remove_entry index ;;; ret (Ok tt)
  | _ => keep_failed index failed ;;;
         fail (err_other "owner teardown left resources behind")
  end.

(** ** Xray *)

Definition find_xray (resources : list OwnedResource) : option XrayProcessResource :=
  find_map (λ r, match r with XrayProcess p => Some p | _ => None end) resources.

Definition dns_unavailable : io_error := err_new NotConnected "DNS executor is unavailable".

(** [executor.revert(&dns.name)], mapped as the tunnel teardowns do. *)
Definition revert_dns (name : string) (failure : DnsError → io_error)
    : M DaemonCore (io_result unit) :=
  let! c := get in
  if ex_dns (dc_wired c) then
    let! r := call (DnsRevert name) in
    ret (match r with
         | Ok _ | Err DnsErrUnavailable => Ok tt
         | Err e => Err (failure e)
         end)
  else fail dns_unavailable.

(** [Display] of [DnsError]. *)
Definition dns_error_text (e : DnsError) : string :=
  match e with
  | DnsErrUnavailable => "systemd-resolved is unavailable"
  | DnsErrFailed m => m
  end.

(** One resource of an Xray entry; the outer result is an early return. *)
Definition release_xray_resource (uid : Z) (process : XrayProcessResource)
    (current_index : option Z) (resource : OwnedResource)
    : M DaemonCore (io_result (io_result unit)) :=
  let! c := get in
  match resource with
  | Dns dns =>
    if is_none current_index then ret (Ok (Ok tt))
    else let! r := revert_dns (wd_name dns) (λ _, err_other "Xray DNS cleanup failed") in
         ret (Ok r)
  | Rule rule =>
    if ex_policy (dc_wired c) then let! r := call (RemoveRule rule) in ret (Ok r)
    else fail policy_unavailable
  | Route route => let! r := call (RemoveRoute route) in ret (Ok r)
  | Address address =>
    if is_some current_index then
      if ex_wg (dc_wired c)
      then let! r := call (WgRemoveAddress (wa_interface_index address) (wa_address address)) in
           ret (Ok r)
      else fail (err_new NotConnected "TUN executor is unavailable")
    else ret (Ok (Ok tt))
  | XrayProcess _ =>
    let! stopped := call (XrayStop (xp_name process)) in
    match stopped with
    | Ok _ => let! r := call (XrayCleanup uid (xp_name process)) in ret (Ok r)
    | Err e =>
      if has_kind NotFound e
      then let! r := call (XrayCleanup uid (xp_name process)) in ret (Ok r)
      else ret (Ok (Err e))
    end
  | _ => ret (Ok (Err (err_new InvalidData "unexpected Xray journal resource")))
  end.

Definition is_xray_process (r : OwnedResource) : bool :=
  match r with XrayProcess _ => true | _ => false end.

Definition teardown_xray_entry (index : nat) : M DaemonCore (io_result unit) :=
  let! entry := entry_at index in
  let key := (je_uid entry, je_owner entry) in
  modify (set_failovers (λ m, m ∖ {[key]})) ;;;
  modify (set_watchdogs (λ m, m ∖ {[key]})) ;;;
  modify (set_service_checks (λ m, m ∖ {[key]})) ;;;
  let? process := lift (ok_or (find_xray (je_resources entry))
                          (err_new InvalidData "Xray owner has no process marker")) in
  let! c := get in
  let! quic_failed :=
    (if xp_reject_quic process then
       if ex_quic_reject (dc_wired c)
       then let! r := call (QuicRemove (je_uid entry) (xp_name process)) in ret (is_err r)
       else ret true
     else ret false) in
  if negb (ex_xray (dc_wired c)) then
    mark_stale index ;;; fail (err_new NotConnected "Xray executor is unavailable")
  else
    let? current_index := call (XrayLinkIndex (xp_name process)) in
    if is_some_and (λ current, Z.eqb (xp_index process) 0 || negb (Z.eqb current (xp_index process)))
         current_index
    then mark_stale index ;;; fail (err_other "Xray TUN link identity is unverified")
    else
      let? failed :=
        for_try (rev (je_resources entry)) [] (λ failed resource,
          let? result := release_xray_resource (je_uid entry) process current_index resource in
          ret (Ok (if negb (removed result)
                      || (is_xray_process resource
                          && (negb (Nat.eqb (length failed) 0) || quic_failed))
                   then failed ++ [resource] else failed))) in
      match failed with
      | [] => remove_entry index ;;; ret (Ok tt)
      | _ => keep_failed index failed ;;; fail (err_other "Xray cleanup left owned resources")
      end.

(** ** OpenVPN *)

Definition find_openvpn (resources : list OwnedResource) : option OpenVpnProcessResource :=
  find_map (λ r, match r with OpenVpnProcess p => Some p | _ => None end) resources.

Definition is_openvpn_process (r : OwnedResource) : bool :=
  match r with OpenVpnProcess _ => true | _ => false end.

(** [process.full = None] on the first resource. *)
Definition clear_first_full (rs : list OwnedResource) : list OwnedResource :=
  match rs with
  | OpenVpnProcess p :: rest =>
    OpenVpnProcess (mkOpenVpnProcess (op_name p) (op_owner_marker p) (op_transport_mark p) None)
      :: rest
  | _ => rs
  end.

Definition release_openvpn_resource (link_present : bool) (resource : OwnedResource)
    : M DaemonCore (io_result (io_result unit)) :=
  let! c := get in
  match resource with
  | Dns dns =>
    if wd_applied dns then
      if ex_dns (dc_wired c) then
        let! r := call (DnsRevert (wd_name dns)) in
        ret (Ok (match r with
                 | Ok _ | Err DnsErrUnavailable => Ok tt
                 | Err _ => if negb link_present then Ok tt
                            else Err (err_other "OpenVPN DNS cleanup failed")
                 end))
      else ret (Ok (if negb link_present then Ok tt
                    else Err (err_other "OpenVPN DNS executor is unavailable")))
    else ret (Ok (Ok tt))
  | Rule rule =>
    if ex_policy (dc_wired c) then let! r := call (RemoveRule rule) in ret (Ok r)
    else fail (err_other "OpenVPN policy executor is unavailable")
  | Route route => let! r := call (RemoveRoute route) in ret (Ok r)
  | _ => ret (Ok (Ok tt))
  end.

Definition clear_openvpn_network (index : nat) : M DaemonCore (io_result unit) :=
  let! entry := entry_at index in
  let? process := lift (ok_or (find_openvpn (je_resources entry))
                          (err_new InvalidData "OpenVPN process journal is malformed")) in
  let! c := get in
  if negb (ex_openvpn (dc_wired c))
  then fail (err_new NotConnected "OpenVPN executor is unavailable") else
  let? link := call (OvpnLinkIndex (op_name process)) in
  let link_present := is_some link in
  let? _ :=
    for_try (rev (je_resources entry)) tt (λ _ resource,
      let? result := release_openvpn_resource link_present resource in
      if removed result then ret (Ok tt)
      else
        mark_stale index ;;; persist ;;;
        fail (err_other "OpenVPN network cleanup failed")) in
  update_entry index (with_resources (λ rs, clear_first_full (bfilter is_openvpn_process rs))) ;;;
  store_save_journal.

Definition teardown_openvpn_entry (index : nat) : M DaemonCore (io_result unit) :=
  let! entry := entry_at index in
  let? process := lift (ok_or (find_openvpn (je_resources entry))
                          (err_new InvalidData "OpenVPN owner has no process marker")) in
  let! c := get in
  if negb (ex_openvpn (dc_wired c)) then
    mark_stale index ;;; fail (err_new NotConnected "OpenVPN executor is unavailable")
  else
    let! stopped := call (OvpnStop (op_name process)) in
    if negb (removed stopped) then
      mark_stale index ;;; fail (err_other "OpenVPN child termination failed")
    else
      let? link := call (OvpnLinkIndex (op_name process)) in
      if is_some link then
        mark_stale index ;;; fail (err_new AlreadyExists "OpenVPN link identity is unverified")
      else
        let! cleared := clear_openvpn_network index in
        match cleared with
        | Err _ => mark_stale index ;;; fail (err_other "OpenVPN network cleanup failed")
        | Ok _ =>
          let! cleaned := call (OvpnCleanup (je_uid entry) (op_name process)) in
          if negb (removed cleaned) then
            mark_stale index ;;; fail (err_other "OpenVPN staging cleanup failed")
          else
            remove_entry index ;;;
            modify (set_openvpn_runtime (delete (je_uid entry, je_owner entry))) ;;;
            ret (Ok tt)
        end.

Definition fail_openvpn (uid : Z) (owner : string) : M DaemonCore (io_result unit) :=
  let! c := get in
  let reason := dc_openvpn_runtime c !! (uid, owner) ≫= λ rt, ms_last_failure (ov_snapshot rt) in
  match reason with
  | Some reason =>
    modify (set_openvpn_failures (λ m,
      if is_some (m !! (uid, owner)) then m else <[(uid, owner) := reason]> m))
  | None => ret tt
  end ;;;
  let! c := get in
  match position_of c uid owner with
  | Some index =>
    let! _ := teardown_openvpn_entry index in
    persist
  | None => ret tt
  end ;;;
  modify (set_openvpn_failed (λ m, {[(uid, owner)]} ∪ m)) ;;;
  fail (err_new InvalidInput "OpenVPN connection failed or requested unsupported network options").

(** ** WireGuard *)

Definition find_wireguard (resources : list OwnedResource) : option WireGuardLinkResource :=
  find_map (λ r, match r with WireGuardLink l => Some l | _ => None end) resources.

(** One resource of a WireGuard entry. [Ok None] is the link kept because an
    earlier removal failed. *)
Definition release_wireguard_resource (owned : bool) (failed : list OwnedResource)
    (resource : OwnedResource) : M DaemonCore (io_result (option (io_result unit))) :=
  let! c := get in
  match resource with
  | Route route =>
    if owned then let! r := call (RemoveRoute route) in ret (Ok (Some r))
    else ret (Ok (Some (Ok tt)))
  | Address address =>
    if owned
    then let! r := call (WgRemoveAddress (wa_interface_index address) (wa_address address)) in
         ret (Ok (Some r))
    else ret (Ok (Some (Ok tt)))
  | WireGuardLink link =>
    match failed with
    | [] =>
      if owned
      then let! r := call (WgDeleteLink (wl_name link) (wl_index link) (wl_owner_marker link)) in
           ret (Ok (Some r))
      else ret (Ok (Some (Ok tt)))
    | _ => ret (Ok None)
    end
  | Rule rule =>
    if ex_policy (dc_wired c) then let! r := call (RemoveRule rule) in ret (Ok (Some r))
    else fail policy_unavailable
  | Dns dns =>
    if owned
    then let! r := revert_dns (wd_name dns) (λ e, err_other (dns_error_text e)) in
         ret (Ok (Some r))
    else ret (Ok (Some (Ok tt)))
  | OpenVpnProcess _ =>
    ret (Ok (Some (Err (err_new InvalidData "OpenVPN resource in WireGuard journal entry"))))
  | XrayProcess _ =>
    ret (Ok (Some (Err (err_new InvalidData "Xray resource in WireGuard journal entry"))))
  | NetRoute _ | NetRule _ | SuppressedRoute _ | SuppressedRule _ =>
    ret (Ok (Some (Err (err_new InvalidData
                          "manual network override in WireGuard journal entry"))))
  | AttachSpec _ => ret (Ok (Some (Ok tt)))
  end.

Definition teardown_wireguard_entry (index : nat) : M DaemonCore (io_result unit) :=
  let! entry := entry_at index in
  modify (set_wireguard_handshake (delete (je_uid entry, je_owner entry))) ;;;
  let? link := lift (ok_or (find_wireguard (je_resources entry))
                       (err_new InvalidData "WireGuard owner has no link")) in
  let! c := get in
  if negb (ex_wg (dc_wired c)) then
    mark_stale index ;;; fail (err_new NotConnected "WireGuard executor is unavailable")
  else
    let! answer_owned := call (WgLinkOwned (wl_name link) (wl_index link) (wl_owner_marker link)) in
    match answer_owned with
    | Err err => mark_stale index ;;; fail err
    | Ok owned =>
      let! answer_present :=
        if owned then ret (Ok false) else call (WgLinkPresent (wl_name link) (wl_index link)) in
      match answer_present with
      | Err err => mark_stale index ;;; fail err
      | Ok true => mark_stale index ;;; fail (err_other "WireGuard link identity is unverified")
      | Ok false =>
        let? failed :=
          for_try (rev (je_resources entry)) [] (λ failed resource,
            let? result := release_wireguard_resource owned failed resource in
            ret (Ok (match result with
                     | None => failed ++ [resource]
                     | Some r => if removed r then failed else failed ++ [resource]
                     end))) in
        match failed with
        | [] => remove_entry index ;;; ret (Ok tt)
        | _ => keep_failed index failed ;;;
               fail (err_other "WireGuard cleanup left owned resources")
        end
      end
    end.

(** ** Dispatch *)

Definition teardown_entry (index : nat) : M DaemonCore (io_result unit) :=
  let! entry := entry_at index in
  let owner := je_owner entry in
  if starts_with owner "xray:" then teardown_xray_entry index
  else if starts_with owner "ovpn:" || starts_with owner "ovpn-probe:"
  then teardown_openvpn_entry index
  else if starts_with owner "wg:" then teardown_wireguard_entry index
  else teardown_generic index.

(** One index of the loop of [teardown]. *)
Definition teardown_step (matches : JournalEntry → bool) (result : CleanupResult) (index : nat)
    : M DaemonCore CleanupResult :=
  let! entry := entry_at index in
  if negb (matches entry) then ret result
  else
    let! r := teardown_entry index in
    ret (match r with
         | Ok _ => mkCleanup (cr_removed_owners result ++ [je_owner entry]) (cr_failed result)
         | Err _ => mkCleanup (cr_removed_owners result) (cr_failed result ++ [je_owner entry])
         end).

Definition teardown (matches : JournalEntry → bool) : M DaemonCore (io_result CleanupResult) :=
  let! c := get in
  let! result := for_acc (rev (seq 0 (length (entries c)))) (mkCleanup [] [])
                   (teardown_step matches) in
  let? _ := store_save_journal in
  ret (Ok result).

(** ** The operations that only tear down *)

(** The recovery at start of [open] and its variants: the state [put] is the
    struct they build, [wired] the executors they are given. *)
Definition open_recovery (wired : Executors) : M DaemonCore (io_result unit) :=
  let? journal := call StoreLoad in
  put (core_with journal wired) ;;;
  match jd_entries journal with
  | [] => ret (Ok tt)
  | _ => let? _ := teardown (λ _, true) in ret (Ok tt)
  end.

Definition open : M DaemonCore (io_result unit) := open_recovery unwired.

Definition open_with_wireguard : M DaemonCore (io_result unit) :=
  open_recovery (mkExecutors true true false false false false false false None).

Definition open_with_wireguard_full : M DaemonCore (io_result unit) :=
  open_recovery (mkExecutors true true false false false true true false None).

Definition open_with_openvpn : M DaemonCore (io_result unit) :=
  open_recovery (mkExecutors false false true false false false false false None).

Definition open_with_all : M DaemonCore (io_result unit) :=
  open_recovery (mkExecutors true true true true true true true false None).

Definition cleanup_uid (uid : Z) : M DaemonCore (io_result CleanupResult) :=
  modify (set_tunnel_failed (filter (λ k, k.1 ≠ uid))) ;;;
  teardown (λ entry, Z.eqb (je_uid entry) uid).

Definition cleanup_session_uid (uid : Z) (keep : gset owner_key)
    : M DaemonCore (io_result CleanupResult) :=
  teardown (λ entry,
    Z.eqb (je_uid entry) uid
    && negb (bool_decide ((uid, je_owner entry) ∈ keep))
    && negb (starts_with (je_owner entry) "cond:")
    && negb (starts_with (je_owner entry) INTENT_OWNER_PREFIX)
    && negb (je_owner entry =b MANUAL_OWNER)).

Definition shutdown : M DaemonCore (io_result CleanupResult) := teardown (λ _, true).

(** [remove_owner_inner]: no reserved-prefix checks. *)
Definition remove_owner_inner (uid : Z) (owner : string) : M DaemonCore (io_result nat) :=
  let! c := get in
  let? index := lift (ok_or (position_of c uid owner)
                        (err_new NotFound "owner has nothing applied")) in
  let! entry := entry_at index in
  let count := length (je_resources entry) in
  let! result := teardown_entry index in
  persist ;;;
  ret (match result with Ok _ => Ok count | Err e => Err e end).

Definition remove_owner (uid : Z) (owner : string) : M DaemonCore (io_result nat) :=
  let? _ := lift (map_err invalid_input (validate_owner owner)) in
  let! c := get in
  let? index := lift (ok_or (position_of c uid owner)
                        (err_new NotFound "owner has nothing applied")) in
  if starts_with owner "wg:" || starts_with owner "ovpn:"
  then fail (invalid_input (txt "use the tunnel disconnect method for tunnel owners"))
  else if starts_with owner "cond:"
  then fail (invalid_input (txt "conditional owners are managed by rule evaluation"))
  else
    let! entry := entry_at index in
    let count := length (je_resources entry) in
    let! result := teardown_entry index in
    persist ;;;
    ret (match result with Ok _ => Ok count | Err e => Err e end).

(** ** Links of others *)

Definition journal_owns_iface (c : DaemonCore) (name : string) : bool :=
  existsb (λ entry, existsb (λ res,
    match res with
    | WireGuardLink link => wl_name link =b name
    | OpenVpnProcess proc => op_name proc =b name
    | XrayProcess proc => xp_name proc =b name
    | _ => false
    end) (je_resources entry)) (entries c).

Definition set_link_state (name : string) (up : bool) : M DaemonCore (io_result unit) :=
  let? _ := lift (map_err invalid_input (validate_iface_name name)) in
  call (SetLinkState name up).

Definition stop_external_link (name : string) : M DaemonCore (io_result unit) :=
  let? _ := lift (map_err invalid_input (validate_iface_name name)) in
  let! c := get in
  if journal_owns_iface c name
  then fail (invalid_input (txt "interface is managed by a profile — disconnect it instead"))
  else
    let? kind := call (LinkKind name) in
    match kind with
    | KindMissing => fail (err_new NotFound "interface not found")
    | KindOther => fail (invalid_input (txt "only tunnel interfaces can be stopped"))
    | KindTun => call (SetLinkState name false)
    | KindWireGuard =>
      let! stopped := call (StopWgQuickUnit name) in
      if stopped then ret (Ok tt) else call (RemoveLink name)
    end.

End teardown.
