(* ===== verification/CoreRoutes.v ===== *)
(** * Client routes and manual overrides

    [apply_routes], [apply_attach] and the [net.route.*] / [net.rule.*]
    edits of [crates/daemon/src/core.rs]. *)

From S2P Require Export CoreTeardown.

Section routes.
Context `{Env} `{IpNetLib}.

(** ** Client owners *)

Definition reserved_owner (owner : string) : bool :=
  starts_with owner "wg:" || starts_with owner "ovpn:" || starts_with owner "ovpn-probe:"
  || starts_with owner "xray:" || starts_with owner "cond:"
  || starts_with owner INTENT_OWNER_PREFIX || (owner =b MANUAL_OWNER).

Definition check_client_owner (owner : string) : io_result unit :=
  _ <-? map_err invalid_input (validate_owner owner);
  if reserved_owner owner then Err (invalid_input (txt "reserved owner prefix")) else Ok tt.

Definition attach_resources (attach : option AttachSpecParams) : list OwnedResource :=
  match attach with Some spec => [AttachSpec spec] | None => [] end.

Definition apply_routes_inner (uid : Z) (owner : string) (routes : list AppliedRoute)
    (attach : option AttachSpecParams) : M DaemonCore (io_result nat) :=
  let? _ := lift (map_err invalid_input (validate_apply routes)) in
  let! c := get in
  if is_some (position_of c uid owner)
  then fail (err_new AlreadyExists "owner already has routes applied; remove them first")
  else
    push_entry (mkEntry uid owner Applying (attach_resources attach ++ map Route routes)) ;;;
    let! saved := store_save_journal in
    match saved with
    | Err err => pop_entry ;;; fail err
    | Ok _ =>
      let! c := get in
      let index := length (entries c) - 1 in
      let! applied := apply_routes_transactional routes in
      match applied with
      | Ok _ =>
        update_entry index (with_state Applied) ;;;
        persist ;;;
        ret (Ok (length routes))
      | Err (err, still_applied) =>
        (if Nat.eqb (length still_applied) 0 && is_none attach then remove_entry index
         else update_entry index (λ e,
                with_resources (λ _, attach_resources attach ++ map Route still_applied)
                  (with_state Stale e))) ;;;
        persist ;;;
        fail err
      end
    end.

Definition apply_routes (uid : Z) (owner : string) (routes : list AppliedRoute)
    : M DaemonCore (io_result nat) :=
  let? _ := lift (check_client_owner owner) in
  apply_routes_inner uid owner routes None.

Definition apply_attach (uid : Z) (owner : string) (spec : AttachSpecParams)
    (routes : list AppliedRoute) : M DaemonCore (io_result nat) :=
  let? _ := lift (check_client_owner owner) in
  let? _ := lift (map_err invalid_input (validate_attach spec)) in
  apply_routes_inner uid owner routes (Some spec).

Definition owned (c : DaemonCore) (uid : Z) : list OwnedEntry :=
  map (λ entry, mkOwnedEntry (je_owner entry) (je_state entry) (je_resources entry))
    (bfilter (λ entry, Z.eqb (je_uid entry) uid) (entries c)).

Definition net_tables : M DaemonCore (io_result NetTablesResult) := call NetTables.

(** ** Manual overrides *)

(** The index of the [manual] entry, created write-ahead. *)
Definition manual_entry (uid : Z) : M DaemonCore (io_result nat) :=
  let! c := get in
  match position_of c uid MANUAL_OWNER with
  | Some index => ret (Ok index)
  | None =>
    push_entry (mkEntry uid MANUAL_OWNER Applying []) ;;;
    let? _ := store_save_journal in
    let! c := get in
    ret (Ok (length (entries c) - 1))
  end.

(** The error branch shared by the edits: forget the resource just pushed,
    and the entry when it holds nothing else. *)
Definition forget_last (index : nat) : M DaemonCore unit :=
  update_entry index pop_resource ;;;
  let! entry := entry_at index in
  match je_resources entry with
  | [] => remove_entry index
  | _ => ret tt
  end.

Definition family_of (a : IpAddr) : IpFamily := if is_ipv4 a then Ipv4 else Ipv6.

Definition route_interface_index (params : NetRouteAddParams) : M DaemonCore (io_result Z) :=
  match ra_interface_index params, ra_interface_name params with
  | Some index, None => ret (Ok index)
  | None, Some name =>
    let? _ := lift (map_err invalid_input (validate_iface_name name)) in
    let? index := call (LinkIndex name) in
    lift (ok_or index (err_new NotFound "interface not found"))
  | _, _ => fail (invalid_input (txt "provide exactly one of interfaceName or interfaceIndex"))
  end.

Definition manual_route (params : NetRouteAddParams) (interface_index : Z) : SystemRoute :=
  let destination := trunc (ra_destination params) in
  {| sr_family := family_of (net_addr destination);
     sr_destination := destination;
     sr_table := unwrap_or (ra_table params) RT_TABLE_MAIN;
     sr_kind := "unicast";
     sr_scope := if is_some (ra_gateway params) then "universe" else "link";
     sr_protocol := RTPROT_NETWORK_ORCHESTRATOR;
     sr_managed := true;
     sr_gateway := ra_gateway params;
     sr_interface_index := Some interface_index;
     sr_interface_name := ra_interface_name params;
     sr_metric := Some (unwrap_or (ra_metric params) 0%Z);
     sr_pref_source := ra_pref_source params;
     sr_nexthops := [] |}.

Definition net_route_add (uid : Z) (params : NetRouteAddParams) : M DaemonCore (io_result unit) :=
  let destination := trunc (ra_destination params) in
  let table := unwrap_or (ra_table params) RT_TABLE_MAIN in
  if Z.eqb table RT_TABLE_UNSPEC || Z.eqb table RT_TABLE_LOCAL
  then fail (invalid_input (txt "routes in the unspec/local tables are not editable"))
  else
    let? interface_index := route_interface_index params in
    let family := family_of (net_addr destination) in
    if existsb (λ address, negb (Bool.eqb (is_ipv4 address) (family =b Ipv4)))
         (option_list (ra_gateway params) ++ option_list (ra_pref_source params))
    then fail (invalid_input (txt "address family mismatch"))
    else
      let route := manual_route params interface_index in
      let? index := manual_entry uid in
      update_entry index (push_resource (NetRoute route)) ;;;
      update_entry index (with_state Applying) ;;;
      let? _ := store_save_journal in
      let! added := call (AddSystemRoute route) in
      match added with
      | Ok _ => update_entry index (with_state Applied) ;;; persist ;;; ret (Ok tt)
      | Err err => forget_last index ;;; persist ;;; fail err
      end.

(** [entry.resources.retain(keep)], dropping the [manual] entry when empty. *)
Definition retain_manual (uid : Z) (keep : OwnedResource → bool) : M DaemonCore unit :=
  let! c := get in
  match position_of c uid MANUAL_OWNER with
  | None => ret tt
  | Some index =>
    update_entry index (with_resources (bfilter keep)) ;;;
    let! entry := entry_at index in
    match je_resources entry with
    | [] => remove_entry index
    | _ => ret tt
    end
  end.

Definition net_route_del_manual (uid : Z) (route : SystemRoute)
    : M DaemonCore (io_result NetEditOutcome) :=
  let? _ := call (RemoveSystemRoute route) in
  retain_manual uid (λ resource,
    match resource with
    | NetRoute installed => negb (same_system_route installed route)
    | _ => true
    end) ;;;
  persist ;;;
  ret (Ok Deleted).

(** The owner among the uid's entries that records the object. *)
Definition owner_recording (c : DaemonCore) (uid : Z) (records : OwnedResource → bool)
    : option string :=
  je_owner <$> List.find (λ entry, existsb records (je_resources entry))
                 (bfilter (λ entry, Z.eqb (je_uid entry) uid) (entries c)).

Definition records_route (route : SystemRoute) (resource : OwnedResource) : bool :=
  match resource with
  | Route applied => same_route route applied
  | NetRoute installed => same_system_route installed route
  | _ => false
  end.

Definition net_route_del_owned (uid : Z) (route : SystemRoute)
    : M DaemonCore (io_result NetEditOutcome) :=
  let! c := get in
  match owner_recording c uid (records_route route) with
  | Some owner =>
    if owner =b MANUAL_OWNER then net_route_del_manual uid route
    else fail (invalid_input [TStr "route is managed by "; TStr owner;
                              TStr "; disconnect it instead"])
  | None =>
    let? _ := call (RemoveSystemRoute route) in
    ret (Ok Deleted)
  end.

Definition net_route_del (uid : Z) (route : SystemRoute)
    : M DaemonCore (io_result NetEditOutcome) :=
  if Z.eqb (sr_table route) RT_TABLE_UNSPEC || Z.eqb (sr_table route) RT_TABLE_LOCAL
  then fail (invalid_input (txt "routes in the unspec/local tables are not editable"))
  else if negb (sr_kind route =b "unicast"%string)
  then fail (invalid_input (txt "only unicast routes are editable"))
  else if sr_managed route then net_route_del_owned uid route
  else
    let? index := manual_entry uid in
    update_entry index (push_resource (SuppressedRoute route)) ;;;
    update_entry index (with_state Applied) ;;;
    let? _ := store_save_journal in
    let! removed_ := call (RemoveSystemRoute route) in
    match removed_ with
    | Ok _ => persist ;;; ret (Ok Suppressed)
    | Err err => forget_last index ;;; persist ;;; fail err
    end.

Fixpoint validate_iface_names (names : list string) : result unit text :=
  match names with
  | [] => Ok tt
  | name :: rest => _ <-? validate_iface_name name; validate_iface_names rest
  end.

Definition manual_rule (params : NetRuleAddParams) : SystemRule :=
  {| ru_family := rp_family params;
     ru_priority := rp_priority params;
     ru_action := "lookup";
     ru_table := rp_table params;
     ru_goto := None;
     ru_from := trunc <$> rp_from params;
     ru_to := trunc <$> rp_to params;
     ru_fwmark := rp_fwmark params;
     ru_fwmask := rp_fwmask params;
     ru_iifname := rp_iifname params;
     ru_oifname := rp_oifname params;
     ru_uid_range := None;
     ru_source_port_range := None;
     ru_destination_port_range := None;
     ru_ip_protocol := None;
     ru_suppress_prefix_length := None;
     ru_suppress_if_group := None;
     ru_tun_id := None;
     ru_tos := 0;
     ru_invert := rp_invert params;
     ru_protocol := RTPROT_NETWORK_ORCHESTRATOR;
     ru_managed := true |}.

Definition net_rule_add (uid : Z) (params : NetRuleAddParams) : M DaemonCore (io_result unit) :=
  if Z.eqb (rp_priority params) 0
  then fail (invalid_input (txt "priority 0 is reserved by the kernel local rule"))
  else if Z.eqb (rp_table params) RT_TABLE_UNSPEC || Z.eqb (rp_table params) RT_TABLE_LOCAL
  then fail (invalid_input (txt "rules into unspec/local tables are not editable"))
  else if existsb (λ net, negb (Bool.eqb (net_is_ipv4 net) (rp_family params =b Ipv4)))
            (option_list (rp_from params) ++ option_list (rp_to params))
  then fail (invalid_input (txt "selector family mismatch"))
  else
    let? _ := lift (map_err invalid_input
                (validate_iface_names (option_list (rp_iifname params)
                                         ++ option_list (rp_oifname params)))) in
    let rule := manual_rule params in
    let? index := manual_entry uid in
    update_entry index (push_resource (NetRule rule)) ;;;
    update_entry index (with_state Applying) ;;;
    let? _ := store_save_journal in
    let! added := with_policy (call (AddSystemRule rule)) in
    match added with
    | Ok _ => update_entry index (with_state Applied) ;;; persist ;;; ret (Ok tt)
    | Err err => forget_last index ;;; persist ;;; fail err
    end.

Definition records_rule (rule : SystemRule) (resource : OwnedResource) : bool :=
  match resource with
  | Rule owned_rule => same_rule rule owned_rule
  | NetRule installed => installed =b rule
  | _ => false
  end.

Definition net_rule_del_owned (uid : Z) (rule : SystemRule)
    : M DaemonCore (io_result NetEditOutcome) :=
  let! c := get in
  let owner := owner_recording c uid (records_rule rule) in
  match owner with
  | Some o =>
    if negb (o =b MANUAL_OWNER)
    then fail (invalid_input [TStr "rule is managed by "; TStr o; TStr "; disconnect it instead"])
    else
      let? _ := with_policy (call (RemoveSystemRule rule)) in
      retain_manual uid (λ resource,
        match resource with
        | NetRule installed => negb (installed =b rule)
        | _ => true
        end) ;;;
      persist ;;;
      ret (Ok Deleted)
  | None =>
    let? _ := with_policy (call (RemoveSystemRule rule)) in
    persist ;;;
    ret (Ok Deleted)
  end.

Definition editable_action (action : string) : bool :=
  vec_contains ["lookup"; "goto"; "nop"; "blackhole"; "unreachable"; "prohibit"]%string action.

Definition net_rule_del (uid : Z) (rule : SystemRule) : M DaemonCore (io_result NetEditOutcome) :=
  if Z.eqb (ru_priority rule) 0
  then fail (invalid_input (txt "priority 0 is the kernel local rule"))
  else if negb (editable_action (ru_action rule))
  then fail (invalid_input [TStr "rule action '"; TStr (ru_action rule);
                            TStr "' is not editable"])
  else if ru_managed rule then net_rule_del_owned uid rule
  else
    let? index := manual_entry uid in
    update_entry index (push_resource (SuppressedRule rule)) ;;;
    update_entry index (with_state Applied) ;;;
    let? _ := store_save_journal in
    let! removed_ := with_policy (call (RemoveSystemRule rule)) in
    match removed_ with
    | Ok _ => persist ;;; ret (Ok Suppressed)
    | Err err => forget_last index ;;; persist ;;; fail err
    end.

(** ** Attach specs *)

Definition uplink_next_hop (destination : IpNet)
    : M DaemonCore (option (option IpAddr * Z)) :=
  let! gateways := call DefaultGateways in
  match ok gateways ≫= λ gws,
        List.find (λ '(gateway, _), Bool.eqb (is_ipv4 gateway) (net_is_ipv4 destination)) gws with
  | None => ret None
  | Some (gateway, oif) =>
    let! on_link_networks := call OnLinkNetworks in
    let on_link_here :=
      existsb (λ '(iif, net), Z.eqb iif oif && contains_net net destination)
        (unwrap_or (ok on_link_networks) []) in
    ret (Some (if on_link_here then None else Some gateway, oif))
  end.

Definition uplink_host_route (host : IpAddr) (metric : Z) : M DaemonCore (option AppliedRoute) :=
  let! hop := uplink_next_hop (net_of_ip host) in
  ret (match hop with
       | Some (gateway, oif) => Some (mkAppliedRoute (net_of_ip host) oif metric gateway None)
       | None => None
       end).

Definition uplink_bypass_route (host : IpAddr) : M DaemonCore (option AppliedRoute) :=
  uplink_host_route host ENDPOINT_BYPASS_METRIC.

(** [IpAddr]'s order: every IPv4 address before every IPv6 address. *)
Definition ip_le (a b : IpAddr) : bool :=
  match a, b with
  | V4 x, V4 y | V6 x, V6 y => Z.leb x y
  | V4 _, V6 _ => true
  | V6 _, V4 _ => false
  end.

(** [Vec::dedup]: drop consecutive repetitions. *)
Fixpoint dedup_from (x : IpAddr) (l : list IpAddr) : list IpAddr :=
  match l with
  | [] => []
  | y :: l' => if y =b x then dedup_from x l' else y :: dedup_from y l'
  end.
Definition dedup (l : list IpAddr) : list IpAddr :=
  match l with
  | [] => []
  | x :: l' => x :: dedup_from x l'
  end.

Definition resolve_endpoint_ips (host : string) : M DaemonCore (list IpAddr) :=
  match parse_ip host with
  | Some ip => ret [ip]
  | None => let! ips := call (ResolveHost host) in ret (dedup (sort_by ip_le ips))
  end.

(** The route of one declared prefix on the named link. *)
Definition attach_link_route (index : Z) (physical : bool) (gateways : list (IpAddr * Z))
    (on_link_networks : list (Z * IpNet)) (route : PolicyRoute) : AppliedRoute :=
  let destination := trunc (pr_destination route) in
  let on_link_here :=
    existsb (λ '(oif, net), Z.eqb oif index && contains_net net destination) on_link_networks in
  {| ar_destination := destination;
     ar_interface_index := index;
     ar_metric := pr_metric route;
     ar_gateway :=
       match pr_via route with
       | Some via => Some via
       | None =>
         if physical && negb on_link_here
         then fst <$> List.find (λ '(gateway, oif),
                Z.eqb oif index && Bool.eqb (is_ipv4 gateway) (net_is_ipv4 destination)) gateways
         else None
       end;
     ar_table := None |}.

Definition attach_routes_desired (spec : AttachSpecParams) : M DaemonCore (list AppliedRoute) :=
  if as_uplink spec then
    for_acc (as_routes spec) [] (λ desired route,
      let destination := trunc (pr_destination route) in
      let! hop := uplink_next_hop destination in
      ret (match hop with
           | None => desired
           | Some (gateway, index) =>
             desired ++ [mkAppliedRoute destination index (pr_metric route) gateway None]
           end))
  else if negb (str_is_empty (as_interface_name spec)) then
    let! found := call (LinkIndex (as_interface_name spec)) in
    match found with
    | Ok (Some index) =>
      let! kind := call (LinkKind (as_interface_name spec)) in
      let physical := match kind with Ok KindOther => true | _ => false end in
      let! gateways := call DefaultGateways in
      let! on_link_networks := call OnLinkNetworks in
      ret (map (attach_link_route index physical (unwrap_or (ok gateways) [])
                  (unwrap_or (ok on_link_networks) [])) (as_routes spec))
    | _ => ret []
    end
  else ret [].

Definition attach_desired (spec : AttachSpecParams) : M DaemonCore (list AppliedRoute) :=
  let! desired := attach_routes_desired spec in
  for_acc (as_endpoint_bypasses spec) desired (λ desired host,
    let! ips := resolve_endpoint_ips host in
    for_acc ips desired (λ desired ip,
      let! route := uplink_bypass_route ip in
      ret (match route with
           | Some route =>
             if existsb (λ seen, ar_destination seen =b ar_destination route) desired
             then desired else desired ++ [route]
           | None => desired
           end))).

(** [kernel_route(a) == kernel_route(b)] *)
Definition same_kernel_route (a b : AppliedRoute) : bool := kernel_route a =b kernel_route b.

(** The first loop of [reconcile_attach]: withdraw the journaled routes the
    spec no longer wants; the ones that stay are retained. *)
Definition withdraw_unwanted (resources : list OwnedResource) (desired : list AppliedRoute)
    : M DaemonCore (bool * list AppliedRoute) :=
  for_acc resources (false, []) (λ acc resource,
    match resource with
    | Route route =>
      if existsb (λ target, same_kernel_route target route) desired then ret acc
      else
        let! r := call (RemoveRoute route) in
        ret (if removed r then (true, acc.2) else (acc.1, acc.2 ++ [route]))
    | _ => ret acc
    end).

(** The second loop: install what the kernel does not show. *)
Definition install_missing (desired observed : list AppliedRoute) (changed : bool)
    : M DaemonCore bool :=
  for_acc desired changed (λ changed route,
    if existsb (λ seen, same_kernel_route seen route) observed then ret changed
    else
      let! r := call (AddRoute route) in
      ret (match r with Ok _ => true | Err _ => changed end)).

Definition reconcile_attach (index : nat) (spec : AttachSpecParams) (observed : list AppliedRoute)
    : M DaemonCore (io_result bool) :=
  let! desired := attach_desired spec in
  let! entry := entry_at index in
  let! '(changed, retained) := withdraw_unwanted (je_resources entry) desired in
  let! changed := install_missing desired observed changed in
  let resources := AttachSpec spec :: map Route desired ++ map Route retained in
  let! changed :=
    (if je_resources entry =b resources then ret changed
     else update_entry index (with_resources (λ _, resources)) ;;; ret true) in
  (if changed then persist else ret tt) ;;;
  ret (Ok changed).

(** ** The [manual] entry against a kernel dump *)

Definition reconcile_manual_resource (tables : NetTablesResult) (changed : bool)
    (resource : OwnedResource) : M DaemonCore bool :=
  let on_ok (r : io_result unit) := ret (match r with Ok _ => true | Err _ => changed end) in
  match resource with
  | NetRoute route =>
    if existsb (λ seen, same_system_route seen route) (nt_routes tables) then ret changed
    else let! r := call (AddSystemRoute route) in on_ok r
  | NetRule rule =>
    if existsb (λ seen, seen =b rule) (nt_rules tables) then ret changed
    else let! r := with_policy (call (AddSystemRule rule)) in on_ok r
  | SuppressedRoute route =>
    if existsb (λ seen, same_system_route seen route) (nt_routes tables)
    then let! r := call (RemoveSystemRoute route) in on_ok r
    else ret changed
  | SuppressedRule rule =>
    if existsb (λ seen, seen =b rule) (nt_rules tables)
    then let! r := with_policy (call (RemoveSystemRule rule)) in on_ok r
    else ret changed
  | _ => ret changed
  end.

Definition reconcile_manual (index : nat) : M DaemonCore bool :=
  let! tables := call NetTables in
  match tables with
  | Err _ => ret false
  | Ok tables =>
    let! entry := entry_at index in
    for_acc (je_resources entry) false (reconcile_manual_resource tables)
  end.

End routes.
