(* ===== verification/LinkNames.v ===== *)
(** * Tunnel link names: [crates/daemon/src/link_names.rs]

    Deterministic interface names from a profile: a readable name from the
    client's hint, with a hash fallback. *)

From S2P Require Export Validate.

Definition MAX_LEN : nat := 15.

(** FNV-1a over the bytes of the uid and the profile id. *)
Definition wrap_u64 (z : Z) : Z := z mod 2 ^ 64.

Definition uid_le_bytes (uid : Z) : list Z :=
  map (λ i, Z.land (Z.shiftr uid (8 * i)) 255) [0; 1; 2; 3]%Z.

Definition link_name_seed (uid : Z) (profile_id : string) : Z :=
  fold_left (λ hash byte, wrap_u64 (Z.lxor hash byte * 1099511628211))
    (uid_le_bytes uid ++ str_bytes profile_id) 14695981039346656037%Z.

(** [char::to_lowercase], exact where the slug can tell: on ASCII, and on the
    two scalar values outside ASCII whose lowercase contains an ASCII
    character. Other characters map to characters outside ASCII, which the
    slug all treats alike. *)
Definition to_lowercase (c : Z) : list Z :=
  if Z.ltb c 128 then [to_ascii_lowercase c]
  else if Z.eqb c 8490 then [107%Z]
  else if Z.eqb c 304 then [105%Z; 775%Z]
  else [c].

Definition slug_push (budget : nat) (slug : string) (c : Z) : string :=
  if Nat.leb budget (str_len slug) then slug
  else if is_ascii_alphanumeric c then str_push slug c
  else if negb (str_is_empty slug || ends_with_char slug "-") then str_push slug (ch "-")
  else slug.

Definition link_name_slug (hint : string) (budget : nat) : option string :=
  let slug := fold_left (slug_push budget) (concat (map to_lowercase (chars hint))) EmptyString in
  let slug := trim_end_char slug "-" in
  if str_is_empty slug then None else Some slug.

(** [slug.as_bytes()[i].is_ascii_digit()] where [i] is in range. *)
Definition digit_at (s : string) (i : nat) : bool :=
  match str_drop i s with
  | String a _ => is_ascii_digit (byte_of a)
  | EmptyString => false
  end.

Definition tunnel_link_names (prefix : string) (uid : Z) (profile_id : string)
    (hint : option string) : string * string :=
  let hex_digits := MAX_LEN - str_len prefix in
  let seed := link_name_seed uid profile_id in
  let hashed := prefix +:+ hex_padded hex_digits
                  (Z.land seed (Z.shiftl 1 (4 * Z.of_nat hex_digits) - 1)) in
  match hint ≫= λ hint, link_name_slug hint MAX_LEN with
  | None => (hashed, hashed)
  | Some slug =>
    let bare := trim_end_char prefix "-" in
    if slug =b bare then (hashed, hashed) else
    let verbatim :=
      starts_with slug prefix
      || (starts_with slug bare && Nat.ltb (str_len bare) (str_len slug)
          && digit_at slug (str_len bare)) in
    let primary :=
      if verbatim then str_take (Nat.min (str_len slug) MAX_LEN) slug
      else prefix +:+ str_take (Nat.min (str_len slug) (MAX_LEN - str_len prefix)) slug in
    let short := trim_end_char (str_take (Nat.min (str_len primary) (MAX_LEN - 5)) primary) "-" in
    let fallback :=
      if Nat.leb (str_len short) (str_len prefix) then hashed
      else short +:+ "-" +:+ hex_padded 4 (Z.land seed 65535) in
    (primary, fallback)
  end.

(** ** Lemmas *)

(** The bytes of a name the kernel and the validators accept. *)
Definition name_byte (a : ascii) : bool := is_ascii_byte a && iface_char (byte_of a).

(** A safe name start: not a dash. *)
Definition safe_start (s : string) : bool := negb (str_is_empty s || starts_with s "-").

(** What callers pass as a prefix. *)
Definition prefix_ok (prefix : string) : Prop :=
  str_all name_byte prefix = true ∧ safe_start prefix = true ∧ str_len prefix < 15.

Definition name_ok (s : string) : Prop :=
  str_all name_byte s = true ∧ safe_start s = true ∧ str_len s ≤ 15.

Lemma name_ok_valid s : name_ok s → iface_name_acceptable s.
Proof.
  intros (Hall & Hstart & Hlen). unfold safe_start in Hstart.
  apply negb_true_iff, orb_false_iff in Hstart as [He Hs].
  split_and!; [by intros ->|done|done|].
  assert (str_all is_ascii_byte s = true) as Ha.
  { eapply str_all_impl; [|exact Hall]. unfold name_byte. intros a [? _]%andb_true_iff. done. }
  rewrite (chars_ascii _ Ha), <- forallb_Forall, forallb_str_bytes.
  eapply str_all_impl; [|exact Hall]. unfold name_byte. intros a [_ ?]%andb_true_iff. done.
Qed.

Lemma name_byte_ascii c : (0 ≤ c < 128)%Z → iface_char c = true →
  name_byte (ascii_of_byte c) = true.
Proof.
  intros Hc Hi. unfold name_byte, is_ascii_byte, ascii_of_byte, byte_of.
  rewrite N_ascii_embedding by lia. rewrite Z2N.id by lia. rewrite Hi.
  destruct (Z.ltb_spec c 128); [done|lia].
Qed.

Lemma alphanumeric_name_byte c :
  is_ascii_alphanumeric c = true → name_byte (ascii_of_byte c) = true.
Proof.
  intros Hc. apply name_byte_ascii.
  - unfold is_ascii_alphanumeric, is_ascii_alphabetic, is_ascii_lowercase, is_ascii_uppercase,
      is_ascii_digit, in_range in Hc. lia.
  - unfold iface_char. by rewrite Hc.
Qed.

Lemma safe_start_cons a s : safe_start (String a s) = bool_decide (a ≠ "-"%char).
Proof.
  unfold safe_start, starts_with. cbn [str_is_empty orb String.prefix].
  destruct (ascii_dec "-" a) as [<-|Hne]; [by destruct s|].
  simpl. symmetry. apply bool_decide_eq_true. congruence.
Qed.

Lemma safe_start_app s t : safe_start s = true → safe_start (s +:+ t) = true.
Proof. destruct s as [|a s]; [done|]. change (String a s +:+ t) with (String a (s +:+ t)). by rewrite !safe_start_cons. Qed.

Lemma safe_start_take n s : safe_start s = true → str_take n s ≠ EmptyString →
  safe_start (str_take n s) = true.
Proof. destruct n as [|n], s as [|a s]; try done. cbn [str_take]. by rewrite !safe_start_cons. Qed.

(** The slug is made of the bytes [P] allows, as long as those are the
    alphanumeric ones and the dash at least. *)
Section slug_bytes.
Context (P : ascii → bool).
Hypothesis alphanumeric_P : ∀ c, is_ascii_alphanumeric c = true → P (ascii_of_byte c) = true.
Hypothesis dash_P : P "-"%char = true.

Lemma hex_digit_P z : (0 ≤ z < 16)%Z → P (hex_digit z) = true.
Proof.
  intros Hz. apply alphanumeric_P.
  unfold is_ascii_alphanumeric, is_ascii_alphabetic, is_ascii_lowercase, is_ascii_digit, in_range.
  destruct (Z.ltb_spec z 10); lia.
Qed.

Lemma hex_padded_P w z : str_all P (hex_padded w z) = true.
Proof.
  revert z. induction w as [|w IH]; intros z; simpl; [done|].
  rewrite str_all_app, IH. simpl. rewrite hex_digit_P; [done|].
  change 15%Z with (Z.ones 4). rewrite Z.land_ones by lia. apply Z.mod_pos_bound. lia.
Qed.

Lemma slug_push_ok budget slug c :
  str_all P slug = true → (slug = EmptyString ∨ safe_start slug = true) →
  str_len slug ≤ budget →
  str_all P (slug_push budget slug c) = true ∧
  (slug_push budget slug c = EmptyString ∨ safe_start (slug_push budget slug c) = true) ∧
  str_len (slug_push budget slug c) ≤ budget.
Proof.
  intros Hall Hstart Hlen. unfold slug_push.
  destruct (Nat.leb_spec budget (str_len slug)); [done|].
  assert (∀ d, P (ascii_of_byte d) = true →
    (slug = EmptyString → safe_start (str_push EmptyString d) = true) →
    str_all P (str_push slug d) = true ∧
    (str_push slug d = EmptyString ∨ safe_start (str_push slug d) = true) ∧
    str_len (str_push slug d) ≤ budget) as Hpush.
  { intros d Hd He. unfold str_push. rewrite str_all_app, Hall. simpl. rewrite Hd.
    rewrite str_len_app. simpl. split_and!; [done| |lia]. right.
    destruct Hstart as [->|Hs]; [by apply He|by apply safe_start_app]. }
  destruct (is_ascii_alphanumeric c) eqn:Hc.
  - apply Hpush; [by apply alphanumeric_P|]. intros _.
    change (str_push "" c) with (String (ascii_of_byte c) ""). rewrite safe_start_cons. apply bool_decide_eq_true. intros Heq.
    assert (byte_of "-" = byte_of (ascii_of_byte c)) as Hb by by rewrite Heq.
    unfold byte_of, ascii_of_byte in Hb.
    unfold is_ascii_alphanumeric, is_ascii_alphabetic, is_ascii_lowercase, is_ascii_uppercase,
      is_ascii_digit, in_range in Hc.
    rewrite N_ascii_embedding in Hb by lia. rewrite Z2N.id in Hb by lia. simpl in Hb. lia.
  - destruct (str_is_empty slug || ends_with_char slug "-") eqn:He; simpl; [done|].
    apply Hpush; [done|]. intros ->. done.
Qed.

Lemma slug_fold_ok budget cs slug :
  str_all P slug = true → (slug = EmptyString ∨ safe_start slug = true) →
  str_len slug ≤ budget →
  str_all P (fold_left (slug_push budget) cs slug) = true ∧
  (fold_left (slug_push budget) cs slug = EmptyString ∨
   safe_start (fold_left (slug_push budget) cs slug) = true) ∧
  str_len (fold_left (slug_push budget) cs slug) ≤ budget.
Proof.
  revert slug. induction cs as [|c cs IH]; intros slug H1 H2 H3; simpl; [done|].
  destruct (slug_push_ok budget slug c H1 H2 H3) as (? & ? & ?). by apply IH.
Qed.

Lemma link_name_slug_ok hint budget slug :
  link_name_slug hint budget = Some slug →
  str_all P slug = true ∧ safe_start slug = true ∧ str_len slug ≤ budget.
Proof.
  unfold link_name_slug.
  destruct (slug_fold_ok budget (concat (map to_lowercase (chars hint))) EmptyString)
    as (Hall & Hstart & Hlen); [done|by left|simpl; lia|].
  set (full := fold_left _ _ _) in *.
  destruct (trim_end_char_prefix full "-") as [n Hn]. rewrite Hn.
  destruct (str_is_empty (str_take n full)) eqn:He; [done|]. intros [= <-].
  assert (str_take n full ≠ EmptyString) as Hne by (intros Heq; by rewrite Heq in He).
  split_and!; [by apply str_all_take| |rewrite str_len_take; lia].
  apply safe_start_take; [|done]. destruct Hstart as [Hs|]; [|done].
  rewrite Hs in Hne. by destruct n.
Qed.

End slug_bytes.

Lemma str_take_all s : str_take (str_len s) s = s.
Proof. induction s as [|a s IH]; simpl; [done|by rewrite IH]. Qed.

Lemma digit_at_long s i : digit_at s i = true → i < str_len s.
Proof.
  unfold digit_at. revert i. induction s as [|a s IH]; intros [|i]; simpl; try done; [lia|].
  intros Hd%IH. lia.
Qed.

Lemma hex_padded_name_bytes w z : str_all name_byte (hex_padded w z) = true.
Proof. apply hex_padded_P. apply alphanumeric_name_byte. Qed.

Lemma tunnel_link_names_ok prefix uid profile_id hint :
  prefix_ok prefix →
  name_ok (tunnel_link_names prefix uid profile_id hint).1 ∧
  name_ok (tunnel_link_names prefix uid profile_id hint).2.
Proof.
  intros (Hall & Hstart & Hlen). unfold tunnel_link_names.
  set (seed := link_name_seed uid profile_id).
  set (hashed := prefix +:+ hex_padded _ _).
  assert (name_ok hashed) as Hhashed.
  { unfold hashed. split_and!.
    - by rewrite str_all_app, Hall, hex_padded_name_bytes.
    - by apply safe_start_app.
    - rewrite str_len_app, str_len_hex_padded. unfold MAX_LEN. lia. }
  destruct (hint ≫= _) as [slug|] eqn:Hslug; [|split; done].
  apply bind_Some in Hslug as (text & _ & Hslug).
  apply (link_name_slug_ok name_byte) in Hslug as (Hsall & Hsstart & Hslen);
    [|apply alphanumeric_name_byte|done].
  case_bool_decide; [split; done|].
  set (primary := if _ : bool then _ else _).
  assert (name_ok primary) as Hprimary.
  { unfold primary. destruct (_ || _).
    - rewrite Nat.min_l by done.
      split_and!; [by apply str_all_take| |rewrite str_len_take; unfold MAX_LEN in *; lia].
      apply safe_start_take; [done|]. by destruct slug.
    - split_and!; [|by apply safe_start_app|].
      + rewrite str_all_app, Hall. simpl. by apply str_all_take.
      + rewrite str_len_app, str_len_take. unfold MAX_LEN. lia. }
  split; [done|].
  cbn [snd]. set (cut := str_take (Nat.min (str_len primary) _) primary).
  set (short := trim_end_char cut "-").
  destruct (Nat.leb_spec (str_len short) (str_len prefix)) as [|Hlong]; [done|].
  destruct Hprimary as (Hpall & Hpstart & Hplen).
  assert (short ≠ EmptyString) as Hne by (intros He; rewrite He in Hlong; simpl in Hlong; lia).
  destruct (trim_end_char_prefix cut "-") as [n Hn].
  assert (short = str_take n cut) as Hshort by done. rewrite Hshort in *.
  split_and!.
  - rewrite !str_all_app, hex_padded_name_bytes. simpl. rewrite andb_true_r.
    by apply str_all_take, str_all_take.
  - apply safe_start_app, safe_start_take; [|done]. apply safe_start_take; [done|].
    intros He. unfold cut in Hne. rewrite He in Hne. by destruct n.
  - rewrite !str_len_app, str_len_hex_padded, str_len_take. unfold cut.
    rewrite str_len_take. unfold MAX_LEN. simpl. lia.
Qed.

(** ** Properties *)

(** Whatever the hint, both names are kernel-safe: for any prefix the
    planners use (1-14 safe bytes not starting with a dash) the primary and
    the fallback name have 1-15 bytes of [a-zA-Z0-9._-], do not start with a
    dash, and so pass [validate_iface_name]. *)
Theorem tunnel_link_names_valid prefix uid profile_id hint
    (Hprefix : prefix_ok prefix) :
  iface_name_acceptable (tunnel_link_names prefix uid profile_id hint).1 ∧
  iface_name_acceptable (tunnel_link_names prefix uid profile_id hint).2.
Proof.
  destruct (tunnel_link_names_ok prefix uid profile_id hint Hprefix) as [H1 H2].
  split; by apply name_ok_valid.
Qed.

Lemma tunnel_link_names_valid_witness :
  prefix_ok "wg-" ∧
  tunnel_link_names "wg-" 1000 "home" (Some "KZN2 uplink") = ("wg-kzn2-uplink", "wg-kzn2-up-ea2b") ∧
  iface_name_acceptable (tunnel_link_names "wg-" 1000 "home" (Some "KZN2 uplink")).1.
Proof.
  assert (prefix_ok "wg-") as Hp by (split; [reflexivity|split; [reflexivity|simpl; lia]]).
  split; [exact Hp|]. split; [vm_compute; reflexivity|].
  exact (proj1 (tunnel_link_names_valid "wg-" 1000 "home" (Some "KZN2 uplink") Hp)).
Defined.
