(* ===== verification/Dns.v ===== *)
(** * Per-link DNS settings: [crates/daemon/src/dns.rs]

    [ResolvectlDnsExecutor], the implementation of [DnsExecutor] the core's
    [DnsApplyLink] and [DnsRevert] stand for, on the commands it runs. What
    [run_bounded] does to run one is not modelled: a command's answer is its
    success and output, or an error. *)

From S2P Require Export World.
From S2P Require Import LinkNames.

Definition RESOLVECTL : path := ["/"; "usr"; "bin"; "resolvectl"]%string.
Definition MAX_DNS_SERVERS : nat := 8.
Definition MAX_DNS_DOMAINS : nat := 16.

(** ** [validate_link] *)

Definition link_byte (a : ascii) : bool :=
  is_ascii_alphanumeric (byte_of a) || Ascii.eqb a "-".

Definition link_suffix (link : string) : option string :=
  match strip_prefix link "wg-" with
  | Some suffix => Some suffix
  | None =>
    match strip_prefix link "ovpn-" with
    | Some suffix => Some suffix
    | None => strip_prefix link "xray-"
    end
  end.

Definition valid_link (link : string) : bool :=
  Nat.leb (str_len link) 15
  && is_some_and (λ suffix, negb (suffix =b EmptyString) && str_all link_byte suffix) (link_suffix link).

Definition validate_link (link : string) : result unit DnsError :=
  if valid_link link then Ok tt else Err (DnsErrFailed "invalid tunnel link name").

(** ** The commands *)

Definition dns_command_failed : DnsError := DnsErrFailed "systemd-resolved DNS command failed".
Definition dns_rollback_failed : DnsError := DnsErrFailed "DNS setup and rollback failed".

Definition default_route_line (line : string) : bool := starts_with (trim_start line) "default-route ".

Definition routing_domain (name : string) : string := "~" +:+ name.

Section dns.
Context `{Env} {S : Type}.
(** [IpAddr::to_string] *)
Context (show_ip : IpAddr → string).

(** [SystemCommandRunner::verify_binary] *)
Definition verify_binary : M S (result unit DnsError) :=
  let! metadata := call (FsStat RESOLVECTL) in
  match metadata with
  | Err error =>
    if has_kind NotFound error then fail DnsErrUnavailable
    else fail (DnsErrFailed "cannot inspect resolvectl")
  | Ok metadata =>
    if negb (fm_is_file metadata) || negb (Z.eqb (fm_uid metadata) 0)
       || negb (Z.eqb (Z.land (fm_mode metadata) 18) 0)
    then fail (DnsErrFailed "resolvectl binary is not trusted")
    else ret (Ok tt)
  end.

Definition available : M S (result bool DnsError) :=
  let? _ := verify_binary in
  let! status := call (Resolvectl ["status"%string]) in
  match status with
  | Ok (success, _) => ret (Ok success)
  | Err error =>
    if has_kind NotFound error then ret (Ok false)
    else fail (DnsErrFailed "cannot check systemd-resolved")
  end.

Definition command (args : list string) : M S (result unit DnsError) :=
  let! output := call (Resolvectl args) in
  match output with
  | Ok (true, _) => ret (Ok tt)
  | _ => fail dns_command_failed
  end.

Definition revert_command (link : string) : M S (result unit DnsError) :=
  command ["revert"; link]%string.

Definition dns_args (link : string) (servers : list IpAddr) : list string :=
  ["dns"; link]%string ++ map show_ip servers.

Definition domain_args (link : string) (domains : list string) (full : bool) : list string :=
  ["domain"; link]%string ++ if full then ["~."%string] else map routing_domain domains.

Definition default_route_args (link : string) (full : bool) : list string :=
  ["default-route"; link; if full then "yes" else "no"]%string.

(** The three settings, the last when the [resolvectl] at hand knows it. *)
Definition set_link (link : string) (servers : list IpAddr) (domains : list string)
    (full has_default_route : bool) : M S (result unit DnsError) :=
  let? _ := command (dns_args link servers) in
  let? _ := command (domain_args link domains full) in
  if has_default_route then command (default_route_args link full) else ret (Ok tt).

Definition apply (link : string) (servers : list IpAddr) (domains : list string) (full : bool)
    : M S (result DnsApply DnsError) :=
  let? _ := lift (validate_link link) in
  if Nat.ltb MAX_DNS_SERVERS (length servers) || Nat.ltb MAX_DNS_DOMAINS (length domains)
  then fail (DnsErrFailed "too many DNS settings")
  else if Nat.eqb (length servers) 0 then
    if Nat.eqb (length domains) 0 then ret (Ok DnsSkipped)
    else fail (DnsErrFailed "DNS domains require a server")
  else if negb full && Nat.eqb (length domains) 0 then ret (Ok DnsSkipped)
  else
    let! usable := available in
    match usable with
    | Ok true =>
      let! help := call (Resolvectl ["--help"%string]) in
      match help with
      | Err _ => fail (DnsErrFailed "cannot inspect resolvectl commands")
      | Ok (false, _) => fail (DnsErrFailed "cannot inspect resolvectl commands")
      | Ok (true, stdout) =>
        let has_default_route := existsb default_route_line (lines stdout) in
        let! result := set_link link servers domains full has_default_route in
        match result with
        | Ok _ => ret (Ok DnsApplied)
        | Err error =>
          let! reverted := revert_command link in
          match reverted with
          | Ok _ => fail error
          | Err _ => fail dns_rollback_failed
          end
        end
      end
    | Ok false => ret (Ok DnsUnavailable)
    | Err DnsErrUnavailable => ret (Ok DnsUnavailable)
    | Err error => fail error
    end.

Definition revert (link : string) : M S (result unit DnsError) :=
  let? _ := lift (validate_link link) in
  let? usable := available in
  if usable : bool then revert_command link else fail DnsErrUnavailable.

End dns.

(** ** What an application leaves of the link's settings *)

(** The commands that change settings, oldest first, and whether each
    succeeded. *)
Definition setting (args : list string) : bool :=
  match args with
  | verb :: _ => negb (verb =b "status"%string) && negb (verb =b "--help"%string)
  | [] => false
  end.

Definition setting_of (e : event) : list (list string * bool) :=
  match e with
  | Ev c a =>
    match c in ext A return A → list (list string * bool) with
    | Resolvectl args => λ a,
        if setting args then [(args, match a with Ok (success, _) => success | Err _ => false end)]
        else []
    | _ => λ _, []
    end a
  end.

Fixpoint settings_run (h : history) : list (list string * bool) :=
  match h with
  | [] => []
  | e :: h' => settings_run h' ++ setting_of e
  end.

Section outcome.
Context `{Env} {S : Type} (show_ip : IpAddr → string).
Context (link : string) (servers : list IpAddr) (domains : list string) (full : bool).

(** The settings of the link, in order. *)
Definition link_settings (has_default_route : bool) : list (list string) :=
  [dns_args show_ip link servers; domain_args link domains full]
  ++ if has_default_route then [default_route_args link full] else [].

(** All of them, none, or an initial part that was reverted. *)
Definition applied_or_reverted (r : result DnsApply DnsError) (ran : list (list string * bool)) : Prop :=
  match r with
  | Ok DnsApplied => ∃ dflt, ran = map (λ args, (args, true)) (link_settings dflt)
  | Ok _ => ran = []
  | Err error => ran = [] ∨
      ∃ dflt complete failed rest reverted,
        link_settings dflt = complete ++ failed :: rest ∧
        ran = map (λ args, (args, true)) complete ++ [(failed, false); (["revert"; link]%string, reverted)] ∧
        error = if reverted : bool then dns_command_failed else dns_rollback_failed
  end.

Lemma wp_command args (Q : result unit DnsError → S → history → Prop) s h :
  setting args = true →
  (∀ h', settings_run h' = settings_run h ++ [(args, true)] → Q (Ok tt) s h') →
  (∀ h', settings_run h' = settings_run h ++ [(args, false)] → Q (Err dns_command_failed) s h') →
  wp (command args) Q s h.
Proof.
  intros Hset Hok Herr. unfold command. apply wp_bind, wp_call. intros a.
  destruct a as [[[] out]|e]; apply wp_ret;
    first [apply Hok | apply Herr]; simpl; by rewrite Hset.
Qed.

Lemma wp_available (Q : result bool DnsError → S → history → Prop) s h :
  (∀ r h', settings_run h' = settings_run h → Q r s h') → wp available Q s h.
Proof.
  intros HQ. unfold available, verify_binary. apply wp_try_bind, wp_bind, wp_call. intros m.
  destruct m as [m|e]; [|by destruct (has_kind _ _); apply wp_ret; apply HQ; simpl; rewrite app_nil_r].
  destruct (_ || _); [by apply wp_ret; apply HQ; simpl; rewrite app_nil_r|].
  apply wp_ret, wp_bind, wp_call. intros st.
  destruct st as [[]|e]; [|destruct (has_kind _ _)]; apply wp_ret; apply HQ; simpl; by rewrite !app_nil_r.
Qed.

Lemma wp_set_link dflt s h :
  wp (set_link (S := S) show_ip link servers domains full dflt) (λ r s' h', s' = s ∧
    match r with
    | Ok _ => settings_run h' = settings_run h ++ map (λ args, (args, true)) (link_settings dflt)
    | Err error => error = dns_command_failed ∧ ∃ complete failed rest,
        link_settings dflt = complete ++ failed :: rest ∧
        settings_run h' = settings_run h ++ map (λ args, (args, true)) complete ++ [(failed, false)]
    end) s h.
Proof.
  unfold set_link, link_settings. apply wp_try_bind, wp_command; [done| |].
  2:{ intros h1 H1. split; [done|]. split; [done|]. eexists [], _, _. by split. }
  intros h1 H1. apply wp_try_bind, wp_command; [done| |].
  2:{ intros h2 H2. split; [done|]. split; [done|]. eexists [_], _, _. split; [done|].
      by rewrite H2, H1, <- app_assoc. }
  intros h2 H2. destruct dflt.
  - apply wp_command; [done| |]; intros h3 H3; split; try done.
    + by rewrite H3, H2, H1, <- !app_assoc.
    + split; [done|]. eexists [_; _], _, []. split; [done|]. by rewrite H3, H2, H1, <- !app_assoc.
  - apply wp_ret. split; [done|]. by rewrite H2, H1, <- !app_assoc.
Qed.

(** C25. Applying the DNS settings of a link runs all of its commands, none of
    them, or an initial part after which the link is reverted; when even that
    failed the error says so. *)
Theorem dns_apply_outcome s h :
  wp (apply (S := S) show_ip link servers domains full) (λ r s' h',
    s' = s ∧ ∃ ran, settings_run h' = settings_run h ++ ran ∧ applied_or_reverted r ran) s h.
Proof.
  assert (∀ r h', settings_run h' = settings_run h →
    match r with Ok DnsApplied => False | _ => True end →
    s = s ∧ ∃ ran, settings_run h' = settings_run h ++ ran ∧ applied_or_reverted r ran) as Hnone.
  { intros r h' Hr Hok. split; [done|]. exists []. rewrite app_nil_r. split; [done|].
    destruct r as [[]|e]; [done..|by left]. }
  unfold apply. apply wp_try_bind. unfold validate_link. apply wp_ret. destruct (valid_link link); [|by apply Hnone].
  destruct (_ || _); [by apply wp_ret, Hnone|].
  destruct (Nat.eqb (length servers) 0); [by destruct (Nat.eqb _ _); apply wp_ret, Hnone|].
  destruct (negb full && _); [by apply wp_ret, Hnone|].
  apply wp_bind, wp_available. intros [[]|[]] h1 H1; try by apply wp_ret, Hnone.
  apply wp_bind, wp_call. intros help.
  assert (∀ a, settings_run (Ev (Resolvectl ["--help"%string]) a :: h1) = settings_run h) as H2.
  { intros a. simpl. by rewrite app_nil_r. }
  destruct help as [[[] out]|e]; [|by apply wp_ret, Hnone..].
  apply wp_bind. eapply wp_mono; [|apply wp_set_link]. intros r s' h' [-> Hr]. rewrite H2 in Hr.
  destruct r as [[]|error].
  - apply wp_ret. split; [done|]. eexists. split; [exact Hr|]. by eexists.
  - destruct Hr as (-> & complete & failed & rest & Hlist & Hrun).
    assert (∀ h3 ok, settings_run h3 = settings_run h' ++ [(["revert"; link]%string, ok)] →
      ∃ ran, settings_run h3 = settings_run h ++ ran ∧
        applied_or_reverted (Err (if ok : bool then dns_command_failed else dns_rollback_failed)) ran) as Hrev.
    { intros h3 ok H3. eexists. rewrite H3, Hrun, <- !app_assoc. split; [done|]. right.
      by exists (existsb default_route_line (lines out)), complete, failed, rest, ok. }
    apply wp_bind, wp_command; [done|intros h3 H3; apply wp_ret; split; [done|]; by apply (Hrev h3 true)|].
    intros h3 H3. apply wp_ret. split; [done|]. by apply (Hrev h3 false).
Qed.

End outcome.

(** ** Links the executor refuses *)

(** [wg] and a digit. *)
Definition numbered_wg (slug : string) : bool := starts_with slug "wg" && digit_at slug 2.

Lemma numbered_wg_invalid slug : numbered_wg slug = true → valid_link slug = false.
Proof.
  intros Hn. unfold valid_link, link_suffix, strip_prefix.
  assert (∀ p, p ∈ ["wg-"; "ovpn-"; "xray-"]%string → starts_with slug p = false) as Hp.
  { intros p Hin. apply andb_true_iff in Hn as [Hs Hd]. apply starts_with_spec in Hs as [rest ->].
    destruct rest as [|a rest]; [done|]. apply not_true_iff_false. intros Hpre.
    apply starts_with_spec in Hpre as [r Hr]. rewrite !elem_of_cons in Hin.
    destruct Hin as [->|[->|[->|[]%not_elem_of_nil]]]; [|done..].
    change (String "w" (String "g" (String a rest)) = String "w" (String "g" (String "-" r))) in Hr.
    injection Hr as -> _. done. }
  rewrite !Hp by set_solver. by rewrite andb_false_r.
Qed.

(** A name the client gives as [wg] and a digit is kept for the link, as
    the comment of [tunnel_link_names] says; the DNS executor refuses every
    such link before it runs a command, so a WireGuard connection with DNS
    servers cannot have that name. *)
Theorem numbered_link_refuses_dns `{Env} {S : Type} (show_ip : IpAddr → string)
    (uid : Z) (profile_id hint slug : string) (servers : list IpAddr) (domains : list string)
    (full : bool) (s : S) (h : history)
    (Hslug : link_name_slug hint MAX_LEN = Some slug) (Hnumbered : numbered_wg slug = true) :
  (tunnel_link_names "wg-" uid profile_id (Some hint)).1 = slug ∧
  apply show_ip slug servers domains full s h
  = (Some (Err (DnsErrFailed "invalid tunnel link name")), s, h).
Proof.
  split.
  - pose proof Hnumbered as [Hs Hd]%andb_true_iff. pose proof (digit_at_long _ _ Hd) as Hlen.
    apply (link_name_slug_ok name_byte) in Hslug as Hok; [|apply alphanumeric_name_byte|done].
    destruct Hok as (_ & _ & Hmax). unfold tunnel_link_names. cbn [mbind option_bind]. rewrite Hslug.
    change (trim_end_char "wg-" "-") with "wg"%string. case_bool_decide as Hbare; [by subst slug|].
    change (str_len "wg") with 2.
    rewrite Hs, Hd, (proj2 (Nat.ltb_lt _ _) Hlen), orb_true_r.
    cbn [fst]. by rewrite Nat.min_l, str_take_all by done.
  - unfold apply, validate_link. by rewrite numbered_wg_invalid.
Qed.

Lemma numbered_link_refuses_dns_witness :
  link_name_slug "wg0" MAX_LEN = Some "wg0"%string ∧ numbered_wg "wg0" = true ∧
  (tunnel_link_names "wg-" 1000 "home" (Some "wg0"%string)).1 = "wg0"%string.
Proof.
  assert (link_name_slug "wg0" MAX_LEN = Some "wg0"%string) as H1 by (vm_compute; reflexivity).
  assert (numbered_wg "wg0" = true) as H2 by reflexivity.
  split; [exact H1|]. split; [exact H2|].
  exact (proj1 (@numbered_link_refuses_dns (λ A c _, failing_answer c) unit (λ _, ""%string) 1000 "home" "wg0" "wg0"
    [] [] false tt [] H1 H2)).
Defined.
