(* ===== verification/Auth.v ===== *)
(** * Authorization: [crates/daemon/src/auth.rs]

    Which polkit action each method needs, who the caller is, and what a
    [CheckAuthorization] reply means. The D-Bus call itself is the world's
    ([PolkitCheck]). *)

From S2P Require Export World StdText.
From S2P Require Import OpenVpnConfig.

(** ** Methods: [method] of [crates/core/src/daemon_protocol.rs] *)

Module method.
Definition HELLO : string := "hello".
Definition ROUTES_APPLY : string := "routes.apply".
Definition ROUTES_REMOVE : string := "routes.remove".
Definition LINK_SET_STATE : string := "link.set_state".
Definition OWNED_LIST : string := "owned.list".
Definition RECOVERY_CLEANUP : string := "recovery.cleanup".
Definition SUBSCRIBE : string := "subscribe".
Definition WIREGUARD_CONNECT : string := "wireguard.connect".
Definition WIREGUARD_DISCONNECT : string := "wireguard.disconnect".
Definition WIREGUARD_STATUS : string := "wireguard.status".
Definition OPENVPN_CONNECT : string := "openvpn.connect".
Definition OPENVPN_DISCONNECT : string := "openvpn.disconnect".
Definition OPENVPN_STATUS : string := "openvpn.status".
Definition OPENVPN_PROBE : string := "openvpn.probe".
Definition OPENVPN_PLAN : string := "openvpn.plan".
Definition XRAY_CONNECT : string := "xray.connect".
Definition XRAY_DISCONNECT : string := "xray.disconnect".
Definition XRAY_STATUS : string := "xray.status".
Definition XRAY_RELOAD : string := "xray.reload".
Definition XRAY_SERVICE_CHECKS : string := "xray.serviceChecks".
Definition XRAY_PROXY_EXITS : string := "xray.proxyExits".
Definition XRAY_INSTALL : string := "xray.install".
Definition XRAY_REMOVE : string := "xray.remove".
Definition TAILSCALE_STATUS : string := "tailscale.status".
Definition TAILSCALE_UP : string := "tailscale.up".
Definition TAILSCALE_DOWN : string := "tailscale.down".
Definition ALWAYS_ON_SET : string := "alwaysOn.set".
Definition ALWAYS_ON_LIST : string := "alwaysOn.list".
Definition ALWAYS_ON_REMOVE : string := "alwaysOn.remove".
Definition ALWAYS_ON_RESUME : string := "alwaysOn.resume".
Definition SETTINGS_GET : string := "settings.get".
Definition SETTINGS_SET : string := "settings.set".
Definition COND_RULES_LIST : string := "condRules.list".
Definition COND_RULES_PUT : string := "condRules.put".
Definition COND_RULES_REMOVE : string := "condRules.remove".
Definition EXTERNAL_TUNNEL_STOP : string := "externalTunnel.stop".
Definition NM_LIST : string := "nm.list".
Definition NM_SET_ACTIVE : string := "nm.setActive".
Definition NET_TABLES : string := "net.tables".
Definition NET_ROUTE_ADD : string := "net.route.add".
Definition NET_ROUTE_DEL : string := "net.route.del".
Definition NET_RULE_ADD : string := "net.rule.add".
Definition NET_RULE_DEL : string := "net.rule.del".
Definition NET_EXPLAIN : string := "net.explain".
Definition NET_DNS_STATUS : string := "net.dns.status".
Definition NET_DNS_PROBE : string := "net.dns.probe".
Definition NET_INTENT_LIST : string := "net.intent.list".
Definition NET_INTENT_SET : string := "net.intent.set".
Definition NET_INTENT_DEL : string := "net.intent.del".

Definition CAPABILITIES : list string :=
  [ROUTES_APPLY; ROUTES_REMOVE; LINK_SET_STATE; OWNED_LIST; RECOVERY_CLEANUP; SUBSCRIBE;
   WIREGUARD_CONNECT; WIREGUARD_DISCONNECT; WIREGUARD_STATUS; OPENVPN_CONNECT;
   OPENVPN_DISCONNECT; OPENVPN_STATUS; OPENVPN_PROBE; OPENVPN_PLAN; XRAY_CONNECT;
   XRAY_DISCONNECT; XRAY_STATUS; XRAY_RELOAD; XRAY_SERVICE_CHECKS; XRAY_PROXY_EXITS;
   XRAY_INSTALL; XRAY_REMOVE; TAILSCALE_STATUS; TAILSCALE_UP; TAILSCALE_DOWN; ALWAYS_ON_SET;
   ALWAYS_ON_LIST; ALWAYS_ON_REMOVE; ALWAYS_ON_RESUME; SETTINGS_GET; SETTINGS_SET;
   COND_RULES_LIST; COND_RULES_PUT; COND_RULES_REMOVE; EXTERNAL_TUNNEL_STOP; NM_LIST;
   NM_SET_ACTIVE; NET_TABLES; NET_ROUTE_ADD; NET_ROUTE_DEL; NET_RULE_ADD; NET_RULE_DEL;
   NET_EXPLAIN; NET_DNS_STATUS; NET_DNS_PROBE; NET_INTENT_LIST; NET_INTENT_SET; NET_INTENT_DEL].
End method.

(** ** Actions *)

Definition polkit_id (action : Action) : string :=
  match action with
  | SystemNetwork => "com.netmanager.app.system-network"
  | ConnectProfile => "com.netmanager.app.connect-profile"
  | ConnectProfileAdmin => "com.netmanager.app.connect-profile-admin"
  end.

Definition connect_action (mode : VpnAuthMode) (broad : bool) : Action :=
  match mode with
  | NoPrompt => ConnectProfile
  | FullTunnelOnly => if negb broad then ConnectProfile else ConnectProfileAdmin
  | Always => ConnectProfileAdmin
  end.

(** The action of the audit line; what a handler asks for is its own. *)
Definition required_action (method_name : string) : option Action :=
  if vec_contains
       [method.ROUTES_APPLY; method.LINK_SET_STATE; method.ALWAYS_ON_SET; method.ALWAYS_ON_REMOVE;
        method.ALWAYS_ON_RESUME; method.COND_RULES_PUT; method.COND_RULES_REMOVE;
        method.EXTERNAL_TUNNEL_STOP; method.XRAY_INSTALL; method.XRAY_REMOVE; method.SETTINGS_SET]
       method_name
  then Some SystemNetwork
  else if vec_contains
       [method.ROUTES_REMOVE; method.RECOVERY_CLEANUP; method.WIREGUARD_CONNECT;
        method.WIREGUARD_DISCONNECT; method.OPENVPN_CONNECT; method.OPENVPN_PROBE;
        method.OPENVPN_DISCONNECT; method.XRAY_CONNECT; method.XRAY_DISCONNECT]
       method_name
  then Some ConnectProfile
  else None.

(** ** The caller *)

Inductive SubjectValue : Type :=
| SvPidfd
| SvU32 (v : Z)
| SvU64 (v : Z)
| SvI32 (v : Z).

(** [u32 as i32] *)
Definition as_i32 (z : Z) : Z := if Z.ltb z (2 ^ 31) then z else (z - 2 ^ 32)%Z.

Definition subject_fields (peer : PeerIdentity) : list (string * SubjectValue) :=
  let uid := ("uid"%string, SvI32 (as_i32 (pi_uid peer))) in
  if is_some (pi_pidfd peer) then [("pidfd"%string, SvPidfd); uid]
  else [("pid"%string, SvU32 (pi_pid peer));
        ("start-time"%string, SvU64 (unwrap_or (pi_start_time peer) 0%Z)); uid].

Definition decode_authorization (is_authorized is_challenge : bool) (details : gmap string string)
    : AuthDecision :=
  if is_authorized then Authorized
  else if is_some (details !! "polkit.dismissed"%string) then Dismissed
  else Denied.

(** Field 22 of [/proc/<pid>/stat], counted after the last parenthesis. *)
Definition parse_proc_stat_start_time (stat : string) : option Z :=
  match rsplit_once ")" stat with
  | Some (_, rest) =>
    match split_whitespace rest !! 19 with
    | Some field => parse_uint (2 ^ 64) field
    | None => None
    end
  | None => None
  end.

(** ** Reading the start time *)

(** A printable character other than the parenthesis. *)
Definition stat_char (a : ascii) : bool := in_range 33 126 (byte_of a) && negb (Ascii.eqb a ")").

Definition stat_word (w : string) : bool := negb (str_is_empty w) && str_all stat_char w.

(** [proc_pid_stat(5)]: the pid, the command in parentheses, then fields
    separated by spaces. *)
Definition stat_line (pid comm : string) (fields : list string) : string :=
  pid +:+ " (" +:+ comm +:+ ") " +:+ unwords fields.

Lemma rsplit_once_none c s : str_all (λ a, negb (Ascii.eqb a c)) s = true → rsplit_once c s = None.
Proof.
  induction s as [|a s IH]; simpl; [done|]. intros [Ha%negb_true_iff Hs]%andb_true_iff.
  by rewrite IH, Ha.
Qed.

Lemma rsplit_once_last c l r :
  str_all (λ a, negb (Ascii.eqb a c)) r = true → rsplit_once c (l +:+ String c r) = Some (l, r).
Proof.
  intros Hr. induction l as [|a l IH]; simpl; [|by rewrite IH].
  by rewrite rsplit_once_none, Ascii.eqb_refl.
Qed.

(** ** Splitting text of printable words *)

Definition graphic (a : ascii) : bool := in_range 33 126 (byte_of a).

Lemma split_ws_step fuel a s word :
  (byte_of a < 128)%Z →
  split_ws_fuel (S fuel) (String a s) word =
  (if is_whitespace (byte_of a) then flush_word word ++ split_ws_fuel fuel s EmptyString
   else split_ws_fuel fuel s (word +:+ String a EmptyString)).
Proof.
  intros Ha. transitivity (match decode_one (String a s) with
    | None => flush_word word
    | Some (c, rest) =>
      if is_whitespace c then flush_word word ++ split_ws_fuel fuel rest EmptyString
      else split_ws_fuel fuel rest
             (word +:+ str_take (str_len (String a s) - str_len rest) (String a s))
    end); [reflexivity|].
  assert (decode_one (String a s) = Some (byte_of a, s)) as ->.
  { unfold decode_one. by rewrite (proj2 (Z.ltb_lt _ _) Ha). }
  change (String a s) with (String a EmptyString +:+ s). by rewrite take_all_but.
Qed.

Lemma split_ws_word w fuel s word :
  str_all graphic w = true → str_len w ≤ fuel →
  split_ws_fuel fuel (w +:+ s) word = split_ws_fuel (fuel - str_len w) s (word +:+ w).
Proof.
  revert fuel word. induction w as [|a w IH]; intros fuel word.
  - intros _ _. by rewrite str_app_nil_r, Nat.sub_0_r.
  - cbn [str_all]. intros [Ha Hw]%andb_true_iff Hlen. destruct fuel as [|fuel]; [simpl in Hlen; lia|].
    unfold graphic, in_range in Ha. change (String a w +:+ s) with (String a (w +:+ s)).
    rewrite split_ws_step by lia.
    assert (is_whitespace (byte_of a) = false) as -> by (unfold is_whitespace, in_range; lia).
    rewrite IH by (done || (simpl in Hlen; lia)). cbn [str_len]. by rewrite <- str_app_assoc.
Qed.

Lemma split_ws_space fuel s word :
  split_ws_fuel (S fuel) (String " " s) word = flush_word word ++ split_ws_fuel fuel s EmptyString.
Proof. reflexivity. Qed.

Lemma split_whitespace_unwords ws word fuel :
  forallb (λ w, negb (str_is_empty w) && str_all graphic w) ws = true →
  str_len (unwords ws) ≤ fuel → word = EmptyString →
  split_ws_fuel fuel (unwords ws) word = ws.
Proof.
  revert fuel word. induction ws as [|w ws IH]; intros fuel word.
  { intros _ _ ->. by destruct fuel. }
  cbn [forallb]. intros [[Hne%negb_true_iff Hw]%andb_true_iff Hws]%andb_true_iff Hlen ->.
  destruct ws as [|w' ws].
  - cbn [unwords] in *. rewrite <- (str_app_nil_r w) at 1. rewrite split_ws_word by done.
    assert (∀ n, split_ws_fuel n EmptyString w = flush_word w) as Hend by (by intros []).
    change (split_ws_fuel (fuel - str_len w) EmptyString w = [w]). rewrite Hend.
    unfold flush_word. by rewrite Hne.
  - change (unwords (w :: w' :: ws)) with (w +:+ String " " (unwords (w' :: ws))) in *.
    rewrite str_len_app in Hlen.
    change (str_len w + S (str_len (unwords (w' :: ws))) ≤ fuel) in Hlen.
    rewrite split_ws_word by (done || lia).
    destruct (fuel - str_len w) as [|n] eqn:Hn; [lia|]. rewrite split_ws_space.
    change (EmptyString +:+ w) with w. rewrite IH; [|exact Hws| |done].
    + unfold flush_word. by rewrite Hne.
    + lia.
Qed.

(** The start time of a process is read from field 22 whatever its command is
    called, parentheses and spaces included. *)
Theorem start_time_reads_back pid comm fields :
  forallb stat_word fields = true →
  parse_proc_stat_start_time (stat_line pid comm fields)
  = match fields !! 19 with Some field => parse_uint (2 ^ 64) field | None => None end.
Proof.
  intros Hf. unfold parse_proc_stat_start_time, stat_line.
  assert (pid +:+ " (" +:+ comm +:+ ") " +:+ unwords fields
          = (pid +:+ " (" +:+ comm) +:+ String ")" (String " " (unwords fields))) as ->.
  { by rewrite <- !str_app_assoc. }
  assert (forallb (λ w, negb (str_is_empty w) && str_all graphic w) fields = true) as Hg.
  { eapply forallb_impl; [|exact Hf]. intros w. unfold stat_word. rewrite !andb_true_iff.
    intros [Hne Hall]. split; [done|]. revert Hall. apply str_all_impl. intros a.
    unfold stat_char. rewrite andb_true_iff. tauto. }
  rewrite rsplit_once_last.
  2:{ cbn [str_all]. rewrite str_all_unwords; [done|done|]. eapply forallb_impl; [|exact Hf].
      intros w. unfold stat_word. rewrite andb_true_iff. intros [_ Hall]. revert Hall.
      apply str_all_impl. intros a. unfold stat_char. rewrite andb_true_iff. tauto. }
  unfold split_whitespace.
  change (split_ws_fuel (str_len (String " " (unwords fields))) (String " " (unwords fields)) EmptyString)
    with (split_ws_fuel (str_len (unwords fields)) (unwords fields) EmptyString).
  by rewrite split_whitespace_unwords.
Qed.
Lemma start_time_reads_back_witness :
  parse_proc_stat_start_time
    (stat_line "4242" "evil) (name x"
       (["S"; "1"; "4242"; "4242"; "0"; "-1"; "4194560"; "100"; "0"; "0"; "0"; "1"; "2"; "0"; "0";
         "20"; "0"; "1"; "0"; "987654"; "1000"]%string)) = Some 987654%Z.
Proof.
  rewrite (start_time_reads_back "4242" "evil) (name x"
    ["S"; "1"; "4242"; "4242"; "0"; "-1"; "4194560"; "100"; "0"; "0"; "0"; "1"; "2"; "0"; "0";
     "20"; "0"; "1"; "0"; "987654"; "1000"]%string); vm_compute; reflexivity.
Defined.
