(* ===== verification/Json.v ===== *)
(** * JSON documents

    [serde_json::Value], the public enum the source matches on, and the
    accessors it uses. A map is its entries, each key once; inserting keeps
    the place of a key that is there. *)

From S2P Require Export World.

(** [serde_json::Number]: an unsigned or a negative 64-bit integer, or a
    finite double by its bits. *)
Inductive Number : Type :=
| PosInt (n : Z)
| NegInt (n : Z)
| Float (bits : Z).

Inductive Value : Type :=
| JNull
| JBool (b : bool)
| JNumber (n : Number)
| JString (s : string)
| JArray (items : list Value)
| JObject (fields : list (string * Value)).

#[export] Instance Number_eq_dec : EqDecision Number.
Proof. solve_decision. Defined.

#[export] Instance Value_eq_dec : EqDecision Value.
Proof.
  refine (fix go (v w : Value) : Decision (v = w) :=
    let _ : EqDecision Value := @go in
    match v, w with
    | JNull, JNull => left eq_refl
    | JBool b, JBool c => cast_if (decide (b = c))
    | JNumber n, JNumber m => cast_if (decide (n = m))
    | JString s, JString t => cast_if (decide (s = t))
    | JArray l, JArray k => cast_if (decide (l = k))
    | JObject l, JObject k => cast_if (decide (l = k))
    | _, _ => right _
    end); abstract congruence.
Defined.

Abbreviation fields := (list (string * Value)).

(** ** Reading *)

Definition map_get (m : fields) (key : string) : option Value :=
  snd <$> List.find (λ '(k, _), k =b key) m.

(** [value.get(key)] *)
Definition value_get (v : Value) (key : string) : option Value :=
  match v with JObject m => map_get m key | _ => None end.

(** [value[key]]: nothing is [Null]. *)
Definition index (v : Value) (key : string) : Value := unwrap_or (value_get v key) JNull.

(** [value[i]] *)
Definition index_at (v : Value) (i : nat) : Value :=
  match v with JArray items => unwrap_or (items !! i) JNull | _ => JNull end.

Definition as_str (v : Value) : option string :=
  match v with JString s => Some s | _ => None end.
Definition as_array (v : Value) : option (list Value) :=
  match v with JArray items => Some items | _ => None end.
Definition as_object (v : Value) : option fields :=
  match v with JObject m => Some m | _ => None end.
Definition as_bool (v : Value) : option bool :=
  match v with JBool b => Some b | _ => None end.
Definition as_u64 (v : Value) : option Z :=
  match v with JNumber (PosInt n) => Some n | _ => None end.
Definition as_i64 (v : Value) : option Z :=
  match v with
  | JNumber (PosInt n) => if Z.ltb n (2 ^ 63) then Some n else None
  | JNumber (NegInt n) => Some n
  | _ => None
  end.
Definition is_null (v : Value) : bool := match v with JNull => true | _ => false end.
Definition is_boolean (v : Value) : bool := is_some (as_bool v).

(** [value == "text"], [value == 2] and [value == true]. *)
Definition eq_str (v : Value) (s : string) : bool := as_str v =b Some s.
Definition eq_int (v : Value) (n : Z) : bool := as_i64 v =b Some n.
Definition eq_bool (v : Value) (b : bool) : bool := as_bool v =b Some b.

(** ** Changing *)

(** [map.insert(key, x)] *)
Fixpoint obj_insert (key : string) (x : Value) (m : fields) : fields :=
  match m with
  | [] => [(key, x)]
  | (k, y) :: m => if k =b key then (k, x) :: m else (k, y) :: obj_insert key x m
  end.

(** [map.entry(key).or_insert(x)] *)
Definition map_entry (key : string) (x : Value) (m : fields) : fields :=
  if is_some (map_get m key) then m else obj_insert key x m.

Section mutation.
Context {S : Type}.

(** A change of a value in place, which may panic or leave with an error. *)
Abbreviation change := (Value → M S (io_result Value)).

(** [&mut value[key]] handed to [f]: [Null] becomes an object and a missing
    key a [Null]; anything but an object panics. *)
Definition index_mut (key : string) (f : change) (v : Value) : M S (io_result Value) :=
  match v with
  | JNull => let? x := f JNull in ret (Ok (JObject [(key, x)]))
  | JObject m =>
    let? x := f (unwrap_or (map_get m key) JNull) in ret (Ok (JObject (obj_insert key x m)))
  | _ => panic
  end.

(** [value[key] = x] *)
Definition index_set (key : string) (x : Value) : change := index_mut key (λ _, ret (Ok x)).

(** [&mut value[i]]: panics out of bounds. *)
Definition index_at_mut (i : nat) (f : change) (v : Value) : M S (io_result Value) :=
  match v with
  | JArray items =>
    match items !! i with
    | Some y => let? x := f y in ret (Ok (JArray (<[i := x]> items)))
    | None => panic
    end
  | _ => panic
  end.

(** [f(value.as_array_mut().ok_or_else(e)?)] and the same for an object. *)
Definition array_mut (e : io_error) (f : list Value → M S (io_result (list Value)))
    (v : Value) : M S (io_result Value) :=
  match v with
  | JArray items => let? items := f items in ret (Ok (JArray items))
  | _ => fail e
  end.

Definition object_mut (e : io_error) (f : fields → M S (io_result fields))
    (v : Value) : M S (io_result Value) :=
  match v with
  | JObject m => let? m := f m in ret (Ok (JObject m))
  | _ => fail e
  end.

(** [f(map.entry(key).or_insert(x))] *)
Definition entry_mut (key : string) (x : Value) (f : change) (m : fields)
    : M S (io_result fields) :=
  let? y := f (unwrap_or (map_get m key) x) in ret (Ok (obj_insert key y m)).

(** [for x in items.iter_mut() { f(x)? }] *)
Fixpoint each_mut (f : change) (items : list Value) : M S (io_result (list Value)) :=
  match items with
  | [] => ret (Ok [])
  | x :: items =>
    let? y := f x in
    let? ys := each_mut f items in
    ret (Ok (y :: ys))
  end.

End mutation.

(** [json!({ ... })] and literals. *)
Definition jstr (s : string) : Value := JString s.
Definition jnat (n : Z) : Value := JNumber (PosInt n).

(** ** The text *)

(** [serde_json::from_str] and [serde_json::to_string], which reads back. *)
Class JsonText : Type := {
  from_str : string → option Value;
  to_string : Value → option string;
  from_str_to_string v s : to_string v = Some s → from_str s = Some v;
}.

(** ** Lemmas *)

Lemma map_get_nil key : map_get [] key = None.
Proof. done. Qed.

Lemma map_get_cons k y m key :
  map_get ((k, y) :: m) key = if k =b key then Some y else map_get m key.
Proof. unfold map_get. simpl. by case_match. Qed.

Lemma obj_get_insert key x m : map_get (obj_insert key x m) key = Some x.
Proof.
  induction m as [|[k y] m IH]; simpl; rewrite ?map_get_cons.
  - by rewrite bool_decide_true.
  - case_bool_decide as Hk; rewrite map_get_cons.
    + by rewrite bool_decide_true.
    + by rewrite bool_decide_false.
Qed.

Lemma obj_get_insert_ne key key' x m :
  key ≠ key' → map_get (obj_insert key x m) key' = map_get m key'.
Proof.
  intros Hne. induction m as [|[k y] m IH]; simpl; rewrite ?map_get_cons.
  - by rewrite bool_decide_false.
  - case_bool_decide as Hk; rewrite !map_get_cons; [|by rewrite IH].
    subst k. by rewrite bool_decide_false.
Qed.

Lemma map_get_entry key x m :
  map_get (map_entry key x m) key = Some (unwrap_or (map_get m key) x).
Proof.
  unfold map_entry. destruct (map_get m key) as [y|] eqn:Hm; simpl; [done|]. apply obj_get_insert.
Qed.

Lemma map_get_entry_ne key key' x m :
  key ≠ key' → map_get (map_entry key x m) key' = map_get m key'.
Proof. intros Hne. unfold map_entry. case_match; [done|]. by apply obj_get_insert_ne. Qed.

Lemma index_object m key : index (JObject m) key = unwrap_or (map_get m key) JNull.
Proof. done. Qed.

Lemma eq_str_spec v s : eq_str v s = true ↔ v = JString s.
Proof.
  unfold eq_str. rewrite bool_decide_eq_true. destruct v; simpl; try done.
  split; [by intros [= ->]|by intros [= ->]].
Qed.

(** ** Changing a document, as weakest preconditions *)

Section wp_json.
Context {S : Type}.
Implicit Types (f : Value → M S (io_result Value)) (Q : io_result Value → S → history → Prop).

Lemma wp_index_mut key f m Q s h :
  wp (f (unwrap_or (map_get m key) JNull)) (λ r, match r with
    | Ok x => Q (Ok (JObject (obj_insert key x m)))
    | Err e => Q (Err e) end) s h →
  wp (index_mut key f (JObject m)) Q s h.
Proof. intros Hf. simpl. apply wp_try_bind. eapply wp_mono; [|exact Hf]. by intros [x|e] ??. Qed.

Lemma wp_index_set key x m Q s h :
  Q (Ok (JObject (obj_insert key x m))) s h → wp (index_set key x (JObject m)) Q s h.
Proof. intros HQ. by apply wp_index_mut, wp_ret. Qed.

Lemma wp_array_mut e g items Q s h :
  wp (g items) (λ r, match r with Ok l => Q (Ok (JArray l)) | Err e => Q (Err e) end) s h →
  wp (array_mut e g (JArray items)) Q s h.
Proof. intros Hg. simpl. apply wp_try_bind. eapply wp_mono; [|exact Hg]. by intros [x|?] ??. Qed.

(** Whatever the value is. *)
Lemma wp_array_mut_any e g v Q s h :
  (∀ items, v = JArray items →
     wp (g items) (λ r, match r with Ok l => Q (Ok (JArray l)) | Err e => Q (Err e) end) s h) →
  Q (Err e) s h → wp (array_mut e g v) Q s h.
Proof. intros Hg HQ. destruct v; try exact HQ. by apply wp_array_mut, Hg. Qed.

Lemma wp_object_mut_any e g v Q s h :
  (∀ m, v = JObject m →
     wp (g m) (λ r, match r with Ok m => Q (Ok (JObject m)) | Err e => Q (Err e) end) s h) →
  Q (Err e) s h → wp (object_mut e g v) Q s h.
Proof.
  intros Hg HQ. destruct v; try exact HQ. simpl. apply wp_try_bind.
  eapply wp_mono; [|by apply Hg]. by intros [x|?] ??.
Qed.

Lemma wp_entry_mut key x f m (Q : io_result fields → S → history → Prop) s h :
  wp (f (unwrap_or (map_get m key) x)) (λ r, match r with
    | Ok y => Q (Ok (obj_insert key y m)) | Err e => Q (Err e) end) s h →
  wp (entry_mut key x f m) Q s h.
Proof. intros Hf. apply wp_try_bind. eapply wp_mono; [|exact Hf]. by intros [y|e] ??. Qed.

Lemma wp_each_mut f (P R : Value → Prop) items (Q : io_result (list Value) → S → history → Prop) s h :
  Forall P items →
  (∀ x, P x → wp (f x) (λ r s' h', s' = s ∧ h' = h ∧ ∀ y, r = Ok y → R y) s h) →
  (∀ l, Forall R l → Q (Ok l) s h) → (∀ e, Q (Err e) s h) →
  wp (each_mut f items) Q s h.
Proof.
  intros Hitems Hf. revert Q. induction Hitems as [|x items Hx _ IH]; intros Q HQ HE; simpl.
  { by apply wp_ret, HQ. }
  apply wp_try_bind. eapply wp_mono; [|by apply Hf]. intros [y|e] ?? (-> & -> & Hy); [|apply HE].
  apply wp_try_bind, IH; [|apply HE]. intros l Hl. apply wp_ret, HQ. constructor; [by apply Hy|done].
Qed.

End wp_json.
