(* ===== verification/XrayConfig.v ===== *)
(** * What an Xray configuration may say: [crates/daemon/src/xray.rs]

    The daemon runs Xray as root with a configuration the client sends, so it
    accepts only the shapes its generator emits. Every check returns the same
    error ([rejected()]); besides, indexing a map ([map["key"]] on what
    [object] returned) panics when the key is missing, unlike indexing a
    value. *)

From S2P Require Export Json.

(** ** Building blocks *)

(** [Ok(())], [Err(rejected())], or a panic. *)
Inductive check : Type := Pass | Reject | Panics.

#[export] Instance check_eq_dec : EqDecision check.
Proof. solve_decision. Defined.

(** [if !b { return Err(rejected()) }] *)
Coercion require (b : bool) : check := if b then Pass else Reject.

Definition check_and (c d : check) : check := match c with Pass => d | _ => c end.
Notation "c >>& d" := (check_and c d) (at level 45, right associativity) : rust_scope.

(** [for x in l { f(x)? }] *)
Definition check_all {A} (f : A → check) (l : list A) : check :=
  foldr (λ x rest, f x >>& rest) Pass l.

(** [object(value, allowed)?] and what follows with the map. *)
Definition with_object (v : Value) (allowed : list string) (k : fields → check) : check :=
  match v with
  | JObject m => forallb (λ '(key, _), one_of key allowed) m >>& k m
  | _ => Reject
  end.

Definition object_ok (v : Value) (allowed : list string) : bool :=
  match v with JObject m => forallb (λ '(key, _), one_of key allowed) m | _ => false end.

(** [if let Some(x) = map.get(key) { f(x)? }] *)
Definition if_field (m : fields) (key : string) (f : Value → check) : check :=
  match map_get m key with Some x => f x | None => Pass end.

(** [map[key]] *)
Definition map_index (m : fields) (key : string) (k : Value → check) : check :=
  match map_get m key with Some x => k x | None => Panics end.

(** [string(value)?] *)
Definition non_empty (s : string) : bool := negb (str_is_empty s).
Definition with_string (v : Value) (k : string → bool) : bool :=
  match v with JString s => non_empty s && k s | _ => false end.
Definition is_string (v : Value) : bool := with_string v (λ _, true).

Definition maybe_string (v : Value) : bool :=
  is_some_and (λ s, Nat.leb (str_len s) 256) (as_str v).

Definition port (v : Value) : bool := is_some_and (λ p, in_range 1 65535 p) (as_u64 v).

(** [one(value)?] *)
Definition with_one (v : Value) (k : Value → check) : check :=
  match v with JArray [x] => k x | _ => Reject end.

(** An array of [lo] to [hi] items that all pass. *)
Definition each_of (lo hi : nat) (f : Value → check) (v : Value) : check :=
  match v with
  | JArray items => (Nat.leb lo (length items) && Nat.leb (length items) hi) >>& check_all f items
  | _ => Reject
  end.

Definition array_of (lo hi : nat) (p : Value → bool) (v : Value) : bool :=
  match v with
  | JArray items => Nat.leb lo (length items) && Nat.leb (length items) hi && forallb p items
  | _ => false
  end.

(** A field that passes a plain test, or is missing. *)
Definition opt_field (m : fields) (key : string) (p : Value → bool) : bool :=
  is_none_or p (map_get m key).

Definition value_u64 (v : Value) : bool := is_some (as_u64 v).

(** [matches!(value.as_str(), Some("a" | "b" | ...))] *)
Definition str_in (v : Value) (l : list string) : bool := is_some_and (λ s, one_of s l) (as_str v).

(** A string of bytes [p], of 1 to [hi] of them. *)
Definition bounded (hi : nat) (p : ascii → bool) (s : string) : bool :=
  non_empty s && Nat.leb (str_len s) hi && str_all p s.

(** ** Sections *)

Section config.
Context `{IpNetLib}.

(** Only the selectors the generator emits: no [ext:] file reference. *)
Definition code_byte (extra : list ascii) (a : ascii) : bool :=
  is_ascii_alphanumeric (byte_of a) || existsb (Ascii.eqb a) extra.

Definition geosite_ok (category : string) : bool :=
  let '(name, attr) := match split_once "@" category with
                       | Some (name, attr) => (name, Some attr)
                       | None => (category, None)
                       end in
  bounded 64 (code_byte ["-"; "_"; "!"]%char) name
  && is_none_or (bounded 64 (code_byte ["-"; "_"; "*"]%char)) attr.

Definition routing_selector (key item : string) : bool :=
  if key =b "ip"%string then
    match strip_prefix item "geoip:" with
    | Some code => bounded 64 (code_byte ["-"; "_"]%char) code
    | None => is_some (parse_ip item) || is_some (parse_net item)
    end
  else
    match split_once ":" item with
    | Some (kind, value) =>
      if kind =b "geosite"%string then geosite_ok value
      else one_of kind ["domain"; "full"; "keyword"; "regexp"]%string && non_empty value
    | None => negb (contains_char item "/" || contains_char item "\")
    end.

Definition dns_server_ok (server : Value) : check :=
  match server with
  | JString address => non_empty address && Nat.leb (str_len address) 256
  | JObject _ =>
    with_object server ["address"; "port"; "domains"; "skipFallback"; "queryStrategy"]%string (λ entry,
      map_index entry "address" is_string
      >>& opt_field entry "port" port
      >>& opt_field entry "domains" (array_of 1 64 is_string)
      >>& opt_field entry "skipFallback" is_boolean
      >>& opt_field entry "queryStrategy" is_string)
  | _ => Reject
  end.

Definition dns_host_ok (host : string * Value) : bool :=
  let '(name, value) := host in
  non_empty name && Nat.leb (str_len name) 253
  && match value with
     | JString entry => non_empty entry && Nat.leb (str_len entry) 256
     | JArray _ => array_of 1 8 is_string value
     | _ => false
     end.

Definition dns_hosts_ok (hosts : Value) : bool :=
  match hosts with
  | JObject hosts => Nat.leb (length hosts) 128 && forallb dns_host_ok hosts
  | _ => false
  end.

Definition validate_dns (dns : Value) : check :=
  with_object dns ["hosts"; "servers"; "queryStrategy"; "tag"; "enableParallelQuery";
                   "disableCache"; "serveStale"; "clientIp"]%string (λ m,
    opt_field m "queryStrategy" is_string
    >>& forallb (λ key, opt_field m key is_string) ["tag"; "clientIp"]%string
    >>& forallb (λ key, opt_field m key is_boolean)
          ["enableParallelQuery"; "disableCache"; "serveStale"]%string
    >>& opt_field m "hosts" dns_hosts_ok
    >>& if_field m "servers" (each_of 1 16 dns_server_ok)).

Definition fakedns_pool (pool : Value) : check :=
  with_object pool ["ipPool"; "poolSize"]%string (λ pool,
    map_index pool "ipPool" (λ cidr, with_string cidr (λ cidr, is_some (parse_net cidr)))
    >>& map_index pool "poolSize" (λ size, is_some_and (in_range 1 65535) (as_u64 size))).

Definition validate_fakedns (fakedns : Value) : check := each_of 1 4 fakedns_pool fakedns.

Definition short_string (v : Value) : bool := with_string v (λ s, Nat.leb (str_len s) 64).

Definition validate_sniffing (sniffing : Value) : check :=
  with_object sniffing ["enabled"; "destOverride"; "routeOnly"; "metadataOnly";
                        "domainsExcluded"]%string (λ m,
    forallb (λ key, opt_field m key is_boolean) ["enabled"; "routeOnly"; "metadataOnly"]%string
    >>& forallb (λ key, opt_field m key (array_of 0 8 short_string))
          ["destOverride"; "domainsExcluded"]%string).

Definition validate_mux (mux : Value) : check :=
  with_object mux ["enabled"; "concurrency"; "xudpConcurrency"; "xudpProxyUDP443"]%string (λ m,
    opt_field m "enabled" is_boolean
    >>& forallb (λ key, opt_field m key (λ v, is_some_and (in_range 1 1024) (as_i64 v)))
          ["concurrency"; "xudpConcurrency"]%string
    >>& opt_field m "xudpProxyUDP443" short_string).

Definition validate_tcp_settings (tcp : Value) : check :=
  with_object tcp ["header"]%string (λ m,
    if_field m "header" (λ header,
      with_object header ["type"]%string (λ header, map_index header "type" is_string))).

Definition sockopt_field (field : string * Value) : bool :=
  let '(key, value) := field in
  if one_of key ["mark"; "tcpKeepAliveInterval"; "tcpKeepAliveIdle"; "tcpWindowClamp"]%string
  then is_some_and (λ n, Z.leb n 4294967295) (as_u64 value)
  else if key =b "tcpUserTimeout"%string then is_some_and (λ n, Z.leb n 3600000) (as_u64 value)
  else if one_of key ["tcpFastOpen"; "V6Only"; "tcpMptcp"; "tcpNoDelay"]%string then is_boolean value
  else if key =b "tproxy"%string then str_in value ["off"; "redirect"; "tproxy"]%string
  else is_string value.

Definition validate_sockopt (sockopt : Value) : check :=
  with_object sockopt ["mark"; "dialerProxy"; "domainStrategy"; "tcpFastOpen"; "tproxy";
                       "tcpKeepAliveInterval"; "tcpKeepAliveIdle"; "tcpUserTimeout";
                       "tcpcongestion"; "interface"; "V6Only"; "tcpWindowClamp"; "tcpMptcp";
                       "tcpNoDelay"]%string (λ m, forallb sockopt_field m).

(** ** Outbounds *)

(** [item.parse::<u16>()] *)
Definition is_u16 (s : string) : bool := is_some (parse_uint 65536 s).

Definition validate_dns_rewrite_rule (rule : Value) : check :=
  with_object rule ["action"; "qType"; "rCode"; "domain"; "domains"]%string (λ m,
    opt_field m "action" (λ v, with_string v (λ action,
      one_of action ["return"; "hijack"; "direct"; "drop"]%string))
    >>& opt_field m "qType" (λ v, with_string v (λ qtype,
          Nat.leb (str_len qtype) 128
          && forallb (λ item, non_empty item && is_u16 item) (split_char "," qtype)))
    >>& opt_field m "rCode" value_u64
    >>& forallb (λ key, opt_field m key (array_of 1 128 (λ item,
          with_string item (routing_selector "domain")))) ["domain"; "domains"]%string).

Definition freedom_field (field : string * Value) : bool :=
  let '(key, value) := field in
  if one_of key ["timeout"; "userLevel"]%string then value_u64 value
  else if key =b "fragment"%string then object_ok value ["packets"; "length"; "interval"]%string
  else is_string value.

Definition dns_outbound_field (field : string * Value) : check :=
  let '(key, value) := field in
  if key =b "port"%string then port value
  else if one_of key ["userLevel"; "rewritePort"]%string then value_u64 value
  else if key =b "skipFallback"%string then is_boolean value
  else if key =b "blockTypes"%string then array_of 1 16 value_u64 value
  else if key =b "rules"%string then each_of 1 64 validate_dns_rewrite_rule value
  else is_string value.

Definition validate_auxiliary_settings (protocol : string) (settings : Value) : check :=
  if protocol =b "freedom"%string then
    with_object settings ["domainStrategy"; "redirect"; "timeout"; "userLevel"; "fragment"]%string
      (λ m, forallb freedom_field m)
  else if protocol =b "blackhole"%string then
    with_object settings ["response"]%string (λ m,
      if_field m "response" (λ response,
        with_object response ["type"]%string (λ response, map_index response "type" is_string)))
  else if protocol =b "dns"%string then
    with_object settings ["address"; "port"; "network"; "userLevel"; "nonIPQuery"; "blockTypes";
                          "skipFallback"; "queryStrategy"; "rewriteAddress"; "rewriteNetwork";
                          "rewritePort"; "rules"]%string (check_all dns_outbound_field)
  else Reject.

Definition validate_auxiliary_stream (stream : Value) : check :=
  with_object stream ["network"; "security"; "tcpSettings"; "sockopt"]%string (λ m,
    forallb (λ key, opt_field m key is_string) ["network"; "security"]%string
    >>& if_field m "tcpSettings" validate_tcp_settings
    >>& if_field m "sockopt" validate_sockopt).

Definition validate_auxiliary (outbound : Value) (m : fields) : check :=
  if_field m "settings"
    (validate_auxiliary_settings (unwrap_or (as_str (index outbound "protocol")) EmptyString))
  >>& if_field m "streamSettings" validate_auxiliary_stream.

(** One settings object of a vless stream, with the fields it may have. *)
Definition stream_settings : list (string * list string) :=
  [("wsSettings", ["path"; "headers"]); ("grpcSettings", ["serviceName"]);
   ("xhttpSettings", ["path"; "host"]); ("httpupgradeSettings", ["path"; "host"]);
   ("tlsSettings", ["serverName"; "fingerprint"; "alpn"]);
   ("realitySettings", ["serverName"; "fingerprint"; "publicKey"; "shortId"; "spiderX"])]%string.

Definition stream_field (key : string) (field : string * Value) : check :=
  let '(name, value) := field in
  if (key =b "wsSettings"%string) && (name =b "headers"%string) then
    with_object value ["Host"]%string (λ _, is_string (index value "Host"))
  else if (key =b "tlsSettings"%string) && (name =b "alpn"%string) then array_of 1 8 is_string value
  else maybe_string value.

Definition validate_vless_stream (stream : Value) : check :=
  with_object stream ["network"; "security"; "wsSettings"; "grpcSettings"; "xhttpSettings";
                      "httpupgradeSettings"; "tlsSettings"; "realitySettings"; "tcpSettings";
                      "sockopt"]%string (λ m,
    if_field m "tcpSettings" validate_tcp_settings
    >>& if_field m "sockopt" validate_sockopt
    >>& (str_in (index stream "network") ["tcp"; "raw"; "ws"; "grpc"; "xhttp"; "httpupgrade"]%string
         && str_in (index stream "security") ["none"; "tls"; "reality"]%string)
    >>& check_all (λ '(key, allowed), if_field m key (λ value,
          with_object value allowed (check_all (stream_field key)))) stream_settings).

Definition validate_finalmask (mask : Value) : check :=
  with_object mask ["udp"; "quicParams"]%string (λ m,
    if_field m "udp" (λ udp, with_one udp (λ item,
      with_object item ["type"; "settings"]%string (λ _,
        eq_str (index item "type") "salamander"
        >>& with_object (index item "settings") ["password"]%string (λ _,
              is_string (index (index item "settings") "password")))))
    >>& if_field m "quicParams" (λ quic,
          with_object quic ["udpHop"]%string (λ _,
            with_object (index quic "udpHop") ["ports"]%string (λ _,
              is_string (index (index quic "udpHop") "ports"))))).

Definition validate_hysteria_stream (stream : Value) : check :=
  with_object stream ["network"; "security"; "tlsSettings"; "hysteriaSettings"; "finalmask"]%string
    (λ m,
      (eq_str (index stream "network") "hysteria" && eq_str (index stream "security") "tls")
      >>& with_object (index stream "tlsSettings") ["serverName"; "pinnedPeerCertSha256"]%string
            (λ tls, forallb (λ '(_, value), is_string value) tls)
      >>& with_object (index stream "hysteriaSettings") ["version"; "auth"]%string (λ _,
            eq_int (index (index stream "hysteriaSettings") "version") 2
            && is_string (index (index stream "hysteriaSettings") "auth"))
      >>& if_field m "finalmask" validate_finalmask).

Definition hex_byte (a : ascii) : bool := is_ascii_digit (byte_of a) || in_range 97 102 (byte_of a).

(** Also [valid_endpoint_key] of [crates/core/src/subscription.rs]. *)
Definition valid_node_key (key : string) : bool := Nat.eqb (str_len key) 16 && str_all hex_byte key.

Definition RESERVED_TAGS : list string := ["api"; "api-in"; "tun-in"; "unavailable"]%string.

(** A tag the daemon may take over from the client. *)
Definition client_tag (tag : string) : bool :=
  negb (one_of tag RESERVED_TAGS) && negb (starts_with tag "probe-")
  && forallb (λ prefix, is_none_or valid_node_key (strip_prefix tag prefix)) ["node-"; "pin-"]%string.

Definition vless_user_ok (user : Value) : check :=
  with_object user ["id"; "encryption"; "flow"]%string (λ m,
    is_string (index user "id") && eq_str (index user "encryption") "none"
    && opt_field m "flow" (λ flow, is_some_and (λ flow,
         str_is_empty flow || one_of flow ["xtls-rprx-vision"; "xtls-rprx-vision-udp443"]%string)
         (as_str flow))).

Definition vless_server_ok (server : Value) : check :=
  (object_ok server ["address"; "port"; "users"]%string
   && is_string (index server "address") && port (index server "port"))
  >>& with_one (index server "users") vless_user_ok.

Definition vless_ok (outbound : Value) : check :=
  with_object (index outbound "settings") ["vnext"]%string (λ settings,
    match map_get settings "vnext" with
    | Some vnext => with_one vnext vless_server_ok
    | None => Reject
    end)
  >>& validate_vless_stream (index outbound "streamSettings").

Definition hysteria_ok (outbound : Value) : check :=
  let settings := index outbound "settings" in
  (object_ok settings ["version"; "address"; "port"]%string
   && eq_int (index settings "version") 2
   && is_string (index settings "address") && port (index settings "port"))
  >>& validate_hysteria_stream (index outbound "streamSettings").

Definition is_proxy (protocol : string) : bool := one_of protocol ["vless"; "hysteria"]%string.

Definition protocol_ok (outbound : Value) (m : fields) (protocol : string) : check :=
  if protocol =b "vless"%string then vless_ok outbound
  else if protocol =b "hysteria"%string then hysteria_ok outbound
  else if one_of protocol ["freedom"; "blackhole"; "dns"]%string then validate_auxiliary outbound m
  else Reject.

(** One outbound, after the tags [tags]. *)
Definition outbound_ok (tags : list string) (outbound : Value) : check :=
  with_object outbound ["tag"; "protocol"; "settings"; "streamSettings"; "mux"]%string (λ m,
    with_string (index outbound "tag") (λ tag, negb (vec_contains tags tag) && client_tag tag)
    >>& if_field m "mux" validate_mux
    >>& match index outbound "protocol" with
        | JString protocol => non_empty protocol >>& protocol_ok outbound m protocol
        | _ => Reject
        end).

Definition str_of (v : Value) : string := unwrap_or (as_str v) EmptyString.

(** The loop over the outbounds: the tags met, whether a proxy and whether a
    freedom outbound was, for the checks that follow. *)
Fixpoint validate_outbounds (tags : list string) (proxies freedom : bool) (outbounds : list Value)
    (k : list string → bool → bool → check) : check :=
  match outbounds with
  | [] => k tags proxies freedom
  | outbound :: rest =>
    let protocol := str_of (index outbound "protocol") in
    outbound_ok tags outbound
    >>& validate_outbounds (tags ++ [str_of (index outbound "tag")]) (proxies || is_proxy protocol)
          (freedom || (protocol =b "freedom"%string)) rest k
  end.

(** ** The document *)

Definition validate_policy (policy : Value) : check :=
  (object_ok policy ["levels"]%string && object_ok (index policy "levels") ["0"]%string)
  >>& with_object (index (index policy "levels") "0") ["connIdle"]%string (λ level,
        is_some_and (λ n, Z.leb n 86400) (map_get level "connIdle" ≫= as_u64)).

Definition inbound_ok (inbound : Value) : check :=
  with_object inbound ["tag"; "listen"; "port"; "protocol"; "settings"; "sniffing"]%string (λ m,
    (eq_str (index inbound "listen") "127.0.0.1"
     && port (index inbound "port") && is_string (index inbound "tag"))
    >>& if_field m "sniffing" validate_sniffing
    >>& with_string (index inbound "protocol") (λ protocol,
          if protocol =b "socks"%string then
            opt_field m "settings" (λ settings,
              object_ok settings ["udp"]%string && eq_bool (index settings "udp") true)
          else (protocol =b "http"%string) && is_none (map_get m "settings"))).

Definition port_bounds (item : string) : list string :=
  match split_once "-" item with Some (lo, hi) => [lo; hi] | None => [item] end.

Definition rule_port_ok (rule_port : Value) : bool :=
  match rule_port with
  | JString ports =>
    Nat.leb (str_len ports) 128
    && forallb (λ item, forallb (λ bound, is_u16 bound && Nat.leb (str_len bound) 5)
                          (port_bounds item)) (split_char "," ports)
  | JNumber _ => port rule_port
  | _ => false
  end.

Definition rule_target_ok (tags : list string) (rule : fields) : bool :=
  match map_get rule "outboundTag", map_get rule "balancerTag" with
  | Some outbound, None => with_string outbound (λ tag, vec_contains tags tag)
  | None, Some balancer => with_string balancer (λ tag, tag =b "failover"%string)
  | _, _ => false
  end.

Definition rule_ok (tags : list string) (rule : Value) : check :=
  with_object rule ["type"; "domain"; "ip"; "port"; "network"; "outboundTag"; "balancerTag";
                    "inboundTag"]%string (λ m,
    opt_field m "type" (λ kind, eq_str kind "field")
    && rule_target_ok tags m
    && opt_field m "inboundTag" (array_of 1 8 short_string)
    && opt_field m "port" rule_port_ok
    && opt_field m "network" (λ v, str_in v ["tcp"; "udp"; "tcp,udp"]%string)
    && forallb (λ key, opt_field m key (array_of 1 128 (λ item,
         with_string item (routing_selector key)))) ["domain"; "ip"]%string).

Definition balancer_ok (balancer : Value) : check :=
  with_object balancer ["tag"; "selector"]%string (λ balancer,
    map_index balancer "tag" (λ tag, with_string tag (λ tag, tag =b "failover"%string))
    >>& map_index balancer "selector" (λ selector,
          match selector with
          | JArray [item] => eq_str item "unavailable"
          | _ => false
          end)).

Definition routing_ok (tags : list string) (routing : Value) : check :=
  with_object routing ["domainStrategy"; "domainMatcher"; "rules"; "balancers"]%string (λ m,
    if_field m "balancers" (λ balancers, with_one balancers balancer_ok)
    >>& opt_field m "domainStrategy" (λ v, str_in v ["AsIs"; "IPIfNonMatch"; "IPOnDemand"]%string)
    >>& opt_field m "domainMatcher" (λ v, str_in v ["mph"; "hybrid"; "linear"]%string)
    >>& each_of 0 64 (rule_ok tags) (index routing "rules")).

Definition validate_generated (config : Value) : check :=
  with_object config ["log"; "inbounds"; "outbounds"; "routing"; "dns"; "fakedns"; "policy"]%string
    (λ root,
      opt_field root "log" (λ log, object_ok log ["loglevel"]%string
        && str_in (index log "loglevel") ["warning"; "error"; "none"]%string)
      >>& if_field root "dns" validate_dns
      >>& if_field root "fakedns" validate_fakedns
      >>& if_field root "policy" validate_policy
      >>& match map_get root "inbounds" with
          | Some inbounds => each_of 1 2 inbound_ok inbounds
          | None => Reject
          end
      >>& match map_get root "outbounds" with
          | Some (JArray outbounds) =>
            (Nat.leb 2 (length outbounds) && Nat.leb (length outbounds) 64)
            >>& validate_outbounds [] false false outbounds (λ tags proxies freedom,
                  (proxies && freedom) >>& routing_ok tags (index config "routing"))
          | _ => Reject
          end).

End config.
