(* ===== verification/ServiceChecks.v ===== *)
(** * Diagnostic targets: [crates/core/src/service_checks.rs] and the probe
    URL of [crates/daemon/src/watchdog.rs]

    Both URLs are parsed by the [url] crate ([reqwest::Url] is the same
    type), of which the code reads the parts of a record. *)

From S2P Require Export XrayConfig.

(** ** What the code uses of the [url] crate *)

Record Url : Type := mkUrl {
  url_scheme : string;
  url_host : option string;
  url_username : string;
  url_password : option string;
  url_fragment : option string;
  url_port_or_known_default : option Z;
  url_text : string;
}.

Class UrlLib : Type := { parse_url : string → option Url }.

Definition MAX_SERVICE_CHECKS : nat := 16.
Definition MAX_URL_BYTES : nat := 2048.

Definition check_invalid (message : string) : io_error := err_new InvalidData message.

(** [rest.split(['/', '?', '#']).next().unwrap_or_default()] *)
Fixpoint authority_of (rest : string) : string :=
  match rest with
  | EmptyString => EmptyString
  | String a rest =>
    if existsb (Ascii.eqb a) ["/"; "?"; "#"]%char then EmptyString else String a (authority_of rest)
  end.

Section urls.
Context `{UrlLib}.

Definition service_url (value : string) : io_result Url :=
  if str_is_empty value || Nat.ltb MAX_URL_BYTES (str_len value)
     || existsb (λ c, is_control c || is_whitespace c) (chars value) || contains_char value "\"
  then Err (check_invalid "Invalid service check URL")
  else
    authority <-? ok_or ((λ '(_, rest), authority_of rest) <$> split_once_str "://" value)
                    (check_invalid "Invalid service check URL");
    url <-? ok_or (parse_url value) (check_invalid "Invalid service check URL");
    if negb (url_scheme url =b "https"%string) || str_is_empty authority
       || contains_char authority "@" || is_none_or str_is_empty (url_host url)
       || negb (str_is_empty (url_username url)) || is_some (url_password url)
       || is_some (url_fragment url) || is_none_or (Z.eqb 0) (url_port_or_known_default url)
    then Err (check_invalid "Service checks require HTTPS with a host and without credentials or fragments")
    else Ok url.

Definition check_id_ok (id : string) : bool :=
  bounded 64 (code_byte ["-"; "_"]%char) id.

Fixpoint validate_checks (ids : list string) (checks : list ServiceCheck) : io_result unit :=
  match checks with
  | [] => Ok tt
  | check :: checks =>
    if negb (check_id_ok (sv_id check)) || vec_contains ids (sv_id check)
    then Err (check_invalid "Service check IDs must be valid and unique")
    else if str_is_empty (trim (sv_name check)) || Nat.ltb 80 (length (chars (sv_name check)))
            || existsb is_control (chars (sv_name check))
    then Err (check_invalid "Service check names must contain 1-80 characters without controls")
    else
      _ <-? service_url (sv_url check);
      if negb (valid_node_key (sv_endpoint_key check))
      then Err (check_invalid "Invalid service check endpoint key")
      else validate_checks (sv_id check :: ids) checks
  end.

Definition validate_service_checks (checks : list ServiceCheck) : io_result unit :=
  if Nat.ltb MAX_SERVICE_CHECKS (length checks)
  then Err (check_invalid "A profile supports at most 16 service checks")
  else validate_checks [] checks.

Definition probe_invalid : io_error := err_new InvalidInput "invalid HTTPS probe URL".

Definition checked_probe_url (probe : string) : io_result string :=
  if Nat.ltb 512 (str_len probe) || existsb is_control (chars probe) then Err probe_invalid
  else
    url <-? ok_or (parse_url probe) probe_invalid;
    if negb (url_scheme url =b "https"%string) || is_none (url_host url)
       || negb (str_is_empty (url_username url)) || is_some (url_password url)
       || is_some (url_fragment url)
    then Err probe_invalid
    else Ok (url_text url).

End urls.
