(* ===== verification/ProxyExits.v ===== *)
(** * Named proxy exits: [crates/core/src/proxy_exits.rs] and
    [crates/daemon/src/proxy_exits.rs]

    An exit is a loopback SOCKS/HTTP listener pair with a declared target.
    [bindings] checks the targets against the client's configuration,
    [inject] adds the listeners and their rules to it. *)

From S2P Require Export ServiceChecks LinkNames.

Record NamedProxyExit : Type := mkNamedExit {
  ne_name : string;
  ne_target : ProxyTarget;
  ne_no_proxy : list string;
}.

(** ** The list itself *)

Definition MAX_PROXY_EXITS : nat := 16.
Definition MAX_POOL_KEYS : nat := 8.
Definition MAX_NO_PROXY : nat := 32.
Definition MAX_NO_PROXY_LEN : nat := 253.
Definition RESERVED_NAMES : list string := ["list"; "set"; "remove"; "help"]%string.

Definition exits_invalid (message : string) : io_error := err_new InvalidInput message.

Definition exit_name_byte (a : ascii) : bool :=
  is_ascii_lowercase (byte_of a) || is_ascii_digit (byte_of a) || existsb (Ascii.eqb a) ["-"; "_"]%char.

Definition valid_proxy_exit_name (name : string) : bool :=
  match name with
  | EmptyString => false
  | String first _ =>
    Nat.leb (str_len name) 32 && is_ascii_alphanumeric (byte_of first)
    && str_all exit_name_byte name && negb (one_of name RESERVED_NAMES)
  end.

Definition valid_no_proxy_entry (entry : string) : bool :=
  bounded MAX_NO_PROXY_LEN (code_byte ["."; "-"; "_"; ":"; "["; "]"; "/"; "*"]%char) entry.

Fixpoint validate_pool_keys (seen keys : list string) : io_result unit :=
  match keys with
  | [] => Ok tt
  | key :: keys =>
    if negb (valid_node_key key) then Err (exits_invalid "Invalid proxy exit endpoint key")
    else if vec_contains seen key then Err (exits_invalid "Duplicate proxy exit pool key")
    else validate_pool_keys (key :: seen) keys
  end.

Definition validate_target (target : ProxyTarget) : io_result unit :=
  match target with
  | TargetRules | TargetDirect => Ok tt
  | TargetNode key =>
    if valid_node_key key then Ok tt else Err (exits_invalid "Invalid proxy exit endpoint key")
  | TargetPool keys =>
    if Nat.eqb (length keys) 0 || Nat.ltb MAX_POOL_KEYS (length keys)
    then Err (exits_invalid "A proxy exit pool needs 1-8 endpoint keys")
    else validate_pool_keys [] keys
  end.

Fixpoint validate_exits (names : list string) (exits : list NamedProxyExit) : io_result unit :=
  match exits with
  | [] => Ok tt
  | e :: exits =>
    if negb (valid_proxy_exit_name (ne_name e))
    then Err (exits_invalid "A proxy exit name is invalid or reserved")
    else if vec_contains names (ne_name e) then Err (exits_invalid "Duplicate proxy exit name")
    else
      _ <-? validate_target (ne_target e);
      if Nat.ltb MAX_NO_PROXY (length (ne_no_proxy e))
      then Err (exits_invalid "At most 32 no-proxy entries per exit")
      else if negb (forallb valid_no_proxy_entry (ne_no_proxy e))
      then Err (exits_invalid "A no-proxy entry is invalid")
      else validate_exits (ne_name e :: names) exits
  end.

Definition validate_proxy_exits (exits : list NamedProxyExit) : io_result unit :=
  if Nat.ltb MAX_PROXY_EXITS (length exits)
  then Err (exits_invalid "At most 16 named proxy exits are supported")
  else validate_exits [] exits.

(** ** Against a configuration *)

Definition exits_rejected : io_error := err_new InvalidInput "invalid named Xray proxy exits".

(** [crates/core/src/xray.rs] *)
Definition node_tag (key : string) : string := "node-" +:+ key.
Definition pin_tag (key : string) : string := "pin-" +:+ key.
Definition FAILOVER_BALANCER : string := "failover".

Definition find_outbound (outbounds : list Value) (tag : string) : option Value :=
  List.find (λ outbound, eq_str (index outbound "tag") tag) outbounds.

(** It leaves through no other outbound. *)
Definition unchained (outbound : Value) : bool :=
  is_null (index outbound "proxySettings")
  && is_null (index (index (index outbound "streamSettings") "sockopt") "dialerProxy").

Definition bound_to (outbounds : list Value) (tag : string) (protocols : list string) : bool :=
  is_some_and (λ outbound, str_in (index outbound "protocol") protocols && unchained outbound)
    (find_outbound outbounds tag).

Definition exit_bound (outbounds : list Value) (e : NamedProxyExit) : bool :=
  forallb (λ key, bound_to outbounds (pin_tag key) ["vless"; "hysteria"; "blackhole"]%string)
    (endpoint_keys (ne_target e))
  && (negb (ne_target e =b TargetDirect) || bound_to outbounds "direct" ["freedom"%string]).

Definition bindings (exits : list NamedProxyExit) (config : Value)
    : io_result (list ProxyExitBinding) :=
  _ <-? validate_proxy_exits exits;
  outbounds <-? ok_or (as_array (index config "outbounds")) exits_rejected;
  if Nat.ltb 33 (count_if (λ outbound, is_some_and (λ tag, starts_with tag "pin-")
                                        (as_str (index outbound "tag"))) outbounds)
  then Err exits_rejected
  else if negb (forallb (exit_bound outbounds) exits) then Err exits_rejected
  else Ok (map (λ e, mkExitBinding (ne_name e) (ne_target e)) exits).

(** ** The listeners *)

Definition POLICY_MARK_BASE : Z := 51820.

(** [mark.saturating_sub(POLICY_MARK_BASE).min(127)] *)
Definition listener_slot (mark : Z) : Z := Z.min 127 (Z.max 0 (mark - POLICY_MARK_BASE)).

(** [(24_000 + ... ) as u16], and the port after it. *)
Definition exit_ports (mark : Z) (index : nat) : Z * Z :=
  let socks := ((24000 + listener_slot mark * 32 + Z.of_nat index * 2) mod 65536)%Z in
  (socks, socks + 1)%Z.

Definition balancer_tag (name : string) : string := "proxy-pool-" +:+ name.

Definition exit_listener (tag protocol : string) (port : Z) : Value :=
  JObject [("tag", jstr tag); ("listen", jstr "127.0.0.1"); ("protocol", jstr protocol);
           ("port", jnat port);
           ("settings", if protocol =b "socks"%string then JObject [("udp"%string, JBool false)]
                        else JObject []);
           ("sniffing", JObject [("enabled", JBool true);
                                 ("destOverride", JArray [jstr "http"; jstr "tls"]);
                                 ("routeOnly", JBool true)]%string)]%string.

Definition socks_tag (name : string) : string := "proxy-socks-" +:+ name.
Definition http_tag (name : string) : string := "proxy-http-" +:+ name.

Definition exit_listeners (mark : Z) (index : nat) (name : string) : list Value :=
  let '(socks_port, http_port) := exit_ports mark index in
  [exit_listener (socks_tag name) "socks" socks_port; exit_listener (http_tag name) "http" http_port].

(** The rule of an exit, unless it follows the profile's, and its balancer. *)
Definition exit_rule (e : ProxyExitBinding) : option Value :=
  let rule target tag :=
    Some (JObject [("type", jstr "field");
                   ("inboundTag", JArray [jstr (socks_tag (pb_name e)); jstr (http_tag (pb_name e))]);
                   (target, jstr tag)]%string) in
  match pb_target e with
  | TargetRules => None
  | TargetNode key => rule "outboundTag"%string (pin_tag key)
  | TargetDirect => rule "outboundTag"%string "direct"%string
  | TargetPool _ => rule "balancerTag"%string (balancer_tag (pb_name e))
  end.

Definition is_pool (target : ProxyTarget) : bool :=
  match target with TargetPool _ => true | _ => false end.

Definition exit_balancer (e : ProxyExitBinding) : option Value :=
  if is_pool (pb_target e)
  then Some (JObject [("tag", jstr (balancer_tag (pb_name e)));
                      ("selector", JArray [jstr UNAVAILABLE_TAG])]%string)
  else None.

Definition blackhole : Value :=
  JObject [("tag", jstr UNAVAILABLE_TAG); ("protocol", jstr "blackhole")]%string.

Definition inject {S} (config : Value) (exits : list ProxyExitBinding) (mark : Z)
    : M S (io_result Value) :=
  if Nat.eqb (length exits) 0 then ret (Ok config) else
  let listeners :=
    concat (map (λ '(index, e), exit_listeners mark index (pb_name e)) (enumerate exits)) in
  let balancers := omap exit_balancer exits in
  let? config := index_mut "inbounds" (array_mut exits_rejected (λ inbounds,
                   ret (Ok (inbounds ++ listeners)))) config in
  let? config := index_mut "routing" (index_mut "rules" (array_mut exits_rejected (λ rules,
                   ret (Ok (omap exit_rule exits ++ rules))))) config in
  if Nat.eqb (length balancers) 0 then ret (Ok config) else
  let? config := index_mut "routing" (object_mut exits_rejected
                   (entry_mut "balancers" (JArray []) (array_mut exits_rejected (λ present,
                      ret (Ok (present ++ balancers)))))) config in
  index_mut "outbounds" (array_mut exits_rejected (λ outbounds,
    ret (Ok (if is_some (find_outbound outbounds UNAVAILABLE_TAG) then outbounds
             else outbounds ++ [blackhole])))) config.

Definition pool_params (e : ProxyExitBinding) (probe_url : string) (interval_secs : Z)
    : option XrayFailoverParams :=
  match pb_target e with
  | TargetPool keys =>
    match keys with
    | [] => None
    | first :: _ => Some (mkFailoverParams (map mkFailoverNode keys) first true probe_url interval_secs)
    end
  | _ => None
  end.
