(* ===== verification/XrayPlan.v ===== *)
(** * The plan of an Xray connection: [crates/daemon/src/xray.rs]

    [prepare_xray] checks the client's request and rewrites its
    configuration: the daemon's own TUN, API and probe inbounds replace the
    client's, every outbound gets the transport mark. [pin_server_addresses]
    then replaces server names by the addresses they resolve to. *)

From S2P Require Export ProxyExits.

Definition MAX_XRAY_CONFIG_BYTES : Z := 512 * 1024.
Definition MAX_FAILOVER_NODES : nat := 8.

Definition xray_rejected : io_error := err_new InvalidInput "unsupported generated Xray TUN config".

(** [.map_err(|_| rejected())] *)
Definition or_xray_rejected {A E} (r : result A E) : io_result A := map_err (λ _, xray_rejected) r.

Record XrayConnectParams : Type := mkXrayParams {
  xq_profile_id : string;
  xq_config : string;
  xq_routes : list PolicyRoute;
  xq_dns_servers : list IpAddr;
  xq_dns_domains : list string;
  xq_dns_bypass : list string;
  xq_interface_name : option string;
  xq_geo_assets : option XrayGeoAssets;
  xq_macos_data_root : option string;
  xq_role : TunnelRole;
  xq_failover : option XrayFailoverParams;
  xq_reject_quic : bool;
  xq_probe_url : option string;
  xq_mtu : option Z;
  xq_service_checks : list ServiceCheck;
  xq_proxy_exits : list NamedProxyExit;
}.

Record XrayPlan : Type := mkXrayPlan {
  xl_profile_id : string;
  xl_name : string;
  xl_config : string;
  xl_routes : list PolicyRoute;
  xl_address : IpNet;
  xl_mtu : Z;
  xl_dns_servers : list IpAddr;
  xl_dns_domains : list string;
  xl_dns_bypass : list string;
  xl_full_ipv4 : bool;
  xl_full_ipv6 : bool;
  xl_mark : Z;
  xl_api_port : Z;
  xl_server_hosts : list string;
  xl_unpinned_hosts : list string;
  xl_server_pinned : bool;
  xl_failover : option XrayFailoverParams;
  xl_reject_quic : bool;
  xl_probe_url : option string;
  xl_pinned_keys : list string;
  xl_service_checks : list ServiceCheck;
  xl_proxy_exits : list ProxyExitBinding;
  xl_geo_assets : option XrayGeoAssets;
}.

(** ** Loopback ports *)

Definition API_PORT_BASE : Z := 10185.
Definition PROBE_PORT_BASE : Z := 11185.

(** [u16::try_from(port).unwrap_or(base)] *)
Definition u16_or (base port : Z) : Z := if Z.ltb port 65536 then port else base.

Definition xray_api_port (mark : Z) : Z := u16_or API_PORT_BASE (API_PORT_BASE + listener_slot mark).

Definition xray_probe_port (mark : Z) (index : nat) : Z :=
  u16_or PROBE_PORT_BASE
    (PROBE_PORT_BASE + listener_slot mark * 8 + Z.min (Z.of_nat index) 7)%Z.

Definition xray_pin_probe_port (mark : Z) (index : nat) : Z :=
  ((13000 + listener_slot mark * 40 + Z.min (Z.of_nat index) 32) mod 65536)%Z.

Definition dns_bypass_addrs (dns_servers : list IpAddr) (full_ipv4 full_ipv6 : bool) : list IpAddr :=
  bfilter (λ ip, if is_ipv4 ip then full_ipv4 else full_ipv6) dns_servers.

Definition dns_server_bypass (plan : XrayPlan) : list IpAddr :=
  if xl_server_pinned plan then []
  else dns_bypass_addrs (xl_dns_servers plan) (xl_full_ipv4 plan) (xl_full_ipv6 plan).

(** ** The request *)

Section plan.
Context `{IpNetLib} `{UrlLib} `{JsonText}.

(** The loop over the routes: no gateway, no host bits, each once. *)
Fixpoint xray_routes_ok (seen : list IpNet) (routes : list PolicyRoute) : bool :=
  match routes with
  | [] => true
  | route :: routes =>
    negb (is_some (pr_via route)
          || negb (trunc (pr_destination route) =b pr_destination route)
          || vec_contains seen (pr_destination route))
    && xray_routes_ok (pr_destination route :: seen) routes
  end.

Definition bypass_char (c : Z) : bool :=
  negb (is_control c || is_whitespace c || existsb (Z.eqb c) [ch "/"; ch "@"; ch "%"]).

Definition xray_dns_ok (params : XrayConnectParams) : bool :=
  forallb (λ ip, negb (is_unspecified ip || is_multicast ip)) (xq_dns_servers params)
  && (Nat.eqb (length (xq_dns_domains params)) 0 || negb (Nat.eqb (length (xq_dns_servers params)) 0))
  && forallb (λ domain, non_empty domain && Nat.leb (str_len domain) 253
                        && forallb (λ c, negb (is_control c)) (chars domain)) (xq_dns_domains params)
  && Nat.leb (length (xq_dns_bypass params)) 16
  && forallb (λ host, non_empty host && Nat.leb (str_len host) 253
                      && forallb bypass_char (chars host)) (xq_dns_bypass params).

Definition covers_v4 (seen : list IpNet) : bool :=
  vec_contains seen (mkNet (V4 0) 0)
  || (vec_contains seen (mkNet (V4 0) 1) && vec_contains seen (mkNet (ip4 128 0 0 0) 1)).

Definition covers_v6 (seen : list IpNet) : bool :=
  vec_contains seen (mkNet (V6 0) 0)
  || (vec_contains seen (mkNet (V6 0) 1) && vec_contains seen (mkNet (V6 (Z.shiftl 32768 112)) 1)).

Definition xray_limits_ok (params : XrayConnectParams) (mark : Z) : bool :=
  negb (Z.eqb mark 0 || Z.ltb MAX_XRAY_CONFIG_BYTES (Z.of_nat (str_len (xq_config params)))
        || Nat.ltb 64 (length (xq_routes params)) || Nat.ltb 8 (length (xq_dns_servers params))
        || Nat.ltb 16 (length (xq_dns_domains params))).

(** Partial decompositions of a default route are refused, and resolvers the
    tunnel does not carry. *)
Definition xray_coverage_ok (params : XrayConnectParams) : bool :=
  let seen := map pr_destination (xq_routes params) in
  let '(covers_ipv4, covers_ipv6) := full_coverage seen in
  negb ((covers_ipv4 && negb (covers_v4 seen)) || (covers_ipv6 && negb (covers_v6 seen)))
  && forallb (λ server, existsb (λ net, contains_ip net server) seen) (xq_dns_servers params).

(** ** Failover *)

Fixpoint failover_keys_ok (keys : list string) (nodes : list XrayFailoverNode) : bool :=
  match nodes with
  | [] => true
  | node :: nodes =>
    valid_node_key (fn_key node) && negb (vec_contains keys (fn_key node))
    && failover_keys_ok (fn_key node :: keys) nodes
  end.

Definition failover_tags_ok (keys tags : list string) : bool :=
  forallb (λ key, vec_contains tags (node_tag key)) keys
  && forallb (λ tag, is_none_or (vec_contains keys) (strip_prefix tag "node-")) tags.

Definition outbound_tags (outbounds : list Value) : list string :=
  omap (λ outbound, as_str (index outbound "tag")) outbounds.

Definition validate_failover (failover : XrayFailoverParams) (config : Value)
    : io_result XrayFailoverParams :=
  match fp_nodes failover with
  | [] => Err xray_rejected
  | primary :: _ =>
    let keys := map fn_key (fp_nodes failover) in
    if Nat.ltb MAX_FAILOVER_NODES (length keys) || negb (failover_keys_ok [] (fp_nodes failover))
       || negb (valid_node_key (fp_primary_key failover))
       || negb (fp_primary_key failover =b fn_key primary)
    then Err xray_rejected
    else
      outbounds <-? ok_or (as_array (index config "outbounds")) xray_rejected;
      if negb (failover_tags_ok keys (outbound_tags outbounds)) then Err xray_rejected
      else
        probe <-? checked_probe_url (trim (fp_probe_url failover));
        if negb (in_range 1 300 (fp_interval_secs failover)) then Err xray_rejected
        else Ok (mkFailoverParams (fp_nodes failover) (fp_primary_key failover)
                   (fp_auto_return_primary failover) probe (fp_interval_secs failover))
  end.

(** ** The configuration the daemon runs *)

(** The server an outbound dials, if it is a proxy. *)
Definition server_host (outbound : Value) : option string :=
  if eq_str (index outbound "protocol") "vless" then
    as_str (index (index_at (index (index outbound "settings") "vnext") 0) "address")
  else if eq_str (index outbound "protocol") "hysteria" then
    as_str (index (index outbound "settings") "address")
  else None.

(** Each host once, in the order met. *)
Definition distinct (hosts : list string) : list string :=
  fold_left (λ known host, if vec_contains known host then known else known ++ [host]) hosts [].

Definition pinned_keys_of (outbounds : list Value) : list string :=
  omap (λ outbound, if str_in (index outbound "protocol") ["vless"; "hysteria"]%string
                    then as_str (index outbound "tag") ≫= λ tag, strip_prefix tag "pin-"
                    else None) outbounds.

Definition dest_override (config : Value) : list Value :=
  map jstr (["http"; "tls"; "quic"]%string
            ++ (if is_some_and (λ pools, negb (Nat.eqb (length pools) 0))
                     (as_array (index config "fakedns"))
                then ["fakedns"%string] else [])).

Definition tun_inbound (name : string) (mtu : Z) (config : Value) : Value :=
  JObject [("tag", jstr "tun-in"); ("protocol", jstr "tun");
           ("settings", JObject [("name", jstr name); ("mtu", jnat mtu)]);
           ("sniffing", JObject [("enabled", JBool true);
                                 ("destOverride", JArray (dest_override config))])]%string.

Definition api_inbound (api_port : Z) : Value :=
  JObject [("tag", jstr "api-in"); ("protocol", jstr "dokodemo-door"); ("listen", jstr "127.0.0.1");
           ("port", jnat api_port);
           ("settings", JObject [("address"%string, jstr "127.0.0.1")])]%string.

Definition probe_inbound (tag : string) (port : Z) : Value :=
  JObject [("tag", jstr tag); ("protocol", jstr "socks"); ("listen", jstr "127.0.0.1");
           ("port", jnat port)]%string.

Definition failover_keys (failover : option XrayFailoverParams) : list string :=
  match failover with Some f => map fn_key (fp_nodes f) | None => [] end.

Definition daemon_inbounds (name : string) (mtu mark : Z) (failover : option XrayFailoverParams)
    (pinned_keys : list string) (config : Value) : list Value :=
  tun_inbound name mtu config :: api_inbound (xray_api_port mark)
  :: map (λ '(index, key), probe_inbound ("probe-" +:+ key) (xray_probe_port mark index))
       (enumerate (failover_keys failover))
  ++ map (λ '(index, key), probe_inbound ("pin-probe-" +:+ key) (xray_pin_probe_port mark index))
       (enumerate pinned_keys).

Definition inbound_rule (inbound outbound : string) : Value :=
  JObject [("type", jstr "field"); ("inboundTag", JArray [jstr inbound]);
           ("outboundTag", jstr outbound)]%string.

Definition failover_rule : Value :=
  JObject [("type", jstr "field"); ("network", jstr "tcp,udp");
           ("balancerTag", jstr FAILOVER_BALANCER)]%string.

Definition daemon_rules (failover : option XrayFailoverParams) (pinned_keys : list string)
    (rules : list Value) : list Value :=
  inbound_rule "api-in" "api"
  :: map (λ key, inbound_rule ("probe-" +:+ key) (node_tag key)) (failover_keys failover)
  ++ map (λ key, inbound_rule ("pin-probe-" +:+ key) (pin_tag key)) pinned_keys
  ++ rules
  ++ (if is_some failover then [failover_rule] else []).

Definition system_policy : Value :=
  JObject (map (λ key, (key, JBool true))
    ["statsInboundUplink"; "statsInboundDownlink"; "statsOutboundUplink"; "statsOutboundDownlink"]%string).

Definition has_pool (exits : list ProxyExitBinding) : bool :=
  existsb (λ e, is_pool (pb_target e)) exits.

Definition api_section (routing : bool) : Value :=
  JObject [("tag", jstr "api");
           ("services", JArray (map jstr ("StatsService"
              :: if routing then ["RoutingService"] else [])))]%string.

(** The mark on one outbound. *)
Definition mark_outbound {S} (mark : Z) (outbound : Value) : M S (io_result Value) :=
  if eq_str (index outbound "protocol") "blackhole" then ret (Ok outbound) else
  let? outbound := (if is_null (index outbound "streamSettings")
                    then index_set "streamSettings" (JObject []) outbound
                    else ret (Ok outbound)) in
  index_mut "streamSettings" (object_mut xray_rejected
    (entry_mut "sockopt" (JObject []) (object_mut xray_rejected (λ sockopt,
       ret (Ok (obj_insert "mark" (jnat mark) sockopt)))))) outbound.

Definition set_system_policy {S} (config : Value) : M S (io_result Value) :=
  let? config := (if is_null (index config "policy") then index_set "policy" (JObject []) config
                  else ret (Ok config)) in
  index_mut "policy" (index_set "system" system_policy) config.

(** The rewriting of the configuration in [prepare_xray]. *)
Definition rewrite_config {S} (name : string) (mtu mark : Z) (failover : option XrayFailoverParams)
    (pinned_keys : list string) (proxy_exits : list ProxyExitBinding) (config : Value)
    : M S (io_result Value) :=
  let inbounds := daemon_inbounds name mtu mark failover pinned_keys config in
  let? config := index_set "inbounds" (JArray inbounds) config in
  let? config := index_set "log" (JObject [("loglevel"%string, jstr "warning")]) config in
  let? config := index_set "stats" (JObject []) config in
  let? config := set_system_policy config in
  let? config := index_set "api" (api_section (is_some failover || has_pool proxy_exits)) config in
  let? config := index_mut "routing" (index_mut "rules" (array_mut xray_rejected (λ rules,
                   ret (Ok (daemon_rules failover pinned_keys rules))))) config in
  let? config := (if is_some failover
                  then index_mut "outbounds" (array_mut xray_rejected (λ outbounds,
                         ret (Ok (outbounds ++ [blackhole])))) config
                  else ret (Ok config)) in
  let? config := inject config proxy_exits mark in
  index_mut "outbounds" (array_mut xray_rejected (each_mut (mark_outbound mark))) config.

Definition run_check {S} (c : check) : M S (io_result unit) :=
  match c with Pass => ret (Ok tt) | Reject => fail xray_rejected | Panics => panic end.

(** An address within 198.18.0.0/15, from the same hash as the name. *)
Definition xray_address (uid : Z) (profile_id : string) : io_result IpNet :=
  let host := Z.land (link_name_seed uid profile_id) 131071 in
  ok_or (parse_net ("198." +:+ show_Z (18 + Z.shiftr host 16)
                    +:+ "." +:+ show_Z (Z.land (Z.shiftr host 8) 255)
                    +:+ "." +:+ show_Z (Z.land host 255) +:+ "/32")) xray_rejected.

Definition transpose {A} (r : option (io_result A)) : io_result (option A) :=
  match r with None => Ok None | Some r => a <-? r; Ok (Some a) end.

Definition prepare_xray {S} (uid : Z) (params : XrayConnectParams) (mark : Z)
    : M S (io_result XrayPlan) :=
  let? _ := lift (or_xray_rejected (validate_owner ("xray:" +:+ xq_profile_id params))) in
  if negb (xray_limits_ok params mark) then fail xray_rejected else
  let? _ := lift (validate_service_checks (xq_service_checks params)) in
  if negb (xray_routes_ok [] (xq_routes params) && xray_dns_ok params && xray_coverage_ok params)
  then fail xray_rejected else
  let? config := lift (ok_or (from_str (xq_config params)) xray_rejected) in
  let? _ := run_check (validate_generated config) in
  let? proxy_exits := lift (bindings (xq_proxy_exits params) config) in
  let? failover := lift (transpose ((λ f, validate_failover f config) <$> xq_failover params)) in
  let? outbounds := lift (ok_or (as_array (index config "outbounds")) xray_rejected) in
  let server_hosts := distinct (omap server_host outbounds) in
  let '(name, _) :=
    tunnel_link_names "xray-" uid (xq_profile_id params) (xq_interface_name params) in
  let? address := lift (xray_address uid (xq_profile_id params)) in
  let mtu := unwrap_or (xq_mtu params) 1500%Z in
  if negb (in_range 1280 9000 mtu) then fail xray_rejected else
  let? probe_url := lift (transpose (checked_probe_url <$> xq_probe_url params)) in
  if has_pool proxy_exits && is_none probe_url && is_none failover then fail xray_rejected else
  let pinned_keys := pinned_keys_of outbounds in
  if Nat.ltb 33 (length pinned_keys) then fail xray_rejected else
  let? config := rewrite_config name mtu mark failover pinned_keys proxy_exits config in
  let? config_text := lift (ok_or (to_string config) xray_rejected) in
  let seen := map pr_destination (xq_routes params) in
  ret (Ok {| xl_profile_id := xq_profile_id params;
             xl_name := name;
             xl_config := config_text;
             xl_routes := xq_routes params;
             xl_address := address;
             xl_mtu := mtu;
             xl_dns_servers := xq_dns_servers params;
             xl_dns_domains := xq_dns_domains params;
             xl_dns_bypass := xq_dns_bypass params;
             xl_full_ipv4 := covers_v4 seen;
             xl_full_ipv6 := covers_v6 seen;
             xl_mark := mark;
             xl_api_port := xray_api_port mark;
             xl_server_hosts := server_hosts;
             xl_unpinned_hosts := [];
             xl_server_pinned := false;
             xl_failover := failover;
             xl_reject_quic := xq_reject_quic params;
             xl_probe_url := probe_url;
             xl_pinned_keys := pinned_keys;
             xl_service_checks := xq_service_checks params;
             xl_proxy_exits := proxy_exits;
             xl_geo_assets := xq_geo_assets params |}).

(** ** Pinning the servers *)

(** The addresses resolved so far, the names left alone, and whether none
    was. *)
Record Pinning : Type := mkPinning {
  pg_resolved : list (string * option IpAddr);
  pg_unpinned : list string;
  pg_all_pinned : bool;
}.

(** An IPv4 address if there is one, otherwise the first. *)
Definition preferred (addresses : list IpAddr) : option IpAddr :=
  match List.find is_ipv4 addresses with Some ip => Some ip | None => head addresses end.

(** [resolved.entry(host).or_insert_with(...)] *)
Definition resolve_once {S} (resolve : string → M S (list IpAddr)) (pg : Pinning) (host : string)
    : M S (Pinning * option IpAddr) :=
  match List.find (λ '(known, _), known =b host) (pg_resolved pg) with
  | Some (_, address) => ret (pg, address)
  | None =>
    let! addresses := resolve host in
    let address := preferred addresses in
    ret (mkPinning (pg_resolved pg ++ [(host, address)]) (pg_unpinned pg) (pg_all_pinned pg), address)
  end.

(** The transport derives no name from the address. *)
Definition carries_name (outbound : Value) : bool :=
  match as_str (index (index outbound "streamSettings") "network") with
  | None => true
  | Some network => one_of network ["tcp"; "raw"; "hysteria"; "kcp"]%string
  end.

Definition leave_unpinned (pg : Pinning) (host : string) : Pinning :=
  mkPinning (pg_resolved pg)
    (if vec_contains (pg_unpinned pg) host then pg_unpinned pg else pg_unpinned pg ++ [host]) false.

(** [*slot = json!(address)] *)
Definition set_address {S} (address : Value) (outbound : Value) : M S (io_result Value) :=
  if eq_str (index outbound "protocol") "vless" then
    index_mut "settings" (index_mut "vnext" (index_at_mut 0 (index_set "address" address))) outbound
  else index_mut "settings" (index_set "address" address) outbound.

(** [if let Some(settings) = outbound["streamSettings"][security].as_object_mut()] *)
Definition keep_server_name {S} (host security : string) (outbound : Value) : M S (io_result Value) :=
  index_mut "streamSettings" (index_mut security (λ settings,
    ret (Ok (match settings with
             | JObject m => JObject (map_entry "serverName" (jstr host) m)
             | v => v
             end)))) outbound.

Definition pin_outbound {S} (show_ip : IpAddr → string) (resolve : string → M S (list IpAddr))
    (pg : Pinning) (outbound : Value) : M S (io_result (Pinning * Value)) :=
  match server_host outbound with
  | None => ret (Ok (pg, outbound))
  | Some host =>
    if is_some (parse_ip host) then ret (Ok (pg, outbound)) else
    let! '(pg, address) := (if carries_name outbound then resolve_once resolve pg host
                            else ret (pg, None)) in
    match address with
    | None => ret (Ok (leave_unpinned pg host, outbound))
    | Some address =>
      let? outbound := set_address (jstr (show_ip address)) outbound in
      let? outbound := keep_server_name host "tlsSettings" outbound in
      let? outbound := keep_server_name host "realitySettings" outbound in
      ret (Ok (pg, outbound))
    end
  end.

Fixpoint pin_outbounds {S} (show_ip : IpAddr → string) (resolve : string → M S (list IpAddr))
    (pg : Pinning) (outbounds : list Value) : M S (io_result (Pinning * list Value)) :=
  match outbounds with
  | [] => ret (Ok (pg, []))
  | outbound :: outbounds =>
    let? '(pg, outbound) := pin_outbound show_ip resolve pg outbound in
    let? '(pg, outbounds) := pin_outbounds show_ip resolve pg outbounds in
    ret (Ok (pg, outbound :: outbounds))
  end.

Definition with_hosts (hosts : list string) (plan : XrayPlan) : XrayPlan :=
  mkXrayPlan (xl_profile_id plan) (xl_name plan) (xl_config plan) (xl_routes plan)
    (xl_address plan) (xl_mtu plan) (xl_dns_servers plan) (xl_dns_domains plan)
    (xl_dns_bypass plan) (xl_full_ipv4 plan) (xl_full_ipv6 plan) (xl_mark plan)
    (xl_api_port plan) hosts (xl_unpinned_hosts plan) (xl_server_pinned plan)
    (xl_failover plan) (xl_reject_quic plan) (xl_probe_url plan) (xl_pinned_keys plan)
    (xl_service_checks plan) (xl_proxy_exits plan) (xl_geo_assets plan).

Definition with_pinning (config : string) (pg : Pinning) (plan : XrayPlan) : XrayPlan :=
  mkXrayPlan (xl_profile_id plan) (xl_name plan) config (xl_routes plan)
    (xl_address plan) (xl_mtu plan) (xl_dns_servers plan) (xl_dns_domains plan)
    (xl_dns_bypass plan) (xl_full_ipv4 plan) (xl_full_ipv6 plan) (xl_mark plan)
    (xl_api_port plan) (xl_server_hosts plan) (pg_unpinned pg) (pg_all_pinned pg)
    (xl_failover plan) (xl_reject_quic plan) (xl_probe_url plan) (xl_pinned_keys plan)
    (xl_service_checks plan) (xl_proxy_exits plan) (xl_geo_assets plan).

(** It leaves the plan alone when its text is no configuration. *)
Definition pin_server_addresses {S} (show_ip : IpAddr → string)
    (resolve : string → M S (list IpAddr)) (plan : XrayPlan) : M S (io_result XrayPlan) :=
  match from_str (xl_config plan) with
  | Some (JObject m) =>
    match map_get m "outbounds" with
    | Some (JArray outbounds) =>
      let? '(pg, outbounds) := pin_outbounds show_ip resolve (mkPinning [] [] true) outbounds in
      let plan := with_hosts (omap server_host outbounds) plan in
      ret (Ok (match to_string (JObject (obj_insert "outbounds" (JArray outbounds) m)) with
               | Some config => with_pinning config pg plan
               | None => plan
               end))
    | _ => ret (Ok plan)
    end
  | Some JNull | None => ret (Ok plan)
  | Some _ => panic
  end.

End plan.
