(* ===== verification/XrayProps.v ===== *)
(** * Properties of the Xray plan

    What the daemon runs as root, whatever configuration the client sent:
    its listeners stay on loopback, its sockets carry the transport mark. *)

From S2P Require Export XrayPlan.

(** ** Checks that pass *)

Lemma check_and_pass c d : check_and c d = Pass ↔ c = Pass ∧ d = Pass.
Proof. destruct c; simpl; naive_solver. Qed.

Lemma require_pass b : require b = Pass ↔ b = true.
Proof. by destruct b. Qed.

Lemma check_all_pass {A} (f : A → check) l : check_all f l = Pass ↔ Forall (λ x, f x = Pass) l.
Proof.
  induction l as [|x l IH]; simpl; [by split|]. by rewrite check_and_pass, IH, Forall_cons.
Qed.

Lemma with_object_pass v allowed k :
  with_object v allowed k = Pass →
  ∃ m, v = JObject m ∧ Forall (λ '(key, _), one_of key allowed = true) m ∧ k m = Pass.
Proof.
  destruct v; try done. simpl. intros [Hkeys%require_pass Hk]%check_and_pass.
  eexists. split_and!; [done| |done]. apply forallb_Forall in Hkeys.
  eapply Forall_impl; [exact Hkeys|]. by intros [].
Qed.

Lemma if_field_pass m key f x : if_field m key f = Pass → map_get m key = Some x → f x = Pass.
Proof. unfold if_field. intros Hf Hx. by rewrite Hx in Hf. Qed.

Lemma each_of_pass lo hi f v :
  each_of lo hi f v = Pass → ∃ items, v = JArray items ∧ Forall (λ x, f x = Pass) items.
Proof.
  destruct v; try done. simpl. intros [_ Hall%check_all_pass]%check_and_pass. by eexists.
Qed.

Definition is_object (v : Value) : Prop := ∃ m, v = JObject m.

Section plan.
Context `{IpNetLib} `{UrlLib} `{JsonText}.

Lemma validate_outbounds_pass os tags p f k :
  validate_outbounds tags p f os k = Pass →
  Forall is_object os ∧ ∃ tags' p' f', k tags' p' f' = Pass.
Proof.
  revert tags p f. induction os as [|o os IH]; intros tags p f; cbn [validate_outbounds]; [eauto|].
  intros [(m & -> & _)%with_object_pass Hrest]%check_and_pass.
  destruct (IH _ _ _ Hrest) as [Hall Hk]. split; [|done]. constructor; [by eexists|done].
Qed.

(** The sections the daemon rewrites are what it takes them for. *)
Definition client_shape (m : fields) : Prop :=
  Forall (λ '(key, _), one_of key ["log"; "inbounds"; "outbounds"; "routing"; "dns"; "fakedns"; "policy"]%string = true) m ∧
  (∃ os, map_get m "outbounds" = Some (JArray os) ∧ Forall is_object os) ∧
  (∃ r, map_get m "routing" = Some (JObject r)) ∧
  (∀ p, map_get m "policy" = Some p → is_object p).

Lemma validate_policy_object p : validate_policy p = Pass → is_object p.
Proof.
  unfold validate_policy. intros [[Hp _]%require_pass%andb_true_iff _]%check_and_pass.
  destruct p; try done. by eexists.
Qed.

Lemma validate_generated_shape config :
  validate_generated config = Pass → ∃ m, config = JObject m ∧ client_shape m.
Proof.
  intros (m & -> & Hkeys & Hm)%with_object_pass. exists m. split; [done|].
  apply check_and_pass in Hm as [_ Hm]. apply check_and_pass in Hm as [_ Hm].
  apply check_and_pass in Hm as [_ Hm]. apply check_and_pass in Hm as [Hpolicy Hm].
  apply check_and_pass in Hm as [_ Hm].
  destruct (map_get m "outbounds") as [[| | | |os|]|] eqn:Hos; try done.
  apply check_and_pass in Hm as [_ Hm].
  apply validate_outbounds_pass in Hm as [Hobj (tags & p & f & [_ Hrouting]%check_and_pass)].
  apply with_object_pass in Hrouting as (r & Hr & _). split_and!; [done| |..].
  - eauto.
  - exists r. rewrite index_object in Hr. by destruct (map_get m "routing"); simplify_eq/=.
  - intros q Hq. by eapply validate_policy_object, if_field_pass.
Qed.

(** ** What the rewritten configuration may do *)

(** It listens on loopback, or is the tunnel's own device. *)
Definition local_inbound (name : string) (inbound : Value) : bool :=
  eq_str (index inbound "listen") "127.0.0.1"
  || (eq_str (index inbound "protocol") "tun"
      && eq_str (index (index inbound "settings") "name") name).

(** Its packets carry the mark, or it drops them. *)
Definition marked_outbound (mark : Z) (outbound : Value) : bool :=
  eq_str (index outbound "protocol") "blackhole"
  || (as_u64 (index (index (index outbound "streamSettings") "sockopt") "mark") =b Some mark).

Definition daemon_sections : list string :=
  ["log"; "inbounds"; "outbounds"; "routing"; "dns"; "fakedns"; "policy"; "stats"; "api"]%string.

Definition confined (name : string) (mark : Z) (config : Value) : bool :=
  match config with
  | JObject m =>
    forallb (λ '(key, _), one_of key daemon_sections) m
    && is_some_and (forallb (local_inbound name)) (map_get m "inbounds" ≫= as_array)
    && is_some_and (forallb (marked_outbound mark)) (map_get m "outbounds" ≫= as_array)
  | _ => false
  end.

(** The document on its way there. *)
Record rewriting (name : string) (m : fields) : Prop := {
  rw_keys : Forall (λ '(key, _), one_of key daemon_sections = true) m;
  rw_inbounds : ∃ l, map_get m "inbounds" = Some (JArray l) ∧ forallb (local_inbound name) l = true;
  rw_outbounds : ∃ l, map_get m "outbounds" = Some (JArray l) ∧ Forall is_object l;
  rw_routing : ∃ r, map_get m "routing" = Some (JObject r);
}.

Lemma keys_insert allowed key x m :
  one_of key allowed = true → Forall (λ '(k, _), one_of k allowed = true) m →
  Forall (λ '(k, _), one_of k allowed = true) (obj_insert key x m).
Proof.
  intros Hkey. induction 1 as [|[k y] m Hk Hm IH]; cbn [obj_insert]; [by repeat constructor|].
  case_match; by constructor.
Qed.

Lemma rewriting_insert name key x m :
  one_of key ["log"; "stats"; "policy"; "api"]%string = true →
  rewriting name m → rewriting name (obj_insert key x m).
Proof.
  intros Hkey [Hkeys (i & Hi & ?) (o & Ho & ?) (r & Hr)].
  assert (key ≠ "inbounds" ∧ key ≠ "outbounds" ∧ key ≠ "routing")%string as (? & ? & ?)
    by (split_and!; by intros ->).
  split.
  - apply keys_insert; [|done]. unfold one_of in *. apply existsb_exists in Hkey as (y & Hy & Heq).
    apply existsb_exists. exists y. split; [|done]. simpl in *. tauto.
  - exists i. by rewrite obj_get_insert_ne.
  - exists o. by rewrite obj_get_insert_ne.
  - exists r. by rewrite obj_get_insert_ne.
Qed.

Lemma rewriting_inbounds name l m :
  forallb (local_inbound name) l = true →
  rewriting name m → rewriting name (obj_insert "inbounds" (JArray l) m).
Proof.
  intros Hl [Hkeys _ Ho Hr]. split; [by apply keys_insert| |by rewrite obj_get_insert_ne..].
  exists l. by rewrite obj_get_insert.
Qed.

Lemma rewriting_outbounds name l m :
  Forall is_object l → rewriting name m → rewriting name (obj_insert "outbounds" (JArray l) m).
Proof.
  intros Hl [Hkeys Hi _ Hr]. split; [by apply keys_insert|by rewrite obj_get_insert_ne| |
                                      by rewrite obj_get_insert_ne].
  exists l. by rewrite obj_get_insert.
Qed.

Lemma rewriting_routing name r m :
  rewriting name m → rewriting name (obj_insert "routing" (JObject r) m).
Proof.
  intros [Hkeys Hi Ho _]. split; [by apply keys_insert|by rewrite obj_get_insert_ne..|].
  exists r. by rewrite obj_get_insert.
Qed.

(** ** The steps of the rewriting *)

Lemma daemon_inbounds_local name mtu mark failover pinned config :
  forallb (local_inbound name) (daemon_inbounds name mtu mark failover pinned config) = true.
Proof.
  assert (local_inbound name (tun_inbound name mtu config) = true) as Htun.
  { apply orb_true_iff. right. apply andb_true_iff. split; by apply eq_str_spec. }
  apply forallb_Forall. unfold daemon_inbounds.
  apply Forall_cons. split; [exact Htun|]. apply Forall_cons. split; [done|].
  apply Forall_app. split; apply Forall_forall; by intros ? ([] & -> & _)%list_elem_of_fmap.
Qed.

Lemma exit_listeners_local name mark exits :
  forallb (local_inbound name)
    (concat (map (λ '(i, e), exit_listeners mark i (pb_name e)) exits)) = true.
Proof.
  induction exits as [|[i e] exits IH]; cbn [map concat]; [done|]. by rewrite forallb_app.
Qed.

Section steps.
Context {S : Type} (s : S) (h : history) (name : string).

(** Nothing outside the document, and a document that is well on its way. *)
Definition leads_to (P : fields → Prop) (r : io_result Value) (s' : S) (h' : history) : Prop :=
  s' = s ∧ h' = h ∧ ∀ v, r = Ok v → ∃ m, v = JObject m ∧ P m.

Lemma leads_to_ok (P : fields → Prop) m : P m → leads_to P (Ok (JObject m)) s h.
Proof. intros HP. split_and!; [done..|]. intros v [= <-]. eauto. Qed.

Lemma leads_to_err P e : leads_to P (Err e) s h.
Proof. by split_and!. Qed.

Lemma wp_then {B} (P : fields → Prop) (m : M S (io_result Value))
    (k : Value → M S (io_result B)) (Q : io_result B → S → history → Prop) :
  wp m (leads_to P) s h → (∀ d, P d → wp (k (JObject d)) Q s h) → (∀ e, Q (Err e) s h) →
  wp (try_bind m k) Q s h.
Proof.
  intros Hm Hk HE. apply wp_try_bind. eapply wp_mono; [|exact Hm].
  intros [v|e] ?? (-> & -> & Hv); [|apply HE]. destruct (Hv v eq_refl) as (d & -> & Hd). by apply Hk.
Qed.

Lemma wp_extend_array key e (g : list Value → list Value) (P : fields → Prop) m l :
  map_get m key = Some (JArray l) → P (obj_insert key (JArray (g l)) m) →
  wp (index_mut key (array_mut e (λ l, ret (Ok (g l)))) (JObject m)) (leads_to P) s h.
Proof.
  intros Hl HP. apply wp_index_mut. rewrite Hl. cbn [unwrap_or default from_option id].
  by apply wp_array_mut, wp_ret, leads_to_ok.
Qed.

(** A change of [config["routing"]] leaves an object there. *)
Lemma wp_change_routing (f : Value → M S (io_result Value)) m :
  rewriting name m →
  (∀ r, wp (f (JObject r)) (leads_to (λ _, True)) s h) →
  wp (index_mut "routing" f (JObject m)) (leads_to (rewriting name)) s h.
Proof.
  intros Hm Hf. destruct (rw_routing _ _ Hm) as (r & Hr). apply wp_index_mut. rewrite Hr.
  cbn [unwrap_or default from_option id]. eapply wp_mono; [|apply Hf].
  intros [v|e] ?? (-> & -> & Hv); [|apply leads_to_err].
  destruct (Hv v eq_refl) as (r' & -> & _). by apply leads_to_ok, rewriting_routing.
Qed.

Lemma wp_change_rules e (g : list Value → list Value) r :
  wp (index_mut "rules" (array_mut e (λ rules, ret (Ok (g rules)))) (JObject r))
    (leads_to (λ _, True)) s h.
Proof.
  apply wp_index_mut, wp_array_mut_any; [|apply leads_to_err].
  intros rules _. by apply wp_ret, leads_to_ok.
Qed.

Lemma wp_append_outbounds e (g : list Value → list Value) m :
  rewriting name m → (∀ l, Forall is_object l → Forall is_object (g l)) →
  wp (index_mut "outbounds" (array_mut e (λ l, ret (Ok (g l)))) (JObject m))
    (leads_to (rewriting name)) s h.
Proof.
  intros Hm Hg. destruct (rw_outbounds _ _ Hm) as (l & Hl & Hobj).
  eapply wp_extend_array; [exact Hl|]. apply rewriting_outbounds; auto.
Qed.

Lemma blackhole_last l : Forall is_object l → Forall is_object (l ++ [blackhole]).
Proof. intros Hl. apply Forall_app. split; [done|]. constructor; [by eexists|done]. Qed.

Lemma wp_inject m exits mark :
  rewriting name m → wp (inject (JObject m) exits mark) (leads_to (rewriting name)) s h.
Proof.
  intros Hm. unfold inject. case_match; [by apply wp_ret, leads_to_ok|]. cbv zeta.
  eapply wp_then; [| |apply leads_to_err].
  { destruct (rw_inbounds _ _ Hm) as (l & Hl & Hlocal). eapply wp_extend_array; [exact Hl|].
    apply rewriting_inbounds; [|exact Hm]. by rewrite forallb_app, Hlocal, exit_listeners_local. }
  intros m1 Hm1. eapply wp_then; [apply wp_change_routing; [exact Hm1|]; intros; apply wp_change_rules
                                 | |apply leads_to_err].
  intros m2 Hm2. case_match; [by apply wp_ret, leads_to_ok|].
  eapply wp_then; [apply wp_change_routing; [exact Hm2|] | |apply leads_to_err].
  - intros r. apply wp_object_mut_any; [|apply leads_to_err]. intros r' _.
    apply wp_entry_mut, wp_array_mut_any; [|apply leads_to_err]. intros items _.
    by apply wp_ret, leads_to_ok.
  - intros m3 Hm3. apply wp_append_outbounds; [done|]. intros l Hl. case_match; [done|].
    by apply blackhole_last.
Qed.

(** [insert("mark", mark)] in an entry that may be missing. *)
Lemma wp_mark_sockopt mark m :
  wp (index_mut "streamSettings" (object_mut xray_rejected
    (entry_mut "sockopt" (JObject []) (object_mut xray_rejected (λ sockopt,
       ret (Ok (obj_insert "mark" (jnat mark) sockopt)))))) (JObject m))
    (leads_to (λ m, marked_outbound mark (JObject m) = true)) s h.
Proof.
  apply wp_index_mut, wp_object_mut_any; [|apply leads_to_err]. intros stream _.
  apply wp_entry_mut, wp_object_mut_any; [|apply leads_to_err]. intros sockopt _.
  apply wp_ret, leads_to_ok, orb_true_iff. right.
  repeat (rewrite index_object, obj_get_insert; cbn [unwrap_or default from_option id]).
  by apply bool_decide_true.
Qed.

Lemma wp_mark_outbound mark outbound :
  is_object outbound →
  wp (mark_outbound mark outbound) (λ r s' h', s' = s ∧ h' = h ∧
    ∀ v, r = Ok v → marked_outbound mark v = true) s h.
Proof.
  intros (m & ->). unfold mark_outbound. destruct (eq_str _ _) eqn:Hdrop.
  { apply wp_ret. split_and!; [done..|]. intros v [= <-]. unfold marked_outbound. by rewrite Hdrop. }
  apply wp_then with (P := λ _, True).
  - case_match; [by apply wp_index_set, leads_to_ok|by apply wp_ret, leads_to_ok].
  - intros d _. eapply wp_mono; [|apply wp_mark_sockopt]. intros r ?? (-> & -> & Hr).
    split_and!; [done..|]. intros v Hv. by destruct (Hr v Hv) as (m' & -> & Hm').
  - by intros e.
Qed.

Lemma wp_mark_all mark m :
  rewriting name m →
  wp (index_mut "outbounds" (array_mut xray_rejected (each_mut (mark_outbound mark))) (JObject m))
    (leads_to (λ m, confined name mark (JObject m) = true)) s h.
Proof.
  intros [Hkeys (i & Hi & Hlocal) (o & Ho & Hobj) _]. apply wp_index_mut. rewrite Ho.
  cbn [unwrap_or default from_option id]. apply wp_array_mut.
  apply wp_each_mut with (P := is_object) (R := λ v, marked_outbound mark v = true);
    [done|apply wp_mark_outbound| |by intros; apply leads_to_err].
  intros l Hl. apply leads_to_ok. unfold confined.
  rewrite obj_get_insert, obj_get_insert_ne, Hi by done. cbn.
  rewrite Hlocal, andb_true_r, (proj2 (forallb_Forall _ _) Hl), andb_true_r.
  apply forallb_Forall. eapply Forall_impl; [by apply (keys_insert daemon_sections)|]. by intros [].
Qed.

Lemma wp_set_section key x m :
  one_of key ["log"; "stats"; "policy"; "api"]%string = true → rewriting name m →
  wp (index_set key x (JObject m)) (leads_to (λ d, rewriting name d ∧ d = obj_insert key x m)) s h.
Proof. intros Hkey Hm. apply wp_index_set, leads_to_ok. split; [|done]. by apply rewriting_insert. Qed.

Lemma wp_policy m :
  rewriting name m → (∀ p, map_get m "policy" = Some p → is_object p) →
  wp (set_system_policy (JObject m)) (leads_to (rewriting name)) s h.
Proof.
  intros Hm Hpolicy.
  apply wp_then with (P := λ d, rewriting name d ∧ ∃ q, map_get d "policy" = Some (JObject q));
    [| |apply leads_to_err].
  - rewrite index_object. destruct (map_get m "policy") as [p|] eqn:Hp.
    + destruct (Hpolicy p eq_refl) as (q & ->). apply wp_ret, leads_to_ok. eauto.
    + apply wp_index_set, leads_to_ok. split; [by apply rewriting_insert|]. rewrite obj_get_insert. eauto.
  - intros d (Hd & q & Hq). apply wp_index_mut. rewrite Hq. cbn [unwrap_or default from_option id].
    by apply wp_index_set, leads_to_ok, rewriting_insert.
Qed.

Lemma rewriting_start m inbounds :
  client_shape m → forallb (local_inbound name) inbounds = true →
  rewriting name (obj_insert "inbounds" (JArray inbounds) m).
Proof.
  intros (Hkeys & (os & Hos & Hobj) & (r & Hr) & _) Hin. split.
  - apply (keys_insert daemon_sections); [done|]. eapply Forall_impl; [exact Hkeys|]. intros [k y].
    unfold one_of. intros (x & Hx & Heq)%existsb_exists.
    apply existsb_exists. exists x. split; [|done]. simpl in *. tauto.
  - exists inbounds. by rewrite obj_get_insert.
  - exists os. by rewrite obj_get_insert_ne.
  - exists r. by rewrite obj_get_insert_ne.
Qed.

Lemma wp_rewrite_config mtu mark failover pinned exits m :
  client_shape m →
  wp (rewrite_config name mtu mark failover pinned exits (JObject m))
    (leads_to (λ m, confined name mark (JObject m) = true)) s h.
Proof.
  intros Hm. unfold rewrite_config. cbv zeta. set (inbounds := daemon_inbounds _ _ _ _ _ _).
  assert (rewriting name (obj_insert "inbounds" (JArray inbounds) m)) as Hrw.
  { apply rewriting_start; [exact Hm|apply daemon_inbounds_local]. }
  assert (∀ p, map_get (obj_insert "inbounds" (JArray inbounds) m) "policy" = Some p → is_object p)
    as Hpolicy by (rewrite obj_get_insert_ne by done; apply Hm).
  eapply wp_then; [apply wp_index_set, (leads_to_ok (λ d, d = obj_insert "inbounds" (JArray inbounds) m));
                   reflexivity | |apply leads_to_err]. intros ? ->.
  eapply wp_then; [by apply wp_set_section| |apply leads_to_err]. intros ? (Hrw1 & ->).
  eapply wp_then; [by apply wp_set_section| |apply leads_to_err]. intros ? (Hrw2 & ->).
  eapply wp_then; [apply wp_policy; [exact Hrw2|]| |apply leads_to_err].
  { intros p Hp. rewrite 2!obj_get_insert_ne in Hp by done. by apply Hpolicy. }
  intros d1 Hd1. eapply wp_then; [by apply wp_set_section| |apply leads_to_err]. intros d2 (Hd2 & _).
  eapply wp_then; [apply wp_change_routing; [exact Hd2|]; intros; apply wp_change_rules
                  | |apply leads_to_err]. intros d3 Hd3.
  eapply wp_then; [|intros d4 Hd4|apply leads_to_err].
  { instantiate (1 := rewriting name). case_match; [|by apply wp_ret, leads_to_ok].
    apply wp_append_outbounds; [done|apply blackhole_last]. }
  eapply wp_then; [by apply wp_inject| |apply leads_to_err]. intros d5 Hd5.
  by apply wp_mark_all.
Qed.

End steps.

(** ** The plan *)

Definition plan_ok (params : XrayConnectParams) (mark : Z) (plan : XrayPlan) : Prop :=
  (∃ config, from_str (xl_config plan) = Some config ∧ confined (xl_name plan) mark config = true) ∧
  iface_name_acceptable (xl_name plan) ∧ xl_mark plan = mark ∧ (1280 ≤ xl_mtu plan ≤ 9000)%Z ∧
  Forall (λ server, ∃ route, route ∈ xl_routes plan ∧ contains_ip (pr_destination route) server = true)
    (xl_dns_servers plan) ∧
  (length (xl_pinned_keys plan) ≤ 33)%nat.

Lemma coverage_servers params :
  xray_coverage_ok params = true →
  Forall (λ server, ∃ route, route ∈ xq_routes params ∧ contains_ip (pr_destination route) server = true)
    (xq_dns_servers params).
Proof.
  unfold xray_coverage_ok. destruct (full_coverage _). intros [_ Hall%forallb_Forall]%andb_true_iff.
  eapply Forall_impl; [exact Hall|]. intros server (net & Hnet & Hin)%existsb_exists.
  apply list_elem_of_In, list_elem_of_fmap in Hnet as (route & -> & Hroute). eauto.
Qed.

Lemma xray_name_ok uid profile_id hint :
  iface_name_acceptable (tunnel_link_names "xray-" uid profile_id hint).1.
Proof.
  apply name_ok_valid, tunnel_link_names_ok. by split_and!; [| |simpl; lia].
Qed.

Definition prepared {S} (params : XrayConnectParams) (mark : Z) (s : S) (h : history)
    (r : io_result XrayPlan) (s' : S) (h' : history) : Prop :=
  s' = s ∧ h' = h ∧ ∀ plan, r = Ok plan → plan_ok params mark plan.

Lemma wp_prepare_xray {S} (s : S) (h : history) uid params mark :
  (∀ config, from_str (xq_config params) = Some config → validate_generated config ≠ Panics) →
  wp (prepare_xray uid params mark) (prepared params mark s h) s h.
Proof.
  intros Hpanic. assert (∀ e, prepared params mark s h (Err e) s h) as HE by (by intros e; unfold prepared; split_and!).
  unfold prepare_xray. wp_steps. case_match; [|apply HE]. case_match; [apply wp_ret, HE|].
  wp_steps. case_match; [|apply HE]. case_match eqn:Hok; [apply wp_ret, HE|].
  apply negb_false_iff in Hok. apply andb_true_iff in Hok as [_ Hcover].
  wp_steps. destruct (from_str _) as [config|] eqn:Hconfig; cbn [ok_or]; [|apply HE].
  specialize (Hpanic config eq_refl). wp_steps. unfold run_check.
  destruct (validate_generated config) eqn:Hvalid; [|apply wp_ret, HE|done].
  destruct (validate_generated_shape _ Hvalid) as (m & -> & Hshape). apply wp_ret.
  wp_steps. case_match; [|apply HE]. wp_steps. case_match; [|apply HE].
  wp_steps. case_match; [|apply HE].
  destruct (tunnel_link_names _ _ _ _) as [name fallback] eqn:Hname.
  wp_steps. case_match; [|apply HE]. case_match eqn:Hmtu; [apply wp_ret, HE|].
  wp_steps. case_match; [|apply HE]. case_match; [apply wp_ret, HE|].
  case_match eqn:Hpins; [apply wp_ret, HE|].
  eapply wp_then; [by apply wp_rewrite_config| |apply HE].
  intros d Hd. wp_steps. destruct (to_string _) as [config_text|] eqn:Htext; cbn [ok_or]; [|apply HE].
  apply wp_ret. split_and!; [done..|]. intros plan [= <-]. split_and!; cbn.
  - eexists. split; [by apply from_str_to_string|exact Hd].
  - change name with (name, fallback).1. rewrite <- Hname. apply xray_name_ok.
  - done.
  - unfold in_range in Hmtu. lia.
  - unfold in_range in Hmtu. lia.
  - by apply coverage_servers.
  - apply Nat.ltb_ge in Hpins. done.
Qed.

(** ** Checks that return *)

(** [v] has all of [keys], if it is a map. *)
Definition has_keys (keys : list string) (v : Value) : bool :=
  match v with JObject m => forallb (λ key, is_some (map_get m key)) keys | _ => true end.

Definition items_have (p : Value → bool) (v : Value) : bool :=
  match v with JArray items => forallb p items | _ => true end.

Definition complete_outbound (outbound : Value) : bool :=
  has_keys ["type"%string] (index (index (index outbound "streamSettings") "tcpSettings") "header")
  && has_keys ["type"%string] (index (index outbound "settings") "response").

(** Every map the code indexes has the keys it indexes. *)
Definition complete (config : Value) : bool :=
  items_have (has_keys ["address"%string]) (index (index config "dns") "servers")
  && items_have (has_keys ["ipPool"; "poolSize"]%string) (index config "fakedns")
  && items_have complete_outbound (index config "outbounds")
  && items_have (has_keys ["tag"; "selector"]%string) (index (index config "routing") "balancers").

Lemma returns_and c d : c ≠ Panics → d ≠ Panics → check_and c d ≠ Panics.
Proof. by destruct c. Qed.

Lemma returns_require b : require b ≠ Panics.
Proof. by destruct b. Qed.

Lemma returns_all {A} (f : A → check) l : (∀ x, x ∈ l → f x ≠ Panics) → check_all f l ≠ Panics.
Proof.
  induction l as [|x l IH]; intros Hf; simpl; [done|].
  apply returns_and; [apply Hf; left|apply IH; intros y Hy; apply Hf; by right].
Qed.

Lemma returns_object v allowed k : (∀ m, v = JObject m → k m ≠ Panics) → with_object v allowed k ≠ Panics.
Proof. intros Hk. destruct v; try done. apply returns_and; [apply returns_require|by apply Hk]. Qed.

Lemma returns_field m key f : (∀ x, map_get m key = Some x → f x ≠ Panics) → if_field m key f ≠ Panics.
Proof. unfold if_field. destruct (map_get m key); auto. Qed.

Lemma returns_index m key k :
  is_some (map_get m key) = true → (∀ x, k x ≠ Panics) → map_index m key k ≠ Panics.
Proof. unfold map_index. destruct (map_get m key); auto. Qed.

Lemma returns_one v k : (∀ x, v = JArray [x] → k x ≠ Panics) → with_one v k ≠ Panics.
Proof. intros Hk. destruct v as [| | | |[|x []]|]; try done. by apply Hk. Qed.

Lemma returns_each lo hi f v :
  (∀ items x, v = JArray items → x ∈ items → f x ≠ Panics) → each_of lo hi f v ≠ Panics.
Proof.
  intros Hf. destruct v; try done. apply returns_and; [apply returns_require|].
  apply returns_all. intros x Hx. by eapply Hf.
Qed.

(** The checks with no such map in them. *)
Ltac returns :=
  repeat first
    [ apply returns_require | apply returns_and | apply returns_object; (intros ? -> || intros ? _)
    | apply returns_field; intros ? ? | apply returns_one; intros ? ?
    | apply returns_each; intros ? ? ? ? | apply returns_all; intros ? ?
    | done | case_match ].

Lemma index_get m key x : map_get m key = Some x → index (JObject m) key = x.
Proof. intros Hx. by rewrite index_object, Hx. Qed.

Lemma returns_dns_server server :
  has_keys ["address"%string] server = true → dns_server_ok server ≠ Panics.
Proof.
  intros Hkeys. destruct server as [| | | | |m]; try done; [apply returns_require|].
  apply returns_object. intros m' [= <-]. apply andb_true_iff in Hkeys as [Ha _].
  apply returns_and; [|returns]. apply returns_index; [done|]. intros ?. apply returns_require.
Qed.

Lemma returns_fakedns_pool pool :
  has_keys ["ipPool"; "poolSize"]%string pool = true → fakedns_pool pool ≠ Panics.
Proof.
  intros Hkeys. apply returns_object. intros m ->.
  apply andb_true_iff in Hkeys as [Hi [Hp _]%andb_true_iff].
  apply returns_and; (apply returns_index; [done|]); intros ?; apply returns_require.
Qed.

Lemma returns_tcp_settings tcp :
  has_keys ["type"%string] (index tcp "header") = true → validate_tcp_settings tcp ≠ Panics.
Proof.
  intros Hkeys. apply returns_object. intros m ->. apply returns_field. intros header Hheader.
  rewrite (index_get _ _ _ Hheader) in Hkeys. apply returns_object. intros m' ->.
  apply andb_true_iff in Hkeys as [Ht _]. apply returns_index; [done|]. intros ?. apply returns_require.
Qed.

Lemma returns_auxiliary_settings protocol settings :
  has_keys ["type"%string] (index settings "response") = true →
  validate_auxiliary_settings protocol settings ≠ Panics.
Proof.
  intros Hkeys. unfold validate_auxiliary_settings. case_match; [returns|]. case_match.
  - apply returns_object. intros m ->. apply returns_field. intros response Hr.
    rewrite (index_get _ _ _ Hr) in Hkeys. apply returns_object. intros m' ->.
    apply andb_true_iff in Hkeys as [Ht _]. apply returns_index; [done|]. intros ?. apply returns_require.
  - case_match; [|done]. apply returns_object. intros m ->. apply returns_all. intros [key value] _.
    unfold dns_outbound_field, validate_dns_rewrite_rule. returns.
Qed.

Lemma returns_stream_tcp stream m :
  stream = JObject m →
  has_keys ["type"%string] (index (index stream "tcpSettings") "header") = true →
  if_field m "tcpSettings" validate_tcp_settings ≠ Panics.
Proof.
  intros -> Hkeys. apply returns_field. intros tcp Htcp. apply returns_tcp_settings.
  by rewrite (index_get _ _ _ Htcp) in Hkeys.
Qed.

Lemma returns_vless_stream stream :
  has_keys ["type"%string] (index (index stream "tcpSettings") "header") = true →
  validate_vless_stream stream ≠ Panics.
Proof.
  intros Hkeys. apply returns_object. intros m Hm.
  apply returns_and; [by eapply returns_stream_tcp|]. unfold validate_sockopt, stream_field. returns.
Qed.

Lemma returns_hysteria_stream stream : validate_hysteria_stream stream ≠ Panics.
Proof. unfold validate_hysteria_stream, validate_finalmask. returns. Qed.

Lemma returns_auxiliary m :
  complete_outbound (JObject m) = true → validate_auxiliary (JObject m) m ≠ Panics.
Proof.
  intros [Htcp Hresponse]%andb_true_iff. apply returns_and; apply returns_field; intros x Hx.
  - apply returns_auxiliary_settings. by rewrite (index_get _ _ _ Hx) in Hresponse.
  - rewrite (index_get _ _ _ Hx) in Htcp. apply returns_object. intros stream Hstream.
    apply returns_and; [apply returns_require|]. apply returns_and; [by eapply returns_stream_tcp|].
    unfold validate_sockopt. returns.
Qed.

Lemma returns_outbound tags outbound :
  complete_outbound outbound = true → outbound_ok tags outbound ≠ Panics.
Proof.
  intros Hc. apply returns_object. intros m ->. apply returns_and; [apply returns_require|].
  apply returns_and; [unfold validate_mux; returns|]. destruct (index _ "protocol"); try done.
  apply returns_and; [apply returns_require|]. unfold protocol_ok. case_match.
  - unfold vless_ok. apply returns_and.
    + unfold vless_server_ok, vless_user_ok. returns.
    + apply returns_vless_stream. by apply andb_true_iff in Hc as [? _].
  - case_match; [|case_match; [by apply returns_auxiliary|done]].
    unfold hysteria_ok. apply returns_and; [apply returns_require|apply returns_hysteria_stream].
Qed.

Lemma returns_outbounds os tags p f k :
  forallb complete_outbound os = true → (∀ tags p f, k tags p f ≠ Panics) →
  validate_outbounds tags p f os k ≠ Panics.
Proof.
  intros Hos Hk. revert tags p f Hos.
  induction os as [|o os IH]; intros tags p f Hos; cbn [validate_outbounds]; [apply Hk|].
  apply andb_true_iff in Hos as [Ho Hos]. apply returns_and; [by apply returns_outbound|by apply IH].
Qed.

Lemma items_have_elem p items x : items_have p (JArray items) = true → x ∈ items → p x = true.
Proof. simpl. rewrite forallb_Forall, Forall_forall. auto. Qed.

Lemma returns_routing tags routing :
  items_have (has_keys ["tag"; "selector"]%string) (index routing "balancers") = true →
  routing_ok tags routing ≠ Panics.
Proof.
  intros Hb. apply returns_object. intros m ->. apply returns_and; [|unfold rule_ok; returns].
  apply returns_field. intros x Hx. rewrite (index_get _ _ _ Hx) in Hb.
  apply returns_one. intros balancer ->. apply returns_object. intros b ->.
  cbn [items_have forallb] in Hb. rewrite andb_true_r in Hb.
  apply andb_true_iff in Hb as [Ht [Hs _]%andb_true_iff].
  apply returns_and; (apply returns_index; [done|]); intros ?; returns.
Qed.

Lemma complete_returns config : complete config = true → validate_generated config ≠ Panics.
Proof.
  unfold complete. rewrite !andb_true_iff. intros [[[Hdns Hfake] Hout] Hrouting].
  apply returns_object. intros m ->.
  apply returns_and; [apply returns_require|]. apply returns_and.
  { apply returns_field. intros dns Hd. rewrite (index_get _ _ _ Hd) in Hdns.
    apply returns_object. intros d ->. do 4 (apply returns_and; [apply returns_require|]).
    apply returns_field. intros servers Hs. rewrite (index_get _ _ _ Hs) in Hdns.
    apply returns_each. intros items x -> Hx. by eapply returns_dns_server, items_have_elem. }
  apply returns_and.
  { apply returns_field. intros fake Hf. rewrite (index_get _ _ _ Hf) in Hfake.
    apply returns_each. intros items x -> Hx. by eapply returns_fakedns_pool, items_have_elem. }
  apply returns_and; [unfold validate_policy; returns|].
  apply returns_and; [unfold inbound_ok, validate_sniffing; returns|].
  destruct (map_get m "outbounds") as [[| | | |os|]|] eqn:Hos; try done.
  rewrite (index_get _ _ _ Hos) in Hout. apply returns_and; [apply returns_require|].
  apply returns_outbounds; [done|]. intros tags p f.
  apply returns_and; [apply returns_require|by apply returns_routing].
Qed.

End plan.
