(* ===== verification/XrayTheorems.v ===== *)
(** * Xray connections: what a request becomes

    The configuration stays confined when its server names are replaced by
    addresses, the theorems on [prepare_xray] and [pin_server_addresses], and
    the loopback ports of the daemon's listeners. *)

From S2P Require Export XrayProps.

(** ** Replacing addresses *)

Lemma index_insert key x m : index (JObject (obj_insert key x m)) key = x.
Proof. by rewrite index_object, obj_get_insert. Qed.

Lemma index_insert_ne key key' x m :
  key ≠ key' → index (JObject (obj_insert key x m)) key' = index (JObject m) key'.
Proof. intros Hne. by rewrite !index_object, obj_get_insert_ne. Qed.

(** Something can be read below it, so it is a map. *)
Lemma index_is_object v key : index v key ≠ JNull → is_object v.
Proof. destruct v; try done. by eexists. Qed.

Lemma index_at_is_array v i : index_at v i ≠ JNull → ∃ items x, v = JArray items ∧ items !! i = Some x.
Proof.
  destruct v as [| | | |items|]; try done. simpl. destruct (items !! i) as [x|] eqn:Hx; [|done]. eauto.
Qed.

Lemma unwrap_get m key : unwrap_or (map_get m key) JNull = index (JObject m) key.
Proof. done. Qed.

Section pin.
Context `{IpNetLib} `{UrlLib} `{JsonText} {S : Type}.
Implicit Types (s : S) (h : history).
Context (show_ip : IpAddr → string).
Context (resolve : string → M S (list IpAddr)).

(** The text of an address reads back. *)
Definition readable (a : IpAddr) : Prop := parse_ip (show_ip a) = Some a.

Context (Hresolve : ∀ host s h, wp (resolve host) (λ r _ _, Forall readable r) s h).

Definition is_literal (host : string) : bool := is_some (parse_ip host).

(** A proxy's protocol and stream are those of [o]. *)
Definition same_outbound (o o' : Value) : Prop :=
  is_object o' ∧ index o' "protocol" = index o "protocol" ∧
  index o' "streamSettings" = index o "streamSettings".

Lemma wp_below key (f : Value → M S (io_result Value)) m (R : Value → Prop) s h :
  wp (f (index (JObject m) key)) (λ r _ _, ∃ x, r = Ok x ∧ R x) s h →
  wp (index_mut key f (JObject m)) (λ r _ _, ∃ x, r = Ok (JObject (obj_insert key x m)) ∧ R x) s h.
Proof.
  intros Hf. apply wp_index_mut. rewrite unwrap_get. eapply wp_mono; [|exact Hf].
  intros ? ?? (x & -> & HR). eauto.
Qed.

Lemma wp_set_address o host address s h :
  is_object o → server_host o = Some host →
  wp (set_address (jstr address) o) (λ r _ _, ∃ o', r = Ok o' ∧ same_outbound o o' ∧
    server_host o' = Some address) s h.
Proof.
  intros (m & ->). unfold server_host, set_address. destruct (eq_str _ "vless") eqn:Hvless.
  - intros Haddr.
    assert (index_at (index (index (JObject m) "settings") "vnext") 0 ≠ JNull) as Hat
      by (by intros Hnull; rewrite Hnull in Haddr).
    destruct (index_at_is_array _ _ Hat) as (items & x & Hitems & Hx).
    assert (is_object x) as (server & ->).
    { rewrite Hitems in Haddr. cbn [index_at] in Haddr. rewrite Hx in Haddr. by destruct x; simplify_eq/=; eexists. }
    assert (is_object (index (JObject m) "settings")) as (settings & Hsettings)
      by (apply (index_is_object _ "vnext"); by rewrite Hitems).
    rewrite Hsettings in Hitems.
    eapply wp_mono; [|apply wp_below with (R := λ x, as_str (index (index_at (index x "vnext") 0) "address") = Some address)].
    { intros r ?? (y & -> & Hy). eexists. split; [done|]. split.
      - split_and!; [by eexists| |]; by rewrite index_insert_ne.
      - by rewrite !index_insert, index_insert_ne, Hvless. }
    rewrite Hsettings. eapply wp_mono; [|apply wp_below with (R := λ x, as_str (index (index_at x 0) "address") = Some address)].
    { intros r ?? (y & -> & Hy). eexists. split; [done|]. by rewrite index_insert. }
    rewrite Hitems. cbn [index_at_mut]. rewrite Hx. apply wp_try_bind, wp_index_set, wp_ret.
    eexists. split; [done|]. cbn [index_at].
    rewrite list_lookup_insert_eq by (by eapply lookup_lt_Some). cbn [unwrap_or default from_option id].
    by rewrite index_insert.
  - destruct (eq_str _ "hysteria") eqn:Hhy; [|done]. intros Haddr.
    assert (is_object (index (JObject m) "settings")) as (settings & Hsettings)
      by (apply (index_is_object _ "address"); by intros Hnull; rewrite Hnull in Haddr).
    eapply wp_mono; [|apply wp_below with (R := λ x, as_str (index x "address") = Some address)].
    { intros r ?? (y & -> & Hy). eexists. split; [done|]. split.
      - split_and!; [by eexists| |]; by rewrite index_insert_ne.
      - by rewrite !index_insert, index_insert_ne, Hvless, Hhy. }
    rewrite Hsettings. apply wp_index_set. eexists. split; [done|]. by rewrite index_insert.
Qed.

(** What naming the server in the stream leaves alone. *)
Definition same_server (o o' : Value) : Prop :=
  is_object o' ∧ index o' "protocol" = index o "protocol" ∧
  index o' "settings" = index o "settings" ∧ is_object (index o' "streamSettings") ∧
  index (index o' "streamSettings") "sockopt" = index (index o "streamSettings") "sockopt".

Lemma wp_keep_server_name o host security s h :
  is_object o → is_object (index o "streamSettings") → security ≠ "sockopt"%string →
  wp (keep_server_name host security o) (λ r _ _, ∃ o', r = Ok o' ∧ same_server o o') s h.
Proof.
  intros (m & ->) (stream & Hstream) Hsec. unfold keep_server_name.
  eapply wp_mono; [|apply wp_below with (R := λ x, is_object x ∧ index x "sockopt" = index (JObject stream) "sockopt")].
  - intros r ?? (x & -> & Hx & Hsock). eexists. split; [done|]. split_and!.
    + by eexists.
    + by rewrite index_insert_ne.
    + by rewrite index_insert_ne.
    + by rewrite index_insert.
    + by rewrite index_insert, Hsock, Hstream.
  - rewrite Hstream. eapply wp_mono; [|apply wp_below with (R := λ _, True); by apply wp_ret; eexists].
    intros r ?? (x & -> & _). eexists. split; [done|]. split; [by eexists|]. by rewrite index_insert_ne.
Qed.

(** An outbound before and after: it still carries its mark, and its server
    is a literal unless its name was left in [unpinned]. *)
Definition pins (mark : Z) (unpinned : list string) (all_pinned : bool) (o : Value) : Prop :=
  marked_outbound mark o = true ∧
  ∀ host, server_host o = Some host → is_literal host = true ∨ (host ∈ unpinned ∧ all_pinned = false).

Lemma pins_weaken mark u u' a a' o :
  u ⊆ u' → (a' = true → a = true) → pins mark u a o → pins mark u' a' o.
Proof.
  intros Hu Ha [Hm Hs]. split; [done|]. intros host Hh. destruct (Hs host Hh) as [Hl|[Hin Hf]]; [by left|].
  right. split; [by apply Hu|]. destruct a'; [|done]. by rewrite Ha in Hf.
Qed.

(** Every address resolved so far. *)
Definition all_readable (pg : Pinning) : Prop :=
  Forall (λ '(_, address), ∀ a, address = Some a → readable a) (pg_resolved pg).

Lemma preferred_readable addresses a :
  Forall readable addresses → preferred addresses = Some a → readable a.
Proof.
  intros Hall. unfold preferred. destruct (List.find _ _) as [b|] eqn:Hfind.
  - intros [= <-]. apply find_some in Hfind as [Hin%list_elem_of_In _]. exact (proj1 (Forall_forall _ _) Hall b Hin).
  - destruct Hall; [done|]. by intros [= <-].
Qed.

Lemma wp_resolve_once pg host s h :
  all_readable pg →
  wp (resolve_once resolve pg host) (λ r _ _,
    pg_unpinned r.1 = pg_unpinned pg ∧ pg_all_pinned r.1 = pg_all_pinned pg ∧
    all_readable r.1 ∧ ∀ a, r.2 = Some a → readable a) s h.
Proof.
  intros Hpg. unfold resolve_once. destruct (List.find _ _) as [[known address]|] eqn:Hfind.
  { apply wp_ret. split; [done|]. split; [done|]. split; [done|]. apply find_some in Hfind as [Hin%list_elem_of_In _].
    intros a Ha. exact (proj1 (Forall_forall _ _) Hpg _ Hin a Ha). }
  apply wp_bind. eapply wp_mono; [|apply Hresolve]. intros addresses s' h' Hall. cbv beta in Hall. apply wp_ret.
  assert (∀ a, preferred addresses = Some a → readable a) by (intros; by eapply preferred_readable).
  split_and!; [done..| |done]. apply Forall_app. split; [exact Hpg|]. by constructor.
Qed.

Lemma marked_proxy mark o host :
  marked_outbound mark o = true → server_host o = Some host →
  is_object o ∧ is_object (index o "streamSettings") ∧
  as_u64 (index (index (index o "streamSettings") "sockopt") "mark") = Some mark.
Proof.
  intros Hmark Hhost. apply orb_true_iff in Hmark as [Hdrop|Hmark%bool_decide_eq_true].
  - apply eq_str_spec in Hdrop. unfold server_host in Hhost. by rewrite Hdrop in Hhost.
  - split_and!; [| |done].
    + apply (index_is_object _ "streamSettings"). intros Hnull. by rewrite Hnull in Hmark.
    + apply (index_is_object _ "sockopt"). intros Hnull. by rewrite Hnull in Hmark.
Qed.

Lemma same_outbound_marked mark o o1 o2 o3 :
  same_outbound o o1 → same_server o1 o2 → same_server o2 o3 →
  marked_outbound mark o = true → marked_outbound mark o3 = true ∧ server_host o3 = server_host o1.
Proof.
  intros (_ & Hp1 & Hs1) (_ & Hp2 & Ht2 & _ & Hk2) (_ & Hp3 & Ht3 & _ & Hk3).
  unfold marked_outbound, server_host. by rewrite Hk3, Hk2, Hs1, Ht3, Ht2, Hp3, Hp2, Hp1.
Qed.

Lemma wp_pin_outbound mark pg o s h :
  marked_outbound mark o = true → all_readable pg →
  wp (pin_outbound show_ip resolve pg o) (λ r _ _, ∃ pg' o', r = Ok (pg', o') ∧ all_readable pg' ∧
    pins mark (pg_unpinned pg') (pg_all_pinned pg') o' ∧
    pg_unpinned pg ⊆ pg_unpinned pg' ∧ (pg_all_pinned pg' = true → pg_all_pinned pg = true)) s h.
Proof.
  intros Hmark Hpg. unfold pin_outbound. destruct (server_host o) as [host|] eqn:Hhost.
  2: { apply wp_ret. do 2 eexists. split; [done|]. split; [done|]. split; [|done]. split; [done|]. by rewrite Hhost. }
  destruct (is_some (parse_ip host)) eqn:Hlit.
  { apply wp_ret. do 2 eexists. split; [done|]. split; [done|]. split; [|done]. split; [done|].
    rewrite Hhost. intros ? [= <-]. by left. }
  assert (∀ pg, pins mark (pg_unpinned (leave_unpinned pg host)) false o) as Hleft.
  { intros pg0. split; [done|]. rewrite Hhost. intros ? [= <-]. right. split; [|done]. cbn.
    destruct (vec_contains _ _) eqn:Hin; [by apply vec_contains_spec in Hin|].
    apply elem_of_app. right. by left. }
  assert (∀ pg, pg_unpinned pg ⊆ pg_unpinned (leave_unpinned pg host)) as Hgrow.
  { intros pg0. cbn. case_match; [done|]. set_solver. }
  apply wp_bind.
  eapply (wp_mono _ (λ r _ _, pg_unpinned r.1 = pg_unpinned pg ∧ pg_all_pinned r.1 = pg_all_pinned pg ∧
    all_readable r.1 ∧ ∀ a, r.2 = Some a → readable a)).
  2: { case_match; [by apply wp_resolve_once|by apply wp_ret]. }
  intros [pg1 [address|]] s1 h1 (Hu & Ha & Hpg1 & Hread); cbn [fst snd] in *.
  2: { apply wp_ret. do 2 eexists. split; [done|]. split; [done|]. split; [apply Hleft|]. split; [|done].
       rewrite <- Hu. apply Hgrow. }
  destruct (marked_proxy _ _ _ Hmark Hhost) as (Hobj & Hstream & _).
  apply wp_try_bind. eapply wp_mono; [|by eapply wp_set_address].
  intros r ?? (o1 & -> & Hsame & Hhost1). destruct Hsame as (Hobj1 & Hp1 & Hs1).
  apply wp_try_bind. eapply wp_mono; [|apply wp_keep_server_name; [done|by rewrite Hs1|done]].
  intros r ?? (o2 & -> & Hsame2). pose proof Hsame2 as (Hobj2 & _ & _ & Hstream2 & _).
  apply wp_try_bind. eapply wp_mono; [|by apply wp_keep_server_name].
  intros r ?? (o3 & -> & Hsame3). apply wp_ret.
  destruct (same_outbound_marked mark o o1 o2 o3) as [Hmark3 Hhost3]; [by split_and!|done..|].
  do 2 eexists. split; [done|]. rewrite Hu, Ha. split; [done|]. split; [|done]. split; [done|].
  rewrite Hhost3, Hhost1. intros ? [= <-]. left. unfold is_literal. by rewrite (Hread _ eq_refl).
Qed.

Lemma wp_pin_outbounds mark outbounds pg s h :
  forallb (marked_outbound mark) outbounds = true → all_readable pg →
  wp (pin_outbounds show_ip resolve pg outbounds) (λ r _ _, ∃ pg' os, r = Ok (pg', os) ∧
    Forall (pins mark (pg_unpinned pg') (pg_all_pinned pg')) os ∧
    pg_unpinned pg ⊆ pg_unpinned pg' ∧ (pg_all_pinned pg' = true → pg_all_pinned pg = true)) s h.
Proof.
  revert pg s h. induction outbounds as [|o outbounds IH]; intros pg s h Hmarks Hpg; cbn [pin_outbounds].
  { apply wp_ret. do 2 eexists. split; [done|]. split; [constructor|done]. }
  apply andb_true_iff in Hmarks as [Hmark Hmarks].
  apply wp_try_bind. eapply wp_mono; [|by apply wp_pin_outbound].
  intros r s1 h1 (pg1 & o1 & -> & Hpg1 & Hpin & Hu1 & Ha1).
  apply wp_try_bind. eapply wp_mono; [|by apply IH].
  intros r s2 h2 (pg2 & os & -> & Hpins & Hu2 & Ha2). apply wp_ret.
  do 2 eexists. split; [done|]. split; [|split; [by etrans|auto]].
  constructor; [|done]. by eapply pins_weaken.
Qed.

(** The plan before and after. *)
Definition pinned_well (mark : Z) (plan plan' : XrayPlan) : Prop :=
  ∃ m outbounds, from_str (xl_config plan') = Some (JObject m) ∧
    map_get m "outbounds" = Some (JArray outbounds) ∧
    confined (xl_name plan) mark (JObject m) = true ∧
    (xl_server_pinned plan' = true →
       xl_server_hosts plan' = omap server_host outbounds ∧
       Forall (λ host, is_literal host = true) (xl_server_hosts plan')) ∧
    (xl_server_pinned plan' = false → xl_config plan' ≠ xl_config plan →
       Forall (λ host, is_literal host = true ∨ host ∈ xl_unpinned_hosts plan') (xl_server_hosts plan')).

Lemma confined_get name mark m :
  confined name mark (JObject m) = true →
  ∃ os, map_get m "outbounds" = Some (JArray os) ∧ forallb (marked_outbound mark) os = true.
Proof.
  unfold confined. intros [_ Hos]%andb_true_iff.
  destruct (map_get m "outbounds") as [[| | | |os|]|]; try done. eauto.
Qed.

Lemma confined_replace name mark m os :
  confined name mark (JObject m) = true → forallb (marked_outbound mark) os = true →
  confined name mark (JObject (obj_insert "outbounds" (JArray os) m)) = true.
Proof.
  unfold confined. rewrite !andb_true_iff. intros [[Hkeys Hin] _] Hos.
  rewrite obj_get_insert, obj_get_insert_ne by done. split_and!; [|done|done].
  apply forallb_Forall in Hkeys. apply forallb_Forall.
  eapply Forall_impl; [apply (keys_insert daemon_sections "outbounds"); [done|]|by intros []].
  eapply Forall_impl; [exact Hkeys|by intros []].
Qed.

Lemma pins_hosts mark u a os :
  Forall (pins mark u a) os →
  Forall (λ host, is_literal host = true ∨ (host ∈ u ∧ a = false)) (omap server_host os).
Proof.
  induction 1 as [|o os [_ Ho] _ IH]; simpl; [constructor|].
  destruct (server_host o); simpl; [|done]. constructor; auto.
Qed.

Lemma wp_pin_server_addresses mark plan config s h :
  from_str (xl_config plan) = Some config → confined (xl_name plan) mark config = true →
  xl_server_pinned plan = false →
  wp (pin_server_addresses show_ip resolve plan)
    (λ r _ _, ∃ plan', r = Ok plan' ∧ pinned_well mark plan plan') s h.
Proof.
  intros Hconfig Hconf Hfresh. unfold pin_server_addresses. rewrite Hconfig.
  destruct config as [| | | | |m]; try done. destruct (confined_get _ _ _ Hconf) as (os & Hos & Hmarks).
  rewrite Hos. apply wp_try_bind. eapply wp_mono; [|by apply wp_pin_outbounds; [|constructor]].
  intros r s' h' (pg & os' & -> & Hpins & _ & _). apply wp_ret. eexists. split; [done|].
  destruct (to_string _) as [text|] eqn:Htext.
  - apply from_str_to_string in Htext. eexists _, os'. split; [exact Htext|].
    split; [apply obj_get_insert|]. split; [|split].
    + apply confined_replace; [done|]. apply forallb_Forall. eapply Forall_impl; [exact Hpins|].
      by intros o [? _].
    + cbn. intros Ha. split; [done|]. eapply Forall_impl; [by eapply pins_hosts|]. cbn.
      intros host [?|[_ ?]]; congruence.
    + cbn. intros _ _. eapply Forall_impl; [by eapply pins_hosts|]. cbn. intros host [?|[? _]]; auto.
  - exists m, os. split_and!; [done..| |]; cbn; [by rewrite Hfresh|done].
Qed.

End pin.

(** ** Listener ports *)

(** A loopback listener of one tunnel. *)
Inductive listener : Type :=
| ApiListener
| ProbeListener (index : nat)
| PinListener (index : nat)
| SocksListener (index : nat)
| HttpListener (index : nat).

Definition listener_port (mark : Z) (l : listener) : Z :=
  match l with
  | ApiListener => xray_api_port mark
  | ProbeListener index => xray_probe_port mark index
  | PinListener index => xray_pin_probe_port mark index
  | SocksListener index => (exit_ports mark index).1
  | HttpListener index => (exit_ports mark index).2
  end.

(** The indices the checks leave: 8 failover nodes, 33 pins, 16 exits. *)
Definition listener_bound (l : listener) : Prop :=
  match l with
  | ApiListener => True
  | ProbeListener index => index < MAX_FAILOVER_NODES
  | PinListener index => index ≤ 32
  | SocksListener index | HttpListener index => index < MAX_PROXY_EXITS
  end.

(** The 128 policy slots. *)
Definition slot_mark (mark : Z) : Prop := (POLICY_MARK_BASE ≤ mark < POLICY_MARK_BASE + 128)%Z.

(** The port without the wrap-around. *)
Definition plain_port (slot : Z) (l : listener) : Z :=
  match l with
  | ApiListener => 10185 + slot
  | ProbeListener index => 11185 + slot * 8 + Z.of_nat index
  | PinListener index => 13000 + slot * 40 + Z.of_nat index
  | SocksListener index => 24000 + slot * 32 + Z.of_nat index * 2
  | HttpListener index => 24000 + slot * 32 + Z.of_nat index * 2 + 1
  end.

Lemma listener_port_plain mark l :
  slot_mark mark → listener_bound l → listener_port mark l = plain_port (mark - POLICY_MARK_BASE) l.
Proof.
  unfold slot_mark, POLICY_MARK_BASE. intros Hm Hl.
  assert (listener_slot mark = mark - 51820)%Z as Hslot by (unfold listener_slot, POLICY_MARK_BASE; lia).
  destruct l; cbn in Hl |- *; unfold MAX_FAILOVER_NODES, MAX_PROXY_EXITS in Hl;
    unfold xray_api_port, xray_probe_port, xray_pin_probe_port, u16_or, exit_ports,
      API_PORT_BASE, PROBE_PORT_BASE; cbn [fst snd]; rewrite Hslot.
  - destruct (Z.ltb_spec (10185 + (mark - 51820)) 65536); lia.
  - rewrite Z.min_l by lia. destruct (Z.ltb_spec (11185 + (mark - 51820) * 8 + Z.of_nat index) 65536); lia.
  - rewrite Z.min_l by lia. by rewrite Z.mod_small by lia.
  - by rewrite Z.mod_small by lia.
  - by rewrite Z.mod_small by lia.
Qed.

(** C37 (listener ports). Every loopback listener of every tunnel has a port
    of its own, unprivileged and within 16 bits: two listeners share a port
    only if they are the same listener of the same policy slot. *)
Theorem listener_ports_distinct (mark mark' : Z) (l l' : listener)
    (Hmark : slot_mark mark) (Hmark' : slot_mark mark')
    (Hl : listener_bound l) (Hl' : listener_bound l') :
  (1024 ≤ listener_port mark l < 65536)%Z ∧
  (listener_port mark l = listener_port mark' l' ↔ mark = mark' ∧ l = l').
Proof.
  rewrite !listener_port_plain by done. unfold slot_mark, POLICY_MARK_BASE in *. split.
  { destruct l; cbn in *; unfold MAX_FAILOVER_NODES, MAX_PROXY_EXITS in *; lia. }
  split; [|by intros [-> ->]].
  destruct l, l'; cbn in *; unfold MAX_FAILOVER_NODES, MAX_PROXY_EXITS in *; intros Heq;
    try (exfalso; lia); (split; [lia|]); f_equal; lia.
Qed.

Lemma listener_ports_distinct_witness :
  listener_port 51947 (HttpListener 15) = 28095%Z ∧
  (1024 ≤ listener_port 51947 (HttpListener 15) < 65536)%Z.
Proof.
  split; [reflexivity|].
  assert (slot_mark 51947) as Hm by (unfold slot_mark, POLICY_MARK_BASE; lia).
  assert (listener_bound (HttpListener 15)) as Hl by (unfold listener_bound, MAX_PROXY_EXITS; lia).
  exact (proj1 (listener_ports_distinct 51947 51947 (HttpListener 15) (HttpListener 15) Hm Hm Hl Hl)).
Defined.

(** ** The plan *)

Section plan.
Context `{IpNetLib} `{UrlLib} `{JsonText} {S : Type}.
Implicit Types (s : S) (h : history).

Lemma prepared_checked uid params mark s h plan s' h' config :
  prepare_xray uid params mark s h = (Some (Ok plan), s', h') →
  from_str (xq_config params) = Some config → validate_generated config ≠ Panics.
Proof.
  intros Hrun Hconfig Hpanic. revert Hrun.
  unfold prepare_xray, try_bind, bind, lift, fail, ret. rewrite Hconfig. cbn [ok_or run_check].
  rewrite Hpanic. repeat (case_match; simplify_eq; try done).
Qed.

(** C16 (Xray confinement). Whatever configuration the client sent, the one
    [prepare_xray] returns has only sections the daemon knows, listens on
    loopback and on the tunnel device of the plan, and marks the packets of
    every outbound that sends any; the device's name is one the kernel takes,
    the MTU is in bounds and every resolver is routed into the tunnel. *)
Theorem xray_plan_confined (uid : Z) (params : XrayConnectParams) (mark : Z) (s : S) (h : history)
    (plan : XrayPlan) (s' : S) (h' : history)
    (Hrun : prepare_xray uid params mark s h = (Some (Ok plan), s', h')) :
  s' = s ∧ h' = h ∧ plan_ok params mark plan.
Proof.
  assert (∀ config, from_str (xq_config params) = Some config → validate_generated config ≠ Panics)
    as Hpanic by (intros; by eapply prepared_checked).
  pose proof (wp_prepare_xray s h uid params mark Hpanic) as Hwp.
  destruct (wp_run _ _ _ _ _ _ _ Hwp Hrun) as (? & ? & Hplan). auto.
Qed.

(** On a configuration whose maps have
    the keys the code indexes, [prepare_xray] does not panic: it returns an
    error or a confined plan, and touches nothing. *)
Theorem prepare_xray_returns (uid : Z) (params : XrayConnectParams) (mark : Z) (s : S) (h : history)
    (Hcomplete : ∀ config, from_str (xq_config params) = Some config → complete config = true) :
  wp (prepare_xray uid params mark) (prepared params mark s h) s h.
Proof. apply wp_prepare_xray. intros config Hconfig. by apply complete_returns, Hcomplete. Qed.

(** The checks before the configuration is looked at. *)
Definition request_passes (params : XrayConnectParams) (mark : Z) : bool :=
  is_ok (validate_owner ("xray:" +:+ xq_profile_id params))
  && xray_limits_ok params mark
  && is_ok (validate_service_checks (xq_service_checks params))
  && xray_routes_ok [] (xq_routes params) && xray_dns_ok params && xray_coverage_ok params.

Lemma fakedns_panics root pool rest :
  forallb (λ '(key, _), one_of key
    ["log"; "inbounds"; "outbounds"; "routing"; "dns"; "fakedns"; "policy"]%string) root = true →
  map_get root "log" = None → map_get root "dns" = None →
  map_get root "fakedns" = Some (JArray (JObject pool :: rest)) → length rest < 4 →
  forallb (λ '(key, _), one_of key ["ipPool"; "poolSize"]%string) pool = true →
  map_get pool "ipPool" = None →
  validate_generated (JObject root) = Panics.
Proof.
  intros Hroot Hlog Hdns Hfake Hrest Hpool Hmissing. unfold validate_generated. cbn [with_object].
  rewrite Hroot. cbn [require check_and]. unfold opt_field, if_field. rewrite Hlog, Hdns, Hfake.
  cbn [is_none_or require check_and]. unfold validate_fakedns, each_of.
  rewrite (proj2 (Nat.leb_le _ _)) by (simpl; lia). rewrite (proj2 (Nat.leb_le _ _)) by (simpl; lia).
  cbn [andb require check_and check_all foldr]. unfold fakedns_pool, map_index. cbn [with_object].
  rewrite Hpool, Hmissing. done.
Qed.

(** (a missing key aborts). A fake-DNS pool without an [ipPool] does not
    get the request refused: it panics, and the release profile aborts the
    daemon on a panic. *)
Theorem incomplete_fakedns_aborts (uid : Z) (params : XrayConnectParams) (mark : Z)
    (s : S) (h : history) (root pool : fields) (rest : list Value)
    (Hrequest : request_passes params mark = true)
    (Hconfig : from_str (xq_config params) = Some (JObject root))
    (Hroot : forallb (λ '(key, _), one_of key
       ["log"; "inbounds"; "outbounds"; "routing"; "dns"; "fakedns"; "policy"]%string) root = true)
    (Hlog : map_get root "log" = None) (Hdns : map_get root "dns" = None)
    (Hfake : map_get root "fakedns" = Some (JArray (JObject pool :: rest)))
    (Hrest : length rest < 4)
    (Hpool : forallb (λ '(key, _), one_of key ["ipPool"; "poolSize"]%string) pool = true)
    (Hmissing : map_get pool "ipPool" = None) :
  prepare_xray uid params mark s h = (None, s, h).
Proof.
  unfold request_passes in Hrequest. rewrite !andb_true_iff in Hrequest.
  destruct Hrequest as [[[[[Howner Hlimits] Hchecks] Hroutes] Hdnsok] Hcover].
  unfold prepare_xray, try_bind, bind, lift, fail, ret.
  destruct (validate_owner _); [|done]. cbn [or_xray_rejected map_err].
  rewrite Hlimits. cbn [negb]. destruct (validate_service_checks _); [|done].
  rewrite Hroutes, Hdnsok, Hcover, Hconfig. cbn [andb negb ok_or].
  by rewrite (fakedns_panics root pool rest).
Qed.

(** Pinned servers. Given a confined configuration,
    [pin_server_addresses] returns, whatever the resolver answers or does,
    provided the addresses it answers read back: the configuration stays
    confined; when the plan says its servers are pinned, every server the new
    configuration dials is a literal address and listed in [server_hosts];
    otherwise the names left are in [unpinned_hosts]. *)
Theorem pinned_servers_literal (show_ip : IpAddr → string) (resolve : string → M S (list IpAddr))
    (mark : Z) (plan : XrayPlan) (config : Value) (s : S) (h : history)
    (Hresolve : ∀ host s h, wp (resolve host) (λ r _ _, Forall (readable show_ip) r) s h)
    (Hconfig : from_str (xl_config plan) = Some config)
    (Hconf : confined (xl_name plan) mark config = true)
    (Hfresh : xl_server_pinned plan = false) :
  wp (pin_server_addresses show_ip resolve plan)
    (λ r _ _, ∃ plan', r = Ok plan' ∧ pinned_well mark plan plan') s h.
Proof. by eapply wp_pin_server_addresses. Qed.

End plan.

(** ** A client's configuration *)

#[local] Existing Instance ipnet_model.
#[local] Instance demo_urls : UrlLib := {| parse_url _ := None |}.

Definition demo_node : Value := JObject [
  ("tag", jstr "proxy"); ("protocol", jstr "vless");
  ("settings", JObject [("vnext", JArray [JObject [
     ("address", jstr "vpn.example"); ("port", jnat 443);
     ("users", JArray [JObject [("id", jstr "user"); ("encryption", jstr "none")]])]])]);
  ("streamSettings", JObject [("network", jstr "tcp"); ("security", jstr "none")])]%string.

Definition demo_direct : Value :=
  JObject [("tag", jstr "direct"); ("protocol", jstr "freedom")]%string.

Definition demo_sections : fields := [
  ("inbounds", JArray [JObject [("tag", jstr "socks"); ("listen", jstr "127.0.0.1");
                                ("port", jnat 1080); ("protocol", jstr "socks")]]);
  ("outbounds", JArray [demo_node; demo_direct]);
  ("routing", JObject [("rules", JArray [])])]%string.

Definition demo_client : Value := JObject demo_sections.

(** The same with a fake-DNS pool that only has a size. *)
Definition demo_fakedns : fields :=
  demo_sections ++ [("fakedns", JArray [JObject [("poolSize", jnat 65535)]])]%string.

Definition demo_params (config : string) : XrayConnectParams :=
  mkXrayParams "home" config [] [] [] [] (Some "xray0") None None Primary None false None None [] [].

Definition value_of {A} (r : option (io_result A)) (a : A) : A :=
  match r with Some (Ok a) => a | _ => a end.

Definition demo_run : Value := Eval vm_compute in
  value_of (rewrite_config (S := unit) "xray0" 1500 51820 None [] [] demo_client tt []).1.1 JNull.

Definition demo_resolve (_ : string) : M unit (list IpAddr) := ret [ip4 203 0 113 9].
Definition demo_show (_ : IpAddr) : string := "203.0.113.9".

Definition demo_pinned : Value := Eval vm_compute in
  value_of ((λ r, match r with Ok (_, os) => Ok (JArray os) | Err e => Err e end) <$>
    (pin_outbounds demo_show demo_resolve (mkPinning [] [] true)
       (unwrap_or (as_array (index demo_run "outbounds")) []) tt []).1.1) JNull.

Definition demo_final : Value := Eval vm_compute in
  match demo_run with JObject m => JObject (obj_insert "outbounds" demo_pinned m) | v => v end.

(** A codec for the documents of the example. *)
Definition demo_from (text : string) : option Value :=
  if text =b "client"%string then Some demo_client
  else if text =b "fakedns"%string then Some (JObject demo_fakedns)
  else if text =b "run"%string then Some demo_run
  else if text =b "final"%string then Some demo_final
  else None.

Definition demo_to (v : Value) : option string :=
  if v =b demo_run then Some "run"%string
  else if v =b demo_final then Some "final"%string else None.

Lemma demo_codec v text : demo_to v = Some text → demo_from text = Some v.
Proof.
  unfold demo_to. case_bool_decide as Hrun; [intros [= <-]; by rewrite Hrun|].
  case_bool_decide as Hfinal; [intros [= <-]; by rewrite Hfinal|done].
Qed.

#[local] Instance demo_text : JsonText :=
  {| from_str := demo_from; to_string := demo_to; from_str_to_string := demo_codec |}.

Definition plan_or (r : option (io_result XrayPlan)) (d : XrayPlan) : XrayPlan :=
  match r with Some (Ok plan) => plan | _ => d end.

Definition no_plan : XrayPlan :=
  mkXrayPlan "" "" "" [] (mkNet (V4 0) 0) 0 [] [] [] false false 0 0 [] [] false None false None [] []
    [] None.

Definition demo_plan : XrayPlan := Eval vm_compute in
  plan_or (prepare_xray (S := unit) 1000 (demo_params "client") 51820 tt []).1.1 no_plan.

Lemma xray_plan_confined_witness :
  prepare_xray 1000 (demo_params "client") 51820 tt [] = (Some (Ok demo_plan), tt, []) ∧
  xl_name demo_plan = "xray0"%string ∧ xl_server_hosts demo_plan = ["vpn.example"%string] ∧
  plan_ok (demo_params "client") 51820 demo_plan.
Proof.
  assert (prepare_xray 1000 (demo_params "client") 51820 tt [] = (Some (Ok demo_plan), tt, []))
    as Hrun by (vm_compute; reflexivity).
  split; [exact Hrun|]. split; [reflexivity|]. split; [reflexivity|].
  exact (proj2 (proj2 (xray_plan_confined 1000 (demo_params "client") 51820 tt [] demo_plan tt [] Hrun))).
Defined.

Lemma prepare_xray_returns_witness :
  complete demo_client = true ∧
  wp (prepare_xray 1000 (demo_params "client") 51820)
    (prepared (demo_params "client") 51820 tt []) tt [].
Proof.
  assert (complete demo_client = true) as Hc by (vm_compute; reflexivity).
  split; [exact Hc|]. apply (prepare_xray_returns 1000 (demo_params "client") 51820 tt []).
  intros config Hconfig. change (Some demo_client = Some config) in Hconfig. by simplify_eq.
Defined.

Lemma incomplete_fakedns_aborts_witness :
  prepare_xray 1000 (demo_params "fakedns") 51820 tt [] = (None, tt, []).
Proof.
  refine (incomplete_fakedns_aborts 1000 (demo_params "fakedns") 51820 tt [] demo_fakedns
    [("poolSize"%string, jnat 65535)] [] _ eq_refl _ _ _ _ _ _ _);
    try (vm_compute; reflexivity). simpl. lia.
Defined.

Lemma pinned_servers_literal_witness :
  confined "xray0" 51820 demo_run = true ∧
  wp (pin_server_addresses demo_show demo_resolve demo_plan)
    (λ r _ _, ∃ plan', r = Ok plan' ∧ pinned_well 51820 demo_plan plan') tt [].
Proof.
  assert (confined "xray0" 51820 demo_run = true) as Hc by (vm_compute; reflexivity).
  split; [exact Hc|].
  apply (pinned_servers_literal demo_show demo_resolve 51820 demo_plan demo_run tt []);
    [|reflexivity|exact Hc|reflexivity].
  intros host s h. constructor; [vm_compute; reflexivity|constructor].
Defined.

Example demo_pinning :
  (λ plan, (xl_server_hosts plan, xl_server_pinned plan)) <$>
    (match (pin_server_addresses demo_show demo_resolve demo_plan tt []).1.1 with
     | Some (Ok plan) => Some plan | _ => None end) = Some (["203.0.113.9"%string], true).
Proof. vm_compute. reflexivity. Qed.
