(* ===== verification/WireGuardConfig.v ===== *)
(** * The WireGuard configuration parser: [crates/daemon/src/wireguard.rs]

    Turns a wg-quick file and the profile's policy routes into a plan; the
    text handed to [wg setconf] is rebuilt field by field, so hooks and
    wg-quick fields never reach it. *)

From S2P Require Export Validate StdText.

Definition MAX_WIREGUARD_CONFIG_BYTES : Z := 262144.
Definition MAX_WIREGUARD_PEERS : Z := 16.
Definition MAX_ADDRESSES : Z := 32.
Definition MAX_ROUTES : Z := 512.
Definition MAX_DNS_SERVERS : Z := 8.
Definition MAX_DNS_DOMAINS : Z := 16.

Inductive WireGuardPlanWarning : Type := PlanIgnoredHook | PlanIgnoredSaveConfig.

#[export] Instance WireGuardPlanWarning_eq_dec : EqDecision WireGuardPlanWarning.
Proof. solve_decision. Defined.

Record WireGuardPlan : Type := mkWgPlan {
  wp_setconf : string;
  wp_addresses : list IpNet;
  wp_dns_servers : list IpAddr;
  wp_dns_domains : list string;
  wp_mtu : option Z;
  wp_routes : list PolicyRoute;
  wp_full_ipv4 : bool;
  wp_full_ipv6 : bool;
  wp_warnings : list WireGuardPlanWarning;
  wp_interface_name : option string;
}.

(** The error, or the panic of an [expect] or [unwrap]. *)
Inductive plan_error : Type :=
| WireGuardPlanError (message : string)
| PlanPanic.

Record Peer : Type := mkPeer {
  pe_has_public_key : bool;
  pe_has_preshared_key : bool;
  pe_has_endpoint : bool;
  pe_has_keepalive : bool;
  pe_allowed_ips : list IpNet;
  pe_allowed_line : option (nat * nat);
}.
Definition peer_default : Peer := mkPeer false false false false [] None.

Inductive Section : Type := NoSection | InterfaceSection | PeerSection.

#[export] Instance Section_eq_dec : EqDecision Section.
Proof. solve_decision. Defined.

(** The local variables of the loop over lines. *)
Record ParseState : Type := mkParse {
  ps_plan : WireGuardPlan;
  ps_section : Section;
  ps_seen_interface : bool;
  ps_has_private_key : bool;
  ps_has_listen_port : bool;
  ps_peers : list Peer;
  ps_table_off : bool;
  ps_table_seen : bool;
  ps_mtu_seen : bool;
}.

(** What the parser uses of the [base64] crate: [STANDARD.decode]. *)
Class Base64Lib : Type := { b64_decode : string → option (list Z) }.

Definition plan_empty : WireGuardPlan := mkWgPlan "" [] [] [] None [] false false [] None.
Definition parse_empty : ParseState :=
  mkParse plan_empty NoSection false false false [] false false false.



Definition setconf_line (key value : string) : string := key +:+ " = " +:+ value +:+ newline.

Definition bad {A} (m : string) : result A plan_error := Err (WireGuardPlanError m).

(** Field updates of the loop's variables. *)
Definition set_plan (f : WireGuardPlan → WireGuardPlan) (s : ParseState) : ParseState :=
  mkParse (f (ps_plan s)) (ps_section s) (ps_seen_interface s) (ps_has_private_key s)
    (ps_has_listen_port s) (ps_peers s) (ps_table_off s) (ps_table_seen s) (ps_mtu_seen s).
Definition set_peers (f : list Peer → list Peer) (s : ParseState) : ParseState :=
  mkParse (ps_plan s) (ps_section s) (ps_seen_interface s) (ps_has_private_key s)
    (ps_has_listen_port s) (f (ps_peers s)) (ps_table_off s) (ps_table_seen s) (ps_mtu_seen s).
Definition append_setconf (text : string) (p : WireGuardPlan) : WireGuardPlan :=
  mkWgPlan (wp_setconf p +:+ text) (wp_addresses p) (wp_dns_servers p) (wp_dns_domains p)
    (wp_mtu p) (wp_routes p) (wp_full_ipv4 p) (wp_full_ipv6 p) (wp_warnings p)
    (wp_interface_name p).
Definition push_setconf (key value : string) : WireGuardPlan → WireGuardPlan :=
  append_setconf (setconf_line key value).
Definition with_addresses (a : list IpNet) (p : WireGuardPlan) : WireGuardPlan :=
  mkWgPlan (wp_setconf p) a (wp_dns_servers p) (wp_dns_domains p)
    (wp_mtu p) (wp_routes p) (wp_full_ipv4 p) (wp_full_ipv6 p) (wp_warnings p)
    (wp_interface_name p).
Definition with_dns (d : list IpAddr * list string) (p : WireGuardPlan) : WireGuardPlan :=
  mkWgPlan (wp_setconf p) (wp_addresses p) d.1 d.2
    (wp_mtu p) (wp_routes p) (wp_full_ipv4 p) (wp_full_ipv6 p) (wp_warnings p)
    (wp_interface_name p).
Definition with_warning (w : WireGuardPlanWarning) (p : WireGuardPlan) : WireGuardPlan :=
  mkWgPlan (wp_setconf p) (wp_addresses p) (wp_dns_servers p) (wp_dns_domains p)
    (wp_mtu p) (wp_routes p) (wp_full_ipv4 p) (wp_full_ipv6 p)
    (if vec_contains (wp_warnings p) w then wp_warnings p else wp_warnings p ++ [w])
    (wp_interface_name p).
Definition with_routes (rs : list PolicyRoute) (p : WireGuardPlan) : WireGuardPlan :=
  mkWgPlan (wp_setconf p) (wp_addresses p) (wp_dns_servers p) (wp_dns_domains p)
    (wp_mtu p) rs (wp_full_ipv4 p) (wp_full_ipv6 p) (wp_warnings p) (wp_interface_name p).

(** [peers.last_mut().expect(...)], updated by [f]. *)
Definition with_last_peer (s : ParseState) (f : Peer → result (Peer * WireGuardPlan) plan_error)
    : result ParseState plan_error :=
  match last (ps_peers s) with
  | None => Err PlanPanic
  | Some peer =>
    '(peer, plan) <-? f peer;
    Ok (set_plan (λ _, plan)
          (set_peers (λ ps, take (length ps - 1) ps ++ [peer]) s))
  end.

Section parser.
Context `{IpNetLib} `{Base64Lib}.

Definition comma_items (value : string) : list string := map trim (split_char "," value).

Definition validate_key (value error : string) : result unit plan_error :=
  match b64_decode value with
  | Some decoded => if Z.eqb (zlen decoded) 32 then Ok tt else bad error
  | None => bad error
  end.

Definition validate_port (value error : string) : result unit plan_error :=
  match parse_uint 65536 value with
  | Some port => if Z.eqb port 0 then bad error else Ok tt
  | None => bad error
  end.

Definition valid_dns_name (value : string) : bool :=
  negb (str_is_empty value) && Nat.leb (str_len value) 253
  && forallb (λ label,
       negb (str_is_empty label) && Nat.leb (str_len label) 63
       && negb (starts_with label "-") && negb (ends_with_char label "-")
       && str_all (λ a, is_ascii_alphanumeric (byte_of a) || Ascii.eqb a "-") label)
     (split_char "." value).

Definition validate_endpoint (value : string) : result unit plan_error :=
  '(host, port) <-?
    match strip_prefix value "[" with
    | Some bracketed =>
      match split_once_str "]:" bracketed with
      | None => bad "invalid Endpoint"
      | Some (host, port) =>
        match parse_ip host with
        | Some (V6 _) => Ok (host, port)
        | _ => bad "invalid Endpoint"
        end
      end
    | None =>
      match rsplit_once ":" value with
      | None => bad "invalid Endpoint"
      | Some (host, port) =>
        if contains_char host ":" then bad "invalid Endpoint" else Ok (host, port)
      end
    end;
  _ <-? validate_port port "invalid Endpoint";
  if is_none (parse_ip host) && negb (valid_dns_name host)
  then bad "invalid Endpoint" else Ok tt.

(** [outer.contains(&inner.network())] with the prefix lengths compared. *)
Definition wg_contains_net (outer inner : IpNet) : bool :=
  Z.leb (prefix_len outer) (prefix_len inner) && contains_ip outer (net_addr (trunc inner)).

Fixpoint parse_addresses (items : list string) (addresses : list IpNet)
    : result (list IpNet) plan_error :=
  match items with
  | [] => Ok addresses
  | part :: rest =>
    match parse_net part with
    | None => bad "invalid Address"
    | Some address =>
      if is_unspecified (net_addr address) || is_multicast (net_addr address)
      then bad "invalid Address"
      else if vec_contains addresses address then parse_addresses rest addresses
      else if Z.ltb MAX_ADDRESSES (zlen (addresses ++ [address]))
      then bad "too many Address entries"
      else parse_addresses rest (addresses ++ [address])
    end
  end.

Fixpoint parse_dns (items : list string) (servers : list IpAddr) (domains : list string)
    : result (list IpAddr * list string) plan_error :=
  match items with
  | [] => Ok (servers, domains)
  | part :: rest =>
    match parse_ip part with
    | Some server =>
      if is_unspecified server || is_multicast server then bad "invalid DNS"
      else if Z.ltb MAX_DNS_SERVERS (zlen (servers ++ [server])) then bad "too many DNS servers"
      else parse_dns rest (servers ++ [server]) domains
    | None =>
      if negb (valid_dns_name part) then bad "invalid DNS domain"
      else if Z.ltb MAX_DNS_DOMAINS (zlen (domains ++ [str_lowercase part]))
      then bad "too many DNS domains"
      else parse_dns rest servers (domains ++ [str_lowercase part])
    end
  end.

Fixpoint parse_allowed (items : list string) (allowed : list IpNet)
    : result (list IpNet) plan_error :=
  match items with
  | [] => Ok allowed
  | part :: rest =>
    match parse_net part with
    | None => bad "invalid AllowedIPs"
    | Some network =>
      if Z.ltb MAX_ROUTES (zlen (allowed ++ [trunc network])) then bad "too many AllowedIPs"
      else parse_allowed rest (allowed ++ [trunc network])
    end
  end.

Definition allowed_value (allowed : list IpNet) : string :=
  String.concat ", " (map net_to_string allowed).

(** One field of the [Interface] section. *)
Definition interface_field (s : ParseState) (key value : string) : result ParseState plan_error :=
  if key =b "privatekey"%string then
    if ps_has_private_key s then bad "duplicate PrivateKey" else
    _ <-? validate_key value "invalid PrivateKey";
    Ok (mkParse (push_setconf "PrivateKey" value (ps_plan s)) (ps_section s) (ps_seen_interface s)
          true (ps_has_listen_port s) (ps_peers s) (ps_table_off s) (ps_table_seen s)
          (ps_mtu_seen s))
  else if key =b "listenport"%string then
    if ps_has_listen_port s then bad "duplicate ListenPort" else
    _ <-? validate_port value "invalid ListenPort";
    Ok (mkParse (push_setconf "ListenPort" value (ps_plan s)) (ps_section s) (ps_seen_interface s)
          (ps_has_private_key s) true (ps_peers s) (ps_table_off s) (ps_table_seen s)
          (ps_mtu_seen s))
  else if key =b "address"%string then
    addresses <-? parse_addresses (comma_items value) (wp_addresses (ps_plan s));
    Ok (set_plan (with_addresses addresses) s)
  else if key =b "dns"%string then
    dns <-? parse_dns (comma_items value) (wp_dns_servers (ps_plan s)) (wp_dns_domains (ps_plan s));
    Ok (set_plan (with_dns dns) s)
  else if key =b "mtu"%string then
    if ps_mtu_seen s then bad "duplicate MTU" else
    match parse_uint 4294967296 value with
    | None => bad "invalid MTU"
    | Some mtu =>
      if negb (in_range 576 9000 mtu) then bad "invalid MTU" else
      let p := ps_plan s in
      Ok (mkParse
            (mkWgPlan (wp_setconf p) (wp_addresses p) (wp_dns_servers p) (wp_dns_domains p)
               (Some mtu) (wp_routes p) (wp_full_ipv4 p) (wp_full_ipv6 p) (wp_warnings p)
               (wp_interface_name p))
            (ps_section s) (ps_seen_interface s) (ps_has_private_key s) (ps_has_listen_port s)
            (ps_peers s) (ps_table_off s) (ps_table_seen s) true)
    end
  else if key =b "table"%string then
    if ps_table_seen s then bad "duplicate Table" else
    let value := str_lowercase value in
    if (value =b "off"%string) || (value =b "auto"%string)
    then Ok (mkParse (ps_plan s) (ps_section s) (ps_seen_interface s) (ps_has_private_key s)
               (ps_has_listen_port s) (ps_peers s) (value =b "off"%string) true (ps_mtu_seen s))
    else bad "unsupported Table"
  else if vec_contains ["preup"; "postup"; "predown"; "postdown"]%string key
  then Ok (set_plan (with_warning PlanIgnoredHook) s)
  else if key =b "saveconfig"%string then Ok (set_plan (with_warning PlanIgnoredSaveConfig) s)
  else if key =b "fwmark"%string then bad "unsupported FwMark"
  else bad "unsupported WireGuard field".

(** One field of a [Peer] section. *)
Definition peer_field (s : ParseState) (key value : string) : result ParseState plan_error :=
  let plan := ps_plan s in
  if key =b "publickey"%string then
    with_last_peer s (λ peer,
      if pe_has_public_key peer then bad "duplicate PublicKey" else
      _ <-? validate_key value "invalid PublicKey";
      Ok (mkPeer true (pe_has_preshared_key peer) (pe_has_endpoint peer) (pe_has_keepalive peer)
            (pe_allowed_ips peer) (pe_allowed_line peer),
          push_setconf "PublicKey" value plan))
  else if key =b "presharedkey"%string then
    with_last_peer s (λ peer,
      if pe_has_preshared_key peer then bad "duplicate PresharedKey" else
      _ <-? validate_key value "invalid PresharedKey";
      Ok (mkPeer (pe_has_public_key peer) true (pe_has_endpoint peer) (pe_has_keepalive peer)
            (pe_allowed_ips peer) (pe_allowed_line peer),
          push_setconf "PresharedKey" value plan))
  else if key =b "endpoint"%string then
    with_last_peer s (λ peer,
      if pe_has_endpoint peer then bad "duplicate Endpoint" else
      _ <-? validate_endpoint value;
      Ok (mkPeer (pe_has_public_key peer) (pe_has_preshared_key peer) true (pe_has_keepalive peer)
            (pe_allowed_ips peer) (pe_allowed_line peer),
          push_setconf "Endpoint" value plan))
  else if key =b "allowedips"%string then
    with_last_peer s (λ peer,
      if negb (Z.eqb (zlen (pe_allowed_ips peer)) 0) then bad "duplicate AllowedIPs" else
      allowed <-? parse_allowed (comma_items value) (pe_allowed_ips peer);
      let start := str_len (wp_setconf plan) in
      let plan := push_setconf "AllowedIPs" (allowed_value allowed) plan in
      Ok (mkPeer (pe_has_public_key peer) (pe_has_preshared_key peer) (pe_has_endpoint peer)
            (pe_has_keepalive peer) allowed (Some (start, str_len (wp_setconf plan))),
          plan))
  else if key =b "persistentkeepalive"%string then
    with_last_peer s (λ peer,
      if pe_has_keepalive peer then bad "duplicate PersistentKeepalive" else
      match parse_uint 65536 value with
      | None => bad "invalid PersistentKeepalive"
      | Some keepalive =>
        Ok (mkPeer (pe_has_public_key peer) (pe_has_preshared_key peer) (pe_has_endpoint peer)
              true (pe_allowed_ips peer) (pe_allowed_line peer),
            if Z.ltb 0 keepalive then push_setconf "PersistentKeepalive" value plan else plan)
      end)
  else bad "unsupported WireGuard field".

Definition section_line (s : ParseState) (line : string) : result ParseState plan_error :=
  let header := str_lowercase line in
  if (header =b "[interface]"%string) && negb (ps_seen_interface s)
     && Z.eqb (zlen (ps_peers s)) 0
  then Ok (mkParse (append_setconf ("[Interface]" +:+ newline) (ps_plan s)) InterfaceSection true
             (ps_has_private_key s) (ps_has_listen_port s) (ps_peers s) (ps_table_off s)
             (ps_table_seen s) (ps_mtu_seen s))
  else if (header =b "[peer]"%string) && ps_seen_interface s
          && Z.ltb (zlen (ps_peers s)) MAX_WIREGUARD_PEERS
  then Ok (mkParse (append_setconf (newline +:+ "[Peer]" +:+ newline) (ps_plan s)) PeerSection
             (ps_seen_interface s) (ps_has_private_key s) (ps_has_listen_port s)
             (ps_peers s ++ [peer_default]) (ps_table_off s) (ps_table_seen s) (ps_mtu_seen s))
  else if header =b "[peer]"%string then bad "too many or misplaced peers"
  else bad "invalid WireGuard section".

(** [raw.split('#').next().unwrap_or("").trim()] *)
Definition line_text (raw : string) : string := trim (default "" (head (split_char "#" raw))).

Definition parse_line (s : ParseState) (raw : string) : result ParseState plan_error :=
  let line := line_text raw in
  if str_is_empty line then Ok s
  else if starts_with line "[" then section_line s line
  else match split_once "=" line with
       | None => bad "invalid WireGuard field"
       | Some (key, value) =>
         let key := str_lowercase (trim key) in
         let value := trim value in
         if str_is_empty value then bad "empty WireGuard field"
         else match ps_section s with
              | InterfaceSection => interface_field s key value
              | PeerSection => peer_field s key value
              | NoSection => bad "unsupported WireGuard field"
              end
       end.

Fixpoint parse_lines (s : ParseState) (raws : list string) : result ParseState plan_error :=
  match raws with
  | [] => Ok s
  | raw :: rest => s <-? parse_line s raw; parse_lines s rest
  end.

(** ** The checks after the loop *)

Fixpoint check_allowed (allowed_ips prior_peers : list IpNet) (this_peer : gset IpNet)
    : result unit plan_error :=
  match allowed_ips with
  | [] => Ok tt
  | allowed :: rest =>
    if bool_decide (allowed ∈ this_peer) || vec_contains prior_peers allowed
    then bad "duplicate AllowedIPs across peers"
    else if existsb (λ prior, wg_contains_net prior allowed || wg_contains_net allowed prior)
              prior_peers
    then bad "overlapping AllowedIPs across peers"
    else check_allowed rest prior_peers ({[allowed]} ∪ this_peer)
  end.

Fixpoint check_peers (peers : list Peer) (prior_peers : list IpNet) : result unit plan_error :=
  match peers with
  | [] => Ok tt
  | peer :: rest =>
    _ <-? check_allowed (pe_allowed_ips peer) prior_peers ∅;
    check_peers rest (prior_peers ++ pe_allowed_ips peer)
  end.

(** [peers[0].allowed_ips.push(destination)] *)
Definition push_first_allowed (peers : list Peer) (destination : IpNet)
    : result (list Peer) plan_error :=
  match peers with
  | [] => Err PlanPanic
  | p :: ps =>
    Ok (mkPeer (pe_has_public_key p) (pe_has_preshared_key p) (pe_has_endpoint p)
          (pe_has_keepalive p) (pe_allowed_ips p ++ [destination]) (pe_allowed_line p) :: ps)
  end.

Fixpoint add_policy_routes (policy_routes : list PolicyRoute) (peers : list Peer)
    (expanded : bool) (seen : gset IpNet) (routes : list PolicyRoute)
    : result (list Peer * bool * list PolicyRoute) plan_error :=
  match policy_routes with
  | [] => Ok (peers, expanded, routes)
  | route :: rest =>
    let destination := pr_destination route in
    if is_some (pr_via route) || negb (destination =b trunc destination)
    then bad "invalid policy route"
    else
      let covered := existsb (λ peer,
        existsb (λ allowed, wg_contains_net allowed destination) (pe_allowed_ips peer)) peers in
      '(peers, expanded) <-?
        (if covered then Ok (peers, expanded)
         else if negb (Z.eqb (zlen peers) 1)
         then bad "policy route is not covered by AllowedIPs"
         else peers <-? push_first_allowed peers destination; Ok (peers, true));
      if decide (destination ∈ seen) then bad "duplicate policy route"
      else add_policy_routes rest peers expanded ({[destination]} ∪ seen) (routes ++ [route])
  end.

(** [String::replace_range] *)
Definition replace_range (s : string) (range : nat * nat) (text : string) : string :=
  str_take range.1 s +:+ text +:+ str_drop range.2 s.

(** The routes of the allowed networks, at most [MAX_ROUTES]. *)
Fixpoint push_allowed_routes (destinations : list IpNet) (routes : list PolicyRoute)
    : result (list PolicyRoute) plan_error :=
  match destinations with
  | [] => Ok routes
  | destination :: rest =>
    let routes := routes ++ [mkPolicyRoute destination 5 None] in
    if Z.ltb MAX_ROUTES (zlen routes) then bad "too many routes"
    else push_allowed_routes rest routes
  end.

Definition plan_routes_of (s : ParseState) (policy_routes : list PolicyRoute)
    : result WireGuardPlan plan_error :=
  let plan := ps_plan s in
  match policy_routes with
  | [] =>
    if ps_table_off s then Ok plan else
    routes <-? push_allowed_routes (concat (map pe_allowed_ips (ps_peers s))) (wp_routes plan);
    Ok (with_routes routes plan)
  | _ =>
    '(peers, expanded, routes) <-?
      add_policy_routes policy_routes (ps_peers s) false ∅ (wp_routes plan);
    let plan := with_routes routes plan in
    if expanded then
      match peers with
      | [] => Err PlanPanic
      | peer :: _ =>
        match pe_allowed_line peer with
        | None => Err PlanPanic
        | Some range =>
          let line := setconf_line "AllowedIPs" (allowed_value (pe_allowed_ips peer)) in
          Ok (mkWgPlan (replace_range (wp_setconf plan) range line) (wp_addresses plan)
                (wp_dns_servers plan) (wp_dns_domains plan) (wp_mtu plan) (wp_routes plan)
                (wp_full_ipv4 plan) (wp_full_ipv6 plan) (wp_warnings plan)
                (wp_interface_name plan))
        end
      end
    else Ok plan
  end.

Definition finish_plan (plan : WireGuardPlan) : result WireGuardPlan plan_error :=
  let has network := existsb (λ route, pr_destination route =b network) (wp_routes plan) in
  let full_ipv4 := has (mkNet (V4 0) 0)
    || (has (mkNet (V4 0) 1) && has (mkNet (ip4 128 0 0 0) 1)) in
  let full_ipv6 := has (mkNet (V6 0) 0)
    || (has (mkNet (V6 0) 1) && has (mkNet (V6 (Z.shiftl 32768 112)) 1)) in
  let '(covers_ipv4, covers_ipv6) := full_coverage (map pr_destination (wp_routes plan)) in
  if (covers_ipv4 && negb full_ipv4) || (covers_ipv6 && negb full_ipv6)
  then bad "unsupported full-tunnel route decomposition"
  else if existsb (λ server,
            negb (existsb (λ route, contains_ip (pr_destination route) server) (wp_routes plan)))
          (wp_dns_servers plan)
  then bad "DNS server is not covered by tunnel routes"
  else Ok (mkWgPlan (wp_setconf plan) (wp_addresses plan) (wp_dns_servers plan)
             (wp_dns_domains plan) (wp_mtu plan) (wp_routes plan) full_ipv4 full_ipv6
             (wp_warnings plan) (wp_interface_name plan)).

Definition parse_wireguard_config (source : string) (policy_routes : list PolicyRoute)
    : result WireGuardPlan plan_error :=
  if Z.ltb MAX_WIREGUARD_CONFIG_BYTES (Z.of_nat (str_len source))
  then bad "WireGuard config is too large"
  else if Z.ltb MAX_ROUTES (zlen policy_routes) then bad "too many policy routes"
  else
    s <-? parse_lines parse_empty (lines source);
    let peers := ps_peers s in
    if negb (ps_has_private_key s) || Z.eqb (zlen peers) 0
       || negb (forallb pe_has_public_key peers)
    then bad "missing WireGuard key or peer"
    else if negb (existsb pe_has_endpoint peers) then bad "missing Endpoint"
    else if Z.eqb (zlen (wp_addresses (ps_plan s))) 0
            || existsb (λ p, Z.eqb (zlen (pe_allowed_ips p)) 0) peers
    then bad "missing Address or AllowedIPs"
    else if negb (Z.eqb (zlen (wp_dns_domains (ps_plan s))) 0)
            && Z.eqb (zlen (wp_dns_servers (ps_plan s))) 0
    then bad "DNS domains require a DNS server"
    else
      _ <-? check_peers peers [];
      plan <-? plan_routes_of s policy_routes;
      finish_plan plan.

End parser.

(** ** The shape of [setconf] *)

(** What the text handed to [wg setconf] is made of. *)
Inductive piece : Type :=
| PInterface
| PPeer
| PField (key value : string).

Definition render_piece (p : piece) : string :=
  match p with
  | PInterface => "[Interface]" +:+ newline
  | PPeer => newline +:+ "[Peer]" +:+ newline
  | PField key value => setconf_line key value
  end.

Fixpoint render (ps : list piece) : string :=
  match ps with
  | [] => ""
  | p :: ps => render_piece p +:+ render ps
  end.

(** The seven fields of [wg(8)]'s own format. *)
Definition setconf_keys : list string :=
  ["PrivateKey"; "ListenPort"; "PublicKey"; "PresharedKey"; "Endpoint"; "AllowedIPs";
   "PersistentKeepalive"].

Definition one_line (s : string) : bool := str_all (λ a, negb (Ascii.eqb a "010")) s.

Definition piece_ok (p : piece) : Prop :=
  match p with
  | PField key value => key ∈ setconf_keys ∧ one_line value = true
  | _ => True
  end.

Definition setconf_ok (setconf : string) : Prop :=
  ∃ ps, setconf = render ps ∧ Forall piece_ok ps.

Lemma render_app ps qs : render (ps ++ qs) = render ps +:+ render qs.
Proof. induction ps as [|p ps IH]; simpl; [done|]. by rewrite IH, str_app_assoc. Qed.

Section parser_lemmas.
Context `{IpNetLib} `{Base64Lib}.

(** A peer's allowed line is a field of the text, and is there when the
    peer has networks. *)
Definition peer_inv (ps : list piece) (p : Peer) : Prop :=
  (pe_allowed_ips p ≠ [] → is_Some (pe_allowed_line p)) ∧
  ∀ range, pe_allowed_line p = Some range → ∃ pre value post,
    ps = pre ++ PField "AllowedIPs" value :: post ∧
    range = (str_len (render pre), str_len (render pre) + str_len (setconf_line "AllowedIPs" value)).

Definition parse_inv (s : ParseState) : Prop :=
  ∃ ps, wp_setconf (ps_plan s) = render ps ∧ Forall piece_ok ps ∧
    Forall (peer_inv ps) (ps_peers s) ∧ (ps_section s = PeerSection → ps_peers s ≠ []).

(** Results that keep [P] and never panic. *)
Definition safe {A} (P : A → Prop) (r : result A plan_error) : Prop :=
  match r with
  | Ok a => P a
  | Err e => e ≠ PlanPanic
  end.

Lemma safe_then {A B} (P : A → Prop) (Q : B → Prop) (r : result A plan_error) k :
  safe P r → (∀ a, P a → safe Q (k a)) → safe Q (rbind r k).
Proof. destruct r; simpl; auto. Qed.

Lemma safe_bad {A} (P : A → Prop) m : safe P (bad m).
Proof. done. Qed.

Lemma safe_any {A} (P : A → Prop) r : safe P r → safe (λ _, True) r.
Proof. destruct r; simpl; auto. Qed.

Lemma peer_inv_app ps qs p : peer_inv ps p → peer_inv (ps ++ qs) p.
Proof.
  intros [H1 H2]. split; [done|]. intros range Hr.
  destruct (H2 range Hr) as (pre & value & post & -> & ->).
  exists pre, value, (post ++ qs). by rewrite <- app_assoc.
Qed.

Lemma peers_inv_app ps qs peers :
  Forall (peer_inv ps) peers → Forall (peer_inv (ps ++ qs)) peers.
Proof. intros Hall. eapply Forall_impl; [exact Hall|]. intros p. apply peer_inv_app. Qed.

Lemma parse_addresses_safe items l : safe (λ _, True) (parse_addresses items l).
Proof.
  revert l. induction items as [|x items IH]; intros l; simpl; [done|].
  destruct (parse_net x); [|done]. repeat (case_match; try done). all: apply IH.
Qed.

Lemma parse_dns_safe items a b : safe (λ _, True) (parse_dns items a b).
Proof.
  revert a b. induction items as [|x items IH]; intros a b; simpl; [done|].
  destruct (parse_ip x); repeat (case_match; try done). all: apply IH.
Qed.

Lemma parse_allowed_safe items l : safe (λ _, True) (parse_allowed items l).
Proof.
  revert l. induction items as [|x items IH]; intros l; simpl; [done|].
  destruct (parse_net x); [|done]. case_match; [done|]. apply IH.
Qed.

Lemma validate_key_safe v e : safe (λ _, True) (validate_key v e).
Proof. unfold validate_key. by repeat case_match. Qed.
Lemma validate_port_safe v e : safe (λ _, True) (validate_port v e).
Proof. unfold validate_port. by repeat case_match. Qed.
Lemma validate_endpoint_safe v : safe (λ _, True) (validate_endpoint v).
Proof.
  unfold validate_endpoint. eapply safe_then with (P := λ _, True).
  - by repeat case_match.
  - intros [host port] _. eapply safe_then; [apply validate_port_safe|].
    intros _ _. by case_match.
Qed.

(** Membership of a literal key. *)
Ltac in_keys := unfold setconf_keys; repeat first [apply list_elem_of_here | apply list_elem_of_further].

(** Replacing the plan's other fields keeps the invariant. *)
Lemma parse_inv_same_text s s' :
  parse_inv s → wp_setconf (ps_plan s') = wp_setconf (ps_plan s) →
  ps_peers s' = ps_peers s → ps_section s' = ps_section s → parse_inv s'.
Proof. intros (ps & H1 & H2 & H3 & H4) E1 E2 E3. exists ps. rewrite E1, E2, E3. done. Qed.

Lemma parse_inv_push s s' key value :
  parse_inv s → key ∈ setconf_keys → one_line value = true →
  wp_setconf (ps_plan s') = wp_setconf (ps_plan s) +:+ setconf_line key value →
  ps_peers s' = ps_peers s → ps_section s' = ps_section s → parse_inv s'.
Proof.
  intros (ps & H1 & H2 & H3 & H4) Hk Hv E1 E2 E3. exists (ps ++ [PField key value]).
  rewrite E1, E2, E3, H1, render_app. simpl. rewrite str_app_nil_r.
  split_and!; [done| |by apply peers_inv_app|done].
  apply Forall_app. split; [done|]. by apply Forall_singleton.
Qed.

Lemma interface_field_safe s key value :
  parse_inv s → one_line value = true → safe parse_inv (interface_field s key value).
Proof.
  intros Hs Hv. unfold interface_field.
  repeat match goal with |- safe _ (if ?b then _ else _) => destruct b; try apply safe_bad end;
    try (eapply safe_then; [first [apply validate_key_safe | apply validate_port_safe
           | apply parse_addresses_safe | apply parse_dns_safe]|]; intros ? _; cbn [safe]).
  - by apply (parse_inv_push s _ "PrivateKey" value); [|in_keys|..].
  - by apply (parse_inv_push s _ "ListenPort" value); [|in_keys|..].
  - by eapply parse_inv_same_text.
  - by eapply parse_inv_same_text.
  - destruct (parse_uint _ _); [|apply safe_bad]. destruct (negb _); [apply safe_bad|].
    by eapply parse_inv_same_text.
  - by eapply parse_inv_same_text.
  - by eapply parse_inv_same_text.
  - by eapply parse_inv_same_text.
Qed.

(** What a [Peer] field may do: keep the allowed networks and add pieces, or
    set them with their line. *)
Lemma with_last_peer_safe s f :
  parse_inv s → ps_peers s ≠ [] →
  (∀ ps peer, wp_setconf (ps_plan s) = render ps → Forall piece_ok ps → peer_inv ps peer →
     safe (λ '(peer', plan'), ∃ qs, wp_setconf plan' = render (ps ++ qs) ∧
       Forall piece_ok qs ∧ peer_inv (ps ++ qs) peer') (f peer)) →
  safe parse_inv (with_last_peer s f).
Proof.
  intros (ps & H1 & H2 & H3 & H4) Hne Hf. unfold with_last_peer.
  destruct (last (ps_peers s)) as [peer|] eqn:Hlast; [|by apply last_None in Hlast].
  apply last_Some in Hlast as [init Hinit]. rewrite Hinit in H3.
  apply Forall_app in H3 as [Hpre [Hpeer _]%Forall_cons].
  eapply safe_then; [exact (Hf ps peer H1 H2 Hpeer)|]. intros [peer' plan'] (qs & E1 & E2 & E3). cbn [safe].
  exists (ps ++ qs). unfold set_plan, set_peers. cbn [ps_plan ps_peers ps_section].
  rewrite Hinit, length_app, Nat.add_sub, take_app_length.
  split_and!; [done|by apply Forall_app| |].
  - apply Forall_app. split; [by apply peers_inv_app|by apply Forall_singleton].
  - intros _ Hnil. by apply app_eq_nil in Hnil as [_ ?].
Qed.

(** A pushed field that leaves the peer's networks alone. *)
Lemma peer_field_push ps peer peer' plan key value :
  wp_setconf plan = render ps → peer_inv ps peer →
  key ∈ setconf_keys → one_line value = true →
  pe_allowed_ips peer' = pe_allowed_ips peer → pe_allowed_line peer' = pe_allowed_line peer →
  ∃ qs, wp_setconf (push_setconf key value plan) = render (ps ++ qs) ∧
    Forall piece_ok qs ∧ peer_inv (ps ++ qs) peer'.
Proof.
  intros Hp Hpeer Hk Hv E1 E2. exists [PField key value]. split_and!.
  - simpl. rewrite Hp, render_app. simpl. by rewrite str_app_nil_r.
  - by apply Forall_singleton.
  - apply peer_inv_app. unfold peer_inv in *. by rewrite E1, E2.
Qed.

Lemma allowed_value_one_line allowed : one_line (allowed_value allowed) = true.
Proof.
  apply str_all_concat; [done|]. intros s (n & -> & _)%list_elem_of_fmap.
  apply net_to_string_line.
Qed.

Lemma peer_field_safe s key value :
  parse_inv s → ps_peers s ≠ [] → one_line value = true → safe parse_inv (peer_field s key value).
Proof.
  intros Hs Hne Hv. unfold peer_field.
  repeat match goal with |- safe _ (if ?b then _ else _) => destruct b; try apply safe_bad end;
    apply with_last_peer_safe; try done; intros ps peer Hps Hok Hpeer.
  1-3: match goal with |- safe _ (if ?b then _ else _) => destruct b; [apply safe_bad|] end;
    (eapply safe_then; [first [apply validate_key_safe | apply validate_endpoint_safe]|]);
    intros _ _; cbn [safe];
    match goal with |- context [push_setconf ?k _ _] =>
      by apply (peer_field_push ps peer _ _ k value); [| |in_keys|..] end.
  - destruct (negb _); [apply safe_bad|].
    eapply safe_then; [apply parse_allowed_safe|]. intros allowed _. cbn [safe].
    exists [PField "AllowedIPs" (allowed_value allowed)]. simpl.
    rewrite render_app. simpl. rewrite str_app_nil_r, Hps. split_and!; [done| |].
    + apply Forall_singleton. split; [in_keys|].
      apply allowed_value_one_line.
    + split; [done|]. simpl. intros range [= <-].
      exists ps, (allowed_value allowed), []. split; [done|]. by rewrite str_len_app.
  - destruct (pe_has_keepalive peer); [apply safe_bad|].
    destruct (parse_uint _ _) as [k|]; [|apply safe_bad]. cbn [safe].
    destruct (Z.ltb 0 k).
    + by apply (peer_field_push ps peer _ _ "PersistentKeepalive" value); [| |in_keys|..].
    + exists []. rewrite app_nil_r. done.
Qed.

Lemma parse_inv_section s p sec peers s' :
  parse_inv s → (p = PInterface ∨ p = PPeer) →
  wp_setconf (ps_plan s') = wp_setconf (ps_plan s) +:+ render_piece p →
  ps_peers s' = ps_peers s ++ peers → peers = [] ∨ peers = [peer_default] →
  ps_section s' = sec → (sec = PeerSection → peers ≠ []) → parse_inv s'.
Proof.
  intros (ps & H1 & H2 & H3 & H4) Hp E1 E2 Hpeers E3 Hsec. exists (ps ++ [p]).
  rewrite E1, E2, E3, H1, render_app. simpl. rewrite str_app_nil_r. split_and!; [done| | |].
  - apply Forall_app. split; [done|]. apply Forall_singleton. by destruct Hp as [->| ->].
  - apply Forall_app. split; [by apply peers_inv_app|].
    destruct Hpeers as [->| ->]; [done|]. apply Forall_singleton. split; [done|]. done.
  - intros Hs Hnil. apply app_eq_nil in Hnil as [_ ?]. by apply Hsec.
Qed.

Lemma parse_line_safe s raw :
  parse_inv s → one_line raw = true → safe parse_inv (parse_line s raw).
Proof.
  intros Hs Hraw. unfold parse_line.
  assert (one_line (line_text raw) = true) as Hline.
  { unfold line_text. apply str_all_trim.
    destruct (split_char "#" raw) as [|q qs] eqn:Hq; [done|]. simpl.
    eapply str_all_split_char; [exact Hraw|]. rewrite Hq. apply list_elem_of_here. }
  destruct (str_is_empty _); [done|].
  destruct (starts_with _ _).
  - unfold section_line.
    destruct (_ && _ && _); [cbn [safe]; eapply (parse_inv_section s PInterface _ []);
      [done|by left|done|simpl; by rewrite app_nil_r|by left|done|done]|].
    destruct (_ && _ && _); [cbn [safe]; eapply (parse_inv_section s PPeer _ [peer_default]);
      [done|by right|done|done|by right|done|done]|].
    by case_match.
  - destruct (split_once "=" _) as [[key value]|] eqn:Hsplit; [|apply safe_bad].
    destruct (split_once_all _ _ _ _ _ Hsplit Hline) as [_ Hvalue].
    destruct (str_is_empty _); [apply safe_bad|].
    destruct (ps_section s) eqn:Hsec; [apply safe_bad| |].
    + apply interface_field_safe; [done|]. by apply str_all_trim.
    + apply peer_field_safe; [done| |by apply str_all_trim].
      destruct Hs as (ps & _ & _ & _ & Hne). by apply Hne.
Qed.

Lemma parse_lines_safe s raws :
  parse_inv s → (∀ raw, raw ∈ raws → one_line raw = true) → safe parse_inv (parse_lines s raws).
Proof.
  revert s. induction raws as [|raw raws IH]; intros s Hs Hall; simpl; [done|].
  eapply safe_then.
  - apply parse_line_safe; [done|]. apply Hall, list_elem_of_here.
  - intros s' Hs'. apply IH; [done|]. intros r Hr. apply Hall. by apply list_elem_of_further.
Qed.

Lemma check_peers_safe peers prior : safe (λ _, True) (check_peers peers prior).
Proof.
  revert prior. induction peers as [|p peers IH]; intros prior; simpl; [done|].
  apply safe_then with (P := λ _, True); [|intros _ _; apply IH].
  generalize (∅ : gset IpNet). induction (pe_allowed_ips p) as [|a l IHl]; intros this; simpl; [done|].
  repeat (case_match; try done). all: apply IHl.
Qed.

Lemma add_policy_routes_safe policy_routes peers expanded seen routes :
  (expanded = true → peers ≠ []) →
  safe (λ '(peers', expanded', _), map pe_allowed_line peers' = map pe_allowed_line peers ∧
          (expanded' = true → peers' ≠ []))
    (add_policy_routes policy_routes peers expanded seen routes).
Proof.
  revert peers expanded seen routes.
  induction policy_routes as [|r policy_routes IH]; intros peers expanded seen routes Hne;
    simpl; [done|].
  destruct (_ || _); [apply safe_bad|].
  apply safe_then with (P := λ '(peers', expanded'),
    map pe_allowed_line peers' = map pe_allowed_line peers ∧ (expanded' = true → peers' ≠ [])).
  - destruct (existsb _ _); [done|]. destruct (Z.eqb_spec (zlen peers) 1); simpl; [|done].
    destruct peers as [|p peers]; [done|]. done.
  - intros [peers' expanded'] [E Hne']. destruct (decide _); [apply safe_bad|].
    specialize (IH peers' expanded' ({[pr_destination r]} ∪ seen) (routes ++ [r]) Hne').
    destruct (add_policy_routes _ _ _ _ _) as [[[p2 e2] r2]|]; [|done]. simpl in *.
    by rewrite <- E.
Qed.

Lemma push_allowed_routes_safe l routes : safe (λ _, True) (push_allowed_routes l routes).
Proof.
  revert routes. induction l as [|d l IH]; intros routes; simpl; [done|].
  case_match; [done|]. apply IH.
Qed.

(** The allowed line rewritten in place is still a field. *)
Lemma replace_allowed_ok ps pre value post line :
  ps = pre ++ PField "AllowedIPs" value :: post → Forall piece_ok ps → one_line line = true →
  setconf_ok (replace_range (render ps)
    (str_len (render pre), str_len (render pre) + str_len (setconf_line "AllowedIPs" value))
    (setconf_line "AllowedIPs" line)).
Proof.
  intros -> Hok Hline. exists (pre ++ PField "AllowedIPs" line :: post). split.
  - unfold replace_range. rewrite !render_app. cbn [render render_piece fst snd].
    rewrite str_take_app by done.
    rewrite (str_app_assoc (render pre) (setconf_line "AllowedIPs" value) (render post)).
    rewrite str_drop_app_ge by (by rewrite str_len_app). done.
  - apply Forall_app in Hok as [H1 H2]. apply Forall_cons in H2 as [[Hk _] H2].
    apply Forall_app. split; [done|]. apply Forall_cons. done.
Qed.

Lemma plan_routes_of_safe s policy_routes :
  parse_inv s → (∀ p, p ∈ ps_peers s → pe_allowed_ips p ≠ []) →
  safe (λ plan, setconf_ok (wp_setconf plan)) (plan_routes_of s policy_routes).
Proof.
  intros (ps & H1 & H2 & H3 & H4) Hips. unfold plan_routes_of.
  assert (setconf_ok (wp_setconf (ps_plan s))) as Htext by by exists ps.
  destruct policy_routes as [|r policy_routes].
  - destruct (ps_table_off s); [done|].
    eapply safe_then; [apply push_allowed_routes_safe|]. done.
  - eapply safe_then; [by apply (add_policy_routes_safe (r :: policy_routes))|].
    intros [[peers expanded] routes] [E Hne].
    destruct expanded; [|done].
    destruct peers as [|peer peers]; [by destruct Hne|].
    destruct (ps_peers s) as [|peer0 peers0] eqn:Hpeers; [done|].
    apply Forall_cons in H3 as [[Hsome Hline] _].
    destruct Hsome as [range Hrange]; [apply Hips, list_elem_of_here|].
    injection E as E _. rewrite E, Hrange. cbn [safe wp_setconf].
    destruct (Hline range Hrange) as (pre & value & post & -> & ->).
    unfold with_routes. cbn [wp_setconf]. rewrite H1.
    by apply (replace_allowed_ok _ pre value post); [| |apply allowed_value_one_line].
Qed.
End parser_lemmas.

(** C38. The parser never panics, and the text it hands to [wg setconf]
    consists of section headers and one-line fields of [wg]'s own seven keys:
    no [PreUp], [PostUp], [PreDown], [PostDown], [SaveConfig], [DNS] or
    [Address] of the source can reach it, whatever the source contains. *)
Theorem parse_wireguard_config_setconf `{IpNetLib} `{Base64Lib} source policy_routes :
  safe (λ plan, setconf_ok (wp_setconf plan)) (parse_wireguard_config source policy_routes).
Proof.
  unfold parse_wireguard_config.
  destruct (Z.ltb _ _); [apply safe_bad|]. destruct (Z.ltb _ _); [apply safe_bad|].
  eapply safe_then.
  { apply parse_lines_safe; [|intros raw; apply lines_no_newline].
    exists []. split_and!; [done|constructor|constructor|done]. }
  intros s Hs. cbv zeta.
  destruct (negb _ || _ || _); [apply safe_bad|]. destruct (negb _); [apply safe_bad|].
  destruct (Z.eqb (zlen (wp_addresses _)) 0 || _) eqn:Hmissing; [apply safe_bad|].
  destruct (negb _ && _); [apply safe_bad|].
  eapply safe_then; [apply check_peers_safe|]. intros _ _.
  eapply safe_then.
  { apply plan_routes_of_safe; [done|]. intros p Hp Hnil.
    apply orb_false_iff in Hmissing as [_ Hex].
    assert (existsb (λ p, Z.eqb (zlen (pe_allowed_ips p)) 0) (ps_peers s) = true) as Ht.
    { apply existsb_exists. exists p. split; [by apply list_elem_of_In|]. by rewrite Hnil. }
    congruence. }
  intros plan Hplan. unfold finish_plan.
  destruct (full_coverage _). repeat (case_match; try apply safe_bad). done.
Qed.
