(* ===== verification/OpenVpn.v ===== *)
(** * OpenVPN requests: [crates/daemon/src/openvpn.rs]

    Everything the daemon checks of an OpenVPN request before it asks for
    authorization or touches a file, with the rules for secondary tunnels of
    [crates/core/src/models.rs] it applies. *)

From S2P Require Export LinkNames WireGuardConfig OpenVpnConfig OpenVpnManagement.

(** ** Secondary tunnels *)

Definition MAX_SECONDARY_NETWORKS : Z := 512.

Section secondary.
Context `{IpNetLib}.

Definition secondary_step (networks : result (list IpNet) string) (route : PolicyRoute)
    : result (list IpNet) string :=
  networks <-? networks;
  let network := trunc (pr_destination route) in
  if Z.leb (prefix_len network) 1
  then Err "A secondary connection cannot take all traffic; make it the primary"%string
  else if is_multicast (net_addr network) || is_loopback (net_addr network)
  then Err "A secondary connection cannot take multicast or loopback addresses"%string
  else Ok (if vec_contains networks network then networks else networks ++ [network]).

Definition secondary_networks (routes : list PolicyRoute) : result (list IpNet) string :=
  match routes with
  | [] => Err "Add at least one network to this secondary connection"%string
  | _ =>
    if Z.ltb MAX_SECONDARY_NETWORKS (zlen routes)
    then Err "A secondary connection can carry at most 512 networks"%string
    else fold_left secondary_step routes (Ok [])
  end.

(** [name.contains("..")] *)
Definition has_double_dot (name : string) : bool := is_some (split_once_str ".." name).

Definition dns_suffix_byte (a : ascii) : bool :=
  is_ascii_alphanumeric (byte_of a) || existsb (Ascii.eqb a) ["."; "-"; "_"]%char.

Definition valid_dns_suffix (name : string) : bool :=
  negb (str_is_empty name)
  && Nat.leb (str_len name) 253
  && negb (starts_with name ".")
  && negb (ends_with_char name ".")
  && negb (has_double_dot name)
  && str_all dns_suffix_byte name
  && existsb is_ascii_alphabetic (chars name).

Definition validate_secondary (role : TunnelRole) (routes : list PolicyRoute)
    (dns_domains : list string) : result unit string :=
  if negb (role =b Secondary) then Ok tt else
  _ <-? secondary_networks routes;
  if Z.ltb 16 (zlen dns_domains) || negb (forallb valid_dns_suffix dns_domains)
  then Err "A split-DNS domain is not valid"%string else Ok tt.

End secondary.

(** ** Requests *)

Record OpenVpnConnectParams : Type := mkOvpnParams {
  oq_profile_id : string;
  oq_config : string;
  oq_assets : gmap string string;
  oq_routes : list PolicyRoute;
  oq_interface_name : option string;
  oq_role : TunnelRole;
  oq_dns_domains : list string;
}.

Record OpenVpnConnectRequest : Type := mkOvpnRequest {
  oq_profile : OpenVpnConnectParams;
  oq_credentials : option OpenVpnCredentials;
}.

Record OpenVpnPlan : Type := mkOvpnPlan {
  ol_profile_id : string;
  ol_name : string;
  ol_fallback_name : string;
  ol_config_text : string;
  ol_asset_bytes : gmap string (list Z);
  ol_credentials : option OpenVpnCredentials;
  ol_routes : list PolicyRoute;
  ol_role : TunnelRole;
  ol_dns_domains : list string;
}.

(** The environment variable [NETWORK_ORCHESTRATOR_RUNTIME_DIR] of the
    daemon's process. *)
Class RuntimeDir : Type := { runtime_dir_env : option string }.

Definition RUNTIME_ROOT : string := "/run/network-orchestrator".

Section requests.
Context `{IpNetLib} `{Base64Lib} `{RuntimeDir}.

Definition runtime_root : string := unwrap_or runtime_dir_env RUNTIME_ROOT.

Definition stage_dir (uid : Z) (name : string) : string :=
  path_join (path_join runtime_root (show_Z uid)) name.

Definition rejected : io_error :=
  err_new InvalidInput "OpenVPN profile is unsupported or unsafe".

(** [map_err(|_| rejected())] *)
Definition or_rejected {A E} (r : result A E) : io_result A := map_err (λ _, rejected) r.

Definition sanitized_config (plan : OpenVpnPlan) (staging : string)
    : io_result SanitizedOpenVpnConfig :=
  or_rejected (sanitize_openvpn_config (ol_config_text plan) (ol_asset_bytes plan) staging).

(** The loop over the routes of the request. *)
Fixpoint explicit_routes_ok (seen : list IpNet) (routes : list PolicyRoute) : bool :=
  match routes with
  | [] => true
  | route :: routes =>
    negb (is_some (pr_via route)
          || negb (trunc (pr_destination route) =b pr_destination route)
          || Z.eqb (prefix_len (pr_destination route)) 0
          || vec_contains seen (pr_destination route))
    && explicit_routes_ok (pr_destination route :: seen) routes
  end.

Definition decode_assets (assets : gmap string string) : io_result (gmap string (list Z)) :=
  if bool_decide (map_Forall (λ _ encoded, is_some (b64_decode encoded) = true) assets)
  then Ok (omap b64_decode assets) else Err rejected.

Definition has_line (line : string) (config : string) : bool :=
  existsb (λ l, l =b line) (lines config).

(** A key, inline or as a staged file. *)
Definition is_key_line (line : string) : bool :=
  one_of line ["<key>"; "<pkcs12>"]%string || starts_with line "key " || starts_with line "pkcs12 ".

(** The credentials must be the ones the sanitized configuration asks for. *)
Definition credentials_match (config : SanitizedOpenVpnConfig)
    (credentials : option OpenVpnCredentials) : bool :=
  let has_auth := has_line "auth-user-pass" (sc_config config) in
  let has_askpass := has_line "askpass" (sc_config config) in
  let has_key := existsb is_key_line (lines (sc_config config)) in
  let supplied_auth := is_some_and (λ c, is_some (oc_auth_user_pass c)) credentials in
  let supplied_key_passphrase :=
    is_some_and (λ c, is_some (oc_private_key_passphrase c)) credentials in
  negb (negb (Bool.eqb has_auth supplied_auth)
        || (has_askpass && negb has_key)
        || ((has_askpass || has_encrypted_key (str_bytes (sc_config config)))
            && negb supplied_key_passphrase)
        || (supplied_key_passphrase && negb has_key))
  && negb (existsb (λ asset, has_encrypted_key (as_bytes asset)) (sc_assets config)
           && negb supplied_key_passphrase).

Definition prepare_openvpn (uid : Z) (request : OpenVpnConnectRequest) : io_result OpenVpnPlan :=
  let params := oq_profile request in
  let credentials := oq_credentials request in
  _ <-? or_rejected (validate_owner ("ovpn:" +:+ oq_profile_id params));
  if is_some_and (λ value, is_err (validate_openvpn_credentials value)) credentials
  then Err rejected
  else if Z.ltb 64 (zlen (oq_routes params)) then Err rejected
  else if negb (explicit_routes_ok [] (oq_routes params)) then Err rejected
  else
    let seen := map pr_destination (oq_routes params) in
    if vec_contains seen (mkNet (V4 0) 1) && vec_contains seen (mkNet (ip4 128 0 0 0) 1)
    then Err rejected else
    _ <-? or_rejected (validate_secondary (oq_role params) (oq_routes params)
                         (oq_dns_domains params));
    let '(name, fallback_name) :=
      tunnel_link_names "ovpn-" uid (oq_profile_id params) (oq_interface_name params) in
    let staging := stage_dir uid name in
    if Nat.ltb 32 (size (oq_assets params)) then Err rejected else
    asset_bytes <-? decode_assets (oq_assets params);
    config <-? or_rejected (sanitize_openvpn_config (oq_config params) asset_bytes staging);
    if negb (credentials_match config credentials) then Err rejected
    else Ok {| ol_profile_id := oq_profile_id params;
               ol_name := name;
               ol_fallback_name := fallback_name;
               ol_config_text := oq_config params;
               ol_asset_bytes := asset_bytes;
               ol_credentials := credentials;
               ol_routes := oq_routes params;
               ol_role := oq_role params;
               ol_dns_domains := oq_dns_domains params |}.

End requests.

(** ** A relocated runtime directory

    [scripts/install-linux-daemon-dev.sh] runs a second daemon with
    [NETWORK_ORCHESTRATOR_RUNTIME_DIR=/run/network-orchestrator-dev]. *)

Section relocated.
Context `{IpNetLib} `{Base64Lib} `{RuntimeDir}.

Definition no_slash (s : string) : bool := str_all (λ a, negb (Ascii.eqb a "/")) s.

Lemma no_slash_start s : no_slash s = true → starts_with s "/" = false.
Proof.
  destruct s as [|a s]; [done|]. unfold no_slash, starts_with. cbn [str_all String.prefix].
  intros [Ha _]%andb_true_iff. destruct (ascii_dec "/" a) as [<-|]; done.
Qed.

Lemma show_no_slash z : no_slash (show_Z z) = true.
Proof.
  eapply str_all_impl; [|apply show_digits]. intros a Ha. destruct (Ascii.eqb_spec a "/") as [->|]; done.
Qed.

Lemma name_no_slash s : name_ok s → no_slash s = true.
Proof.
  intros (Hall & _). eapply str_all_impl; [|exact Hall]. intros a Ha.
  destruct (Ascii.eqb_spec a "/") as [->|]; done.
Qed.

Lemma dev_dir_unsafe uid name :
  runtime_dir_env = Some "/run/network-orchestrator-dev" → no_slash name = true →
  safe_staging_dir (stage_dir uid name) = false.
Proof.
  intros Henv Hname. unfold stage_dir, runtime_root. rewrite Henv. cbn [unwrap_or].
  unfold path_join at 2. rewrite no_slash_start by apply show_no_slash.
  assert (∀ p : string, p = "/run/network-orchestrator-dev/" +:+ show_Z uid →
    path_join p name = p +:+ name ∨ path_join p name = p +:+ "/" +:+ name) as Hjoin.
  { intros p _. unfold path_join. rewrite no_slash_start by done. case_match; auto. }
  assert (∀ rest, safe_staging_dir ("/run/network-orchestrator-dev/" +:+ rest) = false) as Hdev.
  { intros rest. unfold safe_staging_dir. apply andb_false_iff. left. apply andb_false_iff. right.
    unfold components.
    change ("/run/network-orchestrator-dev/" +:+ rest) with
      (String "/" ("run" +:+ String "/" ("network-orchestrator-dev" +:+ String "/" rest))).
    cbn [split_char]. rewrite Ascii.eqb_refl, !split_char_app by done. reflexivity. }
  change (str_is_empty "/run/network-orchestrator-dev" || _) with false. cbv iota.
  match goal with |- safe_staging_dir (path_join ?p name) = _ =>
    change p with ("/run/network-orchestrator-dev/" +:+ show_Z uid) end.
  destruct (Hjoin _ eq_refl) as [-> | ->]; rewrite <- str_app_assoc; apply Hdev.
Qed.

(** (relocated runtime). A daemon whose runtime directory is
    [/run/network-orchestrator-dev] refuses every OpenVPN request, valid or
    not: the sanitizer only knows the packaged staging roots. *)
Theorem relocated_runtime_refused (uid : Z) (request : OpenVpnConnectRequest)
    (Henv : runtime_dir_env = Some "/run/network-orchestrator-dev") :
  prepare_openvpn uid request = Err rejected.
Proof.
  destruct (tunnel_link_names_ok "ovpn-" uid (oq_profile_id (oq_profile request))
    (oq_interface_name (oq_profile request))) as [Hname _]; [by split_and!; [| |simpl; lia]|].
  apply name_no_slash in Hname. unfold prepare_openvpn.
  assert (∀ A E (r : result A E), or_rejected r = Err rejected ∨ ∃ a, or_rejected r = Ok a) as Hor
    by (intros A E [a|e]; [right; by eexists|by left]).
  destruct (Hor _ _ (validate_owner ("ovpn:" +:+ oq_profile_id (oq_profile request)))) as [->|[? ->]]; [done|].
  cbn [rbind]. repeat (case_match; [done|]).
  destruct (Hor _ _ (validate_secondary (oq_role (oq_profile request)) (oq_routes (oq_profile request))
                       (oq_dns_domains (oq_profile request)))) as [->|[? ->]]; [done|]. cbn [rbind].
  destruct (tunnel_link_names _ _ _ _) as [name fallback]. cbn [fst] in Hname. cbv zeta.
  case_match; [done|]. unfold decode_assets. case_match; [|done]. cbn [rbind].
  unfold sanitize_openvpn_config. case_match; [done|].
  by rewrite dev_dir_unsafe.
Qed.

End relocated.

#[local] Existing Instance ipnet_model.
#[local] Instance demo_base64 : Base64Lib := {| b64_decode _ := None |}.
#[local] Instance packaged_runtime : RuntimeDir := {| runtime_dir_env := None |}.
Definition dev_runtime : RuntimeDir := {| runtime_dir_env := Some "/run/network-orchestrator-dev" |}.

Definition demo_request_with (auth : string) (credentials : option OpenVpnCredentials)
    : OpenVpnConnectRequest :=
  mkOvpnRequest (mkOvpnParams "home" ("client" +:+ newline +:+ "remote vpn.example 1194" +:+ newline
                                       +:+ auth +:+ newline)
                   ∅ [] None Primary []) credentials.

Definition demo_user : option OpenVpnCredentials :=
  Some (mkCredentials (Some (mkUserPass "alice" "s3cret")) None).

(** The packaged daemon takes the request the relocated one refuses. *)
Lemma relocated_runtime_refused_witness :
  is_ok (prepare_openvpn (H1 := packaged_runtime) 1000 (demo_request_with "" None)) = true ∧
  prepare_openvpn (H1 := dev_runtime) 1000 (demo_request_with "" None) = Err rejected.
Proof.
  split; [vm_compute; reflexivity|].
  exact (relocated_runtime_refused (H1 := dev_runtime) 1000 (demo_request_with "" None) eq_refl).
Defined.

(** [auth-user-pass] takes its credentials; [auth-user-pass username-only],
    which the clients prompt for in the same way, is refused with them. *)
Example user_pass_accepted :
  is_ok (prepare_openvpn 1000 (demo_request_with "auth-user-pass" demo_user)) = true.
Proof. vm_compute. reflexivity. Qed.
Example username_only_refused :
  cr_user_pass (credential_requirements (oq_config (oq_profile
    (demo_request_with "auth-user-pass username-only" demo_user))) ∅) = true ∧
  prepare_openvpn 1000 (demo_request_with "auth-user-pass username-only" demo_user) = Err rejected.
Proof. split; vm_compute; reflexivity. Qed.
