(* ===== verification/OpenVpnProcess.v ===== *)
(** * The OpenVPN process runner: [crates/daemon/src/openvpn_process.rs]

    What stands behind [OpenVpnProcessRunner]: the staging directory of a
    process, its command line, and the management socket it is polled
    through. Spawning and killing the child are not modelled. *)

From S2P Require Export World OpenVpn.

Definition MAX_POLL_BYTES : Z := 64 * 1024.

Record ManagedProcess : Type := mkManaged {
  mp_uid : Z;
  mp_pending : bytes;
  mp_credentials : option OpenVpnCredentials;
}.

(** [TrustedOpenVpnProcess.children] *)
Definition Children : Type := gmap string ManagedProcess.

(** ** Names and arguments *)

Definition tun_name_byte (a : ascii) : bool :=
  is_ascii_alphanumeric (byte_of a) || Ascii.eqb a "-".

Definition valid_tun_name (name : string) : bool :=
  starts_with name "ovpn-"
  && Nat.leb 6 (str_len name) && Nat.leb (str_len name) 15
  && str_all tun_name_byte name.

Definition link_name_invalid : io_error := err_new InvalidInput "invalid OpenVPN link name".

Definition openvpn_args (config name socket : string) (mark : Z) : list string :=
  ["--config"; config; "--dev"; name; "--dev-type"; "tun"; "--disable-dco"; "--route-nopull";
   "--route-noexec"; "--script-security"; "1"; "--ignore-unknown-option"; "dns-updown";
   "--dns-updown"; "disable"; "--management"; socket; "unix"; "--management-client-user"; "root";
   "--management-query-passwords"; "--management-hold"; "--auth-nocache"; "--verb"; "3"]%string
  ++ ["--mark"%string; show_Z mark].

(** ** The management stream *)

Section stream.
Context `{IpNetLib} `{NetmaskLib}.

Definition line_too_large : io_error := err_new InvalidData "OpenVPN management line too large".
Definition line_invalid : io_error := err_new InvalidData "OpenVPN management line is invalid".
Definition event_invalid : io_error := err_new InvalidData "OpenVPN management event is invalid".

(** The events of one line: a failure the state names comes first. *)
Definition line_events (line : bytes) : io_result (list ManagementEvent) :=
  text <-? ok_or (from_utf8 line) line_invalid;
  event <-? map_err (λ _, event_invalid) (parse_management_line text);
  Ok (match event with
      | Some event =>
        (match state_failure_detail text with
         | Some failure => [EvFailureDetail failure]
         | None => []
         end) ++ [event]
      | None => []
      end).

(** The loop over complete lines; every turn takes a line off [pending], so
    [length pending] turns are enough. Returns what is left in [pending]. *)
Fixpoint drain_lines (fuel : nat) (pending : bytes) (events : list ManagementEvent)
    : io_result (list ManagementEvent) * bytes :=
  match position (Z.eqb 10) pending, fuel with
  | Some end_, S fuel =>
    if Z.ltb MAX_MANAGEMENT_LINE_BYTES (Z.of_nat end_) then (Err line_too_large, pending)
    else
      match line_events (take end_ pending) with
      | Ok new => drain_lines fuel (drop (S end_) pending) (events ++ new)
      | Err err => (Err err, drop (S end_) pending)
      end
  | _, _ =>
    if Z.ltb MAX_MANAGEMENT_LINE_BYTES (zlen pending) then (Err line_too_large, pending)
    else (Ok events, pending)
  end.

Definition drain_management (pending input : bytes) : io_result (list ManagementEvent) * bytes :=
  drain_lines (length (pending ++ input)) (pending ++ input) [].

End stream.

(** ** The staging directory

    Paths are the root of the staging tree and what follows it. *)

Definition staging_failed : io_error := err_other "OpenVPN staging failed".
Definition cleanup_failed : io_error := err_other "OpenVPN staging cleanup failed".
Definition staging_unsafe : io_error :=
  err_new PermissionDenied "OpenVPN staging directory is unsafe".
Definition asset_invalid : io_error := err_new InvalidInput "invalid OpenVPN asset".

(** [map_err(|_| e)] on a call. *)
Definition with_error {S A} (e : io_error) (m : M S (io_result A)) : M S (io_result A) :=
  let! r := m in ret (map_err (λ _, e) r).

Section staging.
Context `{Env} {S : Type}.

(** [metadata.is_dir() && metadata.uid() == root_uid && mode & 0o077 == 0] *)
Definition own_dir (metadata : FileMeta) (root_uid : Z) : bool :=
  fm_is_dir metadata && Z.eqb (fm_uid metadata) root_uid && Z.eqb (Z.land (fm_mode metadata) 63) 0.

Definition ensure_runtime_root (root : path) : M S (io_result unit) :=
  let unavailable := err_other "OpenVPN runtime directory is unavailable" in
  let! exists_ := call (FsExists root) in
  let? _ := if exists_ : bool then ret (Ok tt) else with_error unavailable (call (FsCreateDir root 448)) in
  let? metadata := with_error unavailable (call (FsMetadata root)) in
  if negb (fm_is_dir metadata) || negb (Z.eqb (fm_uid metadata) 0)
     || negb (Z.eqb (Z.land (fm_mode metadata) 18) 0)
  then fail (err_new PermissionDenied "OpenVPN runtime directory is unsafe")
  else ret (Ok tt).

Definition write_private_file (p : path) (contents : bytes) : M S (io_result unit) :=
  let? _ := with_error (err_other "OpenVPN staging file creation failed")
              (call (FsCreateNew p 384)) in
  let? _ := with_error (err_other "OpenVPN staging file write failed")
              (call (FsWriteAll p contents)) in
  with_error (err_other "OpenVPN staging file sync failed") (call (FsSyncAll p)).

(** A file the runner puts into a staging directory. *)
Definition staged_name (name : string) : bool :=
  one_of name ["config.ovpn"; "management.sock"]%string
  || match strip_prefix name "asset-" with
     | Some suffix => is_some (parse_uint (2 ^ 64) suffix)
     | None => false
     end.

Definition remove_staged (directory : path) (entry : io_result (option string))
    : M S (io_result unit) :=
  let? file_name := lift (map_err (λ _, cleanup_failed) entry) in
  let? name := lift (ok_or file_name cleanup_failed) in
  if negb (staged_name name)
  then fail (err_new PermissionDenied "OpenVPN staging contains unknown file") else
  let? metadata := with_error cleanup_failed (call (FsMetadata (directory ++ [name]))) in
  if negb (fm_is_file metadata || ((name =b "management.sock"%string) && fm_is_socket metadata))
  then fail (err_new PermissionDenied "OpenVPN staging contains unsafe file") else
  with_error cleanup_failed (call (FsRemoveFile (directory ++ [name]))).

(** [symlink_metadata], [None] when there is nothing. *)
Definition metadata_if_present (p : path) : M S (io_result (option FileMeta)) :=
  let! metadata := call (FsMetadata p) in
  ret (match metadata with
       | Ok metadata => Ok (Some metadata)
       | Err err => if has_kind NotFound err then Ok None else Err cleanup_failed
       end).

Definition cleanup_stage_at (root : path) (uid : Z) (name : string) : M S (io_result unit) :=
  if negb (valid_tun_name name) then fail link_name_invalid else
  let user_dir := root ++ [show_Z uid] in
  let? user_metadata := metadata_if_present user_dir in
  match user_metadata with
  | None => ret (Ok tt)
  | Some user_metadata =>
    let? root_metadata := with_error cleanup_failed (call (FsMetadata root)) in
    if negb (own_dir user_metadata (fm_uid root_metadata)) then fail staging_unsafe else
    let directory := user_dir ++ [name] in
    let? metadata := metadata_if_present directory in
    match metadata with
    | None => ret (Ok tt)
    | Some metadata =>
      if negb (own_dir metadata (fm_uid root_metadata)) then fail staging_unsafe else
      let? found := with_error cleanup_failed (call (FsReadDir directory)) in
      let? _ := for_try found tt (λ _ entry, remove_staged directory entry) in
      let? _ := with_error cleanup_failed (call (FsRemoveDir directory)) in
      let! _ := call (FsRemoveDir user_dir) in
      ret (Ok tt)
    end
  end.

(** [for (index, asset) in config.assets.iter().enumerate()] *)
Definition stage_asset (directory : path) (indexed : nat * SanitizedOpenVpnAsset)
    : M S (io_result unit) :=
  let '(index, asset) := indexed in
  if negb (as_name asset =b ("asset-" +:+ show_Z (Z.of_nat index))%string)
     || Nat.eqb (length (as_bytes asset)) 0
     || Z.ltb MAX_ASSET_BYTES (zlen (as_bytes asset))
  then fail asset_invalid
  else write_private_file (directory ++ [as_name asset]) (as_bytes asset).

Definition stage_files (directory : path) (config : SanitizedOpenVpnConfig)
    : M S (io_result unit) :=
  let? _ := write_private_file (directory ++ ["config.ovpn"%string]) (str_bytes (sc_config config)) in
  for_try (imap pair (sc_assets config)) tt (λ _, stage_asset directory).

Definition stage_config_at (root : path) (uid : Z) (name : string)
    (config : SanitizedOpenVpnConfig) : M S (io_result path) :=
  if negb (valid_tun_name name)
     || Z.ltb MAX_CONFIG_BYTES (Z.of_nat (str_len (sc_config config)))
     || Z.ltb 32 (zlen (sc_assets config))
  then fail (err_new InvalidInput "invalid OpenVPN staging input") else
  let user_dir := root ++ [show_Z uid] in
  let! exists_ := call (FsExists user_dir) in
  let? _ := if exists_ : bool then ret (Ok tt)
            else with_error staging_failed (call (FsCreateDir user_dir 448)) in
  let? metadata := with_error staging_failed (call (FsMetadata user_dir)) in
  let? root_metadata := with_error staging_failed (call (FsMetadata root)) in
  if negb (own_dir metadata (fm_uid root_metadata)) then fail staging_unsafe else
  let directory := user_dir ++ [name] in
  let? _ := with_error (err_new AlreadyExists "OpenVPN staging directory already exists")
              (call (FsCreateDir directory 448)) in
  let! result := stage_files directory config in
  match result with
  | Err error => let! _ := cleanup_stage_at root uid name in fail error
  | Ok _ => ret (Ok directory)
  end.

End staging.

(** ** The runner *)

Section runner.
Context `{Env} `{IpNetLib} `{NetmaskLib} `{RuntimeDir}.

Definition link_index (name : string) : M Children (io_result (option Z)) :=
  if negb (valid_tun_name name) then fail link_name_invalid else
  let! index := call (IfNametoindex name) in
  ret (Ok (if Z.eqb index 0 then None else Some index)).

Definition runtime_path : path := [runtime_root].

Definition staging_exists (uid : Z) (name : string) : M Children (io_result bool) :=
  if negb (valid_tun_name name) then fail link_name_invalid else
  let! metadata := call (FsMetadata (runtime_path ++ [show_Z uid; name])) in
  ret (match metadata with
       | Ok _ => Ok true
       | Err err => if has_kind NotFound err then Ok false else Err err
       end).

Definition write_failed : io_error := err_other "OpenVPN management write failed".

Definition respond_to_password_prompt (name : string) (prompt : PasswordPrompt)
    (credentials : option OpenVpnCredentials) : M Children (io_result unit) :=
  let? reply := lift (map_err (λ _, err_new PermissionDenied
                        "OpenVPN credentials are unavailable or invalid")
                        (management_password_reply prompt credentials)) in
  let? _ := with_error write_failed (call (ManagementBlocking name true)) in
  let! result := call (ManagementWrite name reply) in
  let! restored := call (ManagementBlocking name false) in
  if is_err result || is_err restored then fail write_failed else ret (Ok tt).

(** One event of a drained chunk: prompts are answered here and never handed
    on. [prompt_error] is the last answer that failed. *)
Definition poll_event (name : string) (exited : bool) (credentials : option OpenVpnCredentials)
    (acc : list ManagementEvent * option io_error) (event : ManagementEvent)
    : M Children (list ManagementEvent * option io_error) :=
  let '(events, prompt_error) := acc in
  match event with
  | EvPasswordPrompt prompt =>
    if exited then ret (events, prompt_error)
    else
      let! replied := respond_to_password_prompt name prompt credentials in
      ret (events, match replied with Err error => Some error | Ok _ => prompt_error end)
  | other => ret (events ++ [other], prompt_error)
  end.

Definition set_pending (pending : bytes) (p : ManagedProcess) : ManagedProcess :=
  mkManaged (mp_uid p) pending (mp_credentials p).

(** The read loop. A read that returns something returns at least a byte, so
    [MAX_POLL_BYTES] turns are enough; running out is a panic. *)
Fixpoint read_loop (fuel : nat) (name : string) (exited : bool) (process : ManagedProcess)
    (total : Z) (acc : list ManagementEvent * option io_error)
    : M Children (io_result (list ManagementEvent * option io_error * bool)) :=
  match fuel with
  | 0 => panic
  | S fuel =>
    let! chunk := call (ManagementRead name) in
    match chunk with
    | Ok [] => ret (Ok (acc, true))
    | Ok chunk =>
      let total := (total + zlen chunk)%Z in
      let '(drained, pending) := drain_management (mp_pending process) chunk in
      let process := set_pending pending process in
      modify (<[name := process]>) ;;;
      let? drained := lift drained in
      let! acc := for_acc drained acc (poll_event name exited (mp_credentials process)) in
      if Z.leb MAX_POLL_BYTES total then ret (Ok (acc, false))
      else read_loop fuel name exited process total acc
    | Err error =>
      if has_kind WouldBlock error then ret (Ok (acc, false))
      else fail (err_other "OpenVPN management read failed")
    end
  end.

Definition child_missing : io_error := err_new NotFound "OpenVPN child not found".

Definition is_auth_failed (event : ManagementEvent) : bool :=
  match event with EvAuthenticationFailed => true | _ => false end.

Definition poll (name : string) : M Children (io_result (list ManagementEvent)) :=
  let! children := get in
  let? process := lift (ok_or (children !! name) child_missing) in
  let? exited := with_error (err_other "OpenVPN child check failed") (call (ChildExited name)) in
  let? '(events, prompt_error, disconnected) :=
    read_loop (Z.to_nat MAX_POLL_BYTES) name exited process 0 ([], None) in
  if exited || disconnected || is_some prompt_error then
    if existsb is_auth_failed events then ret (Ok [EvAuthenticationFailed])
    else if is_some prompt_error then ret (Ok (events ++ [EvFailureDetail CredentialsRequired]))
    else fail (err_new NotConnected
                 (if exited then "OpenVPN child exited" else "OpenVPN management disconnected"))
  else ret (Ok events).

Definition cleanup (uid : Z) (name : string) : M Children (io_result unit) :=
  let! children := get in
  match children !! name with
  | Some process =>
    if negb (Z.eqb (mp_uid process) uid)
    then fail (err_new PermissionDenied "OpenVPN child ownership mismatch")
    else fail (err_new WouldBlock "OpenVPN child is still tracked")
  | None =>
    let? _ := ensure_runtime_root runtime_path in
    cleanup_stage_at runtime_path uid name
  end.

End runner.
