(* ===== verification/XrayProcess.v ===== *)
(** * The Xray process runner: [crates/daemon/src/xray_process.rs]

    What stands behind [XrayProcessRunner]: the managed binary, the staging
    directory, the identity of a process on record, and the life of a child.
    A child is known by its process id, a directory entry by its path. *)

From S2P Require Export ManagedXray OpenVpnProcess GeoList LogRedact XrayPlan.

Definition BINARY_ROOT : path :=
  ["/"; "usr"; "lib"; "network-orchestrator"; "xray"]%string.
(** In milliseconds. *)
Definition LINK_TIMEOUT : Z := 5000.
Definition STOP_TIMEOUT : Z := 2000.
Definition KILL_TIMEOUT : Z := 5000.
Definition STATSQUERY_TIMEOUT : Z := 1500.
Definition LOG_TAIL_BYTES : Z := 4 * 1024.
Definition LOG_JOURNAL_LINES : nat := 20.
Definition MAX_GEO_ASSET_BYTES : Z := 64 * 1024 * 1024.
Definition SIGTERM : Z := 15.
Definition SIGKILL : Z := 9.

(** [TrustedXrayProcess.children]: the user a child runs for, and the child. *)
Definition Children : Type := gmap string (Z * Z).

Definition invalid_input : io_error := err_new InvalidInput "invalid Xray process input".

Definition valid_tun_name (name : string) : bool :=
  starts_with name "xray-"
  && Nat.leb 6 (str_len name) && Nat.leb (str_len name) 15
  && str_all tun_name_byte name.

(** A path as the text the kernel and a command line have of it. *)
Definition path_text (p : path) : string :=
  match p with
  | [] => EmptyString
  | root :: names => foldl path_join root names
  end.

(** [path.parent()] of a path with a name. *)
Definition parent (p : path) : path := removelast p.

(** ** [String::from_utf8_lossy]

    The longest start of a sequence that is not continued as it must be is
    one replacement character. *)

Definition REPLACEMENT : string := string_of_bytes [239; 191; 189]%Z.

(** Every turn takes a byte, so the number of bytes is enough. *)
Fixpoint lossy_fuel (fuel : nat) (bs : bytes) : string :=
  match fuel, bs with
  | Datatypes.S fuel, a :: rest =>
    let b := List.hd 0%Z rest in
    let c := List.hd 0%Z (drop 1 rest) in
    let d := List.hd 0%Z (drop 2 rest) in
    if Z.ltb a 128 then string_of_bytes [a] +:+ lossy_fuel fuel rest
    else if in_range 194 223 a then
      if continuation b then string_of_bytes [a; b] +:+ lossy_fuel fuel (drop 1 rest)
      else REPLACEMENT +:+ lossy_fuel fuel rest
    else if in_range 224 239 a then
      if negb (second_of_three a b) then REPLACEMENT +:+ lossy_fuel fuel rest
      else if continuation c then string_of_bytes [a; b; c] +:+ lossy_fuel fuel (drop 2 rest)
      else REPLACEMENT +:+ lossy_fuel fuel (drop 1 rest)
    else if in_range 240 244 a then
      if negb (second_of_four a b) then REPLACEMENT +:+ lossy_fuel fuel rest
      else if negb (continuation c) then REPLACEMENT +:+ lossy_fuel fuel (drop 1 rest)
      else if continuation d then string_of_bytes [a; b; c; d] +:+ lossy_fuel fuel (drop 3 rest)
      else REPLACEMENT +:+ lossy_fuel fuel (drop 2 rest)
    else REPLACEMENT +:+ lossy_fuel fuel rest
  | _, _ => EmptyString
  end.

Definition from_utf8_lossy (bs : bytes) : string := lossy_fuel (length bs) bs.

(** ** The managed binary *)

Section files.
Context `{Env} {S : Type}.

Definition safe_owned_file (p : path) (owner : Z) (executable : bool) : M S bool :=
  let! file := call (FsMetadata p) in
  ret (match file with
       | Ok file =>
         fm_is_file file && Z.eqb (fm_uid file) owner && Z.eqb (Z.land (fm_mode file) 18) 0
         && (negb executable || negb (Z.eqb (Z.land (fm_mode file) 73) 0))
       | Err _ => false
       end).

(** The loop over the parents, from the nearest to the root. *)
Fixpoint safe_parents (directories : list path) : M S bool :=
  match directories with
  | [] => ret false
  | directory :: directories =>
    let! metadata := call (FsMetadata directory) in
    match metadata with
    | Ok metadata =>
      if negb (fm_is_dir metadata) || negb (Z.eqb (fm_uid metadata) 0)
         || negb (Z.eqb (Z.land (fm_mode metadata) 18) 0)
      then ret false
      else if directory =b ["/"%string] then ret true
      else safe_parents directories
    | Err _ => ret false
    end
  end.

Definition safe_root_owned_path (p : path) : M S bool :=
  let! safe := safe_owned_file p 0 true in
  if safe : bool then safe_parents (tail (ancestors p)) else ret false.

(** [["geoip.dat", "geosite.dat"].iter().any(|name| !safe_owned_file(..))] *)
Fixpoint any_unsafe_asset (directory : path) (names : list string) : M S bool :=
  match names with
  | [] => ret false
  | name :: names =>
    let! safe := safe_owned_file (directory ++ [name]) 0 false in
    if safe : bool then any_unsafe_asset directory names else ret true
  end.

Definition trusted_binary `{Sha256Lib} : M S (io_result path) :=
  let binary := linux_managed_version_dir BINARY_ROOT ++ ["xray"%string] in
  let unsafe := err_new PermissionDenied "managed Xray installation is unsafe" in
  let! safe := safe_root_owned_path binary in
  if negb safe then fail unsafe
  else
    let! unsafe_asset := any_unsafe_asset (parent binary) ["geoip.dat"; "geosite.dat"]%string in
    if unsafe_asset : bool then fail unsafe
    else
      let? _ := with_error (err_new PermissionDenied "managed Xray verification failed")
                  (verify_managed_linux_executable BINARY_ROOT binary) in
      ret (Ok binary).

(** [fs::read_to_string] *)
Definition read_to_string (p : path) : M S (io_result string) :=
  let? contents := call (FsRead p) in
  ret (ok_or (from_utf8 contents) (err_new InvalidData "stream did not contain valid UTF-8")).

(** [file.take(limit).read_to_end(&mut bytes)?] *)
Definition read_limited (p : path) (limit : Z) : M S (io_result bytes) :=
  let! '(contents, error) := call (FsReadSome p limit) in
  ret (match error with Some error => Err error | None => Ok contents end).

(** ** Private files *)

Definition file_creation_failed : io_error := err_other "Xray staging file creation failed".
Definition file_write_failed : io_error := err_other "Xray staging file write failed".
Definition file_sync_failed : io_error := err_other "Xray staging file sync failed".

Definition write_private_file (p : path) (contents : bytes) : M S (io_result unit) :=
  let? _ := with_error file_creation_failed (call (FsCreateNew p 384)) in
  let? _ := with_error file_write_failed (call (FsWriteAll p contents)) in
  with_error file_sync_failed (call (FsSyncAll p)).

(** [metadata.is_file() && metadata.uid() == 0 && mode & 0o077 == 0] *)
Definition private_root_file (metadata : FileMeta) : bool :=
  fm_is_file metadata && Z.eqb (fm_uid metadata) 0 && Z.eqb (Z.land (fm_mode metadata) 63) 0.

Definition open_log_file (p : path) (fresh : bool) : M S (io_result unit) :=
  let open_failed := err_other "Xray log open failed" in
  if fresh then with_error open_failed (call (FsCreateNew p 384))
  else
    let? metadata := with_error (err_other "Xray log check failed") (call (FsMetadata p)) in
    if negb (private_root_file metadata)
    then fail (err_new PermissionDenied "Xray log is unsafe")
    else with_error open_failed (call (FsOpenAppend p)).

Definition rewrite_private_file (p : path) (contents : bytes) : M S (io_result unit) :=
  let! metadata := call (FsMetadata p) in
  let? _ := lift (match metadata with
    | Ok metadata =>
      if negb (private_root_file metadata)
      then Err (err_new PermissionDenied "Xray staging file is unsafe") else Ok tt
    | Err err =>
      if has_kind NotFound err then Ok tt else Err (err_other "Xray staging file check failed")
    end) in
  let? _ := with_error file_creation_failed (call (FsOpenTruncate p 384)) in
  let? _ := with_error file_write_failed (call (FsWriteAll p contents)) in
  with_error file_sync_failed (call (FsSyncAll p)).

Definition log_tail (p : path) : M S string :=
  let! metadata := call (FsMetadata p) in
  match metadata with
  | Err _ => ret EmptyString
  | Ok metadata =>
    if negb (fm_is_file metadata && Z.eqb (Z.land (fm_mode metadata) 63) 0) then ret EmptyString
    else if Z.eqb (fm_len metadata) 0 || Z.ltb (8 * 1024 * 1024) (fm_len metadata) then ret EmptyString
    else
      let! opened := call (FsOpen p) in
      if is_err opened then ret EmptyString
      else
        let start := Z.max 0 (fm_len metadata - LOG_TAIL_BYTES) in
        let! sought := call (FsSeek p start) in
        if is_err sought then ret EmptyString
        else
          let! contents := read_limited p LOG_TAIL_BYTES in
          match contents with
          | Err _ => ret EmptyString
          | Ok contents =>
            let text := from_utf8_lossy contents in
            ret (match split_once "010" text with
                 | Some (_, rest) => if Z.ltb 0 start then trim rest else trim text
                 | None => trim text
                 end)
          end
  end.
End files.

(** ** The staging directory *)

Section staging.
Context `{Env} `{Base64Lib} {S : Type}.

Definition stage_failed : io_error := err_other "Xray staging failed".
Definition stage_cleanup_failed : io_error := err_other "Xray staging cleanup failed".
Definition stage_unsafe : io_error := err_new PermissionDenied "Xray staging directory is unsafe".
Definition runtime_unsafe : io_error := err_new PermissionDenied "Xray runtime directory is unsafe".

(** [Err(error) if error.kind() == NotFound => return Ok(..)], any other
    error becomes [e]. *)
Definition present (e : io_error) (p : path) : M S (io_result (option FileMeta)) :=
  let! metadata := call (FsMetadata p) in
  ret (match metadata with
       | Ok metadata => Ok (Some metadata)
       | Err err => if has_kind NotFound err then Ok None else Err e
       end).

Definition known_file (name : string) : bool :=
  one_of name ["config.json"; "process"; "geoip.dat"; "geosite.dat"; "xray.log"]%string.

(** One entry of the directory that is taken away. *)
Definition remove_entry (directory : path) (owner : Z) (entry : io_result (option string))
    : M S (io_result unit) :=
  let? file_name := lift (map_err (λ _, stage_cleanup_failed) entry) in
  match file_name with
  | Some name =>
    if negb (known_file name)
    then fail (err_new PermissionDenied "Xray staging contains unknown file")
    else
      let? file := with_error stage_cleanup_failed (call (FsMetadata (directory ++ [name]))) in
      if negb (fm_is_file file) || negb (Z.eqb (fm_uid file) owner)
         || negb (Z.eqb (Z.land (fm_mode file) 63) 0)
      then fail (err_new PermissionDenied "Xray staging file is unsafe")
      else with_error stage_cleanup_failed (call (FsRemoveFile (directory ++ [name])))
  | None => fail (err_new PermissionDenied "Xray staging contains unknown file")
  end.

Definition cleanup_stage_at (root : path) (uid : Z) (name : string) : M S (io_result unit) :=
  if negb (valid_tun_name name) then fail invalid_input
  else
    let? root_metadata := with_error stage_cleanup_failed (call (FsMetadata root)) in
    let owner := fm_uid root_metadata in
    let user_dir := root ++ [show_Z uid] in
    let? user := present stage_cleanup_failed user_dir in
    match user with
    | None => ret (Ok tt)
    | Some user =>
      if negb (own_dir user owner) then fail stage_unsafe
      else
        let directory := user_dir ++ [name] in
        let? stage := present stage_cleanup_failed directory in
        match stage with
        | None => ret (Ok tt)
        | Some stage =>
          if negb (own_dir stage owner) then fail stage_unsafe
          else
            let? entries := with_error stage_cleanup_failed (call (FsReadDir directory)) in
            let? _ := for_try entries tt (λ _, remove_entry directory owner) in
            let? _ := with_error stage_cleanup_failed (call (FsRemoveDir directory)) in
            let! _ := call (FsRemoveDir user_dir) in
            ret (Ok tt)
        end
    end.

Definition config_too_large (config : string) : bool :=
  Z.ltb MAX_XRAY_CONFIG_BYTES (Z.of_nat (str_len config)).

Definition stage_config_at (root : path) (uid : Z) (name config : string) : M S (io_result path) :=
  if negb (valid_tun_name name) || config_too_large config then fail invalid_input
  else
    let? metadata := with_error stage_failed (call (FsMetadata root)) in
    if negb (fm_is_dir metadata) || negb (Z.eqb (Z.land (fm_mode metadata) 18) 0)
    then fail runtime_unsafe
    else
      let owner := fm_uid metadata in
      let user_dir := root ++ [show_Z uid] in
      let! exists_ := call (FsExists user_dir) in
      let? _ := if exists_ : bool then ret (Ok tt)
                else with_error stage_failed (call (FsCreateDir user_dir 448)) in
      let? user := with_error stage_failed (call (FsMetadata user_dir)) in
      if negb (own_dir user owner) then fail stage_unsafe
      else
        let directory := user_dir ++ [name] in
        let? _ := with_error (err_new AlreadyExists "Xray staging directory already exists")
                    (call (FsCreateDir directory 448)) in
        let! written := write_private_file (directory ++ ["config.json"%string]) (str_bytes config) in
        match written with
        | Err error => let! _ := cleanup_stage_at root uid name in fail error
        | Ok _ => ret (Ok directory)
        end.

(** The managed file, when it can be read and is neither empty nor too large;
    what was read before an error counts. *)
Definition managed_asset (p : path) : M S (option bytes) :=
  let! opened := call (FsOpen p) in
  match opened with
  | Err _ => ret None
  | Ok _ =>
    let! '(contents, _) := call (FsReadSome p (MAX_GEO_ASSET_BYTES + 1)) in
    ret (if negb (Z.eqb (zlen contents) 0) && Z.leb (zlen contents) MAX_GEO_ASSET_BYTES
         then Some contents else None)
  end.

(** What is staged under a name. *)
Definition asset_bytes (encoded : option string) (managed : option bytes) : io_result bytes :=
  match encoded with
  | Some data =>
    decoded <-? ok_or (b64_decode data) invalid_input;
    if Z.eqb (zlen decoded) 0 || Z.ltb MAX_GEO_ASSET_BYTES (zlen decoded) then Err invalid_input
    else Ok (match managed with
             | Some stock => unwrap_or (ok (merge_geo_list stock decoded)) decoded
             | None => decoded
             end)
  | None => ok_or managed (err_other "geo asset file is unreadable")
  end.

Definition stage_geo_assets (assets : XrayGeoAssets) (staging managed_dir : path)
    : M S (io_result unit) :=
  for_try [("geoip.dat"%string, ga_geoip_dat_b64 assets); ("geosite.dat"%string, ga_geosite_dat_b64 assets)]
    tt (λ _ '(name, encoded),
      let! managed := managed_asset (managed_dir ++ [name]) in
      let? contents := lift (asset_bytes encoded managed) in
      write_private_file (staging ++ [name]) contents).

End staging.

(** ** The runtime directory and the process record *)

Record VerifiedProcess : Type := mkVerified {
  vp_pid : Z;
  vp_starttime : Z;
  vp_config : path;
}.

(** [s.rsplit_once(p)] for a string pattern. *)
Fixpoint rsplit_once_str (p s : string) : option (string * string) :=
  match s with
  | EmptyString => None
  | String a s' =>
    match rsplit_once_str p s' with
    | Some (l, r) => Some (String a l, r)
    | None => (λ r, (EmptyString, r)) <$> strip_prefix s p
    end
  end.

Definition parse_starttime (stat : string) : option Z :=
  match rsplit_once_str ") " stat with
  | Some (_, fields) => field ← split_whitespace fields !! 19; parse_uint (2 ^ 64) field
  | None => None
  end.

(** The text of a record: a process id and its start time. *)
Definition parse_record (record : string) : option (Z * Z) :=
  match split_whitespace record with
  | [pid; starttime] =>
    pid ← parse_uint (2 ^ 32) pid;
    starttime ← parse_uint (2 ^ 64) starttime;
    if Z.eqb pid 0 then None else Some (pid, starttime)
  | _ => None
  end.

Definition process_record (pid starttime : Z) : string :=
  show_Z pid +:+ " " +:+ show_Z starttime +:+ newline.

Section record.
Context `{Env} `{RuntimeDir} `{IpNetLib} {S : Type}.

Definition ensure_runtime_root : M S (io_result unit) :=
  let? metadata := with_error (err_other "Xray runtime directory unavailable")
                     (call (FsMetadata runtime_path)) in
  if negb (fm_is_dir metadata) || negb (Z.eqb (fm_uid metadata) 0)
     || negb (Z.eqb (Z.land (fm_mode metadata) 18) 0)
  then fail runtime_unsafe else ret (Ok tt).

Definition staging_dir (uid : Z) (name : string) : path := runtime_path ++ [show_Z uid; name].

Definition staging_unavailable : io_error := err_other "Xray staging directory unavailable".

Definition assert_staging_dir (uid : Z) (name : string) : M S (io_result path) :=
  let directory := staging_dir uid name in
  let? _ := for_try [parent directory; directory] tt (λ _ p,
    let? metadata := with_error staging_unavailable (call (FsMetadata p)) in
    if negb (own_dir metadata 0) then fail stage_unsafe else ret (Ok tt)) in
  ret (Ok directory).

Definition staged_config_path (uid : Z) (name : string) : M S (io_result path) :=
  if negb (valid_tun_name name) then fail invalid_input
  else
    let? _ := ensure_runtime_root in
    let? directory := assert_staging_dir uid name in
    ret (Ok (directory ++ ["config.json"%string])).

Definition record_invalid : io_error := err_other "Xray process record invalid".

(** The directories on the way to the record: [false] when one is missing. *)
Fixpoint directories_present (directories : list path) : M S (io_result bool) :=
  match directories with
  | [] => ret (Ok true)
  | directory :: directories =>
    let? metadata := present staging_unavailable directory in
    match metadata with
    | None => ret (Ok false)
    | Some metadata =>
      if negb (own_dir metadata 0) then fail stage_unsafe else directories_present directories
    end
  end.

Definition read_process_record (uid : Z) (name : string) : M S (io_result (option VerifiedProcess)) :=
  if negb (valid_tun_name name) then fail invalid_input
  else
    let? _ := ensure_runtime_root in
    let directory := staging_dir uid name in
    let? there := directories_present [parent directory; directory] in
    if negb there then ret (Ok None)
    else
      let record_path := directory ++ ["process"%string] in
      let? metadata := present record_invalid record_path in
      match metadata with
      | None => ret (Ok None)
      | Some metadata =>
        if negb (private_root_file metadata) || Z.ltb 64 (fm_len metadata)
        then fail (err_new PermissionDenied "Xray process record is unsafe")
        else
          let? _ := call (FsOpen record_path) in
          let? contents := read_limited record_path 65 in
          let? record := lift (ok_or (from_utf8 contents)
                           (err_new InvalidData "stream did not contain valid UTF-8")) in
          if Nat.ltb 64 (str_len record) then fail record_invalid
          else
            let? '(pid, starttime) := lift (ok_or (parse_record record) record_invalid) in
            ret (Ok (Some (mkVerified pid starttime (directory ++ ["config.json"%string]))))
      end.

(** ** The identity of a process *)

Definition proc_file (pid : Z) (file : string) : path := ["/proc"%string; show_Z pid; file].

Definition identity_unavailable : io_error := err_other "Xray process identity unavailable".

Definition read_starttime (pid : Z) : M S (io_result Z) :=
  let? stat := with_error identity_unavailable (read_to_string (proc_file pid "stat")) in
  ret (ok_or (parse_starttime stat) (err_other "Xray process identity invalid")).

(** The arguments in [/proc/<pid>/cmdline]: what stands between zero bytes. *)
Fixpoint split_zero (contents : bytes) (word : bytes) : list bytes :=
  match contents with
  | [] => [word]
  | b :: contents =>
    if Z.eqb b 0 then word :: split_zero contents [] else split_zero contents (word ++ [b])
  end.

Definition cmdline_args (contents : bytes) : list bytes :=
  bfilter (λ arg, negb (Z.eqb (zlen arg) 0)) (split_zero contents []).

(** [run -config <config>] and nothing else, whatever the first argument. *)
Definition recorded_command (config : path) (contents : bytes) : bool :=
  match cmdline_args contents with
  | [_; run; flag; file] =>
    (run =b str_bytes "run") && (flag =b str_bytes "-config") && (file =b str_bytes (path_text config))
  | _ => false
  end.

(** [NotFound => return Ok(false)]; another error keeps its kind. *)
Definition found_or {A} (message : string) (m : M S (io_result A)) : M S (io_result (option A)) :=
  let! found := m in
  ret (match found with
       | Ok a => Ok (Some a)
       | Err error => if has_kind NotFound error then Ok None else Err (err_new (ekind error) message)
       end).

Definition same_recorded_command (pid starttime : Z) (config : path) : M S (io_result bool) :=
  let? stat := found_or "Xray process identity unavailable" (read_to_string (proc_file pid "stat")) in
  match stat with
  | None => ret (Ok false)
  | Some stat =>
    if negb (parse_starttime stat =b Some starttime) then ret (Ok false)
    else
      let? opened := found_or "Xray process command unavailable" (call (FsOpen (proc_file pid "cmdline"))) in
      match opened with
      | None => ret (Ok false)
      | Some _ =>
        let? cmdline := read_limited (proc_file pid "cmdline") 4097 in
        if Z.ltb 4096 (zlen cmdline) then fail (err_other "Xray process command exceeds limit")
        else ret (Ok (recorded_command config cmdline))
      end
  end.

Definition executable_unavailable : string := "Xray executable identity unavailable".

Definition same_process (pid starttime : Z) (binary config : path) : M S (io_result bool) :=
  let? same := same_recorded_command pid starttime config in
  if negb same then ret (Ok false)
  else
    let? executable := found_or executable_unavailable (call (FsReadLink (proc_file pid "exe"))) in
    ret (Ok (match executable with
             | Some executable => components executable =b components (path_text binary)
             | None => false
             end)).

(** [strip_suffix(" (deleted)")] *)
Definition strip_deleted (raw : string) : string :=
  if ends_with raw " (deleted)" then str_take (str_len raw - 10) raw else raw.

Definition version_byte (a : ascii) : bool :=
  alphanumeric a || Ascii.eqb a "." || Ascii.eqb a "-" || Ascii.eqb a "_".

(** [v<version>/xray] below the package root. *)
Definition package_executable (raw : string) : bool :=
  match strip_components (components (strip_deleted raw)) (components (path_text BINARY_ROOT)) with
  | Some [Normal version; Normal file] =>
    Nat.leb 2 (str_len version) && Nat.leb (str_len version) 64
    && starts_with version "v" && str_all version_byte (str_drop 1 version)
    && (file =b "xray")
  | _ => false
  end.

Definition root_owned_executable (metadata : FileMeta) : bool :=
  fm_is_file metadata && Z.eqb (fm_uid metadata) 0 && Z.eqb (Z.land (fm_mode metadata) 18) 0
  && negb (Z.eqb (Z.land (fm_mode metadata) 73) 0).

Definition same_owned_cleanup_process (process : VerifiedProcess) : M S (io_result bool) :=
  let command := same_recorded_command (vp_pid process) (vp_starttime process) (vp_config process) in
  let proc_exe := proc_file (vp_pid process) "exe" in
  let? same := command in
  if negb same then ret (Ok false)
  else
    let? executable := found_or executable_unavailable (call (FsReadLink proc_exe)) in
    match executable with
    | None => ret (Ok false)
    | Some raw =>
      if negb (package_executable raw) then ret (Ok false)
      else
        let? metadata := found_or executable_unavailable (call (FsStat proc_exe)) in
        match metadata with
        | None => ret (Ok false)
        | Some metadata =>
          if negb (root_owned_executable metadata) then ret (Ok false) else command
        end
    end.

Definition verified_process_record (uid : Z) (name : string) (binary : path)
    : M S (io_result (option VerifiedProcess)) :=
  let? process := read_process_record uid name in
  match process with
  | None => ret (Ok None)
  | Some process =>
    let? same := same_process (vp_pid process) (vp_starttime process) binary (vp_config process) in
    ret (Ok (if same : bool then Some process else None))
  end.

(** ** Signals *)

Definition open_pidfd (pid : Z) : M S (io_result Z) :=
  let! pidfd := call (PidfdOpen pid) in
  ret (ok_or pidfd (err_other "Xray pidfd unavailable")).

Definition signal_pidfd (pidfd signal : Z) : M S (io_result unit) :=
  let! sent := call (PidfdSendSignal pidfd signal) in
  ret (if sent : bool then Ok tt else Err (err_other "Xray process signal failed")).

Definition pidfd_exited (pidfd : Z) : M S (io_result bool) :=
  let! polled := call (PidfdPoll pidfd) in
  ret (ok_or polled (err_other "Xray process check failed")).

(** [while Instant::now() < deadline { if exited()? { .. } sleep(25 ms) }]: a
    sleep takes at least its time, so after [fuel] of them, one for every 25
    milliseconds, the deadline has passed. *)
Fixpoint wait_while (fuel : nat) (deadline : Z) (exited : M S (io_result bool))
    : M S (io_result bool) :=
  match fuel with
  | O => ret (Ok false)
  | Datatypes.S fuel =>
    let! now := call Monotonic in
    if Z.leb deadline now then ret (Ok false)
    else
      let? gone := exited in
      if gone : bool then ret (Ok true)
      else
        let! _ := call (SleepMillis 25) in
        wait_while fuel deadline exited
  end.

Definition poll_turns (timeout : Z) : nat := Z.to_nat (timeout / 25).

Definition wait_exit (timeout : Z) (exited : M S (io_result bool)) : M S (io_result bool) :=
  let! now := call Monotonic in
  wait_while (poll_turns timeout) (now + timeout) exited.

Definition recover_child (uid : Z) (name : string) : M S (io_result unit) :=
  let? process := read_process_record uid name in
  match process with
  | None => ret (Ok tt)
  | Some process =>
    let? same := same_owned_cleanup_process process in
    if negb same then ret (Ok tt)
    else
      let! pidfd := open_pidfd (vp_pid process) in
      match pidfd with
      | Err error =>
        let? same := same_owned_cleanup_process process in
        if negb same then ret (Ok tt) else fail error
      | Ok pidfd =>
        let? same := same_owned_cleanup_process process in
        if negb same then ret (Ok tt)
        else
          let? _ := signal_pidfd pidfd SIGTERM in
          let? gone := wait_exit STOP_TIMEOUT (pidfd_exited pidfd) in
          if gone : bool then ret (Ok tt)
          else
            let? _ := signal_pidfd pidfd SIGKILL in
            let? gone := wait_exit KILL_TIMEOUT (pidfd_exited pidfd) in
            if gone : bool then ret (Ok tt)
            else fail (err_new TimedOut "Xray process did not exit")
      end
  end.

(** [child.try_wait().map_err(|_| ..)?.is_some()] *)
Definition child_gone (message : string) (child : Z) : M S (io_result bool) :=
  let? status := with_error (err_other message) (call (ChildTryWait child)) in
  ret (Ok (is_some status)).

(** [loop { if gone()? { .. } if Instant::now() >= deadline { .. } sleep(..) }] *)
Fixpoint wait_until (fuel : nat) (deadline : Z) (gone : M S (io_result bool)) : M S (io_result bool) :=
  let? gone_now := gone in
  if gone_now : bool then ret (Ok true)
  else
    let! now := call Monotonic in
    match fuel with
    | Datatypes.S fuel =>
      if Z.leb deadline now then ret (Ok false)
      else
        let! _ := call (SleepMillis 25) in
        wait_until fuel deadline gone
    | O => ret (Ok false)
    end.

Definition terminate_child (child : Z) : M S (io_result unit) :=
  let? gone := child_gone "Xray child check failed" child in
  if gone : bool then ret (Ok tt)
  else
    let? pidfd := open_pidfd child in
    let? _ := signal_pidfd pidfd SIGTERM in
    let? gone := wait_exit STOP_TIMEOUT (child_gone "Xray child check failed" child) in
    if gone : bool then ret (Ok tt)
    else
      let? _ := signal_pidfd pidfd SIGKILL in
      let! now := call Monotonic in
      let? gone := wait_until (poll_turns KILL_TIMEOUT) (now + KILL_TIMEOUT)
                     (child_gone "Xray child wait failed" child) in
      if gone : bool then ret (Ok tt) else fail (err_new TimedOut "Xray child did not exit").

End record.

(** ** Counters *)

Section counters.
Context `{Env} {S : Type}.

Definition iface_stats_dir (name : string) : path := ["/sys/class/net"%string; name; "statistics"%string].

Definition counter (stats_dir : path) (file : string) : M S (io_result Z) :=
  let? contents := read_to_string (stats_dir ++ [file]) in
  ret (ok_or (parse_uint (2 ^ 64) (trim contents)) (err_new InvalidData "interface counter is malformed")).

(** Sent first: what the link sent is what the applications received. *)
Definition tun_byte_counters (stats_dir : path) : M S (io_result (Z * Z)) :=
  let? rx := counter stats_dir "tx_bytes" in
  let? tx := counter stats_dir "rx_bytes" in
  ret (Ok (rx, tx)).

(** [line.split([':', '\t', ' ', '='])] without the empty fields. *)
Fixpoint fields (line word : string) : list string :=
  match line with
  | EmptyString => flush_word word
  | String a line =>
    if Ascii.eqb a ":" || Ascii.eqb a "009" || Ascii.eqb a " " || Ascii.eqb a "="
    then flush_word word ++ fields line EmptyString
    else fields line (word +:+ String a EmptyString)
  end.

(** [iter.find(p)] and what it leaves of the iterator. *)
Fixpoint find_rest (p : string → bool) (l : list string) : option (string * list string) :=
  match l with
  | [] => None
  | x :: l => if p x then Some (x, l) else find_rest p l
  end.

Definition names_counter (field : string) : bool := is_some (split_once_str ">>>" field).

(** The counters with one line more; [+=] wraps in a release build. *)
Definition statsquery_line (acc : Z * Z) (line : string) : Z * Z :=
  let '(rx, tx) := acc in
  match find_rest names_counter (fields line EmptyString) with
  | Some (name, rest) =>
    if negb (starts_with name "inbound>>>tun-in>>>") then acc
    else
      match find_map (parse_uint (2 ^ 64)) rest with
      | Some value =>
        if ends_with name ">>>downlink" then (Z.modulo (rx + value) (2 ^ 64), tx)
        else if ends_with name ">>>uplink" then (rx, Z.modulo (tx + value) (2 ^ 64))
        else acc
      | None => acc
      end
  | None => acc
  end.

Definition parse_statsquery (output : string) : Z * Z :=
  foldl statsquery_line (0%Z, 0%Z) (lines output).

Definition statsquery_command (binary : path) (api_port : Z) : ChildCommand :=
  mkChildCommand binary ["api"; "statsquery"; "-server"; "127.0.0.1:" +:+ show_Z api_port]%string
    [] None None.

(** The loop over [try_wait], as in [wait_until] but every 10 milliseconds. *)
Fixpoint statsquery_wait `{RuntimeDir} (fuel : nat) (child deadline : Z) : M S (io_result string) :=
  let? status := with_error (err_other "Xray statsquery wait failed") (call (ChildTryWait child)) in
  match status with
  | Some success =>
    let? output := with_error (err_other "Xray statsquery read failed") (call (ChildOutput child)) in
    if negb success then fail (err_new NotConnected "Xray statsquery failed") else ret (Ok output)
  | None =>
    let timed_out :=
      let! _ := terminate_child child in
      fail (err_new TimedOut "Xray statsquery timed out") in
    let! now := call Monotonic in
    match fuel with
    | Datatypes.S fuel =>
      if Z.leb deadline now then timed_out
      else
        let! _ := call (SleepMillis 10) in
        statsquery_wait fuel child deadline
    | O => timed_out
    end
  end.

Definition run_statsquery `{RuntimeDir} (binary : path) (api_port : Z) : M S (io_result string) :=
  let? child := with_error (err_other "Xray statsquery launch failed")
                  (call (ChildSpawn (statsquery_command binary api_port))) in
  let! now := call Monotonic in
  statsquery_wait (Z.to_nat (STATSQUERY_TIMEOUT / 10)) child (now + STATSQUERY_TIMEOUT).

End counters.

(** ** The runner *)

Section runner.
Context `{Env} `{IpNetLib} `{RuntimeDir} `{Base64Lib} `{Sha256Lib}.

Abbreviation M := (M Children).

Definition link_index (name : string) : M (io_result (option Z)) :=
  if negb (valid_tun_name name) then fail invalid_input
  else
    let! index := call (IfNametoindex name) in
    ret (Ok (if Z.eqb index 0 then None else Some index)).

Definition xray_args (config : path) : list string := ["run"; "-config"; path_text config]%string.

Definition xray_command (binary directory config_path asset_dir : path) : ChildCommand :=
  mkChildCommand binary (xray_args config_path) [("XRAY_LOCATION_ASSET"%string, asset_dir)]
    (Some directory) (Some (directory ++ ["xray.log"%string])).

(** The loop that waits for the link. *)
Fixpoint await_link (fuel : nat) (child : Z) (name : string) (deadline : Z) : M (io_result unit) :=
  let? status := with_error (err_other "Xray child check failed") (call (ChildTryWait child)) in
  if is_some status
  then fail (err_new NotConnected "Xray exited before interface appeared")
  else
    let? index := link_index name in
    if is_some index then ret (Ok tt)
    else
      let timed_out := err_new TimedOut "Xray interface did not appear" in
      let! now := call Monotonic in
      match fuel with
      | Datatypes.S fuel =>
        if Z.leb deadline now then fail timed_out
        else
          let! _ := call (SleepMillis 25) in
          await_link fuel child name deadline
      | O => fail timed_out
      end.

(** The closure of [spawn_xray_child]. *)
Definition started (child : Z) (directory : path) (name : string) : M (io_result unit) :=
  let? starttime := read_starttime child in
  let? _ := rewrite_private_file (directory ++ ["process"%string])
              (str_bytes (process_record child starttime)) in
  let! now := call Monotonic in
  await_link (poll_turns LINK_TIMEOUT) child name (now + LINK_TIMEOUT).

Definition spawn_xray_child (binary directory config_path asset_dir : path) (name : string)
    (fresh_log : bool) : M (io_result Z) :=
  let log_path := directory ++ ["xray.log"%string] in
  let? _ := open_log_file log_path fresh_log in
  let? _ := with_error (err_other "Xray log creation failed") (call (FsCloneHandle log_path)) in
  let? child := with_error (err_other "Xray launch failed")
                  (call (ChildSpawn (xray_command binary directory config_path asset_dir))) in
  let! outcome := started child directory name in
  match outcome with
  | Err error =>
    let! _ := terminate_child child in
    let! tail := log_tail log_path in
    if str_is_empty tail then fail error
    else fail (mkErr (ekind error) (emsg error ++ txt "; xray log: " ++ txt (redact_runtime_log tail)))
  | Ok _ => ret (Ok child)
  end.

Definition exists_already : io_error := err_new AlreadyExists "Xray interface exists".
Definition not_tracked : io_error := err_new NotFound "Xray child is not tracked".
Definition ownership_mismatch : io_error :=
  err_new PermissionDenied "Xray process ownership mismatch".

Definition start (uid : Z) (name config : string) (geo_assets : option XrayGeoAssets)
    : M (io_result unit) :=
  if negb (valid_tun_name name) || config_too_large config then fail invalid_input
  else
    let! children := get in
    let? occupied := if is_some (children !! name) then ret (Ok true)
                     else let? index := link_index name in ret (Ok (is_some index)) in
    if occupied : bool then fail exists_already
    else
      let? binary := trusted_binary in
      let? _ := ensure_runtime_root in
      let? directory := stage_config_at runtime_path uid name config in
      let managed_dir := parent binary in
      let? asset_dir := match geo_assets with
        | Some assets =>
          let! staged := stage_geo_assets assets directory managed_dir in
          match staged with
          | Err err => let! _ := cleanup_stage_at runtime_path uid name in fail err
          | Ok _ => ret (Ok directory)
          end
        | None => ret (Ok managed_dir)
        end in
      let config_path := directory ++ ["config.json"%string] in
      let! spawned := spawn_xray_child binary directory config_path asset_dir name true in
      match spawned with
      | Ok child => modify (<[name := (uid, child)]>) ;;; ret (Ok tt)
      | Err error => let! _ := cleanup_stage_at runtime_path uid name in fail error
      end.

Definition stop (name : string) : M (io_result unit) :=
  let! children := get in
  let? '(_, child) := lift (ok_or (children !! name) not_tracked) in
  let? _ := terminate_child child in
  modify (base.delete name) ;;;
  ret (Ok tt).

(** [directory.join("geoip.dat").is_file()] *)
Definition staged_assets (directory : path) : M bool :=
  let! metadata := call (FsStat (directory ++ ["geoip.dat"%string])) in
  ret (match metadata with Ok metadata => fm_is_file metadata | Err _ => false end).

Definition staged_config_safe (metadata : FileMeta) : bool :=
  private_root_file metadata && Z.leb (fm_len metadata) MAX_XRAY_CONFIG_BYTES.

(** What [respawn] and [reload] end with: the child on the staging directory. *)
Definition restart (uid : Z) (name : string) (binary directory asset_dir : path) : M (io_result unit) :=
  let? child := spawn_xray_child binary directory (directory ++ ["config.json"%string]) asset_dir name false in
  modify (<[name := (uid, child)]>) ;;;
  ret (Ok tt).

Definition respawn (uid : Z) (name : string) : M (io_result unit) :=
  if negb (valid_tun_name name) then fail invalid_input
  else
    let? _ := ensure_runtime_root in
    let? directory := assert_staging_dir uid name in
    let! children := get in
    let? _ := match children !! name with
      | Some (owner, _) => if negb (Z.eqb owner uid) then fail ownership_mismatch else stop name
      | None => ret (Ok tt)
      end in
    let? _ := recover_child uid name in
    let? config_metadata := with_error (err_other "Xray staged config unavailable")
                              (call (FsMetadata (directory ++ ["config.json"%string]))) in
    if negb (staged_config_safe config_metadata)
    then fail (err_new PermissionDenied "Xray staged config is unsafe")
    else
      let? binary := trusted_binary in
      let! own_assets := staged_assets directory in
      restart uid name binary directory (if own_assets : bool then directory else parent binary).

(** A staged asset that must not shadow the managed one. *)
Definition remove_asset (directory : path) (file : string) : M (io_result unit) :=
  let! removed := call (FsRemoveFile (directory ++ [file])) in
  ret (match removed with
       | Ok _ => Ok tt
       | Err err =>
         if has_kind NotFound err then Ok tt else Err (err_other "Xray geo asset cleanup failed")
       end).

Definition reload (uid : Z) (name config : string) (geo_assets : option XrayGeoAssets)
    : M (io_result unit) :=
  if negb (valid_tun_name name) || config_too_large config then fail invalid_input
  else
    let? _ := ensure_runtime_root in
    let? directory := assert_staging_dir uid name in
    let! children := get in
    let? _ := lift (match children !! name with
      | Some (owner, _) => if negb (Z.eqb owner uid) then Err ownership_mismatch else Ok tt
      | None => Ok tt
      end) in
    let? _ := rewrite_private_file (directory ++ ["config.json"%string]) (str_bytes config) in
    let? binary := trusted_binary in
    let managed_dir := parent binary in
    let? _ := match geo_assets with
      | Some assets => stage_geo_assets assets directory managed_dir
      | None => for_try ["geoip.dat"; "geosite.dat"]%string tt (λ _, remove_asset directory)
      end in
    let? _ := if is_some (children !! name) then stop name else ret (Ok tt) in
    let? _ := recover_child uid name in
    let! own_assets := staged_assets directory in
    restart uid name binary directory (if own_assets : bool then directory else managed_dir).

Definition health (name : string) : M (io_result bool) :=
  let! children := get in
  let? '(_, child) := lift (ok_or (children !! name) not_tracked) in
  let? status := with_error (err_other "Xray child check failed") (call (ChildTryWait child)) in
  if is_some status then ret (Ok false)
  else
    let? index := link_index name in
    ret (Ok (is_some index)).

Definition query_stats (name : string) (api_port : Z) : M (io_result (Z * Z)) :=
  let! children := get in
  if is_none (children !! name) then fail not_tracked
  else
    let! counters := tun_byte_counters (iface_stats_dir name) in
    match counters with
    | Ok stats => ret (Ok stats)
    | Err _ =>
      let? binary := trusted_binary in
      let? output := run_statsquery binary api_port in
      ret (Ok (parse_statsquery output))
    end.

Definition verify_binary : M (io_result unit) :=
  let? _ := trusted_binary in ret (Ok tt).

Definition cleanup (uid : Z) (name : string) : M (io_result unit) :=
  if negb (valid_tun_name name) then fail invalid_input
  else
    let! children := get in
    let? _ := match children !! name with
      | Some (owner, _) => if negb (Z.eqb owner uid) then fail ownership_mismatch else stop name
      | None => recover_child uid name
      end in
    let? _ := ensure_runtime_root in
    let! tail := log_tail (staging_dir uid name ++ ["xray.log"%string]) in
    for_each (take LOG_JOURNAL_LINES (lines tail)) (λ line,
      call (Eprintln ("network-orchestrator-daemon: xray[" +:+ name +:+ "] " +:+ line))) ;;;
    cleanup_stage_at runtime_path uid name.

End runner.
