(* ===== verification/ProcessProps.v ===== *)
(** * Properties of the OpenVPN process runner

    The management stream is read the same however the socket splits it, the
    staging code stays inside its directory, a poll returns, and the names a
    hint may give that the runner refuses. *)

From S2P Require Export OpenVpnProcess.

(** ** The stream, whatever the reads *)

Section stream_lemmas.
Context `{IpNetLib} `{NetmaskLib}.

(** A piece without a newline that is not too long. *)
Definition short_line (line : bytes) : Prop :=
  10%Z ∉ line ∧ (zlen line ≤ MAX_MANAGEMENT_LINE_BYTES)%Z.

(** The stream of complete lines. *)
Definition terminated (ls : list bytes) : bytes := concat (map (λ l, l ++ [10%Z]) ls).

Definition after (events : list ManagementEvent)
    (r : io_result (list ManagementEvent) * bytes) : io_result (list ManagementEvent) * bytes :=
  match r with
  | (Ok new, pending) => (Ok (events ++ new), pending)
  | (Err err, pending) => (Err err, pending)
  end.

(** Reads handed to [drain_management] one after the other, up to an error. *)
Fixpoint feed (pending : bytes) (chunks : list bytes)
    : io_result (list ManagementEvent) * bytes :=
  match chunks with
  | [] => (Ok [], pending)
  | chunk :: chunks =>
    match drain_management pending chunk with
    | (Ok events, pending) => after events (feed pending chunks)
    | (Err err, pending) => (Err err, pending ++ concat chunks)
    end
  end.

Lemma newline_none (l : bytes) : position (Z.eqb 10) l = None ↔ 10%Z ∉ l.
Proof.
  rewrite position_None. split.
  - intros Hall Hin. by apply Hall in Hin.
  - intros Hnin x Hx. apply Z.eqb_neq. by intros <-.
Qed.

Lemma newline_line (line rest : bytes) :
  10%Z ∉ line → position (Z.eqb 10) (line ++ 10%Z :: rest) = Some (length line).
Proof.
  induction line as [|a line IH]; intros Hnin; cbn [app position length]; [done|].
  apply not_elem_of_cons in Hnin as [Hne Hnin].
  destruct (Z.eqb_spec 10 a); [done|]. by rewrite IH.
Qed.

Lemma newline_some (l : bytes) i :
  position (Z.eqb 10) l = Some i →
  l = take i l ++ 10%Z :: drop (S i) l ∧ 10%Z ∉ take i l ∧ length (take i l) = i.
Proof.
  intros [(x & Hx & Hp%Z.eqb_eq) Hmin]%position_Some. subst x. split_and!.
  - by rewrite <- (drop_S _ _ _ Hx), take_drop.
  - intros (j & Hj)%list_elem_of_lookup. apply lookup_take_Some in Hj as [Hj Hlt].
    by apply Hmin in Hj.
  - apply length_take_le. apply lookup_lt_Some in Hx. lia.
Qed.

Lemma after_after ev1 ev2 r : after ev1 (after ev2 r) = after (ev1 ++ ev2) r.
Proof. destruct r as [[new|err] p]; simpl; [by rewrite app_assoc|done]. Qed.

Lemma after_nil r : after [] r = r.
Proof. by destruct r as [[new|err] p]. Qed.

Lemma drain_lines_events fuel pending events :
  drain_lines fuel pending events = after events (drain_lines fuel pending []).
Proof.
  revert pending events. induction fuel as [|fuel IH]; intros pending events; cbn [drain_lines].
  - destruct (position _ pending); case_match; simpl; by rewrite ?app_nil_r.
  - destruct (position _ pending); [|case_match; simpl; by rewrite ?app_nil_r].
    case_match; [done|]. destruct (line_events _) as [new|err]; [|done]. simpl.
    by rewrite (IH _ (events ++ new)), (IH _ new), after_after.
Qed.

(** One line off the stream. *)
Lemma drain_lines_line fuel line rest :
  10%Z ∉ line → fuel > 0 →
  drain_lines fuel (line ++ 10%Z :: rest) []
  = if Z.ltb MAX_MANAGEMENT_LINE_BYTES (zlen line) then (Err line_too_large, line ++ 10%Z :: rest)
    else match line_events line with
         | Ok new => after new (drain_lines (pred fuel) rest [])
         | Err err => (Err err, rest)
         end.
Proof.
  intros Hline Hfuel. destruct fuel as [|fuel]; [lia|]. cbn [drain_lines Nat.pred].
  rewrite newline_line by done. change (Z.of_nat (length line)) with (zlen line).
  case_match; [done|]. rewrite take_app_length.
  rewrite drop_app_ge by lia. replace (S (length line) - length line) with 1 by lia.
  cbn [drop]. case_match; [|done]. by rewrite drain_lines_events.
Qed.

Lemma drain_lines_rest fuel pending :
  10%Z ∉ pending →
  drain_lines fuel pending []
  = if Z.ltb MAX_MANAGEMENT_LINE_BYTES (zlen pending) then (Err line_too_large, pending)
    else (Ok [], pending).
Proof. intros Hn%newline_none. destruct fuel; cbn [drain_lines]; by rewrite Hn. Qed.


(** Every stream is lines and a rest. *)
Lemma stream_ind (P : bytes → Prop) :
  (∀ rest, 10%Z ∉ rest → P rest) →
  (∀ line rest, 10%Z ∉ line → P rest → P (line ++ 10%Z :: rest)) →
  ∀ stream, P stream.
Proof.
  intros Hrest Hline stream. remember (length stream) as n eqn:Hn. revert stream Hn.
  induction n as [n IH] using lt_wf_ind. intros stream ->.
  destruct (position (Z.eqb 10) stream) as [i|] eqn:Hpos; [|by apply Hrest, newline_none].
  apply newline_some in Hpos as (Heq & Hnin & Hlen). rewrite Heq. apply Hline; [done|].
  eapply IH; [|done]. rewrite Heq at 2. rewrite length_app. simpl. lia.
Qed.

(** Draining is a function of the stream alone: enough fuel is enough, and
    input that comes later changes nothing. *)
Lemma drain_lines_split stream : ∀ fuel fuel' later,
  length (stream ++ later) ≤ fuel → length stream ≤ fuel' →
  drain_lines fuel (stream ++ later) []
  = match drain_lines fuel' stream [] with
    | (Ok events, rest) => after events (drain_lines (length (rest ++ later)) (rest ++ later) [])
    | (Err err, rest) => (Err err, rest ++ later)
    end.
Proof.
  assert (∀ (rest later : bytes) fuel, 10%Z ∉ rest → length (rest ++ later) ≤ fuel →
    (MAX_MANAGEMENT_LINE_BYTES < zlen rest)%Z →
    drain_lines fuel (rest ++ later) [] = (Err line_too_large, rest ++ later)) as Hlong.
  { intros rest later fuel Hnin Hfuel Hlen.
    destruct (position (Z.eqb 10) later) as [i|] eqn:Hpos.
    - apply newline_some in Hpos as (Heq & Hn2 & _). rewrite Heq, app_assoc.
      rewrite drain_lines_line; [|set_solver|rewrite Heq, !length_app in Hfuel; simpl in Hfuel; lia].
      assert (Z.ltb MAX_MANAGEMENT_LINE_BYTES (zlen (rest ++ take i later)) = true) as ->; [|done].
      apply Z.ltb_lt. unfold zlen in *. rewrite length_app. lia.
    - apply newline_none in Hpos. rewrite drain_lines_rest by set_solver.
      assert (Z.ltb MAX_MANAGEMENT_LINE_BYTES (zlen (rest ++ later)) = true) as ->; [|done].
      apply Z.ltb_lt. unfold zlen in *. rewrite length_app. lia. }
  assert (∀ (s : bytes) fuel fuel', length s ≤ fuel → length s ≤ fuel' →
    drain_lines fuel s [] = drain_lines fuel' s []) as Hfuel.
  { induction s as [rest Hn|line rest Hn IH] using stream_ind; intros fuel fuel' H1 H2.
    - by rewrite !drain_lines_rest.
    - rewrite length_app in *. simpl in *. rewrite !drain_lines_line by (done || lia).
      case_match; [done|]. case_match; [|done]. by rewrite (IH (pred fuel) (pred fuel')) by lia. }
  induction stream as [rest Hn|line rest Hn IH] using stream_ind; intros fuel fuel' later H1 H2.
  - rewrite (drain_lines_rest fuel' rest) by done.
    destruct (Z.ltb_spec MAX_MANAGEMENT_LINE_BYTES (zlen rest)); [by apply Hlong|].
    rewrite after_nil. apply Hfuel; lia.
  - assert (length (rest ++ later) < fuel ∧ length rest < fuel') as [H3 H4]
      by (rewrite !length_app in *; simpl in *; lia).
    rewrite <- app_assoc, <- app_comm_cons, !drain_lines_line by (done || lia). case_match; [by rewrite <- app_assoc|].
    destruct (line_events line) as [new|err]; [|done].
    rewrite (IH (pred fuel) (pred fuel')) by lia.
    destruct (drain_lines (pred fuel') rest []) as [[events|err] left]; [|done].
    by rewrite after_after.
Qed.

Lemma drain_split pending first later :
  drain_management pending (first ++ later)
  = match drain_management pending first with
    | (Ok events, rest) => after events (drain_management rest later)
    | (Err err, rest) => (Err err, rest ++ later)
    end.
Proof.
  unfold drain_management. rewrite app_assoc.
  rewrite (drain_lines_split (pending ++ first) _ (length (pending ++ first))) by lia.
  by destruct (drain_lines _ (pending ++ first) []) as [[events|err] rest].
Qed.

(** What a drain that succeeds has read. *)
Lemma drain_lines_spec stream : ∀ fuel events rest, length stream ≤ fuel →
  drain_lines fuel stream [] = (Ok events, rest) ↔
  ∃ ls news, stream = terminated ls ++ rest ∧ Forall short_line ls ∧ short_line rest ∧
    Forall2 (λ l new, line_events l = Ok new) ls news ∧ events = concat news.
Proof.
  assert (∀ ls rest, 10%Z ∉ terminated ls ++ rest → ls = []) as Hnone.
  { intros [|l ls] rest Hn; [done|]. unfold terminated in Hn. simpl in Hn. set_solver. }
  induction stream as [stream Hn|line stream Hn IH] using stream_ind; intros fuel events rest Hfuel.
  - rewrite drain_lines_rest by done.
    destruct (Z.ltb_spec MAX_MANAGEMENT_LINE_BYTES (zlen stream)).
    + split; [done|]. intros (ls & news & -> & _ & [_ ?] & _). apply Hnone in Hn as ->. simpl in *. lia.
    + split.
      * intros [= <- <-]. by exists [], [].
      * intros (ls & news & -> & _ & _ & Hls & ->). apply Hnone in Hn as Hls0. subst ls.
        by apply Forall2_nil_inv_l in Hls as ->.
  - rewrite length_app in Hfuel. simpl in Hfuel. rewrite drain_lines_line by (done || lia).
    assert (∀ ls rest', 10%Z ∉ rest' → Forall short_line ls →
      line ++ 10%Z :: stream = terminated ls ++ rest' →
      ∃ ls', ls = line :: ls' ∧ stream = terminated ls' ++ rest') as Hhead.
    { intros [|l ls] rest' Hr Hls Heq.
      - exfalso. apply Hr. simpl in Heq. rewrite <- Heq. set_solver.
      - apply Forall_cons in Hls as [[Hl _] _]. unfold terminated in Heq. simpl in Heq.
        rewrite <- !app_assoc in Heq. simpl in Heq.
        assert (position (Z.eqb 10) (line ++ 10%Z :: stream) = Some (length l)) as Hpos
          by (by rewrite Heq, newline_line).
        rewrite newline_line in Hpos by done. injection Hpos as Hlen.
        apply app_inj_1 in Heq as [-> [= ->]]; [|done]. by exists ls. }
    split.
    + destruct (Z.ltb_spec MAX_MANAGEMENT_LINE_BYTES (zlen line)); [done|].
      destruct (line_events line) as [new|err] eqn:Hev; [|done].
      destruct (drain_lines (pred fuel) stream []) as [[events'|err] rest'] eqn:Hd; [|done].
      intros [= <- <-]. apply IH in Hd as (ls & news & -> & Hls & Hr & Hf & ->); [|lia].
      exists (line :: ls), (new :: news). split_and!.
      * unfold terminated. simpl. by rewrite <- !app_assoc.
      * by constructor.
      * done.
      * by constructor.
      * done.
    + intros (ls & news & Heq & Hls & Hr & Hf & ->). pose proof Hr as [Hrn _].
      destruct (Hhead _ _ Hrn Hls Heq) as (ls' & -> & ->).
      apply Forall_cons in Hls as [[_ Hl] Hls]. apply Forall2_cons_inv_l in Hf as (new & news' & Hnew & Hf & ->).
      destruct (Z.ltb_spec MAX_MANAGEMENT_LINE_BYTES (zlen line)); [lia|]. rewrite Hnew.
      assert (drain_lines (pred fuel) (terminated ls' ++ rest) [] = (Ok (concat news'), rest)) as ->.
      { apply IH; [lia|]. by exists ls', news'. }
      done.
Qed.

Lemma drain_short pending input events rest :
  drain_management pending input = (Ok events, rest) → short_line rest.
Proof.
  unfold drain_management. intros Hd.
  apply drain_lines_spec in Hd as (_ & _ & _ & _ & Hrest & _); [exact Hrest|lia].
Qed.

(** C35 (management stream). However the socket splits what OpenVPN writes,
    reading it chunk by chunk gives the events and the unread rest of reading
    it at once; and a stream is accepted exactly when it is complete lines of
    at most 16384 bytes and a rest no longer than that, with the events of the
    lines in order. *)
Theorem management_stream_chunking (pending : bytes) (chunks : list bytes)
    (Hpending : short_line pending) :
  feed pending chunks = drain_management pending (concat chunks) ∧
  ∀ events rest, feed pending chunks = (Ok events, rest) ↔
    ∃ ls news, pending ++ concat chunks = terminated ls ++ rest ∧
      Forall short_line ls ∧ short_line rest ∧
      Forall2 (λ l new, line_events l = Ok new) ls news ∧ events = concat news.
Proof.
  assert (feed pending chunks = drain_management pending (concat chunks)) as Heq.
  { revert pending Hpending. induction chunks as [|chunk chunks IH]; intros pending Hp; simpl.
    - destruct Hp as [Hn Hlen]. unfold drain_management. rewrite app_nil_r.
      rewrite drain_lines_rest by done.
      by destruct (Z.ltb_spec MAX_MANAGEMENT_LINE_BYTES (zlen pending)); [lia|].
    - rewrite drain_split. destruct (drain_management pending chunk) as [[events|err] rest] eqn:Hd;
        [|done]. rewrite IH; [done|].
      by eapply drain_short. }
  split; [done|]. intros events rest. rewrite Heq. by apply drain_lines_spec.
Qed.

End stream_lemmas.

(** ** The files of a staging directory *)

(** Every call [m] makes, whatever the world answers, satisfies [P]. *)
Definition extends (P : event → Prop) (h h' : history) : Prop :=
  ∃ new, h' = new ++ h ∧ Forall P new.

#[export] Instance extends_preorder P : PreOrder (extends P).
Proof.
  split; [by intros h; exists []|]. intros h1 h2 h3 (n1 & -> & H1) (n2 & -> & H2).
  exists (n2 ++ n1). rewrite app_assoc. split; [done|]. by apply Forall_app.
Qed.

Section calls.
Context `{Env} {S : Type} (P : event → Prop).

Definition only_calls {A} (m : M S A) : Prop :=
  ∀ s h, wp m (λ _ s' h', s' = s ∧ extends P h h') s h.

Lemma only_ret {A} (a : A) : only_calls (ret a).
Proof. by intros s h; apply wp_ret. Qed.

Lemma only_bind {A B} (m : M S A) (f : A → M S B) :
  only_calls m → (∀ a, only_calls (f a)) → only_calls (bind m f).
Proof.
  intros Hm Hf s h. apply wp_bind. eapply wp_mono; [|apply Hm]. intros a s1 h1 [-> H1].
  eapply wp_mono; [|apply Hf]. intros b s2 h2 [-> H2]. split; [done|]. by etransitivity.
Qed.

Lemma only_call {A} (c : ext A) : (∀ a, P (Ev c a)) → only_calls (call c).
Proof. intros Hc s h. apply wp_call. intros a. split; [done|]. exists [Ev c a]. by split; [|constructor]. Qed.

Lemma only_try_bind {A B E} (m : M S (result A E)) (f : A → M S (result B E)) :
  only_calls m → (∀ a, only_calls (f a)) → only_calls (try_bind m f).
Proof. intros Hm Hf. apply only_bind; [done|]. intros [a|e]; [apply Hf|apply only_ret]. Qed.

Lemma only_for_try {A B E} (l : list A) (body : B → A → M S (result B E)) acc :
  (∀ acc x, x ∈ l → only_calls (body acc x)) → only_calls (for_try l acc body).
Proof.
  revert acc. induction l as [|x l IH]; intros acc Hb; simpl; [apply only_ret|].
  apply only_try_bind; [apply Hb; set_solver|]. intros acc'. apply IH. set_solver.
Qed.

End calls.

Ltac only_step :=
  lazymatch goal with
  | |- only_calls _ (ret _) => apply only_ret
  | |- only_calls _ (lift _) => apply only_ret
  | |- only_calls _ (fail _) => apply only_ret
  | |- only_calls _ (bind _ _) => apply only_bind; [|intros ?]
  | |- only_calls _ (try_bind _ _) => apply only_try_bind; [|intros ?]
  | |- only_calls _ (with_error _ _) => apply only_bind; [|intros ?]
  | |- only_calls _ (call _) => apply only_call; intros ?
  | |- only_calls _ (let _ := _ in _) => cbv zeta
  | |- only_calls _ (match _ with _ => _ end) => case_match
  end.
Ltac only_calls_tac := repeat only_step.

Section staging_lemmas.
Context `{Env} {S : Type}.

(** What staging and its cleanup may do for [uid] and [name]: look, and
    change the user's directory, the staging directory in it and the known
    files in that. *)
Definition staging_file (f : string) : Prop :=
  f = "config.ovpn"%string ∨ f = "management.sock"%string ∨
  ∃ n, f = ("asset-" +:+ n)%string ∧ is_some (parse_uint (2 ^ 64) n) = true.

Definition staging_call (root : path) (uid : Z) (name : string) (e : event) : Prop :=
  let user_dir := root ++ [show_Z uid] in
  let file p := ∃ f, staging_file f ∧ p = user_dir ++ [name; f] in
  match e with
  | Ev c _ =>
    match c with
    | FsExists _ | FsMetadata _ | FsReadDir _ => True
    | FsCreateDir p mode => (p = user_dir ∨ p = user_dir ++ [name]) ∧ mode = 448%Z
    | FsRemoveDir p => p = user_dir ∨ p = user_dir ++ [name]
    | FsCreateNew p mode => file p ∧ mode = 384%Z
    | FsWriteAll p _ | FsSyncAll p | FsRemoveFile p => file p
    | _ => False
    end
  end.

Lemma staged_name_file f : staged_name f = true → staging_file f.
Proof.
  unfold staged_name, one_of. intros [Hf|Hf]%orb_true_iff.
  - cbn [existsb] in Hf. rewrite orb_false_r in Hf.
    apply orb_true_iff in Hf as [->%bool_decide_eq_true | ->%bool_decide_eq_true]; [by left|by right; left].
  - destruct (strip_prefix f "asset-") as [n|] eqn:Hn; [|done]. right; right. exists n.
    split; [|done]. by apply strip_prefix_spec.
Qed.

Lemma cleanup_stage_calls root uid name :
  only_calls (S := S) (staging_call root uid name) (cleanup_stage_at root uid name).
Proof.
  unfold cleanup_stage_at, metadata_if_present. only_calls_tac; try done; [| by right | by left].
  apply only_for_try. intros _ entry _. unfold remove_staged. only_calls_tac; try done.
  simpl. eexists. split; [by apply staged_name_file, negb_false_iff|]. by rewrite <- app_assoc.
Qed.

Lemma staged_asset_name index :
  index < 32 → staging_file ("asset-" +:+ show_Z (Z.of_nat index)).
Proof. intros Hi. apply staged_name_file. revert Hi. intros Hi. do 32 (destruct index as [|index]; [vm_compute; reflexivity|]). lia. Qed.

Lemma write_private_calls root uid name f contents :
  staging_file f →
  only_calls (S := S) (staging_call root uid name)
    (write_private_file ((root ++ [show_Z uid]) ++ [name] ++ [f]) contents).
Proof.
  intros Hf. unfold write_private_file. only_calls_tac; try done; simpl.
  - split; [|done]. by exists f.
  - by exists f.
  - by exists f.
Qed.

Lemma stage_config_calls root uid name config :
  only_calls (S := S) (staging_call root uid name) (stage_config_at root uid name config).
Proof.
  unfold stage_config_at, stage_files.
  destruct (negb (valid_tun_name name) || _ || Z.ltb 32 (zlen (sc_assets config))) eqn:Hchk;
    [apply only_ret|].
  assert (staging_file "config.ovpn") as Hconfig by by left.
  apply orb_false_iff in Hchk as [_ Hassets%Z.ltb_ge].
  only_calls_tac; try done; [by split; [left|]|by split; [right|]|..|apply cleanup_stage_calls].
  - rewrite <- app_assoc. by apply write_private_calls.
  - apply only_for_try. intros _ [index asset] Hin. unfold stage_asset.
    destruct (_ || Z.ltb MAX_ASSET_BYTES _) eqn:Ha; [apply only_ret|].
    apply orb_false_iff in Ha as [[Ha%negb_false_iff%bool_decide_eq_true _]%orb_false_iff _].
    rewrite Ha, <- app_assoc. apply write_private_calls, staged_asset_name.
    apply list_elem_of_lookup in Hin as (k & Hk). rewrite list_lookup_imap in Hk.
    apply fmap_Some in Hk as (b & Hlk%lookup_lt_Some & [= -> ->]). unfold zlen in Hassets. lia.
Qed.

(** The calls that write a file to the disk, newest first. *)
Definition file_trace (p : path) (contents : bytes) : history :=
  [Ev (FsSyncAll p) (Ok tt); Ev (FsWriteAll p contents) (Ok tt); Ev (FsCreateNew p 384) (Ok tt)].

Definition files_trace (files : list (path * bytes)) : history :=
  concat (rev (map (λ '(p, contents), file_trace p contents) files)).

Lemma files_trace_app fs fs' : files_trace (fs ++ fs') = files_trace fs' ++ files_trace fs.
Proof. unfold files_trace. by rewrite map_app, rev_app_distr, concat_app. Qed.

Lemma wp_write_private p contents (s : S) h :
  wp (write_private_file p contents) (λ r s' h', s' = s ∧ (r = Ok tt → h' = file_trace p contents ++ h)) s h.
Proof.
  unfold write_private_file, with_error. do 4 wp_step. destruct a as [[]|e]; cbn [map_err]; [|done].
  do 3 wp_step. destruct a as [[]|e]; cbn [map_err]; [|done].
  do 3 wp_step. by destruct a as [[]|e].
Qed.

(** The files of a configuration. *)
Definition config_files (directory : path) (config : SanitizedOpenVpnConfig) : list (path * bytes) :=
  (directory ++ ["config.ovpn"%string], str_bytes (sc_config config))
  :: map (λ a, (directory ++ [as_name a], as_bytes a)) (sc_assets config).

Lemma wp_stage_assets directory (l : list (nat * SanitizedOpenVpnAsset)) (s : S) h :
  wp (for_try l tt (λ _, stage_asset directory))
     (λ r s' h', s' = s ∧ (r = Ok tt →
        h' = files_trace (map (λ ia, (directory ++ [as_name ia.2], as_bytes ia.2)) l) ++ h)) s h.
Proof.
  revert h. induction l as [|[index asset] l IH]; intros h; simpl; [by apply wp_ret|].
  wp_step. unfold stage_asset at 1. case_match; [done|].
  eapply wp_mono; [|apply wp_write_private]. intros [[]|e] s1 h1 [-> Hh]; [|done].
  eapply wp_mono; [|apply IH]. intros r s2 h2 [-> Hok]. split; [done|]. intros Hr.
  rewrite (Hok Hr), (Hh eq_refl), app_assoc.
  change ((?x :: ?t)) with ([x] ++ t). by rewrite files_trace_app.
Qed.

Lemma wp_stage_files directory config (s : S) h :
  wp (stage_files directory config)
     (λ r s' h', s' = s ∧ (r = Ok tt → h' = files_trace (config_files directory config) ++ h)) s h.
Proof.
  unfold stage_files. wp_step. eapply wp_mono; [|apply wp_write_private].
  intros [[]|e] s1 h1 [-> Hh]; [|done]. eapply wp_mono; [|apply wp_stage_assets].
  intros r s2 h2 [-> Hok]. split; [done|]. intros Hr. rewrite (Hok Hr), (Hh eq_refl), app_assoc.
  f_equal. unfold config_files.
  match goal with |- _ = files_trace (?x :: ?t) => change (x :: t) with ([x] ++ t) end.
  rewrite files_trace_app. f_equal. f_equal.
  assert (∀ (l : list SanitizedOpenVpnAsset) f, map (λ ia : nat * SanitizedOpenVpnAsset,
      (directory ++ [as_name ia.2], as_bytes ia.2)) (imap (λ i, pair (f i)) l)
    = map (λ a, (directory ++ [as_name a], as_bytes a)) l) as Himap; [|apply (Himap _ id)].
  induction l as [|a l IH]; intros f; [done|]. cbn. f_equal. apply (IH (λ i, f (Datatypes.S i))).
Qed.

End staging_lemmas.

Section staging_property.
Context `{Env}.


End staging_property.

(** ** Polling *)

Section poll_lemmas.
Context `{Env} `{IpNetLib} `{NetmaskLib}.

Definition is_prompt (event : ManagementEvent) : bool :=
  match event with EvPasswordPrompt _ => true | _ => false end.

(** No prompt is handed on. *)
Definition prompt_free (events : list ManagementEvent) : Prop :=
  Forall (λ e, is_prompt e = false) events.

(** Only the process [name] changed, and only in what it has not read yet. *)
Definition polled (name : string) (s s' : Children) : Prop :=
  (∀ k, k ≠ name → s' !! k = s !! k) ∧
  ∀ p, s !! name = Some p → ∃ pending, s' !! name = Some (set_pending pending p).

#[export] Instance polled_preorder name : PreOrder (polled name).
Proof.
  split; [intros s; split; [done|]; intros p Hp; exists (mp_pending p); by destruct p|].
  intros s1 s2 s3 [F1 P1] [F2 P2]. split; [intros k Hk; by rewrite F2, F1|].
  intros p Hp. destruct (P1 p Hp) as [q Hq]. destruct (P2 _ Hq) as [q' Hq']. by exists q'.
Qed.

Lemma wp_poll_event name exited credentials acc event (s : Children) h :
  prompt_free acc.1 →
  wp (poll_event name exited credentials acc event) (λ acc' s' _, s' = s ∧ prompt_free acc'.1) s h.
Proof.
  destruct acc as [events prompt_error]. intros Hp. unfold poll_event.
  assert (∀ e, is_prompt e = false → prompt_free (events ++ [e])) as Hsnoc.
  { intros e He. apply Forall_app. split; [done|]. by constructor. }
  destruct event; try (apply wp_ret; split; [done|by apply Hsnoc]).
  destruct exited; [by apply wp_ret|]. wp_step.
  eapply wp_mono with (Q := λ _ s' _, s' = s); [by intros r s' h' ->; apply wp_ret|].
  unfold respond_to_password_prompt, with_error. do 2 wp_step. case_match; [|done]. do 4 wp_step.
  destruct a0 as [[]|e]; cbn [map_err]; [|done]. do 4 wp_step. by case_match; apply wp_ret.
Qed.

Lemma wp_read_loop fuel name exited process total acc (s : Children) h :
  (0 ≤ total < MAX_POLL_BYTES)%Z → (MAX_POLL_BYTES ≤ total + Z.of_nat fuel)%Z →
  s !! name = Some process → short_line (mp_pending process) → prompt_free acc.1 →
  wp (read_loop fuel name exited process total acc)
     (λ r s' _, polled name s s' ∧ ∀ acc' disconnected, r = Ok (acc', disconnected) →
        prompt_free acc'.1 ∧ ∃ p, s' !! name = Some p ∧ short_line (mp_pending p)) s h.
Proof.
  revert process total acc s h.
  induction fuel as [|fuel IH]; intros process total acc s h Ht Hf Hs Hshort Hfree; [lia|].
  cbn [read_loop]. do 2 wp_step.
  assert (∀ d : bool, polled name s s ∧ ∀ acc' disconnected,
    (Ok (acc, d) : io_result _) = Ok (acc', disconnected) → prompt_free acc'.1 ∧
    ∃ p, s !! name = Some p ∧ short_line (mp_pending p)) as Hstop.
  { intros d. split; [done|]. intros acc' disc [= <- <-]. split; [done|]. by exists process. }
  destruct a as [[|b chunk]|error].
  - by apply wp_ret.
  - set (read := b :: chunk). assert (1 ≤ zlen read)%Z as Hread by (unfold zlen, read; simpl; lia).
    clearbody read. cbv zeta.
    destruct (drain_management (mp_pending process) read) as [drained pending] eqn:Hd.
    wp_step. apply wp_modify. set (s1 := <[name := _]> s). wp_step.
    assert (polled name s s1) as Hs1.
    { split; [intros k Hk; by apply lookup_insert_ne|]. intros p Hp. exists pending.
      rewrite Hs in Hp. injection Hp as <-. apply lookup_insert_eq. }
    apply wp_ret. destruct drained as [events|err]; [|by split].
    apply drain_short in Hd as Hrest.
    wp_step. apply wp_for_acc with (I := λ _ acc s' _, s' = s1 ∧ prompt_free acc.1); [done| |].
    { intros event l acc0 s' h' [-> Hp]. by apply wp_poll_event. }
    intros acc1 s' h' [-> Hp1].
    assert (s1 !! name = Some (set_pending pending process)) as Hs1p by apply lookup_insert_eq.
    destruct (Z.leb_spec MAX_POLL_BYTES (total + zlen read)).
    + apply wp_ret. split; [done|]. intros acc' disc [= <- <-]. split; [done|]. by eexists.
    + eapply wp_mono; [|apply IH; [lia|lia|done|done|done]].
      intros r s2 h2 [Hs2 Hok]. split; [by etransitivity|done].
  - case_match; by apply wp_ret.
Qed.

Context `{RuntimeDir}.

(** Polling. Polling a process returns, however much its socket has to
    say, and whatever it says: only what is buffered of that process changes,
    the buffer stays one unfinished line of at most 16384 bytes unless the
    poll fails, and a password prompt is answered by the runner and never
    handed to the core. *)
Theorem poll_returns (name : string) (process : ManagedProcess) (s : Children) (h : history)
    (Hs : s !! name = Some process) (Hpending : short_line (mp_pending process)) :
  ∃ r s' h', poll name s h = (Some r, s', h') ∧ polled name s s' ∧
    ∀ events, r = Ok events →
      prompt_free events ∧ ∃ pending, s' !! name = Some (set_pending pending process) ∧
        short_line pending.
Proof.
  enough (wp (poll name) (λ r s' h', polled name s s' ∧
    ∀ events, r = Ok events → prompt_free events ∧ ∃ p, s' !! name = Some p ∧ short_line (mp_pending p)) s h)
    as Hwp.
  { unfold wp in Hwp. destruct (poll name s h) as [[[r|] s'] h']; [|done].
    destruct Hwp as [Hp Hok]. exists r, s', h'. split_and!; [done|done|]. intros events Hr.
    destruct (Hok events Hr) as (Hfree & p & Hsp & Hshort). split; [done|].
    destruct Hp as [_ Hp]. destruct (Hp _ Hs) as [pending Hp']. exists pending.
    split; [done|]. rewrite Hp' in Hsp. by injection Hsp as <-. }
  assert (MAX_POLL_BYTES ≤ 0 + Z.of_nat (Z.to_nat MAX_POLL_BYTES))%Z as Hfuel
    by (rewrite Z2Nat.id; unfold MAX_POLL_BYTES; lia).
  unfold poll. revert Hfuel. generalize (Z.to_nat MAX_POLL_BYTES) as fuel. intros fuel Hfuel.
  do 4 wp_step. rewrite Hs. cbn [ok_or]. wp_step. unfold with_error at 1. do 3 wp_step.
  destruct a as [exited|e]; cbn [map_err]; [|by split]. wp_step.
  eapply wp_mono; [|eapply wp_read_loop with (process := process); try done].
  2: constructor.
  intros [[[events prompt_error] disconnected]|err] s' h' [Hp Hok]; [|by split].
  destruct (Hok _ _ eq_refl) as [Hfree Hpend]. cbn [fst] in Hfree. repeat case_match; apply wp_ret;
    (split; [done|]); intros evs Hevs; try done; injection Hevs as <-; split; try done;
    [by constructor|]. apply Forall_app. split; [done|by constructor].
Qed.

End poll_lemmas.

(** ** Which names a hint can have *)

Section names.

Lemma tun_byte_alphanumeric c : is_ascii_alphanumeric c = true → tun_name_byte (ascii_of_byte c) = true.
Proof.
  intros Hc. unfold tun_name_byte, byte_of, ascii_of_byte. apply orb_true_iff. left.
  assert (0 ≤ c < 128)%Z.
  { unfold is_ascii_alphanumeric, is_ascii_alphabetic, is_ascii_lowercase, is_ascii_uppercase,
      is_ascii_digit, in_range in Hc. lia. }
  rewrite N_ascii_embedding by lia. by rewrite Z2N.id by lia.
Qed.

Lemma starts_with_take n s p :
  starts_with s p = true → str_len p ≤ n → starts_with (str_take n s) p = true.
Proof.
  intros [t ->]%starts_with_spec Hn. revert n Hn.
  induction p as [|a p IH]; intros n Hn; [by destruct n, t|].
  destruct n as [|n]; [simpl in Hn; lia|]. change (String a p +:+ t) with (String a (p +:+ t)).
  cbn [str_take]. unfold starts_with in *. simpl.
  destruct (ascii_dec a a); [|done]. apply IH. simpl in Hn. lia.
Qed.

Lemma trimmed_end s c : ends_with_char (trim_end_char s c) c = false.
Proof.
  induction s as [|a s IH]; [done|]. cbn [trim_end_char].
  destruct (str_all _ (String a s)) eqn:Hall; [done|]. cbn [ends_with_char].
  destruct (trim_end_char s c) eqn:Ht; [|done]. destruct (Ascii.eqb a c) eqn:Ha; [|done].
  cbn [str_all] in Hall. rewrite Ha in Hall. simpl in Hall.
  assert (str_all (λ b, Ascii.eqb b c) s = true) as Hs; [|congruence]. clear -Ht.
  induction s as [|b s IHs]; [done|]. cbn [trim_end_char] in Ht. by destruct (str_all _ (String b s)).
Qed.

Local Notation names uid profile_id hint := (tunnel_link_names "ovpn-" uid profile_id hint).

(** [ovpn] and a digit: the hint reads as a name of its own. *)
Definition numbered (slug : string) : bool := starts_with slug "ovpn" && digit_at slug 4.

Lemma prefixed_valid rest :
  rest ≠ EmptyString → str_len rest ≤ 10 → str_all tun_name_byte rest = true →
  valid_tun_name ("ovpn-" +:+ rest) = true.
Proof.
  intros Hne Hlen Hall. unfold valid_tun_name. rewrite starts_with_app, str_all_app, Hall.
  rewrite str_len_app. destruct rest as [|a rest]; [done|]. simpl in *.
  destruct (Nat.leb_spec (str_len rest) 9); [done|lia].
Qed.

Lemma valid_split name : valid_tun_name name = true → ∃ rest, name = "ovpn-" +:+ rest ∧
  rest ≠ EmptyString ∧ str_len rest ≤ 10 ∧ str_all tun_name_byte rest = true.
Proof.
  unfold valid_tun_name. intros [[[Hs H6%Nat.leb_le]%andb_true_iff H15%Nat.leb_le]%andb_true_iff Hall]%andb_true_iff.
  apply starts_with_spec in Hs as [rest ->]. exists rest. rewrite str_len_app in *. simpl in *.
  split_and!; [done|intros ->; simpl in *; lia|lia|done].
Qed.

Lemma hashed_valid digits : valid_tun_name ("ovpn-" +:+ hex_padded 10 digits) = true.
Proof.
  apply prefixed_valid; [|by rewrite str_len_hex_padded|apply hex_padded_P, tun_byte_alphanumeric].
  intros He. pose proof (str_len_hex_padded 10 digits) as Hl. by rewrite He in Hl.
Qed.

(** The fallback of a usable name is usable. *)
Lemma fallback_valid primary hashed digits :
  valid_tun_name primary = true → valid_tun_name hashed = true →
  let short := trim_end_char (str_take (Nat.min (str_len primary) 10) primary) "-" in
  valid_tun_name (if Nat.leb (str_len short) 5 then hashed
                  else short +:+ "-" +:+ hex_padded 4 digits) = true.
Proof.
  intros Hp Hh short. destruct (Nat.leb_spec (str_len short) 5) as [|Hlong]; [done|].
  apply valid_split in Hp as (rest & Heq & _ & Hlen & Hall).
  destruct (trim_end_char_prefix (str_take (Nat.min (str_len primary) 10) primary) "-") as [n Hn].
  fold short in Hn. rewrite Hn in Hlong.
  assert (starts_with short "ovpn-" = true) as [tail Htail]%starts_with_spec.
  { rewrite Hn. rewrite !str_len_take in Hlong.
    apply starts_with_take; [|simpl; lia]. apply starts_with_take; [|simpl; lia].
    rewrite Heq. apply starts_with_app. }
  assert (str_len short ≤ 10) as Hs10 by (rewrite Hn, !str_len_take; lia).
  assert (str_all tun_name_byte short = true) as Hsall.
  { rewrite Hn. apply str_all_take, str_all_take. rewrite Heq, str_all_app, Hall. done. }
  rewrite Htail in *. rewrite <- !str_app_assoc. rewrite str_len_app, str_all_app in *. simpl in Hs10.
  apply andb_true_iff in Hsall as [_ Htb]. apply prefixed_valid.
  - by destruct tail.
  - rewrite !str_len_app, str_len_hex_padded. simpl. lia.
  - rewrite !str_all_app, Htb, hex_padded_P; [done|apply tun_byte_alphanumeric].
Qed.

(** The name a slug is given: kept if it has the prefix or is numbered. *)
Definition slug_primary (slug : string) : string :=
  if starts_with slug "ovpn-" || (starts_with slug "ovpn" && Nat.ltb 4 (str_len slug)
                                  && digit_at slug 4)
  then str_take (Nat.min (str_len slug) 15) slug
  else "ovpn-" +:+ str_take (Nat.min (str_len slug) 10) slug.

Lemma slug_primary_valid text slug :
  link_name_slug text MAX_LEN = Some slug → valid_tun_name (slug_primary slug) = negb (numbered slug).
Proof.
  intros Hslug. apply (link_name_slug_ok tun_name_byte) in Hslug as Hok;
    [|apply tun_byte_alphanumeric|done]. destruct Hok as (Hall & Hstart & Hlen).
  assert (slug ≠ EmptyString) as Hne by by intros ->. unfold MAX_LEN in Hlen.
  assert (ends_with_char slug "-" = false) as Hend.
  { unfold link_name_slug in Hslug. case_match; [done|]. injection Hslug as <-. apply trimmed_end. }
  unfold slug_primary, numbered. destruct (starts_with slug "ovpn-") eqn:Hprefix; cbn [orb].
  - rewrite Nat.min_l, str_take_all by done. apply starts_with_spec in Hprefix as [rest ->].
    rewrite andb_false_r. rewrite str_len_app, str_all_app in *. simpl in Hlen, Hall.
    apply prefixed_valid; [|lia|done]. by intros ->.
  - destruct (starts_with slug "ovpn" && digit_at slug 4) eqn:Hnum.
    + apply andb_true_iff in Hnum as [Hs Hd]. pose proof (digit_at_long _ _ Hd) as Hl.
      rewrite Hs, Hd. destruct (Nat.ltb_spec 4 (str_len slug)); [|lia]. cbn [andb negb].
      rewrite Nat.min_l, str_take_all by done. unfold valid_tun_name. by rewrite Hprefix.
    + destruct (starts_with slug "ovpn" && _ && digit_at slug 4) eqn:Hv.
      * apply andb_true_iff in Hv as [[Hs _]%andb_true_iff Hd]. by rewrite Hs, Hd in Hnum.
      * apply prefixed_valid; [by destruct slug|rewrite str_len_take; lia|by apply str_all_take].
Qed.

(** (unusable names). The names of an OpenVPN connection pass the runner's
    own check unless the client's hint reads as [ovpn] and a digit: such a
    name is kept as it is, and the runner refuses it in every call that looks
    up its link, without asking the kernel. *)
Theorem openvpn_link_name_usable `{Env} (uid : Z) (profile_id : string) (hint : option string) :
  (valid_tun_name (names uid profile_id hint).1 = false ↔
     ∃ text slug, hint = Some text ∧ link_name_slug text MAX_LEN = Some slug ∧ numbered slug = true) ∧
  (valid_tun_name (names uid profile_id hint).1 = true →
     valid_tun_name (names uid profile_id hint).2 = true) ∧
  (valid_tun_name (names uid profile_id hint).1 = false → ∀ s h,
     link_index (names uid profile_id hint).1 s h = (Some (Err link_name_invalid), s, h)).
Proof.
  cut ((valid_tun_name (names uid profile_id hint).1 = false ↔
     ∃ text slug, hint = Some text ∧ link_name_slug text MAX_LEN = Some slug ∧ numbered slug = true) ∧
    (valid_tun_name (names uid profile_id hint).1 = true →
     valid_tun_name (names uid profile_id hint).2 = true)).
  { intros [H1 H2]. split_and!; [done|done|]. intros Hv s h. unfold link_index. by rewrite Hv. }
  unfold tunnel_link_names. set (hashed := "ovpn-" +:+ hex_padded _ _).
  assert (valid_tun_name hashed = true) as Hhashed by apply hashed_valid.
  destruct (hint ≫= _) as [slug|] eqn:Hslug; cbn [fst snd].
  2:{ split; [|done]. rewrite Hhashed. split; [done|]. intros (text & slug & -> & Hs & _).
      simpl in Hslug. congruence. }
  apply bind_Some in Hslug as (text & -> & Hslug).
  change (trim_end_char "ovpn-" "-") with "ovpn"%string. case_bool_decide as Hbare; cbn [fst snd].
  { subst slug. split; [|done]. rewrite Hhashed. split; [done|].
    intros (text' & slug & [= <-] & Hs & Hnum). rewrite Hslug in Hs. injection Hs as <-. done. }
  pose proof (slug_primary_valid _ _ Hslug) as Hprimary.
  match goal with |- (valid_tun_name ?x = _ ↔ _) ∧ _ => change x with (slug_primary slug) end.
  split.
  - rewrite Hprimary. split.
    + intros Hn%negb_false_iff. by exists text, slug.
    + intros (text' & slug' & [= <-] & Hs & Hn). rewrite Hslug in Hs. injection Hs as <-.
      by rewrite Hn.
  - intros Hv. by apply fallback_valid.
Qed.

End names.

(** ** Concrete runs *)

#[local] Existing Instance ipnet_model.
#[local] Existing Instance netmask_model.

Definition state_line : bytes := str_bytes (">STATE:1700000000,CONNECTED,SUCCESS,10.8.0.2" +:+ newline).

Lemma empty_short : short_line [].
Proof. split; [apply not_elem_of_nil|]. unfold MAX_MANAGEMENT_LINE_BYTES, zlen. simpl. lia. Qed.

(** A line split in two reads. *)
Lemma management_stream_chunking_witness :
  feed [] [take 20 state_line; drop 20 state_line]
  = drain_management [] (concat [take 20 state_line; drop 20 state_line]) ∧
  feed [] [take 20 state_line; drop 20 state_line] = (Ok [EvState Connected], []).
Proof.
  split; [|vm_compute; reflexivity].
  exact (proj1 (management_stream_chunking [] [take 20 state_line; drop 20 state_line] empty_short)).
Defined.

(** A child that runs, has one line to say, and takes every file. *)
#[local] Instance demo_env : Env := λ A c h,
  match c in ext A return A → A with
  | ChildExited _ => λ _, Ok false
  | ManagementRead _ =>
    λ _, if existsb (λ e, match e with Ev (ManagementRead _) _ => true | _ => false end) h
         then Err (err_new WouldBlock "") else Ok state_line
  | FsExists _ => λ _, true
  | FsMetadata _ => λ _, Ok (mkFileMeta true false false false 0 448 0)
  | FsCreateDir _ _ | FsRemoveDir _ | FsCreateNew _ _ | FsWriteAll _ _ | FsSyncAll _ | FsRemoveFile _ =>
    λ _, Ok tt
  | _ => λ d, d
  end (failing_answer c).

Definition demo_process : ManagedProcess := mkManaged 1000 [] None.
Definition demo_children : Children := {["ovpn-home"%string := demo_process]}.

Lemma poll_returns_witness :
  (poll "ovpn-home" demo_children []).1.1 = Some (Ok [EvState Connected]) ∧
  ∃ r s' h', poll "ovpn-home" demo_children [] = (Some r, s', h') ∧
    polled "ovpn-home" demo_children s'.
Proof.
  split; [vm_compute; reflexivity|].
  destruct (poll_returns "ovpn-home" demo_process demo_children []) as (r & s' & h' & Hr & Hp & _).
  - reflexivity.
  - exact empty_short.
  - by exists r, s', h'.
Defined.

Definition demo_config : SanitizedOpenVpnConfig :=
  mkSanitized "client" [mkAsset "asset-0" [1; 2]%Z].

Example staging_succeeds :
  (stage_config_at ["run"; "network-orchestrator"]%string 1000 "ovpn-home" demo_config () []).1.1
  = Some (Ok ["run"; "network-orchestrator"; "1000"; "ovpn-home"]%string).
Proof. vm_compute. reflexivity. Qed.

(** The hint [ovpn0] is kept and then refused; [office] is not. *)
Example numbered_hint :
  (tunnel_link_names "ovpn-" 1000 "home" (Some "ovpn0")).1 = "ovpn0"%string ∧
  valid_tun_name "ovpn0" = false ∧
  valid_tun_name (tunnel_link_names "ovpn-" 1000 "home" (Some "office")).1 = true.
Proof. split_and!; vm_compute; reflexivity. Qed.
