(* ===== verification/CoreTunnels.v ===== *)
(** * Tunnels: WireGuard connections and reconciliation

    [connect_wireguard], [allocate_full], [wireguard_status], [reapply_dns]
    and the network reconciliation of [crates/daemon/src/core.rs]. *)

From S2P Require Export CoreRoutes LinkNames WireGuardConfig.

Section tunnels.
Context `{Env} `{IpNetLib}.

(** ** Helpers *)

Definition wireguard_owner (profile_id : string) : io_result string :=
  _ <-? map_err invalid_input (validate_owner profile_id);
  Ok ("wg:" +:+ profile_id).

Definition wireguard_name (uid : Z) (profile_id : string) (hint : option string)
    : string * string :=
  tunnel_link_names "wg-" uid profile_id hint.

(** ** Policy-routing slots *)

Definition owns_full (resource : OwnedResource) : bool :=
  match resource with
  | WireGuardLink link => is_some (wl_full link)
  | OpenVpnProcess process => is_some (op_full process)
  | XrayProcess process => is_some (xp_full process)
  | _ => false
  end.

Definition marks_table (table : Z) (resource : OwnedResource) : bool :=
  match resource with
  | OpenVpnProcess process => op_transport_mark process =b Some table
  | XrayProcess process => Z.eqb (xp_transport_mark process) table
  | _ => false
  end.

Definition any_resource (c : DaemonCore) (p : OwnedResource → bool) : bool :=
  existsb (λ entry, existsb p (je_resources entry)) (entries c).

(** The tests of slot [slot] before the kernel is asked. *)
Definition slot_taken (c : DaemonCore) (existing : list OwnedRuleResource) (wg_marks : list Z)
    (slot : Z) : bool :=
  let table := (51820 + slot)%Z in
  let priority_main := (10000 + slot * 2)%Z in
  let priority_tunnel := (priority_main + 1)%Z in
  vec_contains wg_marks table
  || any_resource c (marks_table table)
  || existsb (λ rule, (or_fwmark rule =b Some table)
                      || Z.eqb (or_priority rule) priority_main
                      || Z.eqb (or_priority rule) priority_tunnel) existing.

Definition slot_resource (plan : WireGuardPlan) (slot : Z) : WireGuardFullResource :=
  let table := (51820 + slot)%Z in
  let priority_main := (10000 + slot * 2)%Z in
  mkFull table table priority_main (priority_main + 1) (wp_full_ipv4 plan) (wp_full_ipv6 plan).

(** [for slot in 0..128]: the first free slot. *)
Fixpoint find_slot (c : DaemonCore) (plan : WireGuardPlan) (existing : list OwnedRuleResource)
    (wg_marks slots : list Z) : M DaemonCore (io_result (option WireGuardFullResource)) :=
  match slots with
  | [] => fail (err_new AlreadyExists "no safe policy routing slot is available")
  | slot :: rest =>
    if slot_taken c existing wg_marks slot then find_slot c plan existing wg_marks rest
    else
      let? in_use := call (TableInUse (51820 + slot)) in
      if in_use : bool then find_slot c plan existing wg_marks rest
      else ret (Ok (Some (slot_resource plan slot)))
  end.

Definition slots : list Z := map Z.of_nat (seq 0 128).

Definition allocate_full (plan : WireGuardPlan)
    : M DaemonCore (io_result (option WireGuardFullResource)) :=
  if negb (wp_full_ipv4 plan) && negb (wp_full_ipv6 plan) then ret (Ok None) else
  let! c := get in
  if any_resource c owns_full
  then fail (err_new AlreadyExists "another full tunnel owns policy routing")
  else if negb (ex_policy (dc_wired c)) then fail policy_unavailable
  else
    let? existing := call RulesSnapshot in
    let! c := get in
    if negb (ex_wg_config (dc_wired c)) then panic else
    let? wg_marks := call WgMarksInUse in
    find_slot c plan existing wg_marks slots.

(** ** Connecting *)

(** [self.journal.entries[index].resources.push(r); self.store.save(...)?] *)
Definition push_and_save (index : nat) (r : OwnedResource) : M DaemonCore (io_result unit) :=
  update_entry index (push_resource r) ;;;
  store_save_journal.

(** The first resource when it is the link. *)
Definition update_link (f : WireGuardLinkResource → WireGuardLinkResource)
    (rs : list OwnedResource) : list OwnedResource :=
  match rs with
  | WireGuardLink l :: rest => WireGuardLink (f l) :: rest
  | _ => rs
  end.

Definition with_index (index : Z) (name : string) (l : WireGuardLinkResource)
    : WireGuardLinkResource :=
  mkLinkResource name index (wl_owner_marker l) (wl_full l) (wl_warnings l).

Definition warn (w : WireGuardWarning) (l : WireGuardLinkResource) : WireGuardLinkResource :=
  mkLinkResource (wl_name l) (wl_index l) (wl_owner_marker l) (wl_full l) (wl_warnings l ++ [w]).

(** [resources.last_mut()]: mark the DNS resource applied. *)
Definition dns_with_applied (applied : bool) (d : WireGuardDnsResource) : WireGuardDnsResource :=
  mkDnsResource (wd_interface_index d) (wd_name d) (wd_servers d) (wd_domains d) (wd_full d)
    applied.
Definition mark_last_dns (rs : list OwnedResource) : list OwnedResource :=
  match last rs with
  | Some (Dns d) => pop_list rs ++ [Dns (dns_with_applied true d)]
  | _ => rs
  end.

Definition in_full_table (plan : WireGuardPlan) (full : option WireGuardFullResource)
    (destination : IpNet) : bool :=
  is_some full && is_full_route (wp_full_ipv4 plan) (wp_full_ipv6 plan) destination.

Definition endpoint_covered (plan : WireGuardPlan) (full : option WireGuardFullResource)
    (endpoint : IpAddr) : bool :=
  existsb (λ address, contains_ip (trunc address) endpoint) (wp_addresses plan)
  || existsb (λ route, negb (in_full_table plan full (pr_destination route))
                       && contains_ip (pr_destination route) endpoint) (wp_routes plan).

Definition wireguard_route (plan : WireGuardPlan) (full : option WireGuardFullResource)
    (ifindex : Z) (route : PolicyRoute) : AppliedRoute :=
  let applied := on_link (pr_destination route) ifindex (pr_metric route) in
  if in_full_table plan full (pr_destination route)
  then mkAppliedRoute (ar_destination applied) (ar_interface_index applied) (ar_metric applied)
         (ar_gateway applied) (wf_table <$> full)
  else applied.

(** The link under its name, or under the fallback when a foreign link has
    the name. *)
Definition create_link (name fallback_name marker : string)
    : M DaemonCore (io_result (Z * string)) :=
  let! created := call (WgCreateLink name marker) in
  match created with
  | Ok ifindex => ret (Ok (ifindex, name))
  | Err err =>
    if has_kind AlreadyExists err && negb (fallback_name =b name) then
      let? ifindex := call (WgCreateLink fallback_name marker) in
      ret (Ok (ifindex, fallback_name))
    else fail err
  end.

Definition connect_dns (index : nat) (plan : WireGuardPlan)
    (full : option WireGuardFullResource) (ifindex : Z) (name : string)
    : M DaemonCore (io_result unit) :=
  match wp_dns_servers plan with
  | [] => ret (Ok tt)
  | _ =>
    let? _ := push_and_save index (Dns (mkDnsResource ifindex name (wp_dns_servers plan)
                                          (wp_dns_domains plan) (is_some full) false)) in
    let! applied := call (DnsApplyLink name (wp_dns_servers plan) (wp_dns_domains plan)
                            (is_some full)) in
    match applied with
    | Err e => fail (err_other (dns_error_text e))
    | Ok outcome =>
      match outcome with
      | DnsApplied => update_entry index (with_resources mark_last_dns)
      | DnsUnavailable =>
        update_entry index (with_resources (update_link (warn DnsNotApplied)))
      | DnsSkipped =>
        update_entry index pop_resource ;;;
        update_entry index (with_resources (update_link (warn DnsNotApplied)))
      end ;;;
      store_save_journal
    end
  end.

(** The part of the closure after the endpoint check. *)
Definition connect_body (index : nat) (plan : WireGuardPlan) (full : option WireGuardFullResource)
    (ifindex : Z) (name : string) : M DaemonCore (io_result unit) :=
  let? _ := match full with
            | Some full => call (WgSetFwmark name (wf_fwmark full))
            | None => ret (Ok tt)
            end in
  let? _ := for_try (wp_addresses plan) tt (λ _ address,
    let? _ := push_and_save index (Address (mkAddressResource ifindex address)) in
    call (WgAddAddress ifindex address)) in
  let? _ := match wp_mtu plan with
            | Some mtu => call (WgSetMtu ifindex mtu)
            | None => ret (Ok tt)
            end in
  let? _ := call (WgSetState ifindex true) in
  let? _ := for_try (wp_routes plan) tt (λ _ route,
    if existsb (λ address, trunc address =b pr_destination route) (wp_addresses plan)
    then ret (Ok tt)
    else
      let applied := wireguard_route plan full ifindex route in
      let? _ := push_and_save index (Route applied) in
      call (AddRoute applied)) in
  let? _ := match full with
            | Some full =>
              let? _ := for_try (full_policy_rules full) tt (λ _ rule,
                let? _ := push_and_save index (Rule rule) in
                call (AddRule rule)) in
              call (WgVerifyTransport name (wf_fwmark full) (wf_ipv4 full) (wf_ipv6 full))
            | None => ret (Ok tt)
            end in
  connect_dns index plan full ifindex name.

(** The closure of [connect_wireguard]. *)
Definition connect_steps (index : nat) (plan : WireGuardPlan)
    (full : option WireGuardFullResource) (name fallback_name marker : string)
    : M DaemonCore (io_result unit) :=
  let? '(ifindex, name) := create_link name fallback_name marker in
  update_entry index (with_resources (update_link (with_index ifindex name))) ;;;
  let? _ := store_save_journal in
  let? _ := call (WgConfigure name (wp_setconf plan)) in
  let? endpoints := call (WgEndpointIps name) in
  if existsb (endpoint_covered plan full) endpoints
  then fail (invalid_input (txt "WireGuard endpoint is covered by tunnel routes or addresses"))
  else
    connect_body index plan full ifindex name.

(** The link never created: only the write-ahead record is there. *)
Definition only_intent (rs : list OwnedResource) : bool :=
  match rs with
  | [WireGuardLink link] => Z.eqb (wl_index link) 0
  | _ => false
  end.

Definition plan_warning (w : WireGuardPlanWarning) : WireGuardWarning :=
  match w with
  | PlanIgnoredHook => IgnoredHook
  | PlanIgnoredSaveConfig => IgnoredSaveConfig
  end.

Record WireGuardStatusResult : Type := mkWgStatus {
  gs_profile_id : string;
  gs_state : TunnelState;
  gs_interface_name : option string;
  gs_latest_handshake : option Z;
  gs_rx_bytes : Z;
  gs_tx_bytes : Z;
  gs_dns_applied : bool;
  gs_warnings : list WireGuardWarning;
}.

Definition wireguard_status (uid : Z) (profile_id : string)
    : M DaemonCore WireGuardStatusResult :=
  let owner := "wg:" +:+ profile_id in
  let! c := get in
  let entry := List.find (λ e, Z.eqb (je_uid e) uid && (je_owner e =b owner)) (entries c) in
  let link := entry ≫= λ e, find_wireguard (je_resources e) in
  let interface_name := wl_name <$> link in
  let warnings := unwrap_or (wl_warnings <$> link) [] in
  let dns_applied := is_some_and (λ e,
    existsb (λ r, match r with Dns d => wd_applied d | _ => false end) (je_resources e)) entry in
  let failed := (Failed, None, 0%Z, 0%Z) in
  let! '(state, latest_handshake, rx_bytes, tx_bytes) :=
    (match entry, interface_name with
     | Some e, Some name =>
       if je_state e =b Applied then
         let! health :=
           (if ex_wg_config (dc_wired c) then let! r := call (WgHealth name) in ret (ok r)
            else ret None) in
         match health with
         | Some (handshake, rx, tx) =>
           let! now := call UnixNow in
           let '(state, watch) :=
             observe_handshake (dc_wireguard_handshake c !! (uid, owner)) handshake tx now in
           modify (set_wireguard_handshake (λ m,
             match watch with
             | Some watch => <[(uid, owner) := watch]> m
             | None => delete (uid, owner) m
             end)) ;;;
           ret (state, handshake, rx, tx)
         | None => ret failed
         end
       else ret failed
     | Some _, None => ret failed
     | None, _ =>
       if bool_decide ((uid, owner) ∈ dc_tunnel_failed c) then ret failed
       else ret (Stopped, None, 0%Z, 0%Z)
     end) in
  ret (mkWgStatus profile_id state interface_name latest_handshake rx_bytes tx_bytes
         dns_applied warnings).

Definition connect_wireguard (uid : Z) (profile_id : string) (plan : WireGuardPlan)
    : M DaemonCore (io_result WireGuardStatusResult) :=
  let? owner := lift (wireguard_owner profile_id) in
  let! c := get in
  if negb (Z.eqb (zlen (wp_dns_servers plan)) 0) && negb (ex_dns (dc_wired c))
  then fail (invalid_input (txt "DNS executor is unavailable"))
  else if is_some (position_of c uid owner)
  then fail (err_new AlreadyExists "WireGuard profile is already connected")
  else if negb (ex_wg (dc_wired c)) || negb (ex_wg_config (dc_wired c))
  then fail (err_new NotConnected "WireGuard executor is unavailable")
  else
    let? full := allocate_full plan in
    let '(name, fallback_name) := wireguard_name uid profile_id (wp_interface_name plan) in
    let marker := "network-orchestrator:" +:+ show_Z uid +:+ ":" +:+ owner in
    let warnings := map plan_warning (wp_warnings plan)
      ++ (if wp_full_ipv4 plan && negb (wp_full_ipv6 plan) then [Ipv6NotCovered] else []) in
    let link := mkLinkResource name 0 marker full warnings in
    push_entry (mkEntry uid owner Applying [WireGuardLink link]) ;;;
    let! c := get in
    let index := length (entries c) - 1 in
    let! saved := store_save_journal in
    match saved with
    | Err err => pop_entry ;;; fail err
    | Ok _ =>
      let! result := connect_steps index plan full name fallback_name marker in
      match result with
      | Err err =>
        let! entry := entry_at index in
        if has_kind AlreadyExists err && only_intent (je_resources entry) then
          remove_entry index ;;; persist ;;; fail err
        else
          let! _ := teardown_entry index in
          persist ;;; fail err
      | Ok _ =>
        update_entry index (with_state Applied) ;;;
        let! saved := store_save_journal in
        match saved with
        | Err err =>
          let! _ := teardown_entry index in
          persist ;;; fail err
        | Ok _ =>
          modify (set_tunnel_failed (λ m, m ∖ {[(uid, owner)]})) ;;;
          modify (set_wireguard_handshake (delete (uid, owner))) ;;;
          let! status := wireguard_status uid profile_id in
          ret (Ok status)
        end
      end
    end.

Definition disconnect_wireguard (uid : Z) (profile_id : string)
    : M DaemonCore (io_result unit) :=
  let? owner := lift (wireguard_owner profile_id) in
  let! c := get in
  match position_of c uid owner with
  | None =>
    if bool_decide ((uid, owner) ∈ dc_tunnel_failed c) then
      modify (set_tunnel_failed (λ m, m ∖ {[(uid, owner)]})) ;;; ret (Ok tt)
    else fail (err_new NotFound "WireGuard profile is not connected")
  | Some index =>
    let! result := teardown_entry index in
    let? _ := store_save_journal in
    ret result
  end.

End tunnels.
