(* ===== verification/CoreOpenVpn.v ===== *)
(** * OpenVPN connections

    [connect_openvpn], the route probe, [reconcile_openvpn] and the status
    of [crates/daemon/src/core.rs]. The daemon starts the process with
    [--route-noexec] and installs what the server pushed itself. *)

From S2P Require Export CoreTunnels OpenVpn.

(** ** Results *)

Inductive OpenVpnConnectionState : Type :=
| OvpnStopped | OvpnConnecting | OvpnConnected | OvpnReconnecting | OvpnFailed.

Inductive OpenVpnWarning : Type :=
| OvpnDnsNotApplied | OvpnIpv6NotCovered | OvpnAuthenticationFailed.

Record OpenVpnStatusResult : Type := mkOvpnStatus {
  os_profile_id : string;
  os_state : OpenVpnConnectionState;
  os_interface_name : option string;
  os_rx_bytes : Z;
  os_tx_bytes : Z;
  os_applied_routes : list IpNet;
  os_warnings : list OpenVpnWarning;
  os_failure_reason : option OpenVpnFailure;
}.

Record AnalyzedRoute : Type := mkAnalyzedRoute {
  an_destination : IpNet;
  an_source : string;
  an_metric : option Z;
}.

Record OpenVpnProbeResult : Type := mkProbeResult { or_routes : list AnalyzedRoute }.

Inductive OpenVpnPlanConflict : Type :=
| ActiveConnection | ActiveProbe | InterfaceOccupied | StagingLeftover.

#[export] Instance OpenVpnPlanConflict_eq_dec : EqDecision OpenVpnPlanConflict.
Proof. solve_decision. Defined.
#[export] Instance OpenVpnConnectionState_eq_dec : EqDecision OpenVpnConnectionState.
Proof. solve_decision. Defined.

Record OpenVpnPlanResult : Type := mkOvpnPlanResult {
  oy_profile_id : string;
  oy_owner : string;
  oy_interface_name : string;
  oy_fallback_interface_name : string;
  oy_staging_dir : string;
  oy_config_path : string;
  oy_management_socket : string;
  oy_conflicts : list OpenVpnPlanConflict;
}.

(** What the core uses of [HashMap::keys]: each key once, in some order. *)
Class HashOrder : Type := {
  hash_keys : gmap owner_key OpenVpnRuntime → list owner_key;
  hash_keys_perm m : hash_keys m ≡ₚ (map_to_list m).*1;
}.

Section openvpn.
Context `{Env} `{IpNetLib} `{RuntimeDir} `{HashOrder}.

Definition openvpn_unavailable : io_error :=
  err_new NotConnected "OpenVPN executor is unavailable".

(** ** Names and marks *)

Definition name_occupied : io_error := err_new AlreadyExists "OpenVPN link name is occupied".

(** [runner.link_index(name)?.is_none() && !runner.staging_exists(uid, name)?] *)
Definition name_free (uid : Z) (name : string) : M DaemonCore (io_result bool) :=
  let? link := call (OvpnLinkIndex name) in
  if is_some link then ret (Ok false)
  else
    let? leftover := call (OvpnStagingExists uid name) in
    ret (Ok (negb leftover)).

Definition resolve_openvpn_name (uid : Z) (plan : OpenVpnPlan) : M DaemonCore (io_result string) :=
  let? free := name_free uid (ol_name plan) in
  if free : bool then ret (Ok (ol_name plan))
  else if ol_name plan =b ol_fallback_name plan then fail name_occupied
  else
    let? free := name_free uid (ol_fallback_name plan) in
    if free : bool then ret (Ok (ol_fallback_name plan)) else fail name_occupied.

(** [used_by_owner] *)
Definition owns_mark (mark : Z) (resource : OwnedResource) : bool :=
  match resource with
  | OpenVpnProcess process => op_transport_mark process =b Some mark
  | XrayProcess process => Z.eqb (xp_transport_mark process) mark
  | WireGuardLink link => is_some_and (λ full, Z.eqb (wf_fwmark full) mark) (wl_full link)
  | _ => false
  end.

Definition rule_taken (mark priority_main priority_tunnel : Z) (rule : OwnedRuleResource) : bool :=
  (or_fwmark rule =b Some mark)
  || Z.eqb (or_priority rule) priority_main
  || Z.eqb (or_priority rule) priority_tunnel.

(** [for slot in 0..128] *)
Fixpoint find_mark (existing_rules : list OwnedRuleResource) (slots : list Z)
    : M DaemonCore (io_result Z) :=
  match slots with
  | [] => fail (err_new AlreadyExists "no OpenVPN transport mark is available")
  | slot :: rest =>
    let mark := (51820 + slot)%Z in
    let priority_main := (10000 + slot * 2)%Z in
    let! c := get in
    if any_resource c (owns_mark mark) then find_mark existing_rules rest
    else if existsb (rule_taken mark priority_main (priority_main + 1)) existing_rules
    then find_mark existing_rules rest
    else
      let! in_use :=
        (if ex_policy (dc_wired c) then let! r := call (TableInUse mark) in ret (unwrap_or (ok r) true)
         else ret false) in
      if in_use : bool then find_mark existing_rules rest else ret (Ok mark)
  end.

Definition allocate_openvpn_mark : M DaemonCore (io_result Z) :=
  let! c := get in
  let? existing_rules := if ex_policy (dc_wired c) then call RulesSnapshot else ret (Ok []) in
  find_mark existing_rules slots.

(** ** Planning *)

(** [if conflict && !conflicts.contains(&c) { conflicts.push(c) }] *)
Definition add_conflict (conflict : bool) (c : OpenVpnPlanConflict)
    (conflicts : list OpenVpnPlanConflict) : list OpenVpnPlanConflict :=
  if conflict && negb (vec_contains conflicts c) then conflicts ++ [c] else conflicts.

Definition plan_openvpn (uid : Z) (plan : OpenVpnPlan) : M DaemonCore (io_result OpenVpnPlanResult) :=
  let! c := get in
  if negb (ex_openvpn (dc_wired c)) then fail openvpn_unavailable else
  let owner := "ovpn:" +:+ ol_profile_id plan in
  let conflicts :=
    add_conflict (is_some (position_of c uid ("ovpn-probe:" +:+ ol_profile_id plan))) ActiveProbe
      (add_conflict (is_some (position_of c uid owner)) ActiveConnection []) in
  let? link := call (OvpnLinkIndex (ol_name plan)) in
  let conflicts := add_conflict (is_some link) InterfaceOccupied conflicts in
  let? leftover := call (OvpnStagingExists uid (ol_name plan)) in
  let conflicts := add_conflict leftover StagingLeftover conflicts in
  let? '(name, conflicts) :=
    (if (vec_contains conflicts InterfaceOccupied || vec_contains conflicts StagingLeftover)
        && negb (ol_fallback_name plan =b ol_name plan)
     then
       let name := ol_fallback_name plan in
       let? link := call (OvpnLinkIndex name) in
       let conflicts := add_conflict (is_some link) InterfaceOccupied conflicts in
       let? leftover := call (OvpnStagingExists uid name) in
       ret (Ok (name, add_conflict leftover StagingLeftover conflicts))
     else ret (Ok (ol_name plan, conflicts))) in
  let staging := stage_dir uid name in
  ret (Ok {| oy_profile_id := ol_profile_id plan;
             oy_owner := owner;
             oy_interface_name := name;
             oy_fallback_interface_name := ol_fallback_name plan;
             oy_staging_dir := staging;
             oy_config_path := path_join staging "config.ovpn";
             oy_management_socket := path_join staging "management.sock";
             oy_conflicts := conflicts |}).

(** ** Starting the process *)

(** The part [connect_openvpn] and [start_openvpn_probe] share: mark, name,
    write-ahead record, process. *)
Definition launch_openvpn (uid : Z) (owner : string) (plan : OpenVpnPlan)
    : M DaemonCore (io_result unit) :=
  let? mark := allocate_openvpn_mark in
  let! c := get in
  if negb (ex_openvpn (dc_wired c)) then fail openvpn_unavailable else
  let? _ := call OvpnVerifyBinary in
  let? name := resolve_openvpn_name uid plan in
  let marker := "network-orchestrator:" +:+ show_Z uid +:+ ":" +:+ owner in
  push_entry (mkEntry uid owner Applying
                [OpenVpnProcess (mkOpenVpnProcess name marker (Some mark) None)]) ;;;
  let! c := get in
  let index := length (entries c) - 1 in
  let! saved := store_save_journal in
  match saved with
  | Err err => pop_entry ;;; fail err
  | Ok _ =>
    let! started :=
      (let? config := lift (sanitized_config plan (stage_dir uid name)) in
       call (OvpnStart uid name config (ol_credentials plan) mark)) in
    match started with
    | Err err => let! _ := teardown_openvpn_entry index in persist ;;; fail err
    | Ok _ => update_entry index (with_state Applied) ;;; persist ;;; ret (Ok tt)
    end
  end.

(** ** Status *)

Definition dns_not_applied (r : OwnedResource) : bool :=
  match r with Dns dns => negb (wd_applied dns) | _ => false end.

Definition ipv6_not_covered (r : OwnedResource) : bool :=
  match r with
  | OpenVpnProcess process => is_some_and (λ full, wf_ipv4 full && negb (wf_ipv6 full)) (op_full process)
  | _ => false
  end.

Definition openvpn_state (c : DaemonCore) (key : owner_key) (entry : option JournalEntry)
    (runtime : option OpenVpnRuntime) : OpenVpnConnectionState :=
  match entry, runtime with
  | Some entry, runtime =>
    if je_state entry =b Stale then OvpnFailed
    else match runtime with
    | Some runtime =>
      match ms_state (ov_snapshot runtime) with
      | Some Connected => OvpnConnected
      | Some Reconnecting => OvpnReconnecting
      | Some Exiting => OvpnFailed
      | _ => OvpnConnecting
      end
    | None => OvpnFailed
    end
  | None, _ => if bool_decide (key ∈ dc_openvpn_failed c) then OvpnFailed else OvpnStopped
  end.

Definition openvpn_status (c : DaemonCore) (uid : Z) (profile_id : string) : OpenVpnStatusResult :=
  let owner := "ovpn:" +:+ profile_id in
  let key := (uid, owner) in
  let entry := List.find (λ e, Z.eqb (je_uid e) uid && (je_owner e =b owner)) (entries c) in
  let resources := unwrap_or (je_resources <$> entry) [] in
  let runtime := dc_openvpn_runtime c !! key in
  let state := openvpn_state c key entry runtime in
  {| os_profile_id := profile_id;
     os_state := state;
     os_interface_name := op_name <$> find_openvpn resources;
     os_rx_bytes := unwrap_or ((λ rt, ms_received (ov_snapshot rt)) <$> runtime) 0%Z;
     os_tx_bytes := unwrap_or ((λ rt, ms_sent (ov_snapshot rt)) <$> runtime) 0%Z;
     os_applied_routes :=
       omap (λ r, match r with Route route => Some (ar_destination route) | _ => None end) resources;
     os_warnings :=
       (if existsb dns_not_applied resources then [OvpnDnsNotApplied] else [])
       ++ (if existsb ipv6_not_covered resources then [OvpnIpv6NotCovered] else [])
       ++ (if (state =b OvpnFailed) && bool_decide (key ∈ dc_openvpn_auth_failed c)
           then [OvpnAuthenticationFailed] else []);
     os_failure_reason :=
       if state =b OvpnFailed then dc_openvpn_failures c !! key else None |}.

(** ** Connecting, probing, disconnecting *)

(** A connection or a probe of the profile is recorded. *)
Definition openvpn_active (c : DaemonCore) (uid : Z) (profile_id : string) : bool :=
  is_some (position_of c uid ("ovpn:" +:+ profile_id))
  || is_some (position_of c uid ("ovpn-probe:" +:+ profile_id)).

Definition forget_failure (key : owner_key) : M DaemonCore unit :=
  modify (set_openvpn_failed (λ m, m ∖ {[key]})) ;;;
  modify (set_openvpn_auth_failed (λ m, m ∖ {[key]})) ;;;
  modify (set_openvpn_failures (delete key)).

Definition connect_openvpn (uid : Z) (plan : OpenVpnPlan) : M DaemonCore (io_result OpenVpnStatusResult) :=
  let owner := "ovpn:" +:+ ol_profile_id plan in
  let? _ := lift (map_err invalid_input (validate_owner owner)) in
  let! c := get in
  if openvpn_active c uid (ol_profile_id plan)
  then fail (err_new AlreadyExists "OpenVPN profile is already connected") else
  let? _ := launch_openvpn uid owner plan in
  modify (set_openvpn_runtime (<[(uid, owner) := mkRuntime (ol_routes plan) (ol_role plan)
                                   (ol_dns_domains plan) snapshot_default]>)) ;;;
  forget_failure (uid, owner) ;;;
  let! c := get in
  ret (Ok (openvpn_status c uid (ol_profile_id plan))).

Definition start_openvpn_probe (uid : Z) (plan : OpenVpnPlan) : M DaemonCore (io_result unit) :=
  let owner := "ovpn-probe:" +:+ ol_profile_id plan in
  let? _ := lift (map_err invalid_input (validate_owner owner)) in
  let! c := get in
  if openvpn_active c uid (ol_profile_id plan)
  then fail (err_new AlreadyExists "OpenVPN profile is already active") else
  launch_openvpn uid owner plan.

(** A probe ends on these events. *)
Definition ends_probe (event : ManagementEvent) : bool :=
  match event with
  | EvAuthenticationFailed | EvPasswordPrompt _ | EvState Exiting => true
  | _ => false
  end.

Definition probe_route (destination : IpNet) : AnalyzedRoute :=
  mkAnalyzedRoute destination "OpenVPN pushed" None.

Definition probe_result (events : list ManagementEvent) : io_result (option OpenVpnProbeResult) :=
  if existsb ends_probe events
  then Err (err_new PermissionDenied "OpenVPN probe authentication or handshake failed")
  else
    let connected :=
      existsb (λ event, match event with EvState Connected => true | _ => false end) events in
    match find_map (λ event, match event with EvPushReply push => Some push | _ => None end) events with
    | Some push => Ok (Some (mkProbeResult (map probe_route (pn_routes push))))
    | None => Ok (if connected then Some (mkProbeResult []) else None)
    end.

Definition probe_inactive : io_error := err_new NotFound "OpenVPN probe is not active".

Definition poll_openvpn_probe (uid : Z) (profile_id : string)
    : M DaemonCore (io_result (option OpenVpnProbeResult)) :=
  let! c := get in
  let? index := lift (ok_or (position_of c uid ("ovpn-probe:" +:+ profile_id)) probe_inactive) in
  let! entry := entry_at index in
  let? process := lift (ok_or (find_openvpn (je_resources entry))
                          (err_other "OpenVPN probe has no process marker")) in
  if negb (ex_openvpn (dc_wired c)) then fail (err_other "OpenVPN executor is unavailable") else
  let? events := call (OvpnPoll (op_name process)) in
  lift (probe_result events).

Definition finish_openvpn_probe (uid : Z) (profile_id : string) : M DaemonCore (io_result unit) :=
  let! c := get in
  let? index := lift (ok_or (position_of c uid ("ovpn-probe:" +:+ profile_id)) probe_inactive) in
  let! result := teardown_openvpn_entry index in
  persist ;;;
  ret result.

Definition disconnect_openvpn (uid : Z) (profile_id : string) : M DaemonCore (io_result unit) :=
  let owner := "ovpn:" +:+ profile_id in
  let key := (uid, owner) in
  let! c := get in
  match position_of c uid owner with
  | None =>
    if bool_decide (key ∈ dc_openvpn_failed c) then forget_failure key ;;; ret (Ok tt)
    else fail (err_new NotFound "OpenVPN profile is not connected")
  | Some index =>
    let! result := teardown_entry index in
    persist ;;;
    (if is_ok result then forget_failure key else ret tt) ;;;
    ret result
  end.

(** ** Reconciliation *)

Definition process_malformed : io_error :=
  err_new InvalidData "OpenVPN process journal is malformed".

(** [other_index != index] and the entry owns the policy routing. *)
Definition other_owns_full (index : nat) (es : list JournalEntry) : bool :=
  existsb (λ '(i, entry), negb (Nat.eqb i index) && existsb owns_full (je_resources entry))
    (enumerate es).

(** [mark.checked_sub(51820).filter(|slot| *slot < 128)] *)
Definition mark_slot (mark : Z) : option Z :=
  let slot := (mark - 51820)%Z in
  if Z.leb 0 slot && Z.ltb slot 128 then Some slot else None.

(** The policy slot of [mark] is taken by something the daemon does not own. *)
Definition slot_occupied (mark priority_main : Z) : M DaemonCore (io_result bool) :=
  let! c := get in
  let? rules := call RulesSnapshot in
  if existsb (rule_taken mark priority_main (priority_main + 1)) rules then ret (Ok true)
  else
    let? in_use := call (TableInUse mark) in
    if in_use : bool then ret (Ok true)
    else if ex_wg_config (dc_wired c) then
      let! marks := call WgMarksInUse in
      ret (Ok (match marks with Ok marks => vec_contains marks mark | Err _ => true end))
    else ret (Ok false).

Definition openvpn_full_plan (index : nat) (ipv4 ipv6 : bool)
    : M DaemonCore (io_result (option WireGuardFullResource)) :=
  if negb ipv4 && negb ipv6 then ret (Ok None) else
  let! c := get in
  if other_owns_full index (entries c)
  then fail (err_new AlreadyExists "another full tunnel owns policy routing") else
  let! entry := entry_at index in
  let? process := lift (ok_or (find_openvpn (je_resources entry)) process_malformed) in
  let? mark := lift (ok_or (op_transport_mark process)
                       (err_new InvalidData "OpenVPN transport mark is missing")) in
  let? slot := lift (ok_or (mark_slot mark)
                       (err_new InvalidData "OpenVPN transport mark is invalid")) in
  let priority_main := (10000 + slot * 2)%Z in
  let? occupied :=
    (if is_none (op_full process)
     then if ex_policy (dc_wired c) then slot_occupied mark priority_main else fail policy_unavailable
     else ret (Ok false)) in
  if occupied : bool then fail (err_new AlreadyExists "OpenVPN policy slot is occupied")
  else ret (Ok (Some (mkFull mark mark priority_main (priority_main + 1) ipv4 ipv6))).

(** One event of a poll: some end the connection at once. [fail_openvpn]
    always returns an error, which leaves the loop and the function. *)
Definition openvpn_event (uid : Z) (owner : string) (event : ManagementEvent)
    : M DaemonCore (io_result unit) :=
  let? _ :=
    match event with
    | EvAuthenticationFailed =>
      modify (set_openvpn_auth_failed (λ m, {[(uid, owner)]} ∪ m)) ;;;
      modify (set_openvpn_failures (<[(uid, owner) := AuthenticationFailure]>)) ;;;
      fail_openvpn uid owner
    | EvPasswordPrompt _ => fail_openvpn uid owner
    | EvFailureDetail reason =>
      modify (set_openvpn_failures (<[(uid, owner) := reason]>)) ;;;
      if reason =b CredentialsRequired then fail_openvpn uid owner else ret (Ok tt)
    | _ => ret (Ok tt)
    end in
  modify (set_openvpn_runtime (alter (λ rt,
    mkRuntime (ov_explicit_routes rt) (ov_role rt) (ov_dns_domains rt)
      (snapshot_apply event (ov_snapshot rt))) (uid, owner))) ;;;
  ret (Ok tt).

Definition no_network : OpenVpnNetworkPlan := mkNetworkPlan [] false false [] [].

(** The network the session wants: its plan once connected, none while it
    reconnects; before that nothing is touched. *)
Definition openvpn_network (runtime : OpenVpnRuntime) : option (io_result OpenVpnNetworkPlan) :=
  match ms_state (ov_snapshot runtime) with
  | Some Connected => Some (plan_from_runtime runtime)
  | Some Reconnecting => Some (Ok no_network)
  | _ => None
  end.

Definition network_full_route (network : OpenVpnNetworkPlan) (destination : IpNet) : bool :=
  is_full_route (np_full_ipv4 network) (np_full_ipv6 network) destination.

(** The route of the plan on the link. *)
Definition openvpn_route (network : OpenVpnNetworkPlan) (full : option WireGuardFullResource)
    (link_index : Z) (route : PolicyRoute) : AppliedRoute :=
  let applied := on_link (pr_destination route) link_index (pr_metric route) in
  if network_full_route network (pr_destination route)
  then mkAppliedRoute (ar_destination applied) (ar_interface_index applied) (ar_metric applied)
         (ar_gateway applied) (wf_table <$> full)
  else applied.

Definition desired_key (network : OpenVpnNetworkPlan) (full : option WireGuardFullResource)
    (route : PolicyRoute) : IpNet * Z * option Z :=
  (pr_destination route, pr_metric route,
   if network_full_route network (pr_destination route) then wf_table <$> full else None).

Definition current_keys (resources : list OwnedResource) : list (IpNet * Z * option Z) :=
  omap (λ r, match r with
             | Route route => Some (ar_destination route, ar_metric route, ar_table route)
             | _ => None
             end) resources.

Definition current_full (resources : list OwnedResource) : option WireGuardFullResource :=
  find_map (λ r, match r with OpenVpnProcess process => op_full process | _ => None end) resources.

Definition find_dns_resource (resources : list OwnedResource) : option WireGuardDnsResource :=
  find_map (λ r, match r with Dns dns => Some dns | _ => None end) resources.

(** The journal already holds the wanted network. *)
Definition network_in_sync (network : OpenVpnNetworkPlan) (full : option WireGuardFullResource)
    (resources : list OwnedResource) : bool :=
  (current_keys resources =b map (desired_key network full) (np_routes network))
  && (current_full resources =b full)
  && is_none_or (λ dns, (wd_servers dns =b np_dns_servers network)
                        && (wd_domains dns =b np_dns_domains network)
                        && Bool.eqb (wd_full dns) (is_some full)) (find_dns_resource resources)
  && negb (Bool.eqb (is_some (find_dns_resource resources))
             (Nat.eqb (length (np_dns_servers network)) 0)).

(** [process.full = full] on the first resource. *)
Definition set_first_full (full : option WireGuardFullResource) (rs : list OwnedResource)
    : list OwnedResource :=
  match rs with
  | OpenVpnProcess p :: rest =>
    OpenVpnProcess (mkOpenVpnProcess (op_name p) (op_owner_marker p) (op_transport_mark p) full)
      :: rest
  | _ => rs
  end.

Definition install_openvpn_route (uid : Z) (owner : string) (index : nat) (applied : AppliedRoute)
    : M DaemonCore (io_result unit) :=
  let! saved := push_and_save index (Route applied) in
  match saved with
  | Err err =>
    update_entry index pop_resource ;;;
    let! _ := fail_openvpn uid owner in
    fail err
  | Ok _ =>
    let! added := call (AddRoute applied) in
    match added with
    | Ok _ => ret (Ok tt)
    | Err err =>
      (if has_kind AlreadyExists err then update_entry index pop_resource else ret tt) ;;;
      fail_openvpn uid owner
    end
  end.

Definition install_openvpn_rule (uid : Z) (owner : string) (index : nat) (rule : OwnedRuleResource)
    : M DaemonCore (io_result unit) :=
  let! saved := push_and_save index (Rule rule) in
  match saved with
  | Err _ => update_entry index pop_resource ;;; fail_openvpn uid owner
  | Ok _ =>
    let! c := get in
    if negb (ex_policy (dc_wired c)) then panic else
    let! added := call (AddRule rule) in
    match added with
    | Ok _ => ret (Ok tt)
    | Err err =>
      (if has_kind AlreadyExists err then update_entry index pop_resource else ret tt) ;;;
      fail_openvpn uid owner
    end
  end.

Definition install_openvpn_dns (uid : Z) (owner : string) (index : nat)
    (network : OpenVpnNetworkPlan) (full : option WireGuardFullResource) (link_index : Z)
    (name : string) : M DaemonCore (io_result unit) :=
  match np_dns_servers network with
  | [] => ret (Ok tt)
  | _ =>
    let! saved :=
      push_and_save index (Dns (mkDnsResource link_index name (np_dns_servers network)
                                  (np_dns_domains network) (is_some full) false)) in
    match saved with
    | Err _ => update_entry index pop_resource ;;; fail_openvpn uid owner
    | Ok _ =>
      let! c := get in
      if negb (ex_dns (dc_wired c)) then panic else
      let! result := call (DnsApplyLink name (np_dns_servers network) (np_dns_domains network)
                             (is_some full)) in
      match result with
      | Ok DnsApplied =>
        update_entry index (with_resources mark_last_dns) ;;; persist ;;; ret (Ok tt)
      | Ok _ => ret (Ok tt)
      | Err _ => fail_openvpn uid owner
      end
    end
  end.

(** The network of the session replaced by [network]. *)
Definition replace_openvpn_network (uid : Z) (owner : string) (index : nat) (name : string)
    (network : OpenVpnNetworkPlan) (full : option WireGuardFullResource)
    : M DaemonCore (io_result unit) :=
  let! cleared := clear_openvpn_network index in
  if is_err cleared then fail_openvpn uid owner
  else if Nat.eqb (length (np_routes network)) 0 && Nat.eqb (length (np_dns_servers network)) 0
  then ret (Ok tt)
  else
    let! link := call (OvpnLinkIndex name) in
    match link with
    | Ok (Some link_index) =>
      update_entry index (with_resources (set_first_full full)) ;;;
      let! saved := store_save_journal in
      if is_err saved then fail_openvpn uid owner
      else
        let? _ := for_try (np_routes network) tt (λ _ route,
          install_openvpn_route uid owner index (openvpn_route network full link_index route)) in
        let? _ := match full with
                  | Some full => for_try (full_policy_rules full) tt (λ _ rule,
                      install_openvpn_rule uid owner index rule)
                  | None => ret (Ok tt)
                  end in
        install_openvpn_dns uid owner index network full link_index name
    | _ => fail_openvpn uid owner
    end.

Definition reconcile_openvpn_owner (uid : Z) (owner : string) : M DaemonCore (io_result unit) :=
  let! c := get in
  let? index := lift (ok_or (position_of c uid owner) (err_new NotFound "OpenVPN owner is missing")) in
  let! entry := entry_at index in
  let? process := lift (ok_or (find_openvpn (je_resources entry)) process_malformed) in
  let name := op_name process in
  if negb (ex_openvpn (dc_wired c)) then panic else
  let! polled := call (OvpnPoll name) in
  match polled with
  | Err _ => fail_openvpn uid owner
  | Ok events =>
    let? _ := for_try events tt (λ _ event, openvpn_event uid owner event) in
    let! c := get in
    match dc_openvpn_runtime c !! (uid, owner) with
    | None => panic
    | Some runtime =>
      match openvpn_network runtime with
      | None => ret (Ok tt)
      | Some (Err _) => fail_openvpn uid owner
      | Some (Ok network) =>
        let! planned := openvpn_full_plan index (np_full_ipv4 network) (np_full_ipv6 network) in
        match planned with
        | Err _ => fail_openvpn uid owner
        | Ok full =>
          if negb (Nat.eqb (length (np_dns_servers network)) 0) && negb (ex_dns (dc_wired c))
          then fail_openvpn uid owner
          else
            let! entry := entry_at index in
            if network_in_sync network full (je_resources entry) then ret (Ok tt)
            else replace_openvpn_network uid owner index name network full
        end
      end
    end
  end.

(** Owners whose entry is applied. *)
Definition openvpn_owners (c : DaemonCore) : list owner_key :=
  bfilter (λ '(uid, owner),
    is_some_and (λ e, je_state e =b Applied) (position_of c uid owner ≫= λ i, entries c !! i))
    (hash_keys (dc_openvpn_runtime c)).

Definition reconcile_openvpn : M DaemonCore (io_result unit) :=
  let! c := get in
  let! first_error := for_acc (openvpn_owners c) None (λ first_error '(uid, owner),
    let! result := reconcile_openvpn_owner uid owner in
    ret (match result with
         | Err err => Some (unwrap_or first_error err)
         | Ok _ => first_error
         end)) in
  match first_error with
  | None => ret (Ok tt)
  | Some err => fail err
  end.

End openvpn.
