(* ===== verification/CoreReconcile.v ===== *)
(** * Reconciliation with the kernel

    What the daemon does after an uplink change, a resume or a reconcile
    tick: [reapply_dns], [reconcile_network] and what it calls,
    [reconcile_static_routes], [reconcile_conditional] and
    [cond_rule_status] of [crates/daemon/src/core.rs]. *)

From S2P Require Export CoreTunnels.

Section reconcile.
Context `{Env} `{IpNetLib}.

(** ** DNS *)

Definition find_dns (rs : list OwnedResource) : option WireGuardDnsResource :=
  find_map (λ r, match r with Dns d => Some d | _ => None end) rs.

(** The first DNS resource, updated; and whether [applied] changed. *)
Fixpoint set_dns_applied (applied : bool) (rs : list OwnedResource) : list OwnedResource :=
  match rs with
  | [] => []
  | Dns d :: rest => Dns (dns_with_applied applied d) :: rest
  | r :: rest => r :: set_dns_applied applied rest
  end.
Definition dns_changes (applied : bool) (rs : list OwnedResource) : bool :=
  match find_dns rs with
  | Some d => negb (Bool.eqb (wd_applied d) applied)
  | None => false
  end.

(** The warning of the first link resource. *)
Definition link_warnings (applied : bool) (ws : list WireGuardWarning) : list WireGuardWarning :=
  if applied then bfilter (λ w, negb (w =b DnsNotApplied)) ws
  else if vec_contains ws DnsNotApplied then ws else ws ++ [DnsNotApplied].
Fixpoint set_link_warnings (applied : bool) (rs : list OwnedResource) : list OwnedResource :=
  match rs with
  | [] => []
  | WireGuardLink l :: rest =>
    WireGuardLink (mkLinkResource (wl_name l) (wl_index l) (wl_owner_marker l) (wl_full l)
                     (link_warnings applied (wl_warnings l))) :: rest
  | r :: rest => r :: set_link_warnings applied rest
  end.
Definition warnings_change (applied : bool) (rs : list OwnedResource) : bool :=
  match find_wireguard rs with
  | Some l => negb (Nat.eqb (length (link_warnings applied (wl_warnings l)))
                      (length (wl_warnings l)))
  | None => false
  end.

Definition apply_dns (dns : WireGuardDnsResource) : M DaemonCore bool :=
  let! r := call (DnsApplyLink (wd_name dns) (wd_servers dns) (wd_domains dns) (wd_full dns)) in
  ret (match r with Ok DnsApplied => true | _ => false end).

Definition link_is (r : io_result (option Z)) (index : Z) : bool :=
  match ok r with
  | Some (Some i) => Z.eqb i index
  | _ => false
  end.

(** One entry of the loop of [reapply_dns]. *)
Definition reapply_entry (changed_any : bool) (index : nat) : M DaemonCore (io_result bool) :=
  let! c := get in
  let! entry := entry_at index in
  let owner := je_owner entry in
  let reapply dns :=
    let! applied := apply_dns dns in
    update_entry index (with_resources (set_dns_applied applied)) ;;;
    ret (Ok (changed_any || dns_changes applied (je_resources entry))) in
  if negb (je_state entry =b Applied) then ret (Ok changed_any)
  else if starts_with owner "ovpn:" then
    match find_dns (je_resources entry) with
    | None => ret (Ok changed_any)
    | Some dns =>
      let active := is_some_and (λ rt, match ms_state (ov_snapshot rt) with
                                       | Some Connected => true | _ => false end)
                      (dc_openvpn_runtime c !! (je_uid entry, owner)) in
      let! same_link :=
        (if ex_openvpn (dc_wired c)
         then let! r := call (OvpnLinkIndex (wd_name dns)) in
              ret (link_is r (wd_interface_index dns))
         else ret false) in
      if negb active || negb same_link then ret (Ok changed_any) else reapply dns
    end
  else if starts_with owner "xray:" then
    match find_dns (je_resources entry) with
    | None => ret (Ok changed_any)
    | Some dns =>
      let! same_link :=
        (if ex_xray (dc_wired c)
         then let! r := call (XrayLinkIndex (wd_name dns)) in
              ret (link_is r (wd_interface_index dns))
         else ret false) in
      if negb same_link then ret (Ok changed_any) else reapply dns
    end
  else if negb (starts_with owner "wg:") || negb (ex_wg (dc_wired c)) then ret (Ok changed_any)
  else
    match find_wireguard (je_resources entry), find_dns (je_resources entry) with
    | Some link, Some dns =>
      let? link_owned := call (WgLinkOwned (wl_name link) (wl_index link) (wl_owner_marker link)) in
      if negb link_owned then ret (Ok changed_any)
      else
        let! applied := apply_dns dns in
        update_entry index (with_resources (λ rs,
          set_link_warnings applied (set_dns_applied applied rs))) ;;;
        ret (Ok (changed_any || dns_changes applied (je_resources entry)
                 || warnings_change applied (je_resources entry)))
    | _, _ => ret (Ok changed_any)
    end.

Definition reapply_dns : M DaemonCore (io_result unit) :=
  let! c := get in
  if negb (ex_dns (dc_wired c)) then ret (Ok tt)
  else
    let? changed_any := for_try (seq 0 (length (entries c))) false reapply_entry in
    if changed_any : bool then store_save_journal else ret (Ok tt).

(** ** Bypass routes of a tunnel *)

Definition fresh_bypass_route (route : AppliedRoute) : M DaemonCore (option AppliedRoute) :=
  let! hop := uplink_next_hop (ar_destination route) in
  ret (match hop with
       | Some (gateway, oif) =>
         Some (mkAppliedRoute (ar_destination route) oif (ar_metric route) gateway
                 (ar_table route))
       | None => None
       end).

Definition route_table (r : AppliedRoute) : Z := unwrap_or (ar_table r) RT_TABLE_MAIN.

(** The key the kernel allows once: destination, metric, table. *)
Definition same_add_key (a b : AppliedRoute) : bool :=
  (ar_destination a =b ar_destination b) && Z.eqb (ar_metric a) (ar_metric b)
  && Z.eqb (route_table a) (route_table b).

Definition journals_route (p : AppliedRoute → bool) (e : JournalEntry) : bool :=
  existsb (λ r, match r with Route route => p route | _ => false end) (je_resources e).

Definition not_route (target : AppliedRoute) (r : OwnedResource) : bool :=
  match r with Route route => negb (route =b target) | _ => true end.

(** The kernel part of a migration: [Ok removed_old] when the desired route
    is installed, the error and whether the old one went otherwise. *)
Definition install_desired (old desired : AppliedRoute) (old_present : bool)
    : M DaemonCore (io_result (bool * io_result unit)) :=
  let! added := call (AddRoute desired) in
  match added with
  | Ok _ => ret (Ok (false, Ok tt))
  | Err error =>
    if has_kind AlreadyExists error && old_present && same_add_key old desired then
      let! gone := call (RemoveRoute old) in
      if removed gone then
        let! again := call (AddRoute desired) in
        ret (Ok (true, again))
      else match gone with Err e => fail e | Ok _ => ret (Ok (true, Ok tt)) end
    else ret (Ok (false, Err error))
  end.

Definition migrate_owned_bypass (index : nat) (old desired : AppliedRoute)
    : M DaemonCore (io_result bool) :=
  let! c := get in
  let! entry := entry_at index in
  let desired_was_journaled := journals_route (λ r, r =b desired) entry in
  if existsb (λ '(other_index, e),
        negb (Nat.eqb other_index index) && journals_route (λ r, same_add_key r desired) e)
       (enumerate (entries c))
  then fail (err_new AlreadyExists "bypass route belongs to another owner")
  else
    let? tables := call NetTables in
    let old_present := existsb (λ r, sr_managed r && same_route r old) (nt_routes tables) in
    let desired_present :=
      existsb (λ r, desired_was_journaled && sr_managed r && same_route r desired)
        (nt_routes tables) in
    let collides r := (sr_destination r =b ar_destination desired)
                      && Z.eqb (sr_table r) (route_table desired)
                      && Z.eqb (unwrap_or (sr_metric r) 0%Z) (ar_metric desired) in
    let ours r := sr_managed r && (same_route r old
                                   || (desired_was_journaled && same_route r desired)) in
    if existsb (λ r, collides r && negb (ours r)) (nt_routes tables)
    then fail (err_new AlreadyExists "bypass route collides with a foreign route")
    else
      let? _ := (if desired_was_journaled then ret (Ok tt)
                 else update_entry index (push_resource (Route desired)) ;;;
                      store_save_journal) in
      let? '(removed_old, changed) :=
        (if desired_present then ret (Ok (false, false))
         else
           let? '(removed_old, added) := install_desired old desired old_present in
           match added with
           | Ok _ => ret (Ok (removed_old, true))
           | Err error =>
             (if removed_old : bool then let! _ := call (AddRoute old) in ret tt else ret tt) ;;;
             let? _ :=
               (if has_kind AlreadyExists error && negb desired_was_journaled
                then update_entry index (with_resources (bfilter (not_route desired))) ;;;
                     store_save_journal
                else ret (Ok tt)) in
             fail error
           end) in
      let? changed :=
        (if removed_old : bool then ret (Ok changed)
         else
           let! gone := call (RemoveRoute old) in
           match gone with
           | Ok _ => ret (Ok true)
           | Err error => if has_kind NotFound error then ret (Ok changed) else fail error
           end) in
      update_entry index (with_resources (bfilter (not_route old))) ;;;
      let? _ := store_save_journal in
      ret (Ok (changed : bool)).

(** One route of the first loop of [restore_owned_network]. *)
Definition restore_route (index : nat) (tun_indices : list Z) (observed : list AppliedRoute)
    (restored : bool) (resource : OwnedResource) : M DaemonCore (io_result bool) :=
  match resource with
  | Route route =>
    let! entry := entry_at index in
    if negb (vec_contains (je_resources entry) resource) then ret (Ok restored)
    else
      let is_bypass := is_some (ar_gateway route)
        || (negb (Z.eqb (zlen tun_indices) 0)
            && negb (vec_contains tun_indices (ar_interface_index route))) in
      let re_add :=
        if existsb (λ seen, same_kernel_route seen route) observed then ret (Ok restored)
        else
          let! r := call (AddRoute route) in
          match r with
          | Ok _ => ret (Ok true)
          | Err error =>
            if has_kind AlreadyExists error || is_bypass then ret (Ok restored) else fail error
          end in
      if is_bypass then
        let! fresh := fresh_bypass_route route in
        match fresh with
        | None => ret (Ok restored)
        | Some desired =>
          if desired =b route then re_add
          else
            let! migrated := migrate_owned_bypass index route desired in
            ret (Ok (match migrated with Ok changed => restored || changed | Err _ => restored end))
        end
      else re_add
  | _ => ret (Ok restored)
  end.

Definition restore_rule (restored : bool) (resource : OwnedResource)
    : M DaemonCore (io_result bool) :=
  match resource with
  | Rule rule =>
    let! c := get in
    if negb (ex_policy (dc_wired c)) then fail policy_unavailable
    else
      let? present := call (RulePresent rule) in
      if present : bool then ret (Ok restored)
      else
        let? _ := call (AddRule rule) in
        ret (Ok true)
  | _ => ret (Ok restored)
  end.

Definition restore_owned_network (index : nat) (observed : list AppliedRoute)
    : M DaemonCore (io_result bool) :=
  let! entry := entry_at index in
  let resources := je_resources entry in
  let tun_indices := omap (λ r,
    match r with
    | XrayProcess process => if Z.eqb (xp_index process) 0 then None else Some (xp_index process)
    | _ => None
    end) resources in
  let? restored := for_try resources false (restore_route index tun_indices observed) in
  for_try resources restored restore_rule.

(** ** Xray supervision *)

Definition MAX_XRAY_RESPAWNS : Z := 3.

Definition ensure_watchdog (index : nat) : M DaemonCore unit :=
  let! c := get in
  if negb (ex_watchdog_network (dc_wired c)) then ret tt else
  let! entry := entry_at index in
  let key := (je_uid entry, je_owner entry) in
  let! running :=
    (if bool_decide (key ∈ dc_watchdogs c)
     then let! finished := call (WatchdogFinished key) in ret (negb finished)
     else ret false) in
  if running : bool then ret tt else
  match find_xray (je_resources entry),
        find_map (λ r, match r with Address a => Some (net_addr (wa_address a)) | _ => None end)
          (je_resources entry) with
  | Some process, Some address =>
    let spec := mkWatchdogSpec (je_uid entry) (xp_name process) address (xp_transport_mark process)
      (unwrap_or (wd_servers <$> find_dns (je_resources entry)) [])
      (match xp_probe_url process with
       | Some url => Some url
       | None => fp_probe_url <$> xp_failover process
       end) in
    let! spawned := call (WatchdogSpawn key spec) in
    match spawned with
    | Ok _ => modify (set_watchdogs (λ m, {[key]} ∪ m))
    | Err _ => ret tt
    end
  | _, _ => ret tt
  end.

Definition ensure_failover (index : nat) : M DaemonCore unit :=
  let! c := get in
  let! entry := entry_at index in
  match find_xray (je_resources entry) with
  | None => ret tt
  | Some process =>
    let key := (je_uid entry, je_owner entry) in
    if bool_decide (key ∈ dc_failovers c) then ret tt
    else
      let! _ := call (FailoverSpawn key (mkFailoverSpec (xp_failover process) (xp_proxy_exits process)
                       (xp_probe_url process) (xp_pinned_keys process) (xp_transport_mark process))) in
      modify (set_failovers (λ m, {[key]} ∪ m))
  end.

Definition ensure_xray_quic (index : nat) : M DaemonCore (io_result unit) :=
  let! c := get in
  let! entry := entry_at index in
  match find_map (λ r, match r with
                       | XrayProcess p => if xp_reject_quic p then Some p else None
                       | _ => None
                       end) (je_resources entry) with
  | None => ret (Ok tt)
  | Some process =>
    if ex_quic_reject (dc_wired c)
    then call (QuicEnsure (je_uid entry) (xp_name process))
    else fail (err_new NotConnected "QUIC reject executor is unavailable")
  end.

(** A link-scoped resource moved to the new index. *)
Definition rebind_resource (old_index new_index : Z) (r : OwnedResource) : OwnedResource :=
  match r with
  | XrayProcess p =>
    XrayProcess (mkXrayProcess (xp_name p) new_index (xp_owner_marker p) (xp_transport_mark p)
      (xp_full p) (xp_failover p) (xp_reject_quic p) (xp_probe_url p) (xp_pinned_keys p)
      (xp_mtu p) (xp_proxy_exits p))
  | Route route =>
    if Z.eqb (ar_interface_index route) old_index
    then Route (mkAppliedRoute (ar_destination route) new_index (ar_metric route)
                  (ar_gateway route) (ar_table route))
    else r
  | Address a =>
    if Z.eqb (wa_interface_index a) old_index
    then Address (mkAddressResource new_index (wa_address a)) else r
  | Dns d =>
    if Z.eqb (wd_interface_index d) old_index
    then Dns (mkDnsResource new_index (wd_name d) (wd_servers d) (wd_domains d) (wd_full d)
                (wd_applied d))
    else r
  | _ => r
  end.

Definition tun_unavailable : io_error := err_new NotConnected "TUN executor is unavailable".

Definition rebind_xray_link (index : nat) (old_index new_index : Z)
    : M DaemonCore (io_result unit) :=
  update_entry index (with_resources (map (rebind_resource old_index new_index))) ;;;
  let? _ := store_save_journal in
  let! entry := entry_at index in
  let resources := je_resources entry in
  let! c := get in
  let? _ := for_try resources tt (λ _ r,
    match r with
    | Address a =>
      if ex_wg (dc_wired c) then call (WgAddAddress new_index (wa_address a))
      else fail tun_unavailable
    | _ => ret (Ok tt)
    end) in
  if negb (ex_wg (dc_wired c)) then panic else
  let? _ := call (WgSetState new_index true) in
  let? _ := for_try resources tt (λ _ r,
    match r with
    | XrayProcess p =>
      match xp_mtu p with
      | Some mtu => call (WgSetMtu new_index mtu)
      | None => ret (Ok tt)
      end
    | _ => ret (Ok tt)
    end) in
  let? _ := ensure_xray_quic index in
  let? _ := for_try resources tt (λ _ r,
    match r with
    | Route route =>
      if Z.eqb (ar_interface_index route) new_index && is_none (ar_gateway route) then
        let! added := call (AddRoute route) in
        lift (ok_if AlreadyExists added)
      else ret (Ok tt)
    | _ => ret (Ok tt)
    end) in
  match find_dns resources with
  | Some dns =>
    if ex_dns (dc_wired c) then
      let! applied := apply_dns dns in
      update_entry index (with_resources (set_dns_applied applied)) ;;;
      store_save_journal
    else ret (Ok tt)
  | None => ret (Ok tt)
  end.

Definition heal_xray (index : nat) (intentional : bool) : M DaemonCore (io_result bool) :=
  let! c := get in
  let! entry := entry_at index in
  let key := (je_uid entry, je_owner entry) in
  let? process := lift (ok_or (find_xray (je_resources entry))
                          (err_new InvalidData "missing Xray process marker")) in
  let attempts := unwrap_or (dc_xray_restarts c !! key) 0%Z in
  if negb intentional && Z.leb MAX_XRAY_RESPAWNS attempts then ret (Ok false)
  else
    modify (set_failovers (λ m, m ∖ {[key]})) ;;;
    (if intentional then ret tt
     else modify (set_xray_restarts (<[key := (attempts + 1)%Z]>))) ;;;
    if negb (ex_xray (dc_wired c))
    then fail (err_new NotConnected "Xray executor is unavailable")
    else
      let? _ := call (XrayRespawn (je_uid entry) (xp_name process)) in
      let? found := call (XrayLinkIndex (xp_name process)) in
      let? new_index := lift (ok_or found
                                (err_new NotConnected "Xray TUN link is unavailable")) in
      let? _ := rebind_xray_link index (xp_index process) new_index in
      ensure_failover index ;;;
      let! c := get in
      (if bool_decide (key ∈ dc_watchdogs c)
       then let! now := call UnixNow in call (WatchdogRecovered key now)
       else ret tt) ;;;
      ensure_watchdog index ;;;
      ret (Ok true).

(** [find_map] with effects: the first [Some]. *)
Fixpoint find_map_m {A B} (f : A → M DaemonCore (option B)) (l : list A)
    : M DaemonCore (option B) :=
  match l with
  | [] => ret None
  | x :: l' =>
    let! r := f x in
    match r with
    | Some b => ret (Some b)
    | None => find_map_m f l'
    end
  end.

Definition resource_alive (c : DaemonCore) (entry : JournalEntry) (resource : OwnedResource)
    : M DaemonCore (option bool) :=
  match resource with
  | WireGuardLink link =>
    if ex_wg (dc_wired c) then
      let! r := call (WgLinkOwned (wl_name link) (wl_index link) (wl_owner_marker link)) in
      ret (ok r)
    else ret None
  | XrayProcess process =>
    if Z.eqb (xp_index process) 0 then ret None
    else if ex_xray (dc_wired c) then
      let! health := call (XrayHealth (xp_name process)) in
      if unwrap_or (ok health) false then
        let! link := call (XrayLinkIndex (xp_name process)) in
        ret (match link with
             | Ok current => Some (current =b Some (xp_index process))
             | Err _ => None
             end)
      else ret (Some false)
    else ret None
  | OpenVpnProcess process =>
    let connected := is_some_and (λ rt, match ms_state (ov_snapshot rt) with
                                        | Some Connected => true | _ => false end)
                       (dc_openvpn_runtime c !! (je_uid entry, je_owner entry)) in
    if ex_openvpn (dc_wired c) then
      let! link := call (OvpnLinkIndex (op_name process)) in
      ret (match link with
           | Ok (Some link) =>
             let same_link := forallb (λ r,
               match r with
               | Route route => Z.eqb (ar_interface_index route) link
               | _ => true
               end) (je_resources entry) in
             if connected && same_link then Some true else None
           | _ => None
           end)
    else ret None
  | _ => ret None
  end.

Definition tunnel_alive (index : nat) : M DaemonCore (option bool) :=
  let! c := get in
  let! entry := entry_at index in
  find_map_m (resource_alive c entry) (je_resources entry).

(** ** [reconcile_network] *)

Definition find_attach (rs : list OwnedResource) : option AttachSpecParams :=
  find_map (λ r, match r with AttachSpec s => Some s | _ => None end) rs.

Definition transport_gone : io_error := err_other "tunnel transport is gone".

(** Tear an owner down and report it failed. *)
Definition fail_owner (index : nat) (key : owner_key) : M DaemonCore unit :=
  let! _ := teardown_entry index in
  persist ;;;
  modify (set_tunnel_failed (λ m, {[key]} ∪ m)).

(** What one entry yields: [None] for [continue], otherwise the result the
    loop matches on; [Some None] is the owner already failed here. *)
Definition reconcile_tunnel (index : nat) (key : owner_key) (observed : list AppliedRoute)
    : M DaemonCore (option (option (io_result bool))) :=
  let! alive := tunnel_alive index in
  match alive with
  | None => ret None
  | Some false =>
    if starts_with key.2 "xray:" then
      let! c := get in
      let! offline :=
        (if ex_watchdog_network (dc_wired c) then
           ensure_watchdog index ;;;
           let! c := get in
           if bool_decide (key ∈ dc_watchdogs c)
           then let! online := call (WatchdogOnline key) in ret (negb online)
           else ret true
         else ret false) in
      if offline : bool then ret None
      else
        let! healed := heal_xray index false in
        match healed with
        | Ok true => let! r := restore_owned_network index observed in ret (Some (Some r))
        | _ => ret (Some (Some (Err transport_gone)))
        end
    else ret (Some (Some (Err transport_gone)))
  | Some true =>
    ensure_failover index ;;;
    ensure_watchdog index ;;;
    let! c := get in
    let! requested :=
      (if bool_decide (key ∈ dc_watchdogs c) then call (WatchdogTakeRequest key) else ret false) in
    let! healed := (if requested : bool then heal_xray index true else ret (Ok true)) in
    match healed with
    | Ok true =>
      let! r :=
        (let? _ := ensure_xray_quic index in
         restore_owned_network index observed) in
      ret (Some (Some r))
    | _ => fail_owner index key ;;; ret (Some None)
    end
  end.

Definition reconcile_network_step (observed : list AppliedRoute) (changed : list owner_key)
    (index : nat) : M DaemonCore (list owner_key) :=
  let! entry := entry_at index in
  if negb (je_state entry =b Applied) then ret changed
  else
    let key := (je_uid entry, je_owner entry) in
    let! outcome :=
      match find_attach (je_resources entry) with
      | Some spec => let! r := reconcile_attach index spec observed in ret (Some (Some r))
      | None =>
        if je_owner entry =b MANUAL_OWNER
        then let! r := reconcile_manual index in ret (Some (Some (Ok r)))
        else reconcile_tunnel index key observed
      end in
    match outcome with
    | None => ret changed
    | Some None => ret (changed ++ [key])
    | Some (Some (Ok false)) => ret changed
    | Some (Some (Ok true)) => ret (changed ++ [key])
    | Some (Some (Err _)) =>
      (if starts_with key.2 "ovpn:"
       then let! _ := fail_openvpn key.1 key.2 in ret tt
       else fail_owner index key) ;;;
      ret (changed ++ [key])
    end.

Definition reconcile_network (observed : list AppliedRoute) : M DaemonCore (list owner_key) :=
  let! c := get in
  for_acc (rev (seq 0 (length (entries c)))) [] (reconcile_network_step observed).

(** ** Static routes *)

Definition is_route (r : OwnedResource) : bool := match r with Route _ => true | _ => false end.

Definition lost_route (observed : list AppliedRoute) (r : OwnedResource) : bool :=
  match r with
  | Route route => negb (existsb (λ seen, same_kernel_route seen route) observed)
  | _ => false
  end.

Definition static_candidate (replayable : gset owner_key) (entry : JournalEntry) : bool :=
  negb (negb (je_state entry =b Applied)
        || negb (bool_decide ((je_uid entry, je_owner entry) ∈ replayable))
        || starts_with (je_owner entry) "wg:"
        || starts_with (je_owner entry) "ovpn:"
        || starts_with (je_owner entry) "xray:"
        || Z.eqb (zlen (je_resources entry)) 0
        || negb (forallb is_route (je_resources entry))).

Definition reconcile_static_step (observed : list AppliedRoute) (replayable : gset owner_key)
    (acc : nat * bool) (index : nat) : M DaemonCore (nat * bool) :=
  let! entry := entry_at index in
  if negb (static_candidate replayable entry) then ret acc
  else if existsb (lost_route observed) (je_resources entry) then
    let! r := teardown_entry index in
    ret (match r with Ok _ => (S acc.1, acc.2) | Err _ => (acc.1, true) end)
  else ret acc.

Definition reconcile_static_routes (observed : list AppliedRoute) (replayable : gset owner_key)
    : M DaemonCore (io_result nat) :=
  let! c := get in
  let! '(removed_, failed) :=
    for_acc (rev (seq 0 (length (entries c)))) (0, false)
      (reconcile_static_step observed replayable) in
  let? _ := store_save_journal in
  if failed : bool then fail (err_other "static route reconciliation left stale resources")
  else ret (Ok removed_).

(** ** Conditional rules *)

Definition owned_ifindices (c : DaemonCore) : gset Z :=
  list_to_set (bfilter (λ index, negb (Z.eqb index 0))
    (omap (λ r,
       match r with
       | WireGuardLink link => Some (wl_index link)
       | XrayProcess process => Some (xp_index process)
       | Address address => Some (wa_interface_index address)
       | _ => None
       end) (concat (map je_resources (entries c))))).

Definition cond_owner (rule : ConditionalRouteRule) : string := OWNER_PREFIX +:+ cr_id rule.

Definition journaled_routes (entry : JournalEntry) : list AppliedRoute :=
  omap (λ r, match r with Route route => Some route | _ => None end) (je_resources entry).

Definition in_sync (entry : JournalEntry) (routes observed : list AppliedRoute) : bool :=
  (je_state entry =b Applied)
  && Nat.eqb (length (journaled_routes entry)) (length routes)
  && forallb (λ route, vec_contains (journaled_routes entry) route) routes
  && forallb (λ route, existsb (λ seen, same_kernel_route seen route) observed) routes.

Definition rule_match (addrs : list IfaceAddr) (owned_ : gset Z) (rule : ConditionalRouteRule)
    : option (Z * string) :=
  if cr_enabled rule then
    match cr_condition rule with
    | InterfaceAddressIn prefix => match_interface addrs prefix owned_
    end
  else None.

(** One orphan check of the first loop. *)
Definition drop_orphan (live : gset owner_key) (changed : list owner_key) (index : nat)
    : M DaemonCore (list owner_key) :=
  let! entry := entry_at index in
  let key := (je_uid entry, je_owner entry) in
  if negb (starts_with (je_owner entry) OWNER_PREFIX) || bool_decide (key ∈ live)
  then ret changed
  else
    let! _ := remove_owner_inner key.1 key.2 in
    ret (changed ++ [key]).

(** One rule of the second loop: the owners changed and the error. *)
Definition reconcile_rule (observed : list AppliedRoute) (uid : Z) (owner : string)
    (desired : option (list AppliedRoute)) : M DaemonCore (bool * option text) :=
  let! c := get in
  match position_of c uid owner, desired with
  | None, None => ret (false, None)
  | Some _, None =>
    let! r := remove_owner_inner uid owner in
    ret (match r with Err err => (false, Some (emsg err)) | Ok _ => (true, None) end)
  | None, Some routes =>
    let! r := apply_routes_inner uid owner routes None in
    ret (match r with Err err => (false, Some (emsg err)) | Ok _ => (true, None) end)
  | Some index, Some routes =>
    let! entry := entry_at index in
    if in_sync entry routes observed then ret (false, None)
    else
      let! r := (let? _ := remove_owner_inner uid owner in
                 apply_routes_inner uid owner routes None) in
      ret (match r with Err err => (false, Some (emsg err)) | Ok _ => (true, None) end)
  end.

Definition reconcile_conditional (addrs : list IfaceAddr) (observed : list AppliedRoute)
    (rules : list (Z * ConditionalRouteRule)) : M DaemonCore (list owner_key) :=
  let live : gset owner_key := list_to_set (map (λ '(uid, rule), (uid, cond_owner rule)) rules) in
  let! c := get in
  let! changed := for_acc (rev (seq 0 (length (entries c)))) [] (drop_orphan live) in
  let! c := get in
  let owned_ := owned_ifindices c in
  let! changed :=
    for_acc rules changed (λ changed '(uid, rule),
      let owner := cond_owner rule in
      let matched := rule_match addrs owned_ rule in
      let desired := (λ '(ifindex, _), plan_routes rule ifindex) <$> matched in
      let! '(did_change, error) := reconcile_rule observed uid owner desired in
      modify (set_cond_eval (<[(uid, cr_id rule) := mkEval (snd <$> matched) error]>)) ;;;
      ret (if did_change : bool then changed ++ [(uid, owner)] else changed)) in
  modify (λ c,
    let owned_cond : gset owner_key :=
      list_to_set (map (λ e, (je_uid e, je_owner e))
        (bfilter (λ e, starts_with (je_owner e) OWNER_PREFIX) (entries c))) in
    set_cond_eval (filter (λ '((uid, id), _),
      existsb (λ '(rule_uid, rule), Z.eqb rule_uid uid && (cr_id rule =b id)) rules = true
      ∨ (uid, OWNER_PREFIX +:+ id) ∈ owned_cond)) c) ;;;
  ret changed.

Definition cond_rule_status (c : DaemonCore) (uid : Z) (rule : ConditionalRouteRule)
    : ConditionalRuleStatus :=
  let eval := dc_cond_eval c !! (uid, cr_id rule) in
  let matched_interface := eval ≫= ev_matched_interface in
  let entry := position_of c uid ("cond:" +:+ cr_id rule) ≫= λ index, entries c !! index in
  let applied := unwrap_or ((λ e, length (je_resources e)) <$> entry) 0 in
  let '(state, detail) :=
    if negb (cr_enabled rule) then (RuleDisabled, None)
    else match eval ≫= ev_error with
         | Some error => (RuleError, Some error)
         | None =>
           match entry with
           | Some e =>
             if je_state e =b Applied then (RuleActive, None)
             else (RuleError, Some (txt "route apply did not complete"))
           | None => (RuleInactive, None)
           end
         end in
  mkCondStatus state matched_interface applied detail.

End reconcile.
