(* ===== verification/CoreXray.v ===== *)
(** * Xray connections

    [connect_xray], [reload_xray], [disconnect_xray], the service checks and
    the status of [crates/daemon/src/core.rs]. The process runner, the
    supervisors and the resolver are calls; teardown, healing and re-binding
    are with the other tunnels. *)

From S2P Require Export CoreOpenVpn CoreReconcile XrayPlan.

(** ** Results *)

Record ProxyExitStatus : Type := mkExitStatus {
  pe_exit_name : string;
  pe_target : ProxyTarget;
  pe_socks_port : Z;
  pe_http_port : Z;
  pe_pool : option FailoverStatus;
}.

(** The watchdog's report and the service checks the core adds to it. *)
Record XrayStatusResult : Type := mkXrayStatus {
  xs_profile_id : string;
  xs_state : TunnelState;
  xs_interface_name : option string;
  xs_dns_applied : bool;
  xs_ipv4_covered : bool;
  xs_ipv6_covered : bool;
  xs_rx_bytes : option Z;
  xs_tx_bytes : option Z;
  xs_failover : option FailoverStatus;
  xs_watchdog : option (WatchdogStatus * list ServiceCheckResult);
  xs_proxy_exits : list ProxyExitStatus;
}.

(** [xray_stage]: the kind is kept, the text names the stage. *)
Definition xray_stage (stage : string) (e : io_error) : io_error :=
  mkErr (ekind e) (txt ("Xray " +:+ stage +:+ " failed")).

(** [.map_err(|err| xray_stage(stage, err))] *)
Definition staged {S A} (stage : string) (m : M S (io_result A)) : M S (io_result A) :=
  let! r := m in ret (map_err (xray_stage stage) r).

Definition xray_unavailable : io_error := err_new NotConnected "Xray executor is unavailable".
Definition link_unavailable : io_error := err_new NotConnected "Xray TUN link is unavailable".
Definition policy_missing : io_error := err_new NotConnected "policy executor is unavailable".
Definition dns_missing : io_error := err_new NotConnected "DNS executor is unavailable".

Section xray.
Context `{Env} `{IpNetLib} `{UrlLib} `{JsonText}.
(** [IpAddr::to_string] *)
Context (show_ip : IpAddr → string).

(** [self.wg.as_mut().unwrap()] *)
Definition wg_unwrap {A} (m : M DaemonCore A) : M DaemonCore A :=
  let! c := get in if ex_wg (dc_wired c) then m else panic.

(** [resolve_host_addrs(Some(host))] *)
Definition resolve_host_addrs (host : string) : M DaemonCore (list IpAddr) :=
  match parse_ip host with
  | Some ip => ret [ip]
  | None => call (ResolveHost host)
  end.

(** ** Supervisors *)

Definition start_failover (uid : Z) (owner : string) (plan : XrayPlan) : M DaemonCore unit :=
  let key := (uid, owner) in
  modify (set_failovers (λ m, m ∖ {[key]})) ;;;
  let! _ := call (FailoverSpawn key (mkFailoverSpec (xl_failover plan) (xl_proxy_exits plan)
                    (xl_probe_url plan) (xl_pinned_keys plan) (xl_mark plan))) in
  modify (set_failovers (λ m, {[key]} ∪ m)).

(** The probe port of every pinned endpoint. *)
Definition pin_ports (process : XrayProcessResource) : list (string * Z) :=
  map (λ '(index, key), (key, xray_pin_probe_port (xp_transport_mark process) index))
    (enumerate (xp_pinned_keys process)).

Definition set_xray_service_checks (uid : Z) (profile_id : string) (checks : list ServiceCheck)
    : M DaemonCore (io_result (list ServiceCheckResult)) :=
  let owner := "xray:" +:+ profile_id in
  let? _ := lift (map_err invalid_input (validate_owner owner)) in
  let? _ := lift (validate_service_checks checks) in
  let key := (uid, owner) in
  let! c := get in
  let! process := (match position_of c uid owner with
                   | Some index => let! entry := entry_at index in ret (find_xray (je_resources entry))
                   | None => ret None
                   end) in
  modify (set_service_checks (λ m, m ∖ {[key]})) ;;;
  match process with
  | None => ret (Ok [])
  | Some process =>
    if negb (existsb sv_background checks) then ret (Ok [])
    else if negb (ex_watchdog_network (dc_wired c))
    then fail (err_new NotConnected "service diagnostics unavailable")
    else
      let! spawned := call (ServiceChecksSpawn key checks (pin_ports process)) in
      (if spawned : bool then modify (set_service_checks (λ m, {[key]} ∪ m)) else ret tt) ;;;
      ret (Ok [])
  end.

(** ** Status *)

Definition exit_statuses (key : owner_key) (process : XrayProcessResource)
    : M DaemonCore (list ProxyExitStatus) :=
  for_acc (enumerate (xp_proxy_exits process)) [] (λ statuses '(index, e),
    let '(socks_port, http_port) := exit_ports (xp_transport_mark process) index in
    let! pool := call (PoolReport key (pb_name e)) in
    ret (statuses ++ [mkExitStatus (pb_name e) (pb_target e) socks_port http_port pool])).

(** [self.xray.as_mut().is_some_and(|runner| runner.health(name).unwrap_or(false))] *)
Definition xray_healthy (name : string) : M DaemonCore bool :=
  let! c := get in
  if ex_xray (dc_wired c)
  then let! r := call (XrayHealth name) in ret (unwrap_or (ok r) false)
  else ret false.

Definition xray_state (c : DaemonCore) (key : owner_key) (entry : option JournalEntry)
    (process : option XrayProcessResource) : M DaemonCore TunnelState :=
  match entry, process with
  | None, _ => ret (if bool_decide (key ∈ dc_tunnel_failed c) then Failed else Stopped)
  | Some entry, Some process =>
    if je_state entry =b Applied then
      let! healthy := xray_healthy (xp_name process) in
      ret (if healthy : bool then Running else Failed)
    else ret Failed
  | Some _, None => ret Failed
  end.

Definition xray_status (uid : Z) (profile_id : string) : M DaemonCore XrayStatusResult :=
  let owner := "xray:" +:+ profile_id in
  let key := (uid, owner) in
  let! c := get in
  let entry := List.find (λ e, Z.eqb (je_uid e) uid && (je_owner e =b owner)) (entries c) in
  let process := entry ≫= λ e, find_xray (je_resources e) in
  let! state := xray_state c key entry process in
  let! '(rx_bytes, tx_bytes) :=
    (match process with
     | Some process =>
       if (state =b Running) && ex_xray (dc_wired c) then
         let! r := call (XrayQueryStats (xp_name process) (xray_api_port (xp_transport_mark process))) in
         ret (match r with Ok (rx, tx) => (Some rx, Some tx) | Err _ => (None, None) end)
       else ret (None, None)
     | None => ret (None, None)
     end) in
  let supervised := bool_decide (key ∈ dc_failovers c) in
  let! proxy_exits :=
    (match process with
     | Some process =>
       if (state =b Running) && supervised then exit_statuses key process else ret []
     | None => ret []
     end) in
  let! watchdog :=
    (if bool_decide (key ∈ dc_watchdogs c)
     then let! w := call (WatchdogReport key) in ret (Some (w, []))
     else ret None) in
  let! watchdog :=
    (if bool_decide (key ∈ dc_service_checks c)
     then let! checks := call (ServiceChecksReport key) in
          ret (Some (fst (unwrap_or watchdog (status_default, [])), checks))
     else ret watchdog) in
  let! failover := (if supervised then call (FailoverReport key) else ret None) in
  let full := process ≫= xp_full in
  ret {| xs_profile_id := profile_id;
         xs_state := state;
         xs_interface_name := xp_name <$> process;
         xs_dns_applied := is_some_and (λ e,
           existsb (λ r, match r with Dns d => wd_applied d | _ => false end) (je_resources e)) entry;
         xs_ipv4_covered := is_some_and wf_ipv4 full;
         xs_ipv6_covered := is_some_and wf_ipv6 full;
         xs_rx_bytes := rx_bytes;
         xs_tx_bytes := tx_bytes;
         xs_failover := failover;
         xs_watchdog := watchdog;
         xs_proxy_exits := proxy_exits |}.

Definition exits_unavailable : io_error :=
  err_new NotConnected
    "The Xray profile is not running; connect it before launching a proxy command".

Definition xray_proxy_exits (uid : Z) (profile_id : string)
    : M DaemonCore (io_result (list ProxyExitStatus)) :=
  let owner := "xray:" +:+ profile_id in
  let! c := get in
  let? index := lift (ok_or (position_of c uid owner) exits_unavailable) in
  let! entry := entry_at index in
  if negb (je_state entry =b Applied) then fail exits_unavailable else
  let? process := lift (ok_or (find_xray (je_resources entry)) exits_unavailable) in
  let! healthy := xray_healthy (xp_name process) in
  if negb healthy then fail exits_unavailable
  else if bool_decide ((uid, owner) ∈ dc_failovers c)
  then let! statuses := exit_statuses (uid, owner) process in ret (Ok statuses)
  else fail exits_unavailable.

(** ** Bypass routes *)

(** [if !targets.contains(&ip) { targets.push(ip) }] *)
Definition add_targets (targets ips : list IpAddr) : list IpAddr :=
  fold_left (λ targets ip, if vec_contains targets ip then targets else targets ++ [ip]) ips targets.

(** The hosts that must stay reachable outside the tunnel: its own upstream,
    and resolvers whose family the tunnel captures. *)
Definition bypass_targets (plan : XrayPlan) : M DaemonCore (list IpAddr) :=
  let! targets :=
    for_acc (xl_server_hosts plan ++ xl_unpinned_hosts plan) [] (λ targets host,
      let! ips := resolve_host_addrs host in ret (add_targets targets ips)) in
  let targets := add_targets targets (dns_server_bypass plan) in
  for_acc (xl_dns_bypass plan) targets (λ targets host,
    let! ips := resolve_host_addrs host in
    ret (add_targets targets (dns_bypass_addrs ips (xl_full_ipv4 plan) (xl_full_ipv6 plan)))).

Definition add_bypass_route (index : nat) (ip : IpAddr) : M DaemonCore (io_result unit) :=
  let! hop := uplink_host_route ip 5 in
  match hop with
  | None => ret (Ok tt)
  | Some applied =>
    let? _ := staged "journal_bypass" (push_and_save index (Route applied)) in
    let! added := call (AddRoute applied) in
    match added with
    | Ok _ => ret (Ok tt)
    | Err err =>
      if has_kind AlreadyExists err then update_entry index pop_resource ;;; ret (Ok tt)
      else fail (xray_stage "bypass_route_add" err)
    end
  end.

Definition add_xray_bypass_routes (index : nat) (plan : XrayPlan) : M DaemonCore (io_result unit) :=
  let! targets := bypass_targets plan in
  for_try targets tt (λ _ ip, add_bypass_route index ip).

(** ** Connecting *)

(** [if let XrayProcess(process) = &mut resources[0] { process.index = link_index }]:
    a panic without resources. *)
Definition set_first_index (link_index : Z) (rs : list OwnedResource) : list OwnedResource :=
  match rs with
  | XrayProcess p :: rest =>
    XrayProcess (mkXrayProcess (xp_name p) link_index (xp_owner_marker p) (xp_transport_mark p)
      (xp_full p) (xp_failover p) (xp_reject_quic p) (xp_probe_url p) (xp_pinned_keys p)
      (xp_mtu p) (xp_proxy_exits p)) :: rest
  | _ => rs
  end.

Definition set_process_index (index : nat) (link_index : Z) : M DaemonCore unit :=
  let! entry := entry_at index in
  match je_resources entry with
  | [] => panic
  | _ => update_entry index (with_resources (set_first_index link_index))
  end.

(** A failed mutation: what was not added is not journaled. *)
Definition mutated (index : nat) (stage : string) (r : io_result unit)
    : M DaemonCore (io_result unit) :=
  match r with
  | Ok _ => ret (Ok tt)
  | Err err =>
    (if has_kind AlreadyExists err then update_entry index pop_resource else ret tt) ;;;
    fail (xray_stage stage err)
  end.

Definition xray_route (plan : XrayPlan) (full : option WireGuardFullResource) (link_index : Z)
    (route : PolicyRoute) : AppliedRoute :=
  let applied := on_link (pr_destination route) link_index (pr_metric route) in
  if is_full_route (xl_full_ipv4 plan) (xl_full_ipv6 plan) (pr_destination route)
  then mkAppliedRoute (ar_destination applied) (ar_interface_index applied) (ar_metric applied)
         (ar_gateway applied) (wf_table <$> full)
  else applied.

Definition start_stage (err : io_error) : string :=
  if has_kind TimedOut err || has_kind NotConnected err then "tun_wait" else "spawn".

Definition start_xray (index : nat) (uid : Z) (plan : XrayPlan) : M DaemonCore (io_result Z) :=
  let! started := call (XrayStart uid (xl_name plan) (xl_config plan) (xl_geo_assets plan)) in
  match started with
  | Err err => fail (xray_stage (start_stage err) err)
  | Ok _ =>
    let? current := staged "tun_lookup" (call (XrayLinkIndex (xl_name plan))) in
    let? link_index := lift (ok_or current link_unavailable) in
    set_process_index index link_index ;;;
    let? _ := staged "journal_link" store_save_journal in
    ret (Ok link_index)
  end.

Definition configure_link (index : nat) (plan : XrayPlan) (link_index : Z)
    : M DaemonCore (io_result unit) :=
  let? _ := staged "journal_address"
              (push_and_save index (Address (mkAddressResource link_index (xl_address plan)))) in
  wg_unwrap (
    let! added := call (WgAddAddress link_index (xl_address plan)) in
    let? _ := mutated index "address_add" added in
    let? _ := staged "mtu_set" (call (WgSetMtu link_index (xl_mtu plan))) in
    let? _ := staged "link_up" (call (WgSetState link_index true)) in
    staged "quic_reject" (ensure_xray_quic index)).

Definition install_xray_route (index : nat) (applied : AppliedRoute) : M DaemonCore (io_result unit) :=
  let? _ := staged "journal_route" (push_and_save index (Route applied)) in
  let! added := call (AddRoute applied) in
  mutated index "route_add" added.

Definition install_xray_rule (index : nat) (rule : OwnedRuleResource) : M DaemonCore (io_result unit) :=
  let? _ := staged "journal_rule" (push_and_save index (Rule rule)) in
  let! c := get in
  if negb (ex_policy (dc_wired c)) then panic else
  let! added := call (AddRule rule) in
  mutated index "rule_add" added.

Definition install_xray_dns (index : nat) (plan : XrayPlan) (full : option WireGuardFullResource)
    (link_index : Z) : M DaemonCore (io_result unit) :=
  match xl_dns_servers plan with
  | [] => ret (Ok tt)
  | _ =>
    let? _ := staged "journal_dns" (push_and_save index
                (Dns (mkDnsResource link_index (xl_name plan) (xl_dns_servers plan)
                        (xl_dns_domains plan) (is_some full) false))) in
    let! c := get in
    if negb (ex_dns (dc_wired c)) then panic else
    let! applied := call (DnsApplyLink (xl_name plan) (xl_dns_servers plan) (xl_dns_domains plan)
                            (is_some full)) in
    match applied with
    | Ok DnsApplied =>
      update_entry index (with_resources mark_last_dns) ;;;
      staged "journal_dns_applied" store_save_journal
    | Ok _ => ret (Ok tt)
    | Err _ => fail (err_other "Xray dns_apply failed")
    end
  end.

Definition apply_xray_plan (index : nat) (uid : Z) (plan : XrayPlan)
    (full : option WireGuardFullResource) : M DaemonCore (io_result unit) :=
  let? link_index := start_xray index uid plan in
  let? _ := configure_link index plan link_index in
  let? _ := add_xray_bypass_routes index plan in
  let? _ := for_try (xl_routes plan) tt (λ _ route,
    install_xray_route index (xray_route plan full link_index route)) in
  let? _ := for_try (match full with Some full => full_policy_rules full | None => [] end) tt
    (λ _ rule, install_xray_rule index rule) in
  install_xray_dns index plan full link_index.

(** Some tunnel already owns the policy routing. *)
Definition full_owned (c : DaemonCore) : bool :=
  any_resource c (λ r, match r with
                       | WireGuardLink link => is_some (wl_full link)
                       | OpenVpnProcess process => is_some (op_full process)
                       | XrayProcess process => is_some (xp_full process)
                       | _ => false
                       end).

Definition xray_full (c : DaemonCore) (plan : XrayPlan) (mark : Z)
    : io_result (option WireGuardFullResource) :=
  if negb (xl_full_ipv4 plan || xl_full_ipv6 plan) then Ok None
  else if full_owned c then Err (err_new AlreadyExists "another full tunnel owns policy routing")
  else if negb (ex_policy (dc_wired c)) then Err policy_missing
  else
    let slot := (mark - 51820)%Z in
    Ok (Some (mkFull mark mark (10000 + slot * 2) (10001 + slot * 2)
                (xl_full_ipv4 plan) (xl_full_ipv6 plan))).

Definition xray_marker (uid : Z) (owner : string) : string :=
  "network-orchestrator:" +:+ show_Z uid +:+ ":" +:+ owner.

Definition xray_process_of (uid : Z) (owner : string) (plan : XrayPlan) (mark : Z)
    (full : option WireGuardFullResource) : XrayProcessResource :=
  mkXrayProcess (xl_name plan) 0 (xray_marker uid owner) mark full (xl_failover plan)
    (xl_reject_quic plan) (xl_probe_url plan) (xl_pinned_keys plan) (Some (xl_mtu plan))
    (xl_proxy_exits plan).

(** [let _ = self.teardown_xray_entry(index); self.persist(); return Err(err)] *)
Definition abandon {A} (index : nat) (err : io_error) : M DaemonCore (io_result A) :=
  let! _ := teardown_xray_entry index in
  persist ;;; fail err.

Definition connect_xray (uid : Z) (params : XrayConnectParams)
    : M DaemonCore (io_result XrayStatusResult) :=
  let owner := "xray:" +:+ xq_profile_id params in
  let? _ := lift (map_err invalid_input (validate_owner owner)) in
  let! c := get in
  if is_some (position_of c uid owner)
  then fail (err_new AlreadyExists "Xray profile is already connected")
  else
    let? mark := allocate_openvpn_mark in
    let? plan := prepare_xray uid params mark in
    let? plan := pin_server_addresses show_ip resolve_host_addrs plan in
    let! c := get in
    if negb (ex_xray (dc_wired c)) then fail xray_unavailable else
    let? _ := staged "binary_verify" (call XrayVerifyBinary) in
    let? occupied := staged "link_lookup" (call (XrayLinkIndex (xl_name plan))) in
    if is_some occupied then fail (err_new AlreadyExists "Xray link name is occupied") else
    let? full := lift (xray_full c plan mark) in
    if negb (Nat.eqb (length (xl_dns_servers plan)) 0) && negb (ex_dns (dc_wired c))
    then fail dns_missing
    else
      push_entry (mkEntry uid owner Applying
        [XrayProcess (xray_process_of uid owner plan mark full)]) ;;;
      let! saved := store_save_journal in
      match saved with
      | Err err => pop_entry ;;; fail (xray_stage "journal_prepare" err)
      | Ok _ =>
        let! c := get in
        let index := length (entries c) - 1 in
        let! result := apply_xray_plan index uid plan full in
        match result with
        | Err err => abandon index err
        | Ok _ =>
          update_entry index (with_state Applied) ;;;
          let! saved := store_save_journal in
          match saved with
          | Err err => abandon index (xray_stage "journal_commit" err)
          | Ok _ =>
            modify (set_xray_restarts (delete (uid, owner))) ;;;
            modify (set_tunnel_failed (λ m, m ∖ {[(uid, owner)]})) ;;;
            start_failover uid owner plan ;;;
            ensure_watchdog index ;;;
            let! _ := set_xray_service_checks uid (xl_profile_id plan) (xl_service_checks plan) in
            let! status := xray_status uid (xl_profile_id plan) in
            ret (Ok status)
          end
        end
      end.

Definition disconnect_xray (uid : Z) (profile_id : string) : M DaemonCore (io_result unit) :=
  let owner := "xray:" +:+ profile_id in
  let key := (uid, owner) in
  let! c := get in
  match position_of c uid owner with
  | None =>
    if bool_decide (key ∈ dc_tunnel_failed c) then
      modify (set_tunnel_failed (λ m, m ∖ {[key]})) ;;; ret (Ok tt)
    else fail (err_new NotFound "Xray profile is not connected")
  | Some index =>
    let! result := teardown_entry index in
    modify (set_failovers (λ m, m ∖ {[key]})) ;;;
    modify (set_xray_restarts (delete key)) ;;;
    let? _ := store_save_journal in
    ret result
  end.

(** ** Reloading *)

(** The order of [(IpNet, u32, Option<u32>)] and of [IpNet]: lexicographic,
    IPv4 before IPv6, [None] before [Some]. *)
Fixpoint lex_le (a b : list Z) : bool :=
  match a, b with
  | [], _ => true
  | _ :: _, [] => false
  | x :: a, y :: b => Z.ltb x y || (Z.eqb x y && lex_le a b)
  end.

Definition net_key (n : IpNet) : list Z :=
  [if net_is_ipv4 n then 0 else 1; addr_bits (net_addr n); prefix_len n]%Z.

Abbreviation tun_route := (IpNet * Z * option Z)%type.

Definition tun_route_key (r : tun_route) : list Z :=
  let '(destination, metric, table) := r in
  net_key destination ++ metric :: match table with None => [0] | Some t => [1; t] end%Z.

Definition sort_routes : list tun_route → list tun_route :=
  sort_by (λ a b, lex_le (tun_route_key a) (tun_route_key b)).
Definition sort_nets : list IpNet → list IpNet := sort_by (λ a b, lex_le (net_key a) (net_key b)).

Definition incompatible : io_error :=
  err_new InvalidInput "Xray network parameters changed; disconnect and reconnect to apply".

(** The routes the entry has on the tunnel, and what the plan asks for. *)
Definition journaled_tun_routes (process : XrayProcessResource) (rs : list OwnedResource)
    : list tun_route :=
  omap (λ r, match r with
             | Route route => if Z.eqb (ar_interface_index route) (xp_index process)
                              then Some (ar_destination route, ar_metric route, ar_table route)
                              else None
             | _ => None
             end) rs.

Definition desired_tun_routes (plan : XrayPlan) (process : XrayProcessResource) : list tun_route :=
  map (λ route, (pr_destination route, pr_metric route,
    match xp_full process with
    | Some full => if is_full_route (wf_ipv4 full) (wf_ipv6 full) (pr_destination route)
                   then Some (wf_table full) else None
    | None => None
    end)) (xl_routes plan).

(** Destinations journaled on another interface. *)
Definition bypassed_nets (process : XrayProcessResource) (rs : list OwnedResource) : list IpNet :=
  omap (λ r, match r with
             | Route route => if negb (Z.eqb (ar_interface_index route) (xp_index process))
                              then Some (ar_destination route) else None
             | _ => None
             end) rs.

Definition dns_matches (plan : XrayPlan) (rs : list OwnedResource) : bool :=
  match find_dns rs, xl_dns_servers plan with
  | Some dns, _ :: _ => (wd_servers dns =b xl_dns_servers plan) && (wd_domains dns =b xl_dns_domains plan)
  | None, [] => true
  | _, _ => false
  end.

Definition journaled_addresses (rs : list OwnedResource) : list IpNet :=
  omap (λ r, match r with Address a => Some (wa_address a) | _ => None end) rs.

(** Every check but the last, which resolves names. *)
Definition plan_matches (plan : XrayPlan) (process : XrayProcessResource) (rs : list OwnedResource)
    : bool :=
  (xl_name plan =b xp_name process)
  && Bool.eqb (xl_full_ipv4 plan) (is_some_and wf_ipv4 (xp_full process))
  && Bool.eqb (xl_full_ipv6 plan) (is_some_and wf_ipv6 (xp_full process))
  && Bool.eqb (xl_reject_quic plan) (xp_reject_quic process)
  && is_none_or (λ mtu, Z.eqb mtu (xl_mtu plan)) (xp_mtu process)
  && (xl_proxy_exits plan =b xp_proxy_exits process)
  && (journaled_addresses rs =b [xl_address plan])
  && dns_matches plan rs
  && (sort_routes (journaled_tun_routes process rs) =b sort_routes (desired_tun_routes plan process)).

Definition ensure_xray_reload_compatible (index : nat) (plan : XrayPlan)
    (process : XrayProcessResource) : M DaemonCore (io_result unit) :=
  let! entry := entry_at index in
  let rs := je_resources entry in
  if negb (plan_matches plan process rs) then fail incompatible else
  let! targets := bypass_targets plan in
  if sort_nets (bypassed_nets process rs) =b sort_nets (map net_of_ip targets)
  then ret (Ok tt) else fail incompatible.

(** The probe policy of the plan, in the journal's process. *)
Definition with_policy_of (plan : XrayPlan) (r : OwnedResource) : OwnedResource :=
  match r with
  | XrayProcess p =>
    XrayProcess (mkXrayProcess (xp_name p) (xp_index p) (xp_owner_marker p) (xp_transport_mark p)
      (xp_full p) (xl_failover plan) (xp_reject_quic p) (xl_probe_url plan) (xl_pinned_keys plan)
      (Some (xl_mtu plan)) (xp_proxy_exits p))
  | _ => r
  end.

Definition drop_supervisors (key : owner_key) : M DaemonCore unit :=
  modify (set_failovers (λ m, m ∖ {[key]})) ;;;
  modify (set_watchdogs (λ m, m ∖ {[key]})) ;;;
  modify (set_service_checks (λ m, m ∖ {[key]})).

(** The child replaced and its link bound again. *)
Definition swap_xray (index : nat) (uid : Z) (plan : XrayPlan) (process : XrayProcessResource)
    : M DaemonCore (io_result unit) :=
  let! c := get in
  if negb (ex_xray (dc_wired c)) then fail xray_unavailable else
  let? _ := staged "reload"
              (call (XrayReload uid (xl_name plan) (xl_config plan) (xl_geo_assets plan))) in
  let? current := staged "tun_lookup" (call (XrayLinkIndex (xl_name plan))) in
  let? new_index := lift (ok_or current link_unavailable) in
  staged "rebind" (rebind_xray_link index (xp_index process) new_index).

(** The part after the child runs. *)
Definition finish_reload (index : nat) (uid : Z) (owner : string) (plan : XrayPlan)
    : M DaemonCore (io_result XrayStatusResult) :=
  update_entry index (with_resources (map (with_policy_of plan))) ;;;
  let? _ := staged "journal_failover" store_save_journal in
  modify (set_xray_restarts (delete (uid, owner))) ;;;
  start_failover uid owner plan ;;;
  ensure_watchdog index ;;;
  let! _ := set_xray_service_checks uid (xl_profile_id plan) (xl_service_checks plan) in
  modify (set_tunnel_failed (λ m, m ∖ {[(uid, owner)]})) ;;;
  let! status := xray_status uid (xl_profile_id plan) in
  ret (Ok status).

Definition reload_xray (uid : Z) (params : XrayConnectParams)
    : M DaemonCore (io_result XrayStatusResult) :=
  let owner := "xray:" +:+ xq_profile_id params in
  let? _ := lift (map_err invalid_input (validate_owner owner)) in
  let! c := get in
  let? index := lift (ok_or (position_of c uid owner)
                        (err_new NotFound "Xray profile is not connected")) in
  let! entry := entry_at index in
  if negb (je_state entry =b Applied)
  then fail (err_new InvalidInput "Xray tunnel is not fully applied")
  else
    let? process := lift (ok_or (find_xray (je_resources entry))
                            (err_new InvalidData "missing Xray process marker")) in
    let? plan := prepare_xray uid params (xp_transport_mark process) in
    let? plan := pin_server_addresses show_ip resolve_host_addrs plan in
    let? _ := ensure_xray_reload_compatible index plan process in
    drop_supervisors (uid, owner) ;;;
    let? _ := swap_xray index uid plan process in
    finish_reload index uid owner plan.

End xray.
