(* ===== verification/CoreIntents.v ===== *)
(** * Routing intents and the explanation of the journal

    [net_intent_set], [net_intent_del], [net_intent_list],
    [replay_intents] and [net_explain] of [crates/daemon/src/core.rs]. *)

From S2P Require Export CoreReconcile.

Record ExplainEntry : Type := mkExplain {
  ee_owner : string;
  ee_state : OwnedState;
  ee_kind : string;
  ee_subject : text;
  ee_status : ExplainStatus;
  ee_detail : text;
}.

Record NetExplainResult : Type := mkExplainResult {
  er_entries : list ExplainEntry;
  er_available : bool;
}.

Section intents.
Context `{Env} `{IpNetLib} `{JsonCodec IntentDocument}.

(** ** Compiling an intent *)

Fixpoint intent_routes (destinations : list string) (metric : Z) : io_result (list PolicyRoute) :=
  match destinations with
  | [] => Ok []
  | raw :: rest =>
    match parse_net (trim raw) with
    | None => Err (invalid_input [TStr "destination "; TDbg raw; TStr " is not a CIDR prefix"])
    | Some parsed =>
      routes <-? intent_routes rest metric;
      Ok (mkPolicyRoute (trunc parsed) metric None :: routes)
    end
  end.

Definition intent_spec (params : NetIntentSetParams) : io_result AttachSpecParams :=
  match is_destinations params with
  | [] => Err (invalid_input (txt "an intent needs at least one destination"))
  | _ =>
    let metric := unwrap_or (is_metric params) INTENT_DEFAULT_METRIC in
    routes <-? intent_routes (is_destinations params) metric;
    spec <-?
      (let kind := ip_kind (is_path params) in
       if kind =b "interface"%string
       then Ok (mkAttachSpec (unwrap_or (ip_interface (is_path params)) "") routes [] false)
       else if kind =b "direct"%string
       then Ok (mkAttachSpec "" routes [] true)
       else Err (invalid_input [TStr "unknown intent path kind "; TDbg kind]));
    _ <-? map_err invalid_input (validate_attach spec);
    Ok spec
  end.

Definition bad_intent_char (c : Z) : bool :=
  is_control c || is_whitespace c || Z.eqb c (ch ":").

Definition intent_owner (id : string) : io_result string :=
  if str_is_empty id || Nat.ltb 96 (str_len id) || existsb bad_intent_char (chars id)
  then Err (invalid_input (txt "intent id must be 1-96 characters without ':' or whitespace"))
  else
    let owner := INTENT_OWNER_PREFIX +:+ id in
    _ <-? map_err invalid_input (validate_owner owner);
    Ok owner.

(** ** Setting and deleting *)

Definition store_unavailable : io_error := err_new NotConnected "intent store is unavailable".

(** [if let Some(index) = self.position(..) { self.teardown_entry(index)?; self.persist() }] *)
Definition teardown_existing (uid : Z) (owner : string) : M DaemonCore (io_result unit) :=
  let! c := get in
  match position_of c uid owner with
  | Some index =>
    let? _ := teardown_entry index in
    persist ;;;
    ret (Ok tt)
  | None => ret (Ok tt)
  end.

Definition net_intent_set (uid : Z) (params : NetIntentSetParams)
    : M DaemonCore (io_result string) :=
  let? owner := lift (intent_owner (is_id params)) in
  let? spec := lift (intent_spec params) in
  let enabled := unwrap_or (is_enabled params) true in
  let! c := get in
  match ex_intents (dc_wired c) with
  | None => fail store_unavailable
  | Some store =>
    let! desired := attach_desired spec in
    let? _ := teardown_existing uid owner in
    let? _ := (if enabled then
                 let? _ := apply_routes_inner uid owner desired (Some spec) in ret (Ok tt)
               else ret (Ok tt)) in
    let! stored := Intents.upsert store uid params in
    match stored with
    | Err err =>
      (let! c := get in
       match position_of c uid owner with
       | Some index => let! _ := teardown_entry index in persist
       | None => ret tt
       end) ;;;
      fail err
    | Ok _ => ret (Ok (is_id params))
    end
  end.

Definition net_intent_del (uid : Z) (id : string) : M DaemonCore (io_result unit) :=
  let? owner := lift (intent_owner id) in
  let! c := get in
  match ex_intents (dc_wired c) with
  | None => fail store_unavailable
  | Some store =>
    let? _ := Intents.remove store uid id in
    let! c := get in
    if is_some (position_of c uid owner)
    then let? _ := remove_owner_inner uid owner in ret (Ok tt)
    else ret (Ok tt)
  end.

(** ** Listing *)

Definition foreign_at (destination : IpNet) (table : Z) (seen : SystemRoute) : bool :=
  negb (sr_managed seen) && (sr_destination seen =b destination)
  && Z.eqb (sr_table seen) table && (sr_kind seen =b "unicast"%string).

Definition intent_view_status (spec : AttachSpecParams) (desired : list AppliedRoute)
    (installed : nat) (tables : option NetTablesResult) : ExplainStatus * text :=
  let total := Z.of_nat (length desired) in
  match desired with
  | [] =>
    (Deferred,
     if as_uplink spec then txt "no physical uplink is available"
     else [TStr "interface "; TStr (as_interface_name spec); TStr " is absent; armed until it appears"])
  | _ =>
    if Nat.eqb installed (length desired)
    then (Effective, [TNum total; TStr " route(s) enforced"])
    else if existsb (λ route,
              is_some_and (λ t, existsb (foreign_at (ar_destination route) RT_TABLE_MAIN)
                                  (nt_routes t)) tables) desired
    then (Conflicted, txt "a foreign route occupies the destination")
    else (Missing, [TNum (Z.of_nat installed); TStr "/"; TNum total;
                    TStr " installed; the next reconcile retries"])
  end.

Definition intent_view (params : NetIntentSetParams) (spec : AttachSpecParams)
    (desired : list AppliedRoute) (tables : option NetTablesResult) : NetIntentView :=
  let enabled := unwrap_or (is_enabled params) true in
  let installed := count_if (λ route,
    is_some_and (λ t, existsb (λ seen, same_route seen route) (nt_routes t)) tables) desired in
  let '(status, detail) :=
    if enabled then intent_view_status spec desired installed tables
    else (Disabled, txt "disabled — routes are withdrawn") in
  {| iv_id := is_id params;
     iv_destinations := map (λ r, net_to_string (pr_destination r)) (as_routes spec);
     iv_path := if as_uplink spec then mkIntentPath "direct" None None
                else mkIntentPath "interface" (Some (as_interface_name spec)) None;
     iv_metric := unwrap_or (pr_metric <$> head (as_routes spec)) INTENT_DEFAULT_METRIC;
     iv_enabled := enabled;
     iv_status := status;
     iv_detail := detail;
     iv_installed := installed;
     iv_wanted := length desired |}.

Definition net_intent_list (uid : Z) : M DaemonCore (io_result (list NetIntentView)) :=
  let! c := get in
  match ex_intents (dc_wired c) with
  | None => ret (Ok [])
  | Some store =>
    let? document := Intents.load_uid store uid in
    let! tables := call NetTables in
    let! views := for_acc (id_intents document) [] (λ views params,
      match intent_spec params with
      | Err _ => ret views
      | Ok spec =>
        let! desired := attach_desired spec in
        ret (views ++ [intent_view params spec desired (ok tables)])
      end) in
    ret (Ok views)
  end.

(** ** Replay at start *)

Definition replay_intent (uid : Z) (acc : nat * nat) (params : NetIntentSetParams)
    : M DaemonCore (nat * nat) :=
  let '(armed, failed) := acc in
  if is_enabled params =b Some false then ret (armed, failed)
  else
    match intent_spec params, intent_owner (is_id params) with
    | Ok spec, Ok owner =>
      let! desired := attach_desired spec in
      let! r := apply_routes_inner uid owner desired (Some spec) in
      ret (match r with Ok _ => (S armed, failed) | Err _ => (armed, S failed) end)
    | _, _ => ret (armed, S failed)
    end.

Definition replay_intents : M DaemonCore (nat * nat) :=
  let! c := get in
  match ex_intents (dc_wired c) with
  | None => ret (0, 0)
  | Some store =>
    let! documents := Intents.load_all store in
    match documents with
    | Err _ => ret (0, 0)
    | Ok documents =>
      for_acc documents (0, 0) (λ acc '(uid, document),
        for_acc (id_intents document) acc (replay_intent uid))
    end
  end.

(** ** Explaining *)

Definition route_status (tables : NetTablesResult) (present : SystemRoute → bool)
    (destination : IpNet) (table : Z) : ExplainStatus * text :=
  if existsb present (nt_routes tables) then (Effective, txt "installed")
  else if existsb (foreign_at destination table) (nt_routes tables)
  then (Conflicted, txt "a foreign route occupies the destination")
  else (Missing, txt "absent in the kernel; the next reconcile retries").

Definition rule_status (present : bool) : ExplainStatus * text :=
  if present then (Effective, txt "installed")
  else (Missing, txt "absent in the kernel; the next reconcile retries").

Definition device_text (names : gmap Z string) (index : option Z) : text :=
  match index with
  | Some index =>
    match names !! index with
    | Some name => txt name
    | None => [TStr "#"; TNum index]
    end
  | None => txt "?"
  end.

Definition route_subject (destination : IpNet) (device : text) (table : Z) : text :=
  [TNet destination; TStr " dev "] ++ device ++ [TStr " table "] ++ table_name table.

(** [servers.join(" ")] *)
Fixpoint servers_text (servers : list IpAddr) : text :=
  match servers with
  | [] => []
  | [s] => [TIp s]
  | s :: rest => TIp s :: TStr " " :: servers_text rest
  end.

Definition explain_resource (owner : string) (state : OwnedState) (resource : OwnedResource)
    (tables : NetTablesResult) (names : gmap Z string) : M DaemonCore ExplainEntry :=
  let make kind subject (sd : ExplainStatus * text) :=
    mkExplain owner state kind subject sd.1 sd.2 in
  match resource with
  | Route route =>
    let table := unwrap_or (ar_table route) RT_TABLE_MAIN in
    ret (make "route"
           (route_subject (ar_destination route)
              (device_text names (Some (ar_interface_index route))) table)
           (route_status tables (λ seen, same_route seen route) (ar_destination route) table))
  | NetRoute route =>
    ret (make "route"
           (route_subject (sr_destination route) (device_text names (sr_interface_index route))
              (sr_table route))
           (route_status tables (λ seen, same_system_route seen route) (sr_destination route)
              (sr_table route)))
  | SuppressedRoute route =>
    ret (make "suppressed-route"
           (route_subject (sr_destination route)
              (txt (unwrap_or (sr_interface_name route) "?"%string)) (sr_table route))
           (if existsb (λ seen, same_system_route seen route) (nt_routes tables)
            then (Missing, txt "the foreign route reappeared; reconcile will re-suppress it")
            else (Active, txt "suppressed; restored when the override is removed")))
  | Rule rule =>
    ret (make "rule"
           ([TStr "pref "; TNum (or_priority rule); TStr " lookup "] ++ table_name (or_table rule))
           (rule_status (existsb (λ seen, same_rule seen rule) (nt_rules tables))))
  | NetRule rule =>
    ret (make "rule"
           ([TStr "pref "; TNum (ru_priority rule); TStr " "; TStr (ru_action rule); TStr " "]
              ++ table_name (ru_table rule))
           (rule_status (existsb (λ seen, seen =b rule) (nt_rules tables))))
  | SuppressedRule rule =>
    ret (make "suppressed-rule"
           ([TStr "pref "; TNum (ru_priority rule); TStr " "; TStr (ru_action rule); TStr " "]
              ++ table_name (ru_table rule))
           (if existsb (λ seen, seen =b rule) (nt_rules tables)
            then (Missing, txt "the foreign rule reappeared; reconcile will re-suppress it")
            else (Active, txt "suppressed; restored when the override is removed")))
  | AttachSpec spec =>
    if as_uplink spec then
      let! gateways := call DefaultGateways in
      ret (if is_some_and (λ gws, negb (Z.eqb (zlen gws) 0)) (ok gateways)
           then make "attach" (txt "uplink") (Effective, txt "pinned to the physical uplink")
           else make "attach" (txt "uplink") (Deferred, txt "no physical uplink is available"))
    else
      let! found := call (LinkIndex (as_interface_name spec)) in
      ret (make "attach" [TStr "attach "; TStr (as_interface_name spec)]
             (match found with
              | Ok (Some index) => (Effective, [TStr "bound to ifindex "; TNum index])
              | _ => (Deferred, [TStr "interface "; TStr (as_interface_name spec);
                                 TStr " is absent"])
              end))
  | WireGuardLink link => ret (make "link" (txt (wl_name link)) (Effective, txt "managed interface"))
  | OpenVpnProcess p => ret (make "process" (txt (op_name p)) (Effective, txt "managed OpenVPN"))
  | XrayProcess p => ret (make "process" (txt (xp_name p)) (Effective, txt "managed Xray"))
  | Address a =>
    ret (make "address" [TNet (wa_address a); TStr " dev #"; TNum (wa_interface_index a)]
           (Effective, txt "interface address"))
  | Dns d =>
    ret (make "dns" (servers_text (wd_servers d) ++ [TStr " on "; TStr (wd_name d)])
           (Effective, txt "link DNS"))
  end.

(** Interface index to name, a later route winning over an earlier one. *)
Definition route_names (tables : NetTablesResult) : gmap Z string :=
  fold_left (λ m route,
    match sr_interface_index route, sr_interface_name route with
    | Some index, Some name => <[index := name]> m
    | _, _ => m
    end) (nt_routes tables) ∅.

Definition net_explain (uid : Z) : M DaemonCore (io_result NetExplainResult) :=
  let! tables := call NetTables in
  match tables with
  | Err _ => ret (Ok (mkExplainResult [] false))
  | Ok tables =>
    let names := route_names tables in
    let! c := get in
    let! items := for_acc (entries c) [] (λ items entry,
      if negb (Z.eqb (je_uid entry) uid) then ret items
      else for_acc (je_resources entry) items (λ items resource,
             let! item := explain_resource (je_owner entry) (je_state entry) resource
                            tables names in
             ret (items ++ [item]))) in
    ret (Ok (mkExplainResult items true))
  end.

End intents.
