(* ===== verification/AlwaysOn.v ===== *)
(** * Always-on profiles: [crates/daemon/src/always_on.rs]

    Definitions a user wants installed at start: their validation, their
    store and the replay that installs them through the core. *)

From S2P Require Export CoreIntents.

Definition VERSION : Z := 1.
Definition MAX_DOCUMENT_BYTES : Z := 8388608.
Definition MAX_ENTRIES : Z := 32.

Record WireGuardConnectParams : Type := mkWgConnect {
  wc_profile_id : string;
  wc_config : string;
  wc_routes : list PolicyRoute;
  wc_interface_name : option string;
  wc_role : TunnelRole;
  wc_dns_domains : list string;
}.

Record AlwaysOnStaticRoutes : Type := mkStaticRoutes {
  sp_profile_id : string;
  sp_interface_name : string;
  sp_routes : list PolicyRoute;
}.

Inductive AlwaysOnDefinition : Type :=
| DefWireGuard (profile : WireGuardConnectParams)
| DefStaticRoutes (profile : AlwaysOnStaticRoutes).

#[export] Instance WireGuardConnectParams_eq_dec : EqDecision WireGuardConnectParams.
Proof. solve_decision. Defined.
#[export] Instance AlwaysOnStaticRoutes_eq_dec : EqDecision AlwaysOnStaticRoutes.
Proof. solve_decision. Defined.
#[export] Instance AlwaysOnDefinition_eq_dec : EqDecision AlwaysOnDefinition.
Proof. solve_decision. Defined.

(** [AlwaysOnDefinition::owner], crates/core/src/daemon_protocol.rs *)
Definition definition_owner (d : AlwaysOnDefinition) : string :=
  match d with
  | DefWireGuard profile => "wg:" +:+ wc_profile_id profile
  | DefStaticRoutes profile => sp_profile_id profile
  end.

Record StoredEntry : Type := mkStored {
  se_enabled : bool;
  se_definition : AlwaysOnDefinition;
}.

Record AlwaysOnDocument : Type := mkAlwaysOn {
  ad_version : Z;
  ad_paused : bool;
  ad_entries : list StoredEntry;
}.

Definition always_on_default : AlwaysOnDocument := mkAlwaysOn VERSION false [].

Record ReplayReport : Type := mkReport {
  rr_started : nat;
  rr_already_active : nat;
  rr_blocked : nat;
  rr_failed : nat;
}.

Definition invalid_data : io_error := always_on_invalid_data.

(** [.map_err(|_| invalid_data())] *)
Definition or_invalid {A E} (r : result A E) : io_result A := map_err (λ _, invalid_data) r.

Section always_on.
Context `{Env} `{IpNetLib} `{Base64Lib} `{JsonCodec AlwaysOnDocument}.

Definition static_route (index : Z) (route : PolicyRoute) : AppliedRoute :=
  {| ar_destination := pr_destination route;
     ar_interface_index := index;
     ar_metric := pr_metric route;
     ar_gateway := pr_via route;
     ar_table := None |}.

Definition validate_definition (definition : AlwaysOnDefinition) : io_result unit :=
  let owner := definition_owner definition in
  _ <-? or_invalid (validate_owner owner);
  match definition with
  | DefWireGuard profile =>
    _ <-? or_invalid (parse_wireguard_config (wc_config profile) (wc_routes profile));
    Ok tt
  | DefStaticRoutes profile =>
    if starts_with owner "wg:" || starts_with owner "ovpn:" || starts_with owner "ovpn-probe:"
       || starts_with owner "xray:"
    then Err invalid_data
    else
      _ <-? or_invalid (validate_iface_name (sp_interface_name profile));
      if Z.eqb (zlen (sp_routes profile)) 0 then Err invalid_data
      else
        _ <-? or_invalid (validate_apply (map (static_route 1) (sp_routes profile)));
        Ok tt
  end.

Definition with_hint (hint : option string) (plan : WireGuardPlan) : WireGuardPlan :=
  mkWgPlan (wp_setconf plan) (wp_addresses plan) (wp_dns_servers plan) (wp_dns_domains plan)
    (wp_mtu plan) (wp_routes plan) (wp_full_ipv4 plan) (wp_full_ipv6 plan) (wp_warnings plan) hint.

Definition apply_definition (uid : Z) (definition : AlwaysOnDefinition)
    : M DaemonCore (io_result bool) :=
  let? _ := lift (validate_definition definition) in
  let owner := definition_owner definition in
  let! c := get in
  match List.find (λ entry, oe_owner entry =b owner) (owned c uid) with
  | Some existing =>
    if oe_state existing =b Applied then ret (Ok false)
    else fail (err_new AlreadyExists "existing owner needs recovery before replay")
  | None =>
    match definition with
    | DefWireGuard profile =>
      let? plan := lift (or_invalid (parse_wireguard_config (wc_config profile)
                                       (wc_routes profile))) in
      let? _ := connect_wireguard uid (wc_profile_id profile)
                  (with_hint (wc_interface_name profile) plan) in
      ret (Ok true)
    | DefStaticRoutes profile =>
      if contains_char (sp_interface_name profile) "000" then fail invalid_data
      else
        let! index := call (IfNametoindex (sp_interface_name profile)) in
        if Z.eqb index 0 then fail (err_new NotFound "interface is unavailable")
        else
          let? _ := apply_routes uid (sp_profile_id profile)
                      (map (static_route index) (sp_routes profile)) in
          ret (Ok true)
    end
  end.

(** ** [AlwaysOnStore] *)

Definition always_on_store (root : path) : StoreConfig AlwaysOnDocument := {|
  st_root := root;
  st_file := "definitions.json";
  st_temp := "definitions.json.tmp";
  st_max_bytes := MAX_DOCUMENT_BYTES;
  st_default := always_on_default;
  st_acceptable d := Z.eqb (ad_version d) VERSION && Z.leb (zlen (ad_entries d)) MAX_ENTRIES;
  st_stamp d := d;
  st_invalid_data := invalid_data;
|}.

Definition load_uid {S} (root : path) (uid : Z) : M S (io_result AlwaysOnDocument) :=
  store_load_uid (always_on_store root) uid.

Definition load_all {S} (root : path) : M S (io_result (list (Z * io_result AlwaysOnDocument))) :=
  store_load_all (always_on_store root).

Definition save {S} (root : path) (uid : Z) (document : AlwaysOnDocument)
    : M S (io_result unit) :=
  store_save (always_on_store root) uid document.

(** The update of [insert]: [None] when it is already there and enabled. *)
Definition insert_document (document : AlwaysOnDocument) (definition : AlwaysOnDefinition)
    : io_result (option AlwaysOnDocument) :=
  let with_entries es := mkAlwaysOn (ad_version document) (ad_paused document) es in
  match position (λ e, definition_owner (se_definition e) =b definition_owner definition)
          (ad_entries document) with
  | Some i =>
    match ad_entries document !! i with
    | None => Ok None
    | Some entry =>
      if negb (se_definition entry =b definition)
      then Err (err_new AlreadyExists "definition differs")
      else if se_enabled entry then Ok None
      else Ok (Some (with_entries (<[i := mkStored true (se_definition entry)]>
                                     (ad_entries document))))
    end
  | None =>
    if Z.leb MAX_ENTRIES (zlen (ad_entries document)) then Err invalid_data
    else Ok (Some (with_entries (ad_entries document ++ [mkStored true definition])))
  end.

Definition insert_definition {S} (root : path) (uid : Z) (definition : AlwaysOnDefinition)
    : M S (io_result bool) :=
  let? document := load_uid root uid in
  let? updated := lift (insert_document document definition) in
  match updated with
  | None => ret (Ok false)
  | Some document =>
    let? _ := save root uid document in
    ret (Ok true)
  end.

Definition disable {S} (root : path) (uid : Z) (owner : string) : M S (io_result bool) :=
  let? document := load_uid root uid in
  match position (λ e, definition_owner (se_definition e) =b owner) (ad_entries document) with
  | None => ret (Ok false)
  | Some i =>
    let entries_ := alter (λ e, mkStored false (se_definition e)) i (ad_entries document) in
    let? _ := save root uid (mkAlwaysOn (ad_version document) (ad_paused document) entries_) in
    ret (Ok true)
  end.

Definition remove {S} (root : path) (uid : Z) (owner : string) : M S (io_result bool) :=
  let? document := load_uid root uid in
  let entries_ := bfilter (λ e, negb (definition_owner (se_definition e) =b owner))
                    (ad_entries document) in
  if Nat.eqb (length entries_) (length (ad_entries document)) then ret (Ok false)
  else
    let? _ := save root uid (mkAlwaysOn (ad_version document) (ad_paused document) entries_) in
    ret (Ok true).

Definition pause {S} (root : path) (uid : Z) : M S (io_result unit) :=
  let? document := load_uid root uid in
  save root uid (mkAlwaysOn (ad_version document) true (ad_entries document)).

Definition resume {S} (root : path) (uid : Z) : M S (io_result unit) :=
  let? document := load_uid root uid in
  save root uid (mkAlwaysOn (ad_version document) false (ad_entries document)).

(** ** Replay *)

Definition replay_entry (uid : Z) (report : ReplayReport) (entry : StoredEntry)
    : M DaemonCore ReplayReport :=
  let '(mkReport started active blocked failed) := report in
  let! c := get in
  match List.find (λ o, oe_owner o =b definition_owner (se_definition entry)) (owned c uid) with
  | Some existing =>
    ret (if oe_state existing =b Applied then mkReport started (S active) blocked failed
         else mkReport started active (S blocked) failed)
  | None =>
    let! r := apply_definition uid (se_definition entry) in
    ret (match r with
         | Ok true => mkReport (S started) active blocked failed
         | Ok false => mkReport started (S active) blocked failed
         | Err _ => mkReport started active blocked (S failed)
         end)
  end.

Definition replay_document (report : ReplayReport) (stored : Z * io_result AlwaysOnDocument)
    : M DaemonCore ReplayReport :=
  match stored.2 with
  | Err _ => ret (mkReport (rr_started report) (rr_already_active report) (rr_blocked report)
                    (S (rr_failed report)))
  | Ok document =>
    if ad_paused document then ret report
    else for_acc (bfilter se_enabled (ad_entries document)) report (replay_entry stored.1)
  end.

Definition replay (root : path) : M DaemonCore (io_result ReplayReport) :=
  let? documents := load_all root in
  let! report := for_acc documents (mkReport 0 0 0 0) replay_document in
  ret (Ok report).

Definition replayable_owners {S} (root : path) : M S (io_result (gset owner_key)) :=
  let? documents := load_all root in
  ret (Ok (list_to_set (concat (map (λ '(uid, document),
    match document with
    | Ok document =>
      if ad_paused document then []
      else map (λ e, (uid, definition_owner (se_definition e)))
             (bfilter se_enabled (ad_entries document))
    | Err _ => []
    end) documents)))).

End always_on.
