(* ===== verification/RouteProps.v ===== *)
(** * What the route operations do

    The functional behaviour of [apply_routes] and of the manual edits, on
    every branch, from any state and in any world. [net_route_add],
    [net_rule_add] and the two suppressions of [net_route_del] and
    [net_rule_del] share one shape: the [manual] entry of the user is found or
    created, the edit is pushed onto it, the journal is saved, the kernel is
    asked. Their outcome is stated once, with the consequences the code has
    for later reconciliations. *)

From S2P Require Export CoreReconcile.

(** ** Histories *)

Definition journal_with (s : DaemonCore) (e : JournalEntry) : JournalDocument :=
  mkJournal (jd_version (dc_journal s)) (entries s ++ [e]).

Section apply.
Context `{Env} `{IpNetLib}.

(** The journal after an application that failed and left [still]. *)
Definition left_behind (uid : Z) (owner : string) (attach : option AttachSpecParams)
    (still : list AppliedRoute) : list JournalEntry :=
  if Nat.eqb (length still) 0 && is_none attach then []
  else [mkEntry uid owner Stale (attach_resources attach ++ map Route still)].

(** How [apply_routes_inner] ends. *)
Definition apply_post (uid : Z) (owner : string) (routes : list AppliedRoute)
    (attach : option AttachSpecParams) (s : DaemonCore) (h : history)
    (r : io_result nat) (s' : DaemonCore) (h' : history) : Prop :=
  let entry st rs := mkEntry uid owner st (attach_resources attach ++ map Route rs) in
  let recorded := Ev (StoreSave (journal_with s (entry Applying routes))) (Ok tt) :: h in
  match r with
  | Ok n =>
    n = length routes ∧ is_ok (validate_apply routes) = true ∧
    position_of s uid owner = None ∧
    s' = set_entries (λ es, es ++ [entry Applied routes]) s ∧
    ∃ saved, h' = Ev (StoreSave (dc_journal s')) saved :: rev (map add_ok routes) ++ recorded
  | Err _ =>
    (s' = s ∧ (h' = h ∨ ∃ doc e, h' = Ev (StoreSave doc) (Err e) :: h)) ∨
    (∃ added route rest err tries saved,
       routes = added ++ route :: rest ∧ map fst tries = rev added ∧
       s' = set_entries (λ es, es ++ left_behind uid owner attach (not_removed tries)) s ∧
       h' = Ev (StoreSave (dc_journal s')) saved :: rev (map removal tries)
              ++ Ev (AddRoute route) (Err err) :: rev (map add_ok added) ++ recorded)
  end.

(** Steps on the entry just pushed. *)
Lemma wp_update_last s e f (Q : unit → DaemonCore → history → Prop) h :
  Q tt (set_entries (λ es, es ++ [f e]) s) h →
  wp (update_entry (length (entries (set_entries (λ es, es ++ [e]) s)) - 1) f) Q
     (set_entries (λ es, es ++ [e]) s) h.
Proof.
  intros HQ. unfold update_entry, entry_at. wp_steps.
  replace (entries (set_entries (λ es, es ++ [e]) s)) with (entries s ++ [e])
    by by destruct s as [[]].
  rewrite lookup_snoc. wp_steps. rewrite set_entries_twice.
  erewrite set_entries_ext; [exact HQ|]. simpl. apply insert_snoc.
Qed.

Lemma wp_remove_last s e (Q : unit → DaemonCore → history → Prop) h :
  Q tt s h →
  wp (remove_entry (length (entries (set_entries (λ es, es ++ [e]) s)) - 1)) Q
     (set_entries (λ es, es ++ [e]) s) h.
Proof.
  intros HQ. unfold remove_entry, entry_at. wp_steps.
  replace (entries (set_entries (λ es, es ++ [e]) s)) with (entries s ++ [e])
    by by destruct s as [[]].
  rewrite lookup_snoc. wp_steps. rewrite set_entries_twice, set_entries_id; [done|].
  apply delete_snoc.
Qed.

Lemma wp_apply_routes_inner uid owner routes attach s h :
  wp (apply_routes_inner uid owner routes attach)
     (apply_post uid owner routes attach s h) s h.
Proof.
  unfold apply_routes_inner. wp_step. wp_step.
  destruct (validate_apply routes) as [[]|] eqn:Hval; simpl; [|by left; auto].
  do 2 wp_step. destruct (position_of s uid owner) eqn:Hpos; simpl; [by left; auto|].
  set (e := mkEntry uid owner Applying (attach_resources attach ++ map Route routes)).
  wp_step. apply wp_modify. wp_step. unfold store_save_journal. do 3 wp_step.
  rewrite set_entries_journal. destruct a as [[]|err].
  2: { wp_step. apply wp_modify, wp_ret. left. split; [|right; by do 2 eexists].
       rewrite set_entries_twice. apply set_entries_id, pop_list_app. }
  do 3 wp_step. eapply wp_mono; [|apply wp_apply_routes_transactional].
  intros [[]|[err still]] s' h' [-> Hpost].
  - wp_step. apply wp_update_last. wp_step. unfold persist, store_save_journal. wp_steps.
    unfold apply_post. cbv zeta. split_and!; [done|by rewrite Hval|done|done|].
    eexists. subst h'. done.
  - destruct Hpost as (added & route & rest & err' & tries & -> & _ & Htries & -> & ->).
    wp_step. assert (∀ (cond : bool) (Q : unit → DaemonCore → history → Prop) h1,
      Q tt (set_entries (λ es, es ++ if cond then [] else
              [mkEntry uid owner Stale (attach_resources attach ++ map Route (not_removed tries))]) s) h1 →
      wp (if cond
          then remove_entry (length (entries (set_entries (λ es, es ++ [e]) s)) - 1)
          else update_entry (length (entries (set_entries (λ es, es ++ [e]) s)) - 1)
                 (λ e, with_resources (λ _, attach_resources attach ++ map Route (not_removed tries))
                         (with_state Stale e))) Q (set_entries (λ es, es ++ [e]) s) h1) as Hif.
    { intros [] Q h1 HQ; [apply wp_remove_last|by apply wp_update_last].
      rewrite set_entries_id in HQ; [done|apply app_nil_r]. }
    apply Hif. unfold persist, store_save_journal. wp_steps.
    right. exists added, route, rest, err', tries. by eexists.
Qed.
End apply.

(** ** Client routes *)

Section client.
Context `{Env} `{IpNetLib}.

(** A call of [check_client_owner] that refuses. *)
Lemma apply_routes_split uid owner routes (Q : io_result nat → DaemonCore → history → Prop) s h :
  (∀ e, check_client_owner owner = Err e → Q (Err e) s h) →
  (is_ok (check_client_owner owner) = true →
   wp (apply_routes_inner uid owner routes None) Q s h) →
  wp (apply_routes uid owner routes) Q s h.
Proof.
  intros H1 H2. unfold apply_routes. do 2 wp_step.
  destruct (check_client_owner owner) as [[]|e]; [by apply H2|by apply H1].
Qed.

(** C36. [routes.apply] is write-ahead and all or nothing, in any world and
    from any state. On success the owner was free and acceptable, the journal
    was saved with the routes before the first one was added, every route was
    added in order, and exactly one entry was appended. On failure either
    nothing at all changed, or the routes added before the failing one were
    each asked to be removed and a stale entry holds exactly those the kernel
    kept. *)
Theorem apply_routes_outcome uid owner routes s h :
  wp (apply_routes uid owner routes)
     (λ r s' h', apply_post uid owner routes None s h r s' h' ∧
        (is_ok r = true → is_ok (check_client_owner owner) = true)) s h.
Proof.
  apply apply_routes_split; [by intros e _; split; [left; auto|]|]. intros Ho.
  eapply wp_mono; [|apply wp_apply_routes_inner]. auto.
Qed.

(** The owners a client cannot name: each prefix the daemon keeps for its
    tunnels, rules and intents. *)
Lemma reserved_owner_cases owner :
  (∃ p, p ∈ ["wg:"; "ovpn:"; "ovpn-probe:"; "xray:"; "cond:"; "intent:"]%string ∧
        starts_with owner p = true) ∨ owner = "manual"%string →
  reserved_owner owner = true.
Proof.
  unfold reserved_owner. intros [(p & Hp & Hs)| ->]; [|apply orb_true_r].
  rewrite !orb_true_iff. repeat (apply elem_of_cons in Hp as [->|Hp]; [tauto|]).
  by apply elem_of_nil in Hp.
Qed.

(** A client never applies routes under an owner of the daemon's own: the
    request is refused before anything is read, recorded or changed. *)
Theorem reserved_owner_refused uid owner routes spec s h
    (Hr : (∃ p, p ∈ ["wg:"; "ovpn:"; "ovpn-probe:"; "xray:"; "cond:"; "intent:"]%string ∧
                starts_with owner p = true) ∨ owner = "manual"%string) :
  (∃ e, apply_routes uid owner routes s h = (Some (Err e), s, h)) ∧
  (∃ e, apply_attach uid owner spec routes s h = (Some (Err e), s, h)).
Proof.
  apply reserved_owner_cases in Hr.
  assert (∃ e, check_client_owner owner = Err e) as [e He].
  { unfold check_client_owner. rewrite Hr. destruct (map_err _ _) as [[]|e]; by eexists. }
  unfold apply_routes, apply_attach, try_bind, bind, lift, ret. rewrite He. by split; eexists.
Qed.
End client.

(** ** A concrete core *)

Section witnesses.
#[local] Existing Instance ipnet_model.

#[local] Instance failing_env : Env := λ A c _, failing_answer c.

Definition tunnel_core : DaemonCore :=
  core_with (mkJournal 5 [mkEntry 1000 "wg:home" Applied
    [WireGuardLink (mkLinkResource "wg-home" 7 "network-orchestrator:1000:wg:home" None []);
     Route (on_link (mkNet (ip4 10 0 0 0) 8) 7 50)]]) unwired.

Lemma reserved_owner_refused_witness :
  (∃ e, apply_routes 1000 "manual" [] tunnel_core [] = (Some (Err e), tunnel_core, [])) ∧
  (∃ e, apply_attach 1000 "manual" (mkAttachSpec "" [] [] true) [] tunnel_core []
        = (Some (Err e), tunnel_core, [])).
Proof.
  apply (reserved_owner_refused 1000 "manual" [] (mkAttachSpec "" [] [] true) tunnel_core []).
  right. reflexivity.
Defined.
End witnesses.

(** ** The [manual] entry of a user *)

Definition manual_resources (s : DaemonCore) (uid : Z) : list OwnedResource :=
  match position_of s uid MANUAL_OWNER ≫= λ i, entries s !! i with
  | Some e => je_resources e
  | None => []
  end.

Definition manual_state (s : DaemonCore) (uid : Z) : OwnedState :=
  match position_of s uid MANUAL_OWNER ≫= λ i, entries s !! i with
  | Some e => je_state e
  | None => Applying
  end.

Definition with_manual (s : DaemonCore) (uid : Z) (st : OwnedState) (rs : list OwnedResource)
    : DaemonCore :=
  let e := mkEntry uid MANUAL_OWNER st rs in
  match position_of s uid MANUAL_OWNER with
  | Some i => set_entries (λ es, <[i := e]> es) s
  | None => set_entries (λ es, es ++ [e]) s
  end.

(** The entry with those resources, or none of it when there is none. *)
Definition manual_or_none (s : DaemonCore) (uid : Z) (st : OwnedState)
    (rs : list OwnedResource) : DaemonCore :=
  match rs with
  | [] => match position_of s uid MANUAL_OWNER with
          | Some i => set_entries (delete i) s
          | None => s
          end
  | _ => with_manual s uid st rs
  end.

Definition manual_index (s : DaemonCore) (uid : Z) : nat :=
  unwrap_or (position_of s uid MANUAL_OWNER) (length (entries s)).

(** An executor that may be missing was asked. *)
Definition acted `{Env} (wired : bool) (c : ext (io_result unit)) (ans : io_result unit)
    (h1 h2 : history) : Prop :=
  if wired then h2 = Ev c ans :: h1 else ans = Err policy_unavailable ∧ h2 = h1.

Section edit.
Context `{Env} `{IpNetLib}.

Definition saved_as (s : DaemonCore) (ans : io_result unit) : event :=
  Ev (StoreSave (dc_journal s)) ans.

(** The history after [manual_entry]: creating the entry saves the journal. *)
Definition manual_ready (uid : Z) (s : DaemonCore) (h h1 : history) : Prop :=
  h1 = match position_of s uid MANUAL_OWNER with
       | Some _ => h
       | None => saved_as (with_manual s uid Applying []) (Ok tt) :: h
       end.

(** How an edit that records [r] in state [st] and asks for [c] ends. *)
Definition edit_post {B} (uid : Z) (r : OwnedResource) (st : OwnedState) (wired : bool)
    (c : ext (io_result unit)) (value : B) (s : DaemonCore) (h : history)
    (ans : io_result B) (s' : DaemonCore) (h' : history) : Prop :=
  let rs := manual_resources s uid in
  let written := with_manual s uid st (rs ++ [r]) in
  match ans with
  | Ok v =>
    v = value ∧ s' = with_manual s uid Applied (rs ++ [r]) ∧
    ∃ h1 h2 saved, manual_ready uid s h h1 ∧
      acted wired c (Ok tt) (saved_as written (Ok tt) :: h1) h2 ∧
      h' = saved_as s' saved :: h2
  | Err err =>
    (** the entry could not be written *)
    (position_of s uid MANUAL_OWNER = None ∧ s' = with_manual s uid Applying [] ∧
     h' = saved_as s' (Err err) :: h) ∨
    (** the edit could not be written: it stays in memory *)
    (s' = written ∧ ∃ h1, manual_ready uid s h h1 ∧ h' = saved_as s' (Err err) :: h1) ∨
    (** the kernel refused: the edit is forgotten, the state is not *)
    (s' = manual_or_none s uid st rs ∧
     ∃ h1 h2 saved, manual_ready uid s h h1 ∧
       acted wired c (Err err) (saved_as written (Ok tt) :: h1) h2 ∧
       h' = saved_as s' saved :: h2)
  end.

(** *** Lemmas *)

Lemma manual_at s uid i :
  position_of s uid MANUAL_OWNER = Some i →
  entries s !! i
  = Some (mkEntry uid MANUAL_OWNER (manual_state s uid) (manual_resources s uid)).
Proof.
  intros Hp. destruct (position_key _ _ _ _ Hp) as ([u o st rs] & He & Hu & Ho).
  unfold manual_resources, manual_state. rewrite Hp. simpl. rewrite He. simpl in *. by subst.
Qed.

Lemma with_manual_at s uid st rs :
  entries (with_manual s uid st rs) !! manual_index s uid
  = Some (mkEntry uid MANUAL_OWNER st rs).
Proof.
  unfold with_manual, manual_index. destruct (position_of s uid MANUAL_OWNER) as [i|] eqn:Hp.
  - rewrite entries_set. simpl. pose proof (manual_at _ _ _ Hp) as He.
    apply list_lookup_insert_eq. by eapply lookup_lt_Some.
  - rewrite entries_set. simpl. by apply list_lookup_middle.
Qed.

(** Updating the entry where it stands. *)
Lemma with_manual_update s uid st rs f :
  set_entries (λ es, <[manual_index s uid := f (mkEntry uid MANUAL_OWNER st rs)]> es)
    (with_manual s uid st rs)
  = match position_of s uid MANUAL_OWNER with
    | Some i => set_entries (λ es, <[i := f (mkEntry uid MANUAL_OWNER st rs)]> es) s
    | None => set_entries (λ es, es ++ [f (mkEntry uid MANUAL_OWNER st rs)]) s
    end.
Proof.
  unfold with_manual, manual_index. destruct (position_of s uid MANUAL_OWNER) as [i|] eqn:Hp.
  - rewrite set_entries_twice. apply set_entries_ext. simpl. apply list_insert_insert_eq.
  - rewrite set_entries_twice. apply set_entries_ext. simpl.
    rewrite insert_app_r_alt by lia. by rewrite Nat.sub_diag.
Qed.

Lemma wp_update_manual s uid st rs f (Q : unit → DaemonCore → history → Prop) h :
  Q tt (match position_of s uid MANUAL_OWNER with
        | Some i => set_entries (λ es, <[i := f (mkEntry uid MANUAL_OWNER st rs)]> es) s
        | None => set_entries (λ es, es ++ [f (mkEntry uid MANUAL_OWNER st rs)]) s
        end) h →
  wp (update_entry (manual_index s uid) f) Q (with_manual s uid st rs) h.
Proof.
  intros HQ. unfold update_entry, entry_at. wp_steps. rewrite with_manual_at. wp_steps.
  by rewrite with_manual_update.
Qed.

Lemma manual_entry_wp uid s h (Q : io_result nat → DaemonCore → history → Prop) :
  (∀ err, position_of s uid MANUAL_OWNER = None →
     let s' := with_manual s uid Applying [] in Q (Err err) s' (saved_as s' (Err err) :: h)) →
  (∀ h1 st, manual_ready uid s h h1 →
     Q (Ok (manual_index s uid)) (with_manual s uid st (manual_resources s uid)) h1) →
  wp (manual_entry uid) Q s h.
Proof.
  intros Herr Hok. unfold manual_entry. do 2 wp_step.
  destruct (position_of s uid MANUAL_OWNER) as [i|] eqn:Hp.
  - pose proof (manual_at _ _ _ Hp) as He. wp_step. specialize (Hok h (manual_state s uid)).
    unfold manual_ready, with_manual, manual_index in Hok. rewrite Hp in Hok. simpl in Hok.
    rewrite set_entries_id in Hok; [by apply Hok|]. by apply list_insert_id.
  - unfold push_entry, store_save_journal. wp_steps. specialize (Hok
      (saved_as (with_manual s uid Applying []) (Ok tt) :: h) Applying).
    unfold manual_ready, with_manual, manual_index, manual_resources in Hok, Herr.
    rewrite Hp in Hok, Herr. simpl in Hok, Herr.
    destruct a as [[]|err]; [|by apply Herr]. do 3 wp_step.
    rewrite entries_set, length_app. simpl. rewrite Nat.add_sub. by apply Hok.
Qed.

Lemma list_delete_insert_same {A} i (x : A) (l : list A) : delete i (<[i:=x]> l) = delete i l.
Proof.
  revert i. induction l as [|y l IH]; intros [|i]; simpl; [done..|]. f_equal. apply IH.
Qed.

Lemma wp_forget_manual uid s st rs r (Q : unit → DaemonCore → history → Prop) h :
  Q tt (manual_or_none s uid st rs) h →
  wp (forget_last (manual_index s uid)) Q (with_manual s uid st (rs ++ [r])) h.
Proof.
  intros HQ. unfold forget_last. wp_step. apply wp_update_manual.
  assert (pop_resource (mkEntry uid MANUAL_OWNER st (rs ++ [r])) = mkEntry uid MANUAL_OWNER st rs)
    as -> by (unfold pop_resource, with_resources; simpl; by rewrite pop_list_app).
  change (match position_of s uid MANUAL_OWNER with
          | Some _ => _ | None => _ end) with (with_manual s uid st rs).
  unfold entry_at. wp_steps. rewrite with_manual_at. wp_steps.
  destruct rs as [|r0 rs]; simpl; [|by wp_steps].
  unfold remove_entry, entry_at. wp_steps. rewrite with_manual_at. wp_steps.
  unfold manual_or_none, with_manual, manual_index in *.
  destruct (position_of s uid MANUAL_OWNER) as [i|]; simpl; rewrite set_entries_twice.
  - erewrite set_entries_ext; [exact HQ|]. simpl. apply list_delete_insert_same.
  - rewrite set_entries_id; [done|]. simpl. rewrite delete_take_drop, take_app_length.
    rewrite drop_ge; [apply app_nil_r|]. rewrite length_app. simpl. lia.
Qed.

(** The shape itself: push, save, ask; [finish] closes the successful case. *)
Lemma wp_manual_edit {B} uid r st wired (act : M DaemonCore (io_result unit)) c (value : B)
    (finish : nat → M DaemonCore (io_result B)) s h :
  (∀ s1 h1 (Q : io_result unit → DaemonCore → history → Prop), dc_wired s1 = dc_wired s →
     (∀ ans h2, acted wired c ans h1 h2 → Q ans s1 h2) → wp act Q s1 h1) →
  (∀ rs h1 (Q : io_result B → DaemonCore → history → Prop),
     let s' := with_manual s uid Applied rs in
     (∀ saved, Q (Ok value) s' (saved_as s' saved :: h1)) →
     wp (finish (manual_index s uid)) Q (with_manual s uid st rs) h1) →
  wp (let? index := manual_entry uid in
      update_entry index (push_resource r) ;;;
      update_entry index (with_state st) ;;;
      let? _ := store_save_journal in
      let! added := act in
      match added with
      | Ok _ => finish index
      | Err err => forget_last index ;;; persist ;;; fail err
      end) (edit_post uid r st wired c value s h) s h.
Proof.
  intros Hact Hfinish. set (rs := manual_resources s uid). wp_step.
  apply manual_entry_wp; [intros err Hp; by left|]. intros h1 st0 Hready.
  cbv beta iota. wp_step. apply wp_update_manual.
  change (push_resource r (mkEntry uid MANUAL_OWNER st0 rs))
    with (mkEntry uid MANUAL_OWNER st0 (rs ++ [r])).
  change (match position_of s uid MANUAL_OWNER with
          | Some _ => _ | None => _ end) with (with_manual s uid st0 (rs ++ [r])).
  wp_step. apply wp_update_manual.
  change (match position_of s uid MANUAL_OWNER with
          | Some _ => _ | None => _ end) with (with_manual s uid st (rs ++ [r])).
  unfold store_save_journal. wp_steps. destruct a as [[]|err].
  2: { right. left. split; [done|]. by exists h1. }
  wp_step. apply Hact; [by unfold with_manual; case_match; destruct s|]. intros ans h2 Hacted.
  destruct ans as [[]|err].
  - apply Hfinish. intros saved. split_and!; [done..|]. by exists h1, h2, saved.
  - wp_step. apply wp_forget_manual. unfold persist, store_save_journal. wp_steps.
    right. right. split; [done|]. by exists h1, h2, a.
Qed.

Lemma acted_call c s1 h1 (Q : io_result unit → DaemonCore → history → Prop) :
  (∀ ans h2, acted true c ans h1 h2 → Q ans s1 h2) → wp (call c) Q s1 h1.
Proof. intros HQ. apply wp_call. intros ans. by apply HQ. Qed.

Lemma acted_policy s c s1 h1 (Q : io_result unit → DaemonCore → history → Prop) :
  dc_wired s1 = dc_wired s →
  (∀ ans h2, acted (ex_policy (dc_wired s)) c ans h1 h2 → Q ans s1 h2) →
  wp (with_policy (call c)) Q s1 h1.
Proof.
  intros Hw HQ. unfold with_policy. do 2 wp_step. rewrite Hw.
  destruct (ex_policy (dc_wired s)); [by apply acted_call|]. unfold fail. wp_steps. by apply HQ.
Qed.

Lemma finish_add uid st (Q : io_result unit → DaemonCore → history → Prop) s rs h1 :
  let s' := with_manual s uid Applied rs in
  (∀ saved, Q (Ok tt) s' (saved_as s' saved :: h1)) →
  wp (update_entry (manual_index s uid) (with_state Applied) ;;; persist ;;; ret (Ok tt)) Q
     (with_manual s uid st rs) h1.
Proof.
  intros s' HQ. wp_step. apply wp_update_manual. unfold persist, store_save_journal. wp_steps.
  apply HQ.
Qed.

Lemma finish_suppress uid (Q : io_result NetEditOutcome → DaemonCore → history → Prop) s rs h1 :
  let s' := with_manual s uid Applied rs in
  (∀ saved, Q (Ok Suppressed) s' (saved_as s' saved :: h1)) →
  wp (persist ;;; ret (Ok Suppressed)) Q (with_manual s uid Applied rs) h1.
Proof. intros s' HQ. unfold persist, store_save_journal. wp_steps. apply HQ. Qed.

(** *** The four edits *)

(** The interface of a route edit: given, or looked up by a valid name. *)
Definition interface_found (params : NetRouteAddParams) (index : Z) (h h0 : history) : Prop :=
  (ra_interface_index params = Some index ∧ ra_interface_name params = None ∧ h0 = h) ∨
  (∃ name, ra_interface_name params = Some name ∧ ra_interface_index params = None ∧
     is_ok (validate_iface_name name) = true ∧ h0 = Ev (LinkIndex name) (Ok (Some index)) :: h).

(** Nothing of the journal or the kernel changed. *)
Definition refused (s : DaemonCore) (h : history) (s' : DaemonCore) (h' : history) : Prop :=
  s' = s ∧ (h' = h ∨ ∃ name ans, h' = Ev (LinkIndex name) ans :: h).

Lemma wp_route_interface_index params s h (Q : io_result Z → DaemonCore → history → Prop) :
  (∀ err h', refused s h s h' → Q (Err err) s h') →
  (∀ index h0, interface_found params index h h0 → Q (Ok index) s h0) →
  wp (route_interface_index params) Q s h.
Proof.
  intros Herr Hok. unfold route_interface_index.
  destruct (ra_interface_index params) as [index|] eqn:Hi,
    (ra_interface_name params) as [name|] eqn:Hn; unfold fail; wp_steps.
  - apply Herr. by split; [|left].
  - apply Hok. left. by split_and!.
  - destruct (validate_iface_name name) as [[]|e] eqn:Hv; simpl; [|apply Herr; by split; [|left]].
    wp_steps. destruct a as [[index|]|e]; simpl; wp_steps; simpl.
    + apply Hok. right. exists name. split_and!; try done. by rewrite Hv.
    + apply Herr. split; [done|]. right. by do 2 eexists.
    + apply Herr. split; [done|]. right. by do 2 eexists.
  - apply Herr. by split; [|left].
Qed.

(** How [net.route.add] ends: refused with nothing changed, or the edit. *)
Definition route_add_post (uid : Z) (params : NetRouteAddParams) (s : DaemonCore) (h : history)
    (r : io_result unit) (s' : DaemonCore) (h' : history) : Prop :=
  (is_err r = true ∧ refused s h s' h') ∨
  ∃ index h0, interface_found params index h h0 ∧
    unwrap_or (ra_table params) RT_TABLE_MAIN ∉ [RT_TABLE_UNSPEC; RT_TABLE_LOCAL] ∧
    edit_post uid (NetRoute (manual_route params index)) Applying true
      (AddSystemRoute (manual_route params index)) tt s h0 r s' h'.

Lemma wp_net_route_add uid params s h :
  wp (net_route_add uid params)
     (route_add_post uid params s h) s h.
Proof.
  unfold net_route_add. cbv zeta.
  destruct (_ || _) eqn:Ht; [unfold fail; wp_step; left; by split; [|split; [|left]]|].
  apply orb_false_iff in Ht as [Ht0%Z.eqb_neq Ht1%Z.eqb_neq].
  wp_step. apply wp_route_interface_index; [intros err h' Hr; by left|].
  intros index h0 Hi. cbv iota. destruct (existsb _ _).
  - unfold fail. wp_step. left. split; [done|]. split; [done|].
    destruct Hi as [(_ & _ & ->)|(name & _ & _ & _ & ->)]; [by left|right; by do 2 eexists].
  - eapply wp_mono; [|apply (wp_manual_edit uid (NetRoute (manual_route params index)) Applying true
        (call (AddSystemRoute (manual_route params index)))
        (AddSystemRoute (manual_route params index)) tt)].
    + intros r s' h' Hpost. right. exists index, h0. split_and!; [done| |done].
      rewrite !not_elem_of_cons. split_and!; try done. apply not_elem_of_nil.
    + intros s1 h1 Q _. apply acted_call.
    + intros rs h1 Q s' HQ. by apply finish_add.
Qed.

(** [net.route.add], on every branch: it is refused with nothing changed,
    or the edit is the write-ahead record, request, outcome of [edit_post] for
    the override the parameters describe. *)
Theorem net_route_add_outcome uid params s h :
  wp (net_route_add uid params)
     (route_add_post uid params s h) s h.
Proof. apply wp_net_route_add. Qed.

(** [net.rule.add], on every branch. *)
Theorem net_rule_add_outcome uid params s h :
  wp (net_rule_add uid params)
     (λ r s' h',
        (is_err r = true ∧ s' = s ∧ h' = h) ∨
        (rp_priority params ≠ 0%Z ∧ rp_table params ∉ [RT_TABLE_UNSPEC; RT_TABLE_LOCAL] ∧
         edit_post uid (NetRule (manual_rule params)) Applying (ex_policy (dc_wired s))
           (AddSystemRule (manual_rule params)) tt s h r s' h')) s h.
Proof.
  unfold net_rule_add. cbv zeta.
  destruct (Z.eqb _ _) eqn:Hp; [unfold fail; wp_step; by left|]. apply Z.eqb_neq in Hp.
  destruct (_ || _) eqn:Ht; [unfold fail; wp_step; by left|].
  apply orb_false_iff in Ht as [Ht0%Z.eqb_neq Ht1%Z.eqb_neq].
  destruct (existsb _ _); [unfold fail; wp_step; by left|].
  do 2 wp_step. destruct (validate_iface_names _) as [[]|e]; simpl; [|by left].
  eapply wp_mono; [|apply (wp_manual_edit uid (NetRule (manual_rule params)) Applying
      (ex_policy (dc_wired s)) (with_policy (call (AddSystemRule (manual_rule params))))
      (AddSystemRule (manual_rule params)) tt)].
  - intros r s' h' Hpost. right. split_and!; [done| |done].
    rewrite !not_elem_of_cons. split_and!; try done. apply not_elem_of_nil.
  - intros s1 h1 Q Hw HQ. by apply (acted_policy s).
  - intros rs h1 Q s' HQ. by apply finish_add.
Qed.

(** The entry without the resources dropped, and no entry when none is left. *)
Definition forgotten (s : DaemonCore) (uid : Z) (keep : OwnedResource → bool) : DaemonCore :=
  match position_of s uid MANUAL_OWNER with
  | None => s
  | Some i =>
    match bfilter keep (manual_resources s uid) with
    | [] => set_entries (delete i) s
    | kept => with_manual s uid (manual_state s uid) kept
    end
  end.

Lemma retain_manual_wp uid keep s h (Q : unit → DaemonCore → history → Prop) :
  Q tt (forgotten s uid keep) h → wp (retain_manual uid keep) Q s h.
Proof.
  unfold retain_manual, forgotten. intros HQ. do 2 wp_step.
  destruct (position_of s uid MANUAL_OWNER) as [i|] eqn:Hp; [|by wp_steps].
  pose proof (manual_at _ _ _ Hp) as He. set (st := manual_state s uid) in *.
  unfold update_entry, entry_at. wp_steps.
  rewrite He. wp_steps. rewrite entries_set. cbv beta.
  rewrite list_lookup_insert_eq by by eapply lookup_lt_Some. wp_steps. simpl.
  destruct (bfilter keep (manual_resources s uid)) eqn:Hk.
  - unfold remove_entry, entry_at. wp_steps. rewrite entries_set. cbv beta.
    rewrite list_lookup_insert_eq by by eapply lookup_lt_Some. wp_steps.
    rewrite set_entries_twice. erewrite set_entries_ext; [exact HQ|]. cbv beta.
    apply list_delete_insert_same.
  - wp_steps. unfold with_manual in HQ. rewrite Hp in HQ.
    erewrite set_entries_ext; [exact HQ|]. cbv beta. f_equal.
    unfold with_resources. simpl. by rewrite Hk.
Qed.

(** How the deletion of an object the daemon marked ends: the kernel is
    asked first, and only then is the override forgotten. *)
Definition deletion_post (uid : Z) (wired : bool) (c : ext (io_result unit))
    (keep : OwnedResource → bool) (s : DaemonCore) (h : history)
    (r : io_result NetEditOutcome) (s' : DaemonCore) (h' : history) : Prop :=
  match r with
  | Ok v => v = Deleted ∧ s' = forgotten s uid keep ∧
            ∃ h2 saved, acted wired c (Ok tt) h h2 ∧ h' = saved_as s' saved :: h2
  | Err err => s' = s ∧ acted wired c (Err err) h h'
  end.

Definition keep_route (route : SystemRoute) (resource : OwnedResource) : bool :=
  match resource with
  | NetRoute installed => negb (same_system_route installed route)
  | _ => true
  end.

(** [net.route.del], on every branch: a route the caller's entries record
    for another owner is refused, an override is removed and forgotten, a
    marked route of no entry of the caller is removed, and a foreign route is
    recorded as a suppression before it is removed. *)
Theorem net_route_del_outcome uid route s h :
  wp (net_route_del uid route)
     (λ r s' h',
        let editable := sr_table route ∉ [RT_TABLE_UNSPEC; RT_TABLE_LOCAL] ∧
                        sr_kind route = "unicast"%string in
        (is_err r = true ∧ s' = s ∧ h' = h ∧
         (editable → sr_managed route = true ∧
            ∃ owner, owner_recording s uid (records_route route) = Some owner ∧
                     owner ≠ MANUAL_OWNER)) ∨
        (editable ∧ sr_managed route = true ∧
         owner_recording s uid (records_route route) = Some MANUAL_OWNER ∧
         deletion_post uid true (RemoveSystemRoute route) (keep_route route) s h r s' h') ∨
        (editable ∧ sr_managed route = true ∧
         owner_recording s uid (records_route route) = None ∧ s' = s ∧
         ∃ ans, h' = Ev (RemoveSystemRoute route) ans :: h ∧ is_ok r = is_ok ans) ∨
        (editable ∧ sr_managed route = false ∧
         edit_post uid (SuppressedRoute route) Applied true (RemoveSystemRoute route)
           Suppressed s h r s' h')) s h.
Proof.
  unfold net_route_del.
  destruct (_ || _) eqn:Ht.
  { unfold fail. wp_step. left. split_and!; [done..|]. intros [Hn _]. exfalso. apply Hn.
    apply orb_true_iff in Ht as [->%Z.eqb_eq| ->%Z.eqb_eq]; set_solver. }
  apply orb_false_iff in Ht as [Ht0%Z.eqb_neq Ht1%Z.eqb_neq].
  destruct (sr_kind route =b "unicast"%string) eqn:Hk; simpl.
  2: { unfold fail. wp_step. left. split_and!; [done..|]. intros [_ Hu].
       by apply bool_decide_eq_false in Hk. }
  apply bool_decide_eq_true in Hk.
  assert (sr_table route ∉ [RT_TABLE_UNSPEC; RT_TABLE_LOCAL]) as Htable by set_solver.
  destruct (sr_managed route) eqn:Hm.
  - unfold net_route_del_owned. do 2 wp_step.
    destruct (owner_recording s uid (records_route route)) as [owner|] eqn:Ho.
    + destruct (owner =b MANUAL_OWNER) eqn:Hown.
      * apply bool_decide_eq_true in Hown as ->. unfold net_route_del_manual. wp_steps.
        destruct a as [[]|err]; [|by right; left]. wp_step. apply retain_manual_wp.
        unfold persist, store_save_journal. wp_steps. right. left. split_and!; [done..|].
        split; [done|]. split; [done|]. by do 2 eexists.
      * apply bool_decide_eq_false in Hown. unfold fail. wp_step. left.
        split_and!; [done..|]. intros _. split; [done|]. by exists owner.
    + wp_steps. destruct a as [[]|err]; wp_steps; right; right; left;
        (split_and!; [done..|]); by eexists.
  - eapply wp_mono; [|apply (wp_manual_edit uid (SuppressedRoute route) Applied true
        (call (RemoveSystemRoute route)) (RemoveSystemRoute route) Suppressed)].
    + intros r s' h' Hpost. do 3 right. by split_and!.
    + intros s1 h1 Q _. apply acted_call.
    + intros rs h1 Q s' HQ. by apply finish_suppress.
Qed.

Definition keep_rule (rule : SystemRule) (resource : OwnedResource) : bool :=
  match resource with NetRule installed => negb (installed =b rule) | _ => true end.

(** [net.rule.del], on every branch. *)
Theorem net_rule_del_outcome uid rule s h :
  wp (net_rule_del uid rule)
     (λ r s' h',
        let editable := ru_priority rule ≠ 0%Z ∧ editable_action (ru_action rule) = true in
        let policy := ex_policy (dc_wired s) in
        (is_err r = true ∧ s' = s ∧ h' = h ∧
         (editable → ru_managed rule = true ∧
            ∃ owner, owner_recording s uid (records_rule rule) = Some owner ∧
                     owner ≠ MANUAL_OWNER)) ∨
        (editable ∧ ru_managed rule = true ∧
         owner_recording s uid (records_rule rule) = Some MANUAL_OWNER ∧
         deletion_post uid policy (RemoveSystemRule rule) (keep_rule rule) s h r s' h') ∨
        (editable ∧ ru_managed rule = true ∧
         owner_recording s uid (records_rule rule) = None ∧
         s' = s ∧
         match r with
         | Ok v => v = Deleted ∧ ∃ h2 saved,
             acted policy (RemoveSystemRule rule) (Ok tt) h h2 ∧ h' = saved_as s saved :: h2
         | Err err => acted policy (RemoveSystemRule rule) (Err err) h h'
         end) ∨
        (editable ∧ ru_managed rule = false ∧
         edit_post uid (SuppressedRule rule) Applied policy (RemoveSystemRule rule)
           Suppressed s h r s' h')) s h.
Proof.
  unfold net_rule_del.
  destruct (Z.eqb _ _) eqn:Hp; [unfold fail; wp_step; left; split_and!; [done..|]|].
  { apply Z.eqb_eq in Hp. by intros [? _]. }
  apply Z.eqb_neq in Hp. destruct (editable_action (ru_action rule)) eqn:Ha; simpl.
  2: { unfold fail. wp_step. left. split_and!; [done..|]. by intros [_ ?]. }
  destruct (ru_managed rule) eqn:Hm.
  - unfold net_rule_del_owned. do 2 wp_step.
    destruct (owner_recording s uid (records_rule rule)) as [owner|] eqn:Ho.
    + destruct (owner =b MANUAL_OWNER) eqn:Hown; cbv beta iota delta [negb].
      * apply bool_decide_eq_true in Hown as ->. wp_step.
        apply (acted_policy s); [done|]. intros [[]|err] h2 Hc.
        2: { right. left. by split_and!. }
        wp_step. apply retain_manual_wp. unfold persist, store_save_journal. wp_steps.
        right. left. split_and!; [done..|]. split; [done|]. split; [done|].
        exists h2, a. by split.
      * apply bool_decide_eq_false in Hown. unfold fail. wp_step. left.
        split_and!; [done..|]. intros _. split; [done|]. by exists owner.
    + wp_step. apply (acted_policy s); [done|]. intros [[]|err] h2 Hc.
      * unfold persist, store_save_journal. wp_steps. right. right. left.
        split_and!; [done..|]. exists h2, a. by split.
      * right. right. left. by split_and!.
  - eapply wp_mono; [|apply (wp_manual_edit uid (SuppressedRule rule) Applied
        (ex_policy (dc_wired s)) (with_policy (call (RemoveSystemRule rule)))
        (RemoveSystemRule rule) Suppressed)].
    + intros r s' h' Hpost. do 3 right. by split_and!.
    + intros s1 h1 Q Hw HQ. by apply (acted_policy s).
    + intros rs h1 Q s' HQ. by apply finish_suppress.
Qed.

(** *** Consequences *)

(** A failed edit leaves the other overrides of the user unattended: the
    [manual] entry stays [applying], which the reconciliation skips. *)
Theorem failed_add_suspends_overrides uid params s h err s' h' observed changed
    (Hs : manual_resources s uid ≠ [])
    (Hrun : net_route_add uid params s h = (Some (Err err), s', h')) (Hs' : ¬ refused s h s' h') :
  reconcile_network_step observed changed (manual_index s uid) s' h' = (Some changed, s', h').
Proof.
  pose proof (wp_run _ _ _ _ _ _ _ (wp_net_route_add uid params s h) Hrun)
    as [[_ Hr]|(index & h0 & _ & _ & Hpost)]; [done|].
  assert (∃ rs, s' = with_manual s uid Applying rs) as [rs ->].
  { unfold edit_post in Hpost. destruct Hpost as [(_ & -> & _)|[[-> _]|[-> _]]]; [by eexists..|].
    destruct (manual_resources s uid) eqn:Hrs; [done|]. by eexists. }
  unfold reconcile_network_step, entry_at, bind, get. cbv beta iota.
  rewrite with_manual_at. reflexivity.
Qed.
End edit.

(** ** Overrides and the kernel's view of them *)

(** A route as a dump reports it: an IPv6 route of metric 0 is stored with
    metric 1024, the only field of the key the kernel rewrites. *)
Definition dumped (r : SystemRoute) : SystemRoute :=
  if (sr_family r =b Ipv6) && (unwrap_or (sr_metric r) 0%Z =b 0%Z)
  then {| sr_family := sr_family r; sr_destination := sr_destination r;
          sr_table := sr_table r; sr_kind := sr_kind r; sr_scope := sr_scope r;
          sr_protocol := sr_protocol r; sr_managed := sr_managed r;
          sr_gateway := sr_gateway r; sr_interface_index := sr_interface_index r;
          sr_interface_name := sr_interface_name r; sr_metric := Some 1024%Z;
          sr_pref_source := sr_pref_source r; sr_nexthops := sr_nexthops r |}
  else r.

Section recognition.
Context `{IpNetLib}.

(** The daemon recognises its own override in a dump exactly when it is
    not an IPv6 one of metric 0 (the default): that one is never found again. *)
Theorem override_recognised params index :
  let route := manual_route params index in
  records_route (dumped route) (NetRoute route)
  = net_is_ipv4 (ra_destination params) || negb (Z.eqb (unwrap_or (ra_metric params) 0%Z) 0).
Proof.
  intros route. unfold records_route, same_system_route, route, dumped.
  assert (sr_family (manual_route params index)
          = if net_is_ipv4 (ra_destination params) then Ipv4 else Ipv6) as Hf.
  { rewrite <- trunc_family. by unfold manual_route, family_of, net_is_ipv4. }
  rewrite Hf. change (unwrap_or (sr_metric (manual_route params index)) 0%Z)
    with (unwrap_or (ra_metric params) 0%Z).
  destruct (net_is_ipv4 _); simpl; [|destruct (unwrap_or _ _ =b 0%Z) eqn:Hm; simpl].
  - rewrite !bool_decide_eq_true_2 by done. done.
  - apply bool_decide_eq_true in Hm. rewrite !Hm. simpl.
    by rewrite !andb_false_r.
  - apply bool_decide_eq_false in Hm. rewrite !bool_decide_eq_true_2 by done. simpl.
    symmetry. apply negb_true_iff. by apply Z.eqb_neq.
Qed.
End recognition.

(** ** Concrete runs *)

Section witnesses.
#[local] Existing Instance ipnet_model.

(** The disk works, the kernel refuses to add and agrees to remove. *)
Definition stubborn_answer {A} (c : ext A) : A :=
  match c in ext A return A with
  | StoreSave _ => Ok tt
  | RemoveSystemRoute _ => Ok tt
  | c => failing_answer c
  end.
#[local] Instance stubborn_env : Env := λ A c _, stubborn_answer c.

Definition override_params (destination : IpNet) : NetRouteAddParams :=
  mkNetRouteAdd destination None None None (Some 7%Z) None None.
Definition v4_override : NetRouteAddParams := override_params (mkNet (ip4 10 1 0 0) 16).
Definition v6_override : NetRouteAddParams :=
  override_params (mkNet (V6 (Z.shiftl 64768 112)) 8).

(** A user with one override applied. *)
Definition override_core (params : NetRouteAddParams) : DaemonCore :=
  core_with (mkJournal 5 [mkEntry 1000 "manual" Applied [NetRoute (manual_route params 7)]]) unwired.

Lemma failed_add_suspends_overrides_witness :
  let s' := with_manual (override_core v6_override) 1000 Applying
              [NetRoute (manual_route v6_override 7)] in
  let h' := (net_route_add 1000 v4_override (override_core v6_override) []).2 in
  reconcile_network_step [] [] 0 s' h' = (Some [], s', h').
Proof.
  intros s' h'.
  apply (failed_add_suspends_overrides 1000 v4_override (override_core v6_override) []
           (err_new Other "failure") s' h' [] []).
  - discriminate.
  - vm_compute. reflexivity.
  - intros [Heq _]. discriminate Heq.
Defined.

(** Deleting the dumped IPv6 override removes it from the kernel and leaves
    it in the journal, from which it will be installed again. *)
Example v6_override_outlives_deletion :
  let route := dumped (manual_route v6_override 7) in
  net_route_del 1000 route (override_core v6_override) []
  = (Some (Ok Deleted), override_core v6_override, [Ev (RemoveSystemRoute route) (Ok tt)]).
Proof. vm_compute. reflexivity. Qed.

(** Only the caller's entries are searched for a managed route: one that
    another user's tunnel holds is removed as an orphan. *)
Example other_users_route_is_removed :
  let route := dumped (manual_route v4_override 7) in
  net_route_del 1001 route (override_core v4_override) []
  = (Some (Ok Deleted), override_core v4_override, [Ev (RemoveSystemRoute route) (Ok tt)]).
Proof. vm_compute. reflexivity. Qed.
End witnesses.
