(* ===== verification/TunnelProps.v ===== *)
(** * What the tunnel operations do

    Handshake supervision over a sequence of status polls, the choice of a
    policy-routing slot, the plan of an OpenVPN push, and the explanation of
    the journal. *)

From S2P Require Export AlwaysOn.

(** ** Handshake supervision *)

(** One poll: the latest handshake, the bytes sent and the time. *)
Record Poll : Type := mkPoll {
  po_handshake : option Z;
  po_tx : Z;
  po_now : Z;
}.

Definition observe (watch : option HandshakeWatch) (p : Poll) : TunnelState * option HandshakeWatch :=
  observe_handshake watch (po_handshake p) (po_tx p) (po_now p).

(** The watch after the polls of [wireguard_status], oldest first. *)
Definition watch_after (polls : list Poll) : option HandshakeWatch :=
  fold_left (λ w p, (observe w p).2) polls None.

(** The handshake of a poll is too old to carry traffic. *)
Definition unusable (p : Poll) : bool :=
  negb (is_some_and (λ handshake,
    Z.leb (saturating_sub (po_now p) handshake) WIREGUARD_REJECT_AFTER_SECS) (po_handshake p)).

(** Since poll [b] no handshake was usable, and poll [j] had sent more. *)
Definition unanswered (polls : list Poll) (b j : Poll) : Prop :=
  ∃ pre mid rest, polls = pre ++ b :: mid ++ j :: rest ∧
    Forall (λ p, unusable p = true) (b :: mid ++ j :: rest) ∧ (po_tx b < po_tx j)%Z.

Definition watch_inv (polls : list Poll) (w : option HandshakeWatch) : Prop :=
  match w with
  | None => True
  | Some w => ∃ pre b tl, polls = pre ++ b :: tl ∧ Forall (λ p, unusable p = true) (b :: tl) ∧
      po_tx b = hw_baseline_tx w ∧
      match hw_sending_since w with
      | None => True
      | Some t => ∃ mid j rest, tl = mid ++ j :: rest ∧ (po_tx b < po_tx j)%Z ∧ po_now j = t
      end
  end.

(** The watch the code compares with, before it notes the time. *)
Definition base_watch (w : option HandshakeWatch) (p : Poll) : HandshakeWatch :=
  match w with
  | Some w => if Z.leb (hw_baseline_tx w) (po_tx p) then w else mkWatch (po_tx p) None
  | None => mkWatch (po_tx p) None
  end.

Lemma observe_unusable w p :
  unusable p = true →
  observe w p =
    let base := base_watch w p in
    let next := if Z.ltb (hw_baseline_tx base) (po_tx p) && is_none (hw_sending_since base)
                then mkWatch (hw_baseline_tx base) (Some (po_now p)) else base in
    (if is_some_and (λ since, Z.leb WIREGUARD_UNANSWERED_SECS (saturating_sub (po_now p) since))
          (hw_sending_since next) then Failed else Running, Some next).
Proof.
  unfold unusable, observe, observe_handshake. rewrite negb_true_iff. intros ->. done.
Qed.

Lemma observe_usable w p : unusable p = false → observe w p = (Running, None).
Proof. unfold unusable, observe, observe_handshake. rewrite negb_false_iff. by intros ->. Qed.

Lemma base_watch_inv polls w p :
  unusable p = true → watch_inv polls w → watch_inv (polls ++ [p]) (Some (base_watch w p)).
Proof.
  intros Hp Hw. assert (watch_inv (polls ++ [p]) (Some (mkWatch (po_tx p) None))) as Hnew.
  { exists polls, p, []. split_and!; [done|by repeat constructor|done|done]. }
  destruct w as [w|]; [|done]. simpl base_watch. destruct (Z.leb_spec (hw_baseline_tx w) (po_tx p)); [|done].
  destruct Hw as (pre & b & tl & -> & Hall & Hb & Hs). exists pre, b, (tl ++ [p]).
  split_and!; [by rewrite <- app_assoc| |done|].
  - rewrite app_comm_cons. apply Forall_app. split; [done|by repeat constructor].
  - destruct (hw_sending_since w); [|done]. destruct Hs as (mid & j & rest & -> & Hj & Ht).
    exists mid, j, (rest ++ [p]). by rewrite <- app_assoc.
Qed.

Lemma observe_inv polls w p : watch_inv polls w → watch_inv (polls ++ [p]) (observe w p).2.
Proof.
  intros Hw. destruct (unusable p) eqn:Hp; [|by rewrite observe_usable].
  rewrite observe_unusable by done. cbv zeta. simpl snd.
  pose proof (base_watch_inv _ _ _ Hp Hw) as Hb. destruct (_ && _) eqn:Hc; [|done].
  apply andb_true_iff in Hc as [Hlt%Z.ltb_lt _].
  destruct Hb as (pre & b & tl & Heq & Hall & Hbase & _).
  exists pre, b, tl. split_and!; [done|done|done|]. simpl.
  destruct tl as [|q tl _] using rev_ind.
  - apply app_inj_tail in Heq as [_ <-]. lia.
  - rewrite app_comm_cons, app_assoc in Heq. apply app_inj_tail in Heq as [_ <-].
    exists tl, p, []. split_and!; [done|lia|done].
Qed.

Lemma watch_after_snoc polls p : watch_after (polls ++ [p]) = (observe (watch_after polls) p).2.
Proof. unfold watch_after. by rewrite fold_left_app. Qed.

Lemma watch_after_inv polls : watch_inv polls (watch_after polls).
Proof.
  induction polls as [|p polls IH] using rev_ind; [done|].
  rewrite watch_after_snoc. by apply observe_inv.
Qed.

(** A WireGuard connection is reported failed only when it is: for at
    least 20 seconds before this poll the daemon saw the tunnel send and no
    handshake young enough to carry traffic. *)
Theorem handshake_failed_sound (polls : list Poll) (p : Poll)
    (Hf : (observe (watch_after polls) p).1 = Failed) :
  ∃ b j, unanswered (polls ++ [p]) b j ∧
    (WIREGUARD_UNANSWERED_SECS ≤ po_now p - po_now j)%Z.
Proof.
  destruct (unusable p) eqn:Hp; [|by rewrite observe_usable in Hf].
  pose proof (observe_inv polls _ p (watch_after_inv polls)) as Hinv.
  rewrite observe_unusable in Hf, Hinv by done. cbv zeta in Hf, Hinv. simpl fst in Hf. simpl snd in Hinv.
  match type of Hinv with watch_inv _ (Some ?n) => set (next := n) in * end.
  destruct (hw_sending_since next) as [t|] eqn:Ht; [|done]. simpl in Hf.
  destruct (Z.leb_spec WIREGUARD_UNANSWERED_SECS (saturating_sub (po_now p) t)) as [Hle|]; [|done].
  destruct Hinv as (pre & b & tl & Heq & Hall & _ & Hs). rewrite Ht in Hs.
  destruct Hs as (mid & j & rest & -> & Hlt & <-). exists b, j. split.
  - by exists pre, mid, rest.
  - unfold saturating_sub, WIREGUARD_UNANSWERED_SECS in *. lia.
Qed.

Lemma handshake_failed_sound_witness :
  let polls := [mkPoll None 0 100; mkPoll None 148 105] in
  ∃ b j, unanswered (polls ++ [mkPoll None 296 125]) b j ∧
    (WIREGUARD_UNANSWERED_SECS ≤ 125 - po_now j)%Z.
Proof.
  exact (handshake_failed_sound [mkPoll None 0 100; mkPoll None 148 105] (mkPoll None 296 125) eq_refl).
Defined.

(** The converse: polls in the order of time, none usable and the counter
    never below its first value; once one of them has sent more than the
    first, every poll 20 seconds later reports the failure. *)
Lemma watch_after_sending b mid j rest :
  Forall (λ p, unusable p = true) (b :: mid ++ j :: rest) →
  Forall (λ p, (po_tx b ≤ po_tx p)%Z) (mid ++ j :: rest) →
  Forall (λ p, (po_now p ≤ po_now j)%Z) mid → (po_tx b < po_tx j)%Z →
  ∃ t, (t ≤ po_now j)%Z ∧ watch_after (b :: mid ++ j :: rest) = Some (mkWatch (po_tx b) (Some t)).
Proof.
  intros Hun Htx Hnow Hlt.
  assert (∀ l, Forall (λ p, unusable p = true) l → Forall (λ p, (po_tx b ≤ po_tx p)%Z) l →
    Forall (λ p, (po_now p ≤ po_now j)%Z) l →
    ∃ s, watch_after (b :: l) = Some (mkWatch (po_tx b) s) ∧
         match s with Some t => (t ≤ po_now j)%Z | None => True end) as Hfirst.
  { apply Forall_cons in Hun as [Hb _].
    intros l. induction l as [|p l IH] using rev_ind; intros Hl Htl Hnl.
    - exists None. unfold watch_after. simpl. rewrite observe_unusable by done. simpl.
      by rewrite Z.ltb_irrefl.
    - apply Forall_app in Hl as [Hl Hp], Htl as [Htl Hpt], Hnl as [Hnl Hpn].
      rewrite Forall_singleton in Hp, Hpt, Hpn. destruct (IH Hl Htl Hnl) as (s & Hs & Hst).
      rewrite app_comm_cons, watch_after_snoc, Hs, observe_unusable by done. cbv zeta. simpl.
      apply Z.leb_le in Hpt. rewrite Hpt. simpl. destruct (Z.ltb_spec (po_tx b) (po_tx p)), s; simpl;
        by eexists. }
  destruct (Hfirst (mid ++ [j])) as (s & Hs & Hst).
  { apply Forall_cons in Hun as [_ Hun]. apply Forall_app in Hun as [? Hun].
    apply Forall_cons in Hun as [? _]. apply Forall_app. by repeat constructor. }
  { apply Forall_app in Htx as [? Htx]. apply Forall_cons in Htx as [? _].
    apply Forall_app. by repeat constructor. }
  { apply Forall_app. split; [done|]. repeat constructor. lia. }
  assert (∃ t, s = Some t) as [t ->].
  { destruct s as [t|]; [by exists t|]. rewrite app_comm_cons, watch_after_snoc in Hs.
    apply Forall_cons in Hun as [_ Hun]. apply Forall_app in Hun as [_ Hun].
    apply Forall_cons in Hun as [Hj _]. rewrite observe_unusable in Hs by done. simpl in Hs.
    destruct (hw_sending_since (base_watch (watch_after (b :: mid)) j)) eqn:Hsn.
    - rewrite andb_false_r in Hs. injection Hs as Hs. by rewrite Hs in Hsn.
    - destruct (Z.ltb_spec (hw_baseline_tx (base_watch (watch_after (b :: mid)) j)) (po_tx j)); [done|].
      simpl in Hs. injection Hs as Hs. rewrite Hs in *. simpl in *. lia. }
  exists t. split; [done|]. clear Hfirst Hnow.
  apply Forall_cons in Hun as [_ Hun]. apply Forall_app in Hun as [_ [_ Hun]%Forall_cons].
  apply Forall_app in Htx as [_ [_ Htx]%Forall_cons].
  induction rest as [|p rest IH] using rev_ind; [done|].
  apply Forall_app in Hun as [Hun Hp], Htx as [Htx Hpt]. rewrite Forall_singleton in Hp, Hpt.
  replace (b :: mid ++ j :: rest ++ [p]) with ((b :: mid ++ j :: rest) ++ [p])
    by (simpl; by rewrite <- app_assoc).
  rewrite watch_after_snoc, (IH Hun Htx), observe_unusable by done. cbv zeta. simpl.
  apply Z.leb_le in Hpt. rewrite Hpt. simpl. by rewrite andb_false_r.
Qed.

(** Polls in the order of time: since poll [b] none shows a
    usable handshake and the counter never falls below its value, and [j]
    shows that more was sent. Then every later poll at least 20 seconds after
    [j] reports the tunnel failed. *)
Theorem handshake_failure_detected (b j p : Poll) (mid rest : list Poll)
    (Hun : Forall (λ p, unusable p = true) (b :: mid ++ j :: rest ++ [p]))
    (Htx : Forall (λ p, (po_tx b ≤ po_tx p)%Z) (mid ++ j :: rest ++ [p]))
    (Hnow : Forall (λ q, (po_now q ≤ po_now j)%Z) mid)
    (Hlt : (po_tx b < po_tx j)%Z)
    (Hlate : (WIREGUARD_UNANSWERED_SECS ≤ po_now p - po_now j)%Z) :
  (observe (watch_after (b :: mid ++ j :: rest)) p).1 = Failed.
Proof.
  assert (∀ (P : Poll → Prop) l1, Forall P (l1 ++ j :: rest ++ [p]) →
    Forall P (l1 ++ j :: rest) ∧ P p) as Hsplit.
  { intros P l1. rewrite app_comm_cons, app_assoc, Forall_app, Forall_singleton. done. }
  rewrite app_comm_cons in Hun. apply Hsplit in Hun as [Hun Hp]. apply Hsplit in Htx as [Htx Hpt].
  destruct (watch_after_sending b mid j rest) as (t & Ht & ->); [done..|].
  rewrite observe_unusable by done. cbv zeta. simpl. apply Z.leb_le in Hpt. rewrite Hpt. simpl.
  rewrite andb_false_r. simpl.
  destruct (Z.leb_spec WIREGUARD_UNANSWERED_SECS (saturating_sub (po_now p) t)); [done|].
  unfold saturating_sub, WIREGUARD_UNANSWERED_SECS in *. lia.
Qed.

Lemma handshake_failure_detected_witness :
  (observe (watch_after [mkPoll None 0 100; mkPoll None 148 105]) (mkPoll None 296 125)).1 = Failed.
Proof.
  apply (handshake_failure_detected (mkPoll None 0 100) (mkPoll None 148 105) (mkPoll None 296 125) [] []);
    [by repeat constructor| |constructor|done|done].
  repeat constructor; simpl; lia.
Defined.

(** ** Policy-routing slots *)

Section slots.
Context `{Env}.

(** No rule, mark, table or resource known uses any number of the slot. *)
Definition slot_free (c : DaemonCore) (existing : list OwnedRuleResource) (wg_marks : list Z)
    (full : WireGuardFullResource) : Prop :=
  wf_fwmark full ∉ wg_marks ∧
  (∀ rule, rule ∈ existing →
     or_fwmark rule ≠ Some (wf_fwmark full) ∧
     or_priority rule ≠ wf_priority_main full ∧ or_priority rule ≠ wf_priority_tunnel full) ∧
  (∀ e r, e ∈ entries c → r ∈ je_resources e → marks_table (wf_table full) r = false).

Lemma existsb_false {A} (p : A → bool) l : existsb p l = false ↔ ∀ x, x ∈ l → p x = false.
Proof.
  induction l as [|y l IH]; simpl; [split; [by intros _ x ?%elem_of_nil|done]|].
  rewrite orb_false_iff, IH. split.
  - intros [Hy Hl] x [->|Hx]%elem_of_cons; auto.
  - intros Hall. split; [apply Hall, list_elem_of_here|].
    intros x Hx. apply Hall. by right.
Qed.

Lemma any_resource_false c p :
  any_resource c p = false ↔ ∀ e r, e ∈ entries c → r ∈ je_resources e → p r = false.
Proof.
  unfold any_resource. rewrite existsb_false. split.
  - intros Hall e r He Hr. specialize (Hall e He). rewrite existsb_false in Hall. by apply Hall.
  - intros Hall e He. rewrite existsb_false. intros r Hr. by apply (Hall e).
Qed.

Lemma slot_taken_free c existing wg_marks plan slot :
  slot_taken c existing wg_marks slot = false →
  slot_free c existing wg_marks (slot_resource plan slot).
Proof.
  unfold slot_taken. cbv zeta. rewrite !orb_false_iff. intros [[Hm Hr] He].
  split_and!.
  - intros Hin. apply vec_contains_spec in Hin. simpl in Hin. congruence.
  - intros rule Hin. rewrite existsb_false in He. specialize (He rule Hin).
    rewrite !orb_false_iff, bool_decide_eq_false, !Z.eqb_neq in He. simpl. tauto.
  - rewrite any_resource_false in Hr. done.
Qed.

(** What a search from slot [k] of the 128 finds. *)
Lemma wp_find_slot c plan existing wg_marks l s h :
  wp (find_slot c plan existing wg_marks l)
     (λ r s' h', s' = s ∧
        match r with
        | Ok full => ∃ slot f, slot ∈ l ∧ full = Some f ∧ f = slot_resource plan slot ∧
            slot_free c existing wg_marks f ∧
            ∃ h0, h' = Ev (TableInUse (wf_table f)) (Ok false) :: h0
        | Err _ => True
        end) s h.
Proof.
  revert h. induction l as [|slot l IH]; intros h; simpl; [done|].
  assert (∀ h, wp (find_slot c plan existing wg_marks l)
     (λ r s' h', s' = s ∧
        match r with
        | Ok full => ∃ slot' f, slot' ∈ slot :: l ∧ full = Some f ∧ f = slot_resource plan slot' ∧
            slot_free c existing wg_marks f ∧
            ∃ h0, h' = Ev (TableInUse (wf_table f)) (Ok false) :: h0
        | Err _ => True
        end) s h) as Hnext.
  { intros h1. eapply wp_mono; [|apply IH]. intros [full|e] s' h' [-> Hr]; [|done].
    split; [done|]. destruct Hr as (slot' & f & Hin & Hrest). exists slot', f.
    split; [by right|done]. }
  destruct (slot_taken c existing wg_marks slot) eqn:Ht; [apply Hnext|].
  wp_steps. destruct a as [[]|e]; [apply Hnext| |done]. apply wp_ret. split; [done|].
  exists slot, (slot_resource plan slot). split_and!; [apply list_elem_of_here|done|done| |by eexists].
  by apply slot_taken_free.
Qed.

Lemma elem_of_slots slot : slot ∈ slots → (0 ≤ slot < 128)%Z.
Proof.
  unfold slots. intros (n & -> & Hn)%list_elem_of_fmap. apply elem_of_seq in Hn. lia.
Qed.

(** A full tunnel gets numbers of its own: whatever the kernel answers,
    an allocation that succeeds returns one of 128 slots, table and mark
    [51820 + slot], rule priorities [10000 + 2 slot] and the next one, that no
    rule of the kernel, no WireGuard device, no table with routes and no
    resource of the journal uses; and only while no other tunnel is full. *)
Theorem allocate_full_fresh plan s h
    (Hw : ex_wg_config (dc_wired s) = true) :
  wp (allocate_full plan)
     (λ r s' h', s' = s ∧
        match r with
        | Ok None => wp_full_ipv4 plan = false ∧ wp_full_ipv6 plan = false ∧ h' = h
        | Ok (Some f) => ∃ slot existing wg_marks h0, (0 ≤ slot < 128)%Z ∧
            f = mkFull (51820 + slot) (51820 + slot) (10000 + slot * 2) (10000 + slot * 2 + 1)
                  (wp_full_ipv4 plan) (wp_full_ipv6 plan) ∧
            slot_free s existing wg_marks f ∧
            (∀ e r, e ∈ entries s → r ∈ je_resources e → owns_full r = false) ∧
            h' = Ev (TableInUse (wf_table f)) (Ok false) :: h0
        | Err _ => True
        end) s h.
Proof.
  unfold allocate_full. destruct (negb (wp_full_ipv4 plan) && negb (wp_full_ipv6 plan)) eqn:Hf.
  { apply andb_true_iff in Hf as [H4%negb_true_iff H6%negb_true_iff]. by apply wp_ret. }
  do 2 wp_step. destruct (any_resource s owns_full) eqn:Hown; [by apply wp_ret|].
  case_match; [by apply wp_ret|]. do 2 wp_step. destruct a as [existing|]; [|done].
  do 2 wp_step. rewrite Hw. change (negb true) with false. cbv iota. do 2 wp_step.
  destruct a as [wg_marks|]; [|done].
  eapply wp_mono; [|apply wp_find_slot]. intros [full|e] s' h' [-> Hr]; [|done]. split; [done|].
  destruct Hr as (slot & f & Hin & -> & -> & Hfree & h0 & ->).
  exists slot, existing, wg_marks, h0. split_and!; try done; [by apply elem_of_slots..|].
  by rewrite any_resource_false in Hown.
Qed.
End slots.

(** ** OpenVPN pushes *)

Lemma push_new_elem {A} `{EqDecision A} (into from : list A) x :
  x ∈ push_new into from ↔ x ∈ into ∨ x ∈ from.
Proof.
  unfold push_new. revert into. induction from as [|y from IH]; intros into; simpl.
  - split; [by left|]. by intros [|?%elem_of_nil].
  - rewrite IH, elem_of_cons. destruct (vec_contains into y) eqn:Hy.
    + apply vec_contains_spec in Hy. split; [tauto|]. by intros [|[->|]]; auto.
    + rewrite elem_of_app, list_elem_of_singleton. tauto.
Qed.

Lemma push_new_nodup {A} `{EqDecision A} (into from : list A) : NoDup into → NoDup (push_new into from).
Proof.
  unfold push_new. revert into. induction from as [|y from IH]; intros into Hnd; simpl; [done|].
  apply IH. destruct (vec_contains into y) eqn:Hy; [done|].
  apply NoDup_app. split_and!; [done| |apply NoDup_singleton].
  intros x Hx ->%list_elem_of_singleton. apply vec_contains_spec in Hx. congruence.
Qed.

Lemma push_routes_prefix routes pushed : ∃ extra, push_routes routes pushed = routes ++ extra.
Proof.
  unfold push_routes. revert routes. induction pushed as [|d pushed IH]; intros routes; simpl.
  { exists []. by rewrite app_nil_r. }
  destruct (existsb _ routes); [apply IH|].
  destruct (IH (routes ++ [mkPolicyRoute d 5 None])) as [extra ->]. eexists. by rewrite <- app_assoc.
Qed.

(** The network plan of an OpenVPN push keeps the user's own routes first
    and bounds what a server can install: at most 8 DNS servers, all distinct,
    at most 16 domains, and domains only with a server. A secondary tunnel
    takes no pushed route and no pushed redirection: its routes are the
    user's. *)
Theorem plan_from_runtime_limits (runtime : OpenVpnRuntime) (plan : OpenVpnNetworkPlan)
    (Hp : plan_from_runtime runtime = Ok plan) :
  (∃ extra, np_routes plan = ov_explicit_routes runtime ++ extra) ∧
  length (np_dns_servers plan) ≤ 8 ∧ NoDup (np_dns_servers plan) ∧
  length (np_dns_domains plan) ≤ 16 ∧
  (np_dns_domains plan ≠ [] → np_dns_servers plan ≠ []) ∧
  (ov_role runtime = Secondary → np_routes plan = ov_explicit_routes runtime ∧
     ∀ d, d ∈ np_dns_domains plan → d ∈ ov_dns_domains runtime).
Proof.
  unfold plan_from_runtime in Hp. cbv zeta in Hp.
  destruct (match ms_active_push (ov_snapshot runtime) with None => _ | Some push => _ end)
    as [[[routes servers] domains] redirect] eqn:Hpush in Hp.
  set (domains' := match servers with [] => _ | _ => _ end) in Hp.
  destruct (Z.ltb_spec 8 (zlen servers)) as [|Hs]; [done|].
  destruct (Z.ltb_spec 16 (zlen domains')) as [|Hd]; [done|]. simpl in Hp.
  destruct (negb (zlen domains' =? 0)%Z && (zlen servers =? 0)%Z) eqn:Hboth; [done|].
  injection Hp as <-. simpl. unfold zlen in *.
  assert ((∃ extra, routes = ov_explicit_routes runtime ++ extra) ∧ NoDup servers ∧
    (ov_role runtime = Secondary → routes = ov_explicit_routes runtime ∧
       ∀ d, d ∈ domains → d ∈ ov_dns_domains runtime)) as (Hr & Hnd & Hsec).
  { destruct (ms_active_push (ov_snapshot runtime)) as [push|]; injection Hpush as <- <- <- <-.
    - split_and!; [apply push_routes_prefix|apply push_new_nodup, NoDup_nil_2|].
      intros ->. rewrite bool_decide_eq_true_2 by done. split; [done|].
      intros d. rewrite push_new_elem. by intros [?%elem_of_nil|].
    - split_and!; [exists []; by rewrite app_nil_r|apply NoDup_nil_2|].
      intros _. split; [done|]. by intros d ?%elem_of_nil. }
  split_and!; [done|lia|done|lia| |].
  - intros Hne ->. destruct domains'; [done|]. simpl in Hboth. done.
  - intros Hrole. destruct (Hsec Hrole) as [-> Hdom]. split; [done|]. intros d Hin.
    apply Hdom. unfold domains' in Hin. rewrite Hrole in Hin.
    destruct servers; [by apply elem_of_nil in Hin|done].
Qed.

Lemma plan_from_runtime_limits_witness :
  let push := mkPushed [mkNet (ip4 10 8 0 0) 16] true [ip4 10 8 0 1; ip4 10 8 0 1] ["corp"%string] [] false in
  let runtime := mkRuntime [mkPolicyRoute (mkNet (ip4 192 168 9 0) 24) 5 None] Secondary ["lan"%string]
                   (mkSnapshot (Some Connected) None 0 0 (Some push) None) in
  ∃ plan, plan_from_runtime runtime = Ok plan ∧ np_routes plan = ov_explicit_routes runtime.
Proof.
  intros push runtime. destruct (plan_from_runtime runtime) as [plan|] eqn:Hp; [|vm_compute in Hp; discriminate].
  exists plan. split; [reflexivity|].
  exact (proj1 (proj2 (proj2 (proj2 (proj2 (proj2 (plan_from_runtime_limits runtime plan Hp))))) eq_refl)).
Defined.

(** ** Explaining changes nothing *)

(** Calls that only ask. *)
Definition query (e : event) : Prop :=
  match e with
  | Ev c _ =>
    match c with
    | NetTables | DefaultGateways | OnLinkNetworks | LinkIndex _ | LinkKind _ => True
    | _ => False
    end
  end.

Definition asked (h h' : history) : Prop := ∃ k, h' = k ++ h ∧ Forall query k.

Lemma asked_refl h : asked h h.
Proof. by exists []. Qed.

Lemma asked_trans h1 h2 h3 : asked h1 h2 → asked h2 h3 → asked h1 h3.
Proof.
  intros (k1 & -> & H1) (k2 & -> & H2). exists (k2 ++ k1). rewrite app_assoc.
  split; [done|]. by apply Forall_app.
Qed.

Lemma asked_one e h : query e → asked h (e :: h).
Proof. intros He. exists [e]. split; [done|]. by constructor. Qed.

Section explain.
Context `{Env} `{IpNetLib}.

Lemma wp_explain_resource owner state resource tables names s h :
  wp (explain_resource owner state resource tables names)
     (λ item s' h', s' = s ∧ asked h h' ∧ ee_owner item = owner ∧ ee_state item = state) s h.
Proof.
  unfold explain_resource. cbv zeta.
  destruct resource; try (apply wp_ret; split_and!; [done|apply asked_refl|done|done]).
  case_match; wp_steps.
  - split; [done|]. split; [by apply asked_one|]. case_match; done.
  - split_and!; [done|by apply asked_one|done|done].
Qed.

(** The owners and states an explanation lists, in order. *)
Definition explained (es : list JournalEntry) : list (string * OwnedState) :=
  concat (map (λ e, map (λ _, (je_owner e, je_state e)) (je_resources e)) es).

Lemma wp_explain_entry owner state tables names resources items s h :
  wp (for_acc resources items (λ items resource,
        let! item := explain_resource owner state resource tables names in
        ret (items ++ [item])))
     (λ items' s' h', s' = s ∧ asked h h' ∧
        map (λ i, (ee_owner i, ee_state i)) items'
        = map (λ i, (ee_owner i, ee_state i)) items ++ map (λ _, (owner, state)) resources) s h.
Proof.
  revert items h. induction resources as [|r rs IH]; intros items h; simpl.
  { apply wp_ret. rewrite app_nil_r. split_and!; [done|apply asked_refl|done]. }
  wp_step. wp_step. eapply wp_mono; [|apply wp_explain_resource].
  intros item s' h' (-> & Ha & Ho & Hs). apply wp_ret.
  eapply wp_mono; [|apply IH]. intros items' s'' h'' (-> & Ha' & ->).
  split_and!; [done|by eapply asked_trans|]. rewrite map_app, <- app_assoc. simpl.
  by rewrite Ho, Hs.
Qed.

(** [net.explain] is an observer: whatever the kernel answers it changes
    neither the core nor the kernel, it only asks; and when the tables can be
    read it reports exactly one line for each resource of the user, in the
    order of the journal, and none of another user. *)
Theorem net_explain_observes uid s h :
  wp (net_explain uid)
     (λ r s' h', s' = s ∧ asked h h' ∧
        ∃ result, r = Ok result ∧
          (er_available result = true →
           map (λ i, (ee_owner i, ee_state i)) (er_entries result)
           = explained (bfilter (λ e, Z.eqb (je_uid e) uid) (entries s)))) s h.
Proof.
  unfold net_explain. do 2 wp_step. destruct a as [tables|err].
  2: { apply wp_ret. split_and!; [done|by apply asked_one|]. by eexists. }
  cbv zeta. do 2 wp_step. wp_step.
  assert (∀ es items h1,
    wp (for_acc es items (λ items entry,
      if negb (Z.eqb (je_uid entry) uid) then ret items
      else for_acc (je_resources entry) items (λ items resource,
             let! item := explain_resource (je_owner entry) (je_state entry) resource
                            tables (route_names tables) in
             ret (items ++ [item]))))
      (λ items' s' h', s' = s ∧ asked h1 h' ∧
        map (λ i, (ee_owner i, ee_state i)) items'
        = map (λ i, (ee_owner i, ee_state i)) items
          ++ explained (bfilter (λ e, Z.eqb (je_uid e) uid) es)) s h1) as Hloop.
  { induction es as [|e es IH]; intros items h1; simpl.
    { apply wp_ret. rewrite app_nil_r. split_and!; [done|apply asked_refl|done]. }
    wp_step. destruct (Z.eqb (je_uid e) uid); simpl.
    - eapply wp_mono; [|apply wp_explain_entry]. intros items' s' h' (-> & Ha & Hi).
      eapply wp_mono; [|apply IH]. intros items'' s'' h'' (-> & Ha' & ->).
      split_and!; [done|by eapply asked_trans|]. rewrite Hi, <- app_assoc. done.
    - apply wp_ret, IH. }
  eapply wp_mono; [|apply Hloop]. intros items s' h' (-> & Ha & Hi). apply wp_ret.
  split_and!; [done|eapply asked_trans; [|exact Ha]; by apply asked_one|]. eexists. by split.
Qed.
End explain.

(** ** Witnesses *)

Section witnesses.
(** A kernel with no rules, one WireGuard mark and no table in use. *)
#[local] Instance slots_env : Env := λ A c _,
  match c in ext A return A → A with
  | RulesSnapshot => λ _, Ok []
  | WgMarksInUse => λ _, Ok [51820%Z]
  | TableInUse _ => λ _, Ok false
  | _ => λ d, d
  end (failing_answer c).

Definition full_plan : WireGuardPlan := mkWgPlan "" [] [] [] None [] true false [] None.
Definition wired_core : DaemonCore :=
  core_with journal_default (mkExecutors true true false false false true false false None).

(** The first slot is taken by the mark of another device. *)
Lemma allocate_full_fresh_witness :
  (allocate_full full_plan wired_core []).1.1
  = Some (Ok (Some (mkFull 51821 51821 10002 10003 true false))) ∧
  wp (allocate_full full_plan) (λ r s' _, s' = wired_core ∧
    ∀ f, r = Ok (Some f) → ∃ existing wg_marks, slot_free wired_core existing wg_marks f)
    wired_core [].
Proof.
  split; [vm_compute; reflexivity|].
  eapply wp_mono; [|exact (allocate_full_fresh full_plan wired_core [] eq_refl)].
  intros r s' h' [-> Hr]. split; [reflexivity|]. intros f ->.
  destruct Hr as (slot & existing & wg_marks & h0 & _ & _ & Hfree & _). by exists existing, wg_marks.
Defined.
End witnesses.
