(* ===== verification/Failover.v ===== *)
(** * Failover supervision ([crates/daemon/src/failover.rs])

    The verdicts a worker keeps on its candidates, the tag its balancer must
    select, and one round of the worker, with the [xray api bo] subprocess it
    runs in it. The HTTP probes and the outcome of the subprocess are the
    round's arguments. *)

From S2P Require Export RustStr Types.

Definition STREAK_REQUIRED : Z := 2.

Record ProbeSample : Type := mkSample { ps_healthy : bool; ps_latency_ms : option Z }.

Record TrackedNode : Type := mkTracked {
  tn_key : string;
  tn_probe_port : Z;
  tn_committed : option bool;
  tn_streak : Z;
  tn_last_probe_unix : option Z;
  tn_latency_ms : option Z;
}.

Definition tracked_new (probe_port_of : nat → Z) (index : nat) (key : string) : TrackedNode :=
  mkTracked key (probe_port_of index) None 0 None None.

(** [TrackedNode::observe] at the time [now]. *)
Definition observe_sample (now : Z) (sample : ProbeSample) (node : TrackedNode) : TrackedNode :=
  let healthy := ps_healthy sample in
  let '(committed, streak) :=
    match tn_committed node with
    | None => (Some healthy, tn_streak node)
    | Some committed =>
      if Bool.eqb committed healthy then (Some committed, 0%Z)
      else
        let streak := (tn_streak node + if healthy then 1 else -1)%Z in
        if Z.leb STREAK_REQUIRED (Z.abs streak) then (Some healthy, 0%Z)
        else (Some committed, streak)
    end in
  mkTracked (tn_key node) (tn_probe_port node) committed streak (Some now) (ps_latency_ms sample).

Definition health (node : TrackedNode) : NodeHealth :=
  mkNodeHealth (tn_key node) (tn_committed node) (tn_last_probe_unix node) (tn_latency_ms node).

Inductive OutboundKind : Type := KindNode | KindPin.

Definition kind_prefix (kind : OutboundKind) : string :=
  match kind with KindNode => "node-" | KindPin => "pin-" end.

Definition kind_tag (kind : OutboundKind) (key : string) : string := kind_prefix kind +:+ key.

(** Without auto-return a running backup that is healthy stays selected. *)
Definition kept_backup (candidates : list string) (healthy : list (option bool))
    (current : option string) (kind : OutboundKind) : option string :=
  match current with
  | None => None
  | Some current =>
    match position (λ key, strip_prefix current (kind_prefix kind) =b Some key) candidates with
    | Some index =>
      if (healthy !! index =b Some (Some true)) && Nat.ltb 0 index then Some current else None
    | None => None
    end
  end.

Definition select_tag (candidates : list string) (healthy : list (option bool))
    (current : option string) (auto_return : bool) (kind : OutboundKind) : string :=
  match (if auto_return then None else kept_backup candidates healthy current kind) with
  | Some current => current
  | None =>
    match List.find (λ '(_, h), h =b Some true) (zip candidates healthy) with
    | Some (key, _) => kind_tag kind key
    | None => UNAVAILABLE_TAG
    end
  end.

(** The worker's variables that live across rounds. *)
Record Failover : Type := mkFailover {
  fo_nodes : list TrackedNode;
  fo_applied : option string;
  fo_status : FailoverStatus;
}.

(** [FailoverSupervisor::spawn] *)
Definition failover_spawn (params : XrayFailoverParams) (probe_port_of : nat → Z) : Failover :=
  let nodes := imap (λ index node, tracked_new probe_port_of index (fn_key node))
                 (fp_nodes params) in
  mkFailover nodes None
    (mkFailoverStatus (fp_primary_key params) UNAVAILABLE_TAG (fp_auto_return_primary params) false
       (map health nodes)).

(** One round of [run], which is not stopped: every node probed in order, each
    at its time, the balancer told of the wanted tag when that is not the
    applied one, the report published. [override_ok] is the outcome of the
    subprocess for a tag; the second result is the tag the subprocess was run
    for and its outcome. *)
Definition failover_round (params : XrayFailoverParams) (kind : OutboundKind)
    (samples : nat → Z * ProbeSample) (override_ok : string → bool) (w : Failover)
    : Failover * option (string * bool) :=
  let nodes := imap (λ i node, observe_sample (samples i).1 (samples i).2 node) (fo_nodes w) in
  let keys := map tn_key nodes in
  let wanted := select_tag keys (map tn_committed nodes) (fo_applied w)
                  (fp_auto_return_primary params) kind in
  let changed := negb (fo_applied w =b Some wanted) in
  let sent := if changed then Some (wanted, override_ok wanted) else None in
  let applied := match sent with Some (tag, true) => Some tag | _ => fo_applied w end in
  let primary_tag := kind_tag kind (fp_primary_key params) in
  (mkFailover nodes applied
    (mkFailoverStatus (fp_primary_key params)
       (match applied with
        | Some tag => unwrap_or (strip_prefix tag (kind_prefix kind)) tag
        | None => UNAVAILABLE_TAG
        end)
       (fp_auto_return_primary params)
       (is_some_and (λ tag, negb (tag =b UNAVAILABLE_TAG) && negb (tag =b primary_tag)) applied)
       (map health nodes)), sent).

(** ** Verdicts *)

(** The last value that was observed twice in a row, the first otherwise. *)
Fixpoint last_agreed (verdict prev : bool) (samples : list bool) : bool :=
  match samples with
  | [] => verdict
  | s :: rest => last_agreed (if Bool.eqb prev s then s else verdict) s rest
  end.

Definition observe_all (node : TrackedNode) (samples : list (Z * ProbeSample)) : TrackedNode :=
  foldl (λ node '(now, sample), observe_sample now sample node) node samples.

(** The streak says what the last sample was, against the verdict. *)
Definition streak_inv (node : TrackedNode) (verdict prev : bool) : Prop :=
  tn_committed node = Some verdict ∧
  tn_streak node = (if Bool.eqb verdict prev then 0 else if prev then 1 else -1)%Z.

Lemma observe_sample_inv now sample node verdict prev :
  streak_inv node verdict prev →
  streak_inv (observe_sample now sample node)
    (if Bool.eqb prev (ps_healthy sample) then ps_healthy sample else verdict) (ps_healthy sample).
Proof.
  intros [Hc Hs]. unfold observe_sample, streak_inv. rewrite Hc, Hs.
  by destruct verdict, prev, (ps_healthy sample).
Qed.

Lemma observe_all_inv samples : ∀ node verdict prev,
  streak_inv node verdict prev →
  ∃ last, streak_inv (observe_all node samples)
            (last_agreed verdict prev (map (λ s, ps_healthy s.2) samples)) last.
Proof.
  induction samples as [|[now sample] samples IH]; intros node verdict prev Hi; [by exists prev|].
  simpl. eapply IH. by apply observe_sample_inv.
Qed.

(** A verdict is the first sample, and afterwards flips only on two
    consecutive samples that disagree with it: it is always the last value
    observed twice in a row, or the first one when there is none; and the
    streak never leaves [-1, 1]. *)
Theorem verdict_hysteresis probe_port_of index key now sample samples :
  let node := observe_all (tracked_new probe_port_of index key) ((now, sample) :: samples) in
  tn_committed node
  = Some (last_agreed (ps_healthy sample) (ps_healthy sample)
            (map (λ s, ps_healthy s.2) samples)) ∧
  (-1 ≤ tn_streak node ≤ 1)%Z.
Proof.
  intros node. unfold node, observe_all. simpl.
  destruct (observe_all_inv samples (observe_sample now sample (tracked_new probe_port_of index key))
              (ps_healthy sample) (ps_healthy sample)) as (last & Hc & Hs).
  { unfold streak_inv, observe_sample, tracked_new. simpl. by rewrite eqb_reflx. }
  unfold observe_all in Hc, Hs. rewrite Hc, Hs. split; [done|].
  repeat case_match; lia.
Qed.

(** ** The balancer's tag *)

Definition is_healthy (healthy : list (option bool)) (i : nat) : Prop :=
  healthy !! i = Some (Some true).

(** [List.find] on candidates and verdicts: the first healthy one. *)
Lemma find_healthy (candidates : list string) : ∀ healthy, length candidates = length healthy →
  match List.find (λ '(_, h), h =b Some true) (zip candidates healthy) with
  | Some (key, _) => ∃ i : nat, candidates !! i = Some key ∧ is_healthy healthy i ∧
      ∀ j, j < i → ¬ is_healthy healthy j
  | None => ∀ i, ¬ is_healthy healthy i
  end.
Proof.
  induction candidates as [|c candidates IH]; intros [|h healthy] Hlen; try done; simpl in *.
  injection Hlen as Hlen. destruct (h =b Some true) eqn:Hh.
  - apply bool_decide_eq_true in Hh as ->. exists 0. split_and!; [done..|]. lia.
  - apply bool_decide_eq_false in Hh. specialize (IH healthy Hlen).
    destruct (List.find _ _) as [[key h']|].
    + destruct IH as (i & Hi & Hhi & Hmin). exists (S i). split_and!; [done..|].
      intros [|j] Hj; unfold is_healthy; simpl; [congruence|apply Hmin; lia].
    + intros [|i]; unfold is_healthy; simpl; [congruence|apply IH].
Qed.

Lemma kept_backup_spec (candidates : list string) healthy current kind t :
  kept_backup candidates healthy current kind = Some t →
  current = Some t ∧ ∃ (i : nat) key, candidates !! i = Some key ∧ is_healthy healthy i ∧ 0 < i ∧
    t = kind_tag kind key.
Proof.
  unfold kept_backup. destruct current as [current|]; [|done].
  destruct (position _ candidates) as [i|] eqn:Hp; [|done].
  destruct (_ && _) eqn:Hb; [|done]. intros [= ->].
  apply andb_true_iff in Hb as [Hh Hi]. apply bool_decide_eq_true in Hh.
  apply Nat.ltb_lt in Hi. apply position_Some in Hp as [(key & Hk & Hs) _].
  apply bool_decide_eq_true, strip_prefix_spec in Hs. split; [done|].
  by exists i, key.
Qed.

(** What the selection returns. *)
Definition selected (candidates : list string) (healthy : list (option bool))
    (current : option string) (auto_return : bool) (kind : OutboundKind) (t : string) : Prop :=
  (t = UNAVAILABLE_TAG ∧ ∀ i, ¬ is_healthy healthy i) ∨
  (∃ (i : nat) key, candidates !! i = Some key ∧ is_healthy healthy i ∧ t = kind_tag kind key ∧
     ((∀ j, j < i → ¬ is_healthy healthy j) ∨
      (auto_return = false ∧ 0 < i ∧ current = Some t))).

Lemma select_tag_selected candidates healthy current auto_return kind :
  length candidates = length healthy →
  selected candidates healthy current auto_return kind
    (select_tag candidates healthy current auto_return kind).
Proof.
  intros Hlen. unfold select_tag, selected.
  destruct (if auto_return then None else kept_backup candidates healthy current kind)
    as [t|] eqn:Hkept.
  - destruct auto_return; [done|].
    apply kept_backup_spec in Hkept as (-> & i & key & Hc & Hh & Hi & ->).
    right. exists i, key. split_and!; [done..|]. by right.
  - pose proof (find_healthy candidates healthy Hlen) as Hfind.
    destruct (List.find _ _) as [[key h]|]; [|by left].
    destruct Hfind as (i & Hc & Hh & Hmin). right. exists i, key. split_and!; [done..|]. by left.
Qed.

(** The tag is [unavailable] exactly when no candidate is healthy;
    otherwise it is a healthy candidate's, the first one, or without
    auto-return the backup that is already selected. *)
Theorem select_tag_spec (candidates : list string) healthy current auto_return kind
    (Hlen : length candidates = length healthy) :
  selected candidates healthy current auto_return kind
    (select_tag candidates healthy current auto_return kind).
Proof. by apply select_tag_selected. Qed.

Lemma select_tag_spec_witness :
  select_tag ["de"; "nl"]%string [Some false; Some true] None true KindNode = "node-nl"%string ∧
  ∃ (i : nat) key, ["de"; "nl"]%string !! i = Some key ∧ is_healthy [Some false; Some true] i ∧
    "node-nl"%string = kind_tag KindNode key.
Proof.
  split; [reflexivity|].
  destruct (select_tag_spec ["de"; "nl"]%string [Some false; Some true] None true KindNode eq_refl)
    as [[H _]|(i & key & Hc & Hh & Ht & _)]; [discriminate H|].
  exists i, key. split; [exact Hc|]. split; [exact Hh|]. exact Ht.
Defined.

(** ** Rounds *)

Record Round : Type := mkRound {
  rd_samples : nat → Z * ProbeSample;
  rd_override_ok : string → bool;
}.

(** Rounds one after the other, and the subprocesses run in them. *)
Definition failover_rounds (params : XrayFailoverParams) (kind : OutboundKind)
    (rounds : list Round) (w : Failover) : Failover * list (string * bool) :=
  foldl (λ '(w, sent) r,
    let '(w', o) := failover_round params kind (rd_samples r) (rd_override_ok r) w in
    (w', sent ++ option_list o)) (w, []) rounds.

(** What the balancer was last told with success. *)
Definition last_told (sent : list (string * bool)) : option string :=
  foldl (λ told '(tag, done), if done : bool then Some tag else told) None sent.

(** The verdict on a candidate: the last value probed twice in a row, the
    first one when there is none. *)
Definition agreed (samples : list bool) : option bool :=
  match samples with
  | [] => None
  | first :: rest => Some (last_agreed first first rest)
  end.

Definition candidates (params : XrayFailoverParams) : list string := map fn_key (fp_nodes params).

Definition verdicts (params : XrayFailoverParams) (rounds : list Round) : list (option bool) :=
  imap (λ i _, agreed (map (λ r, ps_healthy (rd_samples r i).2) rounds)) (fp_nodes params).

(** What the report says of the tag in use. *)
Definition reported (params : XrayFailoverParams) (kind : OutboundKind) (applied : option string)
    (status : FailoverStatus) : Prop :=
  match applied with
  | None => fs_active_key status = UNAVAILABLE_TAG ∧ fs_failover_active status = false
  | Some tag =>
    (tag = UNAVAILABLE_TAG ∧ fs_active_key status = UNAVAILABLE_TAG ∧
     fs_failover_active status = false) ∨
    ∃ key, key ∈ candidates params ∧ tag = kind_tag kind key ∧ fs_active_key status = key ∧
      fs_failover_active status = negb (key =b fp_primary_key params)
  end.

Lemma kind_tag_available kind key : kind_tag kind key ≠ UNAVAILABLE_TAG.
Proof. by destruct kind. Qed.

Lemma kind_tag_inj kind key key' : kind_tag kind key = kind_tag kind key' → key = key'.
Proof. apply app_inj_l. Qed.

Section worker.
Context (params : XrayFailoverParams) (kind : OutboundKind) (probe_port_of : nat → Z).

(** The nodes after those rounds, each with its own samples. *)
Definition nodes_after (rounds : list Round) : list TrackedNode :=
  imap (λ i node, observe_all (tracked_new probe_port_of i (fn_key node))
                    (map (λ r, rd_samples r i) rounds)) (fp_nodes params).

Lemma observe_all_key samples : ∀ node, tn_key (observe_all node samples) = tn_key node.
Proof.
  induction samples as [|[now sample] samples IH]; intros node; [done|]. simpl. unfold observe_all in IH.
  rewrite IH. unfold observe_sample. by repeat case_match.
Qed.

Lemma observe_all_snoc node samples now sample :
  observe_all node (samples ++ [(now, sample)]) = observe_sample now sample (observe_all node samples).
Proof. unfold observe_all. by rewrite foldl_app. Qed.

Lemma observe_all_verdict index key samples :
  tn_committed (observe_all (tracked_new probe_port_of index key) samples)
  = agreed (map (λ s, ps_healthy s.2) samples).
Proof.
  destruct samples as [|[now sample] samples]; [done|].
  destruct (observe_all_inv samples (observe_sample now sample (tracked_new probe_port_of index key))
              (ps_healthy sample) (ps_healthy sample)) as (last & Hc & _); [|exact Hc].
  unfold streak_inv, observe_sample, tracked_new. simpl. by rewrite eqb_reflx.
Qed.

Lemma nodes_after_keys rounds : map tn_key (nodes_after rounds) = candidates params.
Proof.
  apply list_eq. intros i. unfold nodes_after, candidates. rewrite !list_lookup_fmap, list_lookup_imap.
  destruct (fp_nodes params !! i); [|done]. simpl. by rewrite observe_all_key.
Qed.

Lemma nodes_after_verdicts rounds : map tn_committed (nodes_after rounds) = verdicts params rounds.
Proof.
  apply list_eq. intros i. unfold nodes_after, verdicts. rewrite list_lookup_fmap, !list_lookup_imap.
  destruct (fp_nodes params !! i); [|done]. simpl. by rewrite observe_all_verdict, map_map.
Qed.

Lemma nodes_after_snoc rounds r :
  imap (λ i node, observe_sample (rd_samples r i).1 (rd_samples r i).2 node) (nodes_after rounds)
  = nodes_after (rounds ++ [r]).
Proof.
  apply list_eq. intros i. unfold nodes_after. rewrite !list_lookup_imap.
  destruct (fp_nodes params !! i); [|done]. simpl. rewrite map_app. simpl.
  destruct (rd_samples r i) as [now sample]. by rewrite observe_all_snoc.
Qed.

Lemma last_told_app sent o :
  last_told (sent ++ option_list o) =
  match o with Some (tag, true) => Some tag | _ => last_told sent end.
Proof. unfold last_told. rewrite foldl_app. by destruct o as [[tag []]|]. Qed.

(** What a worker holds after its rounds. *)
Definition holds_after (rounds : list Round) (w : Failover) (sent : list (string * bool)) : Prop :=
  fo_nodes w = nodes_after rounds ∧ fo_applied w = last_told sent ∧
  (∀ tag, fo_applied w = Some tag →
     tag = UNAVAILABLE_TAG ∨ ∃ key, key ∈ candidates params ∧ tag = kind_tag kind key).

Lemma wanted_selected rounds r w sent :
  holds_after rounds w sent →
  selected (candidates params) (verdicts params (rounds ++ [r])) (fo_applied w)
    (fp_auto_return_primary params) kind
    (let nodes := imap (λ i node, observe_sample (rd_samples r i).1 (rd_samples r i).2 node) (fo_nodes w) in
     select_tag (map tn_key nodes) (map tn_committed nodes) (fo_applied w)
       (fp_auto_return_primary params) kind).
Proof.
  intros (Hn & _). cbv zeta. rewrite Hn, nodes_after_snoc, nodes_after_keys, nodes_after_verdicts.
  apply select_tag_selected. unfold candidates, verdicts. by rewrite length_map, length_imap.
Qed.

Lemma selected_shape cands healthy current auto_return tag :
  selected cands healthy current auto_return kind tag →
  tag = UNAVAILABLE_TAG ∨ ∃ key, key ∈ cands ∧ tag = kind_tag kind key.
Proof.
  intros [[-> _]|(i & key & Hk & _ & -> & _)]; [by left|right]. exists key. split; [|done].
  by eapply list_elem_of_lookup_2.
Qed.

Lemma round_holds rounds r w sent :
  holds_after rounds w sent →
  let '(w', o) := failover_round params kind (rd_samples r) (rd_override_ok r) w in
  holds_after (rounds ++ [r]) w' (sent ++ option_list o).
Proof.
  intros Hh. pose proof (wanted_selected rounds r w sent Hh) as Hsel. destruct Hh as (Hn & Ha & Hs).
  unfold failover_round. cbv zeta in *. set (wanted := select_tag _ _ _ _ _) in *.
  set (o := if negb _ then _ else _). split_and!; simpl.
  - by rewrite Hn, nodes_after_snoc.
  - rewrite last_told_app, <- Ha. done.
  - intros tag Htag. unfold o in Htag. destruct (negb _); [|by apply Hs].
    destruct (rd_override_ok r wanted); [|by apply Hs]. injection Htag as <-. by eapply selected_shape.
Qed.

Lemma rounds_hold rounds :
  let '(w, sent) := failover_rounds params kind rounds (failover_spawn params probe_port_of) in
  holds_after rounds w sent.
Proof.
  unfold failover_rounds. induction rounds as [|r rounds IH] using rev_ind.
  - split_and!; [|done..]. unfold nodes_after. simpl. by apply imap_ext.
  - rewrite foldl_app. simpl. destruct (foldl _ _ rounds) as [w sent]. apply round_holds, IH.
Qed.

(** C12. A round of a worker, from its spawn on and whatever the probes and
    the subprocess answer. Its verdict on each candidate is what the
    candidate's own probes last agreed on twice in a row. The tag it holds for
    the balancer's is the one of the last subprocess that succeeded, that of
    this round included. The subprocess is run when the tag these verdicts
    select is another one, and for that tag: the first healthy candidate's,
    without auto-return the healthy backup's in use, and [unavailable] when no
    candidate is healthy; it is not run when the balancer has that tag
    already. And the status names the tag in use and says [failover_active]
    exactly for a candidate other than the primary. *)
Theorem failover_points_to_candidates rounds r :
  let '(w, sent) := failover_rounds params kind rounds (failover_spawn params probe_port_of) in
  let '(w', o) := failover_round params kind (rd_samples r) (rd_override_ok r) w in
  let healthy := verdicts params (rounds ++ [r]) in
  let right_tag := selected (candidates params) healthy (fo_applied w)
                     (fp_auto_return_primary params) kind in
  map tn_key (fo_nodes w') = candidates params ∧ map tn_committed (fo_nodes w') = healthy ∧
  fo_applied w' = last_told (sent ++ option_list o) ∧
  match o with
  | Some (tag, succeeded) => right_tag tag ∧ last_told sent ≠ Some tag ∧ succeeded = rd_override_ok r tag
  | None => ∃ tag, right_tag tag ∧ last_told sent = Some tag
  end ∧
  reported params kind (fo_applied w') (fo_status w').
Proof.
  pose proof (rounds_hold rounds) as Hh. destruct (failover_rounds _ _ _ _) as [w sent].
  pose proof (round_holds rounds r w sent Hh) as Hh'. pose proof (wanted_selected rounds r w sent Hh) as Hsel.
  destruct Hh as (_ & Ha & _). unfold failover_round in *. cbv zeta in *.
  set (wanted := select_tag _ _ _ _ _) in *. set (o := if negb _ then _ else _) in *.
  destruct Hh' as (Hn' & Ha' & Hs'). cbn [fo_nodes fo_applied fo_status] in *. split_and!.
  - by rewrite Hn', nodes_after_keys.
  - by rewrite Hn', nodes_after_verdicts.
  - done.
  - unfold o. destruct (fo_applied w =b Some wanted) eqn:Heq; cbn [negb].
    + apply bool_decide_eq_true in Heq. exists wanted. by rewrite <- Ha.
    + apply bool_decide_eq_false in Heq. by rewrite <- Ha.
  - unfold reported. set (applied := match o with Some _ => _ | None => _ end) in *.
    destruct applied as [tag|]; [|done]. destruct (Hs' tag eq_refl) as [->|(key & Hk & ->)].
    + left. by destruct kind.
    + right. exists key. cbn [fs_active_key fs_failover_active is_some_and]. split_and!; [done|done| |].
      * unfold kind_tag. by rewrite strip_prefix_app.
      * rewrite (bool_decide_eq_false_2 _ (kind_tag_available kind key)). simpl. f_equal.
        apply bool_decide_ext. split; [apply kind_tag_inj|by intros ->].
Qed.
End worker.
