(* ===== verification/Watchdog.v ===== *)
(** * The tunnel watchdog ([crates/daemon/src/watchdog.rs], [egress.rs])

    The state the worker keeps ([EgressTracker], [RecoveryState]) and the
    worker, the daemon core and the link listener as one step relation over
    the state they share, at the granularity of the locks. Probes and samples
    are the labels' arguments; an [Instant] is a number of milliseconds. *)

From S2P Require Export Types.

(** ** Constants *)

Definition PROBE_INTERVAL : Z := 5000.
Definition EGRESS_INTERVAL : Z := 2000.
Definition SETTLE_DELAY : Z := 12000.
Definition STALL_COOLDOWN : Z := 600000.
Definition EGRESS_COOLDOWN : Z := 60000.
Definition ONLINE_AGE : Z := 30000.
Definition STALL_LIMIT : Z := 3.
Definition UDP_LIMIT : Z := 2000.
Definition u32_max : Z := 4294967295.

(** ** [EgressTracker], over signatures of any kind with equality *)

Section egress.
Context {Signature : Type} `{EqDecision Signature}.

Record EgressSample : Type := mkEgressSample {
  es_signature : option Signature;
  es_interrupted : bool;
}.

Inductive EgressEvent : Type := EvStable | EvChanged | EvFlap | EvLost | EvOnline.

Record EgressTracker : Type := mkTracker { et_last : option Signature; et_offline : bool }.

Definition tracker_new : EgressTracker := mkTracker None false.

Definition tracker_observe (sample : EgressSample) (self : EgressTracker)
    : EgressEvent * EgressTracker :=
  match es_signature sample with
  | None =>
    (if is_some (et_last self) && negb (et_offline self) then EvLost else EvStable,
     mkTracker (et_last self) true)
  | Some now =>
    (match et_last self with
     | None => EvOnline
     | Some last =>
       if negb (last =b now) then EvChanged
       else if et_offline self || es_interrupted sample then EvFlap
       else EvStable
     end, mkTracker (Some now) false)
  end.
End egress.
Arguments EgressSample : clear implicits.
Arguments EgressTracker : clear implicits.

(** ** [RecoveryState] *)

Inductive RecoveryReason : Type := Egress | HttpsStall | UdpLeak.
Inductive ProbeOutcome : Type := Skipped | Healthy (latency : Z) | Stalled.

#[export] Instance RecoveryReason_eq_dec : EqDecision RecoveryReason.
Proof. solve_decision. Defined.

Record SocketReport : Type := mkSocketReport {
  so_udp_sockets : Z;
  so_storm : option ConnStorm;
}.

Record RecoveryState : Type := mkRecovery {
  rs_status : WatchdogStatus;
  rs_probe_after : Z;
  rs_pending_egress : bool;
  rs_pending_stall : option RecoveryReason;
  rs_last_egress_attempt : option Z;
  rs_last_egress_change : option Z;
  rs_last_stall_attempt : option Z;
  rs_stall_before_request : option Z;
  rs_resources_unavailable : bool;
}.

Definition recovery_new (now : Z) : RecoveryState :=
  mkRecovery status_default (now + SETTLE_DELAY) false None None None None None false.

(** [Instant::duration_since] is zero for a later instant. *)
Definition duration_since (now earlier : Z) : Z := Z.max 0 (now - earlier).

(** [attempt.is_none_or(|last| now.duration_since(last) >= cooldown)] *)
Definition cooled (cooldown now : Z) (attempt : option Z) : bool :=
  is_none_or (λ last, Z.leb cooldown (duration_since now last)) attempt.

Definition u32_saturating_succ (z : Z) : Z := Z.min u32_max (z + 1).

(** [RecoveryState::egress]; [signature] is the signature's [fingerprint],
    a hash of the standard library. *)
Definition recovery_egress (event : EgressEvent) (signature : option string) (now unix : Z)
    (self : RecoveryState) : RecoveryState :=
  let st := rs_status self in
  match event with
  | EvChanged | EvFlap =>
    mkRecovery
      (mkWatchdogStatus (Some (is_some signature)) signature 0 None 0 (wa_udp_sockets st)
         (wa_conn_storm st) (Some unix) (wa_last_recovery_unix st) (wa_anomalies st))
      (now + SETTLE_DELAY) true (rs_pending_stall self) (rs_last_egress_attempt self) (Some now)
      (rs_last_stall_attempt self) (rs_stall_before_request self) (rs_resources_unavailable self)
  | _ =>
    mkRecovery
      (mkWatchdogStatus (Some (is_some signature)) signature (wa_https_stall_streak st)
         (wa_https_latency_ms st)
         (wa_dns_stall_streak st) (wa_udp_sockets st) (wa_conn_storm st)
         (wa_last_egress_change_unix st) (wa_last_recovery_unix st) (wa_anomalies st))
      (rs_probe_after self) (rs_pending_egress self) (rs_pending_stall self)
      (rs_last_egress_attempt self) (rs_last_egress_change self) (rs_last_stall_attempt self)
      (rs_stall_before_request self) (rs_resources_unavailable self)
  end.

(** [RecoveryState::observe] *)
Definition recovery_observe (https dns : ProbeOutcome) (node_reachable : bool)
    (resources : option SocketReport) (self : RecoveryState) : RecoveryState :=
  let st := rs_status self in
  let '(streak, latency, stall) :=
    match https with
    | Healthy latency => (0%Z, Some latency, None)
    | Stalled =>
      let streak := u32_saturating_succ (wa_https_stall_streak st) in
      (streak, None, if Z.leb STALL_LIMIT streak && node_reachable then Some HttpsStall else None)
    | Skipped => (wa_https_stall_streak st, wa_https_latency_ms st, None)
    end in
  let dns_streak :=
    match dns with
    | Healthy _ => 0%Z
    | Stalled => u32_saturating_succ (wa_dns_stall_streak st)
    | Skipped => wa_dns_stall_streak st
    end in
  let '(udp, storm, stall) :=
    match resources with
    | Some r => (so_udp_sockets r, so_storm r,
                 if Z.ltb UDP_LIMIT (so_udp_sockets r) then Some UdpLeak else stall)
    | None => (wa_udp_sockets st, wa_conn_storm st, stall)
    end in
  mkRecovery
    (mkWatchdogStatus (wa_uplink st) (wa_egress_signature st) streak latency dns_streak udp storm
       (wa_last_egress_change_unix st) (wa_last_recovery_unix st) (wa_anomalies st))
    (rs_probe_after self) (rs_pending_egress self) stall (rs_last_egress_attempt self)
    (rs_last_egress_change self) (rs_last_stall_attempt self) (rs_stall_before_request self)
    (is_none resources).

(** [RecoveryState::recovery] *)
Definition recovery_request (now : Z) (self : RecoveryState)
    : option RecoveryReason * RecoveryState :=
  if negb (wa_uplink (rs_status self) =b Some true) then (None, self)
  else if rs_pending_egress self && cooled EGRESS_COOLDOWN now (rs_last_egress_attempt self)
  then (Some Egress,
        mkRecovery (rs_status self) (rs_probe_after self) false (rs_pending_stall self) (Some now)
          (rs_last_egress_change self) (rs_last_stall_attempt self)
          (rs_stall_before_request self) (rs_resources_unavailable self))
  else if is_some (rs_pending_stall self)
          && cooled STALL_COOLDOWN now (rs_last_stall_attempt self)
  then (rs_pending_stall self,
        mkRecovery (rs_status self) (rs_probe_after self) (rs_pending_egress self) None
          (rs_last_egress_attempt self) (rs_last_egress_change self) (Some now)
          (rs_last_stall_attempt self) (rs_resources_unavailable self))
  else (None, self).

(** [RecoveryState::acknowledge] *)
Definition recovery_acknowledge (when : Z) (self : RecoveryState) : RecoveryState :=
  let st := rs_status self in
  mkRecovery
    (mkWatchdogStatus (wa_uplink st) (wa_egress_signature st) 0 None 0 (wa_udp_sockets st)
       (wa_conn_storm st)
       (wa_last_egress_change_unix st) (wa_last_recovery_unix st) (wa_anomalies st))
    (when + SETTLE_DELAY)
    (if is_none_or (λ change, Z.leb change when) (rs_last_egress_change self) then false
     else rs_pending_egress self)
    None (Some when) (rs_last_egress_change self) (rs_last_stall_attempt self) None
    (rs_resources_unavailable self).

(** [RecoveryState::cancel_cleared_request] *)
Definition recovery_cancel (reason : RecoveryReason) (https : ProbeOutcome)
    (udp_sockets : option Z) (self : RecoveryState) : bool * RecoveryState :=
  let cleared :=
    match reason with
    | HttpsStall => match https with Healthy _ => true | _ => false end
    | UdpLeak => is_some_and (λ count, Z.leb count UDP_LIMIT) udp_sockets
    | Egress => false
    end in
  (cleared,
   if cleared
   then mkRecovery (rs_status self) (rs_probe_after self) (rs_pending_egress self)
          (rs_pending_stall self) (rs_last_egress_attempt self) (rs_last_egress_change self)
          (rs_stall_before_request self) None (rs_resources_unavailable self)
   else self).

(** [RecoveryState::refresh_anomalies] *)
Definition refresh_anomalies (self : RecoveryState) : RecoveryState :=
  let st := rs_status self in
  let anomalies :=
    (if wa_uplink st =b Some false then ["uplink-offline"%string] else []) ++
    (if is_none (wa_uplink st) then ["egress-observation-unavailable"%string] else []) ++
    (if Z.leb STALL_LIMIT (wa_https_stall_streak st) then ["https-stalled"%string] else []) ++
    (if Z.leb STALL_LIMIT (wa_dns_stall_streak st) then ["dns-stalled"%string] else []) ++
    (if Z.ltb UDP_LIMIT (wa_udp_sockets st) then ["udp-socket-limit"%string] else []) ++
    (if is_some (wa_conn_storm st) then ["connection-storm"%string] else []) ++
    (if rs_resources_unavailable self then ["socket-observation-unavailable"%string] else []) in
  mkRecovery
    (mkWatchdogStatus (wa_uplink st) (wa_egress_signature st) (wa_https_stall_streak st)
       (wa_https_latency_ms st)
       (wa_dns_stall_streak st) (wa_udp_sockets st) (wa_conn_storm st)
       (wa_last_egress_change_unix st) (wa_last_recovery_unix st) anomalies)
    (rs_probe_after self) (rs_pending_egress self) (rs_pending_stall self)
    (rs_last_egress_attempt self) (rs_last_egress_change self) (rs_last_stall_attempt self)
    (rs_stall_before_request self) (rs_resources_unavailable self).

(** ** The worker and its environment *)

(** [Shared], behind the mutex. *)
Record Shared : Type := mkShared {
  sh_status : WatchdogStatus;
  sh_observed_at : option Z;
  sh_request : option RecoveryReason;
  sh_recovered_at : option Z;
}.

(** Where the worker is in its loop; [now] is read at the top. *)
Inductive Pc : Type :=
| PcTop
| PcEgress (now : Z)
| PcObserved (now : Z)
| PcProbe (now : Z)
| PcProbed (https dns : ProbeOutcome) (node_reachable : bool)
| PcCancel (https : ProbeOutcome) (udp_sockets : option Z)
| PcPublish.

Section worker.
Context {Signature : Type} `{EqDecision Signature}.

Record Watch : Type := mkWatch {
  w_pc : Pc;
  w_state : RecoveryState;
  w_tracker : EgressTracker Signature;
  w_acknowledged : option Z;
  w_next_egress : Z;
  w_next_probe : Z;
  w_authorized : bool;
  w_shared : Shared;
  w_clock : Z;
}.

Definition watch_new (now : Z) : Watch :=
  mkWatch PcTop (recovery_new now) tracker_new None now now false
    (mkShared status_default None None None) now.

(** [sync_recovery]: whether core recovered the child since the last look. *)
Definition sync_recovery (w : Watch) : bool * RecoveryState * option Z :=
  let current := sh_recovered_at (w_shared w) in
  if current =b w_acknowledged w then (false, w_state w, w_acknowledged w)
  else (true,
        match current with
        | Some when => recovery_acknowledge when (w_state w)
        | None => w_state w
        end, current).

Definition set_uplink_unknown (self : RecoveryState) : RecoveryState :=
  let st := rs_status self in
  mkRecovery
    (mkWatchdogStatus None (wa_egress_signature st) (wa_https_stall_streak st)
       (wa_https_latency_ms st) (wa_dns_stall_streak st) (wa_udp_sockets st) (wa_conn_storm st)
       (wa_last_egress_change_unix st) (wa_last_recovery_unix st) (wa_anomalies st))
    (rs_probe_after self) (rs_pending_egress self) (rs_pending_stall self)
    (rs_last_egress_attempt self) (rs_last_egress_change self) (rs_last_stall_attempt self)
    (rs_stall_before_request self) (rs_resources_unavailable self).

(** [WatchdogSupervisor::online] *)
Definition watch_online (t : Z) (w : Watch) : bool :=
  w_authorized w && (wa_uplink (sh_status (w_shared w)) =b Some true)
  && is_some_and (λ o, Z.ltb (duration_since t o) ONLINE_AGE) (sh_observed_at (w_shared w)).

Inductive label : Type :=
| Quiet
| Issued (reason : RecoveryReason)
| Cancelled (reason : RecoveryReason)
| Took (request : option RecoveryReason)
| Recovered.

(** [state.status.last_recovery_unix = shared.status.last_recovery_unix] *)
Definition with_recovery_unix (unix : option Z) (st : WatchdogStatus) : WatchdogStatus :=
  mkWatchdogStatus (wa_uplink st) (wa_egress_signature st) (wa_https_stall_streak st)
    (wa_https_latency_ms st) (wa_dns_stall_streak st) (wa_udp_sockets st) (wa_conn_storm st)
    (wa_last_egress_change_unix st) unix (wa_anomalies st).

Definition with_status (f : WatchdogStatus → WatchdogStatus) (self : RecoveryState)
    : RecoveryState :=
  mkRecovery (f (rs_status self)) (rs_probe_after self) (rs_pending_egress self)
    (rs_pending_stall self) (rs_last_egress_attempt self) (rs_last_egress_change self)
    (rs_last_stall_attempt self) (rs_stall_before_request self) (rs_resources_unavailable self).

(** The end of the loop, under the lock: publish the status and, when no
    request waits and the underlay is authorized, what should be requested. *)
Definition publish (t : Z) (w : Watch) : label * Watch :=
  let state := refresh_anomalies (w_state w) in
  let sh := w_shared w in
  if negb (sh_recovered_at sh =b w_acknowledged w)
  then (Quiet, mkWatch PcTop state (w_tracker w) (w_acknowledged w) (w_next_egress w)
                 (w_next_probe w) (w_authorized w) sh t)
  else
    let state := with_status (with_recovery_unix (wa_last_recovery_unix (sh_status sh))) state in
    let '(request, state') :=
      if is_none (sh_request sh) && w_authorized w then recovery_request t state
      else (sh_request sh, state) in
    (match request with
     | Some reason => if is_none (sh_request sh) then Issued reason else Quiet
     | None => Quiet
     end,
     mkWatch PcTop state' (w_tracker w) (w_acknowledged w) (w_next_egress w) (w_next_probe w)
       (w_authorized w) (mkShared (rs_status state) (sh_observed_at sh) request
                           (sh_recovered_at sh)) t).

(** What the probes of a round may answer: nothing is probed offline, and a
    node is only tried after a stalled request. *)
Definition skipped (o : ProbeOutcome) : bool := match o with Skipped => true | _ => false end.
Definition stalled (o : ProbeOutcome) : bool := match o with Stalled => true | _ => false end.

Definition probe_round_ok (w : Watch) (https dns : ProbeOutcome) (node_reachable : bool) : bool :=
  (((wa_uplink (rs_status (w_state w)) =b Some true) && w_authorized w)
   || (skipped https && skipped dns))
  && (negb node_reachable || stalled https).

(** What happens next, with the answers of the outside. *)
Inductive action : Type :=
| Work  (** the worker goes on, where nothing is asked *)
| Sample (sample : EgressSample Signature) (fingerprint : option string) (unix : Z)
| SampleFails
| Probe (https dns : ProbeOutcome) (node_reachable : bool)
| Sockets (resources : option SocketReport)
| TakeRequest
| CoreRecovered (unix : Z)
| Revoke.

(** The worker at the place [pc] with that state, the rest unchanged. *)
Definition at_pc (w : Watch) (t : Z) (pc : Pc) (state : RecoveryState) : Watch :=
  mkWatch pc state (w_tracker w) (w_acknowledged w) (w_next_egress w) (w_next_probe w)
    (w_authorized w) (w_shared w) t.

Definition with_ack (ack : option Z) (w : Watch) : Watch :=
  mkWatch (w_pc w) (w_state w) (w_tracker w) ack (w_next_egress w) (w_next_probe w)
    (w_authorized w) (w_shared w) (w_clock w).

Definition with_egress (tracker : EgressTracker Signature) (next : Z) (authorized : bool)
    (w : Watch) : Watch :=
  mkWatch (w_pc w) (w_state w) tracker (w_acknowledged w) next (w_next_probe w) authorized
    (w_shared w) (w_clock w).

Definition with_next_probe (next : Z) (w : Watch) : Watch :=
  mkWatch (w_pc w) (w_state w) (w_tracker w) (w_acknowledged w) (w_next_egress w) next
    (w_authorized w) (w_shared w) (w_clock w).

Definition with_shared (sh : Shared) (w : Watch) : Watch :=
  mkWatch (w_pc w) (w_state w) (w_tracker w) (w_acknowledged w) (w_next_egress w)
    (w_next_probe w) (w_authorized w) sh (w_clock w).

Definition without_request (sh : Shared) : Shared :=
  mkShared (sh_status sh) (sh_observed_at sh) None (sh_recovered_at sh).

(** One step of [run] from where the worker is; [None] when the worker is
    not there. *)
Definition work (t : Z) (w : Watch) : option (label * Watch) :=
  match w_pc w with
  | PcTop =>
    let '(_, state, ack) := sync_recovery w in
    Some (Quiet, with_ack ack (at_pc w t (PcEgress t) state))
  | PcEgress now =>
    if Z.ltb now (w_next_egress w) then Some (Quiet, at_pc w t (PcProbe now) (w_state w)) else None
  | PcObserved now =>
    let sh := w_shared w in
    Some (Quiet, with_shared (mkShared (sh_status sh) (Some t) (sh_request sh) (sh_recovered_at sh))
                   (at_pc w t (PcProbe now) (w_state w)))
  | PcProbe now =>
    if Z.ltb now (w_next_probe w) || Z.ltb now (rs_probe_after (w_state w))
    then Some (Quiet, at_pc w t PcPublish (w_state w)) else None
  | PcProbed _ _ _ =>
    match sync_recovery w with
    | (true, state, ack) => Some (Quiet, with_ack ack (at_pc w t PcTop state))
    | (false, _, _) => None
    end
  | PcCancel https udp_sockets =>
    let next w := with_next_probe (t + PROBE_INTERVAL) w in
    match sh_request (w_shared w) with
    | Some reason =>
      match recovery_cancel reason https udp_sockets (w_state w) with
      | (true, state) =>
        Some (Cancelled reason,
              next (with_shared (without_request (w_shared w)) (at_pc w t PcPublish state)))
      | (false, state) => Some (Quiet, next (at_pc w t PcPublish state))
      end
    | None => Some (Quiet, next (at_pc w t PcPublish (w_state w)))
    end
  | PcPublish => Some (publish t w)
  end.

(** One step at the time [t]: of the worker, of the core ([take_request],
    [recovered]) or of the listener that revokes the authorization. *)
Definition wstep (w : Watch) (t : Z) (a : action) : option (label * Watch) :=
  match a with
  | Work => work t w
  | Sample sample fingerprint unix =>
    match w_pc w with
    | PcEgress now =>
      if Z.ltb now (w_next_egress w)
         || negb (Bool.eqb (is_some fingerprint) (is_some (es_signature sample))) then None
      else
        let '(event, tracker) := tracker_observe sample (w_tracker w) in
        Some (Quiet, with_egress tracker (t + EGRESS_INTERVAL) (is_some (es_signature sample))
                       (at_pc w t (PcObserved now)
                          (recovery_egress event fingerprint t unix (w_state w))))
    | _ => None
    end
  | SampleFails =>
    match w_pc w with
    | PcEgress now =>
      if Z.ltb now (w_next_egress w) then None
      else Some (Quiet, with_egress (w_tracker w) (t + EGRESS_INTERVAL) false
                          (at_pc w t (PcProbe now) (set_uplink_unknown (w_state w))))
    | _ => None
    end
  | Probe https dns node_reachable =>
    match w_pc w with
    | PcProbe now =>
      if Z.ltb now (w_next_probe w) || Z.ltb now (rs_probe_after (w_state w))
         || negb (probe_round_ok w https dns node_reachable) then None
      else Some (Quiet, at_pc w t (PcProbed https dns node_reachable) (w_state w))
    | _ => None
    end
  | Sockets resources =>
    match w_pc w with
    | PcProbed https dns node_reachable =>
      match sync_recovery w with
      | (false, state, _) =>
        Some (Quiet, at_pc w t (PcCancel https (so_udp_sockets <$> resources))
                       (recovery_observe https dns node_reachable resources state))
      | (true, _, _) => None
      end
    | _ => None
    end
  | TakeRequest =>
    if watch_online t w
    then Some (Took (sh_request (w_shared w)),
               with_shared (without_request (w_shared w)) (at_pc w t (w_pc w) (w_state w)))
    else None
  | CoreRecovered unix =>
    let sh := w_shared w in
    Some (Recovered, with_shared (mkShared (with_recovery_unix (Some unix) (sh_status sh))
                                    (sh_observed_at sh) None (Some t))
                       (at_pc w t (w_pc w) (w_state w)))
  | Revoke =>
    Some (Quiet, with_egress (w_tracker w) (w_next_egress w) false
                   (at_pc w t (w_pc w) (w_state w)))
  end.

(** A schedule of actions, in the order of time, from a state: the labels,
    newest first, and the state reached; [None] when an action was not
    possible or the clock went back. *)
Fixpoint schedule (actions : list (Z * action)) (trace : list (Z * label)) (w : Watch)
    : option (list (Z * label) * Watch) :=
  match actions with
  | [] => Some (trace, w)
  | (t, a) :: rest =>
    if Z.ltb t (w_clock w) then None
    else match wstep w t a with
         | Some (l, w') => schedule rest ((t, l) :: trace) w'
         | None => None
         end
  end.

End worker.

(** ** The rate of restart requests *)

(** The instants of the egress requests, newest first. *)
Fixpoint egress_times (trace : list (Z * label)) : list Z :=
  match trace with
  | [] => []
  | (t, Issued Egress) :: rest => t :: egress_times rest
  | _ :: rest => egress_times rest
  end.

(** Those of the stall requests that were not cancelled before they were
    taken. *)
Fixpoint stall_times (trace : list (Z * label)) : list Z :=
  match trace with
  | [] => []
  | (t, Issued Egress) :: rest => stall_times rest
  | (t, Issued _) :: rest => t :: stall_times rest
  | (_, Cancelled _) :: rest => tail (stall_times rest)
  | _ :: rest => stall_times rest
  end.

Fixpoint spaced (gap : Z) (times : list Z) : Prop :=
  match times with
  | t :: rest => match rest with t' :: _ => (gap ≤ t - t')%Z | [] => True end ∧ spaced gap rest
  | [] => True
  end.

Lemma spaced_tail gap l : spaced gap l → spaced gap (tail l).
Proof. destruct l as [|t l]; [done|]. by intros [_ ?]. Qed.

(** What the worker's bookkeeping knows of the trace. *)
Definition booked (trace : list (Z * label)) (rs : RecoveryState) (ack recovered : option Z)
    (request : option RecoveryReason) (clock : Z) : Prop :=
  spaced EGRESS_COOLDOWN (egress_times trace) ∧
  (∀ te, head (egress_times trace) = Some te → (te ≤ clock)%Z ∧
     (∃ la, rs_last_egress_attempt rs = Some la ∧ (te ≤ la)%Z) ∧
     (recovered ≠ ack → ∀ r, recovered = Some r → (te ≤ r)%Z)) ∧
  spaced STALL_COOLDOWN (stall_times trace) ∧
  rs_last_stall_attempt rs = head (stall_times trace) ∧
  (∀ r, request = Some r → r ≠ Egress → rs_stall_before_request rs = head (tail (stall_times trace))) ∧
  (recovered ≠ ack → request = None) ∧
  rs_pending_stall rs ≠ Some Egress.

(** The bookkeeping fields are all that matters. *)
Lemma booked_same trace rs rs' ack recovered request clock clock' :
  booked trace rs ack recovered request clock → (clock ≤ clock')%Z →
  rs_last_egress_attempt rs' = rs_last_egress_attempt rs →
  rs_last_stall_attempt rs' = rs_last_stall_attempt rs →
  rs_stall_before_request rs' = rs_stall_before_request rs →
  rs_pending_stall rs' ≠ Some Egress →
  booked trace rs' ack recovered request clock'.
Proof.
  intros (H1 & H2 & H3 & H4 & H5 & H6 & H7) Hc E1 E2 E3 E4. unfold booked.
  rewrite E1, E2, E3. split_and!; try done.
  intros te Hte. destruct (H2 te Hte) as (? & ? & ?). split_and!; [lia|done..].
Qed.

Lemma booked_no_request trace rs ack recovered request clock :
  booked trace rs ack recovered request clock → booked trace rs ack recovered None clock.
Proof. intros (H1 & H2 & H3 & H4 & H5 & H6 & H7). by split_and!. Qed.

Lemma booked_acknowledge trace rs ack recovered request clock :
  booked trace rs ack recovered request clock → recovered ≠ ack →
  booked trace (match recovered with Some w => recovery_acknowledge w rs | None => rs end)
    recovered recovered request clock.
Proof.
  intros (H1 & H2 & H3 & H4 & H5 & H6 & H7) Hne. rewrite (H6 Hne).
  destruct recovered as [w|]; unfold booked; simpl; split_and!; try done.
  - intros te Hte. destruct (H2 te Hte) as (? & _ & Hr). split_and!; [done| |done].
    exists w. split; [done|]. by apply (Hr Hne).
  - intros te Hte. destruct (H2 te Hte) as (? & ? & _). by split_and!.
Qed.

Lemma booked_observe trace https dns nr res rs ack recovered request clock :
  booked trace rs ack recovered request clock →
  booked trace (recovery_observe https dns nr res rs) ack recovered request clock.
Proof.
  intros Hb. eapply booked_same; [done|lia|..]; unfold recovery_observe;
    repeat case_match; simplify_eq/=; done.
Qed.

Lemma cooled_spec cooldown now last :
  (0 < cooldown)%Z → cooled cooldown now (Some last) = true → (cooldown ≤ now - last)%Z.
Proof. unfold cooled, is_none_or, duration_since. intros ? ?%Z.leb_le. lia. Qed.

Lemma booked_request trace rs ack recovered clock t request rs' :
  booked trace rs ack recovered None clock → (clock ≤ t)%Z → recovered = ack →
  recovery_request t rs = (request, rs') →
  booked (match request with Some r => (t, Issued r) :: trace | None => trace end)
    rs' ack recovered request t.
Proof.
  intros Hb Ht Heq. unfold recovery_request. destruct (negb _).
  { intros [= <- <-]. destruct Hb as (?&?&?&?&?&?&?). by eapply booked_same; [split_and!|..]. }
  destruct (_ && cooled EGRESS_COOLDOWN t _) eqn:He;
    [|destruct (_ && cooled STALL_COOLDOWN t _) eqn:Hs]; intros [= <- <-].
  - apply andb_true_iff in He as [_ He]. destruct Hb as (H1 & H2 & H3 & H4 & H5 & H6 & H7).
    unfold booked. simpl. split_and!; try done.
    + destruct (egress_times trace) as [|te l] eqn:Hl; [done|].
      destruct (H2 te eq_refl) as (_ & (la & Hla & Hle) & _). rewrite Hla in He.
      apply cooled_spec in He; [|done]. lia.
    + intros te [= <-]. split_and!; [lia| |done]. exists t. by split.
    + by intros r [= <-].
  - apply andb_true_iff in Hs as [Hp Hs]. destruct Hb as (H1 & H2 & H3 & H4 & H5 & H6 & H7).
    destruct (rs_pending_stall rs) as [r|] eqn:Hr; [|done].
    assert (r ≠ Egress) as Hne by congruence.
    assert (egress_times ((t, Issued r) :: trace) = egress_times trace ∧
            stall_times ((t, Issued r) :: trace) = t :: stall_times trace) as [He1 He2]
      by by destruct r.
    unfold booked. rewrite He1, He2. simpl. split_and!; try done.
    + intros te Hte. destruct (H2 te Hte) as (? & ? & ?). split_and!; [lia|done..].
    + destruct (stall_times trace) as [|ts l] eqn:Hl; [done|].
      simpl in H4. rewrite H4 in Hs. apply cooled_spec in Hs; [|done]. lia.
  - destruct Hb as (?&?&?&?&?&?&?). by eapply booked_same; [split_and!|..].
Qed.

Lemma booked_quiet trace rs ack recovered request clock t l :
  booked trace rs ack recovered request clock →
  match l with Quiet | Took _ | Recovered => True | _ => False end →
  booked ((t, l) :: trace) rs ack recovered request clock.
Proof. by destruct l. Qed.

Lemma booked_cancel trace rs rs' ack recovered reason https udp clock t :
  booked trace rs ack recovered (Some reason) clock → (clock ≤ t)%Z →
  recovery_cancel reason https udp rs = (true, rs') →
  booked ((t, Cancelled reason) :: trace) rs' ack recovered None t.
Proof.
  intros (H1 & H2 & H3 & H4 & H5 & H6 & H7) Ht. unfold recovery_cancel.
  assert (reason ≠ Egress ∨ reason = Egress) as [Hne| ->] by (destruct reason; auto); [|done].
  rewrite (H5 reason eq_refl Hne). destruct (match reason with HttpsStall => _ | _ => _ end); [|done].
  intros [= <-]. unfold booked. simpl. split_and!; try done; [|by apply spaced_tail].
  intros te Hte. destruct (H2 te Hte) as (? & ? & ?). split_and!; [lia|done..].
Qed.

Definition watch_booked (trace : list (Z * label)) {Signature} (w : Watch (Signature := Signature))
    : Prop :=
  booked trace (w_state w) (w_acknowledged w) (sh_recovered_at (w_shared w))
    (sh_request (w_shared w)) (w_clock w).

Section worker_lemmas.
Context {Signature : Type} `{EqDecision Signature}.
Implicit Types w : Watch (Signature := Signature).

Lemma sync_booked trace w changed state ack :
  watch_booked trace w → sync_recovery w = (changed, state, ack) →
  booked trace state ack (sh_recovered_at (w_shared w)) (sh_request (w_shared w)) (w_clock w).
Proof.
  intros Hb. unfold sync_recovery. destruct (sh_recovered_at (w_shared w) =b w_acknowledged w) eqn:He;
    intros [= <- <- <-]; [done|].
  apply bool_decide_eq_false in He. by apply booked_acknowledge with (ack := w_acknowledged w).
Qed.

Lemma publish_booked trace w t l w' :
  watch_booked trace w → (w_clock w ≤ t)%Z → publish t w = (l, w') →
  watch_booked ((t, l) :: trace) w'.
Proof.
  intros Hb Ht. unfold publish. destruct (negb _) eqn:Hr.
  { intros [= <- <-]. unfold watch_booked. simpl. apply booked_quiet; [|done].
    eapply booked_same; [exact Hb|done..|apply Hb]. }
  apply negb_false_iff, bool_decide_eq_true in Hr.
  set (state := with_status _ _).
  assert (booked trace state (w_acknowledged w) (sh_recovered_at (w_shared w))
            (sh_request (w_shared w)) t) as Hb'
    by (eapply booked_same; [exact Hb|done..|apply Hb]).
  destruct (sh_request (w_shared w)) as [r|] eqn:Hreq; simpl.
  { intros [= <- <-]. by apply booked_quiet. }
  destruct (w_authorized w); simpl.
  - destruct (recovery_request t state) as [request rs'] eqn:Hrec. intros [= <- <-].
    pose proof (booked_request _ _ _ _ t t _ _ Hb' ltac:(lia) Hr Hrec) as Hb2.
    unfold watch_booked. simpl. destruct request as [r|]; [done|]. by apply booked_quiet.
  - intros [= <- <-]. by apply booked_quiet.
Qed.

Lemma at_pc_booked trace w t pc :
  watch_booked trace w → (w_clock w ≤ t)%Z → watch_booked trace (at_pc w t pc (w_state w)).
Proof. intros Hb Ht. eapply booked_same; [exact Hb|done..|apply Hb]. Qed.

Lemma without_request_booked trace w :
  watch_booked trace w → watch_booked trace (with_shared (without_request (w_shared w)) w).
Proof. apply booked_no_request. Qed.

Lemma synced_booked trace w t pc changed state ack :
  watch_booked trace w → (w_clock w ≤ t)%Z → sync_recovery w = (changed, state, ack) →
  watch_booked trace (with_ack ack (at_pc w t pc state)).
Proof.
  intros Hb Ht Hs. pose proof (sync_booked _ _ _ _ _ Hb Hs) as Hb'.
  eapply booked_same; [exact Hb'|done..|apply Hb'].
Qed.

Lemma work_booked trace w t l w' :
  watch_booked trace w → (w_clock w ≤ t)%Z → work t w = Some (l, w') →
  watch_booked ((t, l) :: trace) w'.
Proof.
  intros Hb Ht. unfold work. destruct (w_pc w) as [|now|now|now|https dns nr|https udp|].
  - destruct (sync_recovery w) as [[changed state] ack] eqn:Hs. intros [= <- <-].
    apply booked_quiet; [|done]. by eapply synced_booked.
  - destruct (Z.ltb _ _); [|done]. intros [= <- <-]. apply booked_quiet; [|done].
    by apply at_pc_booked.
  - intros [= <- <-]. apply booked_quiet; [|done]. by apply at_pc_booked.
  - destruct (_ || _); [|done]. intros [= <- <-]. apply booked_quiet; [|done].
    by apply at_pc_booked.
  - destruct (sync_recovery w) as [[[] state] ack] eqn:Hs; [|done]. intros [= <- <-].
    apply booked_quiet; [|done]. by eapply synced_booked.
  - destruct (sh_request (w_shared w)) as [reason|] eqn:Hreq.
    + destruct (recovery_cancel reason https udp (w_state w)) as [[] state] eqn:Hc;
        intros [= <- <-].
      * eapply booked_cancel; [|exact Ht|exact Hc]. unfold watch_booked in Hb.
        by rewrite Hreq in Hb.
      * apply booked_quiet; [|done]. unfold recovery_cancel in Hc. injection Hc as Hc1 Hc2.
        rewrite Hc1 in Hc2. subst state. by apply at_pc_booked.
    + intros [= <- <-]. apply booked_quiet; [|done]. by apply at_pc_booked.
  - intros [= Hp]. by apply publish_booked with w.
Qed.

Lemma wstep_booked trace w t a l w' :
  watch_booked trace w → (w_clock w ≤ t)%Z → wstep w t a = Some (l, w') →
  watch_booked ((t, l) :: trace) w'.
Proof.
  intros Hb Ht. destruct a as [|sample print unix| |https dns nr|resources| |unix|]; simpl.
  - by apply work_booked.
  - destruct (w_pc w); try done. destruct (_ || _); [done|].
    destruct (tracker_observe _ _) as [event tracker]. intros [= <- <-].
    apply booked_quiet; [|done].
    eapply booked_same; [exact Hb|done|..]; unfold recovery_egress; simpl; case_match; try done;
      apply Hb.
  - destruct (w_pc w); try done. destruct (Z.ltb _ _); [done|]. intros [= <- <-].
    apply booked_quiet; [|done]. eapply booked_same; [exact Hb|done..|apply Hb].
  - destruct (w_pc w); try done. destruct (_ || _); [done|]. intros [= <- <-].
    apply booked_quiet; [|done]. by apply at_pc_booked.
  - destruct (w_pc w) as [| | | |https dns nr| |]; try done.
    destruct (sync_recovery w) as [[[] state] ack] eqn:Hs; [done|]. intros [= <- <-].
    apply booked_quiet; [|done]. unfold watch_booked. simpl.
    unfold sync_recovery in Hs. case_match; [|done]. injection Hs as <- <-.
    apply (booked_observe _ https dns nr resources).
    eapply booked_same; [exact Hb|done..|apply Hb].
  - destruct (watch_online t w); [|done]. intros [= <- <-]. apply booked_quiet; [|done].
    exact (without_request_booked _ _ (at_pc_booked _ w t (w_pc w) Hb Ht)).
  - intros [= <- <-]. apply booked_quiet; [|done].
    destruct Hb as (H1 & H2 & H3 & H4 & H5 & H6 & H7). unfold watch_booked, booked. simpl.
    split_and!; try done.
    intros te Hte. destruct (H2 te Hte) as (? & ? & _). split_and!; [lia|done|].
    intros _ r [= <-]. lia.
  - intros [= <- <-]. apply booked_quiet; [|done]. exact (at_pc_booked _ w t (w_pc w) Hb Ht).
Qed.

Lemma schedule_booked actions : ∀ trace w trace' w',
  watch_booked trace w → schedule actions trace w = Some (trace', w') → watch_booked trace' w'.
Proof.
  induction actions as [|[t a] actions IH]; intros trace w trace' w' Hb; simpl;
    [by intros [= <- <-]|].
  destruct (Z.ltb_spec t (w_clock w)); [done|].
  destruct (wstep w t a) as [[l w1]|] eqn:Hs; [|done]. apply IH. by eapply wstep_booked.
Qed.
End worker_lemmas.

(** C11. Restart requests are rate limited, whatever the probes, the samples,
    the core and the listener do and however they interleave: two requests for
    an underlay change are at least 60 seconds apart, and two requests for a
    stall or a socket leak that were not cancelled before they were taken are
    at least 10 minutes apart. *)
Theorem restarts_rate_limited {Signature} `{EqDecision Signature} start actions trace
    (w : Watch (Signature := Signature))
    (Hrun : schedule actions [] (watch_new start) = Some (trace, w)) :
  spaced EGRESS_COOLDOWN (egress_times trace) ∧ spaced STALL_COOLDOWN (stall_times trace).
Proof.
  apply schedule_booked in Hrun as (H1 & _ & H3 & _); [by split|].
  unfold watch_booked, booked. simpl. by split_and!.
Qed.

(** ** Concrete runs *)

Definition online (signature : nat) : EgressSample nat := mkEgressSample (Some signature) false.

(** One turn of the loop that samples and does not probe. *)
Definition turn (t : Z) (sample : EgressSample nat) : list (Z * action) :=
  [(t, Work); (t, Sample sample (Some "print"%string) 0); (t, Work); (t, Work); (t, Work)].

(** The underlay changes at 2 s; the core restarts the child at once; it
    changes again a minute later. *)
Definition two_changes : list (Z * action) :=
  turn 0 (online 1) ++ turn 2000 (online 2) ++ [(2001, TakeRequest); (2001, CoreRecovered 0)]%Z
    ++ turn 62100 (online 3).

Definition two_changes_trace : list (Z * label) :=
  match schedule two_changes [] (watch_new 0) with Some (trace, _) => trace | None => [] end.

Lemma restarts_rate_limited_witness :
  egress_times two_changes_trace = [62100; 2000]%Z ∧
  spaced EGRESS_COOLDOWN (egress_times two_changes_trace).
Proof.
  split; [vm_compute; reflexivity|]. unfold two_changes_trace.
  destruct (schedule two_changes [] (watch_new 0)) as [[trace w]|] eqn:Hrun; [|exact I].
  exact (proj1 (restarts_rate_limited 0 two_changes trace w Hrun)).
Defined.

(** A verdict on the old underlay survives its change: the streak is reset,
    the pending stall is not, and once the change itself was requested
    recently, a restart for an HTTPS stall is requested although nothing
    stalled on the new underlay. *)
Example stale_stall_request :
  let stalled := recovery_observe Stalled Skipped true None
                   (recovery_observe Stalled Skipped true None
                      (recovery_observe Stalled Skipped true None (recovery_new 0))) in
  let asked := (recovery_acknowledge 30000 (recovery_new 0)) in
  let before := mkRecovery (rs_status stalled) (rs_probe_after stalled) false
                  (rs_pending_stall stalled) (rs_last_egress_attempt asked) None None None false in
  let changed := recovery_egress EvChanged (Some "b"%string) 40000 0 before in
  wa_https_stall_streak (rs_status changed) = 0%Z ∧
  (recovery_request 40000 changed).1 = Some HttpsStall.
Proof. split; reflexivity. Qed.
