(* ===== verification/Trace.v ===== *)
(** * What code leaves alone and what it may ask

    [preserves R m]: however [m] runs, and even if it panics, the states
    before and after are related by [R]. Such facts follow from the structure
    of the code alone; [frame] proves them.

    [obeys R G P m]: from histories where [P] holds, [m] changes the state
    within [R] and every call it makes satisfies the guard [G], which sees the
    call, its answer and the history before it. Nothing is said of the result:
    the code may panic. *)

From S2P Require Export AlwaysOn CoreOpenVpn.

Definition preserves (R : DaemonCore → DaemonCore → Prop) {A} (m : M DaemonCore A) : Prop :=
  ∀ s h, R s (m s h).1.2.

Section rules.
Context (R : DaemonCore → DaemonCore → Prop) `{!PreOrder R}.

Lemma preserves_ret {A} (a : A) : preserves R (ret a).
Proof. intros s h. simpl. reflexivity. Qed.

Lemma preserves_panic {A} : preserves R (@panic DaemonCore A).
Proof. intros s h. simpl. reflexivity. Qed.

Lemma preserves_get : preserves R get.
Proof. intros s h. simpl. reflexivity. Qed.

Lemma preserves_call `{Env} {A} (c : ext A) : preserves R (call c).
Proof. intros s h. simpl. reflexivity. Qed.

Lemma preserves_modify f : (∀ s, R s (f s)) → preserves R (modify f).
Proof. intros Hf s h. apply Hf. Qed.

Lemma preserves_bind {A B} (m : M DaemonCore A) (f : A → M DaemonCore B) :
  preserves R m → (∀ a, preserves R (f a)) → preserves R (bind m f).
Proof.
  intros Hm Hf s h. specialize (Hm s h). unfold bind.
  destruct (m s h) as [[[a|] s'] h']; simpl in *; [|done]. etransitivity; [done|apply Hf].
Qed.

(** The same from one state. *)
Lemma preserves_bind_at {A B} (m : M DaemonCore A) (f : A → M DaemonCore B) s h :
  R s (m s h).1.2 → (∀ a, preserves R (f a)) → R s (bind m f s h).1.2.
Proof.
  intros Hm Hf. unfold bind. destruct (m s h) as [[[a|] s'] h']; simpl in *; [|done].
  etransitivity; [done|apply Hf].
Qed.

Lemma preserves_try {A B E} (m : M DaemonCore (result A E)) (f : A → M DaemonCore (result B E)) :
  preserves R m → (∀ a, preserves R (f a)) → preserves R (try_bind m f).
Proof.
  intros Hm Hf. apply preserves_bind; [done|]. intros [a|e]; [apply Hf|apply preserves_ret].
Qed.

Lemma preserves_for_each {A} (l : list A) (body : A → M DaemonCore unit) :
  (∀ x, preserves R (body x)) → preserves R (for_each l body).
Proof.
  intros Hb. induction l as [|x l IH]; simpl; [apply preserves_ret|]. by apply preserves_bind.
Qed.

Lemma preserves_for_acc {A B} (l : list A) (acc : B) (body : B → A → M DaemonCore B) :
  (∀ b x, preserves R (body b x)) → preserves R (for_acc l acc body).
Proof.
  intros Hb. revert acc. induction l as [|x l IH]; intros acc; simpl; [apply preserves_ret|].
  by apply preserves_bind.
Qed.

Lemma preserves_for_try {A B E} (l : list A) (acc : B)
    (body : B → A → M DaemonCore (result B E)) :
  (∀ b x, preserves R (body b x)) → preserves R (for_try l acc body).
Proof.
  intros Hb. revert acc. induction l as [|x l IH]; intros acc; simpl; [apply preserves_ret|].
  by apply preserves_try.
Qed.

(** A specification and a frame together. *)
Lemma wp_frame {A} (m : M DaemonCore A) (Q : A → DaemonCore → history → Prop) s h :
  preserves R m → wp m Q s h → wp m (λ a s' h', Q a s' h' ∧ R s s') s h.
Proof.
  intros Hm Hw. specialize (Hm s h). unfold wp in *. destruct (m s h) as [[[a|] s'] h']; done.
Qed.
End rules.

Create HintDb frame discriminated.

Ltac head_of t := lazymatch t with ?f _ => head_of f | _ => t end.

(** One step: the shape of the code, a known lemma, or the definition. *)
Ltac frame_step :=
  lazymatch goal with
  | |- preserves _ (ret _) => apply preserves_ret; typeclasses eauto
  | |- preserves _ (lift _) => apply preserves_ret; typeclasses eauto
  | |- preserves _ (fail _) => apply preserves_ret; typeclasses eauto
  | |- preserves _ panic => apply preserves_panic; typeclasses eauto
  | |- preserves _ get => apply preserves_get; typeclasses eauto
  | |- preserves _ (call _) => apply preserves_call; typeclasses eauto
  | |- preserves _ (modify _) => apply preserves_modify; intros ?
  | |- preserves _ (bind _ _) => apply preserves_bind; [typeclasses eauto| |intros ?]
  | |- preserves _ (try_bind _ _) => apply preserves_try; [typeclasses eauto| |intros ?]
  | |- preserves _ (for_each _ _) => apply preserves_for_each; [typeclasses eauto|]; intros ?
  | |- preserves _ (for_acc _ _ _) => apply preserves_for_acc; [typeclasses eauto|]; intros ? ?
  | |- preserves _ (for_try _ _ _) => apply preserves_for_try; [typeclasses eauto|]; intros ? ?
  | |- preserves _ (let _ := _ in _) => cbv zeta
  | |- preserves _ (match ?x with _ => _ end) => destruct x
  | |- preserves _ ?m =>
    first [ solve [auto with frame nocore]
          | let f := head_of m in unfold f; cbv beta ]
  | |- _ => fail
  end.

Ltac frame := repeat frame_step; try reflexivity.

(** ** Calls and their guard *)

(** Each event since [h0] passed the guard. *)
Inductive traced (G : event → history → Prop) (h0 : history) : history → Prop :=
| traced_refl : traced G h0 h0
| traced_cons e h : traced G h0 h → G e h → traced G h0 (e :: h).

Lemma traced_trans G h0 h1 h2 : traced G h0 h1 → traced G h1 h2 → traced G h0 h2.
Proof. intros H1. induction 1; [done|by constructor]. Qed.

Lemma traced_one (G : event → history → Prop) e h : G e h → traced G h (e :: h).
Proof. intros He. by repeat constructor. Qed.

Lemma traced_mono (G G' : event → history → Prop) h h1 :
  (∀ e h', G e h' → G' e h') → traced G h h1 → traced G' h h1.
Proof. intros HG. induction 1; constructor; auto. Qed.

(** A guard that does not look at the past. *)
Lemma traced_Forall (Q : event → Prop) h0 h :
  traced (λ e _, Q e) h0 h → ∃ new, h = new ++ h0 ∧ Forall Q new.
Proof.
  induction 1 as [|e h _ (new & -> & Hnew) He]; [by exists []|].
  exists (e :: new). split; [done|by constructor].
Qed.

(** Calls were made in between. *)
Definition grown (h h' : history) : Prop := ∃ new, h' = new ++ h.

#[export] Instance grown_preorder : PreOrder grown.
Proof.
  split; [by intros h; exists []|]. intros h1 h2 h3 [n1 ->] [n2 ->]. exists (n2 ++ n1). by rewrite app_assoc.
Qed.

Lemma grown_cons e h : grown h (e :: h).
Proof. by exists [e]. Qed.
#[export] Hint Resolve grown_cons : core.

(** Along the chain of the hypotheses, from the later end. *)
Ltac grow :=
  first [ reflexivity | assumption
        | match goal with
          | H : grown ?h1 ?h2 |- grown _ ?h2 => transitivity h1; [clear H; grow|exact H]
          | |- grown _ (?e :: ?h2) => transitivity h2; [grow|apply grown_cons]
          end ].

Lemma traced_grown (G : event → history → Prop) h h' : traced G h h' → grown h h'.
Proof. induction 1 as [|e h' _ IH _]; [done|]. etransitivity; [exact IH|by exists [e]]. Qed.

Definition obeys {S} (R : S → S → Prop) (G : event → history → Prop)
    (P : history → Prop) {A} (m : M S A) : Prop :=
  ∀ s h, P h → R s (m s h).1.2 ∧ traced G h (m s h).2.

(** Any change of the state. *)
Definition any_state {S} (_ _ : S) : Prop := True.
#[export] Instance any_state_preorder S : PreOrder (@any_state S).
Proof. by split. Qed.

Section rules.
Context {S : Type} {R : S → S → Prop} `{!PreOrder R} {G : event → history → Prop}.
Context {P : history → Prop}.
Abbreviation always := (λ _ : history, True).

Lemma obeys_weaken {A} (m : M S A) : obeys R G always m → obeys R G P m.
Proof. intros Hm s h _. by apply Hm. Qed.

Lemma obeys_ret {A} (a : A) : obeys R G P (ret a).
Proof. intros s h _. split; [done|constructor]. Qed.

Lemma obeys_get : obeys R G P get.
Proof. intros s h _. split; [done|constructor]. Qed.

Lemma obeys_panic {A} : obeys R G P (@panic S A).
Proof. intros s h _. split; [done|constructor]. Qed.

Lemma obeys_modify f : (∀ s, R s (f s)) → obeys R G P (modify f).
Proof. intros Hf s h _. split; [apply Hf|constructor]. Qed.

Lemma obeys_get_bind {A} (f : S → M S A) :
  (∀ c, obeys R G P (f c)) → obeys R G P (bind get f).
Proof. intros Hf s h Hh. by apply Hf. Qed.

Lemma obeys_bind {A B} (m : M S A) (f : A → M S B) :
  obeys R G P m → (∀ a, obeys R G always (f a)) → obeys R G P (bind m f).
Proof using PreOrder0.
  intros Hm Hf s h Hh. specialize (Hm s h Hh). unfold bind.
  destruct (m s h) as [[[a|] s'] h']; simpl in *; [|done].
  destruct Hm as [Hs Hh']. destruct (Hf a s' h' I) as [Hs2 Hh2].
  split; [by etransitivity|by eapply traced_trans].
Qed.

Lemma obeys_try {A B E} (m : M S (result A E)) (f : A → M S (result B E)) :
  obeys R G P m → (∀ a, obeys R G always (f a)) → obeys R G P (try_bind m f).
Proof using PreOrder0.
  intros Hm Hf. apply obeys_bind; [done|].
  intros [a|e]; [apply Hf|]. intros s h _. split; [done|constructor].
Qed.

Lemma obeys_call `{Env} {A} (c : ext A) :
  (∀ ans h, P h → G (Ev c ans) h) → obeys R G P (call c).
Proof using PreOrder0. intros Hc s h Hh. split; [done|]. by apply traced_one, Hc. Qed.

End rules.

Section loops.
Context {S : Type} {R : S → S → Prop} `{!PreOrder R} {G : event → history → Prop}.
Abbreviation always := (λ _ : history, True).

Lemma obeys_for_acc {A B} (l : list A) (acc : B) (body : B → A → M S B) :
  (∀ b x, obeys R G always (body b x)) → obeys R G always (for_acc l acc body).
Proof using PreOrder0.
  intros Hb. revert acc. induction l as [|x l IH]; intros acc; simpl; [apply obeys_ret|].
  by apply obeys_bind.
Qed.

Lemma obeys_for_each {A} (l : list A) (body : A → M S unit) :
  (∀ x, obeys R G always (body x)) → obeys R G always (for_each l body).
Proof using PreOrder0.
  intros Hb. induction l as [|x l IH]; simpl; [apply obeys_ret|]. by apply obeys_bind.
Qed.

Lemma obeys_for_try {A B E} (l : list A) (acc : B) (body : B → A → M S (result B E)) :
  (∀ b x, obeys R G always (body b x)) → obeys R G always (for_try l acc body).
Proof using PreOrder0.
  intros Hb. revert acc. induction l as [|x l IH]; intros acc; simpl; [apply obeys_ret|].
  by apply obeys_try.
Qed.

End loops.

Create HintDb obeys discriminated.

(** One step: the shape of the code, a known lemma, or the definition. *)
Ltac obeys_step :=
  lazymatch goal with
  | |- obeys _ _ _ (ret _) => apply obeys_ret
  | |- obeys _ _ _ (lift _) => apply obeys_ret
  | |- obeys _ _ _ (fail _) => apply obeys_ret
  | |- obeys _ _ _ panic => apply obeys_panic
  | |- obeys _ _ _ (modify _) => apply obeys_modify; intros ?; exact I
  | |- obeys _ _ _ get => apply obeys_get
  | |- obeys _ _ _ (call _) => apply obeys_call; intros ? ? _; first [exact I | reflexivity]
  | |- obeys _ _ _ (bind get _) => apply obeys_get_bind; intros ?
  | |- obeys _ _ _ (bind _ _) => apply obeys_bind; [|intros ?]
  | |- obeys _ _ _ (try_bind _ _) => apply obeys_try; [|intros ?]
  | |- obeys _ _ _ (for_each _ _) => apply obeys_for_each; intros ?
  | |- obeys _ _ _ (for_acc _ _ _) => apply obeys_for_acc; intros ? ?
  | |- obeys _ _ _ (for_try _ _ _) => apply obeys_for_try; intros ? ?
  | |- obeys _ _ _ (let _ := _ in _) => cbv zeta
  | |- obeys _ _ _ (match ?x with _ => _ end) => destruct x
  | |- obeys _ _ _ ?m =>
    first [ solve [auto with obeys nocore]
          | let f := head_of m in unfold f; cbv beta ]
  end.

Ltac obeys := repeat obeys_step.
