(* ===== verification/Kernel.v ===== *)
(** * What the daemon leaves in the kernel

    Ghost state of the safety argument: which artifacts of the daemon are
    live after a history of calls, which journal documents the disk may
    hold, and when the disk journal accounts for everything live at every
    instant ([crash_safe]). *)

From S2P Require Export Trace.

(** ** Artifacts *)

(** The kernel identity of a dumped route: what [same_system_route] compares. *)
Definition route_identity (r : SystemRoute) :=
  (sr_family r, sr_destination r, sr_table r, sr_interface_index r, sr_gateway r,
   unwrap_or (sr_metric r) 0%Z,
   map (λ n, (nh_interface_index n, nh_gateway n)) (sr_nexthops r)).

Inductive artifact : Type :=
| ARoute (r : AppliedRoute)
| ANetRoute (r : SystemRoute)
| ANetRule (r : SystemRule)
| ASuppressedRoute (r : SystemRoute)
| ASuppressedRule (r : SystemRule)
| ARule (r : OwnedRuleResource)
| AAddress (index : Z) (address : IpNet).

(** Two artifacts name the same kernel object. *)
Definition same_artifact (a b : artifact) : Prop :=
  match a, b with
  | ARoute r, ARoute r' => kernel_route r = kernel_route r'
  | ANetRoute r, ANetRoute r' => route_identity r = route_identity r'
  | ANetRule r, ANetRule r' | ASuppressedRule r, ASuppressedRule r' => r = r'
  | ASuppressedRoute r, ASuppressedRoute r' => r = r'
  | ARule r, ARule r' => r = r'
  | AAddress i n, AAddress i' n' => i = i' ∧ n = n'
  | _, _ => False
  end.

(** The interface an artifact lives and dies with. *)
Definition on_interface (index : Z) (a : artifact) : Prop :=
  match a with
  | ARoute r => ar_interface_index r = index
  | AAddress i _ => i = index
  | _ => False
  end.

(** A call succeeded in removing: done, or nothing was there. *)
Definition gone (r : io_result unit) : Prop :=
  match r with Ok _ => True | Err e => ekind e = NotFound end.
(** A call succeeded in restoring: done, or it was there. *)
Definition back (r : io_result unit) : Prop :=
  match r with Ok _ => True | Err e => ekind e = AlreadyExists end.

(** What a completed call creates. A managed system route or rule that is
    added is the daemon's; a foreign one that is removed leaves a
    suppression to undo. A call that fails creates nothing. *)
Definition creates (e : event) (a : artifact) : Prop :=
  match e with
  | Ev c ans =>
    match c in ext A return A → Prop with
    | AddRoute r => λ ans, is_ok ans = true ∧ same_artifact a (ARoute r)
    | AddSystemRoute r => λ ans, is_ok ans = true ∧ sr_managed r = true ∧ same_artifact a (ANetRoute r)
    | RemoveSystemRoute r => λ ans,
        is_ok ans = true ∧ sr_managed r = false ∧ same_artifact a (ASuppressedRoute r)
    | AddSystemRule r => λ ans, is_ok ans = true ∧ ru_managed r = true ∧ same_artifact a (ANetRule r)
    | RemoveSystemRule r => λ ans,
        is_ok ans = true ∧ ru_managed r = false ∧ same_artifact a (ASuppressedRule r)
    | AddRule r => λ ans, is_ok ans = true ∧ same_artifact a (ARule r)
    | WgAddAddress i n => λ ans, is_ok ans = true ∧ same_artifact a (AAddress i n)
    | _ => λ _, False
    end ans
  end.

(** What a completed call ends: removals, restorations, and an interface
    the kernel reports absent, which took its routes and addresses with it. *)
Definition ends (e : event) (a : artifact) : Prop :=
  match e with
  | Ev c ans =>
    match c in ext A return A → Prop with
    | RemoveRoute r => λ ans, gone ans ∧ same_artifact a (ARoute r)
    | RemoveSystemRoute r => λ ans, gone ans ∧ sr_managed r = true ∧ same_artifact a (ANetRoute r)
    | AddSystemRoute r => λ ans,
        back ans ∧ sr_managed r = false ∧ same_artifact a (ASuppressedRoute r)
    | RemoveSystemRule r => λ ans, gone ans ∧ ru_managed r = true ∧ same_artifact a (ANetRule r)
    | AddSystemRule r => λ ans, back ans ∧ ru_managed r = false ∧ same_artifact a (ASuppressedRule r)
    | RemoveRule r => λ ans, gone ans ∧ same_artifact a (ARule r)
    | WgRemoveAddress i n => λ ans, gone ans ∧ same_artifact a (AAddress i n)
    | WgLinkPresent _ i => λ ans, ans = Ok false ∧ on_interface i a
    | _ => λ _, False
    end ans
  end.

Fixpoint live (h : history) (a : artifact) : Prop :=
  match h with
  | [] => False
  | e :: h' => creates e a ∨ (live h' a ∧ ¬ ends e a)
  end.

(** ** The disk *)

(** The documents the journal file may hold: a successful save decides, a
    failed one leaves the old content or the new. Before the first save
    there is no file, which loads as the empty journal. *)
Fixpoint disk (h : history) : list JournalDocument :=
  match h with
  | [] => [journal_default]
  | Ev c ans :: h' =>
    match c in ext A return A → list JournalDocument with
    | StoreSave doc => λ ans, if is_ok ans then [doc] else doc :: disk h'
    | _ => λ _, disk h'
    end ans
  end.

(** ** Accounting *)

Definition covers (r : OwnedResource) (a : artifact) : Prop :=
  match r with
  | Route route => same_artifact a (ARoute route)
  | NetRoute route => same_artifact a (ANetRoute route)
  | NetRule rule => same_artifact a (ANetRule rule)
  | SuppressedRoute route => same_artifact a (ASuppressedRoute route)
  | SuppressedRule rule => same_artifact a (ASuppressedRule rule)
  | Rule rule => same_artifact a (ARule rule)
  | Address address =>
    same_artifact a (AAddress (wa_interface_index address) (wa_address address))
  | _ => False
  end.

Definition covered (es : list JournalEntry) (a : artifact) : Prop :=
  ∃ e r, e ∈ es ∧ r ∈ je_resources e ∧ covers r a.

(** What an entry may hold. Owners of Xray tunnels are outside this argument;
    a WireGuard owner has its link first and everything else on it; an
    OpenVPN owner has its process first, then routes, rules and DNS; any
    other owner has routes and overrides. *)
Definition generic_resource (r : OwnedResource) : Prop :=
  match r with
  | Route _ | AttachSpec _ => True
  | NetRoute route => sr_managed route = true
  | NetRule rule => ru_managed rule = true
  | SuppressedRoute route => sr_managed route = false
  | SuppressedRule rule => ru_managed rule = false
  | _ => False
  end.

Definition link_resource (index : Z) (r : OwnedResource) : Prop :=
  match r with
  | Route route => ar_interface_index route = index
  | Address address => wa_interface_index address = index
  | Rule _ | Dns _ => True
  | _ => False
  end.

Definition openvpn_resource (r : OwnedResource) : Prop :=
  match r with Route _ | Rule _ | Dns _ => True | _ => False end.

Definition other_tunnel (owner : string) : bool := starts_with owner "xray:".

Definition openvpn_owner (owner : string) : bool :=
  starts_with owner "ovpn:" || starts_with owner "ovpn-probe:".

Definition wf_entry (e : JournalEntry) : Prop :=
  other_tunnel (je_owner e) = false ∧
  if starts_with (je_owner e) "wg:"
  then ∃ link rest, je_resources e = WireGuardLink link :: rest ∧
         Forall (link_resource (wl_index link)) rest
  else if openvpn_owner (je_owner e)
  then ∃ process rest, je_resources e = OpenVpnProcess process :: rest ∧
         Forall openvpn_resource rest
  else Forall generic_resource (je_resources e).

Definition entry_key (e : JournalEntry) : owner_key := (je_uid e, je_owner e).

Definition wf_entries (es : list JournalEntry) : Prop :=
  Forall wf_entry es ∧ NoDup (entry_key <$> es).

(** At this instant: whatever the disk holds is well formed and accounts for
    everything live. *)
Definition accounted (h : history) : Prop :=
  ∀ d, d ∈ disk h → wf_entries (jd_entries d) ∧ ∀ a, live h a → covered (jd_entries d) a.

(** At every instant of the history. *)
Fixpoint crash_safe (h : history) : Prop :=
  accounted h ∧ match h with [] => True | _ :: h' => crash_safe h' end.

(** ** Lemmas *)

Lemma same_artifact_refl a : same_artifact a a.
Proof. by destruct a. Qed.
Lemma same_artifact_sym a b : same_artifact a b → same_artifact b a.
Proof. destruct a, b; simpl; try done; intuition congruence. Qed.
Lemma same_artifact_trans a b c : same_artifact a b → same_artifact b c → same_artifact a c.
Proof. destruct a, b, c; simpl; try done; intuition congruence. Qed.

Lemma same_system_route_identity a b :
  same_system_route a b = true ↔ route_identity a = route_identity b.
Proof.
  unfold same_system_route, route_identity.
  assert (∀ xs ys : list SystemNexthop,
    (length xs =? length ys)%nat
      && forallb (λ '(x, y), (nh_interface_index x =b nh_interface_index y)
                             && (nh_gateway x =b nh_gateway y)) (zip xs ys) = true ↔
    map (λ n, (nh_interface_index n, nh_gateway n)) xs
      = map (λ n, (nh_interface_index n, nh_gateway n)) ys) as Hn.
  { induction xs as [|x xs IH]; intros [|y ys]; simpl; try done.
    rewrite <- (andb_assoc _ _ (forallb _ _)).
    rewrite (andb_comm (length xs =? length ys)%nat), <- !andb_assoc.
    rewrite (andb_comm (forallb _ _)), !andb_true_iff, !bool_decide_eq_true.
    specialize (IH ys). rewrite andb_true_iff in IH. simpl. split.
    - intros (E1 & E2 & H1 & H2). f_equal; [congruence|]. by apply IH.
    - intros [= E1 E2 E3]. apply IH in E3. tauto. }
  rewrite <- andb_assoc. rewrite andb_true_iff, Hn, !andb_true_iff, !bool_decide_eq_true.
  split; [intuition congruence|]. intros [=]. tauto.
Qed.

Lemma crash_safe_now h : crash_safe h → accounted h.
Proof. by destruct h; simpl; intros [? _]. Qed.

Lemma crash_safe_every h1 h2 : crash_safe (h1 ++ h2) → accounted h2.
Proof.
  induction h1 as [|e h1 IH]; simpl; [apply crash_safe_now|]. intros [_ Hs]. by apply IH.
Qed.

Lemma crash_safe_nil : crash_safe [].
Proof.
  split; [|done]. intros d Hd. simpl in Hd. apply list_elem_of_singleton in Hd as ->.
  split; [|done]. split; constructor.
Qed.

(** A call that creates nothing and does not touch the journal file. *)
Definition quiet (e : event) : Prop :=
  (∀ a, ¬ creates e a) ∧ ∀ h, disk (e :: h) = disk h.

Lemma live_quiet e h a : quiet e → live (e :: h) a → live h a ∧ ¬ ends e a.
Proof. intros [Hc _] [?|?]; [by destruct (Hc a)|done]. Qed.

Lemma crash_safe_quiet e h : quiet e → crash_safe h → crash_safe (e :: h).
Proof.
  intros Hq Hs. split; [|done]. intros d Hd. destruct Hq as [Hc Hdisk].
  rewrite Hdisk in Hd. destruct (crash_safe_now h Hs d Hd) as [Hwf Hcov].
  split; [done|]. intros a [?|[Ha _]]; [by destruct (Hc a)|by apply Hcov].
Qed.

(** A save of a document that accounts for everything live. *)
Lemma crash_safe_save doc (ans : io_result unit) h :
  wf_entries (jd_entries doc) → (∀ a, live h a → covered (jd_entries doc) a) →
  crash_safe h → crash_safe (Ev (StoreSave doc) ans :: h).
Proof.
  intros Hwf Hcov Hs. split; [|done]. intros d Hd.
  assert (∀ a, live (Ev (StoreSave doc) ans :: h) a → live h a) as Hlive
    by (intros a [[]|[? _]]; done).
  assert (d = doc ∨ d ∈ disk h) as [->|Hold].
  { simpl in Hd. destruct (is_ok ans).
    - left. by apply list_elem_of_singleton in Hd.
    - apply elem_of_cons in Hd. tauto. }
  - split; [done|]. intros a Ha. by apply Hcov, Hlive.
  - destruct (crash_safe_now h Hs d Hold) as [Hwfd Hcovd]. split; [done|].
    intros a Ha. by apply Hcovd, Hlive.
Qed.

(** A call that creates only what the one document on disk accounts for. *)
Lemma crash_safe_create e h es version :
  disk h = [mkJournal version es] → (∀ h', disk (e :: h') = disk h') →
  (∀ a, creates e a → covered es a) →
  crash_safe h → crash_safe (e :: h).
Proof.
  intros Hdisk He Hcov Hs. split; [|done]. intros d Hd. rewrite He in Hd.
  destruct (crash_safe_now h Hs d Hd) as [Hwf Hcovd]. split; [done|].
  intros a [Ha|[Ha _]]; [|by apply Hcovd].
  rewrite Hdisk in Hd. apply list_elem_of_singleton in Hd as ->. by apply Hcov.
Qed.

Lemma covers_same r a b : same_artifact a b → covers r b → covers r a.
Proof. intros Hab. destruct r; simpl; try done; by apply same_artifact_trans. Qed.

(** An ended artifact is not live any more. *)
Lemma not_live_ended e h a : quiet e → ends e a → ¬ live (e :: h) a.
Proof. intros Hq He Ha. by destruct (live_quiet _ _ _ Hq Ha). Qed.
