(* ===== verification/Journal.v ===== *)
(** * The journal file ([crates/core/src/journal.rs])

    [JournalStore::load], [save] and [write_atomic] call by call, a model of
    what a disk may hold between and after those calls, crashes included,
    and the refinement of the two abstract calls [StoreLoad] and [StoreSave]
    the rest of the development is about. *)

From S2P Require Export PrivateStore Kernel.

(** ** The code *)

(** [Path::parent], [Path::new(".")] standing for none. *)
Definition parent_dir (p : path) : path :=
  match p with [] => ["."%string] | _ => removelast p end.

(** The path with [.tmp] appended to its text. *)
Definition temp_name (p : path) : path :=
  match p with
  | [] => [".tmp"%string]
  | _ => removelast p ++ [(List.last p ""%string ++ ".tmp")%string]
  end.

Definition journal_unreadable : io_error :=
  err_new InvalidData "ownership journal is unreadable or has an unsupported version".

Section journal.
Context `{Env} `{JsonCodec JournalDocument} {S : Type}.

Definition journal_load (p : path) : M S (io_result JournalDocument) :=
  let! raw := call (FsRead p) in
  match raw with
  | Err err => if has_kind NotFound err then ret (Ok journal_default) else fail err
  | Ok raw =>
    match from_slice raw with
    | Some doc =>
      if (1 <=? jd_version doc)%Z && (jd_version doc <=? JOURNAL_VERSION)%Z
      then ret (Ok (mkJournal JOURNAL_VERSION (jd_entries doc)))
      else fail journal_unreadable
    | None => fail journal_unreadable
    end
  end.

Definition write_synced (p : path) (contents : bytes) : M S (io_result unit) :=
  let? _ := call (FsCreateNew p 384) in
  let? _ := call (FsWriteAll p contents) in
  call (FsSyncAll p).

(** Opening a directory and syncing it is one call. *)
Definition sync_dir (p : path) : M S (io_result unit) := call (FsSyncAll p).

Definition write_atomic (p : path) (contents : bytes) : M S (io_result unit) :=
  let parent := parent_dir p in
  let? _ := call (FsCreateDirAll parent) in
  let temp_path := temp_name p in
  let! _ := call (FsRemoveFile temp_path) in
  let! result :=
    let? _ := write_synced temp_path contents in
    call (FsRename temp_path p) in
  match result with
  | Err err => let! _ := call (FsRemoveFile temp_path) in fail err
  | Ok _ => sync_dir parent
  end.

(** [unserializable] is the [InvalidData] error with the serializer's text. *)
Definition journal_save (unserializable : io_error) (p : path) (doc : JournalDocument)
    : M S (io_result unit) :=
  match to_vec doc with
  | None => fail unserializable
  | Some json => write_atomic p json
  end.
End journal.

(** ** The disk

    What reading the journal file may give, now and after a power cut, and
    what its temporary file is known to hold, with the mark that it has
    been synced. *)

Record Disk : Type := mkDisk {
  dk_view : option bytes → Prop;
  dk_crash : option bytes → Prop;
  dk_temp : option (bytes * bool);
}.

Definition anything : option bytes → Prop := λ _, True.

(** The disk after a call on the journal [p] or its temporary file: a failed
    call may have happened or not, a rename is durable once the directory is
    synced, and content that was not synced may be anything after a cut. *)
Definition effect (p : path) (e : event) (d : Disk) : Disk :=
  let temp := temp_name p in
  let forget q := if decide (q = temp) then None else dk_temp d in
  let direct q := mkDisk (if decide (q = p) then anything else dk_view d)
                         (if decide (q = p) then anything else dk_crash d) (forget q) in
  match e with
  | Ev c ans =>
    match c in ext A return A → Disk with
    | FsCreateNew q _ => λ ans,
        mkDisk (dk_view (direct q)) (dk_crash (direct q))
          (if decide (q = temp) then if is_ok ans then Some ([], false) else None
           else dk_temp d)
    | FsWriteAll q b => λ ans,
        mkDisk (dk_view (direct q)) (dk_crash (direct q))
          (if decide (q = temp)
           then if is_ok ans then (λ '(c, _), (c ++ b, false)) <$> dk_temp d else None
           else dk_temp d)
    | FsRemoveFile q => λ _, direct q
    | FsSyncAll q => λ ans,
        mkDisk (dk_view d)
          (if decide (q = parent_dir p) then if is_ok ans then dk_view d else dk_crash d
           else dk_crash d)
          (if decide (q = temp) then if is_ok ans then (λ '(c, _), (c, true)) <$> dk_temp d
                                     else dk_temp d
           else dk_temp d)
    | FsRename q r => λ ans,
        if decide (q = temp ∧ r = p) then
          match dk_temp d with
          | Some (c, synced) =>
            mkDisk (λ x, x = Some c ∨ (is_ok ans = false ∧ dk_view d x))
              (λ x, x = Some c ∨ dk_crash d x ∨ synced = false) None
          | None => mkDisk anything anything None
          end
        else if decide (q = p ∨ r = p) then mkDisk anything anything None
        else mkDisk (dk_view d) (dk_crash d) (if decide (q = temp ∨ r = temp) then None
                                              else dk_temp d)
    | _ => λ _, d
    end ans
  end.

(** The calls of a run, newest first, on the disk it started from. *)
Definition plays (p : path) (k : history) (d : Disk) : Disk := foldr (effect p) d k.

(** A power cut: whatever was durable, and an unknown temporary file. *)
Definition power_cut (d : Disk) : Disk := mkDisk (dk_crash d) (dk_crash d) None.

(** A read of the journal tells what the disk holds. *)
Definition read_faithful (p : path) (d : Disk) (e : event) : Prop :=
  match e with
  | Ev c ans =>
    match c in ext A return A → Prop with
    | FsRead q => λ ans, q = p →
        match ans with
        | Ok b => dk_view d (Some b)
        | Err err => has_kind NotFound err = true → dk_view d None
        end
    | _ => λ _, True
    end ans
  end.

(** *** Lemmas *)

Lemma length_append_string (a b : string) : String.length (a ++ b) = String.length a + String.length b.
Proof. induction a; simpl; [done|]. by rewrite IHa. Qed.

Lemma removelast_last {A} (l : list A) x : l ≠ [] → removelast l ++ [List.last l x] = l.
Proof. intros Hl. symmetry. by apply app_removelast_last. Qed.

Lemma temp_name_ne p : temp_name p ≠ p.
Proof.
  destruct p as [|a p]; [done|]. unfold temp_name. intros Heq.
  rewrite <- (removelast_last (a :: p) ""%string) in Heq at 3 by done.
  apply app_inj_tail in Heq as [_ Heq]. apply (f_equal String.length) in Heq.
  rewrite length_append_string in Heq. simpl in Heq. lia.
Qed.

Lemma temp_name_length p : p ≠ [] → length (temp_name p) = length p.
Proof.
  destruct p as [|a p]; [done|]. intros Hp.
  rewrite <- (removelast_last (a :: p) ""%string Hp) at 2. unfold temp_name.
  by rewrite !length_app.
Qed.

Lemma parent_dir_length p : p ≠ [] → S (length (parent_dir p)) = length p.
Proof.
  destruct p as [|a p]; [done|]. intros Hp.
  rewrite <- (removelast_last (a :: p) ""%string Hp) at 2. unfold parent_dir.
  rewrite length_app. simpl. lia.
Qed.

Lemma parent_dir_ne p : parent_dir p ≠ p ∧ parent_dir p ≠ temp_name p.
Proof.
  destruct p as [|a p]; [done|]. pose proof (parent_dir_length (a :: p)) as Hl.
  pose proof (temp_name_length (a :: p)) as Ht.
  split; intros Heq; rewrite Heq in Hl; rewrite ?Ht in Hl by done; specialize (Hl ltac:(done)); lia.
Qed.

(** ** The refinement of [StoreSave] and [StoreLoad] *)

Fixpoint every_instant (P : history → Prop) (k : history) : Prop :=
  P k ∧ match k with [] => True | _ :: k' => every_instant P k' end.

Section refinement.
Context `{Env} `{JsonCodec JournalDocument} (unserializable : io_error) (p : path).

(** The content a load turns into this document. *)
Definition holds (x : option bytes) (doc : JournalDocument) : Prop :=
  jd_version doc = JOURNAL_VERSION ∧
  match x with None => doc = journal_default | Some b => from_slice b = Some doc end.

(** The disk is one the abstract history of saves allows. *)
Definition refines (d : Disk) (h : history) : Prop :=
  ∀ x, dk_view d x ∨ dk_crash d x → ∃ doc, doc ∈ disk h ∧ holds x doc.

(** Between the old content and the new. *)
Definition near (contents : bytes) (d d' : Disk) : Prop :=
  ∀ x, dk_view d' x ∨ dk_crash d' x → x = Some contents ∨ dk_view d x ∨ dk_crash d x.

Definition written (contents : bytes) (d : Disk) : Prop :=
  ∀ x, dk_view d x ∨ dk_crash d x → x = Some contents.

(** *** Each call of [write_atomic] on the disk *)

Lemma effect_temp_remove ans d :
  effect p (Ev (FsRemoveFile (temp_name p)) ans) d = mkDisk (dk_view d) (dk_crash d) None.
Proof.
  pose proof (temp_name_ne p). simpl. by rewrite !(decide_False (P := temp_name p = p)), decide_True.
Qed.

Lemma effect_temp_create m ans d :
  effect p (Ev (FsCreateNew (temp_name p) m) ans) d
  = mkDisk (dk_view d) (dk_crash d) (if is_ok ans then Some ([], false) else None).
Proof.
  pose proof (temp_name_ne p). simpl. by rewrite !(decide_False (P := temp_name p = p)), decide_True.
Qed.

Lemma effect_temp_write b ans d :
  effect p (Ev (FsWriteAll (temp_name p) b) ans) d
  = mkDisk (dk_view d) (dk_crash d)
      (if is_ok ans then (λ '(c, _), (c ++ b, false)) <$> dk_temp d else None).
Proof.
  pose proof (temp_name_ne p). simpl. by rewrite !(decide_False (P := temp_name p = p)), decide_True.
Qed.

Lemma effect_temp_sync ans d :
  effect p (Ev (FsSyncAll (temp_name p)) ans) d
  = mkDisk (dk_view d) (dk_crash d)
      (if is_ok ans then (λ '(c, _), (c, true)) <$> dk_temp d else dk_temp d).
Proof.
  destruct (parent_dir_ne p) as [_ Hne]. simpl.
  by rewrite (decide_False (P := temp_name p = parent_dir p)), decide_True by congruence.
Qed.

Lemma effect_rename ans d :
  effect p (Ev (FsRename (temp_name p) p) ans) d
  = match dk_temp d with
    | Some (c, synced) =>
      mkDisk (λ x, x = Some c ∨ (is_ok ans = false ∧ dk_view d x))
        (λ x, x = Some c ∨ dk_crash d x ∨ synced = false) None
    | None => mkDisk anything anything None
    end.
Proof. simpl. by rewrite decide_True. Qed.

Lemma effect_dir_sync ans d :
  effect p (Ev (FsSyncAll (parent_dir p)) ans) d
  = mkDisk (dk_view d) (if is_ok ans then dk_view d else dk_crash d) (dk_temp d).
Proof.
  destruct (parent_dir_ne p) as [_ Hne]. simpl. by rewrite decide_True, decide_False.
Qed.

Lemma effect_create_dir_all a ans d : effect p (Ev (FsCreateDirAll a) ans) d = d.
Proof. done. Qed.

(** The calls of a history before the start [h]. *)
Ltac calls_since l h :=
  lazymatch l with
  | ?e :: ?l' => let k := calls_since l' h in constr:(e :: k)
  | _ => constr:(@nil event)
  end.

(** One leaf of the run: compute the disk at each of its instants. *)
Ltac instants :=
  lazymatch goal with
  | |- _ ∧ ∃ k, ?l = k ++ ?h ∧ @?P k =>
    let k := calls_since l h in split; [done|]; exists k; split; [done|]
  end;
  unfold plays; cbn [every_instant foldr];
  rewrite ?effect_dir_sync, ?effect_temp_remove, ?effect_rename, ?effect_temp_sync,
    ?effect_temp_write, ?effect_temp_create, ?effect_temp_remove, ?effect_create_dir_all;
  unfold near, written; simpl; split_and!; try done; intros;
  repeat match goal with Hx : context [is_ok ?a] |- _ => destruct (is_ok a) end; naive_solver.

(** [write_atomic] replaces the content or leaves it, at every instant, and
    has replaced it durably when it returns [Ok]. *)
Lemma wp_write_atomic {S} contents d (s : S) h :
  wp (write_atomic p contents) (λ ans s' h', s' = s ∧ ∃ k, h' = k ++ h ∧
       every_instant (λ k', near contents d (plays p k' d)) k ∧
       (is_ok ans = true → written contents (plays p k d))) s h.
Proof.
  unfold write_atomic, write_synced, sync_dir. cbv zeta.
  wp_steps. destruct a as [[]|e]. 2: instants. wp_steps.
  destruct a0 as [[]|e]; wp_steps; [|instants].
  destruct a0 as [[]|e]; wp_steps; [|instants].
  destruct a0 as [[]|e]; wp_steps; [|instants].
  destruct a0 as [[]|e]; wp_steps; instants.
Qed.

Lemma near_refines doc contents d d' err h :
  jd_version doc = JOURNAL_VERSION → from_slice contents = Some doc →
  refines d h → near contents d d' →
  refines d' (Ev (StoreSave doc) (Err err) :: h) ∧
  refines (power_cut d') (Ev (StoreSave doc) (Err err) :: h).
Proof.
  intros Hv Hc Hr Hn.
  assert (∀ x, dk_view d' x ∨ dk_crash d' x →
    ∃ doc', doc' ∈ disk (Ev (StoreSave doc) (Err err) :: h) ∧ holds x doc') as Hall.
  { intros x [->|Hx]%Hn; simpl; [exists doc; split; [set_solver|done]|].
    destruct (Hr x Hx) as (doc' & Hd & Hh). exists doc'. split; [set_solver|done]. }
  split; [done|]. intros x Hx. apply Hall. right. simpl in Hx. tauto.
Qed.

Lemma written_refines doc contents d h :
  jd_version doc = JOURNAL_VERSION → from_slice contents = Some doc → written contents d →
  refines d (Ev (StoreSave doc) (Ok tt) :: h).
Proof.
  intros Hv Hc Hw x ->%Hw. exists doc. split; [simpl; set_solver|done].
Qed.

Lemma every_instant_impl (P Q : history → Prop) k :
  (∀ k', P k' → Q k') → every_instant P k → every_instant Q k.
Proof.
  intros HPQ. induction k as [|e k IH]; simpl; intros [HP Hk]; split; auto.
Qed.

Lemma every_instant_now P k : every_instant P k → P k.
Proof. by destruct k as [|e k]; intros [HP _]. Qed.

(** C7. [JournalStore::save] implements the abstract call: after it the disk
    holds what [StoreSave] with the same answer allows, and at every instant
    of it a power cut leaves what an interrupted [StoreSave] allows, the old
    document or the new one, whole. *)
Theorem journal_save_refines {S} doc d h0 (s : S) h
    (Hv : jd_version doc = JOURNAL_VERSION) (Hd : refines d h0) :
  wp (journal_save unserializable p doc) (λ ans s' h', s' = s ∧ ∃ k, h' = k ++ h ∧
       refines (plays p k d) (Ev (StoreSave doc) ans :: h0) ∧
       every_instant (λ k', ∀ err,
         refines (power_cut (plays p k' d)) (Ev (StoreSave doc) (Err err) :: h0)) k) s h.
Proof.
  unfold journal_save. destruct (to_vec doc) as [contents|] eqn:Hc.
  - apply from_slice_to_vec in Hc. eapply wp_mono; [|apply (wp_write_atomic contents d)].
    intros ans s' h' (-> & k & -> & Hnear & Hok). split; [done|]. exists k.
    split; [done|]. split.
    + destruct ans as [[]|err]; [by eapply written_refines; auto|].
      apply every_instant_now in Hnear. by eapply near_refines.
    + eapply every_instant_impl; [|exact Hnear]. intros k' Hk err. by eapply near_refines.
  - unfold fail. wp_step. split; [done|]. exists []. split; [done|].
    assert (near [] d d) as Hn by (intros x Hx; by right).
    assert (∀ err, refines d (Ev (StoreSave doc) (Err err) :: h0) ∧
                   refines (power_cut d) (Ev (StoreSave doc) (Err err) :: h0)) as Hr.
    { intros err. assert (∀ x, dk_view d x ∨ dk_crash d x →
        ∃ doc', doc' ∈ disk (Ev (StoreSave doc) (Err err) :: h0) ∧ holds x doc') as Hall.
      { intros x Hx. destruct (Hd x Hx) as (doc' & Hd' & Hh). exists doc'.
        split; [simpl; set_solver|done]. }
      split; [done|]. intros x Hx. apply Hall. right. simpl in Hx. tauto. }
    split; [apply Hr|]. split; [|done]. intros err. apply Hr.
Qed.

(** What a load makes of what reading the file gave: only a missing file is an
    empty journal, and only a document of a version this code knows is a
    journal; everything else is an error. *)
Definition load_outcome (raw : io_result bytes) (r : io_result JournalDocument) : Prop :=
  match raw with
  | Err err =>
    (ekind err = NotFound ∧ r = Ok (mkJournal JOURNAL_VERSION [])) ∨ (ekind err ≠ NotFound ∧ r = Err err)
  | Ok b =>
    (∃ doc, from_slice b = Some doc ∧ (1 ≤ jd_version doc ≤ JOURNAL_VERSION)%Z ∧
       r = Ok (mkJournal JOURNAL_VERSION (jd_entries doc))) ∨
    ((∀ doc, from_slice b = Some doc → ¬ (1 ≤ jd_version doc ≤ JOURNAL_VERSION)%Z) ∧
       ∃ err, r = Err err ∧ ekind err = InvalidData)
  end.

(** C8. [JournalStore::load] reads the file once and changes nothing. A missing
    file is the empty journal; a file that cannot be read, that is no journal
    document, or that has a version this code does not know is an error, and
    never an empty or partial journal; any other file is the journal with the
    entries it holds. And it implements [StoreLoad]: from a disk the abstract
    history of saves allows, it returns a document that history allows. *)
Theorem journal_load_refines {S} d h0 (s : S) h (Hd : refines d h0) :
  wp (journal_load p) (λ r s' h', s' = s ∧ ∃ raw, h' = Ev (FsRead p) raw :: h ∧
       load_outcome raw r ∧
       (read_faithful p d (Ev (FsRead p) raw) → ∀ doc, r = Ok doc → doc ∈ disk h0)) s h.
Proof.
  unfold journal_load, load_outcome. wp_steps. destruct a as [raw|err].
  - destruct (from_slice raw) as [doc|] eqn:Hs; [destruct (_ && _) eqn:Hv|]; unfold fail; wp_step;
      (split; [done|]; eexists; split; [done|]); (split; [|intros Hf doc'; [..]]); try done.
    + left. exists doc. split_and!; [done|lia..|done].
    + intros [= <-]. destruct (Hd (Some raw)) as (doc'' & Hin & Hv'' & Hs''); [left; by apply Hf|].
      simpl in Hs''. rewrite Hs in Hs''. injection Hs'' as <-. rewrite <- Hv''. by destruct doc.
    + right. split; [|by eexists]. intros doc' Heq. replace doc' with doc by congruence. lia.
    + right. split; [intros doc' Heq; congruence|by eexists].
  - destruct (has_kind NotFound err) eqn:Hk; unfold fail; wp_step;
      (split; [done|]; eexists; split; [done|]); (split; [|intros Hf doc'; [..]]); try done.
    + left. split; [by apply bool_decide_eq_true in Hk|done].
    + intros [= <-]. destruct (Hd None) as (doc'' & Hin & _ & ->); [left; by apply Hf|done].
    + right. split; [by apply bool_decide_eq_false in Hk|done].
Qed.
End refinement.

(** ** Concrete runs *)

Section witnesses.

(** A serializer of the empty journal. *)
#[local] Instance tiny_codec : JsonCodec JournalDocument.
Proof.
  refine {| to_vec := λ d, match jd_entries d with
                            | [] => if Z.eqb (jd_version d) 5 then Some [123; 125]%Z else None
                            | _ => None
                            end;
            from_slice := λ b, match b with [] => None | _ => Some journal_default end |}.
  intros [v []] b; simpl; [|done]. destruct (Z.eqb_spec v 5) as [->|]; [|done]. by intros [= <-].
Defined.

(** A file system on which everything works. *)
#[local] Instance working_env : Env := λ A c _,
  match c in ext A return A → A with
  | FsCreateDirAll _ | FsRemoveFile _ | FsCreateNew _ _ | FsWriteAll _ _ | FsSyncAll _
  | FsRename _ _ => λ _, Ok tt
  | FsRead _ => λ _, Err (err_new NotFound "no such file")
  | _ => λ d, d
  end (failing_answer c).

Definition no_file : option bytes → Prop := λ x, x = None.
Definition empty_disk : Disk := mkDisk no_file no_file None.
Definition state_json : path := ["var"; "lib"; "state.json"]%string.

Lemma empty_disk_refines : refines empty_disk [].
Proof.
  intros x Hx. exists journal_default. split; [apply list_elem_of_here|].
  assert (x = None) as -> by (destruct Hx as [Hx|Hx]; exact Hx). by split.
Qed.

Lemma journal_save_refines_witness :
  (journal_save (err_other "unserializable") state_json journal_default tt []).1.1 = Some (Ok tt) ∧
  ∀ x, dk_crash (plays state_json
                   (journal_save (err_other "unserializable") state_json journal_default tt []).2
                   empty_disk) x → ∃ doc, doc ∈ [journal_default] ∧ holds x doc.
Proof.
  split; [vm_compute; reflexivity|]. intros x Hx.
  pose proof (journal_save_refines (err_other "unserializable") state_json journal_default
                empty_disk [] tt [] eq_refl empty_disk_refines) as Hwp.
  unfold wp in Hwp.
  assert ((journal_save (err_other "unserializable") state_json journal_default tt []).1.1
          = Some (Ok tt)) as Hans by (vm_compute; reflexivity).
  destruct (journal_save (err_other "unserializable") state_json journal_default tt [])
    as [[ans s'] h']. simpl in Hans. subst ans.
  destruct Hwp as (_ & k & Hk & Hr & _). rewrite app_nil_r in Hk. subst k.
  apply (Hr x). right. exact Hx.
Defined.

Lemma journal_load_refines_witness :
  wp (journal_load state_json) (λ r _ _, r = Ok journal_default ∧ journal_default ∈ disk []) tt [].
Proof.
  pose proof (journal_load_refines state_json empty_disk [] tt [] empty_disk_refines) as Hwp.
  unfold wp in *.
  assert ((journal_load state_json tt []).1.1 = Some (Ok journal_default)) as Hans
    by (vm_compute; reflexivity).
  assert ((journal_load state_json tt []).2
          = [Ev (FsRead state_json) (Err (err_new NotFound "no such file"))]) as Hread
    by (vm_compute; reflexivity).
  destruct (journal_load state_json tt []) as [[r s'] h']. simpl in Hans, Hread. subst r.
  destruct Hwp as (_ & raw & Hh & Hdoc). split; [reflexivity|]. apply Hdoc; [|reflexivity].
  rewrite Hh in Hread. apply (f_equal (hd (Ev Geteuid 0%Z))) in Hread. simpl hd in Hread.
  rewrite Hread. intros _ _. reflexivity.
Defined.
End witnesses.
