(* ===== verification/Settings.v ===== *)
(** * Daemon settings: [crates/daemon/src/settings.rs]

    The one setting an administrator chooses, when connecting asks for a
    password, in a small file next to the journal. *)

From S2P Require Export Journal.

Definition SETTINGS_VERSION : Z := 1.

Record SettingsDocument : Type := mkSettingsDocument {
  sd_version : Z;
  sd_vpn_auth_mode : VpnAuthMode;
}.

(** [DaemonSettings::default] and the answer to a damaged file. *)
Definition settings_default : VpnAuthMode := FullTunnelOnly.
Definition fail_closed : VpnAuthMode := Always.

Section settings.
Context `{Env} `{JsonCodec SettingsDocument} {S : Type}.

Definition settings_load (p : path) : M S VpnAuthMode :=
  let! raw := call (FsRead p) in
  ret (match raw with
       | Err err => if has_kind NotFound err then settings_default else fail_closed
       | Ok raw =>
         match from_slice raw with
         | Some doc =>
           if Z.eqb (sd_version doc) SETTINGS_VERSION then sd_vpn_auth_mode doc else fail_closed
         | None => fail_closed
         end
       end).

(** [unserializable] is the [InvalidData] error with the serializer's text. *)
Definition settings_save (unserializable : io_error) (p : path) (mode : VpnAuthMode)
    : M S (io_result unit) :=
  match to_vec (mkSettingsDocument SETTINGS_VERSION mode) with
  | None => fail unserializable
  | Some json => write_atomic p json
  end.

(** A file that is there but is not a settings document of this version never
    weakens the policy: anything but a missing file or the mode it says is
    [Always]. *)
Lemma settings_load_spec p s h mode s' h' :
  settings_load p s h = (Some mode, s', h') →
  mode = Always ∨
  (∃ err, h' = Ev (FsRead p) (Err err) :: h ∧ has_kind NotFound err = true ∧ mode = settings_default) ∨
  (∃ raw, h' = Ev (FsRead p) (Ok raw) :: h ∧
     from_slice raw = Some (mkSettingsDocument SETTINGS_VERSION mode)).
Proof.
  unfold settings_load, bind, call, ret. destruct (answer _) as [raw|err]; simpl.
  - destruct (from_slice raw) as [[v m]|] eqn:Hd; simpl; [|intros [= <- <- <-]; by left].
    destruct (Z.eqb_spec v SETTINGS_VERSION) as [->|]; intros [= <- <- <-]; [right; right|by left].
    by exists raw.
  - destruct (has_kind NotFound err) eqn:Hk; intros [= <- <- <-]; [right; left|by left]. by exists err.
Qed.

(** What a save writes reads back as the mode saved. *)
Lemma settings_reload p mode json s h :
  to_vec (mkSettingsDocument SETTINGS_VERSION mode) = Some json →
  answer _ (FsRead p) h = Ok json →
  settings_load p s h = (Some mode, s, Ev (FsRead p) (Ok json) :: h).
Proof.
  intros Hj Ha. unfold settings_load, bind, call, ret. rewrite Ha.
  by rewrite (from_slice_to_vec _ _ Hj).
Qed.

End settings.
