(* ===== verification/Protocol.v ===== *)
(** * The daemon protocol: frames, handshake and parameters

    The envelope of [crates/core/src/daemon_protocol.rs]: newline-terminated
    JSON frames, requests, responses and error codes, and the parameters of
    the methods. [serde] is the classes [JsonCodec] and [FromValue]. *)

From S2P Require Export Auth AlwaysOn CondRules XrayPlan CoreState.

Definition PROTOCOL_VERSION : Z := 1.
Definition MAX_FRAME_BYTES : nat := 96 * 1024 * 1024.
Definition HELLO_TIMEOUT_SECS : Z := 5.
Definition MAX_CONNECTIONS : Z := 64.

Inductive ErrorCode : Type :=
| HandshakeRequired
| ProtocolMismatch
| UnsupportedMethod
| InvalidParams
| FrameTooLarge
| Busy
| NotAuthorized
| AuthorizationDismissed
| Conflict
| NotFoundCode
| UnavailableCode
| Internal.

#[export] Instance ErrorCode_eq_dec : EqDecision ErrorCode.
Proof. solve_decision. Defined.

Record RequestFrame : Type := mkRequest {
  rq_id : Z;
  rq_method : string;
  rq_params : Value;
}.

Record ErrorBody : Type := mkErrorBody { eb_code : ErrorCode; eb_message : text }.

Record ResponseFrame : Type := mkResponse {
  rs_id : Z;
  rs_outcome : result Value ErrorBody;
}.

Definition response_ok (id : Z) (value : Value) : ResponseFrame := mkResponse id (Ok value).
Definition response_error (id : Z) (code : ErrorCode) (message : text) : ResponseFrame :=
  mkResponse id (Err (mkErrorBody code message)).

(** ** Frames on the wire *)

Definition NEWLINE : Z := 10.

(** [encode_line] of a frame's JSON. *)
Definition encode_line (json : bytes) : bytes := json ++ [NEWLINE].

(** The bytes before the first newline and after it. *)
Fixpoint at_newline (b : bytes) : option (bytes * bytes) :=
  match b with
  | [] => None
  | x :: b' =>
    if Z.eqb x NEWLINE then Some ([], b')
    else (λ '(l, r), (x :: l, r)) <$> at_newline b'
  end.

Definition frame_too_large (max : nat) : io_error :=
  mkErr InvalidData [TStr "frame exceeds "; TNum (Z.of_nat max); TStr " bytes"].
Definition closed_mid_frame : io_error :=
  err_new UnexpectedEof "connection closed in the middle of a frame".

(** [read_frame]: [buffers] is what [fill_buf] returns from now on, the empty
    one at the end of the stream; the rest is what it returns afterwards. *)
Fixpoint read_frame (max : nat) (line : bytes) (buffers : list bytes)
    : io_result (option bytes) * list bytes :=
  match buffers with
  | [] => (if Nat.eqb (length line) 0 then Ok None else Err closed_mid_frame, [])
  | [] :: rest => (if Nat.eqb (length line) 0 then Ok None else Err closed_mid_frame, rest)
  | available :: rest =>
    match at_newline available with
    | Some (chunk, after) =>
      if Nat.ltb max (length line + length chunk) then (Err (frame_too_large max), buffers)
      else (Ok (Some (line ++ chunk)), match after with [] => rest | _ => after :: rest end)
    | None =>
      if Nat.ltb max (length line + length available) then (Err (frame_too_large max), buffers)
      else read_frame max (line ++ available) rest
    end
  end.

(** ** Parameters *)

Record HelloParams : Type := mkHello { hp_protocol : Z; hp_client : string }.
Record SettingsSetParams : Type := mkSettingsSet { sn_vpn_auth_mode : VpnAuthMode }.
Record AlwaysOnSetParams : Type := mkAlwaysOnSet { as_definition : AlwaysOnDefinition }.
Inductive AlwaysOnKind : Type := KindWireGuardProfile | KindStaticRoutes.
Record AlwaysOnRemoveParams : Type := mkAlwaysOnRemove {
  ar_kind : AlwaysOnKind;
  ar_profile_id : string;
}.
Record ProfileParams : Type := mkProfile { pp_profile_id : string }.
Record OwnerParams : Type := mkOwner { ow_owner : string }.
Record RoutesApplyParams : Type := mkRoutesApply {
  ra_owner : string;
  ra_routes : list AppliedRoute;
  ra_attach : option AttachSpecParams;
}.
Record CondRulesPutParams : Type := mkCondRulesPut { cp_rule : ConditionalRouteRule }.
Record CondRulesRemoveParams : Type := mkCondRulesRemove { cx_rule_id : string }.
Record LinkSetStateParams : Type := mkLinkSetState { ls_name : string; ls_up : bool }.
Record ExternalTunnelStopParams : Type := mkTunnelStop { et_name : string }.
Record NetRouteDelParams : Type := mkRouteDel { nd_route : SystemRoute }.
Record NetRuleDelParams : Type := mkRuleDel { nd_rule : SystemRule }.
Record NetIntentDelParams : Type := mkIntentDel { ni_id : string }.
Record NmSetActiveParams : Type := mkNmSetActive { nm_uuid : string; nm_active : bool }.
Record NetDnsProbeParams : Type := mkDnsProbe {
  dp_hostname : string;
  dp_server : option IpAddr;
  dp_family : option IpFamily;
}.
Record XrayServiceChecksParams : Type := mkServiceChecksParams {
  sc_profile_id : string;
  sc_checks : list ServiceCheck;
}.
Record XrayInstallParams : Type := mkXrayInstall { xi_archive_b64 : string }.

(** [from_value]: what [serde_json::from_value] makes of a value. *)
Class FromValue (T : Type) : Type := from_value : Value → result T text.

(** ** The handshake *)

(** [Err] is the response that ends the connection. *)
Definition handshake `{JsonCodec RequestFrame} `{FromValue HelloParams} (frame : bytes)
    : result Z ResponseFrame :=
  match from_slice frame with
  | None => Err (response_error 0 InvalidParams (txt "malformed request frame"))
  | Some request =>
    if negb (rq_method request =b method.HELLO)
    then Err (response_error (rq_id request) HandshakeRequired (txt "the first request must be hello"))
    else match from_value (rq_params request) with
         | Err err => Err (response_error (rq_id request) InvalidParams err)
         | Ok params =>
           if negb (Z.eqb (hp_protocol params) PROTOCOL_VERSION)
           then Err (response_error (rq_id request) ProtocolMismatch
                  [TStr "daemon speaks protocol "; TNum PROTOCOL_VERSION; TStr ", client ";
                   TNum (hp_protocol params)])
           else Ok (rq_id request)
         end
  end.

(** ** What a reader gets, whatever the buffers *)

(** The next frame of a stream of bytes. *)
Definition next_frame_of (max : nat) (stream : bytes) : io_result (option bytes) * option bytes :=
  match at_newline stream with
  | Some (frame, rest) =>
    if Nat.ltb max (length frame) then (Err (frame_too_large max), None) else (Ok (Some frame), Some rest)
  | None =>
    (if Nat.eqb (length stream) 0 then Ok None
     else if Nat.ltb max (length stream) then Err (frame_too_large max)
     else Err closed_mid_frame, None)
  end.

Lemma at_newline_app_none a b :
  at_newline a = None → at_newline (a ++ b) = (λ '(l, r), (a ++ l, r)) <$> at_newline b.
Proof.
  induction a as [|x a IH]; simpl; [by destruct (at_newline b) as [[]|]|].
  destruct (Z.eqb x NEWLINE); [done|]. destruct (at_newline a); [done|]. intros _. rewrite IH by done.
  by destruct (at_newline b) as [[]|].
Qed.

Lemma at_newline_app_some a b l r :
  at_newline a = Some (l, r) → at_newline (a ++ b) = Some (l, r ++ b).
Proof.
  revert l r. induction a as [|x a IH]; intros l r; simpl; [done|].
  destruct (Z.eqb x NEWLINE); [by intros [= <- <-]|].
  destruct (at_newline a) as [[l' r']|]; [|done]. intros [= <- <-]. by erewrite IH.
Qed.

Lemma at_newline_encode b : NEWLINE ∉ b → ∀ rest, at_newline (encode_line b ++ rest) = Some (b, rest).
Proof.
  intros Hb rest. unfold encode_line. induction b as [|x b IH]; simpl; [done|].
  apply not_elem_of_cons in Hb as [Hx Hb]. destruct (Z.eqb_spec x NEWLINE); [done|]. by rewrite IH.
Qed.

(** C33. Reading a frame depends on the bytes of the stream, not on how the
    socket delivers them: the result is that of the whole stream at once, and
    what is left is the rest of it. A frame of more than [max] bytes is
    refused even when its end has not arrived. *)
Theorem read_frame_chunking (max : nat) (buffers : list bytes)
    (Hbuffers : Forall (λ b, b ≠ []) buffers) :
  (read_frame max [] buffers).1 = (next_frame_of max (concat buffers)).1 ∧
  ∀ rest, (next_frame_of max (concat buffers)).2 = Some rest →
    concat (read_frame max [] buffers).2 = rest.
Proof.
  assert (∀ line, at_newline line = None → length line ≤ max →
    (read_frame max line buffers).1 = (next_frame_of max (line ++ concat buffers)).1 ∧
    ∀ rest, (next_frame_of max (line ++ concat buffers)).2 = Some rest →
      concat (read_frame max line buffers).2 = rest) as Hgen; [|by apply (Hgen []); [|simpl; lia]].
  induction Hbuffers as [|b buffers Hb Hbs IH]; intros line Hline Hlen.
  { simpl. rewrite app_nil_r. unfold next_frame_of. rewrite Hline.
    destruct (Nat.eqb (length line) 0); [done|]. by destruct (Nat.ltb_spec max (length line)); [lia|]. }
  destruct b as [|x b]; [done|]. cbn [read_frame concat]. set (a := x :: b) in *.
  unfold next_frame_of. rewrite at_newline_app_none by done.
  destruct (at_newline a) as [[chunk after]|] eqn:Ha.
  - erewrite at_newline_app_some by done. cbn [fmap option_fmap option_map]. rewrite length_app.
    destruct (Nat.ltb max (length line + length chunk)); [done|]. split; [done|].
    intros rest [= <-]. by destruct after.
  - rewrite at_newline_app_none by done. destruct (Nat.ltb_spec max (length line + length a)) as [Hlt|Hle].
    + destruct (at_newline (concat buffers)) as [[l r]|]; cbn [fmap option_fmap option_map];
        rewrite ?length_app.
      * by destruct (Nat.ltb_spec max (length line + (length a + length l))); [|lia].
      * assert (length line + (length a + length (concat buffers)) ≠ 0) as Hne by (subst a; simpl; lia).
        rewrite (proj2 (Nat.eqb_neq _ _) Hne).
        by destruct (Nat.ltb_spec max (length line + (length a + length (concat buffers)))); [|lia].
    + specialize (IH (line ++ a)). rewrite at_newline_app_none in IH by done. rewrite Ha, length_app in IH.
      specialize (IH eq_refl Hle). unfold next_frame_of in IH. rewrite <- app_assoc in IH.
      rewrite at_newline_app_none, at_newline_app_none in IH by done.
      destruct (at_newline (concat buffers)) as [[l r]|]; exact IH.
Qed.

(** Two frames in buffers cut in the middle of the first: it is read whole and
    the second is left. *)
Definition demo_buffers : list bytes := [[123; 34]%Z; [125; 10; 91]%Z; [93; 10]%Z].

Lemma read_frame_chunking_witness :
  (read_frame 8 [] demo_buffers).1 = Ok (Some [123; 34; 125]%Z) ∧
  concat (read_frame 8 [] demo_buffers).2 = [91; 93; 10]%Z.
Proof.
  destruct (read_frame_chunking 8 demo_buffers) as [Hfirst Hrest].
  { repeat constructor; done. }
  split; [exact Hfirst|]. by apply Hrest.
Defined.
