(* ===== verification/XrayProcessProps.v ===== *)
(** * What the Xray runner does to the system

    Whatever the world answers, an operation on a tunnel writes only into that
    tunnel's staging directory, starts only the package it has just verified,
    and signals only a child of its own or a process it identified after it
    had a handle on it. *)

From S2P Require Export XrayProcess Trace.
From S2P Require Export ProcessProps.

(** ** Calls that start nothing and signal nothing *)

Section quiet.
Context `{RuntimeDir} `{IpNetLib} (uid : Z) (name : string).

Definition staged_file (p : path) : Prop :=
  ∃ file, known_file file = true ∧ p = staging_dir uid name ++ [file].

Definition own_directory (p : path) : Prop :=
  p = staging_dir uid name ∨ p = parent (staging_dir uid name).

Definition quiet_call (e : event) : Prop :=
  match e with
  | Ev (FsMetadata _) _ | Ev (FsStat _) _ | Ev (FsRead _) _ | Ev (FsExists _) _ | Ev (FsReadDir _) _
  | Ev (FsOpen _) _ | Ev (FsSeek _ _) _ | Ev (FsReadSome _ _) _ | Ev (FsReadLink _) _
  | Ev (FsCanonicalize _) _ | Ev (FsCloneHandle _) _ | Ev (IfNametoindex _) _ | Ev Monotonic _
  | Ev (SleepMillis _) _ | Ev (ChildTryWait _) _ | Ev (ChildOutput _) _ | Ev (PidfdOpen _) _
  | Ev (PidfdPoll _) _ | Ev (Eprintln _) _ => True
  | Ev (FsCreateDir p _) _ | Ev (FsRemoveDir p) _ => own_directory p
  | Ev (FsCreateNew p _) _ | Ev (FsWriteAll p _) _ | Ev (FsSyncAll p) _ | Ev (FsOpenTruncate p _) _
  | Ev (FsOpenAppend p) _ | Ev (FsRemoveFile p) _ => staged_file p
  | _ => False
  end.
End quiet.

Create HintDb quiet discriminated.

Ltac quiet_step :=
  lazymatch goal with
  | |- only_calls _ (ret _) => apply only_ret
  | |- only_calls _ (lift _) => apply only_ret
  | |- only_calls _ (fail _) => apply only_ret
  | |- only_calls _ (bind _ _) => apply only_bind; [|intros ?]
  | |- only_calls _ (try_bind _ _) => apply only_try_bind; [|intros ?]
  | |- only_calls _ (call _) => apply only_call; intros ?; first [exact I | solve [eauto with quiet] | idtac]
  | |- only_calls _ (for_try _ _ _) => apply only_for_try; intros ? ? ?
  | |- only_calls _ (let _ := _ in _) => cbv zeta
  | |- only_calls _ (match ?x with _ => _ end) => destruct x
  | |- only_calls _ ?m =>
    first [ solve [auto with quiet nocore]
          | let f := head_of m in unfold f; cbv beta ]
  end.
Ltac quiet := repeat quiet_step.

Section parts.
Context `{Env} `{RuntimeDir} `{IpNetLib} `{Base64Lib} `{Sha256Lib} {S : Type}.
Context (uid : Z) (name : string).
Abbreviation quietly := (only_calls (S := S) (quiet_call uid name)).

Lemma safe_parents_quiet l : quietly (safe_parents l).
Proof. induction l; cbn [safe_parents]; quiet; done. Qed.

Lemma any_unsafe_asset_quiet d l : quietly (any_unsafe_asset d l).
Proof. induction l; cbn [any_unsafe_asset]; quiet; done. Qed.
#[local] Hint Resolve safe_parents_quiet any_unsafe_asset_quiet : quiet.

Lemma trusted_binary_quiet : quietly trusted_binary.
Proof. quiet. Qed.

Lemma directories_present_quiet l : quietly (directories_present l).
Proof. induction l; cbn [directories_present]; quiet; done. Qed.
#[local] Hint Resolve directories_present_quiet : quiet.

Lemma read_process_record_quiet uid' name' : quietly (read_process_record uid' name').
Proof. quiet. Qed.

Lemma same_recorded_quiet pid starttime config : quietly (same_recorded_command pid starttime config).
Proof. quiet. Qed.

Lemma same_owned_quiet p : quietly (same_owned_cleanup_process p).
Proof. quiet. Qed.

Lemma log_tail_quiet p : quietly (log_tail p).
Proof. quiet. Qed.

Lemma known_staged f : known_file f = true → staged_file uid name (staging_dir uid name ++ [f]).
Proof. intros Hf. by exists f. Qed.

Lemma write_private_quiet p contents : staged_file uid name p → quietly (XrayProcess.write_private_file p contents).
Proof. intros Hp. quiet; done. Qed.

Lemma rewrite_private_quiet p contents : staged_file uid name p → quietly (rewrite_private_file p contents).
Proof. intros Hp. quiet; done. Qed.

Lemma open_log_quiet p fresh : staged_file uid name p → quietly (open_log_file p fresh).
Proof. intros Hp. quiet; done. Qed.

Lemma remove_entry_quiet owner entry : quietly (XrayProcess.remove_entry (staging_dir uid name) owner entry).
Proof.
  unfold XrayProcess.remove_entry. apply only_try_bind; [quiet|]. intros [file|]; [|quiet].
  destruct (known_file file) eqn:Hf; simpl negb; cbv iota; [|quiet].
  apply only_try_bind; [quiet|]. intros m. quiet; by apply known_staged.
Qed.

Lemma cleanup_stage_quiet : quietly (XrayProcess.cleanup_stage_at runtime_path uid name).
Proof.
  unfold XrayProcess.cleanup_stage_at. change ((runtime_path ++ [show_Z uid]) ++ [name]) with (staging_dir uid name).
  pose proof remove_entry_quiet. quiet; try done; [by left|by right].
Qed.
#[local] Hint Resolve cleanup_stage_quiet : quiet.

Lemma stage_config_quiet config : quietly (XrayProcess.stage_config_at runtime_path uid name config).
Proof.
  unfold XrayProcess.stage_config_at. change ((runtime_path ++ [show_Z uid]) ++ [name]) with (staging_dir uid name).
  assert (quietly (XrayProcess.write_private_file (staging_dir uid name ++ ["config.json"%string]) (str_bytes config)))
    by (by apply write_private_quiet, known_staged).
  quiet; try done; [by right|by left].
Qed.

Lemma stage_assets_quiet assets managed_dir : quietly (stage_geo_assets assets (staging_dir uid name) managed_dir).
Proof.
  unfold stage_geo_assets. apply only_for_try. intros _ [file encoded] Hin.
  apply only_bind; [quiet|]. intros managed. apply only_try_bind; [quiet|]. intros contents.
  apply write_private_quiet, known_staged.
  apply elem_of_cons in Hin as [[= -> _]|[[= -> _]|Hin]%elem_of_cons]; [done..|by apply elem_of_nil in Hin].
Qed.

Lemma remove_assets_quiet : only_calls (quiet_call uid name) (for_try ["geoip.dat"; "geosite.dat"]%string tt (λ _, remove_asset (staging_dir uid name))).
Proof.
  apply only_for_try. intros _ file Hin. unfold remove_asset. quiet. apply known_staged.
  apply elem_of_cons in Hin as [->|[->|Hin]%elem_of_cons]; [done..|by apply elem_of_nil in Hin].
Qed.

Lemma wait_exit_quiet timeout exited : quietly exited → quietly (wait_exit timeout exited).
Proof.
  intros He. unfold wait_exit. apply only_bind; [quiet|]. intros now.
  induction (poll_turns timeout) as [|n IH]; cbn [wait_while]; [quiet|]. quiet; done.
Qed.

Lemma wait_until_quiet n deadline gone : quietly gone → quietly (wait_until n deadline gone).
Proof. intros Hg. induction n as [|n IH]; cbn [wait_until]; quiet; done. Qed.

Lemma child_gone_quiet message child : quietly (child_gone message child).
Proof. quiet. Qed.

Lemma counters_quiet d : quietly (tun_byte_counters d).
Proof. quiet. Qed.

End parts.

(** The directory that is handed out is the tunnel's. *)
Lemma assert_staging_dir_is `{Env} `{RuntimeDir} `{IpNetLib} {S : Type} (uid : Z) (name : string) (s : S) h :
  wp (assert_staging_dir uid name) (λ r s' h', s' = s ∧ extends (quiet_call uid name) h h' ∧
    ∀ d, r = Ok d → d = staging_dir uid name) s h.
Proof.
  unfold assert_staging_dir. cbv zeta. wp_step.
  assert (only_calls (S := S) (quiet_call uid name) (for_try [parent (staging_dir uid name); staging_dir uid name] tt (λ _ p,
    let? metadata := with_error staging_unavailable (call (FsMetadata p)) in
    if negb (own_dir metadata 0) then fail stage_unsafe else ret (Ok tt)))) as Hq by quiet.
  eapply wp_mono; [|apply Hq]. intros [u|e] s1 h1 [-> Hx]; [|done]. wp_step. split_and!; [done|done|].
  by intros d [= <-].
Qed.

#[export] Hint Resolve safe_parents_quiet any_unsafe_asset_quiet trusted_binary_quiet
  directories_present_quiet read_process_record_quiet same_recorded_quiet same_owned_quiet
  log_tail_quiet cleanup_stage_quiet stage_config_quiet stage_assets_quiet remove_assets_quiet
  child_gone_quiet counters_quiet : quiet.

(** ** Starting and signalling *)

Section guard.
Context `{RuntimeDir} `{IpNetLib} `{Sha256Lib} (uid : Z) (name : string).
(** The children tracked when the operation begins, and the history. *)
Context (tracked : XrayProcess.Children) (h0 : history).

(** [e] happened in the course of the operation. *)
Definition seen (e : event) (h : history) : Prop := ∃ later earlier, h = later ++ e :: earlier ++ h0.

Definition own_child (pid : Z) (h : history) : Prop :=
  (∃ tunnel owner, tracked !! tunnel = Some (owner, pid)) ∨ ∃ c, seen (Ev (ChildSpawn c) (Ok pid)) h.

(** The record names the process and its start time; everything the program
    checks of it was read in [h2]. *)
Definition identified (pid : Z) (h2 h1 : history) : Prop :=
  ∃ starttime record stat command executable metadata bs,
    Ev (FsReadSome (staging_dir uid name ++ ["process"%string]) 65) (record, None) ∈ h1 ∧
    from_utf8 record ≫= parse_record = Some (pid, starttime) ∧
    Ev (FsRead (proc_file pid "stat")) (Ok bs) ∈ h2 ∧ from_utf8 bs = Some stat ∧
    parse_starttime stat = Some starttime ∧
    Ev (FsReadSome (proc_file pid "cmdline") 4097) (command, None) ∈ h2 ∧
    recorded_command (staging_dir uid name ++ ["config.json"%string]) command = true ∧
    Ev (FsReadLink (proc_file pid "exe")) (Ok executable) ∈ h2 ∧ package_executable executable = true ∧
    Ev (FsStat (proc_file pid "exe")) (Ok metadata) ∈ h2 ∧ root_owned_executable metadata = true.

(** The handle is on a child that had not been waited for, or on a process
    that was identified after the handle was opened. *)
Definition may_signal (pidfd : Z) (h : history) : Prop :=
  ∃ h2 pid h1, h = h2 ++ Ev (PidfdOpen pid) (Some pidfd) :: h1 ∧
    ((own_child pid h1 ∧ ∃ h1', h1 = Ev (ChildTryWait pid) (Ok None) :: h1') ∨ identified pid h2 h1).

Definition managed_binary : path := linux_managed_version_dir BINARY_ROOT ++ ["xray"%string].

(** The files of the package were read with their pinned digests. *)
Definition package_verified (h : history) : Prop :=
  ∃ dir, seen (Ev (FsCanonicalize managed_binary) (Ok (dir ++ ["xray"%string]))) h ∧
    ∀ file hash, (file, hash) ∈ LINUX_REQUIRED_SHA256 →
      ∃ data, seen (Ev (FsRead (dir ++ [file])) (Ok data)) h ∧ sha256_hex data = hash.

Definition may_spawn (c : ChildCommand) : Prop :=
  (∃ asset_dir, c = xray_command managed_binary (staging_dir uid name)
      (staging_dir uid name ++ ["config.json"%string]) asset_dir ∧
    (asset_dir = staging_dir uid name ∨ asset_dir = parent managed_binary)) ∨
  ∃ port, c = statsquery_command managed_binary port.

Definition runner_guard (e : event) (h : history) : Prop :=
  match e with
  | Ev (ChildSpawn c) _ => may_spawn c ∧ package_verified h
  | Ev (PidfdSendSignal pidfd _) _ => may_signal pidfd h
  | e => quiet_call uid name e
  end.

Lemma quiet_guard e h : quiet_call uid name e → runner_guard e h.
Proof. destruct e as [A c a]. by destruct c. Qed.

Lemma seen_later e h h' : grown h h' → seen e h → seen e h'.
Proof. intros [new ->] (l1 & l2 & ->). exists (new ++ l1), l2. by rewrite app_assoc. Qed.

Lemma own_child_later pid h h' : grown h h' → own_child pid h → own_child pid h'.
Proof. intros Hg [Hc|[c Hs]]; [by left|]. right. exists c. by eapply seen_later. Qed.

Lemma package_verified_later h h' : grown h h' → package_verified h → package_verified h'.
Proof.
  intros Hg (dir & Hd & Hall). exists dir. split; [by eapply seen_later|]. intros file hash Hin.
  destruct (Hall file hash Hin) as (data & Hs & Hh). exists data. split; [by eapply seen_later|done].
Qed.

Lemma may_signal_later pidfd h h' : grown h h' → may_signal pidfd h → may_signal pidfd h'.
Proof.
  intros [new ->] (h2 & pid & h1 & -> & Hcase). exists (new ++ h2), pid, h1. split; [by rewrite app_assoc|].
  destruct Hcase as [Hc|Hid]; [by left|right].
  destruct Hid as (st & record & stat & command & exe & meta & bs & ? & ? & ? & ? & ? & ? & ? & ? & ? & ? & ?).
  exists st, record, stat, command, exe, meta, bs. split_and!; try done; apply elem_of_app; by right.
Qed.

Lemma extends_guarded h h' : extends (quiet_call uid name) h h' → traced runner_guard h h'.
Proof.
  intros (new & -> & Hnew). induction Hnew; [constructor|]. constructor; [done|by apply quiet_guard].
Qed.
End guard.

Section guarded.
Context `{Env} `{RuntimeDir} `{IpNetLib} `{Base64Lib} `{Sha256Lib} {S : Type}.
Context (uid : Z) (name : string) (tracked : XrayProcess.Children) (h0 : history).
Abbreviation guard := (runner_guard uid name tracked h0).
Abbreviation quietly := (only_calls (quiet_call uid name)).

(** [m] does not panic, each of its calls passes the guard, and [Q] holds at
    its end. *)
Definition guarded {A} (m : M S A) (Q : A → S → history → Prop) (s : S) (h : history) : Prop :=
  wp m (λ a s' h', traced guard h h' ∧ Q a s' h') s h.

Lemma g_ret {A} (a : A) Q s h : Q a s h → guarded (ret a) Q s h.
Proof. split; [constructor|done]. Qed.

Lemma g_mono {A} (m : M S A) (Q Q' : A → S → history → Prop) s h :
  (∀ a s' h', Q a s' h' → Q' a s' h') → guarded m Q s h → guarded m Q' s h.
Proof. intros HQ. apply wp_mono. intros a s' h' [Ht Hq]. split; [done|by apply HQ]. Qed.

Lemma g_bind {A B} (m : M S A) (f : A → M S B) Q s h :
  guarded m (λ a s' h', guarded (f a) Q s' h') s h → guarded (bind m f) Q s h.
Proof.
  intros Hm. apply wp_bind. eapply wp_mono; [|exact Hm]. intros a s1 h1 [Ht1 Hf].
  eapply wp_mono; [|exact Hf]. intros b s2 h2 [Ht2 HQ]. split; [by eapply traced_trans|done].
Qed.

Lemma g_try {A B E} (m : M S (result A E)) (f : A → M S (result B E)) Q s h :
  guarded m (λ r s' h', match r with Ok a => guarded (f a) Q s' h' | Err e => Q (Err e) s' h' end) s h →
  guarded (try_bind m f) Q s h.
Proof.
  intros Hm. apply g_bind. eapply g_mono; [|exact Hm]. intros [a|e] s' h' Hq; [done|by apply g_ret].
Qed.

Lemma g_quiet {A} (m : M S A) (Q : A → S → history → Prop) s h :
  quietly m → (∀ a h', grown h h' → Q a s h') → guarded m Q s h.
Proof.
  intros Hm HQ. eapply wp_mono; [|apply Hm]. intros a s' h' [-> Hext]. split; [by apply extends_guarded|].
  apply HQ. destruct Hext as (new & -> & _). by exists new.
Qed.

Lemma g_call {A} (c : ext A) (Q : A → S → history → Prop) s h :
  (∀ a, guard (Ev c a) h) → (∀ a, Q a s (Ev c a :: h)) → guarded (call c) Q s h.
Proof. intros Hg HQ. apply wp_call. intros a. split; [by apply traced_one|done]. Qed.

(** A quiet part whose answer does not matter for what follows. *)
Lemma g_then {A B} (m : M S A) (f : A → M S B) Q s h :
  quietly m → (∀ a h', grown h h' → guarded (f a) Q s h') → guarded (bind m f) Q s h.
Proof. intros Hm Hf. by apply g_bind, g_quiet. Qed.

Lemma g_then_try {A B E} (m : M S (result A E)) (f : A → M S (result B E)) Q s h :
  quietly m → (∀ e h', grown h h' → Q (Err e) s h') →
  (∀ a h', grown h h' → guarded (f a) Q s h') → guarded (try_bind m f) Q s h.
Proof. intros Hm He Hf. apply g_try, g_quiet; [done|]. intros [a|e] h' Hg; [by apply Hf|by apply He]. Qed.

Lemma signal_guarded pidfd sig (Q : io_result unit → S → history → Prop) s h :
  may_signal uid name tracked h0 pidfd h → (∀ r h', grown h h' → Q r s h') →
  guarded (signal_pidfd pidfd sig) Q s h.
Proof.
  intros Hm HQ. unfold signal_pidfd. apply g_bind, g_call; [done|]. intros a. by apply g_ret, HQ.
Qed.

Lemma child_gone_guarded message pid (Q : io_result bool → S → history → Prop) s h :
  (∀ e h', grown h h' → Q (Err e) s h') → (∀ h', grown h h' → Q (Ok true) s h') →
  Q (Ok false) s (Ev (ChildTryWait pid) (Ok None) :: h) → guarded (child_gone message pid) Q s h.
Proof.
  intros He Ht Hf. unfold child_gone, with_error. apply g_try, g_bind, g_call; [done|].
  intros [[success|]|e]; apply g_ret; simpl; [by apply g_ret, Ht|apply g_ret, Hf|by apply He].
Qed.

Lemma terminate_guarded pid (Q : io_result unit → S → history → Prop) s h :
  own_child tracked h0 pid h → (∀ r h', grown h h' → Q r s h') → guarded (terminate_child pid) Q s h.
Proof.
  intros Hown HQ. unfold terminate_child. apply g_try, child_gone_guarded.
  { intros e h' Hg. by apply HQ. } { intros h' Hg. by apply g_ret, HQ. }
  unfold open_pidfd. set (h1 := Ev (ChildTryWait pid) (Ok None) :: h). assert (grown h h1) as G1 by apply grown_cons.
  apply g_try, g_bind, g_call; [done|]. intros [pidfd|]; apply g_ret; cbn [ok_or]; [|apply HQ; grow].
  set (h2 := Ev (PidfdOpen pid) (Some pidfd) :: h1). assert (grown h1 h2) as G2 by apply grown_cons.
  assert (may_signal uid name tracked h0 pidfd h2) as Hm.
  { exists [], pid, h1. split; [done|]. left. split; [by eapply own_child_later|by eexists]. }
  clearbody h1 h2. apply g_try, signal_guarded; [done|]. intros [u|e] h3 G3; [|apply HQ; grow].
  apply g_then_try; [apply wait_exit_quiet, child_gone_quiet|intros; apply HQ; grow|].
  intros [] h4 G4; [apply g_ret, HQ; grow|].
  apply g_try, signal_guarded; [eapply may_signal_later; [|exact Hm]; grow|].
  intros [u'|e] h5 G5; [|apply HQ; grow]. apply g_then; [quiet|]. intros now h6 G6.
  apply g_then_try; [apply wait_until_quiet, child_gone_quiet|intros; apply HQ; grow|].
  intros [] h7 G7; apply g_ret, HQ; grow.
Qed.

End guarded.

(** ** What the checks of a process rest on *)

Section identity.
Context `{Env} `{RuntimeDir} `{IpNetLib} `{Base64Lib} `{Sha256Lib} {S : Type}.
Context (uid : Z) (name : string).

(** A part that only has to be got over. *)
Lemma wp_quiet {A} (m : M S A) (Q : A → S → history → Prop) s h :
  only_calls (quiet_call uid name) m → (∀ a h', grown h h' → Q a s h') → wp m Q s h.
Proof.
  intros Hm HQ. eapply wp_mono; [|apply Hm]. intros a s' h' [-> (new & -> & _)]. apply HQ. by exists new.
Qed.

Definition record_read (p : VerifiedProcess) (h : history) : Prop :=
  vp_config p = staging_dir uid name ++ ["config.json"%string] ∧
  ∃ record, Ev (FsReadSome (staging_dir uid name ++ ["process"%string]) 65) (record, None) ∈ h ∧
    from_utf8 record ≫= parse_record = Some (vp_pid p, vp_starttime p).

Lemma record_reads (s : S) h :
  wp (read_process_record uid name) (λ r _ h', match r with Ok (Some p) => record_read p h' | _ => True end) s h.
Proof.
  unfold read_process_record. destruct (negb (XrayProcess.valid_tun_name name)); [by wp_step|].
  wp_step. apply wp_quiet; [quiet|]. intros [u|e] h1 _; [|done]. cbv zeta.
  wp_step. apply wp_quiet; [quiet|]. intros [there|e] h2 _; [|done]. destruct (negb there); [done|].
  wp_step. apply wp_quiet; [quiet|]. intros [[metadata|]|e] h3 _; [|done|done].
  destruct (_ || _); [done|]. wp_step. wp_step. destruct a; [|done].
  wp_step. unfold read_limited. wp_step. wp_step. destruct a0 as [contents error]. wp_step.
  destruct error; [done|]. wp_step. wp_step. destruct (from_utf8 contents) as [record|] eqn:Hutf; simpl; [|done].
  destruct (Nat.ltb 64 _); [by wp_step|]. wp_step. wp_step.
  destruct (parse_record record) as [[pid starttime]|] eqn:Hrec; simpl; [|done]. wp_step.
  split; [done|]. exists contents. split; [by left|]. by rewrite Hutf.
Qed.

(** The start time and the command line were read since [h]. *)
Definition command_read (pid starttime : Z) (config : path) (new : history) : Prop :=
  ∃ bs stat command,
    Ev (FsRead (proc_file pid "stat")) (Ok bs) ∈ new ∧ from_utf8 bs = Some stat ∧
    parse_starttime stat = Some starttime ∧
    Ev (FsReadSome (proc_file pid "cmdline") 4097) (command, None) ∈ new ∧
    recorded_command config command = true.

Lemma command_read_later pid starttime config new new' :
  command_read pid starttime config new → command_read pid starttime config (new' ++ new).
Proof.
  intros (bs & stat & command & ? & ? & ? & ? & ?). exists bs, stat, command.
  split_and!; try done; apply elem_of_app; by right.
Qed.

Lemma same_recorded_reads pid starttime config (s : S) h :
  wp (same_recorded_command pid starttime config) (λ r _ h', ∃ new, h' = new ++ h ∧
    (r = Ok true → command_read pid starttime config new)) s h.
Proof.
  unfold same_recorded_command, found_or, read_to_string. wp_step. wp_step. wp_step. wp_step.
  destruct a as [bs|e]; [|wp_step; destruct (has_kind NotFound e); [wp_step|]; by exists [Ev (FsRead (proc_file pid "stat")) (Err e)]].
  assert (∀ (r : io_result bool) (new : history), r ≠ Ok true → ∃ new', new ++ Ev (FsRead (proc_file pid "stat")) (Ok bs) :: h = new' ++ h ∧
    (r = Ok true → command_read pid starttime config new')) as Hno.
  { intros r new Hr. exists (new ++ [Ev (FsRead (proc_file pid "stat")) (Ok bs)]). split; [by rewrite <- app_assoc|done]. }
  wp_step. wp_step. destruct (from_utf8 bs) as [stat|] eqn:Hutf; simpl; [|by apply (Hno _ [])].
  case_bool_decide as Hst; simpl; [|wp_step; by apply (Hno _ [])].
  wp_step. wp_step. wp_step. wp_step.
  destruct a as [u|e]; [|destruct (has_kind NotFound e); [wp_step|]; by apply (Hno _ [_])].
  wp_step. unfold read_limited. wp_step. wp_step. destruct a as [command error]. wp_step.
  destruct error as [e|]; [by apply (Hno _ [_; _])|]. destruct (Z.ltb 4096 _); wp_step; [by apply (Hno _ [_; _])|].
  eexists [_; _; _]. split; [done|]. intros [= Hc]. exists bs, stat, command. split_and!; try done.
  - right. right. left.
  - left.
Qed.

Definition executable_read (pid : Z) (new : history) : Prop :=
  ∃ executable metadata,
    Ev (FsReadLink (proc_file pid "exe")) (Ok executable) ∈ new ∧ package_executable executable = true ∧
    Ev (FsStat (proc_file pid "exe")) (Ok metadata) ∈ new ∧ root_owned_executable metadata = true.

Lemma same_owned_reads p (s : S) h :
  wp (same_owned_cleanup_process p) (λ r _ h', ∃ new, h' = new ++ h ∧
    (r = Ok true → command_read (vp_pid p) (vp_starttime p) (vp_config p) new ∧ executable_read (vp_pid p) new)) s h.
Proof.
  unfold same_owned_cleanup_process. cbv zeta. wp_step. eapply wp_mono; [|apply same_recorded_reads].
  intros [same|e] s1 h1 (n1 & -> & Hcmd); [|by exists n1]. destruct same; simpl negb; cbv iota; [|wp_step; by exists n1].
  specialize (Hcmd eq_refl).
  assert (∀ (r : io_result bool) (new : history), r ≠ Ok true → ∃ new', new ++ n1 ++ h = new' ++ h ∧
    (r = Ok true → command_read (vp_pid p) (vp_starttime p) (vp_config p) new' ∧ executable_read (vp_pid p) new')) as Hno.
  { intros r new Hr. exists (new ++ n1). split; [by rewrite app_assoc|done]. }
  unfold found_or at 1. wp_step. wp_step. wp_step. wp_step.
  destruct a as [raw|e]; [|destruct (has_kind NotFound e); [wp_step|]; by apply (Hno _ [_])].
  destruct (package_executable raw) eqn:Hpkg; simpl negb; cbv iota; [|wp_step; by apply (Hno _ [_])].
  unfold found_or at 1. wp_step. wp_step. wp_step. wp_step.
  destruct a as [metadata|e]; [|destruct (has_kind NotFound e); [wp_step|]; by apply (Hno _ [_; _])].
  destruct (root_owned_executable metadata) eqn:Hroot; simpl negb; cbv iota; [|wp_step; by apply (Hno _ [_; _])].
  eapply wp_mono; [|apply same_recorded_reads]. intros r s2 h2 (n2 & -> & _).
  match goal with |- context [n2 ++ ?e2 :: ?e1 :: n1 ++ h] => exists (n2 ++ [e2; e1] ++ n1) end.
  split; [by rewrite <- !app_assoc|]. intros _. split.
  - by apply command_read_later, command_read_later.
  - exists raw, metadata. split_and!; try done; apply elem_of_app; right; [right; left|left].
Qed.

(** The files of [l] were read with their digests. *)
Definition hashes_read (dir : path) (l : list (string * string)) (new : history) : Prop :=
  ∀ file hash, (file, hash) ∈ l →
    ∃ data, Ev (FsRead (dir ++ [file])) (Ok data) ∈ new ∧ sha256_hex data = hash.

Lemma hash_reads dir l (s : S) h :
  wp (verify_required_hashes dir l) (λ r _ h', ∃ new, h' = new ++ h ∧ (r = Ok tt → hashes_read dir l new)) s h.
Proof.
  unfold verify_required_hashes. revert s h. induction l as [|[file hash] l IH]; intros s h; cbn [for_try].
  { wp_step. exists []. split; [done|]. intros _ file hash Hin. by apply elem_of_nil in Hin. }
  wp_step. wp_step. wp_step. destruct a as [data|e]; [|by exists [Ev (FsRead (dir ++ [file])) (Err e)]].
  case_bool_decide as Hsha; simpl negb; cbv iota; wp_step;
    [|by exists [Ev (FsRead (dir ++ [file])) (Ok data)]].
  eapply wp_mono; [|apply IH]. intros r s' h' (new & -> & Hnew).
  exists (new ++ [Ev (FsRead (dir ++ [file])) (Ok data)]). split; [by rewrite <- app_assoc|].
  intros Hr file' hash' [[= -> ->]|Hin]%elem_of_cons.
  - exists data. split; [apply elem_of_app; right; left|done].
  - destruct (Hnew Hr file' hash' Hin) as (data' & Hd & Hh). exists data'. split; [apply elem_of_app; by left|done].
Qed.

(** The managed executable was found in its place, and its package read. *)
Definition package_read (executable : path) (new : history) : Prop :=
  ∃ dir, Ev (FsCanonicalize executable) (Ok (dir ++ ["xray"%string])) ∈ new ∧
    hashes_read dir LINUX_REQUIRED_SHA256 new.

Lemma package_read_grown executable n1 n2 : package_read executable n1 → package_read executable (n2 ++ n1).
Proof.
  intros (dir & Hd & Hall). exists dir. split; [apply elem_of_app; by right|]. intros file hash Hin.
  destruct (Hall file hash Hin) as (data & Hr & Hh). exists data. split; [apply elem_of_app; by right|done].
Qed.

Lemma verify_reads root executable (s : S) h :
  wp (verify_managed_linux_executable root executable) (λ r _ h', r = Ok tt →
    ∃ new, h' = new ++ h ∧ package_read executable new) s h.
Proof.
  unfold verify_managed_linux_executable. wp_step. wp_step. destruct a as [meta|]; [|done].
  destruct (fm_is_symlink meta); [by wp_step|]. wp_step. wp_step. destruct a as [croot|]; [|done]. cbv zeta.
  set (dir := linux_managed_version_dir croot).
  wp_step. wp_step. destruct a as [canonical|]; [|done].
  case_bool_decide as Hcan; simpl negb; cbv iota; [subst canonical|by wp_step].
  match goal with |- context [for_try _ _ _] => idtac end.
  match goal with |- wp _ _ _ ?h1 => assert (∃ n1, h1 = n1 ++ h ∧
    Ev (FsCanonicalize executable) (Ok (dir ++ ["xray"%string])) ∈ n1) as (n1 & -> & Hc) end.
  { eexists [_; _; _]. split; [done|left]. }
  wp_step. apply wp_quiet; [quiet|]. intros [u|e] h2 [n2 ->]; [|done].
  wp_step. eapply wp_mono; [|apply hash_reads]. intros r s3 h3 (n3 & -> & Hread).
  destruct r as [[]|e]; [|done]. specialize (Hread eq_refl).
  assert (package_read executable (n3 ++ n2 ++ n1)) as Hpkg.
  { exists dir. split; [apply elem_of_app; right; apply elem_of_app; by right|]. intros file hash Hin.
    destruct (Hread file hash Hin) as (data & Hr & Hh). exists data. split; [apply elem_of_app; by left|done]. }
  apply wp_quiet; [quiet|]. intros r h4 [n4 ->] _. exists (n4 ++ n3 ++ n2 ++ n1). split; [by rewrite <- !app_assoc|].
  by apply package_read_grown.
Qed.

Lemma trusted_reads (s : S) h :
  wp trusted_binary (λ r _ h', ∀ binary, r = Ok binary → binary = managed_binary ∧
    ∃ new, h' = new ++ h ∧ package_read managed_binary new) s h.
Proof.
  unfold trusted_binary. cbv zeta. fold managed_binary. wp_step. apply wp_quiet; [quiet|]. intros safe h1 [n1 ->].
  destruct (negb safe); [by wp_step|]. wp_step. apply wp_quiet; [quiet|]. intros unsafe_asset h2 [n2 ->].
  destruct unsafe_asset; [by wp_step|]. wp_step. unfold with_error. wp_step.
  eapply wp_mono; [|apply verify_reads]. intros [[]|e] s3 h3 Hread; wp_step; simpl; [|done].
  wp_step. intros binary [= <-]. split; [done|]. destruct (Hread eq_refl) as (n3 & -> & Hpkg).
  exists (n3 ++ n2 ++ n1). split; [by rewrite <- !app_assoc|].
  destruct Hpkg as (dir & Hd & Hall). exists dir. split; [apply elem_of_app; by left|]. intros file hash Hin.
  destruct (Hall file hash Hin) as (data & Hr & Hh). exists data. split; [apply elem_of_app; by left|done].
Qed.

End identity.

(** ** The operations *)

Section operations.
Context `{Env} `{RuntimeDir} `{IpNetLib} `{Base64Lib} `{Sha256Lib}.
Context (uid : Z) (name : string) (tracked : XrayProcess.Children) (h0 : history).
Abbreviation guarded := (guarded uid name tracked h0).
Abbreviation quietly := (only_calls (quiet_call uid name)).

Lemma seen_new e new h : e ∈ new → grown h0 h → seen h0 e (new ++ h).
Proof.
  intros (n1 & n2 & ->)%list_elem_of_split [m ->]. exists n1, (n2 ++ m).
  rewrite <- app_assoc. cbn [app]. by rewrite <- app_assoc.
Qed.

Lemma g_get {S B} (f : S → M S B) Q (s : S) h : guarded (f s) Q s h → guarded (bind get f) Q s h.
Proof. intros Hf. apply g_bind. split; [constructor|done]. Qed.

Lemma g_modify {S B} (g : S → S) (m : M S B) Q (s : S) h :
  guarded m Q (g s) h → guarded (modify g ;;; m) Q s h.
Proof. intros Hm. apply g_bind. split; [constructor|done]. Qed.

(** The package has been verified when its path is handed out. *)
Lemma trusted_guarded {S} (Q : io_result path → S → history → Prop) (s : S) h :
  grown h0 h → (∀ e h', grown h h' → Q (Err e) s h') →
  (∀ h', grown h h' → package_verified h0 h' → Q (Ok managed_binary) s h') →
  guarded trusted_binary Q s h.
Proof.
  intros Hg He Hok. pose proof (trusted_reads (S := S) uid name s h) as Hreads.
  eapply wp_mono; [|apply wp_and; [exact Hreads|apply trusted_binary_quiet]].
  intros r s' h' [Hpost [-> Hext]]. split; [by apply extends_guarded|].
  assert (grown h h') as Hg' by (destruct Hext as (new & -> & _); by exists new).
  destruct r as [binary|e]; [|by apply He]. destruct (Hpost binary eq_refl) as (-> & new & -> & dir & Hd & Hall).
  apply Hok; [done|]. exists dir. split; [by apply seen_new|]. intros file hash Hin.
  destruct (Hall file hash Hin) as (data & Hr & Hh). exists data. split; [by apply seen_new|done].
Qed.

(** A process on record is signalled only after it was identified again. *)
Lemma recover_guarded {S} (Q : io_result unit → S → history → Prop) (s : S) h :
  (∀ r h', grown h h' → Q r s h') → guarded (recover_child uid name) Q s h.
Proof.
  intros HQ. unfold recover_child. apply g_try. eapply wp_mono;
    [|apply wp_and; [apply (record_reads uid name)|apply (read_process_record_quiet uid name)]].
  intros r s1 h1 [Hrec [-> Hext]]. split; [by apply extends_guarded|].
  assert (grown h h1) as G1 by (destruct Hext as (new & -> & _); by exists new). clear Hext.
  destruct r as [[p|]|e]; [|by apply g_ret, HQ|by apply HQ].
  apply g_then_try; [quiet|intros; apply HQ; grow|]. intros same h2 G2.
  destruct (negb same); [apply g_ret, HQ; grow|]. unfold open_pidfd.
  apply g_bind, g_bind, g_call; [done|]. intros pidfd. apply g_ret.
  destruct pidfd as [pidfd|]; cbn [ok_or].
  2: { apply g_then_try; [quiet|intros; apply HQ; grow|]. intros same' h3 G3.
       destruct (negb same'); apply g_ret, HQ; grow. }
  set (h3 := Ev (PidfdOpen (vp_pid p)) (Some pidfd) :: h2). assert (grown h2 h3) as G3 by apply grown_cons.
  apply g_try. eapply wp_mono; [|apply wp_and; [apply (same_owned_reads p)|apply (same_owned_quiet uid name p)]].
  intros r s4 h4 [(n4 & -> & Hid) [-> Hext]]. split; [by apply extends_guarded|]. clear Hext.
  assert (grown h3 (n4 ++ h3)) as G4 by (by exists n4).
  destruct r as [same'|e]; [|apply HQ; grow]. destruct same'; simpl negb; cbv iota; [|apply g_ret, HQ; grow].
  assert (may_signal uid name tracked h0 pidfd (n4 ++ h3)) as Hm.
  { destruct (Hid eq_refl) as [(bs & stat & command & Hstat & Hutf & Hst & Hcmd & Hrc) (exe & meta & Hexe & Hp & Hmeta & Hr)].
    destruct Hrec as [Hcfg (record & Hread & Hparse)]. exists n4, (vp_pid p), h2. split; [done|]. right.
    exists (vp_starttime p), record, stat, command, exe, meta, bs. rewrite <- Hcfg. split_and!; try done.
    destruct G2 as [n2 ->]. apply elem_of_app. by right. }
  set (h5 := n4 ++ h3) in *. clearbody h5 h3.
  apply g_try, signal_guarded; [done|]. intros [u|e] h6 G6; [|apply HQ; grow].
  apply g_then_try; [apply wait_exit_quiet; quiet|intros; apply HQ; grow|].
  intros [] h7 G7; [apply g_ret, HQ; grow|].
  apply g_try, signal_guarded; [eapply may_signal_later; [|exact Hm]; grow|].
  intros [u'|e] h8 G8; [|apply HQ; grow].
  apply g_then_try; [apply wait_exit_quiet; quiet|intros; apply HQ; grow|].
  intros [] h9 G9; apply g_ret, HQ; grow.
Qed.

Lemma stop_guarded tunnel (Q : io_result unit → XrayProcess.Children → history → Prop) h :
  (∀ r h', grown h h' → Q r tracked h') →
  (∀ h', grown h h' → Q (Ok tt) (base.delete tunnel tracked) h') →
  guarded (XrayProcess.stop tunnel) Q tracked h.
Proof.
  intros Hsame Hgone. unfold XrayProcess.stop. apply g_get. apply g_try, g_ret.
  destruct (tracked !! tunnel) as [[owner child]|] eqn:Hlook; cbn [ok_or]; [|by apply Hsame].
  apply g_try, terminate_guarded; [left; by exists tunnel, owner|]. intros [u|e] h1 G1; [|by apply Hsame].
  apply g_modify, g_ret. by apply Hgone.
Qed.

Lemma await_link_quiet fuel child tunnel deadline : quietly (await_link fuel child tunnel deadline).
Proof. induction fuel as [|fuel IH]; cbn [await_link]; quiet; done. Qed.

Lemma started_quiet child : quietly (started child (staging_dir uid name) name).
Proof.
  unfold started. apply only_try_bind; [quiet|]. intros starttime.
  apply only_try_bind; [apply rewrite_private_quiet; by apply known_staged|]. intros _.
  apply only_bind; [quiet|]. intros now. apply await_link_quiet.
Qed.

(** A child is started on this tunnel's staging directory, and ended when it
    does not come up. *)
Lemma spawn_guarded asset_dir fresh (Q : io_result Z → XrayProcess.Children → history → Prop) s h :
  grown h0 h → package_verified h0 h →
  asset_dir = staging_dir uid name ∨ asset_dir = parent managed_binary →
  (∀ r h', grown h h' → Q r s h') →
  guarded (spawn_xray_child managed_binary (staging_dir uid name)
    (staging_dir uid name ++ ["config.json"%string]) asset_dir name fresh) Q s h.
Proof.
  intros Hg Hpkg Hasset HQ. unfold spawn_xray_child. cbv zeta.
  apply g_then_try; [apply open_log_quiet; by apply known_staged|intros; apply HQ; grow|]. intros u1 h1 G1.
  apply g_then_try; [quiet|intros; apply HQ; grow|]. intros u2 h2 G2.
  unfold with_error at 1. apply g_try, g_bind, g_call.
  { intros a. split; [|eapply package_verified_later; [|exact Hpkg]; grow]. left. by exists asset_dir. }
  intros spawned. apply g_ret. destruct spawned as [child|e]; cbn [map_err]; [|apply HQ; grow].
  set (h3 := Ev (ChildSpawn _) (Ok child) :: h2). assert (grown h2 h3) as G3 by apply grown_cons.
  assert (own_child tracked h0 child h3) as Hown.
  { right. eexists. apply (seen_new _ [_]); [left|grow]. }
  clearbody h3. apply g_then; [apply started_quiet|]. intros [u4|e] h4 G4; [apply g_ret, HQ; grow|].
  apply g_bind, terminate_guarded; [eapply own_child_later; [|exact Hown]; grow|]. intros r h5 G5.
  apply g_then; [apply log_tail_quiet|]. intros tail h6 G6. destruct (str_is_empty tail); apply g_ret, HQ; grow.
Qed.

Lemma restart_guarded asset_dir (Q : io_result unit → XrayProcess.Children → history → Prop) s h :
  grown h0 h → package_verified h0 h →
  asset_dir = staging_dir uid name ∨ asset_dir = parent managed_binary →
  (∀ r s' h', Q r s' h') →
  guarded (restart uid name managed_binary (staging_dir uid name) asset_dir) Q s h.
Proof.
  intros Hg Hpkg Hasset HQ. unfold restart. apply g_try, spawn_guarded; [done..|].
  intros [child|e] h1 G1; [|done]. by apply g_modify, g_ret.
Qed.

Lemma assert_guarded {S} (Q : io_result path → S → history → Prop) (s : S) h :
  (∀ e h', grown h h' → Q (Err e) s h') → (∀ h', grown h h' → Q (Ok (staging_dir uid name)) s h') →
  guarded (assert_staging_dir uid name) Q s h.
Proof.
  intros He Hok. unfold assert_staging_dir. cbv zeta. apply g_then_try; [quiet|done|].
  intros u h1 G1. by apply g_ret, Hok.
Qed.

Lemma stage_config_dir config (s : XrayProcess.Children) h :
  wp (XrayProcess.stage_config_at runtime_path uid name config)
    (λ r _ _, match r with Ok d => d = staging_dir uid name | Err _ => True end) s h.
Proof.
  unfold XrayProcess.stage_config_at. destruct (_ || _); [by wp_step|].
  wp_step. apply (wp_quiet uid name); [quiet|]. intros [metadata|] h1 _; [|done]. destruct (_ || _); [by wp_step|].
  cbv zeta. wp_step. apply (wp_quiet uid name); [quiet|]. intros exists_ h2 _.
  wp_step. apply (wp_quiet uid name); [destruct exists_; quiet; by right|]. intros [u|] h3 _; [|done].
  wp_step. apply (wp_quiet uid name); [quiet|]. intros [user|] h4 _; [|done]. destruct (negb _); [by wp_step|].
  wp_step. apply (wp_quiet uid name); [quiet; by left|]. intros [u'|] h5 _; [|done].
  wp_step. apply (wp_quiet uid name); [by apply write_private_quiet, known_staged|]. intros [u''|] h6 _.
  - by wp_step.
  - wp_step. apply (wp_quiet uid name); [apply cleanup_stage_quiet|]. intros. by wp_step.
Qed.

(** What the daemon asks of the runner for a tunnel of a user. *)
Inductive runner_operation : Type :=
| OpVerifyBinary
| OpLinkIndex
| OpStart (config : string) (geo_assets : option XrayGeoAssets)
| OpRespawn
| OpReload (config : string) (geo_assets : option XrayGeoAssets)
| OpHealth
| OpQueryStats (api_port : Z)
| OpStop
| OpCleanup.

Definition done_with {A} (m : M XrayProcess.Children (io_result A)) : M XrayProcess.Children (io_result unit) :=
  let? _ := m in ret (Ok tt).

Definition run_runner (op : runner_operation) : M XrayProcess.Children (io_result unit) :=
  match op with
  | OpVerifyBinary => verify_binary
  | OpLinkIndex => done_with (XrayProcess.link_index name)
  | OpStart config geo_assets => start uid name config geo_assets
  | OpRespawn => respawn uid name
  | OpReload config geo_assets => reload uid name config geo_assets
  | OpHealth => done_with (XrayProcess.health name)
  | OpQueryStats api_port => done_with (query_stats name api_port)
  | OpStop => XrayProcess.stop name
  | OpCleanup => XrayProcess.cleanup uid name
  end.

Abbreviation finished := (λ (_ : io_result unit) (_ : XrayProcess.Children) (_ : history), True).

Lemma start_guarded config geo_assets : grown h0 h0 → guarded (start uid name config geo_assets) finished tracked h0.
Proof.
  intros G0. unfold start. destruct (_ || _); [by apply g_ret|]. apply g_get.
  apply g_then_try; [quiet|done|]. intros occupied h1 G1. destruct occupied; [by apply g_ret|].
  apply g_try, trusted_guarded; [grow|done|]. intros h2 G2 Hpkg.
  apply g_then_try; [quiet|done|]. intros u h3 G3. apply g_try.
  eapply wp_mono; [|apply wp_and; [apply (stage_config_dir config)|apply (stage_config_quiet uid name config)]].
  intros r s4 h4 [Hdir [-> Hext]]. split; [by apply extends_guarded|].
  assert (grown h3 h4) as G4 by (destruct Hext as (new & -> & _); by exists new). clear Hext.
  destruct r as [directory|e]; [subst directory|done]. cbv zeta.
  assert (∀ asset_dir h5, grown h4 h5 → asset_dir = staging_dir uid name ∨ asset_dir = parent managed_binary →
    guarded (let! spawned := spawn_xray_child managed_binary (staging_dir uid name)
        (staging_dir uid name ++ ["config.json"%string]) asset_dir name true in
      match spawned with
      | Ok child => modify (<[name := (uid, child)]>) ;;; ret (Ok tt)
      | Err error => let! _ := XrayProcess.cleanup_stage_at runtime_path uid name in fail error
      end) finished tracked h5) as Hspawn.
  { intros asset_dir h5 G5 Hasset. apply g_bind, spawn_guarded; [grow| |done|].
    - eapply package_verified_later; [|exact Hpkg]. grow.
    - intros [child|e] h6 G6; [by apply g_modify, g_ret|]. apply g_then; [quiet|]. intros. by apply g_ret. }
  destruct geo_assets as [assets|]; apply g_try; [|by apply g_ret, Hspawn; [|right]].
  apply g_then; [apply stage_assets_quiet|]. intros [u5|e] h5 G5; [by apply g_ret, Hspawn; [|left]|].
  apply g_then; [quiet|]. intros. by apply g_ret.
Qed.

(** What respawning and reloading end with. *)
Lemma restart_with_assets s h : grown h0 h → package_verified h0 h →
  guarded (let! own_assets := staged_assets (staging_dir uid name) in
    restart uid name managed_binary (staging_dir uid name)
      (if own_assets : bool then staging_dir uid name else parent managed_binary)) finished s h.
Proof.
  intros Hg Hpkg. apply g_then; [quiet|]. intros own h1 G1.
  apply restart_guarded; [grow|by eapply package_verified_later|destruct own; tauto|done].
Qed.

Lemma respawn_guarded : grown h0 h0 → guarded (respawn uid name) finished tracked h0.
Proof.
  intros G0. unfold respawn. destruct (negb _); [by apply g_ret|].
  apply g_then_try; [quiet|done|]. intros u h1 G1.
  apply g_try, assert_guarded; [done|]. intros h2 G2. apply g_get, g_try.
  assert (∀ s h3, grown h2 h3 → guarded (
    let? _ := recover_child uid name in
    let? config_metadata := with_error (err_other "Xray staged config unavailable")
                              (call (FsMetadata (staging_dir uid name ++ ["config.json"%string]))) in
    if negb (staged_config_safe config_metadata)
    then fail (err_new PermissionDenied "Xray staged config is unsafe")
    else
      let? binary := trusted_binary in
      let! own_assets := staged_assets (staging_dir uid name) in
      restart uid name binary (staging_dir uid name)
        (if own_assets : bool then staging_dir uid name else parent binary)) finished s h3) as Hrest.
  { intros s h3 G3. apply g_try, recover_guarded. intros [u4|e] h4 G4; [|done].
    apply g_then_try; [quiet|done|]. intros metadata h5 G5. destruct (negb _); [by apply g_ret|].
    apply g_try, trusted_guarded; [grow|done|]. intros h6 G6 Hpkg. apply restart_with_assets; [grow|done]. }
  destruct (tracked !! name) as [[owner child]|] eqn:Hlook; [|by apply g_ret, Hrest].
  destruct (negb _); [by apply g_ret|]. apply stop_guarded; [|intros h3 G3; by apply Hrest].
  intros [u3|e] h3 G3; [by apply Hrest|done].
Qed.

Lemma reload_guarded config geo_assets : grown h0 h0 → guarded (reload uid name config geo_assets) finished tracked h0.
Proof.
  intros G0. unfold reload. destruct (_ || _); [by apply g_ret|].
  apply g_then_try; [quiet|done|]. intros u h1 G1.
  apply g_try, assert_guarded; [done|]. intros h2 G2. apply g_get. apply g_then_try; [quiet|done|]. intros u3 h3 G3.
  apply g_then_try; [apply rewrite_private_quiet; by apply known_staged|done|]. intros u4 h4 G4.
  apply g_try, trusted_guarded; [grow|done|]. intros h5 G5 Hpkg. cbv zeta.
  apply g_then_try; [destruct geo_assets; [apply stage_assets_quiet|apply remove_assets_quiet]|done|].
  intros u6 h6 G6.
  assert (∀ s h7, grown h6 h7 → guarded (
    let? _ := recover_child uid name in
    let! own_assets := staged_assets (staging_dir uid name) in
    restart uid name managed_binary (staging_dir uid name)
      (if own_assets : bool then staging_dir uid name else parent managed_binary)) finished s h7) as Hrest.
  { intros s h7 G7. apply g_try, recover_guarded. intros [u8|e] h8 G8; [|done].
    apply restart_with_assets; [grow|]. eapply package_verified_later; [|exact Hpkg]. grow. }
  apply g_try. destruct (is_some (tracked !! name)); [|by apply g_ret, Hrest].
  apply stop_guarded; [|intros h7 G7; by apply Hrest]. intros [u7|e] h7 G7; [by apply Hrest|done].
Qed.

Lemma statsquery_guarded fuel child deadline (Q : io_result string → XrayProcess.Children → history → Prop) s h :
  own_child tracked h0 child h → (∀ r h', grown h h' → Q r s h') →
  guarded (statsquery_wait fuel child deadline) Q s h.
Proof.
  revert h. induction fuel as [|fuel IH]; intros h Hown HQ; cbn [statsquery_wait].
  all: apply g_then_try; [quiet|by intros; apply HQ|]; intros [success|] h1 G1.
  1,3: apply g_then_try; [quiet|intros; apply HQ; grow|]; intros output h2 G2; destruct (negb success); apply g_ret, HQ; grow.
  all: cbv zeta; apply g_then; [quiet|]; intros now h2 G2.
  all: assert (∀ h3, grown h2 h3 → guarded (let! _ := terminate_child child in
         fail (err_new TimedOut "Xray statsquery timed out")) Q s h3) as Hout
    by (intros h3 G3; apply g_bind, terminate_guarded; [eapply own_child_later; [|exact Hown]; grow|];
        intros r h4 G4; apply g_ret, HQ; grow).
  - by apply Hout.
  - destruct (Z.leb deadline now); [by apply Hout|]. apply g_then; [quiet|]. intros u h3 G3.
    apply IH; [eapply own_child_later; [|exact Hown]; grow|]. intros r h4 G4. apply HQ. grow.
Qed.

Lemma query_guarded api_port : grown h0 h0 →
  guarded (query_stats name api_port) (λ _ _ _, True) tracked h0.
Proof.
  intros G0. unfold query_stats. apply g_get. destruct (is_none _); [by apply g_ret|].
  apply g_then; [quiet|]. intros [stats|e] h1 G1; [by apply g_ret|].
  apply g_try, trusted_guarded; [grow|done|]. intros h2 G2 Hpkg. apply g_try.
  unfold run_statsquery. unfold with_error at 1. apply g_try, g_bind, g_call.
  { intros a. split; [right; by exists api_port|done]. }
  intros [child|err]; apply g_ret; cbn [map_err]; [|done].
  assert (own_child tracked h0 child (Ev (ChildSpawn (statsquery_command managed_binary api_port)) (Ok child) :: h2)) as Hown.
  { right. eexists. apply (seen_new _ [_]); [left|grow]. }
  apply g_then; [quiet|]. intros now h3 G3. apply statsquery_guarded; [by eapply own_child_later|].
  intros [output|e'] h4 G4; [by apply g_ret|done].
Qed.

Lemma cleanup_guarded : grown h0 h0 → guarded (XrayProcess.cleanup uid name) finished tracked h0.
Proof.
  intros G0. unfold XrayProcess.cleanup. destruct (negb _); [by apply g_ret|]. apply g_get, g_try.
  assert (∀ s h3, grown h0 h3 → guarded (
    let? _ := XrayProcess.ensure_runtime_root in
    let! tail := log_tail (staging_dir uid name ++ ["xray.log"%string]) in
    for_each (take LOG_JOURNAL_LINES (lines tail)) (λ line,
      call (Eprintln ("network-orchestrator-daemon: xray[" +:+ name +:+ "] " +:+ line))) ;;;
    XrayProcess.cleanup_stage_at runtime_path uid name) finished s h3) as Hrest.
  { intros s h3 G3. apply g_then_try; [quiet|done|]. intros u h4 G4. apply g_then; [apply log_tail_quiet|].
    intros tail h5 G5. apply g_bind. generalize (take LOG_JOURNAL_LINES (lines tail)) as ls. intros ls.
    clear G5. revert h5. induction ls as [|l ls IH]; intros h5; cbn [for_each].
    - apply g_ret, g_quiet; [quiet|done].
    - apply g_bind, g_call; [done|]. intros []. apply IH. }
  destruct (tracked !! name) as [[owner child]|] eqn:Hlook.
  - destruct (negb _); [by apply g_ret|]. apply stop_guarded; [|intros h3 G3; by apply Hrest].
    intros [u3|e] h3 G3; [by apply Hrest|done].
  - apply recover_guarded. intros [u3|e] h3 G3; [by apply Hrest|done].
Qed.

End operations.

(** C17. Whatever operation the Xray runner is asked for and the system
    answers: it creates, writes and removes files only in the staging
    directory of that user and tunnel, and directories only this one and the
    user's; it starts only the managed binary, after its package was verified
    in the same operation, with the staged configuration or to ask for
    statistics; it signals only children it tracks or has just started, and a
    process found in the record only through a handle opened before the
    process was identified by its start time, its command line and its
    executable. *)
Theorem xray_runner_confined `{Env} `{RuntimeDir} `{IpNetLib} `{Base64Lib} `{Sha256Lib}
    (uid : Z) (name : string) (op : runner_operation) (tracked : XrayProcess.Children) (h : history) :
  wp (run_runner uid name op) (λ _ _ h', traced (runner_guard uid name tracked h) h h') tracked h.
Proof.
  eapply wp_mono with (Q := λ (a : io_result unit) s' h', traced (runner_guard uid name tracked h) h h' ∧ True); [by intros a s' h' []|].
  assert (grown h h) as G0 by reflexivity. destruct op; simpl.
  - apply g_then_try; [quiet|done|]. intros. by apply g_ret.
  - apply g_then_try; [quiet|done|]. intros. by apply g_ret.
  - by apply start_guarded.
  - by apply respawn_guarded.
  - by apply reload_guarded.
  - unfold done_with, XrayProcess.health. apply g_try, g_get. apply g_quiet; [quiet|]. intros [] h' G; [by apply g_ret|done].
  - apply g_try. eapply g_mono; [|by apply query_guarded]. intros [] s' h' _; [by apply g_ret|done].
  - by apply stop_guarded.
  - by apply cleanup_guarded.
Qed.
