(* ===== verification/XrayRecordProps.v ===== *)
(** * The Xray process record, and a reload with geo assets

    What the runner writes down of a child is what it reads back, and what it
    reads of a process cannot be forged by the process's name. A reload that
    brings geo assets fails where there are staged ones already. *)

From S2P Require Export Auth XrayProcessProps.

(** ** Numbers *)

Lemma pretty_go_length k x s : (x < 10 ^ N.of_nat k)%N → str_len (pretty_N_go x s) ≤ k + str_len s.
Proof.
  revert x s. induction k as [|k IH]; intros x s Hx.
  { assert (x = 0)%N as -> by (simpl in Hx; lia). by rewrite pretty_N_go_0. }
  destruct (decide (x = 0)%N) as [->|]; [rewrite pretty_N_go_0; lia|].
  rewrite pretty_N_go_step by lia. etransitivity; [apply IH|simpl; lia].
  apply N.Div0.div_lt_upper_bound. by rewrite Nat2N.inj_succ, N.pow_succ_r' in Hx.
Qed.

Lemma show_Z_length k z : 0 < k → (z < 10 ^ Z.of_nat k)%Z → str_len (show_Z z) ≤ k.
Proof.
  intros Hk Hz. unfold show_Z, pretty, pretty_N. destruct (decide (Z.to_N z = 0)%N); [simpl; lia|].
  etransitivity; [apply (pretty_go_length k)|simpl; lia].
  destruct (Z.leb_spec 0 z); [|lia]. rewrite <- (Z2N.id z) in Hz by done. zify. lia.
Qed.

Lemma parse_uint_show bound z : (0 ≤ z < bound)%Z → parse_uint bound (show_Z z) = Some z.
Proof.
  intros Hz. pose proof (show_Z_start z) as (a & s & Hs & Ha). unfold parse_uint.
  assert (strip_prefix (show_Z z) "+" = None) as ->.
  { rewrite Hs. unfold strip_prefix, starts_with. cbn [String.prefix].
    destruct (ascii_dec "+" a) as [<-|]; [done|done]. }
  rewrite Hs. simpl str_is_empty. cbv iota. rewrite <- Hs. by apply parse_digits_show.
Qed.

Lemma show_Z_graphic z : str_all graphic (show_Z z) = true ∧ str_is_empty (show_Z z) = false.
Proof.
  split.
  - eapply str_all_impl; [|exact (show_digits (Z.to_N z))]. intros a Ha.
    unfold is_ascii_digit, graphic, in_range in *. lia.
  - pose proof (show_Z_start z) as (a & s & -> & _). done.
Qed.

(** ** Text *)

Lemma rsplit_once_str_none s : str_all (λ a, negb (Ascii.eqb a ")")) s = true → rsplit_once_str ") " s = None.
Proof.
  induction s as [|a s IH]; [done|]. cbn [str_all rsplit_once_str]. intros [Ha%negb_true_iff Hs]%andb_prop.
  rewrite IH by done. unfold strip_prefix, starts_with. cbn [String.prefix].
  destruct (ascii_dec ")" a) as [<-|]; [done|done].
Qed.

Lemma rsplit_once_str_last l r : str_all (λ a, negb (Ascii.eqb a ")")) r = true →
  rsplit_once_str ") " (l +:+ ") " +:+ r) = Some (l, r).
Proof.
  intros Hr. induction l as [|a l IH].
  - change (rsplit_once_str ") " (String ")" (String " " r)) = Some (EmptyString, r)).
    assert (strip_prefix (String " " r) ") " = None) as Hno.
    { unfold strip_prefix, starts_with. cbn [String.prefix]. by destruct (ascii_dec ")" " "). }
    cbn [rsplit_once_str]. rewrite (rsplit_once_str_none r), Hno by done.
    exact (f_equal (fmap _) (strip_prefix_app ") " r)).
  - rewrite str_cons_app. cbn [rsplit_once_str]. by rewrite IH.
Qed.

Lemma stat_words_graphic fields : forallb stat_word fields = true →
  forallb (λ w, negb (str_is_empty w) && str_all graphic w) fields = true ∧
  str_all (λ a, negb (Ascii.eqb a ")")) (unwords fields) = true.
Proof.
  intros Hf. split.
  - eapply forallb_impl; [|exact Hf]. intros w. unfold stat_word. rewrite !andb_true_iff.
    intros [Hne Hall]. split; [done|]. revert Hall. apply str_all_impl. intros a.
    unfold stat_char. rewrite andb_true_iff. tauto.
  - rewrite str_all_unwords; [done|done|]. eapply forallb_impl; [|exact Hf].
    intros w. unfold stat_word. rewrite andb_true_iff. intros [_ Hall]. revert Hall.
    apply str_all_impl. intros a. unfold stat_char. rewrite andb_true_iff. tauto.
Qed.

Lemma parse_starttime_line pid comm fields : forallb stat_word fields = true →
  parse_starttime (stat_line pid comm fields) = fields !! 19 ≫= parse_uint (2 ^ 64).
Proof.
  intros Hf. apply stat_words_graphic in Hf as [Hg Hp]. unfold parse_starttime, stat_line.
  assert (pid +:+ " (" +:+ comm +:+ ") " +:+ unwords fields
          = (pid +:+ " (" +:+ comm) +:+ ") " +:+ unwords fields) as -> by (by rewrite <- !str_app_assoc).
  rewrite rsplit_once_str_last by done. unfold split_whitespace. by rewrite split_whitespace_unwords.
Qed.

Lemma split_ws_newline fuel word : split_ws_fuel (Datatypes.S fuel) newline word = flush_word word.
Proof. destruct fuel; simpl; by rewrite app_nil_r. Qed.

Lemma record_words pid starttime :
  split_whitespace (process_record pid starttime) = [show_Z pid; show_Z starttime].
Proof.
  destruct (show_Z_graphic pid) as [Hp Hpe], (show_Z_graphic starttime) as [Hs Hse].
  unfold process_record, split_whitespace. set (s := show_Z pid +:+ _).
  assert (str_len s = str_len (show_Z pid) + (2 + str_len (show_Z starttime))) as Hlen.
  { unfold s. rewrite !str_len_app. simpl. lia. }
  rewrite Hlen. unfold s. rewrite split_ws_word by (done || lia).
  replace (str_len (show_Z pid) + (2 + str_len (show_Z starttime)) - str_len (show_Z pid))
    with (Datatypes.S (Datatypes.S (str_len (show_Z starttime)))) by lia.
  change (" " +:+ show_Z starttime +:+ newline) with (String " " (show_Z starttime +:+ newline)).
  rewrite split_ws_space. change (EmptyString +:+ show_Z pid) with (show_Z pid).
  rewrite split_ws_word by (done || lia). change (EmptyString +:+ show_Z starttime) with (show_Z starttime).
  replace (Datatypes.S (str_len (show_Z starttime)) - str_len (show_Z starttime)) with 1 by lia.
  rewrite split_ws_newline. unfold flush_word. by rewrite Hpe, Hse.
Qed.

(** What is written down of a child reads back as its pid and start time
    and fits the 64 bytes read; and the start time read of [/proc/<pid>/stat]
    is the kernel's 22nd field whatever the process calls itself, a name with
    parentheses, blanks or numbers included. *)
Theorem process_record_identifies (pid starttime : Z) (shown_pid : string) (fields : list string)
    (Hpid : (0 < pid < 2 ^ 32)%Z) (Hstart : (0 ≤ starttime < 2 ^ 64)%Z)
    (Hfields : forallb stat_word fields = true) (Hfield : fields !! 19 = Some (show_Z starttime)) :
  parse_record (process_record pid starttime) = Some (pid, starttime) ∧
  str_len (process_record pid starttime) ≤ 64 ∧
  ∀ comm, parse_starttime (stat_line shown_pid comm fields) = Some starttime.
Proof.
  assert (∀ c, parse_starttime (stat_line shown_pid c fields) = Some starttime) as Hst.
  { intros c. rewrite parse_starttime_line, Hfield by done. simpl. by apply parse_uint_show. }
  split_and!; try done.
  - unfold parse_record. rewrite record_words. rewrite !parse_uint_show by lia. simpl.
    by rewrite (proj2 (Z.eqb_neq _ _)) by lia.
  - unfold process_record. rewrite !str_len_app.
    pose proof (show_Z_length 10 pid ltac:(lia) ltac:(lia)).
    pose proof (show_Z_length 20 starttime ltac:(lia) ltac:(lia)). simpl. lia.
Qed.

Lemma process_record_identifies_witness :
  parse_record (process_record 4242 987654) = Some (4242, 987654)%Z ∧
  parse_starttime (stat_line "4242" "evil) S 1 1 (name"
    ["S"; "1"; "4242"; "4242"; "0"; "-1"; "4194560"; "100"; "0"; "0"; "0"; "1"; "2"; "0"; "0";
     "20"; "0"; "1"; "0"; "987654"; "1000"]%string) = Some 987654%Z.
Proof.
  destruct (process_record_identifies 4242 987654 "4242"
    ["S"; "1"; "4242"; "4242"; "0"; "-1"; "4194560"; "100"; "0"; "0"; "0"; "1"; "2"; "0"; "0";
     "20"; "0"; "1"; "0"; "987654"; "1000"]%string) as (Hr & _ & Hs);
    [by split|by split|vm_compute; reflexivity|vm_compute; reflexivity|].
  split; [exact Hr|apply Hs].
Defined.

(** ** A reload with geo assets *)


(** ** A system with a tunnel and an old process *)

#[local] Existing Instance ipnet_model.

Section demo.

Definition demo_name : string := "xray-demo".
Definition demo_stat : string :=
  stat_line "4242" "xray" ["S"; "1"; "1"; "1"; "0"; "-1"; "0"; "0"; "0"; "0"; "0"; "1"; "2"; "0"; "0";
    "20"; "0"; "1"; "0"; "987654"; "1000"]%string.
Definition demo_runtime : RuntimeDir := {| runtime_dir_env := None |}.
#[local] Existing Instance demo_runtime.
Definition demo_config : path := staging_dir 1000 demo_name ++ ["config.json"%string].
Definition demo_cmdline : bytes :=
  concat (map (λ s, str_bytes s ++ [0%Z]) ["/usr/lib/xray"; "run"; "-config"; path_text demo_config]%string).

Definition demo_file_meta (p : path) : FileMeta :=
  let last := List.last p EmptyString in
  if (p =b managed_binary) || one_of last ["exe"%string] then mkFileMeta false true false false 0 493 100
  else if known_file last then mkFileMeta false true false false 0 384 30
  else mkFileMeta true false false false 0 448 0.

(** The disk holds the package, the tunnel's files and [/proc]; no file can
    be created anew where there is one. *)
Definition demo_system : Env := λ A c h,
  match c in ext A return A → A with
  | FsMetadata p | FsStat p => λ _, Ok (demo_file_meta p)
  | FsCanonicalize p => λ _, Ok p
  | FsReadLink _ => λ _, Ok "/usr/lib/network-orchestrator/xray/v1.8.0/xray (deleted)"%string
  | FsRead p => λ d,
    match List.last p EmptyString with
    | "stat" => Ok (str_bytes demo_stat)
    | file => match List.find (λ x, x.1 =b file) LINUX_REQUIRED_SHA256 with
              | Some (_, hash) => Ok (str_bytes hash)
              | None => d
              end
    end%string
  | FsReadSome p _ => λ _,
    (match List.last p EmptyString with
     | "process" => str_bytes (process_record 4242 987654)
     | "cmdline" => demo_cmdline
     | _ => [1%Z]
     end%string, None)
  | FsOpen _ | FsOpenTruncate _ _ | FsWriteAll _ _ | FsSyncAll _ => λ _, Ok tt
  | PidfdOpen _ => λ _, Some 9%Z
  | PidfdSendSignal _ _ => λ _, true
  | PidfdPoll _ => λ _, Some true
  | _ => λ d, d
  end (failing_answer c).

Definition demo_digest : Sha256Lib := {| sha256_hex := string_of_bytes |}.
Definition demo_decoder : Base64Lib := {| b64_decode _ := Some [1%Z] |}.
Definition demo_children : XrayProcess.Children := {[ demo_name := (1000, 77)%Z ]}.

(** The old process is identified and asked to end. *)
Example old_process_ended :
  (@recover_child demo_system demo_runtime unit 1000 demo_name tt []).1.1 = Some (Ok tt) ∧
  Ev (PidfdSendSignal 9 SIGTERM) true ∈ (@recover_child demo_system demo_runtime unit 1000 demo_name tt []).2.
Proof. split; [vm_compute; reflexivity|]. apply list_elem_of_In. vm_compute. tauto. Qed.


End demo.
