(* ===== verification/QuicReject.v ===== *)
(** * QUIC rejection: [crates/daemon/src/quic_reject.rs]

    A table of nftables per tunnel that rejects UDP to port 443 on the
    tunnel's link. The program talks to [nft] by JSON documents; a comment on
    the table says whose it is. *)

From S2P Require Export XrayProcessProps.

(** ** Documents *)

(** [==] of two values: the order of a map's keys does not count. *)
Definition float_eqb (a b : Z) : bool :=
  Z.eqb a b || (Z.eqb (Z.land a (2 ^ 63 - 1)) 0 && Z.eqb (Z.land b (2 ^ 63 - 1)) 0).

Definition number_eqb (a b : Number) : bool :=
  match a, b with
  | Float a, Float b => float_eqb a b
  | _, _ => bool_decide (a = b)
  end.

Fixpoint value_eqb (v w : Value) : bool :=
  match v, w with
  | JNull, JNull => true
  | JBool b, JBool c => Bool.eqb b c
  | JNumber n, JNumber m => number_eqb n m
  | JString s, JString t => s =b t
  | JArray l, JArray k =>
    (fix items l k :=
       match l, k with
       | [], [] => true
       | x :: l, y :: k => value_eqb x y && items l k
       | _, _ => false
       end) l k
  | JObject l, JObject k =>
    Nat.eqb (length l) (length k)
    && (fix entries l :=
          match l with
          | [] => true
          | (key, x) :: l => is_some_and (value_eqb x) (map_get k key) && entries l
          end) l
  | _, _ => false
  end.

Definition unavailable : io_error := err_other "owned QUIC firewall operation failed".

(** [v.get(key).and_then(Value::as_str) == Some(s)] *)
Definition str_at (v : Value) (key s : string) : bool := (value_get v key ≫= as_str) =b Some s.

Definition objects (document : Value) : io_result (list Value) :=
  ok_or (value_get document "nftables" ≫= as_array) unavailable.

(** [objects.iter().filter_map(|v| v.get(kind))] *)
Definition of_kind (kind : string) (objects : list Value) : list Value :=
  omap (λ v, value_get v kind) objects.

(** ** The owner *)

Record Owner : Type := mkOwnerTable {
  qo_table : string;
  qo_marker : string;
  qo_interface : string;
}.

Definition interface_byte (a : ascii) : bool :=
  is_ascii_alphanumeric (byte_of a) || Ascii.eqb a "-" || Ascii.eqb a "_".

Definition owner_new (uid : Z) (name : string) : io_result Owner :=
  if str_is_empty name || Nat.ltb 15 (str_len name) || negb (str_all interface_byte name)
  then Err (err_new InvalidInput "invalid QUIC rejection interface")
  else Ok (mkOwnerTable ("netorch_quic_" +:+ show_Z uid +:+ "_" +:+ name)
             ("network-orchestrator:xray:" +:+ show_Z uid +:+ ":" +:+ name) name).

Definition expr (owner : Owner) : Value :=
  JArray
    [JObject [("match", JObject
       [("op", jstr "=="); ("left", JObject [("meta", JObject [("key", jstr "oifname")])]);
        ("right", jstr (qo_interface owner))])];
     JObject [("match", JObject
       [("op", jstr "==");
        ("left", JObject [("payload", JObject [("protocol", jstr "udp"); ("field", jstr "dport")])]);
        ("right", jnat 443)])];
     JObject [("reject", JObject [("type", jstr "icmpx"); ("expr", jnat 1)])]]%string.

Definition table_object (owner : Owner) : Value :=
  JObject [("family", jstr "inet"); ("name", jstr (qo_table owner));
           ("comment", jstr (qo_marker owner))]%string.

Definition chain_object (owner : Owner) : Value :=
  JObject [("family", jstr "inet"); ("table", jstr (qo_table owner)); ("name", jstr "output");
           ("type", jstr "filter"); ("hook", jstr "output"); ("prio", JNumber (NegInt (-10)));
           ("policy", jstr "accept")]%string.

Definition rule_object (owner : Owner) : Value :=
  JObject [("family", jstr "inet"); ("table", jstr (qo_table owner)); ("chain", jstr "output");
           ("expr", expr owner)]%string.

(** [{verb: {kind: object}}] *)
Definition nft_command (verb kind : string) (object : Value) : Value :=
  JObject [(verb, JObject [(kind, object)])].

Definition batch (owner : Owner) (replace : bool) : Value :=
  JObject [("nftables"%string, JArray
    ((if replace
      then [nft_command "delete" "table"
              (JObject [("family", jstr "inet"); ("name", jstr (qo_table owner))]%string)]
      else [])
     ++ [nft_command "add" "table" (table_object owner);
         nft_command "add" "chain" (chain_object owner);
         nft_command "add" "rule" (rule_object owner)]))].

Definition is_own_table (owner : Owner) (v : Value) : bool :=
  str_at v "family" "inet" && str_at v "name" (qo_table owner).

Definition foreign_table : io_error :=
  err_new PermissionDenied "QUIC firewall table is owned by another manager".

Definition chain_ok (chain : Value) : bool :=
  str_at chain "name" "output" && str_at chain "type" "filter" && str_at chain "hook" "output"
  && ((value_get chain "prio" ≫= as_i64) =b Some (-10)%Z) && str_at chain "policy" "accept".

Definition intact (owner : Owner) (document : Value) : io_result bool :=
  objects <-? objects document ;
  table <-? ok_or (find (is_own_table owner) (of_kind "table" objects)) unavailable ;
  if negb (str_at table "comment" (qo_marker owner)) then Err foreign_table
  else
    Ok (match of_kind "chain" objects with [chain] => chain_ok chain | _ => false end
        && is_none_or (λ l, Nat.eqb (length l) 0) (value_get table "flags" ≫= as_array)
        && match of_kind "rule" objects with
           | [rule] =>
             str_at rule "chain" "output"
             && is_some_and (λ e, value_eqb e (expr owner)) (value_get rule "expr")
           | _ => false
           end).

(** ** Running nft *)

Definition LIMIT : Z := 256 * 1024.
Definition NFT_ENV : list (string * string) := [("LC_ALL", "C")]%string.
Definition NFT_CANDIDATES : list path :=
  [["/"; "usr"; "sbin"; "nft"]; ["/"; "usr"; "bin"; "nft"]; ["/"; "sbin"; "nft"]]%string.

Definition root_executable (metadata : FileMeta) : bool :=
  fm_is_file metadata && Z.eqb (fm_uid metadata) 0 && Z.eqb (Z.land (fm_mode metadata) 18) 0
  && negb (Z.eqb (Z.land (fm_mode metadata) 73) 0).

Definition root_directory (metadata : FileMeta) : bool :=
  fm_is_dir metadata && Z.eqb (fm_uid metadata) 0 && Z.eqb (Z.land (fm_mode metadata) 18) 0.

Definition list_tables : list string := ["-n"; "-j"; "list"; "tables"]%string.
Definition list_table (owner : Owner) : list string :=
  ["-n"; "-j"; "list"; "table"; "inet"; qo_table owner]%string.
Definition batch_args : list string := ["-j"; "-f"; "-"]%string.
Definition delete_table (owner : Owner) : list string :=
  ["delete"; "table"; "inet"; qo_table owner]%string.

Section nft.
Context `{Env} `{JsonText} {S : Type}.

(** [parent.ancestors().all(..)] *)
Fixpoint directories_safe (directories : list path) : M S bool :=
  match directories with
  | [] => ret true
  | directory :: directories =>
    let! metadata := call (FsStat directory) in
    if is_some_and root_directory (ok metadata) then directories_safe directories else ret false
  end.

(** The loop over the candidates. *)
Fixpoint trusted_among (candidates : list path) : M S (io_result path) :=
  match candidates with
  | [] => fail (err_new NotFound "trusted nftables binary is unavailable; install nftables")
  | candidate :: candidates =>
    let! canonical := call (FsCanonicalize candidate) in
    match canonical with
    | Err _ => trusted_among candidates
    | Ok nft =>
      let! metadata := call (FsStat nft) in
      if negb (is_some_and root_executable (ok metadata)) then trusted_among candidates
      else
        let! safe :=
          match tail (ancestors nft) with
          | [] => ret false
          | parents => directories_safe parents
          end in
        if safe : bool then ret (Ok nft) else trusted_among candidates
    end
  end.

Definition trusted_nft : M S (io_result path) := trusted_among NFT_CANDIDATES.

(** What the reader thread returns when it is joined. *)
Definition join_reader (child : Z) : M S (io_result bytes) :=
  let! '(output, error) := call (ChildStdout child (LIMIT + 1)) in
  match error with
  | Some e => fail e
  | None =>
    if Z.ltb LIMIT (zlen output) then
      let? _ := call (ChildDrain child) in
      fail unavailable
    else ret (Ok output)
  end.

Definition reap (child : Z) : M S unit :=
  call (ChildKill child) ;;; call (ChildWait child) ;;;
  let! _ := join_reader child in ret tt.

(** The loop over [try_wait]. *)
Fixpoint nft_wait (fuel : nat) (child deadline : Z) : M S (io_result bool) :=
  let failed kind := reap child ;;; fail (err_new kind "owned QUIC firewall command failed") in
  let! status := call (ChildTryWait child) in
  match status with
  | Ok (Some success) => ret (Ok success)
  | Ok None =>
    let! now := call Monotonic in
    match fuel with
    | Datatypes.S fuel =>
      if Z.ltb now deadline then
        let! _ := call (SleepMillis 10) in
        nft_wait fuel child deadline
      else failed TimedOut
    | O => failed TimedOut
    end
  | Err _ => failed Other
  end.

(** [serde_json::to_vec] *)
Definition input_bytes (input : option Value) : io_result (option bytes) :=
  match input with
  | None => Ok None
  | Some v => text <-? ok_or (to_string v) unavailable ; Ok (Some (str_bytes text))
  end.

(** The status of the command and its output. *)
Definition nft_run (binary : path) (args : list string) (input : option Value)
    : M S (io_result (bool * bytes)) :=
  let? document := lift (input_bytes input) in
  if is_some_and (λ b, Z.ltb 4096 (zlen b)) document then fail unavailable
  else
    let? child := with_error unavailable (call (PipedSpawn binary args NFT_ENV (is_some input))) in
    let? _ :=
      match document with
      | Some b =>
        let! written := call (ChildStdin child b) in
        match written with
        | Ok _ => ret (Ok tt)
        | Err _ => reap child ;;; fail unavailable
        end
      | None => ret (Ok tt)
      end in
    let! now := call Monotonic in
    let? status := nft_wait (Z.to_nat (5000 / 10)) child (now + 5000) in
    let? output := join_reader child in
    ret (Ok (status, output)).

Definition parse_output (output : bytes) : io_result Value :=
  ok_or (from_utf8 output ≫= from_str) unavailable.

Definition table_listed (owner : Owner) (document : Value) : io_result bool :=
  objects <-? objects document ;
  Ok (existsb (is_own_table owner) (of_kind "table" objects)).

(** [None]: there is no table of that name. *)
Definition inspect (binary : path) (owner : Owner) : M S (io_result (option bool)) :=
  let? tables := nft_run binary list_tables None in
  if negb (fst tables) then fail unavailable
  else
    let? document := lift (parse_output (snd tables)) in
    let? exists_ := lift (table_listed owner document) in
    if negb exists_ then ret (Ok None)
    else
      let? table := nft_run binary (list_table owner) None in
      if negb (fst table) then fail unavailable
      else
        let? document := lift (parse_output (snd table)) in
        lift (state <-? intact owner document ; Ok (Some state)).

Definition ensure (uid : Z) (name : string) : M S (io_result unit) :=
  let? owner := lift (owner_new uid name) in
  let? binary := trusted_nft in
  let? state := inspect binary owner in
  if state =b Some true then ret (Ok tt)
  else
    let? result := nft_run binary batch_args (Some (batch owner (is_some state))) in
    if negb (fst result) then fail unavailable else ret (Ok tt).

Definition remove (uid : Z) (name : string) : M S (io_result unit) :=
  let? owner := lift (owner_new uid name) in
  let? binary := trusted_nft in
  let? state := inspect binary owner in
  if negb (is_some state) then ret (Ok tt)
  else
    let? result := nft_run binary (delete_table owner) None in
    if negb (fst result) then fail unavailable else ret (Ok tt).

End nft.

(** ** Tables of different tunnels *)

Lemma digits_separated d d' s s' (sep : ascii) :
  str_all (λ a, is_ascii_digit (byte_of a)) d = true →
  str_all (λ a, is_ascii_digit (byte_of a)) d' = true → is_ascii_digit (byte_of sep) = false →
  d +:+ String sep s = d' +:+ String sep s' → d = d' ∧ s = s'.
Proof.
  intros Hd Hd' Hsep. revert d' Hd'. induction d as [|a d IH]; intros [|a' d'] Hd' He.
  - by injection He.
  - injection He as <- _. cbn [str_all] in Hd'. by rewrite Hsep in Hd'.
  - injection He as -> _. cbn [str_all] in Hd. by rewrite Hsep in Hd.
  - change (String a (d +:+ String sep s) = String a' (d' +:+ String sep s')) in He.
    injection He as <- He. cbn [str_all] in Hd, Hd'. apply andb_prop in Hd as [_ Hd], Hd' as [_ Hd'].
    by destruct (IH Hd d' Hd' He) as [<- <-].
Qed.

Lemma show_Z_inj z z' : (0 ≤ z)%Z → (0 ≤ z')%Z → show_Z z = show_Z z' → z = z'.
Proof. intros Hz Hz' He. unfold show_Z in He. apply (inj pretty) in He. lia. Qed.

(** The table of a tunnel is no other's. *)
Lemma owner_tables_distinct uid uid' name name' owner owner' :
  (0 ≤ uid)%Z → (0 ≤ uid')%Z → owner_new uid name = Ok owner → owner_new uid' name' = Ok owner' →
  qo_table owner = qo_table owner' → uid = uid' ∧ name = name'.
Proof.
  intros Hu Hu'. unfold owner_new. destruct (_ || _); [done|]. intros [= <-].
  destruct (_ || _); [done|]. intros [= <-]. cbn [qo_table]. intros He%app_inj_l.
  apply digits_separated in He as [He ->]; [|exact (show_digits _)..|done].
  by apply show_Z_inj in He.
Qed.

(** ** Only the tunnel's own table *)

Section guard.
Context `{JsonText} (owner : Owner) (h0 : history).

(** A command of this operation, and its output as a document. *)
Definition spawned (child : Z) (args : list string) (h : history) : Prop :=
  ∃ binary piped, seen h0 (Ev (PipedSpawn binary args NFT_ENV piped) (Ok child)) h.

Definition printed (child : Z) (output : bytes) (h : history) : Prop :=
  seen h0 (Ev (ChildStdout child (LIMIT + 1)) (output, None)) h.

Definition shown (args : list string) (document : Value) (h : history) : Prop :=
  ∃ child output, spawned child args h ∧ printed child output h ∧ parse_output output = Ok document.

(** [nft] showed the table with the owner's comment. *)
Definition marked (h : history) : Prop :=
  ∃ document listed table, shown (list_table owner) document h ∧ objects document = Ok listed ∧
    find (is_own_table owner) (of_kind "table" listed) = Some table ∧
    str_at table "comment" (qo_marker owner) = true.

(** [nft] showed no table of that name. *)
Definition absent (h : history) : Prop :=
  ∃ document, shown list_tables document h ∧ table_listed owner document = Ok false.

(** The binary's place and that of every directory above it are root's. *)
Definition trusted (binary : path) (h : history) : Prop :=
  ∃ candidate metadata, candidate ∈ NFT_CANDIDATES ∧
    seen h0 (Ev (FsCanonicalize candidate) (Ok binary)) h ∧
    seen h0 (Ev (FsStat binary) (Ok metadata)) h ∧ root_executable metadata = true ∧
    ∀ d, d ∈ tail (ancestors binary) →
      ∃ m, seen h0 (Ev (FsStat d) (Ok m)) h ∧ root_directory m = true.

(** The arguments, and whether there is an input. *)
Definition may_run (args : list string) (piped : bool) (h : history) : Prop :=
  if piped then args = batch_args ∧ (marked h ∨ absent h)
  else args = list_tables ∨ args = list_table owner ∨ (args = delete_table owner ∧ marked h).

(** A batch deletes a table only where [nft] showed it marked. *)
Definition may_write (input : bytes) (h : history) : Prop :=
  ∃ replace text, to_string (batch owner replace) = Some text ∧ input = str_bytes text ∧
    if replace : bool then marked h else absent h.

Definition child_call (child : Z) (e : event) : Prop :=
  match e with
  | Ev (ChildKill c) _ | Ev (ChildWait c) _ | Ev (ChildTryWait c) _ | Ev (ChildStdout c _) _
  | Ev (ChildDrain c) _ => c = child
  | Ev Monotonic _ | Ev (SleepMillis _) _ => True
  | _ => False
  end.

Definition quic_guard (e : event) (h : history) : Prop :=
  match e with
  | Ev (FsCanonicalize _) _ | Ev (FsStat _) _ => True
  | Ev (PipedSpawn binary args env piped) _ => trusted binary h ∧ env = NFT_ENV ∧ may_run args piped h
  | Ev (ChildStdin child input) _ => spawned child batch_args h ∧ may_write input h
  | e => ∃ child args, spawned child args h ∧ child_call child e
  end.

Lemma spawned_later child args h h' : grown h h' → spawned child args h → spawned child args h'.
Proof. intros Hg (b & p & Hs). exists b, p. by eapply seen_later. Qed.

Lemma shown_later args document h h' : grown h h' → shown args document h → shown args document h'.
Proof.
  intros Hg (c & o & Hs & Hp & Ho). exists c, o. split; [by eapply spawned_later|]. split; [|done].
  by eapply seen_later.
Qed.

Lemma marked_later h h' : grown h h' → marked h → marked h'.
Proof. intros Hg (d & l & t & Hs & ?). exists d, l, t. split; [by eapply shown_later|done]. Qed.

Lemma absent_later h h' : grown h h' → absent h → absent h'.
Proof. intros Hg (d & Hs & ?). exists d. split; [by eapply shown_later|done]. Qed.

Lemma trusted_later binary h h' : grown h h' → trusted binary h → trusted binary h'.
Proof.
  intros Hg (c & m & Hin & Hc & Hm & Hr & Hd). exists c, m.
  split_and!; [done|by eapply seen_later..|done|]. intros d Hd'.
  destruct (Hd d Hd') as (m' & Hs & Hr'). exists m'. split; [by eapply seen_later|done].
Qed.

Lemma may_write_later input h h' : grown h h' → may_write input h → may_write input h'.
Proof.
  intros Hg (r & t & Ht & Hi & Hr). exists r, t. split_and!; [done..|].
  destruct r; [by eapply marked_later|by eapply absent_later].
Qed.

(** What is done with a child alone keeps the guard. *)
Lemma child_calls_traced child args h h' :
  spawned child args h → traced quic_guard h0 h → extends (child_call child) h h' →
  traced quic_guard h0 h'.
Proof.
  intros Hs Ht (new & -> & Hnew). induction Hnew as [|e new He Hnew IH]; [done|].
  constructor; [exact IH|]. destruct e as [A c a].
  assert (∃ child args, spawned child args (new ++ h) ∧ child_call child (Ev c a)) as Hc.
  { exists child, args. split; [|done]. eapply spawned_later; [by exists new|done]. }
  by destruct c.
Qed.

End guard.

Lemma grown_seen h0 e h : grown h0 h → seen h0 e (e :: h).
Proof. intros [new ->]. by exists [], new. Qed.

Section runs.
Context `{Env} `{JsonText} {S : Type} (owner : Owner) (h0 : history).
Abbreviation guard := (quic_guard owner h0).

Lemma join_reader_calls child : only_calls (S := S) (child_call child) (join_reader child).
Proof. unfold join_reader. quiet; done. Qed.

Lemma reap_calls child : only_calls (S := S) (child_call child) (reap child).
Proof. pose proof (join_reader_calls child). unfold reap. quiet; done. Qed.

Lemma nft_wait_calls fuel child deadline : only_calls (S := S) (child_call child) (nft_wait fuel child deadline).
Proof.
  pose proof (reap_calls child). induction fuel as [|fuel IH]; cbn [nft_wait]; cbv zeta; quiet; done.
Qed.

Lemma join_reader_prints child (s : S) h :
  grown h0 h →
  wp (join_reader child) (λ r s' h', s' = s ∧ extends (child_call child) h h' ∧
    ∀ output, r = Ok output → printed h0 child output h') s h.
Proof.
  intros Hg. unfold join_reader. wp_step. wp_step. destruct a as [output [e|]].
  - split_and!; [done|by eexists [_]; split; [|repeat constructor]|done].
  - destruct (Z.ltb _ _).
    + wp_step. wp_step. destruct a; [wp_step|]; (split_and!; [done| |done]);
        (eexists [_; _]; split; [done|by repeat constructor]).
    + wp_step. split_and!; [done|by eexists [_]; split; [|repeat constructor]|].
      intros ? [= <-]. by apply grown_seen.
Qed.

Lemma only_calls_wp (Q : event → Prop) {A} (m : M S A) (P : A → S → history → Prop) (s : S) h :
  only_calls Q m → (∀ a h', extends Q h h' → P a s h') → wp m P s h.
Proof. intros Hm HP. eapply wp_mono; [|apply Hm]. intros a s' h' [-> Hx]. by apply HP. Qed.

Lemma extends_grown (Q : event → Prop) h h' : extends Q h h' → grown h h'.
Proof. intros (new & -> & _). by exists new. Qed.

Lemma input_text v document :
  input_bytes (Some v) = Ok document →
  ∃ text, to_string v = Some text ∧ document = Some (str_bytes text).
Proof. simpl. destruct (to_string v) as [text|]; simpl; [|done]. intros [= <-]. by exists text. Qed.

(** The command has its input: it is waited for and its output read. *)
Lemma nft_finish_wp child args Q (s : S) h :
  spawned h0 child args h → traced guard h0 h →
  (∀ r h', traced guard h0 h' → grown h h' →
     (∀ status output, r = Ok (status, output) → spawned h0 child args h' ∧ printed h0 child output h') →
     Q r s h') →
  wp (let! now := call Monotonic in
      let? status := nft_wait (Z.to_nat (5000 / 10)) child (now + 5000) in
      let? output := join_reader child in
      ret (Ok (status, output))) Q s h.
Proof.
  intros Hs Ht HQ. wp_step. wp_step. set (h1 := Ev _ _ :: h).
  assert (grown h h1) as G1 by (by eexists [_]).
  assert (traced guard h0 h1) as Ht1.
  { eapply child_calls_traced; [exact Hs|exact Ht|]. eexists [_]. split; [done|by repeat constructor]. }
  apply (spawned_later _ _ _ _ _ G1) in Hs. clearbody h1.
  wp_step. eapply only_calls_wp; [apply nft_wait_calls|]. intros [status|e] h2 X2.
  2: { apply HQ; [by eapply child_calls_traced| |done]. etransitivity; [exact G1|by eapply extends_grown]. }
  assert (traced guard h0 h2) as Ht2 by (by eapply child_calls_traced).
  apply extends_grown in X2. assert (spawned h0 child args h2) as Hs2 by (by eapply spawned_later).
  wp_step. eapply wp_mono; [|apply join_reader_prints; by eapply traced_grown].
  intros r s3 h3 (-> & X3 & Hp). assert (traced guard h0 h3) as Ht3 by (by eapply child_calls_traced).
  apply extends_grown in X3. assert (grown h h3) as G3 by grow.
  destruct r as [output|e]; [|by apply HQ]. wp_step. apply HQ; [done..|]. intros ? ? [= _ <-].
  split; [exact (spawned_later _ _ _ _ _ X3 Hs2)|by apply Hp].
Qed.

(** A command the guard allows, and what is known of its output. *)
Lemma nft_run_wp binary args input Q (s : S) h :
  trusted h0 binary h → may_run owner h0 args (is_some input) h →
  (∀ v text, input = Some v → to_string v = Some text → may_write owner h0 (str_bytes text) h) →
  traced guard h0 h →
  (∀ r h', traced guard h0 h' → grown h h' →
     (∀ status output, r = Ok (status, output) →
        ∃ child, spawned h0 child args h' ∧ printed h0 child output h') → Q r s h') →
  wp (nft_run binary args input) Q s h.
Proof.
  intros Hb Hrun Hwrite Ht HQ. unfold nft_run. wp_step. destruct (input_bytes input) as [document|e] eqn:Hin.
  2: { wp_step. by apply HQ. }
  wp_step. destruct (is_some_and _ document); [wp_step; by apply HQ|].
  wp_step. unfold with_error. wp_step. wp_step.
  match goal with |- context [Ev (PipedSpawn _ _ _ _) ?x :: h] => destruct x as [child|e] end; cbn [map_err].
  2: { wp_step. apply HQ; [|by eexists [_]|done]. constructor; [done|]. by split_and!. }
  set (h1 := Ev _ _ :: h).
  assert (grown h h1) as G1 by (by eexists [_]).
  assert (traced guard h0 h1) as Ht1 by (constructor; [done|]; by split_and!).
  assert (spawned h0 child args h1) as Hs.
  { exists binary, (is_some input). apply grown_seen. by eapply traced_grown. }
  clearbody h1. wp_step. wp_step. destruct document as [b|].
  - destruct input as [v|]; [|done]. destruct (input_text _ _ Hin) as (text & Htext & [= ->]).
    destruct Hrun as [-> _]. wp_step. wp_step. set (h2 := Ev _ _ :: h1).
    assert (grown h1 h2) as G2 by (by eexists [_]).
    assert (traced guard h0 h2) as Ht2.
    { constructor; [done|]. split; [done|]. eapply may_write_later; [exact G1|by eapply Hwrite]. }
    apply (spawned_later _ _ _ _ _ G2) in Hs. destruct a as [u|e].
    + clearbody h2. wp_step. apply (nft_finish_wp child batch_args); [done..|]. intros r h3 Ht3 G3 Hr.
      apply HQ; [done|by grow|]. intros st out He. exists child. by eapply Hr.
    + clearbody h2. wp_step. eapply only_calls_wp; [apply reap_calls|]. intros _ h3 X3. wp_step.
      apply HQ; [by eapply child_calls_traced| |done]. apply extends_grown in X3. by grow.
  - wp_step. apply (nft_finish_wp child args); [done..|]. intros r h3 Ht3 G3 Hr.
    apply HQ; [done|by grow|]. intros st out He. exists child. by eapply Hr.
Qed.

Lemma directories_safe_wp directories Q (s : S) h :
  traced guard h0 h →
  (∀ b h', traced guard h0 h' → grown h h' →
     (b = true → ∀ d, d ∈ directories →
        ∃ m, seen h0 (Ev (FsStat d) (Ok m)) h' ∧ root_directory m = true) → Q b s h') →
  wp (directories_safe directories) Q s h.
Proof.
  revert h. induction directories as [|d l IH]; intros h Ht HQ; cbn [directories_safe].
  { wp_step. apply HQ; [done..|]. by intros _ d Hd%elem_of_nil. }
  wp_step. wp_step. set (h1 := Ev _ _ :: h). assert (traced guard h0 h1) as Ht1 by (by constructor).
  assert (grown h h1) as G1 by (by eexists [_]).
  destruct a as [m|e]; simpl; [destruct (root_directory m) eqn:Hm|]; [|wp_step; by apply HQ..].
  apply IH; [done|]. intros b h2 Ht2 G2 Hb. apply HQ; [done|by grow|]. intros ->.
  intros d' [->|Hd]%elem_of_cons; [|by apply Hb]. exists m. split; [|done].
  eapply seen_later; [exact G2|]. apply grown_seen. by eapply traced_grown.
Qed.

(** What a search for the binary leaves behind. *)
Lemma trusted_among_wp candidates Q (s : S) h :
  (∀ c, c ∈ candidates → c ∈ NFT_CANDIDATES) → traced guard h0 h →
  (∀ r h', traced guard h0 h' → (∀ binary, r = Ok binary → trusted h0 binary h') → Q r s h') →
  wp (trusted_among candidates) Q s h.
Proof.
  revert h. induction candidates as [|c l IH]; intros h Hin Ht HQ; cbn [trusted_among].
  { wp_step. by apply HQ. }
  assert (∀ c', c' ∈ l → c' ∈ NFT_CANDIDATES) as Hl by (intros; apply Hin; set_solver).
  wp_step. wp_step. match goal with |- context [Ev _ ?x :: h] => destruct x as [nft|e] end; [|apply IH; [done| |done]; by constructor].
  set (h1 := Ev _ _ :: h). assert (traced guard h0 h1) as Ht1 by (by constructor).
  assert (seen h0 (Ev (FsCanonicalize c) (Ok nft)) h1) as Hc by (apply grown_seen; by eapply traced_grown).
  clearbody h1. wp_step. wp_step. set (h2 := Ev _ _ :: h1). assert (traced guard h0 h2) as Ht2 by (by constructor).
  assert (grown h1 h2) as G2 by (by eexists [_]).
  destruct a as [m|e]; simpl; [|by apply IH]. destruct (root_executable m) eqn:Hm; simpl; [|by apply IH].
  assert (seen h0 (Ev (FsStat nft) (Ok m)) h2) as Hst by (apply grown_seen; by eapply traced_grown).
  clearbody h2. wp_step. destruct (tail (ancestors nft)) as [|d ds] eqn:Hdirs; [wp_step; by apply IH|].
  apply (directories_safe_wp (d :: ds)); [done|]. intros b h3 Ht3 G3 Hb. destruct b; [|by apply IH].
  wp_step. apply HQ; [done|]. intros ? [= <-]. exists c, m. rewrite Hdirs.
  split_and!; [apply Hin; set_solver| |by eapply seen_later|done|by apply Hb].
  eapply seen_later; [|exact Hc]. by grow.
Qed.

(** A listing of tables, then one of the table. *)
Lemma inspect_wp binary Q (s : S) h :
  trusted h0 binary h → traced guard h0 h →
  (∀ r h', traced guard h0 h' → grown h h' →
     match r with
     | Ok (Some _) => marked owner h0 h'
     | Ok None => absent owner h0 h'
     | Err _ => True
     end → Q r s h') →
  wp (inspect binary owner) Q s h.
Proof.
  intros Hb Ht HQ. unfold inspect. wp_step. apply nft_run_wp; [done|by left|done|done|].
  intros r h1 Ht1 G1 Hr. destruct r as [[status output]|e]; [|by apply HQ].
  cbn [fst snd]. destruct status; simpl negb; cbv iota; [|wp_step; by apply HQ].
  destruct (Hr _ _ eq_refl) as (child & Hs & Hp).
  wp_step. wp_step. destruct (parse_output output) as [document|e] eqn:Hdoc; [|by apply HQ].
  wp_step. wp_step. destruct (table_listed owner document) as [[]|e] eqn:Hlist; simpl negb; cbv iota; [|wp_step|by apply HQ].
  2: { apply HQ; [done..|]. exists document. split; [|done]. by exists child, output. }
  wp_step. apply nft_run_wp; [by eapply trusted_later|by right; left|done|done|].
  intros r h2 Ht2 G2 Hr2. assert (grown h h2) as G02 by grow. destruct r as [[status output2]|e]; [|by apply HQ].
  cbn [fst snd]. destruct status; simpl negb; cbv iota; [|wp_step; by apply HQ].
  destruct (Hr2 _ _ eq_refl) as (child2 & Hs2 & Hp2).
  wp_step. wp_step. destruct (parse_output output2) as [document2|e] eqn:Hdoc2; [|by apply HQ].
  wp_step. unfold intact. destruct (objects document2) as [listed|e] eqn:Hobj; [|by apply HQ]. simpl.
  destruct (find _ _) as [table|] eqn:Hfind; [|by apply HQ]. simpl.
  destruct (str_at table _ _) eqn:Hmark; simpl; [|by apply HQ]. apply HQ; [done..|].
  exists document2, listed, table. split_and!; [|done..]. by exists child2, output2.
Qed.

End runs.

(** What the daemon asks of it. *)
Inductive quic_operation : Type := QuicInstall | QuicWithdraw.

Definition run_quic `{Env} `{JsonText} {S : Type} (op : quic_operation) (uid : Z) (name : string)
    : M S (io_result unit) :=
  match op with QuicInstall => ensure uid name | QuicWithdraw => remove uid name end.

(** The table a command of a batch is about. *)
Definition command_table (v : Value) : option (string * string) :=
  '(_, body) ← as_object v ≫= head;
  '(kind, object) ← as_object body ≫= head;
  family ← value_get object "family" ≫= as_str;
  table ← value_get object (if kind =b "table"%string then "name" else "table") ≫= as_str;
  Some (family, table).

(** Every command of the documents written is about the tunnel's table. *)
Definition batches_own (owner : Owner) : Prop :=
  ∀ replace, ∃ commands, value_get (batch owner replace) "nftables" = Some (JArray commands) ∧
    Forall (λ c, command_table c = Some ("inet"%string, qo_table owner)) commands.

Lemma batches_are_own owner : batches_own owner.
Proof. intros replace. eexists. split; [done|]. destruct replace; repeat constructor. Qed.

(** C23. Whatever [nft] prints and the system answers, the executor runs only
    a binary whose file and directories it had read to be root's, without the
    daemon's environment; it writes only its own batch, every command of which
    is about the tunnel's table; and it deletes or replaces that table only
    where [nft] had just shown it with the tunnel's comment. A name that is no
    interface name is refused before any call. *)
Theorem quic_own_table_only `{Env} `{JsonText} {S : Type} (op : quic_operation) (uid : Z)
    (name : string) (s : S) (h : history) :
  wp (run_quic op uid name) (λ r s' h', s' = s ∧
    match owner_new uid name with
    | Ok owner => traced (quic_guard owner h) h h' ∧ batches_own owner
    | Err e => r = Err e ∧ h' = h
    end) s h.
Proof.
  pose proof batches_are_own as Hown.
  destruct op; cbn [run_quic]; unfold ensure, remove; wp_step;
    (destruct (owner_new uid name) as [owner|e]; [|done]);
    (wp_step; wp_step; apply (trusted_among_wp owner h); [done|constructor|]);
    (intros [binary|e] h1 Ht1 Hb; [|done]);
    (wp_step; apply (inspect_wp owner h); [by apply Hb|done|]);
    (intros [state|e] h2 Ht2 G2 Hst; [|done]).
  - case_bool_decide; [by wp_step|]. wp_step. eapply nft_run_wp; [| | |exact Ht2|].
    + eapply trusted_later; [done|by apply Hb].
    + destruct state; simpl; auto.
    + intros v text [= <-] Ht. exists (is_some state), text. by destruct state.
    + intros [[[] ?]|?] h3 Ht3 _ _; simpl; by try wp_step.
  - destruct state as [state|]; simpl negb; cbv iota; [|by wp_step]. wp_step. eapply nft_run_wp; [| |done|exact Ht2|].
    + eapply trusted_later; [done|by apply Hb].
    + right. by right.
    + intros [[[] ?]|?] h3 Ht3 _ _; simpl; by try wp_step.
Qed.

(** ** What was installed is recognised *)

(** [nft] shows an object with the fields it was given, perhaps with others
    and in another order. *)
Definition shows (object added : Value) : Prop :=
  ∀ key x, value_get added key = Some x →
    ∃ y, value_get object key = Some y ∧ value_eqb y x = true.

Lemma shows_str object added key s :
  shows object added → value_get added key = Some (JString s) → str_at object key s = true.
Proof.
  intros Hs Hg. destruct (Hs key _ Hg) as (y & Hy & He). unfold str_at. rewrite Hy. cbn [mbind option_bind].
  destruct y; try done. simpl in He |- *. apply bool_decide_eq_true in He as ->. by apply bool_decide_eq_true.
Qed.

(** What the batch installs is recognised, in whatever order [nft] prints the
    keys and whatever it adds, so that it is not installed twice; a table of
    that name with another comment is refused as another manager's. *)
Theorem quic_batch_recognised (owner : Owner) (items : list Value) (table chain rule : Value)
    (Htables : of_kind "table" items = [table]) :
  (str_at table "name" (qo_table owner) = true → str_at table "family" "inet" = true →
   str_at table "comment" (qo_marker owner) = false →
   intact owner (JObject [("nftables"%string, JArray items)]) = Err foreign_table) ∧
  (of_kind "chain" items = [chain] → of_kind "rule" items = [rule] →
   shows table (table_object owner) → value_get table "flags" = None →
   shows chain (chain_object owner) → shows rule (rule_object owner) →
   intact owner (JObject [("nftables"%string, JArray items)]) = Ok true).
Proof.
  unfold intact, objects. cbn [value_get map_get]. simpl. rewrite Htables. cbn [List.find]. unfold is_own_table. split.
  - intros -> -> Hc. simpl. by rewrite Hc.
  - intros -> -> Ht Hf Hc Hr.
    rewrite (shows_str _ _ "family" "inet" Ht) by done. rewrite (shows_str _ _ "name" (qo_table owner) Ht) by done.
    simpl. rewrite (shows_str _ _ "comment" (qo_marker owner) Ht) by done. simpl. rewrite Hf. simpl.
    unfold chain_ok. rewrite (shows_str _ _ "name" "output" Hc), (shows_str _ _ "type" "filter" Hc),
      (shows_str _ _ "hook" "output" Hc), (shows_str _ _ "policy" "accept" Hc),
      (shows_str _ _ "chain" "output" Hr) by done.
    destruct (Hc "prio"%string _ eq_refl) as (p & Hp & He). rewrite Hp.
    destruct (Hr "expr"%string _ eq_refl) as (e & Hx & Hxe). rewrite Hx. cbn [is_some_and].
    cbn [snd] in Hxe, He. rewrite Hxe. destruct p as [| |[]| | |]; try done. simpl in He. unfold number_eqb in He.
    apply bool_decide_eq_true in He as [= ->]. done.
Qed.

Definition demo_owner : Owner :=
  mkOwnerTable "netorch_quic_1000_xray-home" "network-orchestrator:xray:1000:xray-home" "xray-home".

(** What [nft -n -j list table] prints after the batch: handles, and the keys
    in another order. *)
Definition demo_items : list Value :=
  [JObject [("metainfo", JObject [("version", jstr "1.0.9"); ("json_schema_version", jnat 1)])];
   JObject [("table", JObject
     [("family", jstr "inet"); ("name", jstr "netorch_quic_1000_xray-home"); ("handle", jnat 7);
      ("comment", jstr "network-orchestrator:xray:1000:xray-home")])];
   JObject [("chain", JObject
     [("family", jstr "inet"); ("table", jstr "netorch_quic_1000_xray-home"); ("name", jstr "output");
      ("handle", jnat 1); ("type", jstr "filter"); ("hook", jstr "output");
      ("prio", JNumber (NegInt (-10))); ("policy", jstr "accept")])];
   JObject [("rule", JObject
     [("family", jstr "inet"); ("table", jstr "netorch_quic_1000_xray-home");
      ("chain", jstr "output"); ("handle", jnat 2);
      ("expr", JArray
        [JObject [("match", JObject
           [("left", JObject [("meta", JObject [("key", jstr "oifname")])]);
            ("right", jstr "xray-home"); ("op", jstr "==")])];
         JObject [("match", JObject
           [("left", JObject [("payload", JObject [("field", jstr "dport"); ("protocol", jstr "udp")])]);
            ("right", jnat 443); ("op", jstr "==")])];
         JObject [("reject", JObject [("expr", jnat 1); ("type", jstr "icmpx")])]])])]]%string.

Definition item (kind : string) : Value := default JNull (head (of_kind kind demo_items)).

Ltac shows_by_computing :=
  let key := fresh in let x := fresh in let Hin := fresh in
  intros key x Hin; unfold value_get, map_get in Hin; simpl in Hin;
  repeat (case_bool_decide; [subst key; injection Hin as <-; eexists; split; [vm_compute; reflexivity|vm_compute; reflexivity]|simpl in Hin]);
  discriminate.

Lemma quic_batch_recognised_witness :
  intact demo_owner (JObject [("nftables"%string, JArray demo_items)]) = Ok true.
Proof.
  apply (proj2 (quic_batch_recognised demo_owner demo_items (item "table") (item "chain") (item "rule") eq_refl));
    [reflexivity|reflexivity|shows_by_computing|reflexivity|shows_by_computing|shows_by_computing].
Defined.
