(* ===== verification/ManagedXrayProps.v ===== *)
(** * What an installation of the managed Xray package does to the disk

    Nothing is touched for an archive that is not the pinned one; what is
    moved into place was read back with the pinned digests after its last
    write; no other path is written. *)

From S2P Require Export ManagedXray Trace.
From S2P Require Export ProcessProps.

Section install.
Context `{Env} `{Sha256Lib} `{ZipLib} `{EntryOrder} {S : Type}.
Context (root : path) (layout : ArchiveLayout) (required : list (string * string)).

Definition final_dir : path := root ++ [al_version layout].

(** A directory this program names as its staging directory. *)
Definition is_staging (p : path) : Prop :=
  ∃ pid nanos, p = root ++ [staging_name (al_version layout) pid nanos].

(** [e] read the file [n] of [p] with the digest [hash]. *)
Definition reads_pinned (p : path) (n hash : string) (e : event) : Prop :=
  match e with
  | Ev c a => match c in ext A return A → Prop with
    | FsRead q => λ a, q = p ++ [n] ∧ ∃ data, a = Ok data ∧ sha256_hex data = hash
    | _ => λ _, False
    end a
  end.

(** [e] may change what the files under [p] hold. *)
Definition writes (p : path) (e : event) : Prop :=
  match e with
  | Ev (FsWriteAll q _) _ | Ev (FsCreateNew q _) _ => ∃ n, q = p ++ [n]
  | Ev (FsRename q q') _ => q = p ∨ q' = p
  | Ev (FsRemoveDirAll q) _ | Ev (FsRemoveFile q) _ => q = p
  | _ => False
  end.

(** The file was read with its digest and nothing was written since. *)
Fixpoint pinned_since (p : path) (n hash : string) (h : history) : Prop :=
  match h with
  | [] => False
  | e :: h => reads_pinned p n hash e ∨ (¬ writes p e ∧ pinned_since p n hash h)
  end.

Definition all_pinned (p : path) (h : history) : Prop :=
  ∀ n hash, (n, hash) ∈ required → pinned_since p n hash h.

(** What an installation may ask for; to move a directory into place, every
    required file of it must be pinned. *)
Definition install_call (e : event) (h : history) : Prop :=
  match e with
  | Ev (FsMetadata _) _ | Ev (FsStat _) _ | Ev (FsRead _) _ | Ev (FsExists _) _ | Ev ProcessTag _ => True
  | Ev (FsCreateDirAll p) _ => p = root
  | Ev (FsCreateDir p _) _ => is_staging p
  | Ev (FsCreateNew p _) _ | Ev (FsWriteAll p _) _ =>
    ∃ staging n, is_staging staging ∧ n ∈ al_allowlist layout ∧ p = staging ++ [n]
  | Ev (FsSetPermissions p _) _ =>
    p = root ∨ ∃ d, (d = final_dir ∨ is_staging d) ∧ (p = d ∨ ∃ n, p = d ++ [n])
  | Ev (FsRename p q) _ => is_staging p ∧ q = final_dir ∧ all_pinned p h
  | Ev (FsRemoveDirAll p) _ => is_staging p
  | _ => False
  end.

(** A call that writes no file. *)
Definition quiet (e : event) : Prop :=
  match e with
  | Ev (FsMetadata _) _ | Ev (FsStat _) _ | Ev (FsRead _) _ | Ev (FsExists _) _ => True
  | Ev (FsSetPermissions p _) _ =>
    p = root ∨ ∃ d, (d = final_dir ∨ is_staging d) ∧ (p = d ∨ ∃ n, p = d ++ [n])
  | _ => False
  end.

Lemma quiet_writes p e : quiet e → ¬ writes p e.
Proof. destruct e as [A c a]; destruct c; simpl; tauto. Qed.

Lemma quiet_allowed e h : quiet e → install_call e h.
Proof. destruct e as [A c a]; destruct c; simpl; tauto. Qed.

Lemma pinned_quiet p n hash new h : Forall quiet new → pinned_since p n hash h → pinned_since p n hash (new ++ h).
Proof.
  induction 1 as [|e new He _ IH]; [done|]. intros Hp. right. split; [by apply quiet_writes|by apply IH].
Qed.

Lemma traced_quiet new h : Forall quiet new → traced install_call h (new ++ h).
Proof. induction 1; [constructor|]. constructor; [done|by apply quiet_allowed]. Qed.

Lemma extends_traced h h' : extends quiet h h' → traced install_call h h'.
Proof. intros (new & -> & Hnew). by apply traced_quiet. Qed.

Lemma pinned_extends p n hash h h' : extends quiet h h' → pinned_since p n hash h → pinned_since p n hash h'.
Proof. intros (new & -> & Hnew). by apply pinned_quiet. Qed.

(** ** The parts *)

Lemma protect_quiet p : p = root ∨ (∃ d, (d = final_dir ∨ is_staging d) ∧ (p = d ∨ ∃ n, p = d ++ [n])) →
  only_calls (S := S) quiet (protect_path p).
Proof. intros Hp. unfold protect_path. by only_calls_tac; simpl. Qed.

Lemma protect_tree_quiet d names exe : d = final_dir ∨ is_staging d →
  only_calls (S := S) quiet (protect_version_tree root d names exe).
Proof.
  intros Hd. unfold protect_version_tree.
  apply only_try_bind; [apply protect_quiet; by left|]. intros _.
  apply only_try_bind; [apply protect_quiet; right; exists d; split; [done|by left]|]. intros _.
  apply only_try_bind; [apply only_for_try; intros _ n _; apply protect_quiet; right; exists d; split; [done|right; by exists n]|].
  intros _. only_calls_tac. right. exists d. split; [done|]. right. by exists exe.
Qed.

(** Reads that pinned what they were after. *)
Definition verified (d : path) (l : list (string * string)) (ok : bool) (h h' : history) : Prop :=
  extends quiet h h' ∧ (ok = true → ∀ n hash, (n, hash) ∈ l → pinned_since d n hash h').

Lemma version_verified_pins d l (s : S) h :
  wp (version_verified d l) (λ ok s' h', s' = s ∧ verified d l ok h h') s h.
Proof.
  revert s h. induction l as [|[n hash] l IH]; intros s h; cbn [version_verified].
  { wp_step. split; [done|]. split; [reflexivity|]. intros _ n hash Hin. by apply elem_of_nil in Hin. }
  assert (∀ h', extends quiet h h' → s = s ∧ verified d ((n, hash) :: l) false h h') as Hno.
  { intros h' He. split; [done|]. by split. }
  wp_step. wp_step. destruct a as [metadata|]; [|wp_step; apply Hno; eexists [_]; split; [done|by repeat constructor]].
  destruct (fm_is_file metadata && _); [|wp_step; apply Hno; eexists [_]; split; [done|by repeat constructor]].
  wp_step. wp_step. destruct a as [data|]; [|wp_step; apply Hno; eexists [_; _]; split; [done|by repeat constructor]].
  case_bool_decide as Hsha; [|wp_step; apply Hno; eexists [_; _]; split; [done|by repeat constructor]].
  eapply wp_mono; [|apply IH]. intros ok s' h' (-> & Hext & Hpin). split; [done|]. split.
  - etransitivity; [|exact Hext]. eexists [_; _]. split; [done|by repeat constructor].
  - intros Hok n' hash' [[= -> ->]|Hin]%elem_of_cons; [|by apply Hpin].
    eapply pinned_extends; [exact Hext|]. left. split; [done|]. by exists data.
Qed.

Lemma verify_hashes_pins d l (s : S) h :
  wp (verify_required_hashes d l) (λ r s' h', s' = s ∧ verified d l (is_ok r) h h') s h.
Proof.
  unfold verify_required_hashes. revert s h.
  induction l as [|[n hash] l IH]; intros s h; cbn [for_try].
  { wp_step. split; [done|]. split; [reflexivity|]. intros _ n hash Hin. by apply elem_of_nil in Hin. }
  wp_step. wp_step. wp_step. destruct a as [data|e].
  2: { split; [done|]. split; [|done]. eexists [_]. split; [done|by repeat constructor]. }
  case_bool_decide as Hsha; simpl.
  2: { wp_step. split; [done|]. split; [|done]. eexists [_]. split; [done|by repeat constructor]. }
  wp_step. eapply wp_mono; [|apply IH]. intros r s' h' (-> & Hext & Hpin). split; [done|]. split.
  - etransitivity; [|exact Hext]. eexists [_]. split; [done|by repeat constructor].
  - intros Hok n' hash' [[= -> ->]|Hin]%elem_of_cons; [|by apply Hpin].
    eapply pinned_extends; [exact Hext|]. left. split; [done|]. by exists data.
Qed.

Lemma selected_allowed archive selected : selected_entries layout archive = Ok selected →
  Forall (λ x : string * nat, x.1 ∈ al_allowlist layout) selected.
Proof.
  unfold selected_entries. destruct (allowlisted_central_names _ _); cbn [rbind]; [|done].
  destruct (no_duplicates _ _); cbn [rbind]; [|done]. destruct (map_err _ _) as [entries|]; cbn [rbind]; [|done].
  destruct (select_entries layout ([], 0%Z) (enumerate entries)) as [[sel tot]|] eqn:Hsel; cbn [rbind]; [|done].
  destruct (missing_required _ _); [done|]. intros [= ->]. revert Hsel.
  assert (Forall (λ x : string * nat, x.1 ∈ al_allowlist layout) []) as Hnil by constructor. revert Hnil.
  generalize (@nil (string * nat)) as acc, 0%Z as t. induction (enumerate entries) as [|e l IH]; intros acc t Hacc; cbn [select_entries].
  { by intros [= <- _]. }
  destruct (select_entry layout (acc, t) e) as [[acc' t']|] eqn:He; cbn [rbind]; [|done]. apply IH.
  unfold select_entry in He. destruct e as [i [entry|]]; cbn [map_err rbind] in He; [|done].
  destruct (vec_contains (al_allowlist layout) (ze_name entry)) eqn:Hin; rewrite ?orb_true_r in He;
    [|by injection He as <- _].
  repeat case_match; try done; injection He as <- _; try done.
  apply Forall_app. split; [done|]. apply Forall_singleton. by apply vec_contains_spec.
Qed.

Lemma extract_calls archive entries staging x (s : S) h :
  is_staging staging → x.1 ∈ al_allowlist layout →
  wp (extract_entry archive entries staging x) (λ _ s' h', s' = s ∧ traced install_call h h') s h.
Proof.
  intros Hst Hin. destruct x as [n i]. unfold extract_entry. wp_step. wp_step.
  destruct (map_err _ _) as [entry|]; [|by split; [|constructor]]. cbv zeta.
  assert (∀ c : ext (io_result unit), (∃ m, c = FsCreateNew (staging ++ [n]) m) ∨ (∃ d, c = FsWriteAll (staging ++ [n]) d) →
    ∀ a h', install_call (Ev c a) h') as Hfile.
  { intros c [[m ->]|[d ->]] a h'; by exists staging, n. }
  wp_step. wp_step. destruct a; [|split; [done|]; apply traced_one, Hfile; left; by eexists].
  wp_step. wp_step. destruct (zip_read _ _ _) as [data|]; [|split; [done|]; apply traced_one, Hfile; left; by eexists].
  wp_step. wp_step.
  match goal with |- context [Ev (FsWriteAll _ _) ?a :: ?h'] =>
    assert (traced install_call h (Ev (FsWriteAll (staging ++ [n]) data) a :: h')) as Ht end.
  { constructor; [apply traced_one; apply Hfile; left; by eexists|]. apply Hfile. right. by eexists. }
  destruct a0; [|by split]. destruct (negb _); [by wp_step|].
  eapply wp_mono; [|apply protect_quiet; right; exists staging; split; [by right|right; by exists n]].
  intros r s' h' [-> Hext]. split; [done|]. eapply traced_trans; [exact Ht|by apply extends_traced].
Qed.

Lemma extract_all_calls archive entries staging l (s : S) h :
  is_staging staging → Forall (λ x : string * nat, x.1 ∈ al_allowlist layout) l →
  wp (for_try l tt (λ _, extract_entry archive entries staging))
    (λ _ s' h', s' = s ∧ traced install_call h h') s h.
Proof.
  intros Hst Hall. apply wp_for_try with (I := λ l _ s' h',
    s' = s ∧ traced install_call h h' ∧ Forall (λ x : string * nat, x.1 ∈ al_allowlist layout) l).
  - split_and!; [done|constructor|done].
  - intros x l' _ s1 h1 (-> & Ht & [Hx Hl]%Forall_cons). eapply wp_mono; [|by apply extract_calls].
    intros [u|e] s2 h2 [-> Ht2]; [|split; [done|by eapply traced_trans]].
    split_and!; [done|by eapply traced_trans|done].
  - by intros _ s1 h1 (-> & Ht & _).
Qed.

Lemma staging_not_final p : is_staging p → p ≠ final_dir.
Proof.
  intros (pid & nanos & ->) He. apply app_inv_head in He. injection He as He.
  apply (f_equal str_len) in He. unfold staging_name in He. rewrite !str_len_app in He. simpl in He. lia.
Qed.

(** Where an installation that succeeded leaves the package. *)
Definition installation (inst : ManagedXrayInstallation) (h' : history) : Prop :=
  mi_version_dir inst = final_dir ∧ mi_executable inst = final_dir ++ [al_executable_name layout] ∧
  if mi_created inst
  then ∃ staging new h1, is_staging staging ∧ all_pinned staging h1 ∧
         h' = new ++ Ev (FsRename staging final_dir) (Ok tt) :: h1
  else all_pinned final_dir h'.

Lemma fill_staging_ok archive entries staging selected (s : S) h :
  is_staging staging → Forall (λ x : string * nat, x.1 ∈ al_allowlist layout) selected →
  wp (fill_staging layout required root staging final_dir archive entries selected)
    (λ r s' h', s' = s ∧ traced install_call h h' ∧
      match r with Ok inst => installation inst h' | Err _ => True end) s h.
Proof.
  intros Hst Hsel. unfold fill_staging. cbv zeta. wp_step. wp_step.
  assert (traced install_call h (Ev (FsCreateDir staging 511) a :: h)) as Ht0 by (by apply traced_one).
  destruct a; [|done]. wp_step.
  eapply wp_mono; [|apply protect_quiet; right; exists staging; split; [by right|by left]].
  intros r1 s1 h1 [-> He1]. pose proof (traced_trans _ _ _ _ Ht0 (extends_traced _ _ He1)) as Ht1.
  destruct r1; [|done]. wp_step.
  eapply wp_mono; [|apply extract_all_calls; [done|]].
  2: { by rewrite (entry_order_perm selected). }
  intros r2 s2 h2 [-> He2]. pose proof (traced_trans _ _ _ _ Ht1 He2) as Ht2.
  destruct r2; [|done]. wp_step. eapply wp_mono; [|apply verify_hashes_pins].
  intros r3 s3 h3 (-> & He3 & Hpin). pose proof (traced_trans _ _ _ _ Ht2 (extends_traced _ _ He3)) as Ht3.
  destruct r3; [|done]. specialize (Hpin eq_refl). wp_step.
  eapply wp_mono; [|apply protect_tree_quiet; by right].
  intros r4 s4 h4 [-> He4]. pose proof (traced_trans _ _ _ _ Ht3 (extends_traced _ _ He4)) as Ht4.
  assert (all_pinned staging h4) as Hpin4 by (intros n hash Hin; eapply pinned_extends; [exact He4|by apply Hpin]).
  destruct r4; [|done]. wp_step. wp_step.
  match goal with |- context [Ev (FsRename _ _) ?a :: _] => rename a into renamed end.
  assert (traced install_call h (Ev (FsRename staging final_dir) renamed :: h4)) as Ht5 by (constructor; [done|by split_and!]).
  destruct renamed as [[]|err].
  { wp_step. split_and!; [done|done|]. split_and!; [done|done|]. by exists staging, [], h4. }
  wp_step. eapply wp_mono; [|apply version_verified_pins]. intros ok s6 h6 (-> & He6 & Hpin6).
  pose proof (traced_trans _ _ _ _ Ht5 (extends_traced _ _ He6)) as Ht6.
  destruct ok; [|by wp_step]. wp_step. eapply wp_mono; [|apply protect_tree_quiet; by left].
  intros r7 s7 h7 [-> He7]. pose proof (traced_trans _ _ _ _ Ht6 (extends_traced _ _ He7)) as Ht7.
  destruct r7; [|done]. wp_step. split_and!; [done|done|]. split_and!; [done|done|].
  intros n hash Hin. eapply pinned_extends; [exact He7|by apply Hpin6].
Qed.

(** Taking the staging directory away leaves the installation. *)
Lemma installation_cons inst e h : ¬ writes final_dir e → installation inst h → installation inst (e :: h).
Proof.
  intros Hw (Hdir & Hexe & Hpinned). split_and!; [done..|]. destruct (mi_created inst).
  - destruct Hpinned as (staging & new & h1 & Hst & Hpin & ->). by exists staging, (e :: new), h1.
  - intros n hash Hin. right. split; [done|by apply Hpinned].
Qed.

(** C18. Installing a package, whatever the archive holds and the disk
    answers. An archive of another digest is refused before any call.
    Otherwise files are only written below a new staging directory of the
    root, and only the names of the allow-list; the version directory appears
    by the rename of a staging directory whose pinned files had all been read
    back, after their last write, with the digest the layout pins. A version
    directory that was there already is accepted only when its pinned files
    read so. *)
Theorem install_only_pinned (archive : bytes) (expected_hash : string) (s : S) (h : history) :
  wp (install_archive_for_platform root archive expected_hash required layout)
    (λ r s' h', s' = s ∧
      (sha256_hex archive ≠ expected_hash → is_err r = true ∧ h' = h) ∧
      traced install_call h h' ∧
      match r with Ok inst => installation inst h' | Err _ => True end) s h.
Proof.
  unfold install_archive_for_platform. destruct (Z.ltb_spec MAX_XRAY_ARCHIVE_BYTES (zlen archive)).
  { wp_step. split_and!; [done|done|constructor|done]. }
  case_bool_decide as Hsha; simpl negb; cbv iota.
  2: { wp_step. split_and!; [done|done|constructor|done]. }
  cbv zeta. unfold is_dir. wp_step. wp_step. wp_step. fold final_dir.
  wp_step. match goal with |- context [Ev (FsStat ?p) ?a :: h] =>
    assert (extends quiet h (Ev (FsStat p) a :: h)) as He0 by (eexists [_]; split; [done|by repeat constructor]) end.
  destruct (match a with Ok _ => _ | Err _ => _ end).
  - wp_step. eapply wp_mono; [|apply version_verified_pins]. intros ok s1 h1 (-> & He1 & Hpin).
    assert (extends quiet h h1) as He01 by (by etransitivity).
    destruct ok; [|wp_step; split_and!; [done|done|by apply extends_traced|done]].
    wp_step. eapply wp_mono; [|apply protect_tree_quiet; by left]. intros r2 s2 h2 [-> He2].
    assert (extends quiet h h2) as He02 by (by etransitivity).
    destruct r2; [wp_step|]; (split_and!; [done|done|by apply extends_traced|]); [|done].
    split_and!; [done|done|]. intros n hash Hin. eapply pinned_extends; [exact He2|by apply Hpin].
  - pose proof (extends_traced _ _ He0) as Ht0. wp_step. wp_step.
    destruct (selected_entries layout archive) as [selected|] eqn:Hsel; [|by split_and!].
    apply selected_allowed in Hsel. wp_step. wp_step. destruct (map_err _ _) as [entries|]; [|by split_and!].
    wp_step. wp_step. match goal with |- context [Ev (FsCreateDirAll root) ?a :: ?h1] =>
      assert (traced install_call h (Ev (FsCreateDirAll root) a :: h1)) as Ht1 by (by constructor);
      destruct a; [|by split_and!] end.
    wp_step. eapply wp_mono; [|apply protect_quiet; by left]. intros r2 s2 h2 [-> He2].
    pose proof (traced_trans _ _ _ _ Ht1 (extends_traced _ _ He2)) as Ht2.
    destruct r2; [|by split_and!]. wp_step. wp_step. match goal with |- context [Ev ProcessTag ?a :: _] => destruct a as [pid nanos] end.
    set (staging := root ++ _). assert (is_staging staging) as Hst by (by exists pid, nanos).
    wp_step. eapply wp_mono; [|by apply fill_staging_ok]. intros outcome s3 h3 (-> & He3 & Hinst).
    assert (traced install_call h h3) as Ht3.
    { eapply traced_trans; [|exact He3]. by constructor. }
    assert (∀ left h4, traced install_call h h4 → match outcome with Ok inst => installation inst h4 | Err _ => True end →
      wp ((if left : bool then call (FsRemoveDirAll staging) ;;; ret tt else ret tt) ;;; ret outcome)
        (λ r s' h', s' = s ∧ (sha256_hex archive ≠ expected_hash → is_err r = true ∧ h' = h) ∧
          traced install_call h h' ∧ match r with Ok inst => installation inst h' | Err _ => True end) s h4) as Hend.
    { intros left h4 Ht4 Hi4. destruct left; wp_steps; (split_and!; [done|done| |]); try done.
      - by constructor.
      - destruct outcome; [|done]. apply installation_cons; [|done]. simpl. by apply staging_not_final. }
    wp_step. destruct (is_err outcome); wp_step.
    { by apply (Hend true). }
    apply Hend; try done.
    + by constructor.
    + destruct outcome; [|done]. apply installation_cons; [simpl; tauto|done].
Qed.

End install.

(** ** A release of one file, installed *)

Definition demo_layout : ArchiveLayout := mkLayout "v1" "xray" ["xray"%string] ["xray"%string].
Definition demo_archive : bytes :=
  ([80; 75; 1; 2] ++ repeat 0 24 ++ [4; 0; 0; 0; 0; 0] ++ repeat 0 12 ++ [120; 114; 97; 121]
   ++ [80; 75; 5; 6] ++ repeat 0 6 ++ [1; 0] ++ repeat 0 10)%Z.

Definition demo_sha : Sha256Lib := {| sha256_hex := string_of_bytes |}.
Definition demo_zip : ZipLib := {|
  zip_open _ := Ok [Ok (mkZipEntry "xray" true None 2)];
  zip_read _ _ _ := Ok [69; 76]%Z |}.
Definition demo_order : EntryOrder := {| entry_order l := l; entry_order_perm l := reflexivity l |}.

(** A disk with nothing in the root yet. *)
Definition demo_disk : Env := λ A c h,
  match c in ext A return A → A with
  | FsStat p => λ d, if List.last p EmptyString =b "v1"%string then d
                     else Ok (mkFileMeta true false false false 0 0 0)
  | FsRead _ => λ _, Ok [69; 76]%Z
  | FsCreateDirAll _ | FsCreateDir _ _ | FsCreateNew _ _ | FsWriteAll _ _ | FsRename _ _
  | FsSetPermissions _ _ => λ _, Ok tt
  | _ => λ d, d
  end (failing_answer c).

Example demo_install :
  let run hash := (@install_archive_for_platform demo_disk demo_sha demo_zip demo_order unit
    ["/opt"%string] demo_archive hash [("xray", "EL")]%string demo_layout tt []) in
  (run (string_of_bytes demo_archive)).1.1
    = Some (Ok (mkInstallation ["/opt"; "v1"; "xray"] ["/opt"; "v1"] true)%string) ∧
  (run "another digest"%string).2 = [].
Proof. vm_compute. done. Qed.
