(* ===== verification/HelperProps.v ===== *)
(** * What the macOS helper does to the route table

    Every operation on the intents, under every answer of the tools: a route
    is added only where the table just read has none, and deleted only when
    the helper installed it and it is still in place. *)

From S2P Require Export Trace HelperIntents.

(** The table as the helper last read it. *)
Fixpoint last_table (h : history) : list RouteEntry :=
  match h with
  | [] => []
  | Ev c a :: h' =>
    match c in ext A return A → list RouteEntry with
    | ListRoutes => λ r, unwrap_or (ok r) []
    | _ => λ _, last_table h'
    end a
  end.

Definition recorded (s : State) : list RouteOp :=
  flat_map sd_installed (st_intents s) ++ flat_map sr_installed (st_rules s).

Lemma Forall_flat_map {A B} (P : B → Prop) (f : A → list B) l :
  Forall (λ x, Forall P (f x)) l ↔ Forall P (flat_map f l).
Proof.
  induction l as [|x l IH]; simpl; [by split; constructor|].
  by rewrite Forall_cons, Forall_app, IH.
Qed.

Section guard.
Context `{IpNetLib} (show_ip : IpAddr → string).
(** The routes on record when the helper started. *)
Context (initial : list RouteOp).

(** On record at the start, or added with success since. *)
Definition owned (h : history) (op : RouteOp) : Prop :=
  op ∈ initial ∨ ∃ out, Ev (RunTool ROUTE (args show_ip op "add")) (Ok out) ∈ h.

Definition adds_into_gap (argv : list string) (h : history) : Prop :=
  ∃ wanted, argv = args show_ip (op_of wanted) "add" ∧
    Forall (λ e, entry_for (wr_destination wanted) e = false) (last_table h).

Definition deletes_own (argv : list string) (h : history) : Prop :=
  ∃ op, argv = delete_args show_ip op ∧ owned h op ∧ still_ours (last_table h) op = true.

(** The [route] commands the helper may run. *)
Definition careful (e : event) (h : history) : Prop :=
  match e with
  | Ev c _ =>
    match c with
    | RunTool program argv =>
      program = ROUTE → argv = default_args ∨ adds_into_gap argv h ∨ deletes_own argv h
    | _ => True
    end
  end.

Definition sound (s : State) (h : history) : Prop := ∀ op, op ∈ recorded s → owned h op.

Lemma owned_cons e h op : owned h op → owned (e :: h) op.
Proof. intros [Hi|[out Hin]]; [by left|right]. exists out. by constructor. Qed.

Lemma owned_traced G h h' op : traced G h h' → owned h op → owned h' op.
Proof. intros Ht Ho. induction Ht; [done|by apply owned_cons]. Qed.

Lemma sound_traced G s h h' : traced G h h' → sound s h → sound s h'.
Proof. intros Ht Hs op Hop. eapply owned_traced; [done|by apply Hs]. Qed.

Lemma judge_missing_gap wanted ours table : judge wanted ours table = RouteMissing →
  Forall (λ e, entry_for (wr_destination wanted) e = false) table.
Proof.
  unfold judge. destruct (bfilter _ table) as [|x l] eqn:Hf; [|by repeat case_match].
  intros _. apply Forall_forall. intros e He.
  destruct (entry_for _ e) eqn:Hm; [|done].
  assert (e ∈ bfilter (entry_for (wr_destination wanted)) table) as Hin by (by apply elem_of_bfilter).
  rewrite Hf in Hin. by apply elem_of_nil in Hin.
Qed.
End guard.

#[export] Hint Resolve owned_cons : core.

Section runs.
Context `{Env} `{IpNetLib} `{JsonCodec Document} (show_ip : IpAddr → string) (state_dir : path).
Context (initial : list RouteOp).
Abbreviation owned := (owned show_ip initial).
Abbreviation careful := (careful show_ip initial).
Abbreviation sound := (sound show_ip initial).

(** Code that only asks: the state stays, and no route command is run. *)
Definition asks_only {A} (m : M State A) (Q : history → A → history → Prop) : Prop :=
  ∀ s h, wp m (λ a s' h', s' = s ∧ traced careful h h' ∧ Q h a h') s h.

(** A quiet call passes the guard. *)
Ltac quiet := repeat first [ exact I | apply traced_refl | (apply traced_cons; [|try exact I]) ].

Lemma probe_routes_asks : asks_only probe_routes (λ _ table h', table = last_table h').
Proof. intros s h. unfold probe_routes. wp_steps. split; [done|]. split; [quiet|done]. Qed.

Lemma detect_uplink_asks : asks_only detect_uplink (λ _ _ _, True).
Proof.
  intros s h. unfold detect_uplink.
  assert (∀ a, traced careful h (Ev (RunTool ROUTE default_args) a :: h)) as Ht
    by (intros a; apply traced_one; intros _; by left).
  wp_steps. repeat case_match; wp_steps; by split.
Qed.

Lemma probe_view_asks : asks_only probe_view (λ _ _ _, True).
Proof.
  intros s h. unfold probe_view. wp_step. eapply wp_mono; [|apply detect_uplink_asks].
  intros found s' h' (-> & Ht & _). wp_steps. split; [done|]. split; [|done].
  quiet; [done|]. intros Hr. by vm_compute in Hr.
Qed.

Lemma save_asks : asks_only (save state_dir) (λ _ _ _, True).
Proof.
  intros s h. unfold save. repeat first [wp_step | case_match]; (split; [done|]); split; try done; quiet.
Qed.

Lemma saved_asks message : asks_only (saved state_dir message) (λ _ _ _, True).
Proof.
  intros s h. unfold saved. wp_step. eapply wp_mono; [|apply save_asks].
  intros r s' h' (-> & Ht & _). by wp_step.
Qed.

(** [withdraw] deletes recorded routes that are still in place. *)
Lemma withdraw_careful ops table s h :
  table = last_table h → Forall (owned h) ops →
  wp (withdraw show_ip ops table) (λ _ s' h', s' = s ∧ traced careful h h' ∧ last_table h' = table) s h.
Proof.
  intros Htab Hops. unfold withdraw.
  apply wp_for_each with (I := λ l s' h', Forall (owned h') l ∧
    s' = s ∧ traced careful h h' ∧ last_table h' = table); [by repeat split; try constructor| |tauto].
  clear Hops. intros op rest s' h' (Hops & -> & Ht & Htab'). apply Forall_cons in Hops as [Hop Hrest].
  destruct (still_ours table op) eqn:Hs; [|by wp_steps].
  unfold HelperRoutes.delete. wp_steps. split; [eapply Forall_impl; [done|auto]|]. split; [done|].
  split; [|done]. apply traced_cons; [done|]. intros _. right; right. exists op. by rewrite Htab'.
Qed.

(** One wanted route: what is recorded afterwards was recorded or added. *)
Lemma apply_wanted_careful table acc wanted s h :
  table = last_table h → Forall (owned h) acc.1 →
  wp (apply_wanted show_ip table acc wanted) (λ acc' s' h',
    s' = s ∧ traced careful h h' ∧ last_table h' = table ∧ Forall (owned h') acc'.1 ∧
    (acc'.2 = false → acc.2 = false)) s h.
Proof.
  intros Htab Hacc. destruct acc as [installed changed]. unfold apply_wanted. cbv zeta. simpl in Hacc.
  destruct (judge wanted _ table) as [| |detail] eqn:Hj; wp_steps.
  - repeat split; try done. constructor.
  - unfold add. wp_steps.
    assert (∀ r, traced careful h (Ev (RunTool ROUTE (args show_ip (op_of wanted) "add")) r :: h)) as Ht.
    { intros r. apply traced_one. intros _. right; left. exists wanted.
      split; [done|]. rewrite <- Htab. by eapply judge_missing_gap. }
    destruct a as [out|err]; wp_steps; (split; [done|]); (split; [apply Ht|]); (split; [done|]);
      (split; [|done]); simpl.
    + assert (Forall (owned (Ev (RunTool ROUTE (args show_ip (op_of wanted) "add")) (Ok out) :: h)) installed)
        as Hi by (eapply Forall_impl; [done|auto]).
      destruct (negb _); [|done]. apply Forall_app. split; [done|].
      apply Forall_singleton. right. exists out. by constructor.
    + eapply Forall_impl; [done|auto].
  - split; [done|]. split; [constructor|]. split; [done|]. split; [|done]. simpl.
    rewrite Forall_forall in Hacc |- *. intros op [_ Hop]%elem_of_bfilter. auto.
Qed.

Lemma apply_careful installed d table s h :
  table = last_table h → Forall (owned h) installed →
  wp (apply show_ip installed d table) (λ r s' h',
    s' = s ∧ traced careful h h' ∧ Forall (owned h') r.1 ∧ (r.2 = false → last_table h' = table)) s h.
Proof.
  intros Htab Hinst. unfold apply. cbv zeta. set (stale := bfilter _ installed).
  assert (∀ p, Forall (owned h) (bfilter p installed)) as Hsub.
  { intros p. rewrite Forall_forall in Hinst |- *. intros op [? ?]%elem_of_bfilter. auto. }
  wp_step. eapply wp_mono; [|apply withdraw_careful; [done|apply Hsub]].
  intros _ s' h1 (-> & Ht1 & Htab1). wp_step.
  apply wp_mono with (Q := λ table' s' h', s' = s ∧ traced careful h h' ∧ table' = last_table h' ∧
    (Z.eqb (zlen stale) 0 = true → table' = table)).
  2: { destruct (Z.eqb (zlen stale) 0); simpl; [by wp_step|].
       eapply wp_mono; [|apply probe_routes_asks]. intros t s' h2 (-> & Ht2 & ->).
       repeat split; try done. by eapply traced_trans. }
  intros table' s' h2 (-> & Ht2 & Htab2 & Hsame).
  apply wp_for_acc with (I := λ _ acc s' h', s' = s ∧ traced careful h h' ∧ last_table h' = table' ∧
    Forall (owned h') acc.1 ∧ (acc.2 = false → Z.eqb (zlen stale) 0 = true)).
  - repeat split; try done; simpl; [|by intros ?%negb_false_iff].
    eapply Forall_impl; [apply Hsub|]. intros op. by apply owned_traced with (G := careful).
  - intros wanted rest acc s' h3 (-> & Ht3 & Htab3 & Hown & Hch).
    eapply wp_mono; [|by apply apply_wanted_careful].
    intros acc' s' h4 (-> & Ht4 & Htab4 & Hown4 & Hch4).
    repeat split; try done; [by eapply traced_trans|]. auto.
  - intros acc s' h3 (-> & Ht3 & Htab3 & Hown & Hch). repeat split; try done.
    intros Hf. rewrite Htab3. auto.
Qed.

(** The loop over the intents or the rules keeps everything but the record
    of what is installed. *)
Section stored.
Context {A K : Type} (derivation : A → option Derivation) (installed : A → list RouteOp).
Context (with_ : list RouteOp → A → A) (key : A → K).
Hypothesis installed_with : ∀ l x, installed (with_ l x) = l.
Hypothesis key_with : ∀ l x, key (with_ l x) = key x.
Abbreviation all_owned h := (Forall (λ x, Forall (owned h) (installed x))).

Lemma all_owned_traced h h' l : traced careful h h' → all_owned h l → all_owned h' l.
Proof.
  intros Ht Hl. eapply Forall_impl; [exact Hl|]. intros x Hx.
  eapply Forall_impl; [exact Hx|]. intros op. by apply owned_traced with (G := careful).
Qed.

Lemma apply_stored_careful l table s h :
  table = last_table h → all_owned h l →
  wp (for_acc l ([], table) (apply_stored show_ip derivation installed with_)) (λ acc s' h',
    s' = s ∧ traced careful h h' ∧ acc.2 = last_table h' ∧ all_owned h' acc.1 ∧
    map key acc.1 = map key l) s h.
Proof using installed_with key_with.
  intros Htab Hl.
  apply wp_for_acc with (I := λ rest acc s' h', s' = s ∧ traced careful h h' ∧
    acc.2 = last_table h' ∧ all_owned h' acc.1 ∧ all_owned h' rest ∧
    map key acc.1 ++ map key rest = map key l).
  - repeat split; try done. constructor.
  - intros x rest [done' table'] s' h1 (-> & Ht1 & Htab1 & Hdone & Hrest & Hkey). simpl in *.
    apply Forall_cons in Hrest as [Hx Hrest]. unfold apply_stored.
    destruct (derivation x) as [d|]; [|wp_step; simpl; repeat split; try done].
    + wp_step. eapply wp_mono; [|by apply apply_careful].
      intros [now changed] s' h2 (-> & Ht2 & Hnow & Hsame). simpl in *. wp_step.
      apply wp_mono with (Q := λ t s' h', s' = s ∧ traced careful h2 h' ∧ t = last_table h').
      2: { destruct changed; [|wp_step; rewrite Hsame by done; by repeat constructor].
           eapply wp_mono; [|apply probe_routes_asks]. by intros t s' h3 (-> & Ht3 & ->). }
      intros t s' h3 (-> & Ht3 & ->). wp_step. simpl.
      assert (traced careful h1 h3) as Ht13 by (by eapply traced_trans).
      repeat split; try done; [by eapply traced_trans| |by eapply all_owned_traced|].
      * apply Forall_app. split; [by eapply all_owned_traced|]. apply Forall_singleton.
        rewrite installed_with. eapply Forall_impl; [exact Hnow|]. intros op.
        by apply owned_traced with (G := careful).
      * rewrite <- Hkey, map_app, <- app_assoc. simpl. by rewrite key_with.
    + apply Forall_app. split; [done|]. by apply Forall_singleton.
    + by rewrite <- Hkey, map_app, <- app_assoc.
  - intros [done' table'] s' h1 (-> & Ht1 & Htab1 & Hdone & _ & Hkey). simpl in *.
    rewrite app_nil_r in Hkey. by repeat split.
Qed.
End stored.

(** What a reconcile does not change: who declared what. *)
Definition intent_key (s : Stored) : Z * NetIntentSetParams := (sd_uid s, sd_params s).
Definition rule_key (r : StoredRule) : Z * ConditionalRouteRule := (sr_uid r, sr_rule r).
Definition same_declared (s s' : State) : Prop :=
  map intent_key (st_intents s') = map intent_key (st_intents s) ∧
  map rule_key (st_rules s') = map rule_key (st_rules s).

Lemma sound_lists s h : sound s h ↔
  Forall (λ x, Forall (owned h) (sd_installed x)) (st_intents s) ∧
  Forall (λ x, Forall (owned h) (sr_installed x)) (st_rules s).
Proof.
  unfold HelperProps.sound, recorded. rewrite !Forall_flat_map, <- Forall_app, Forall_forall. done.
Qed.

Lemma reconcile_careful s h : sound s h →
  wp (reconcile_locked show_ip) (λ _ s' h',
    traced careful h h' ∧ sound s' h' ∧ same_declared s s') s h.
Proof.
  intros [Hi Hr]%sound_lists. unfold reconcile_locked.
  wp_step. eapply wp_mono; [|apply probe_view_asks]. intros network s' h1 (-> & Ht1 & _).
  wp_step. eapply wp_mono; [|apply probe_routes_asks]. intros table s' h2 (-> & Ht2 & Htab).
  assert (traced careful h h2) as Ht by (by eapply traced_trans).
  do 3 wp_step. eapply wp_mono; [|apply apply_stored_careful with (key := intent_key); [done..|]].
  2: by eapply all_owned_traced.
  intros [intents t] s' h3 (-> & Ht3 & Htab3 & Hown3 & Hkey3). simpl in *.
  assert (traced careful h h3) as Ht03 by (by eapply traced_trans).
  wp_step. eapply wp_mono; [|apply apply_stored_careful with (key := rule_key); [done..|]].
  2: by eapply all_owned_traced.
  intros [rules t'] s' h4 (-> & Ht4 & Htab4 & Hown4 & Hkey4). simpl in *. wp_steps.
  assert (traced careful h3 (Ev Monotonic a :: h4)) as Ht34 by (by apply traced_cons).
  split; [by eapply traced_trans|]. split; [|done]. apply sound_lists. simpl. split.
  - by apply all_owned_traced with (h := h3).
  - apply all_owned_traced with (h := h4); [|done]. by apply traced_one.
Qed.

End runs.
