(* ===== verification/HelperTheorems.v ===== *)
(** * The macOS helper's intents: sequences of operations

    Any requests in any order, with the background tick in between: the route
    commands stay careful, the limits hold, and nothing panics. *)

From S2P Require Export HelperProps.

(** ** The limits *)

Definition count_uid {A} (uid_of : A → Z) (uid : Z) (l : list A) : nat :=
  count_if (λ x, Z.eqb (uid_of x) uid) l.

Record within (s : State) : Prop := {
  within_total :
    (destinations_of (st_intents s) + routes_of (st_rules s) ≤ MAX_DESTINATIONS_TOTAL)%Z;
  within_intents uid : (Z.of_nat (count_uid sd_uid uid (st_intents s)) ≤ MAX_INTENTS_PER_UID)%Z;
  within_rules uid : (Z.of_nat (count_uid sr_uid uid (st_rules s)) ≤ MAX_RULES)%Z;
  (** an intent or a rule of a user is found under one name *)
  intents_named : NoDup (map (λ x, (sd_uid x, is_id (sd_params x))) (st_intents s));
  rules_named : NoDup (map (λ x, (sr_uid x, cr_id (sr_rule x))) (st_rules s));
}.

(** Sizes of a list whose elements have a weight. *)
Section sizes.
Context {A K : Type} `{EqDecision K} (weight : A → Z) (uid_of : A → Z) (name : A → Z * K).
Hypothesis weight_nonneg : ∀ x, (0 ≤ weight x)%Z.
Hypothesis name_uid : ∀ x, (name x).1 = uid_of x.
Definition total (l : list A) : Z := fold_right (λ x t, weight x + t)%Z 0%Z l.

Lemma total_app l l' : total (l ++ l') = (total l + total l')%Z.
Proof. induction l as [|x l IH]; simpl; lia. Qed.

Lemma total_nonneg l : (0 ≤ total l)%Z.
Proof using weight_nonneg. induction l as [|x l IH]; simpl; [lia|]. specialize (weight_nonneg x). lia. Qed.

Lemma split_at (l : list A) i x : l !! i = Some x →
  l = take i l ++ x :: drop (S i) l ∧ without (Some i) l = take i l ++ drop (S i) l.
Proof. intros Hi. split; [by rewrite take_drop_middle|done]. Qed.

Lemma set_at_split (l : list A) i x y : l !! i = Some x →
  set_at (Some i) y l = take i l ++ y :: drop (S i) l.
Proof.
  intros Hi. unfold set_at. rewrite insert_take_drop; [done|]. by apply lookup_lt_Some in Hi.
Qed.

Lemma total_set_at i y l : (∀ j, i = Some j → is_Some (l !! j)) →
  total (set_at i y l) = (total (without i l) + weight y)%Z.
Proof.
  intros Hi. destruct i as [i|]; [|cbn [set_at without]; rewrite total_app; simpl; lia].
  destruct (Hi i eq_refl) as [x Hx]. rewrite (set_at_split _ _ _ _ Hx), (proj2 (split_at _ _ _ Hx)), !total_app.
  simpl. lia.
Qed.

Lemma total_without i l : (total (without i l) ≤ total l)%Z.
Proof using weight_nonneg.
  destruct i as [i|]; [|done]. destruct (l !! i) as [x|] eqn:Hx.
  - rewrite (proj1 (split_at _ _ _ Hx)) at 2. rewrite (proj2 (split_at _ _ _ Hx)), !total_app.
    simpl. specialize (weight_nonneg x). lia.
  - apply lookup_ge_None in Hx. cbn [without]. rewrite take_ge, drop_ge by lia. by rewrite app_nil_r.
Qed.

Lemma count_uid_app uid (l l' : list A) :
  count_uid uid_of uid (l ++ l') = count_uid uid_of uid l + count_uid uid_of uid l'.
Proof. unfold count_uid, count_if, bfilter. by rewrite List.filter_app, length_app. Qed.

Lemma count_uid_without uid i l : count_uid uid_of uid (without i l) ≤ count_uid uid_of uid l.
Proof.
  destruct i as [i|]; [|done]. destruct (l !! i) as [x|] eqn:Hx.
  - rewrite (proj1 (split_at _ _ _ Hx)) at 2. rewrite (proj2 (split_at _ _ _ Hx)), !count_uid_app.
    change (x :: drop (S i) l) with ([x] ++ drop (S i) l). rewrite count_uid_app. lia.
  - apply lookup_ge_None in Hx. cbn [without]. rewrite take_ge, drop_ge by lia. by rewrite app_nil_r.
Qed.

(** Replacing the element found under a name, or adding one that is not there. *)
Definition found (p : A → bool) (y : A) (l : list A) : Prop :=
  ∀ x, p x = true ↔ name x = name y.

Lemma names_set_at p y l : found p y l →
  map name (set_at (position p l) y l)
    = map name l ++ (if position p l then [] else [name y]).
Proof.
  intros Hp. destruct (position p l) as [i|] eqn:Hi; [|cbn [set_at]; by rewrite map_app].
  apply position_Some in Hi as [(x & Hx & Hpx) _]. apply Hp in Hpx.
  rewrite (set_at_split _ _ _ _ Hx), app_nil_r. rewrite (proj1 (split_at _ _ _ Hx)) at 3.
  by rewrite !map_app, !map_cons, Hpx.
Qed.

Lemma nodup_set_at p y l : found p y l →
  NoDup (map name l) → NoDup (map name (set_at (position p l) y l)).
Proof.
  intros Hp Hn. rewrite names_set_at by done.
  destruct (position p l) as [i|] eqn:Hi; [by rewrite app_nil_r|].
  apply NoDup_app. split; [done|]. split; [|apply NoDup_singleton].
  intros k Hk Hy. apply list_elem_of_singleton in Hy as ->.
  apply list_elem_of_In, in_map_iff in Hk as (x & Hx & Hin%list_elem_of_In).
  apply Hp in Hx. pose proof (proj1 (position_None _ _) Hi x Hin). congruence.
Qed.

Lemma nodup_without i l : NoDup (map name l) → NoDup (map name (without i l)).
Proof.
  destruct i as [i|]; [|done]. intros Hn. cbn [without].
  rewrite <- (take_drop i l), map_app in Hn. rewrite map_app.
  apply NoDup_app in Hn as (Ht & Hdisj & Hd). apply NoDup_app.
  replace (drop (S i) l) with (drop 1 (drop i l)) by (by rewrite drop_drop, Nat.add_1_r).
  destruct (drop i l) as [|x r]; [done|]. apply NoDup_cons in Hd as [_ Hr].
  split; [done|]. split; [|done]. intros k Hk Hin. apply (Hdisj k Hk). by right.
Qed.

Lemma count_names uid l :
  count_uid uid_of uid l = count_if (λ k : Z * K, Z.eqb k.1 uid) (map name l).
Proof using name_uid.
  unfold count_uid, count_if, bfilter. induction l as [|x l IH]; simpl; [done|].
  rewrite name_uid. destruct (Z.eqb _ uid); simpl; by rewrite IH.
Qed.

Lemma count_set_at uid p y l limit : found p y l →
  (∀ v, (Z.of_nat (count_uid uid_of v l) ≤ limit)%Z) →
  (position p l = None → (Z.of_nat (count_uid uid_of (uid_of y) l) < limit)%Z) →
  (Z.of_nat (count_uid uid_of uid (set_at (position p l) y l)) ≤ limit)%Z.
Proof using name_uid.
  intros Hp Hl Hnew. rewrite count_names, names_set_at by done.
  unfold count_if, bfilter. rewrite List.filter_app, length_app.
  change (length (List.filter _ (map name l))) with (count_if (λ k : Z * K, Z.eqb k.1 uid) (map name l)).
  rewrite <- count_names. specialize (Hl uid).
  destruct (position p l) as [i|] eqn:Hi; simpl; [lia|].
  rewrite name_uid. destruct (Z.eqb_spec (uid_of y) uid) as [<-|]; simpl; [|lia].
  specialize (Hnew eq_refl). lia.
Qed.
(** What is determined by the declared part of an element. *)
Lemma declared_sizes {D} (key : A → D) l l' :
  (∀ x y, key x = key y → weight x = weight y ∧ name x = name y) →
  map key l' = map key l →
  total l' = total l ∧ map name l' = map name l.
Proof.
  intros Hkey. revert l'. induction l as [|x l IH]; intros [|y l'] Hl; try done.
  injection Hl as Hx Hl. destruct (Hkey _ _ Hx) as [Hw Hn]. destruct (IH l' Hl) as [Ht Hns].
  simpl. by rewrite Hw, Ht, Hn, Hns.
Qed.
End sizes.

Definition intent_weight (s : Stored) : Z := zlen (is_destinations (sd_params s)).
Definition intent_name (s : Stored) : Z * string := (sd_uid s, is_id (sd_params s)).
Definition rule_weight (r : StoredRule) : Z := zlen (cr_routes (sr_rule r)).
Definition rule_name (r : StoredRule) : Z * string := (sr_uid r, cr_id (sr_rule r)).

Lemma found_intent uid id y l : sd_uid y = uid → is_id (sd_params y) = id →
  found intent_name (intent_is uid id) y l.
Proof.
  intros <- <- x. unfold intent_is, intent_name. rewrite andb_true_iff, Z.eqb_eq, bool_decide_eq_true.
  split; [by intros [-> ->]|by intros [= -> ->]].
Qed.

Lemma found_rule uid id y l : sr_uid y = uid → cr_id (sr_rule y) = id →
  found rule_name (rule_is uid id) y l.
Proof.
  intros <- <- x. unfold rule_is, rule_name. rewrite andb_true_iff, Z.eqb_eq, bool_decide_eq_true.
  split; [by intros [-> ->]|by intros [= -> ->]].
Qed.

Lemma zlen_nonneg {A} (l : list A) : (0 ≤ zlen l)%Z.
Proof. unfold zlen. lia. Qed.

Lemma within_declared s s' : same_declared s s' → within s → within s'.
Proof.
  intros [Hi Hr] [Ht Hci Hcr Hni Hnr].
  destruct (declared_sizes intent_weight intent_name intent_key _ _
    ltac:(intros [] [] [= -> ->]; done) Hi) as [Hti Hnames].
  destruct (declared_sizes rule_weight rule_name rule_key _ _
    ltac:(intros [] [] [= -> ->]; done) Hr) as [Htr Hrnames].
  split.
  - change (total intent_weight (st_intents s') + total rule_weight (st_rules s') ≤ MAX_DESTINATIONS_TOTAL)%Z.
    by rewrite Hti, Htr.
  - intros uid. specialize (Hci uid). rewrite (count_names sd_uid intent_name) in * by done. by rewrite Hnames.
  - intros uid. specialize (Hcr uid). rewrite (count_names sr_uid rule_name) in * by done. by rewrite Hrnames.
  - change (NoDup (map intent_name (st_intents s'))). by rewrite Hnames.
  - change (NoDup (map rule_name (st_rules s'))). by rewrite Hrnames.
Qed.

(** ** Changing the lists *)

Lemma within_set_intent s y index :
  let uid := sd_uid y in
  index = position (intent_is uid (is_id (sd_params y))) (st_intents s) →
  is_none index && Z.leb MAX_INTENTS_PER_UID (Z.of_nat (count_uid sd_uid uid (st_intents s))) = false →
  (destinations_of (without index (st_intents s)) + routes_of (st_rules s) + intent_weight y
   ≤ MAX_DESTINATIONS_TOTAL)%Z →
  within s → within (with_intents (set_at index y (st_intents s)) s).
Proof.
  cbv zeta. intros Hindex Hmine Htot [Ht Hci Hcr Hni Hnr].
  pose proof (found_intent _ _ y (st_intents s) eq_refl eq_refl) as Hf. split; simpl; try done.
  - change (total intent_weight (set_at index y (st_intents s)) + routes_of (st_rules s) ≤ MAX_DESTINATIONS_TOTAL)%Z.
    rewrite total_set_at.
    + change (destinations_of (without index (st_intents s))) with
        (total intent_weight (without index (st_intents s))) in Htot. lia.
    + intros j ->. symmetry in Hindex. by apply position_Some in Hindex as [(x & -> & _) _].
  - intros uid. rewrite Hindex. apply (count_set_at sd_uid intent_name); [done..|].
    intros Hnone. rewrite Hindex, Hnone in Hmine. simpl in Hmine. apply Z.leb_gt in Hmine. done.
  - change (NoDup (map intent_name (set_at index y (st_intents s)))). rewrite Hindex.
    by apply nodup_set_at.
Qed.

Lemma within_set_rule s y index :
  let uid := sr_uid y in
  index = position (rule_is uid (cr_id (sr_rule y))) (st_rules s) →
  is_none index && Z.leb MAX_RULES (Z.of_nat (count_uid sr_uid uid (st_rules s))) = false →
  (destinations_of (st_intents s) + routes_of (without index (st_rules s)) + rule_weight y
   ≤ MAX_DESTINATIONS_TOTAL)%Z →
  within s → within (with_rules (set_at index y (st_rules s)) s).
Proof.
  cbv zeta. intros Hindex Hmine Htot [Ht Hci Hcr Hni Hnr].
  pose proof (found_rule _ _ y (st_rules s) eq_refl eq_refl) as Hf. split; simpl; try done.
  - change (destinations_of (st_intents s) + total rule_weight (set_at index y (st_rules s)) ≤ MAX_DESTINATIONS_TOTAL)%Z.
    rewrite total_set_at.
    + change (routes_of (without index (st_rules s))) with
        (total rule_weight (without index (st_rules s))) in Htot. lia.
    + intros j ->. symmetry in Hindex. by apply position_Some in Hindex as [(x & -> & _) _].
  - intros uid. rewrite Hindex. apply (count_set_at sr_uid rule_name); [done..|].
    intros Hnone. rewrite Hindex, Hnone in Hmine. simpl in Hmine. apply Z.leb_gt in Hmine. done.
  - change (NoDup (map rule_name (set_at index y (st_rules s)))). rewrite Hindex.
    by apply nodup_set_at.
Qed.

Lemma within_remove_intent s index :
  within s → within (with_intents (without index (st_intents s)) s).
Proof.
  intros [Ht Hci Hcr Hni Hnr]. split; simpl; try done.
  - pose proof (total_without intent_weight (λ x, zlen_nonneg _) index (st_intents s)) as Hle.
    change (total intent_weight (without index (st_intents s)) + routes_of (st_rules s) ≤ MAX_DESTINATIONS_TOTAL)%Z.
    change (destinations_of (st_intents s)) with (total intent_weight (st_intents s)) in Ht. lia.
  - intros uid. pose proof (count_uid_without sd_uid uid index (st_intents s)). specialize (Hci uid). lia.
  - by apply (nodup_without intent_name).
Qed.

Lemma within_remove_rule s index :
  within s → within (with_rules (without index (st_rules s)) s).
Proof.
  intros [Ht Hci Hcr Hni Hnr]. split; simpl; try done.
  - pose proof (total_without rule_weight (λ x, zlen_nonneg _) index (st_rules s)) as Hle.
    change (destinations_of (st_intents s) + total rule_weight (without index (st_rules s)) ≤ MAX_DESTINATIONS_TOTAL)%Z.
    change (routes_of (st_rules s)) with (total rule_weight (st_rules s)) in Ht. lia.
  - intros uid. pose proof (count_uid_without sr_uid uid index (st_rules s)). specialize (Hcr uid). lia.
  - by apply (nodup_without rule_name).
Qed.

(** ** The operations *)

Section lists.
Context {A : Type} (P : A → Prop).

Lemma Forall_set_at i y l : Forall P l → P y → Forall P (set_at i y l).
Proof.
  intros Hl Hy. destruct i as [i|]; cbn [set_at]; [by apply Forall_insert|].
  apply Forall_app. by repeat constructor.
Qed.

Lemma Forall_without i l : Forall P l → Forall P (without i l).
Proof.
  intros Hl. destruct i as [i|]; cbn [without]; [|done].
  apply Forall_app. split; [by apply Forall_take|by apply Forall_drop].
Qed.

Lemma Forall_installed_at (Q : RouteOp → Prop) (installed : A → list RouteOp) i l :
  Forall (λ x, Forall Q (installed x)) l → Forall Q (installed_at installed i l).
Proof.
  intros Hl. unfold installed_at. destruct i as [i|]; simpl; [|constructor].
  destruct (l !! i) as [x|] eqn:Hx; simpl; [|constructor].
  by apply (Forall_lookup_1 _ _ _ _ Hl Hx).
Qed.
End lists.

(** The requests a client makes and the helper's own calls. *)
Inductive operation : Type :=
| OpSet (uid : Z) (params : NetIntentSetParams)
| OpDelete (uid : Z) (id : string)
| OpList (uid : Z)
| OpPutRule (uid : Z) (rule : ConditionalRouteRule)
| OpRemoveRule (uid : Z) (id : string)
| OpListRules (uid : Z)
| OpReconcile
| OpTick
| OpShutdown.

(** A rule just stored is found again after the reconcile. *)
Lemma declared_rule_found uid rule y index l l' :
  index = position (rule_is uid (cr_id rule)) l →
  sr_uid y = uid → sr_rule y = rule →
  map rule_key l' = map rule_key (set_at index y l) →
  List.find (rule_is uid (cr_id rule)) l' ≠ None.
Proof.
  intros Hi <- <- Hkey Hnone.
  assert (y ∈ set_at index y l) as Hin.
  { destruct index as [i|]; cbn [set_at]; [|apply elem_of_app; right; by apply list_elem_of_singleton].
    symmetry in Hi. apply position_Some in Hi as [(x & Hx & _) _].
    apply list_elem_of_lookup. exists i. apply list_lookup_insert_eq. by eapply lookup_lt_Some. }
  assert (rule_key y ∈ map rule_key l') as Hin'.
  { rewrite Hkey. apply list_elem_of_In, in_map. by apply list_elem_of_In. }
  apply list_elem_of_In, in_map_iff in Hin' as (x & Hx & Hin'). injection Hx as Hu Hr.
  pose proof (find_none _ _ Hnone x Hin') as Hf. unfold rule_is in Hf.
  rewrite Hu, Hr, Z.eqb_refl, bool_decide_eq_true_2 in Hf by done. done.
Qed.

Section operations.
Context `{Env} `{IpNetLib} `{JsonCodec Document} (show_ip : IpAddr → string) (state_dir : path).

Definition perform (op : operation) : M State unit :=
  match op with
  | OpSet uid params => set show_ip state_dir uid params ;;; ret tt
  | OpDelete uid id => delete_intent show_ip state_dir uid id ;;; ret tt
  | OpList uid => list_intents show_ip uid ;;; ret tt
  | OpPutRule uid rule => put_rule show_ip state_dir uid rule ;;; ret tt
  | OpRemoveRule uid id => remove_rule show_ip state_dir uid id ;;; ret tt
  | OpListRules uid => list_rules uid ;;; ret tt
  | OpReconcile => reconcile show_ip state_dir
  | OpTick => tick show_ip state_dir
  | OpShutdown => shutdown show_ip state_dir
  end.

Context (initial : list RouteOp).
Abbreviation owned := (owned show_ip initial).
Abbreviation careful := (careful show_ip initial).
Abbreviation sound := (sound show_ip initial).

(** A state reached from [s] by careful commands. *)
Definition reached (s : State) (h : history) (s' : State) (h' : history) : Prop :=
  traced careful h h' ∧ (sound s h → sound s' h') ∧ (within s → within s').

Lemma reached_trans s1 h1 s2 h2 s3 h3 :
  reached s1 h1 s2 h2 → reached s2 h2 s3 h3 → reached s1 h1 s3 h3.
Proof.
  intros (Ht1 & Hs1 & Hw1) (Ht2 & Hs2 & Hw2). split; [by eapply traced_trans|]. split; auto.
Qed.

Lemma reached_asks s h h' : traced careful h h' → reached s h s h'.
Proof. intros Ht. split; [done|]. split; [by eapply sound_traced|done]. Qed.

Lemma reached_put s s' h : (sound s h → sound s' h) → (within s → within s') → reached s h s' h.
Proof. intros Hs Hw. split; [constructor|done]. Qed.

(** Continue after code that only asks. *)
Lemma wp_asks {A B} (m : M State A) (f : A → M State B) (Q : history → A → history → Prop)
    (R : B → State → history → Prop) s h :
  asks_only show_ip initial m Q →
  (∀ a h', traced careful h h' → Q h a h' → wp (f a) R s h') →
  wp (bind m f) R s h.
Proof.
  intros Hm Hf. wp_step. eapply wp_mono; [|apply Hm]. intros a s' h' (-> & Ht & Hq). by apply Hf.
Qed.

Lemma wp_reached_saved {A B} (m : M State A) (f : A → M State B) (Q : history → A → history → Prop) s0 h0 s h :
  asks_only show_ip initial m Q → reached s0 h0 s h →
  (∀ a h', reached s0 h0 s h' → wp (f a) (λ _, reached s0 h0) s h') →
  wp (bind m f) (λ _, reached s0 h0) s h.
Proof.
  intros Hm Hr Hf. eapply wp_asks; [exact Hm|]. intros a h' Ht _. apply Hf.
  eapply reached_trans; [exact Hr|by apply reached_asks].
Qed.

Lemma wp_reconcile_reached {B} (f : unit → M State B) s h (Q : B → State → history → Prop) :
  sound s h →
  (∀ s' h', reached s h s' h' → same_declared s s' → wp (f tt) Q s' h') →
  wp (bind (reconcile_locked show_ip) f) Q s h.
Proof.
  intros Hs Hf. wp_step. eapply wp_mono; [|by apply reconcile_careful].
  intros [] s' h' (Ht & Hs' & Hd). apply Hf; [|done].
  split; [done|]. split; [done|]. by apply within_declared.
Qed.

Lemma saved_reached message s0 h0 s h :
  reached s0 h0 s h → wp (saved state_dir message) (λ _, reached s0 h0) s h.
Proof.
  intros Hr. eapply wp_mono; [|apply (saved_asks show_ip state_dir initial)].
  intros r s' h' (-> & Ht & _). eapply reached_trans; [exact Hr|by apply reached_asks].
Qed.

Lemma set_reached uid params s h : sound s h →
  wp (set show_ip state_dir uid params) (λ _, reached s h) s h.
Proof.
  intros Hs. assert (reached s h s h) as Hrefl by (apply reached_put; auto).
  unfold set. destruct (normalize params) as [intent|err] eqn:Hn; [|by wp_step].
  do 2 wp_step. destruct (_ && _) eqn:Hmine; [by wp_step|].
  destruct (Z.ltb_spec MAX_DESTINATIONS_TOTAL
    (destinations_of (without (position (intent_is uid (in_id intent)) (st_intents s)) (st_intents s))
     + routes_of (st_rules s) + zlen (in_destinations intent)))%Z as [|Htot]; [by wp_step|].
  set (y := mkStored _ _ _). do 2 wp_step.
  pose proof (proj1 (sound_lists _ _ _ _) Hs) as [Hsi Hsr].
  assert (reached s h (with_intents (set_at (position (intent_is uid (in_id intent)) (st_intents s)) y
            (st_intents s)) s) h) as Hput.
  { apply reached_put.
    - intros _. apply sound_lists. simpl. split; [|done]. apply Forall_set_at; [done|].
      simpl. by apply Forall_installed_at.
    - apply within_set_intent; [done..|]. unfold intent_weight. simpl.
      unfold zlen in *. by rewrite length_map. }
  apply wp_reconcile_reached; [by apply Hput|]. intros s' h' Hr _.
  wp_step. eapply wp_mono; [|apply (saved_reached _ s h); eapply reached_trans; [exact Hput|exact Hr]].
  intros [|] s'' h'' Hr2; by repeat wp_step.
Qed.

Lemma delete_reached uid id s h : sound s h →
  wp (delete_intent show_ip state_dir uid id) (λ _, reached s h) s h.
Proof.
  intros Hs. unfold delete_intent. wp_steps.
  destruct (position _ _) as [index|]; [|wp_step; apply reached_put; auto].
  eapply wp_asks; [apply probe_routes_asks|]. intros table h1 Ht1 Htab. do 3 wp_step.
  pose proof (proj1 (sound_lists _ _ _ _) Hs) as [Hsi Hsr].
  assert (reached s h (with_intents (without (Some index) (st_intents s)) s) h) as Hput.
  { apply reached_put; [|apply within_remove_intent]. intros _. apply sound_lists.
    split; [by apply (Forall_without _ (Some index))|done]. }
  eapply wp_mono; [|apply withdraw_careful; [exact Htab|]].
  2: { apply Forall_installed_at. eapply all_owned_traced; [exact Ht1|exact Hsi]. }
  intros _ s' h2 (-> & Ht2 & _). wp_step. eapply wp_mono; [|apply (saved_reached _ s h)].
  2: { eapply reached_trans; [exact Hput|]. apply reached_asks. by eapply traced_trans. }
  intros [|] s'' h'' Hr2; by repeat wp_step.
Qed.

Lemma put_rule_reached uid rule s h : sound s h →
  wp (put_rule show_ip state_dir uid rule) (λ _, reached s h) s h.
Proof.
  intros Hs. assert (reached s h s h) as Hrefl by (apply reached_put; auto).
  unfold put_rule. destruct (validate_rule rule) as [[]|err] eqn:Hn; [|by wp_step].
  do 2 wp_step. destruct (_ && _) eqn:Hmine; [by wp_step|].
  destruct (Z.ltb_spec MAX_DESTINATIONS_TOTAL
    (destinations_of (st_intents s)
     + routes_of (without (position (rule_is uid (cr_id rule)) (st_rules s)) (st_rules s))
     + zlen (cr_routes rule)))%Z as [|Htot]; [by wp_step|].
  set (y := mkStoredRule _ _ _). set (index := position _ _). do 2 wp_step.
  pose proof (proj1 (sound_lists _ _ _ _) Hs) as [Hsi Hsr].
  assert (reached s h (with_rules (set_at index y (st_rules s)) s) h) as Hput.
  { apply reached_put.
    - intros _. apply sound_lists. simpl. split; [done|]. apply Forall_set_at; [done|].
      simpl. by apply Forall_installed_at.
    - by apply within_set_rule. }
  apply wp_reconcile_reached; [by apply Hput|]. intros s' h' Hr [_ Hd]. simpl in Hd.
  wp_step. eapply wp_mono; [|apply (saved_asks show_ip state_dir initial)].
  intros [[]|err] s'' h'' (-> & Ht & _).
  2: { eapply reached_trans; [exact Hput|]. eapply reached_trans; [exact Hr|by apply reached_asks]. }
  assert (reached s h s' h'') as Hr2.
  { eapply reached_trans; [exact Hput|]. eapply reached_trans; [exact Hr|by apply reached_asks]. }
  eapply wp_reached_saved; [apply probe_view_asks|exact Hr2|]. intros network h3 Hr3.
  eapply wp_reached_saved; [apply probe_routes_asks|exact Hr3|]. intros table h4 Hr4.
  do 2 wp_step. destruct (List.find _ _) as [stored|] eqn:Hfind; [by wp_step|].
  exfalso. by eapply (declared_rule_found uid rule y index).
Qed.

Lemma remove_rule_reached uid id s h : sound s h →
  wp (remove_rule show_ip state_dir uid id) (λ _, reached s h) s h.
Proof.
  intros Hs. unfold remove_rule. wp_steps.
  destruct (position _ _) as [index|]; [|wp_step; apply reached_put; auto].
  eapply wp_asks; [apply probe_routes_asks|]. intros table h1 Ht1 Htab. do 3 wp_step.
  pose proof (proj1 (sound_lists _ _ _ _) Hs) as [Hsi Hsr].
  assert (reached s h (with_rules (without (Some index) (st_rules s)) s) h) as Hput.
  { apply reached_put; [|apply within_remove_rule]. intros _. apply sound_lists.
    split; [done|]. by apply (Forall_without _ (Some index)). }
  eapply wp_mono; [|apply withdraw_careful; [exact Htab|]].
  2: { apply Forall_installed_at. eapply all_owned_traced; [exact Ht1|exact Hsr]. }
  intros _ s' h2 (-> & Ht2 & _).
  eapply wp_reached_saved; [apply save_asks| |intros r h3 Hr3; by wp_step].
  eapply reached_trans; [exact Hput|]. apply reached_asks. by eapply traced_trans.
Qed.

Lemma reconcile_reached s h : sound s h →
  wp (reconcile show_ip state_dir) (λ _, reached s h) s h.
Proof.
  intros Hs. unfold reconcile. apply wp_reconcile_reached; [done|]. intros s' h' Hr _.
  eapply wp_reached_saved; [apply save_asks|exact Hr|]. intros r h2 Hr2. by wp_step.
Qed.

Lemma tick_reached s h : sound s h → wp (tick show_ip state_dir) (λ _, reached s h) s h.
Proof.
  intros Hs. assert (reached s h s h) as Hrefl by (apply reached_put; auto).
  unfold tick. do 2 wp_step. destruct (is_empty s); [by wp_step|].
  eapply wp_asks; [apply probe_view_asks|]. intros network h1 Ht1 _. wp_step.
  apply wp_mono with (Q := λ _ s' h', s' = s ∧ traced careful h h').
  2: { destruct (st_last_full s); wp_steps; (split; [done|]); [by apply traced_cons|done]. }
  intros due s' h2 (-> & Ht2). destruct (_ && _); [wp_step; by apply reached_asks|].
  eapply wp_mono; [|apply reconcile_reached; by eapply sound_traced].
  intros ? s' h3 Hr. eapply reached_trans; [by apply reached_asks|exact Hr].
Qed.

Lemma shutdown_reached s h : sound s h → wp (shutdown show_ip state_dir) (λ _, reached s h) s h.
Proof.
  intros Hs. unfold shutdown. do 2 wp_step.
  eapply wp_asks; [apply probe_routes_asks|]. intros table h1 Ht1 Htab. cbv zeta. do 3 wp_step.
  set (s1 := with_rules _ _).
  assert (reached s h s1 h) as Hput.
  { apply reached_put.
    - intros _. apply sound_lists. subst s1. simpl. split; apply Forall_map, Forall_true; by constructor.
    - apply within_declared. subst s1. split; simpl; rewrite map_map; by apply map_ext. }
  eapply wp_mono; [|apply withdraw_careful; [exact Htab|]].
  2: { apply Forall_forall. intros op Hop. eapply owned_traced; [exact Ht1|by apply Hs]. }
  intros _ s' h2 (-> & Ht2 & _).
  eapply wp_reached_saved; [apply save_asks| |intros r h3 Hr3; by wp_step].
  eapply reached_trans; [exact Hput|]. apply reached_asks. by eapply traced_trans.
Qed.

(** Reading the status changes nothing. *)
Lemma lists_reached {A} (f : NetworkView → list RouteEntry → A) s h :
  wp (bind probe_view (λ network, bind probe_routes (λ table, ret (f network table))))
    (λ _, reached s h) s h.
Proof.
  assert (reached s h s h) as Hrefl by (apply reached_put; auto).
  eapply wp_reached_saved; [apply probe_view_asks|exact Hrefl|]. intros network h1 Hr1.
  eapply wp_reached_saved; [apply probe_routes_asks|exact Hr1|]. intros table h2 Hr2. by wp_step.
Qed.

Lemma perform_reached op s h : sound s h → wp (perform op) (λ _, reached s h) s h.
Proof.
  intros Hs. destruct op; unfold perform; try (wp_step; eapply wp_mono; [intros ? ? ? Hr; wp_step; exact Hr|]).
  - by apply set_reached.
  - by apply delete_reached.
  - apply (lists_reached (λ network table, _)).
  - by apply put_rule_reached.
  - by apply remove_rule_reached.
  - apply (lists_reached (λ network table, _)).
  - by apply reconcile_reached.
  - by apply tick_reached.
  - by apply shutdown_reached.
Qed.

Lemma perform_all_reached ops s h :
  sound s h → wp (for_each ops perform) (λ _, reached s h) s h.
Proof.
  intros Hs. apply wp_for_each with (I := λ _ s' h', reached s h s' h').
  - apply reached_put; auto.
  - intros op rest s' h' Hr. eapply wp_mono; [|apply perform_reached; by apply Hr].
    intros u s'' h''. by apply reached_trans.
  - done.
Qed.
End operations.

(** C10. The macOS helper touches its own routes alone: whatever operations
    arrive, in any order, with the background tick in between, and whatever
    the tools answer, it returns, every route it adds goes where the table
    just read has no entry for the destination, every route it deletes was on
    record at the start or added by it since and is still in place in the
    table just read, and what it records at the end is its own. *)
Theorem helper_routes_own `{Env} `{IpNetLib} `{JsonCodec Document} (show_ip : IpAddr → string)
    (state_dir : path) (ops : list operation) (s : State) (h : history) :
  wp (for_each ops (perform show_ip state_dir)) (λ _ s' h',
    traced (careful show_ip (recorded s)) h h' ∧
    sound show_ip (recorded s) s' h') s h.
Proof.
  assert (sound show_ip (recorded s) s h) as Hs by (intros op Hop; by left).
  eapply wp_mono; [|by apply perform_all_reached]. intros _ s' h' (Ht & Hs' & _). auto.
Qed.

(** C27. The limits hold after any operations when they held before: all
    intents and rules together name at most 256 destinations, a user has at
    most 64 intents and 32 rules, and each is found under one name. *)
Theorem helper_limits_kept `{Env} `{IpNetLib} `{JsonCodec Document} (show_ip : IpAddr → string)
    (state_dir : path) (ops : list operation) (s : State) (h : history) :
  within s → wp (for_each ops (perform show_ip state_dir)) (λ _ s' _, within s') s h.
Proof.
  intros Hw. assert (sound show_ip (recorded s) s h) as Hs by (intros op Hop; by left).
  eapply wp_mono; [|by apply perform_all_reached]. intros _ s' h' (_ & _ & Hw'). auto.
Qed.

(** ** A table that cannot be read *)

Lemma still_ours_nil `{IpNetLib} op : still_ours [] op = false.
Proof. unfold still_ours. by destruct (wanted_of op). Qed.

Lemma withdraw_nothing `{Env} `{IpNetLib} (show_ip : IpAddr → string) ops (s : State) h :
  withdraw show_ip ops [] s h = (Some tt, s, h).
Proof.
  unfold withdraw. induction ops as [|op ops IH]; [done|]. simpl. unfold bind at 1.
  rewrite still_ours_nil. exact IH.
Qed.

Lemma probe_routes_unread `{Env} err (s : State) h :
  answer _ ListRoutes h = Err err → probe_routes s h = (Some [], s, Ev ListRoutes (Err err) :: h).
Proof. intros Ha. unfold probe_routes, bind, call. by rewrite Ha. Qed.

Lemma wp_bind_run {S A B} (m : M S A) (f : A → M S B) Q s h a s' h' :
  m s h = (Some a, s', h') → wp (f a) Q s' h' → wp (bind m f) Q s h.
Proof. intros Hm Hf. apply wp_bind. unfold wp at 1. by rewrite Hm. Qed.

Definition route_command_free (e : event) (_ : history) : Prop :=
  match e with
  | Ev c _ => match c with RunTool _ _ => False | _ => True end
  end.


(** ** Witnesses *)

#[local] Existing Instance ipnet_model.

(** Nothing can be stored; every command fails. *)
Definition no_document : JsonCodec Document.
Proof. refine {| to_vec _ := None; from_slice _ := None |}. done. Defined.
#[local] Existing Instance no_document.
#[local] Instance failing_world : Env := λ A c _, failing_answer c.

Definition demo_show (a : IpAddr) : string := model_net_to_string (net_of_ip a).

Definition demo_state : State :=
  mkState [mkStored 501
    (mkIntentSet "office" ["10.0.0.0/8"]%string (mkIntentPath "direct" None None) None None)
    [mkRouteOp (ip4 10 0 0 0) 8 (TargetGateway (ip4 192 168 1 1)) false]] [] None None.

Lemma demo_within : within demo_state.
Proof.
  split; [vm_compute; done|intros uid|intros uid|..].
  - unfold count_uid, count_if, bfilter, MAX_INTENTS_PER_UID. cbn [demo_state st_intents List.filter sd_uid].
    destruct (Z.eqb 501 uid); cbn [length]; lia.
  - vm_compute. done.
  - apply NoDup_singleton.
  - apply NoDup_nil_2.
Qed.

Lemma helper_limits_kept_witness :
  wp (for_each [OpTick; OpDelete 501 "office"] (perform demo_show []))
    (λ _ s' _, within s') demo_state [].
Proof.
  apply (helper_limits_kept demo_show [] [OpTick; OpDelete 501 "office"] demo_state []).
  exact demo_within.
Defined.

