(* ===== verification/NetlinkActorProps.v ===== *)
(** * What the netlink actor changes, and what its answers mean

    Each request deletes only what it is for: the daemon's own links and rules
    after they were read and verified, a foreign object only when the request
    names it in full; an answer the core takes for success rests on what the
    kernel reported. *)

From S2P Require Export NetlinkActor Trace.

(** ** A logic for the actor

    [ends m Q s h]: [m] leaves the state as it is and ends, finished or given
    up, with [Q]. *)

Section logic.
Context `{Env} {S : Type}.

Definition ends {A} (m : M S A) (Q : option A → history → Prop) (s : S) (h : history) : Prop :=
  (m s h).1.2 = s ∧ Q (m s h).1.1 (m s h).2.

Lemma ends_ret {A} (a : A) (Q : option A → history → Prop) s h : Q (Some a) h → ends (ret a) Q s h.
Proof. done. Qed.

Lemma ends_bind {A B} (m : M S A) (f : A → M S B) Q s h :
  ends m (λ r h', match r with Some a => ends (f a) Q s h' | None => Q None h' end) s h →
  ends (bind m f) Q s h.
Proof.
  unfold ends, bind. destruct (m s h) as [[[a|] s'] h']; simpl; [|done]. intros [-> Hf]. done.
Qed.

Lemma ends_try {A B E} (m : M S (result A E)) (f : A → M S (result B E)) Q s h :
  ends m (λ r h', match r with
    | Some (Ok a) => ends (f a) Q s h' | Some (Err e) => Q (Some (Err e)) h' | None => Q None h' end) s h →
  ends (try_bind m f) Q s h.
Proof.
  intros Hm. apply ends_bind. destruct Hm as [Hs Hm]. split; [done|].
  destruct (m s h).1.1 as [[a|e]|]; [done| |done]. by apply ends_ret.
Qed.

Lemma ends_request {A} (c : ext (option A)) (Q : option A → history → Prop) s h :
  (∀ a, Q a (Ev c a :: h)) → ends (request c) Q s h.
Proof.
  intros HQ. unfold request. apply ends_bind. split; [done|]. unfold call. simpl.
  specialize (HQ (answer _ c h)). by destruct (answer _ c h).
Qed.

Lemma ends_mono {A} (m : M S A) (Q Q' : option A → history → Prop) s h :
  (∀ r h', Q r h' → Q' r h') → ends m Q s h → ends m Q' s h.
Proof. intros HQ [Hs Hm]. split; [done|]. by apply HQ. Qed.

End logic.

(** ** What a deletion rests on *)

(** The message of a link the kernel just answered with. *)
Definition link_just_read (link : LinkMessage) (h : history) : Prop :=
  match h with
  | Ev c a :: _ =>
    match c in ext A return A → Prop with
    | NlLinkByName _ => λ a, a = Some (Ok (Some link))
    | NlLinkByIndex _ => λ a, a = Some (Ok (Some link))
    | _ => λ _, False
    end a
  | [] => False
  end.

Definition dumped (version : IpFamily) (messages : list RuleMessage) (e : event) : Prop :=
  match e with
  | Ev c a =>
    match c in ext A return A → Prop with
    | NlRuleDump v => λ a, v = version ∧ a = Some (messages, None)
    | _ => λ _, False
    end a
  end.

(** The kernel's rules, both families, as just read. *)
Definition rules_just_read (messages : list RuleMessage) (h : history) : Prop :=
  match h with
  | e6 :: e4 :: _ => ∃ v4 v6, dumped Ipv4 v4 e4 ∧ dumped Ipv6 v6 e6 ∧ messages = v4 ++ v6
  | _ => False
  end.

(** A dump of the rules that ended with an error. *)
Definition rule_dump_failed (err : nl_error) (h : history) : Prop :=
  match h with
  | Ev c a :: _ =>
    match c in ext A return A → Prop with
    | NlRuleDump _ => λ a, ∃ messages, a = Some (messages, Some err)
    | _ => λ _, False
    end a
  | [] => False
  end.

(** A dump of the rules that was never answered. *)
Definition rule_dump_unanswered (h : history) : Prop :=
  match h with
  | Ev c a :: _ =>
    match c in ext A return A → Prop with
    | NlRuleDump _ => λ a, a = None
    | _ => λ _, False
    end a
  | [] => False
  end.

(** A question to the kernel. *)
Definition asks (e : event) (_ : history) : Prop :=
  match e with
  | Ev c _ =>
    match c with
    | NlRouteDump _ | NlRuleDump _ | NlLinkDump | NlAddressDump | NlLinkByName _ | NlLinkByIndex _
    | NlRouteGet _ _ | IfNametoindex _ | FsExists _ | FsRead _ => True
    | _ => False
    end
  end.

Section deletions.
Context `{Env} `{IpNetLib} `{NetlinkLib} {S : Type}.

(** A WireGuard link of that name. *)
Definition wireguard_named (link : LinkMessage) (name : string) : Prop :=
  IfName name ∈ lm_attributes link ∧
  ∃ info, LinkInfoAttr info ∈ lm_attributes link ∧ LinkInfoKind WireguardKind ∈ info.

(** The deletions that are for the request [c], which began with the calls
    [h0]. A tunnel's link goes after the kernel answered with a WireGuard link
    of that name, that index, and the owner's marker for an alias; a link that
    could not be set up only by the request that just created it; a foreign
    link by the index its name was just resolved to. The daemon's own rule goes
    after a full dump held a rule recognised as that resource, its own route by
    the daemon's protocol number. A foreign rule or route goes as it was given
    and an address as it was given. No other request deletes anything. *)
Definition proper {B} (c : ext B) (h0 : history) (e : event) (before : history) : Prop :=
  match e with
  | Ev q _ =>
    match q with
    | NlLinkDel index =>
      match c with
      | WgDeleteLink name wanted marker => ∃ link, link_just_read link before ∧
          lm_index link = index ∧ (wanted = 0%Z ∨ index = wanted) ∧ wireguard_named link name ∧
          IfAlias marker ∈ lm_attributes link
      | WgCreateLink name marker =>
          (∃ link, link_just_read link before ∧ (index = 0%Z ∨ lm_index link = index) ∧
             wireguard_named link name) ∧
          ∃ new u, before = new ++ h0 ∧
            Ev (NlLinkAdd (wireguard_create_request name marker)) (Some (Ok u)) ∈ new
      | RemoveLink name => index ≠ 0%Z ∧ ∃ h', before = Ev (IfNametoindex name) index :: h'
      | _ => False
      end
    | NlRuleDel m =>
      match c with
      | RemoveRule rule => m = rule_request rule ∧ ∃ messages, rules_just_read messages before ∧
          existsb (λ message, is_owned_rule message rule) messages = true
      | RemoveSystemRule rule => m = system_rule_message rule
      | _ => False
      end
    | NlRouteDel m =>
      match c with
      | RemoveRoute route => m = route_request route OpDelete ∧
          rm_protocol m = RTPROT_NETWORK_ORCHESTRATOR
      | RemoveSystemRoute route => m = system_route_message route
      | _ => False
      end
    | NlAddressDel m =>
      match c with
      | WgRemoveAddress index address => m = address_delete_request index address
      | _ => False
      end
    | _ => True
    end
  end.

Lemma asks_proper {B} (c : ext B) h0 e h : asks e h → proper c h0 e h.
Proof. destruct e as [A q a]. by destruct q. Qed.

Lemma is_wireguard_link_named link name index :
  is_wireguard_link link name index = true →
  (index = 0%Z ∨ lm_index link = index) ∧ wireguard_named link name.
Proof.
  unfold is_wireguard_link. rewrite !andb_true_iff, orb_true_iff. intros [[Hi Hn] Hk]. split; [lia|].
  split; [by apply vec_contains_spec|]. apply existsb_exists in Hk as (attr & Hin%list_elem_of_In & Hattr).
  destruct attr; try done. eexists. split; [exact Hin|]. by apply vec_contains_spec.
Qed.

Lemma ends_read_stream {A B} (f : A → option B) (c : ext (option (nl_stream A))) (Q : option (io_result (list B)) → history → Prop)
    (s : S) h :
  (∀ messages, Q (Some (Ok (omap f messages))) (Ev c (Some (messages, None)) :: h)) →
  (∀ messages err, Q (Some (Err (netlink_error_to_io err))) (Ev c (Some (messages, Some err)) :: h)) →
  Q None (Ev c None :: h) →
  ends (read_stream f c) Q s h.
Proof.
  intros Hok Herr Hnone. apply ends_bind, ends_request. intros [[messages [err|]]|]; [| |done].
  - apply ends_ret, Herr.
  - apply ends_ret, Hok.
Qed.

Lemma omap_some {A} (l : list A) : omap Some l = l.
Proof. induction l as [|a l IH]; [done|]. cbn. f_equal. exact IH. Qed.

Lemma ends_get_rules (Q : option (io_result (list RuleMessage)) → history → Prop) (s : S) h :
  (∀ messages h', traced asks h h' → rules_just_read messages h' → Q (Some (Ok messages)) h') →
  (∀ err h', traced asks h h' → rule_dump_failed err h' → Q (Some (Err (netlink_error_to_io err))) h') →
  (∀ h', traced asks h h' → rule_dump_unanswered h' → Q None h') →
  ends get_rules Q s h.
Proof.
  intros Hok Herr Hnone. unfold get_rules, both_versions.
  apply ends_try, ends_read_stream; [intros v4|intros v4 err; apply Herr; [by apply traced_one|by exists v4]
    |apply Hnone; [by apply traced_one|done]].
  apply ends_try, ends_read_stream; 
    [intros v6|intros v6 err; apply Herr; [by repeat constructor|by exists v6]
    |apply Hnone; [by repeat constructor|done]].
  apply ends_ret, Hok; [by repeat constructor|]. rewrite !omap_some. by exists v4, v6.
Qed.

Lemma ends_send {A} (c : ext (option (result A nl_error))) (Q : option (io_result A) → history → Prop)
    (s : S) h :
  (∀ a, Q (Some (Ok a)) (Ev c (Some (Ok a)) :: h)) →
  (∀ err, Q (Some (Err (netlink_error_to_io err))) (Ev c (Some (Err err)) :: h)) →
  Q None (Ev c None :: h) →
  ends (send c) Q s h.
Proof. intros Hok Herr Hnone. apply ends_bind, ends_request. intros [[a|err]|]; [apply ends_ret, Hok|apply ends_ret, Herr|exact Hnone]. Qed.

Lemma ends_get_link name index (Q : option (io_result (option LinkMessage)) → history → Prop) (s : S) h :
  (∀ r h', traced asks h h' → (∀ link, r = Some (Ok (Some link)) → link_just_read link h') → Q r h') →
  ends (get_link name index) Q s h.
Proof.
  intros HQ. apply ends_bind.
  destruct (Z.eqb index 0); apply ends_send; intros;
    try (apply HQ; [by apply traced_one|done]);
    repeat first [case_match | apply ends_ret]; apply HQ; try (by apply traced_one); by intros link [= ->].
Qed.

Lemma ends_obeys {A} (m : M S A) (G : event → history → Prop) :
  (∀ s h, ends m (λ _ h', traced G h h') s h) → obeys any_state G (λ _, True) m.
Proof. intros Hm s h _. split; [done|]. apply Hm. Qed.

Section request.
Context {B : Type} (c : ext B) (h0 : history).

Lemma traced_asks h h' : traced asks h h' → traced (proper c h0) h h'.
Proof. apply traced_mono, asks_proper. Qed.

Abbreviation deletes_own := (obeys (@any_state S) (proper c h0) (λ _, True)).

Lemma deletes_get_link name index : deletes_own (get_link name index).
Proof. apply ends_obeys. intros s h. apply ends_get_link. intros r h' Hh _. by apply traced_asks. Qed.
Lemma deletes_get_rules : deletes_own get_rules.
Proof. apply ends_obeys. intros s h. apply ends_get_rules; intros; by apply traced_asks. Qed.

Lemma deletes_request {A} (q : ext (option A)) :
  (∀ a h, proper c h0 (Ev q a) h) → deletes_own (request q).
Proof. intros Hc. apply ends_obeys. intros s h. apply ends_request. intros a. by apply traced_one. Qed.
End request.
#[local] Hint Resolve deletes_get_link deletes_get_rules : obeys.

Ltac asked := first [by apply traced_asks | by apply ends_ret, traced_asks].

Lemma deletes_wg_delete name index marker (s : S) h :
  traced (proper (WgDeleteLink name index marker) h) h (wg_delete name index marker s h).2.
Proof.
  enough (ends (wg_delete name index marker)
    (λ _ h', traced (proper (WgDeleteLink name index marker) h) h h') s h) as [_ Ht] by exact Ht.
  apply ends_try, ends_get_link. intros r h' Hh Hread.
  destruct r as [[[link|]|]|]; try asked.
  destruct (is_owned_wireguard_link link name index marker) eqn:Hlink; cbn [negb]; [|asked].
  apply andb_true_iff in Hlink as [[Hi Hn]%is_wireguard_link_named Hm%vec_contains_spec].
  assert (proper (WgDeleteLink name index marker) h (Ev (NlLinkDel (lm_index link)) None) h') as Hv.
  { exists link. split; [by apply Hread|]. split_and!; [done| |done..]. destruct Hi; [by left|by right]. }
  apply ends_send; intros; constructor; (by apply traced_asks) || exact Hv.
Qed.

Lemma delete_fresh_state name index (s : S) h : (delete_fresh_link name index s h).1.2 = s.
Proof.
  enough (ends (delete_fresh_link name index) (λ _ _, True) s h) as [Hs _] by done.
  apply ends_try, ends_get_link. intros [[link|]|] h' _ _; [|done..].
  destruct (is_some_and _ link); [by apply ends_send|done].
Qed.

(** The link created by this request. *)
Lemma deletes_fresh name marker index h0 (s : S) h :
  (∃ new u, h = new ++ h0 ∧ Ev (NlLinkAdd (wireguard_create_request name marker)) (Some (Ok u)) ∈ new) →
  traced (proper (WgCreateLink name marker) h0) h (delete_fresh_link name index s h).2.
Proof.
  intros (new & u & Hh0 & Hin).
  enough (ends (delete_fresh_link name index)
    (λ _ h', traced (proper (WgCreateLink name marker) h0) h h') s h) as [_ Ht] by exact Ht.
  apply ends_try, ends_get_link. intros r h' Hh Hread.
  destruct r as [[[link|]|]|]; try asked. cbn [is_some_and].
  destruct (is_wireguard_link link name index) eqn:Hlink; [|asked].
  assert (proper (WgCreateLink name marker) h0 (Ev (NlLinkDel index) None) h') as Hv.
  { apply is_wireguard_link_named in Hlink as [Hi Hn]. split; [by exists link; auto|].
    destruct (traced_grown _ _ _ Hh) as [new' ->]. exists (new' ++ new), u.
    rewrite Hh0, app_assoc. split; [done|]. set_solver. }
  apply ends_send; intros; constructor; (by apply traced_asks) || exact Hv.
Qed.

Lemma deletes_wg_create name marker (s : S) h :
  traced (proper (WgCreateLink name marker) h) h (wg_create name marker s h).2.
Proof.
  set (G := proper (WgCreateLink name marker) h).
  enough (ends (wg_create name marker) (λ _ h', traced G h h') s h) as [_ Ht] by exact Ht.
  assert (∀ h1 index e, traced G h h1 →
    (∃ new u, h1 = new ++ h ∧ Ev (NlLinkAdd (wireguard_create_request name marker)) (Some (Ok u)) ∈ new) →
    ends (delete_fresh_link name index ;;; fail (A := Z) (E := io_error) e) (λ _ h', traced G h h') s h1) as Hundo.
  { intros h1 index e Ht Hadd. apply ends_bind. split.
    - apply delete_fresh_state.
    - pose proof (deletes_fresh name marker index h s h1 Hadd) as Hd.
      assert (traced G h (delete_fresh_link name index s h1).2) as Ht' by by eapply traced_trans.
      destruct ((delete_fresh_link name index s h1).1.1); [by apply ends_ret|done]. }
  unfold wg_create. apply ends_try, ends_send; [intros u|intros err; by apply traced_one|by apply traced_one].
  assert (∀ h', grown (Ev (NlLinkAdd (wireguard_create_request name marker)) (Some (Ok u)) :: h) h' →
    ∃ new u, h' = new ++ h ∧ Ev (NlLinkAdd (wireguard_create_request name marker)) (Some (Ok u)) ∈ new) as Hadd.
  { intros h' [new ->]. exists (new ++ [Ev (NlLinkAdd (wireguard_create_request name marker)) (Some (Ok u))]), u.
    rewrite <- app_assoc. split; [done|]. set_solver. }
  apply ends_try, ends_get_link. intros r h1 Hh1 _.
  assert (traced G h h1) as Ht1 by (eapply traced_trans; [|by apply traced_asks]; by apply traced_one).
  pose proof (traced_grown _ _ _ Hh1) as Hg1.
  destruct r as [[[link|]|]|]; try exact Ht1; try (by apply ends_ret).
  destruct (negb _); [by apply ends_ret|].
  apply ends_bind, ends_send; [intros v|intros err|by constructor].
  - apply ends_try, ends_get_link. intros r h2 Hh2 _.
    assert (traced G h h2) as Ht2 by (eapply traced_trans; [|by apply traced_asks]; by constructor).
    destruct r as [[verified|]|]; try exact Ht2.
    destruct (negb _); [|by apply ends_ret]. apply Hundo; [done|]. apply Hadd.
    pose proof (traced_grown _ _ _ Hh2). etransitivity; [exact Hg1|]. etransitivity; [apply grown_cons|done].
  - apply Hundo; [by constructor|]. apply Hadd. etransitivity; [exact Hg1|apply grown_cons].
Qed.

Lemma deletes_remove_rule rule (s : S) h :
  traced (proper (RemoveRule rule) h) h (actor_remove_rule rule s h).2.
Proof.
  set (G := proper (RemoveRule rule) h).
  enough (ends (actor_remove_rule rule) (λ _ h', traced G h h') s h) as [_ Ht] by exact Ht.
  apply ends_try, ends_get_rules; intros; try asked.
  destruct (existsb (λ message, is_owned_rule message rule) messages) eqn:Hown; cbn [negb];
    [|destruct (existsb (same_slot rule) messages); asked].
  assert (∀ a, traced G h (Ev (NlRuleDel (rule_request rule)) a :: h')) as Hv.
  { intros a. constructor; [asked|]. split; [done|]. by exists messages. }
  apply ends_bind, ends_send; intros; [|case_match; by apply ends_ret|done].
  apply ends_try, ends_get_rules; intros; try (by eapply traced_trans; [apply Hv|asked]).
  case_match; apply ends_ret; by (eapply traced_trans; [apply Hv|asked]).
Qed.

Lemma route_request_protocol route op :
  rm_protocol (route_request route op) = RTPROT_NETWORK_ORCHESTRATOR.
Proof. unfold route_request. by destruct (ar_table route) as [t|]; [destruct (Z.leb t 255)|]. Qed.

Lemma call_actor_history {A} (command : Command A) (s : S) h :
  (call_actor command s h).2 = (execute command s h).2.
Proof. unfold call_actor. by destruct (execute command s h) as [[[]] ]. Qed.

Lemma removes_link name (s : S) h :
  traced (proper (RemoveLink name) h) h (netlink_remove_link name s h).2.
Proof.
  unfold netlink_remove_link, name_index, try_bind, bind, fail, lift, ret, call.
  destruct (contains_char name _); [constructor|]. simpl.
  set (index := answer _ (IfNametoindex name) h). set (h1 := Ev (IfNametoindex name) index :: h).
  assert (traced (proper (RemoveLink name) h) h h1) as Ht by by apply traced_one.
  destruct (Z.eqb_spec index 0) as [|Hne]; [exact Ht|]. rewrite call_actor_history.
  assert (∀ a, traced (proper (RemoveLink name) h) h (Ev (NlLinkDel index) a :: h1)) as Hd.
  { intros a. constructor; [exact Ht|]. split; [exact Hne|]. by exists h. }
  cbn [execute]. enough (ends (S := S) (send (NlLinkDel index))
    (λ _ h', traced (proper (RemoveLink name) h) h h') s h1) as [_ Hs] by exact Hs.
  apply ends_send; intros; apply Hd.
Qed.

Lemma obeys_call_actor {A} (command : Command A) (G : event → history → Prop) :
  obeys (@any_state S) G (λ _, True) (execute command) →
  obeys (@any_state S) G (λ _, True) (call_actor command).
Proof. intros Hm s h Hh. split; [done|]. rewrite call_actor_history. by apply Hm. Qed.

Ltac deletes :=
  repeat first
    [ apply obeys_call_actor; cbn [execute]
    | obeys_step
    | apply deletes_request; intros ? ?; first [exact I | reflexivity]
    | match goal with |- obeys _ _ _ (match ?x with _ => _ end) => destruct x end ].


(** ** What the answers mean *)

Lemma ends_call_actor {A} (command : Command A) (Q : io_result A → history → Prop) (s : S) h :
  ends (execute command) (λ r h', Q (unwrap_or r (Err actor_gone)) h') s h →
  let '(r, s', h') := call_actor command s h in s' = s ∧ ∃ reply, r = Some reply ∧ Q reply h'.
Proof.
  unfold ends, call_actor. destruct (execute command s h) as [[[r|] s'] h']; simpl; intros [Hs HQ]; eauto.
Qed.

(** Why a removal was refused, read from the calls: nothing was deleted. *)
Inductive removal_refused (rule : OwnedRuleResource) (e : io_error) (h' : history) : Prop :=
| refused_foreign messages :
    rules_just_read messages h' → existsb (λ m, is_owned_rule m rule) messages = false →
    existsb (same_slot rule) messages = true → ekind e = Other → removal_refused rule e h'
| refused_missing messages :
    rules_just_read messages h' → existsb (λ m, is_owned_rule m rule) messages = false →
    existsb (same_slot rule) messages = false → ekind e = NotFound → removal_refused rule e h'
| refused_dump err : rule_dump_failed err h' → e = netlink_error_to_io err → removal_refused rule e h'
| refused_gone : rule_dump_unanswered h' → e = actor_gone → removal_refused rule e h'.

(** What is answered after the deletion was sent, for each answer of the
    kernel and what the rules were read to be then. *)
Definition removal_tried (rule : OwnedRuleResource) (deleted : option (result unit nl_error))
    (reply : io_result unit) (h2 h' : history) : Prop :=
  match deleted with
  | None => h' = h2 ∧ reply = Err actor_gone
  | Some (Err err) =>
    h' = h2 ∧ ∃ e, reply = Err e ∧ ekind e ≠ NotFound ∧
      (ekind (netlink_error_to_io err) ≠ NotFound → e = netlink_error_to_io err)
  | Some (Ok _) =>
    traced asks h2 h' ∧
    ((∃ messages, rules_just_read messages h' ∧
        if existsb (λ m, is_owned_rule m rule) messages
        then ∃ e, reply = Err e ∧ ekind e = Other else reply = Ok tt) ∨
     (∃ err, rule_dump_failed err h' ∧ reply = Err (netlink_error_to_io err)) ∨
     (rule_dump_unanswered h' ∧ reply = Err actor_gone))
  end.

(** C21. Removing a rule, on every branch. The request to delete it is sent
    exactly when a full dump held it; it is reported removed only after the
    kernel took that request and a full dump made since no longer holds it.
    Without the request the answer is an error: another rule in its place is
    never success, and the rule is reported missing, which the core takes for
    removed, only when the dump holds nothing in its place or itself failed
    with an errno of that class. *)
Theorem rule_removal_answers (rule : OwnedRuleResource) (s : S) (h : history) :
  let '(r, s', h') := call_actor (CommandRule rule false) s h in
  s' = s ∧ ∃ reply, r = Some reply ∧
    ((∃ e, reply = Err e ∧ traced asks h h' ∧ removal_refused rule e h') ∨
     (∃ messages h1 deleted, traced asks h h1 ∧ rules_just_read messages h1 ∧
        existsb (λ m, is_owned_rule m rule) messages = true ∧
        removal_tried rule deleted reply (Ev (NlRuleDel (rule_request rule)) deleted :: h1) h')).
Proof.
  apply (ends_call_actor (CommandRule rule false)). cbn [execute].
  apply ends_try, ends_get_rules.
  2: { intros err h' Ht Hf. left. eexists. split; [done|]. split; [done|]. by eapply refused_dump. }
  2: { intros h' Ht Hf. left. eexists. split; [done|]. split; [done|]. by apply refused_gone. }
  intros messages h1 Hasks Hread.
  destruct (existsb (λ message, is_owned_rule message rule) messages) eqn:Hown; cbn [negb].
  2:{ destruct (existsb (same_slot rule) messages) eqn:Hslot; apply ends_ret; left; eexists;
        (split; [done|]); (split; [done|]).
      - by eapply refused_foreign.
      - by eapply refused_missing. }
  apply ends_bind, ends_send; [intros []|intros err|].
  - apply ends_try, ends_get_rules; [|intros err h' Ht Hf|intros h' Ht Hf]; try apply ends_ret.
    2-3: right; exists messages, h1; eexists (Some (Ok tt)); (split_and!; [done..|]); split; [done|]; eauto.
    intros left_over h2 Ht Hread2.
    destruct (existsb _ left_over) eqn:Hleft; apply ends_ret; right; exists messages, h1, (Some (Ok tt));
      (split_and!; [done..|]); (split; [done|]); left; exists left_over; rewrite Hleft; eauto.
  - destruct (has_kind NotFound _) eqn:Hkind; apply ends_ret; right; exists messages, h1, (Some (Err err));
      (split_and!; [done..|]); (split; [done|]);
      eexists; (split; [done|]); unfold has_kind in Hkind.
    + split; [done|]. intros Hn. by apply bool_decide_eq_true in Hkind.
    + by apply bool_decide_eq_false in Hkind.
  - right. by exists messages, h1, None.
Qed.

Lemma ends_never_ok (m : M S (io_result unit)) (e : io_error) (P : Z → history → Prop) s h :
  (m s h).1.2 = s →
  ends (m ;;; fail e) (λ r h', ∀ index, unwrap_or r (Err actor_gone) = Ok index → P index h') s h.
Proof.
  intros Hs. apply ends_bind. split; [done|]. by destruct (m s h).1.1.
Qed.

(** Creating a link: success means that the kernel was sent the request, took
    the owner marker, and then answered for that index with a WireGuard link
    of that name and marker. *)
Theorem wg_create_answers (name owner_marker : string) (s : S) (h : history) :
  let '(r, s', h') := call_actor (WgCreate name owner_marker) s h in
  s' = s ∧ ∃ reply, r = Some reply ∧ ∀ index, reply = Ok index →
    ∃ created link h1 h2 u v,
      h1 = Ev (NlLinkAdd (wireguard_create_request name owner_marker)) (Some (Ok u)) :: h ∧
      traced asks h1 h2 ∧ link_just_read created h2 ∧ is_wireguard_link created name index = true ∧
      traced asks (Ev (NlLinkSetAlias index owner_marker) (Some (Ok v)) :: h2) h' ∧
      link_just_read link h' ∧ is_owned_wireguard_link link name index owner_marker = true.
Proof.
  apply (ends_call_actor (WgCreate name owner_marker)). cbn [execute].
  apply ends_try, ends_send; [intros u|done|done]. apply ends_try, ends_get_link.
  intros r h2 Hasks Hread. destruct r as [[[created|]|]|]; try done; try by apply ends_ret.
  destruct (is_wireguard_link created name 0) eqn:Hlink; cbn [negb]; [|by apply ends_ret].
  assert (is_wireguard_link created name (lm_index created) = true) as Hindex.
  { unfold is_wireguard_link in *. rewrite !andb_true_iff in *. rewrite Z.eqb_refl, orb_true_r. tauto. }
  apply ends_bind, ends_send; [intros v|intros err|done].
  - apply ends_try, ends_get_link. intros r h3 Hasks3 Hread3. destruct r as [[verified_link|]|]; [|done..].
    destruct (is_some_and _ verified_link) eqn:Hown; cbn [negb].
    + apply ends_ret. intros index [= <-]. destruct verified_link as [link|]; [|done].
      exists created, link. do 2 eexists. exists u, v. split; [reflexivity|]. split; [exact Hasks|].
      by repeat (split; [auto|]).
    + by apply ends_never_ok, delete_fresh_state.
  - by apply ends_never_ok, delete_fresh_state.
Qed.

End deletions.

(** ** An example *)

#[local] Existing Instance ipnet_model.
#[local] Existing Instance netlink_model.

(** A kernel that holds the rule of a tunnel and deletes it when asked. *)
#[local] Instance tunnel_kernel : Env := λ A c _,
  match c in ext A return A → A with
  | NlRuleDump Ipv4 => λ _, Some ([tunnel_rule_dump], None)
  | NlRuleDump Ipv6 => λ _, Some ([], None)
  | NlRuleDel _ => λ _, Some (Ok tt)
  | _ => λ failing, failing
  end (failing_answer c).

