(* ===== verification/XrayConnect.v ===== *)
(** * Xray connections are written ahead

    [journal.rs] promises that the journal is written before every privileged
    mutation. For [connect_xray] that is a fact of its code: each process it
    starts and each address, route, rule or resolver setting it adds is in
    the journal the disk holds at that moment, whatever failed before. *)

From S2P Require Export CoreXray Trace Kernel.

(** ** Mutations and their records *)

(** The resource that must be on record before a call; [None] for calls that
    add nothing a resource stands for. *)
Definition recorded_as (e : event) : option (OwnedResource → bool) :=
  match e with
  | Ev c _ =>
    match c with
    | AddRoute route => Some (λ r, r =b Route route)
    | AddRule rule => Some (λ r, r =b Rule rule)
    | WgAddAddress i n => Some (λ r, r =b Address (mkAddressResource i n))
    | DnsApplyLink name servers domains full => Some (λ r,
        match r with
        | Dns d => (wd_name d =b name) && (wd_servers d =b servers) && (wd_domains d =b domains)
                   && Bool.eqb (wd_full d) full
        | _ => false
        end)
    | XrayStart _ name _ _ => Some (λ r,
        match r with XrayProcess p => xp_name p =b name | _ => false end)
    | _ => None
    end
  end.

(** Every document the disk may hold records it. *)
Definition on_disk (p : OwnedResource → bool) (h : history) : Prop :=
  Forall (λ doc, ∃ entry r, entry ∈ jd_entries doc ∧ r ∈ je_resources entry ∧ p r = true) (disk h).

Definition announced (e : event) (h : history) : Prop :=
  match recorded_as e with Some p => on_disk p h | None => True end.

(** ** Code that writes ahead *)

Abbreviation writes_at := (obeys (S := DaemonCore) any_state announced).
Abbreviation writes := (obeys (S := DaemonCore) any_state announced (λ _, True)).

(** ** What a connection works out before it changes anything

    The plan, its addresses and the bypass targets: only resolutions. *)

Section plans.
Context `{Env} `{IpNetLib} `{UrlLib} `{JsonText} {S : Type}.
Context {R : S → S → Prop} `{!PreOrder R} {G : event → history → Prop}.

Abbreviation reads := (obeys R G (λ _, True)).

Lemma obeys_each_mut f items : (∀ x, reads (f x)) → reads (each_mut f items).
Proof using PreOrder0. intros Hf. induction items as [|x items IH]; simpl; obeys. Qed.

Lemma obeys_mark_all mark items : reads (each_mut (mark_outbound mark) items).
Proof using PreOrder0. apply obeys_each_mut. intros x. obeys. Qed.
Hint Resolve obeys_mark_all : obeys.

Lemma obeys_rewrite name mtu mark failover pinned exits config :
  reads (rewrite_config name mtu mark failover pinned exits config).
Proof using PreOrder0. unfold rewrite_config. obeys. Qed.
Hint Resolve obeys_rewrite : obeys.

Lemma obeys_prepare uid params mark : reads (prepare_xray uid params mark).
Proof using PreOrder0. unfold prepare_xray. obeys. Qed.

End plans.

Section reads.
Context `{Env} `{IpNetLib} `{UrlLib} `{JsonText}.
Context (show_ip : IpAddr → string).
Context {R : DaemonCore → DaemonCore → Prop} `{!PreOrder R} {G : event → history → Prop}.
Context (resolving : ∀ host ans h, G (Ev (ResolveHost host) ans) h).

Abbreviation reads := (obeys (S := DaemonCore) R G (λ _, True)).

Lemma obeys_resolve host : reads (resolve_host_addrs host).
Proof using PreOrder0 resolving.
  unfold resolve_host_addrs. obeys_step; [obeys|]. apply obeys_call. auto.
Qed.
Hint Resolve obeys_resolve : obeys.

Lemma obeys_pin_outbounds pg outbounds : reads (pin_outbounds show_ip resolve_host_addrs pg outbounds).
Proof using PreOrder0 resolving.
  revert pg. induction outbounds as [|o outbounds IH]; intros pg; simpl; [obeys|].
  apply obeys_try; [unfold pin_outbound; obeys|]. intros [pg' o'].
  apply obeys_try; [apply IH|]. intros []. obeys.
Qed.
Hint Resolve obeys_pin_outbounds : obeys.

Lemma obeys_pin plan : reads (pin_server_addresses show_ip resolve_host_addrs plan).
Proof using PreOrder0 resolving. unfold pin_server_addresses. obeys. Qed.

Lemma obeys_targets plan : reads (bypass_targets plan).
Proof using PreOrder0 resolving. unfold bypass_targets. obeys. Qed.

End reads.

(** ** Its parts that record nothing *)

Section parts.
Context `{Env} `{IpNetLib} `{UrlLib} `{JsonText}.
Context (show_ip : IpAddr → string).

Lemma writes_find_mark rules marks : writes (find_mark rules marks).
Proof. induction marks as [|slot marks IH]; simpl; obeys. Qed.
Hint Resolve writes_find_mark : obeys.

Lemma writes_allocate : writes allocate_openvpn_mark.
Proof. obeys. Qed.

Lemma writes_resolve host : writes (resolve_host_addrs host).
Proof. by apply obeys_resolve. Qed.

Lemma writes_prepare uid params mark : writes (prepare_xray uid params mark).
Proof. apply obeys_prepare. Qed.

Lemma writes_pin plan : writes (pin_server_addresses show_ip resolve_host_addrs plan).
Proof. by apply obeys_pin. Qed.

Lemma writes_targets plan : writes (bypass_targets plan).
Proof. by apply obeys_targets. Qed.
Hint Resolve writes_targets : obeys.

Lemma writes_teardown_xray index : writes (teardown_xray_entry index).
Proof. unfold teardown_xray_entry. obeys. Qed.

Lemma writes_status uid profile_id : writes (xray_status uid profile_id).
Proof. unfold xray_status. obeys. Qed.

Lemma writes_checks uid profile_id checks : writes (set_xray_service_checks uid profile_id checks).
Proof. unfold set_xray_service_checks. obeys. Qed.

Lemma writes_watchdog index : writes (ensure_watchdog index).
Proof. unfold ensure_watchdog. obeys. Qed.

(** ** What a connection records *)

Lemma on_disk_saved (p : OwnedResource → bool) entry r doc h :
  entry ∈ jd_entries doc → r ∈ je_resources entry → p r = true →
  on_disk p (Ev (StoreSave doc) (Ok tt) :: h).
Proof. intros He Hr Hp. simpl. repeat constructor. by exists entry, r. Qed.

(** A resource is pushed and the journal saved; what follows an [Ok] runs
    with it on the disk. *)
Lemma writes_record {B} (p : OwnedResource → bool) stage index r (m : M DaemonCore (io_result B)) :
  p r = true → writes_at (on_disk p) m →
  writes (try_bind (staged stage (push_and_save index r)) (λ _, m)).
Proof.
  intros Hp Hm c h _. split; [done|].
  unfold try_bind, staged, push_and_save, update_entry, entry_at, bind. simpl.
  destruct (entries c !! index) as [entry|] eqn:He; simpl; [|constructor].
  destruct (answer _) as [[]|err]; simpl; [|apply traced_one; exact I].
  eapply traced_trans; [|apply Hm]; [apply traced_one; exact I|].
  apply on_disk_saved with (push_resource r entry) r; [|simpl; set_solver|done].
  unfold dc_journal, jd_entries. simpl. apply list_elem_of_lookup_2 with index.
  change (<[index := push_resource r entry]> (entries c) !! index = Some (push_resource r entry)).
  apply list_lookup_insert_eq. by apply lookup_lt_is_Some_1.
Qed.

(** An entry is pushed and the journal saved. *)
Lemma writes_opened {B} (p : OwnedResource → bool) entry r (m : io_error → M DaemonCore B) (k : M DaemonCore B) :
  r ∈ je_resources entry → p r = true →
  (∀ err, writes (m err)) → writes_at (on_disk p) k →
  writes (bind (push_entry entry) (λ _, bind store_save_journal (λ saved,
    match saved with Err err => m err | Ok _ => k end))).
Proof.
  intros Hr Hp Hm Hk c h _. split; [done|]. unfold push_entry, store_save_journal, bind. simpl.
  destruct (answer _) as [[]|err]; simpl.
  - eapply traced_trans; [|apply Hk]; [apply traced_one; exact I|].
    apply on_disk_saved with entry r; [simpl; set_solver|done..].
  - eapply traced_trans; [|by apply Hm]. apply traced_one. exact I.
Qed.

Lemma writes_bypass index ip : writes (add_bypass_route index ip).
Proof.
  unfold add_bypass_route. obeys_step; [obeys|]. destruct a; [|obeys].
  apply writes_record with (p := λ r, r =b Route a); [by apply bool_decide_eq_true|].
  obeys_step; [by apply obeys_call|]. obeys.
Qed.

Lemma writes_route index applied : writes (install_xray_route index applied).
Proof.
  apply writes_record with (p := λ r, r =b Route applied); [by apply bool_decide_eq_true|].
  obeys_step; [by apply obeys_call|]. obeys.
Qed.

Lemma writes_rule index rule : writes (install_xray_rule index rule).
Proof.
  apply writes_record with (p := λ r, r =b Rule rule); [by apply bool_decide_eq_true|].
  obeys_step. obeys_step; [obeys|]. obeys_step; [by apply obeys_call|]. obeys.
Qed.
Hint Resolve writes_bypass writes_route writes_rule : obeys.

Lemma writes_dns index plan full link_index : writes (install_xray_dns index plan full link_index).
Proof.
  unfold install_xray_dns. destruct (xl_dns_servers plan) as [|s servers]; [obeys|].
  eapply writes_record; [|obeys_step; obeys_step; [obeys|];
                          obeys_step; [apply obeys_call; intros ans h Hh; exact Hh|obeys]].
  simpl. by rewrite !bool_decide_eq_true_2, Bool.eqb_reflx.
Qed.

Lemma writes_configure index plan link_index : writes (configure_link index plan link_index).
Proof.
  unfold configure_link, wg_unwrap. eapply writes_record;
    [|obeys_step; destruct (ex_wg _); [|obeys];
      obeys_step; [apply obeys_call; intros ans h Hh; exact Hh|obeys]].
  by apply bool_decide_eq_true.
Qed.
Hint Resolve writes_dns writes_configure : obeys.

(** ** The whole connection *)

(** The process of this tunnel is on the disk. *)
Definition process_named (name : string) (r : OwnedResource) : bool :=
  match r with XrayProcess p => xp_name p =b name | _ => false end.

Lemma writes_start index uid plan :
  writes_at (on_disk (process_named (xl_name plan))) (start_xray index uid plan).
Proof.
  unfold start_xray. obeys_step; [apply obeys_call; intros ans h Hh; exact Hh|]. obeys.
Qed.

Lemma writes_bypasses index plan : writes (add_xray_bypass_routes index plan).
Proof. unfold add_xray_bypass_routes. obeys. Qed.
Hint Resolve writes_bypasses : obeys.

Lemma writes_apply index uid plan full :
  writes_at (on_disk (process_named (xl_name plan))) (apply_xray_plan index uid plan full).
Proof. unfold apply_xray_plan. obeys_step; [apply writes_start|]. obeys. Qed.

Lemma writes_abandon {A} index err : writes (abandon (A := A) index err).
Proof. unfold abandon. obeys_step; [apply writes_teardown_xray|]. obeys. Qed.
Hint Resolve writes_abandon writes_watchdog writes_checks writes_status : obeys.

Lemma writes_commit uid owner index plan :
  writes (update_entry index (with_state Applied) ;;;
    let! saved := store_save_journal in
    match saved with
    | Err err => abandon index (xray_stage "journal_commit" err)
    | Ok _ =>
      modify (set_xray_restarts (delete (uid, owner))) ;;;
      modify (set_tunnel_failed (λ m, m ∖ {[(uid, owner)]})) ;;;
      start_failover uid owner plan ;;;
      ensure_watchdog index ;;;
      let! _ := set_xray_service_checks uid (xl_profile_id plan) (xl_service_checks plan) in
      let! status := xray_status uid (xl_profile_id plan) in
      ret (Ok status)
    end).
Proof. unfold start_failover. obeys. Qed.

Lemma connect_writes uid params : writes (connect_xray show_ip uid params).
Proof.
  unfold connect_xray. cbv zeta.
  repeat lazymatch goal with
  | |- obeys _ _ _ (bind (push_entry _) _) => fail
  | |- obeys _ _ _ (if ?b then _ else _) => destruct b; [solve [obeys]|]
  | |- obeys _ _ _ (let _ := _ in _) => cbv zeta
  | |- obeys _ _ _ _ =>
    obeys_step; [solve [apply writes_allocate | apply writes_prepare | apply writes_pin | obeys]..|]
  end.
  eapply writes_opened with (p := process_named _);
    [by apply list_elem_of_here|by apply bool_decide_eq_true|intros err; obeys|].
  obeys_step. cbv zeta. apply obeys_bind; [apply writes_apply|]. intros [[]|err];
    [apply writes_commit|apply writes_abandon].
Qed.

(** C19. Every process [connect_xray] starts and every address, route, rule
    and resolver setting it adds, the teardown of a failed attempt included,
    is in every journal document the disk may hold when it does so. *)
Theorem connect_xray_writes_ahead uid params c h :
  traced announced h (connect_xray show_ip uid params c h).2.
Proof. exact (proj2 (connect_writes uid params c h I)). Qed.

End parts.
