(* ===== verification/Server.v ===== *)
(** * The server: [crates/daemon/src/server.rs]

    What [handle] does with a request: parse, validate, ask polkit, act,
    notify. Between two acquisitions of a lock other connections may change
    the state in any way ([others]). At every await the time for the request
    may have run out: what was awaited is done, the rest of the handler is
    dropped. A panic aborts the daemon, as the release profile has it. *)

From S2P Require Export Protocol Settings CoreXray CoreIntents.

(** ** State and configuration *)

Record Server : Type := mkServer {
  sv_core : DaemonCore;
  sv_settings : VpnAuthMode;
}.

Definition with_sv_core (c : DaemonCore) (s : Server) : Server := mkServer c (sv_settings s).
Definition with_sv_settings (mode : VpnAuthMode) (s : Server) : Server := mkServer (sv_core s) mode.

(** The stores of [ServerContext]: the root directories, and the settings
    file. *)
Record ServerConfig : Type := mkServerConfig {
  cfg_always_on : option path;
  cfg_cond_rules : option path;
  cfg_settings_store : option path;
}.

Abbreviation Failure := (ErrorCode * text)%type.

(** What the handlers answer with, before serialization. *)
Inductive Reply : Type :=
| RNull
| RSettings (mode : VpnAuthMode)
| ROwned (owners : list OwnedEntry)
| RAlwaysOnList (profiles : list (AlwaysOnKind * string * bool)) (paused : bool)
    (supported : list AlwaysOnKind)
| RAlwaysOnSet (stored active : bool)
| RAlwaysOnRemove (removed disconnected : bool)
| RAlwaysOnResume (resumed : bool)
| RWireGuardConnect (status : WireGuardStatusResult)
| RWireGuardStatus (status : WireGuardStatusResult)
| RStopped (stopped : bool)
| ROpenVpnConnect (status : OpenVpnStatusResult)
| ROpenVpnStatus (status : OpenVpnStatusResult)
| ROpenVpnProbe (probe : OpenVpnProbeResult)
| ROpenVpnPlan (plan : OpenVpnPlanResult)
| RXrayConnect (status : XrayStatusResult)
| RXrayStatus (status : XrayStatusResult)
| RXrayExits (exits : list ProxyExitStatus)
| RServiceChecks (results : list ServiceCheckResult)
| RXrayInstall (version : string) (created : bool)
| RXrayRemove (removed : bool)
| RText (report : string)
| RNmList (connections : option string)
| RRoutesApply (applied : nat)
| RRoutesRemove (removed : nat)
| RCondRules (rules : list (ConditionalRouteRule * ConditionalRuleStatus))
| RCondRulesPut (stored : bool) (status : ConditionalRuleStatus)
| RCondRulesRemove (removed : bool)
| RNetTables (tables : NetTablesResult)
| RNetEdit (outcome : NetEditOutcome)
| RNetExplain (explain : NetExplainResult)
| RIntents (intents : list NetIntentView)
| RIntent (id : string)
| RCleanup (result : CleanupResult).

(** [serde_json::to_value] *)
Class ToValue : Type := reply_value : Reply → result Value text.

(** ** Pure helpers *)

Definition error_code (err : io_error) : ErrorCode :=
  match ekind err with
  | InvalidInput => InvalidParams
  | AlreadyExists => Conflict
  | NotFound => NotFoundCode
  | NotConnected | BrokenPipe => UnavailableCode
  | _ => Internal
  end.

Definition invalid (message : text) : Failure := (InvalidParams, message).

(** The destinations whose text is one of the six listed. *)
Definition captures_all_traffic (destination : IpNet) : bool :=
  vec_contains [mkNet (V4 0) 0; mkNet (V4 0) 1; mkNet (V4 (2 ^ 31)) 1;
                mkNet (V6 0) 0; mkNet (V6 0) 1; mkNet (V6 (2 ^ 127)) 1] destination.

Definition reject_wireguard_owner (owner : string) : result unit Failure :=
  if starts_with owner "wg:" || starts_with owner "ovpn:" || starts_with owner "ovpn-probe:"
     || starts_with owner "xray:"
  then Err (invalid (txt "reserved tunnel owner prefix"))
  else Ok tt.

Definition MAX_XRAY_ARCHIVE_BYTES : nat := 64 * 1024 * 1024.
Definition MAX_B64_LEN : nat := (MAX_XRAY_ARCHIVE_BYTES / 3 + 1) * 4.

Definition decode_xray_archive `{Base64Lib} (archive_b64 : string) : io_result bytes :=
  if Nat.ltb MAX_B64_LEN (str_len archive_b64)
  then Err (err_new InvalidInput "managed Xray archive exceeds the size limit")
  else ok_or (b64_decode archive_b64) (err_new InvalidData "malformed base64 archive").

Definition definition_kind (d : AlwaysOnDefinition) : AlwaysOnKind :=
  match d with DefWireGuard _ => KindWireGuardProfile | DefStaticRoutes _ => KindStaticRoutes end.
Definition definition_profile_id (d : AlwaysOnDefinition) : string :=
  match d with DefWireGuard p => wc_profile_id p | DefStaticRoutes p => sp_profile_id p end.

(** [plan.dns_domains = ...] of a secondary connection. *)
Definition with_domains (domains : list string) (plan : WireGuardPlan) : WireGuardPlan :=
  mkWgPlan (wp_setconf plan) (wp_addresses plan) (wp_dns_servers plan) domains
    (wp_mtu plan) (wp_routes plan) (wp_full_ipv4 plan) (wp_full_ipv6 plan) (wp_warnings plan)
    (wp_interface_name plan).

(** A failure that left the owner as it was is not announced. *)
Definition unchanged_failure {A} (r : result A Failure) : bool :=
  match r with
  | Err (NotFoundCode, _) | Err (InvalidParams, _) => true
  | _ => false
  end.

(** ** The environment of a handler *)

Section server.
Context `{Env} `{IpNetLib} `{UrlLib} `{JsonText} `{Base64Lib} `{RuntimeDir}.
Context `{JsonCodec AlwaysOnDocument} `{JsonCodec CondRulesDocument} `{JsonCodec IntentDocument}.
Context `{JsonCodec SettingsDocument} `{ToValue}.
Context `{FromValue SettingsSetParams} `{FromValue AlwaysOnSetParams} `{FromValue AlwaysOnRemoveParams}
  `{FromValue WireGuardConnectParams} `{FromValue ProfileParams} `{FromValue OpenVpnConnectRequest}
  `{FromValue XrayConnectParams} `{FromValue XrayServiceChecksParams} `{FromValue XrayInstallParams}
  `{FromValue RoutesApplyParams} `{FromValue OwnerParams} `{FromValue CondRulesPutParams}
  `{FromValue CondRulesRemoveParams} `{FromValue NmSetActiveParams} `{FromValue NetRouteAddParams}
  `{FromValue NetRouteDelParams} `{FromValue NetRuleAddParams} `{FromValue NetRuleDelParams}
  `{FromValue NetDnsProbeParams} `{FromValue NetIntentSetParams} `{FromValue NetIntentDelParams}
  `{FromValue LinkSetStateParams} `{FromValue ExternalTunnelStopParams}.
Context (show_ip : IpAddr → string) (cfg : ServerConfig).
(** What the rest of the process did to the state before a lock was taken. *)
Context (others : history → Server → Server).

Abbreviation handler := (M Server (result Value Failure)).

Definition before_lock : M Server unit := λ s h, (Some tt, others h s, h).

Definition on_core {A} (m : M DaemonCore A) : M Server A := λ s h,
  match m (sv_core s) h with
  | (r, c, h') => (r, with_sv_core c s, h')
  end.

(** The future ends here: what follows the await is never run. *)
Definition dropped {A} : M Server A := λ s h, (None, s, h).

(** [.await] under [timeout(DISPATCH_TIMEOUT, ..)]: the blocking task runs to
    its end in any case, and it is awaited only while there is time. *)
Definition awaited {A} (m : M Server A) : M Server A :=
  let! a := m in
  let! late := call RequestExpired in
  if late : bool then dropped else ret a.

(** Whether a run that gave no result was dropped at an await. *)
Definition timed_out (h : history) : bool :=
  match h with
  | Ev RequestExpired late :: _ => late
  | _ => false
  end.

(** [err] as the failure a client gets. *)
Definition failure_of (err : io_error) : Failure := (error_code err, emsg err).

Definition with_core {A} (f : M DaemonCore (io_result A)) : M Server (result A Failure) :=
  let! r := awaited (before_lock ;;; on_core f) in
  ret (map_err failure_of r).

(** [with_core(ctx, |core| Ok(f(core)))] *)
Definition with_core_ok {A} (f : M DaemonCore A) : M Server (result A Failure) :=
  with_core (let! a := f in ret (Ok a)).

Definition with_store {A} (f : path → M Server (io_result A)) : M Server (result A Failure) :=
  match cfg_always_on cfg with
  | None => fail (UnavailableCode, txt "always-on store is unavailable")
  | Some root =>
    let! r := awaited (f root) in
    ret (map_err (λ err, (error_code err, txt "always-on store operation failed")) r)
  end.

Definition with_cond_store {A} (f : path → M Server (io_result A)) : M Server (result A Failure) :=
  match cfg_cond_rules cfg with
  | None => fail (UnavailableCode, txt "conditional rule store is unavailable")
  | Some root =>
    let! r := awaited (f root) in
    ret (map_err (λ err, (error_code err, txt "conditional rule operation failed")) r)
  end.

Definition notify (uid : Z) (owner : string) : M Server unit := call (Notify uid owner).

Definition authorize (peer : PeerIdentity) (action : Action) : M Server (result unit Failure) :=
  let! decision := awaited (call (PolkitCheck peer action)) in
  ret (match decision with
       | Ok Authorized => Ok tt
       | Ok Denied =>
         Err (NotAuthorized, [TStr "polkit denied "; TStr (polkit_id action);
                TStr "; a polkit authentication agent must be running in your session"])
       | Ok Dismissed =>
         Err (AuthorizationDismissed, txt "authorization dialog was dismissed; nothing was applied")
       | Err err => Err (UnavailableCode, emsg err)
       end).

Definition vpn_auth_mode : M Server VpnAuthMode :=
  before_lock ;;; let! s := get in ret (sv_settings s).

Definition params {T} `{FromValue T} (value : Value) : M Server (result T Failure) :=
  lift (map_err (λ err, (InvalidParams, err)) (from_value value)).

(** [from_value(..).map_err(|_| invalid(message.into()))] *)
Definition params_or {T} `{FromValue T} (message : string) (value : Value)
    : M Server (result T Failure) :=
  lift (map_err (λ _, invalid (txt message)) (from_value value)).

Definition to_value (reply : Reply) : handler :=
  lift (map_err (λ err, (Internal, err)) (reply_value reply)).

Definition null : handler := ret (Ok JNull).

Definition check_owner (owner : string) : M Server (result unit Failure) :=
  lift (map_err invalid (validate_owner owner)).

Definition eval_conditional : M Server unit :=
  match cfg_cond_rules cfg with
  | None => ret tt
  | Some root =>
    let! changed := awaited
      (let? rules := load_all_rules root in
       let? addrs := call ObserveAddrs in
       let? observed := call ObserveRoutes in
       before_lock ;;;
       let! changed := on_core (reconcile_conditional addrs observed rules) in
       ret (Ok changed)) in
    match changed with
    | Ok changed => for_each changed (λ '(uid, owner), notify uid owner)
    | Err _ => ret tt
    end
  end.

(** ** Settings and always-on profiles *)

Definition settings_unserializable : io_error := err_new InvalidData "settings".

Definition handle_settings_get : handler :=
  let! mode := vpn_auth_mode in to_value (RSettings mode).

Definition handle_settings_set (peer : PeerIdentity) (value : Value) : handler :=
  let? params := params (T := SettingsSetParams) value in
  let? _ := authorize peer SystemNetwork in
  let mode := sn_vpn_auth_mode params in
  let! saved := awaited
    (before_lock ;;;
     let? _ := match cfg_settings_store cfg with
               | Some p => settings_save settings_unserializable p mode
               | None => ret (Ok tt)
               end in
     modify (with_sv_settings mode) ;;; ret (Ok tt)) in
  let? _ := lift (map_err (λ _, (Internal, txt "cannot save settings")) saved) in
  to_value (RSettings mode).

Definition handle_owned_list (peer : PeerIdentity) : handler :=
  let? owners := with_core_ok (let! c := get in ret (owned c (pi_uid peer))) in
  to_value (ROwned owners).

Definition handle_always_on_list (peer : PeerIdentity) : handler :=
  let? document := with_store (λ root, AlwaysOn.load_uid root (pi_uid peer)) in
  to_value (RAlwaysOnList
    (map (λ e, (definition_kind (se_definition e), definition_profile_id (se_definition e),
                se_enabled e)) (ad_entries document))
    (ad_paused document) [KindWireGuardProfile; KindStaticRoutes]).

Definition unsupported_backend (value : Value) : bool :=
  match as_str (index (index value "definition") "kind") with
  | Some kind => (kind =b "openVpn"%string) || (kind =b "xrayTun"%string)
  | None => false
  end.

Definition bad_definition : string := "invalid always-on definition".

Definition handle_always_on_set (peer : PeerIdentity) (value : Value) : handler :=
  let uid := pi_uid peer in
  if unsupported_backend value
  then fail (UnsupportedMethod, txt "always-on backend is not supported")
  else
    let? params := params_or (T := AlwaysOnSetParams) bad_definition value in
    let definition := as_definition params in
    let? _ := lift (map_err (λ _, invalid (txt bad_definition)) (validate_definition definition)) in
    let? _ := authorize peer SystemNetwork in
    let? '(stored, paused) := with_store (λ root,
      let? stored := insert_definition root uid definition in
      let? document := AlwaysOn.load_uid root uid in
      ret (Ok (stored, ad_paused document))) in
    let! active :=
      (if paused : bool then ret false
       else
         let! r := with_core (apply_definition uid definition) in
         (if is_ok r then notify uid (definition_owner definition) else ret tt) ;;;
         ret (is_ok r)) in
    to_value (RAlwaysOnSet stored active).

Definition removal_owner (params : AlwaysOnRemoveParams) : string :=
  match ar_kind params with
  | KindWireGuardProfile => "wg:" +:+ ar_profile_id params
  | KindStaticRoutes => ar_profile_id params
  end.

(** The owner's tunnel or routes, when it has any. *)
Definition remove_always_on (uid : Z) (params : AlwaysOnRemoveParams)
    : M DaemonCore (io_result bool) :=
  let! c := get in
  if negb (existsb (λ entry, oe_owner entry =b removal_owner params) (owned c uid))
  then ret (Ok false)
  else match ar_kind params with
       | KindWireGuardProfile =>
         let? _ := disconnect_wireguard uid (ar_profile_id params) in ret (Ok true)
       | KindStaticRoutes =>
         let? _ := remove_owner uid (removal_owner params) in ret (Ok true)
       end.

Definition handle_always_on_remove (peer : PeerIdentity) (value : Value) : handler :=
  let uid := pi_uid peer in
  let? params := params_or (T := AlwaysOnRemoveParams) "invalid always-on removal" value in
  let owner := removal_owner params in
  let? _ := check_owner owner in
  let? _ := authorize peer SystemNetwork in
  let? found := with_store (λ root, disable root uid owner) in
  if negb found then to_value (RAlwaysOnRemove false false)
  else
    let! r := with_core (remove_always_on uid params) in
    let? disconnected := lift (map_err (λ '(code, _),
      (code, txt "owner cleanup failed; definition remains disabled")) r) in
    let? _ := with_store (λ root, AlwaysOn.remove root uid owner) in
    (if disconnected : bool then notify uid owner else ret tt) ;;;
    to_value (RAlwaysOnRemove true disconnected).

Definition handle_always_on_resume (peer : PeerIdentity) : handler :=
  let uid := pi_uid peer in
  let? _ := authorize peer SystemNetwork in
  let? document := with_store (λ root,
    let? _ := resume root uid in AlwaysOn.load_uid root uid) in
  for_each (bfilter se_enabled (ad_entries document)) (λ entry,
    let! r := with_core (apply_definition uid (se_definition entry)) in
    if is_ok r then notify uid (definition_owner (se_definition entry)) else ret tt) ;;;
  to_value (RAlwaysOnResume true).

(** ** Tunnels *)

(** The result of a disconnect: announced unless nothing changed. *)
Definition disconnected (uid : Z) (owner : string) (r : result unit Failure) : handler :=
  (if unchanged_failure r then ret tt else notify uid owner) ;;;
  let? _ := lift r in
  to_value (RStopped true).

Definition secondary_ok (role : TunnelRole) (routes : list PolicyRoute) (domains : list string)
    : M Server (result unit Failure) :=
  lift (map_err (λ message, invalid (txt message)) (validate_secondary role routes domains)).

Definition wireguard_plan (params : WireGuardConnectParams) : M Server (result WireGuardPlan Failure) :=
  match parse_wireguard_config (wc_config params) (wc_routes params) with
  | Err (WireGuardPlanError message) => fail (invalid (txt message))
  | Err PlanPanic => panic
  | Ok plan =>
    let plan := with_hint (wc_interface_name params) plan in
    let? _ := secondary_ok (wc_role params) (wc_routes params) (wc_dns_domains params) in
    if wc_role params =b Secondary then
      if wp_full_ipv4 plan || wp_full_ipv6 plan
      then fail (invalid (txt "A secondary connection cannot take all traffic"))
      else ret (Ok (with_domains
             (if Nat.eqb (length (wp_dns_servers plan)) 0 then [] else wc_dns_domains params) plan))
    else ret (Ok plan)
  end.

Definition handle_wireguard_connect (peer : PeerIdentity) (value : Value) : handler :=
  let uid := pi_uid peer in
  let? params := params (T := WireGuardConnectParams) value in
  let? _ := check_owner (wc_profile_id params) in
  let? plan := wireguard_plan params in
  let! mode := vpn_auth_mode in
  let? _ := authorize peer (connect_action mode (wp_full_ipv4 plan || wp_full_ipv6 plan)) in
  let? status := with_core (connect_wireguard uid (wc_profile_id params) plan) in
  notify uid ("wg:" +:+ wc_profile_id params) ;;;
  to_value (RWireGuardConnect status).

Definition handle_wireguard_disconnect (peer : PeerIdentity) (value : Value) : handler :=
  let uid := pi_uid peer in
  let? params := params (T := ProfileParams) value in
  let? _ := check_owner (pp_profile_id params) in
  let? _ := authorize peer ConnectProfile in
  let! r := with_core (disconnect_wireguard uid (pp_profile_id params)) in
  disconnected uid ("wg:" +:+ pp_profile_id params) r.

Definition handle_wireguard_status (peer : PeerIdentity) (value : Value) : handler :=
  let? params := params (T := ProfileParams) value in
  let? _ := check_owner (pp_profile_id params) in
  let? status := with_core_ok (wireguard_status (pi_uid peer) (pp_profile_id params)) in
  to_value (RWireGuardStatus status).

Definition openvpn_request (uid : Z) (message : string) (value : Value)
    : M Server (result (OpenVpnConnectRequest * OpenVpnPlan) Failure) :=
  let? request := params_or (T := OpenVpnConnectRequest) message value in
  let? plan := lift (map_err (λ err, invalid (emsg err)) (prepare_openvpn uid request)) in
  ret (Ok (request, plan)).

Definition handle_openvpn_connect (peer : PeerIdentity) (value : Value) : handler :=
  let uid := pi_uid peer in
  let? '(_, plan) := openvpn_request uid "invalid OpenVPN connect parameters" value in
  let! mode := vpn_auth_mode in
  let? _ := authorize peer (connect_action mode true) in
  let? status := with_core (connect_openvpn uid plan) in
  notify uid ("ovpn:" +:+ ol_profile_id plan) ;;;
  to_value (ROpenVpnConnect status).

(** Twenty seconds of polls, a tenth of a second apart: [ProbeDeadline]
    answers whether there is time left, and after 200 sleeps there is none. *)
Definition PROBE_POLLS : nat := 200.
Definition probe_timed_out : Failure :=
  (UnavailableCode, txt "OpenVPN probe timed out waiting for pushed routes").

Fixpoint poll_probe (fuel : nat) (uid : Z) (profile_id : string)
    : M Server (result OpenVpnProbeResult Failure) :=
  let? polled := with_core (poll_openvpn_probe uid profile_id) in
  match polled with
  | Some result => ret (Ok result)
  | None =>
    let! time_left := call ProbeDeadline in
    match fuel with
    | S fuel =>
      if time_left : bool then awaited (ret tt) ;;; poll_probe fuel uid profile_id
      else fail probe_timed_out
    | O => fail probe_timed_out
    end
  end.

Definition run_openvpn_probe (uid : Z) (plan : OpenVpnPlan)
    : M Server (result OpenVpnProbeResult Failure) :=
  let? _ := with_core (start_openvpn_probe uid plan) in
  let! outcome := poll_probe PROBE_POLLS uid (ol_profile_id plan) in
  let? _ := with_core (finish_openvpn_probe uid (ol_profile_id plan)) in
  ret outcome.

Definition handle_openvpn_probe (peer : PeerIdentity) (value : Value) : handler :=
  let uid := pi_uid peer in
  let? request := params_or (T := OpenVpnConnectRequest) "invalid OpenVPN probe parameters" value in
  if negb (Nat.eqb (length (oq_routes (oq_profile request))) 0)
  then fail (invalid (txt "OpenVPN probe cannot apply routes"))
  else
    let? plan := lift (map_err (λ err, invalid (emsg err)) (prepare_openvpn uid request)) in
    let? _ := authorize peer ConnectProfile in
    let? probe := run_openvpn_probe uid plan in
    to_value (ROpenVpnProbe probe).

Definition handle_openvpn_plan (peer : PeerIdentity) (value : Value) : handler :=
  let? '(_, plan) := openvpn_request (pi_uid peer) "invalid OpenVPN plan parameters" value in
  let? result := with_core (plan_openvpn (pi_uid peer) plan) in
  to_value (ROpenVpnPlan result).

Definition handle_openvpn_disconnect (peer : PeerIdentity) (value : Value) : handler :=
  let uid := pi_uid peer in
  let? params := params (T := ProfileParams) value in
  let owner := "ovpn:" +:+ pp_profile_id params in
  let? _ := check_owner owner in
  let? _ := authorize peer ConnectProfile in
  let! r := with_core (disconnect_openvpn uid (pp_profile_id params)) in
  disconnected uid owner r.

Definition handle_openvpn_status (peer : PeerIdentity) (value : Value) : handler :=
  let? params := params (T := ProfileParams) value in
  let? _ := check_owner ("ovpn:" +:+ pp_profile_id params) in
  let? status := with_core_ok (let! c := get in
    ret (openvpn_status c (pi_uid peer) (pp_profile_id params))) in
  to_value (ROpenVpnStatus status).

(** An Xray request before authorization: [prepare_xray] is run for its
    checks only. *)
Definition checked_xray (uid : Z) (message : string) (value : Value)
    : M Server (result XrayConnectParams Failure) :=
  let? params := params_or (T := XrayConnectParams) message value in
  let! prepared := prepare_xray uid params 1 in
  let? _ := lift (map_err (λ _, invalid (txt "unsupported generated Xray TUN config")) prepared) in
  let? _ := secondary_ok (xq_role params) (xq_routes params) (xq_dns_domains params) in
  ret (Ok params).

Definition xray_broad (params : XrayConnectParams) : bool :=
  existsb (λ route, captures_all_traffic (pr_destination route)) (xq_routes params).

Definition handle_xray_start (message : string)
    (start : Z → XrayConnectParams → M DaemonCore (io_result XrayStatusResult))
    (peer : PeerIdentity) (value : Value) : handler :=
  let uid := pi_uid peer in
  let? params := checked_xray uid message value in
  let! mode := vpn_auth_mode in
  let? _ := authorize peer (connect_action mode (xray_broad params)) in
  let? status := with_core (start uid params) in
  notify uid ("xray:" +:+ xq_profile_id params) ;;;
  to_value (RXrayConnect status).

Definition handle_xray_connect : PeerIdentity → Value → handler :=
  handle_xray_start "invalid Xray connect parameters" (connect_xray show_ip).
Definition handle_xray_reload : PeerIdentity → Value → handler :=
  handle_xray_start "invalid Xray reload parameters" (reload_xray show_ip).

Definition handle_xray_disconnect (peer : PeerIdentity) (value : Value) : handler :=
  let uid := pi_uid peer in
  let? params := params (T := ProfileParams) value in
  let owner := "xray:" +:+ pp_profile_id params in
  let? _ := check_owner owner in
  let? _ := authorize peer ConnectProfile in
  let! r := with_core (disconnect_xray uid (pp_profile_id params)) in
  disconnected uid owner r.

Definition handle_xray_status (peer : PeerIdentity) (value : Value) : handler :=
  let? params := params (T := ProfileParams) value in
  let? _ := check_owner ("xray:" +:+ pp_profile_id params) in
  let? status := with_core_ok (xray_status (pi_uid peer) (pp_profile_id params)) in
  to_value (RXrayStatus status).

Definition handle_xray_proxy_exits (peer : PeerIdentity) (value : Value) : handler :=
  let? params := params (T := ProfileParams) value in
  let? _ := check_owner ("xray:" +:+ pp_profile_id params) in
  let? exits := with_core (xray_proxy_exits (pi_uid peer) (pp_profile_id params)) in
  to_value (RXrayExits exits).

Definition handle_xray_service_checks (peer : PeerIdentity) (value : Value) : handler :=
  let? params := params_or (T := XrayServiceChecksParams) "invalid service check parameters" value in
  let? _ := check_owner ("xray:" +:+ sc_profile_id params) in
  let? results := with_core (set_xray_service_checks (pi_uid peer) (sc_profile_id params) (sc_checks params)) in
  to_value (RServiceChecks results).

Definition handle_xray_install (peer : PeerIdentity) (value : Value) : handler :=
  let? params := params (T := XrayInstallParams) value in
  let? archive := lift (map_err (λ err, invalid (emsg err)) (decode_xray_archive (xi_archive_b64 params))) in
  let? _ := authorize peer SystemNetwork in
  let! installed := awaited (call (XrayInstallPackage archive)) in
  match installed with
  | Err err => fail (error_code err, TStr "managed Xray install failed: " :: emsg err)
  | Ok (version, created) => to_value (RXrayInstall (unwrap_or version "") created)
  end.

Definition handle_xray_remove (peer : PeerIdentity) : handler :=
  let? _ := authorize peer SystemNetwork in
  let! removed := awaited (call XrayRemovePackage) in
  let? removed := lift (map_err failure_of removed) in
  to_value (RXrayRemove removed).

(** ** Foreign services *)

Definition tailscale_failed : Failure := (Internal, txt "tailscaled status failed").

Definition handle_tailscale_status : handler :=
  let! status := call TailscaleStatus in
  let? status := lift (map_err (λ _, tailscale_failed) status) in
  to_value (RText status).

Definition handle_tailscale_set (running : bool) (peer : PeerIdentity) : handler :=
  let? _ := authorize peer ConnectProfile in
  let! set := call (TailscaleSetRunning running) in
  let? _ := lift (map_err (λ err,
    match ekind err with
    | NotFound | ConnectionRefused => (NotFoundCode, txt "tailscaled is not available")
    | _ => (Internal, txt "tailscaled request failed")
    end) set) in
  let! status := call TailscaleStatus in
  let? status := lift (map_err (λ _, tailscale_failed) status) in
  notify (pi_uid peer) "tailscale" ;;;
  to_value (RText status).

Definition handle_nm_list : handler :=
  let! connections := awaited (call NmList) in
  match connections with
  | Ok connections => to_value (RNmList (Some connections))
  | Err err =>
    if has_kind NotConnected err then to_value (RNmList None) else fail (Internal, emsg err)
  end.

Definition handle_nm_set_active (peer : PeerIdentity) (value : Value) : handler :=
  let? params := params (T := NmSetActiveParams) value in
  let? _ := authorize peer ConnectProfile in
  let! set := awaited (call (NmSetActive (nm_uuid params) (nm_active params))) in
  let? _ := lift (map_err (λ err,
    match ekind err with
    | NotFound => (NotFoundCode, emsg err)
    | NotConnected => (NotFoundCode, txt "NetworkManager is not available")
    | _ => (Internal, emsg err)
    end) set) in
  null.

Definition handle_net_dns_status : handler :=
  let! status := awaited (call DnsStatus) in
  let? status := lift (map_err (λ _, (Internal, txt "DNS status failed")) status) in
  to_value (RText status).

Definition handle_net_dns_probe (value : Value) : handler :=
  let? params := params (T := NetDnsProbeParams) value in
  let! result := awaited (call (DnsProbe (dp_hostname params) (dp_server params) (dp_family params))) in
  let? result := lift (map_err failure_of result) in
  to_value (RText result).

(** ** Routes, rules, intents *)

Definition handle_routes_apply (peer : PeerIdentity) (value : Value) : handler :=
  let uid := pi_uid peer in
  let? params := params (T := RoutesApplyParams) value in
  let? _ := check_owner (ra_owner params) in
  let? _ := lift (reject_wireguard_owner (ra_owner params)) in
  let? _ := lift (map_err invalid (validate_apply (ra_routes params))) in
  let? _ := lift (match ra_attach params with
                  | Some spec => map_err invalid (validate_attach spec)
                  | None => Ok tt
                  end) in
  let? _ := authorize peer SystemNetwork in
  let? applied := with_core (match ra_attach params with
    | Some spec => apply_attach uid (ra_owner params) spec (ra_routes params)
    | None => apply_routes uid (ra_owner params) (ra_routes params)
    end) in
  notify uid (ra_owner params) ;;;
  to_value (RRoutesApply applied).

Definition handle_routes_remove (peer : PeerIdentity) (value : Value) : handler :=
  let uid := pi_uid peer in
  let? params := params (T := OwnerParams) value in
  let? _ := check_owner (ow_owner params) in
  let? _ := lift (reject_wireguard_owner (ow_owner params)) in
  let? _ := authorize peer ConnectProfile in
  let! r := with_core (remove_owner uid (ow_owner params)) in
  (if unchanged_failure r then ret tt else notify uid (ow_owner params)) ;;;
  let? removed := lift r in
  to_value (RRoutesRemove removed).

Definition handle_cond_rules_list (peer : PeerIdentity) : handler :=
  let uid := pi_uid peer in
  let? document := with_cond_store (λ root, CondRules.load_uid root uid) in
  let? entries := with_core_ok (let! c := get in
    ret (map (λ rule, (rule, cond_rule_status c uid rule)) (cd_rules document))) in
  to_value (RCondRules entries).

Definition handle_cond_rules_put (peer : PeerIdentity) (value : Value) : handler :=
  let uid := pi_uid peer in
  let? params := params (T := CondRulesPutParams) value in
  let? _ := lift (map_err invalid (validate_rule (cp_rule params))) in
  let? _ := authorize peer SystemNetwork in
  let? stored := with_cond_store (λ root, CondRules.upsert root uid (cp_rule params)) in
  eval_conditional ;;;
  let? status := with_core_ok (let! c := get in ret (cond_rule_status c uid (cp_rule params))) in
  to_value (RCondRulesPut stored status).

Definition handle_cond_rules_remove (peer : PeerIdentity) (value : Value) : handler :=
  let? params := params (T := CondRulesRemoveParams) value in
  let? _ := authorize peer SystemNetwork in
  let? removed := with_cond_store (λ root, CondRules.remove root (pi_uid peer) (cx_rule_id params)) in
  eval_conditional ;;;
  to_value (RCondRulesRemove removed).

Definition handle_net_tables : handler :=
  let? tables := with_core net_tables in to_value (RNetTables tables).

Definition handle_net_route_add (peer : PeerIdentity) (value : Value) : handler :=
  let? params := params (T := NetRouteAddParams) value in
  let? _ := authorize peer SystemNetwork in
  let? _ := with_core (net_route_add (pi_uid peer) params) in
  notify (pi_uid peer) "manual" ;;; null.

Definition handle_net_route_del (peer : PeerIdentity) (value : Value) : handler :=
  let? params := params (T := NetRouteDelParams) value in
  let? _ := authorize peer SystemNetwork in
  let? outcome := with_core (net_route_del (pi_uid peer) (nd_route params)) in
  notify (pi_uid peer) "manual" ;;; to_value (RNetEdit outcome).

Definition handle_net_rule_add (peer : PeerIdentity) (value : Value) : handler :=
  let? params := params (T := NetRuleAddParams) value in
  let? _ := authorize peer SystemNetwork in
  let? _ := with_core (net_rule_add (pi_uid peer) params) in
  notify (pi_uid peer) "manual" ;;; null.

Definition handle_net_rule_del (peer : PeerIdentity) (value : Value) : handler :=
  let? params := params (T := NetRuleDelParams) value in
  let? _ := authorize peer SystemNetwork in
  let? outcome := with_core (net_rule_del (pi_uid peer) (nd_rule params)) in
  notify (pi_uid peer) "manual" ;;; to_value (RNetEdit outcome).

Definition handle_net_explain (peer : PeerIdentity) : handler :=
  let? result := with_core (net_explain (pi_uid peer)) in to_value (RNetExplain result).

Definition handle_net_intent_list (peer : PeerIdentity) : handler :=
  let? result := with_core (net_intent_list (pi_uid peer)) in to_value (RIntents result).

Definition handle_net_intent_set (peer : PeerIdentity) (value : Value) : handler :=
  let? params := params (T := NetIntentSetParams) value in
  let? _ := authorize peer SystemNetwork in
  let? id := with_core (net_intent_set (pi_uid peer) params) in
  notify (pi_uid peer) ("intent:" +:+ is_id params) ;;;
  to_value (RIntent id).

Definition handle_net_intent_del (peer : PeerIdentity) (value : Value) : handler :=
  let? params := params (T := NetIntentDelParams) value in
  let? _ := authorize peer SystemNetwork in
  let? _ := with_core (net_intent_del (pi_uid peer) (ni_id params)) in
  notify (pi_uid peer) ("intent:" +:+ ni_id params) ;;;
  to_value (RIntent (ni_id params)).

Definition handle_link_set_state (peer : PeerIdentity) (value : Value) : handler :=
  let? params := params (T := LinkSetStateParams) value in
  let? _ := lift (map_err invalid (validate_iface_name (ls_name params))) in
  let? _ := authorize peer SystemNetwork in
  let? _ := with_core (set_link_state (ls_name params) (ls_up params)) in
  null.

Definition handle_external_tunnel_stop (peer : PeerIdentity) (value : Value) : handler :=
  let? params := params (T := ExternalTunnelStopParams) value in
  let? _ := lift (map_err invalid (validate_iface_name (et_name params))) in
  let? _ := authorize peer SystemNetwork in
  let? _ := with_core (stop_external_link (et_name params)) in
  null.

(** Removing everything the caller owns also ends its always-on profiles, so
    with one enabled it takes an administrator. *)
Definition cleanup_action (uid : Z) : M Server (result Action Failure) :=
  match cfg_always_on cfg with
  | None => ret (Ok ConnectProfile)
  | Some _ =>
    let? enabled := with_store (λ root,
      let? document := AlwaysOn.load_uid root uid in
      ret (Ok (existsb se_enabled (ad_entries document)))) in
    ret (Ok (if enabled : bool then SystemNetwork else ConnectProfile))
  end.

Definition handle_recovery_cleanup (peer : PeerIdentity) : handler :=
  let uid := pi_uid peer in
  let? action := cleanup_action uid in
  let? _ := authorize peer action in
  let? _ := match cfg_always_on cfg with
            | Some _ => with_store (λ root, pause root uid)
            | None => ret (Ok tt)
            end in
  let? result := with_core (cleanup_uid uid) in
  for_each (cr_removed_owners result ++ cr_failed result) (notify uid) ;;;
  to_value (RCleanup result).

(** ** [handle] and [dispatch] *)

Definition handlers (peer : PeerIdentity) (value : Value) : list (string * handler) :=
  [(method.HELLO, fail (InvalidParams, txt "hello was already exchanged"));
   (method.SUBSCRIBE, null);
   (method.SETTINGS_GET, handle_settings_get);
   (method.SETTINGS_SET, handle_settings_set peer value);
   (method.OWNED_LIST, handle_owned_list peer);
   (method.ALWAYS_ON_LIST, handle_always_on_list peer);
   (method.ALWAYS_ON_SET, handle_always_on_set peer value);
   (method.ALWAYS_ON_REMOVE, handle_always_on_remove peer value);
   (method.ALWAYS_ON_RESUME, handle_always_on_resume peer);
   (method.WIREGUARD_CONNECT, handle_wireguard_connect peer value);
   (method.WIREGUARD_DISCONNECT, handle_wireguard_disconnect peer value);
   (method.WIREGUARD_STATUS, handle_wireguard_status peer value);
   (method.OPENVPN_CONNECT, handle_openvpn_connect peer value);
   (method.OPENVPN_PROBE, handle_openvpn_probe peer value);
   (method.OPENVPN_PLAN, handle_openvpn_plan peer value);
   (method.OPENVPN_DISCONNECT, handle_openvpn_disconnect peer value);
   (method.OPENVPN_STATUS, handle_openvpn_status peer value);
   (method.XRAY_CONNECT, handle_xray_connect peer value);
   (method.XRAY_DISCONNECT, handle_xray_disconnect peer value);
   (method.XRAY_STATUS, handle_xray_status peer value);
   (method.XRAY_PROXY_EXITS, handle_xray_proxy_exits peer value);
   (method.XRAY_SERVICE_CHECKS, handle_xray_service_checks peer value);
   (method.XRAY_RELOAD, handle_xray_reload peer value);
   (method.XRAY_INSTALL, handle_xray_install peer value);
   (method.XRAY_REMOVE, handle_xray_remove peer);
   (method.TAILSCALE_STATUS, handle_tailscale_status);
   (method.TAILSCALE_UP, handle_tailscale_set true peer);
   (method.TAILSCALE_DOWN, handle_tailscale_set false peer);
   (method.ROUTES_APPLY, handle_routes_apply peer value);
   (method.ROUTES_REMOVE, handle_routes_remove peer value);
   (method.COND_RULES_LIST, handle_cond_rules_list peer);
   (method.COND_RULES_PUT, handle_cond_rules_put peer value);
   (method.COND_RULES_REMOVE, handle_cond_rules_remove peer value);
   (method.NM_LIST, handle_nm_list);
   (method.NM_SET_ACTIVE, handle_nm_set_active peer value);
   (method.NET_TABLES, handle_net_tables);
   (method.NET_ROUTE_ADD, handle_net_route_add peer value);
   (method.NET_ROUTE_DEL, handle_net_route_del peer value);
   (method.NET_RULE_ADD, handle_net_rule_add peer value);
   (method.NET_RULE_DEL, handle_net_rule_del peer value);
   (method.NET_EXPLAIN, handle_net_explain peer);
   (method.NET_DNS_STATUS, handle_net_dns_status);
   (method.NET_DNS_PROBE, handle_net_dns_probe value);
   (method.NET_INTENT_LIST, handle_net_intent_list peer);
   (method.NET_INTENT_SET, handle_net_intent_set peer value);
   (method.NET_INTENT_DEL, handle_net_intent_del peer value);
   (method.LINK_SET_STATE, handle_link_set_state peer value);
   (method.EXTERNAL_TUNNEL_STOP, handle_external_tunnel_stop peer value);
   (method.RECOVERY_CLEANUP, handle_recovery_cleanup peer)].

(** The match on the method: the constants are distinct. *)
Definition handle (request : RequestFrame) (peer : PeerIdentity) : handler :=
  match List.find (λ arm, fst arm =b rq_method request) (handlers peer (rq_params request)) with
  | Some (_, run) => run
  | None =>
    fail (UnsupportedMethod, [TStr "unsupported method '"; TStr (rq_method request); TStr "'"])
  end.

(** [dispatch], but for the line it logs. *)
Definition dispatch (request : RequestFrame) (peer : PeerIdentity) : M Server ResponseFrame :=
  let! result := handle request peer in
  ret (match result with
       | Ok value => response_ok (rq_id request) value
       | Err (code, message) => response_error (rq_id request) code message
       end).

End server.
