(* ===== verification/ServerAuth.v ===== *)
(** * Nothing changes before polkit said yes

    Every handler asks for authorization before its first call that changes
    the system, its stores or the journal; a request that is refused changes
    nothing. *)

From S2P Require Export Server XrayConnect.

(** ** Calls that change something *)

(** The machine's network, a process, a file, another service. Diagnostic
    probes and reports are not among them. *)
Definition effect (e : event) : bool :=
  match e with
  | Ev c _ =>
    match c with
    | StoreSave _ | AddRoute _ | RemoveRoute _ | AddSystemRoute _ | RemoveSystemRoute _
    | SetLinkState _ _ | RemoveLink _ | WgCreateLink _ _ | WgDeleteLink _ _ _ | WgAddAddress _ _
    | WgRemoveAddress _ _ | WgSetMtu _ _ | WgSetState _ _ | WgConfigure _ _ | WgSetFwmark _ _
    | AddRule _ | RemoveRule _ | AddSystemRule _ | RemoveSystemRule _ | DnsApplyLink _ _ _ _
    | DnsRevert _ | OvpnStart _ _ _ _ _ | OvpnStop _ | OvpnCleanup _ _ | XrayStop _
    | XrayCleanup _ _ | XrayStart _ _ _ _ | XrayReload _ _ _ _ | XrayRespawn _ _ | WatchdogSpawn _ _
    | FailoverSpawn _ _ | QuicRemove _ _ | QuicEnsure _ _ | StopWgQuickUnit _ | FsCreateDir _ _
    | FsCreateDirAll _ | FsRemoveFile _ | FsCreateNew _ _ | FsWriteAll _ _ | FsSyncAll _
    | FsRename _ _ | FsRemoveDir _ | TailscaleSetRunning _ | NmSetActive _ _
    | XrayInstallPackage _ | XrayRemovePackage => true
    | _ => false
    end
  end.

(** ** What each method needs *)

(** Methods that take an administrator. *)
Definition administrative : list string :=
  [method.SETTINGS_SET; method.ALWAYS_ON_SET; method.ALWAYS_ON_REMOVE; method.ALWAYS_ON_RESUME;
   method.XRAY_INSTALL; method.XRAY_REMOVE; method.ROUTES_APPLY; method.COND_RULES_PUT;
   method.COND_RULES_REMOVE; method.NET_ROUTE_ADD; method.NET_ROUTE_DEL; method.NET_RULE_ADD;
   method.NET_RULE_DEL; method.NET_INTENT_SET; method.NET_INTENT_DEL; method.LINK_SET_STATE;
   method.EXTERNAL_TUNNEL_STOP].

(** Methods on what a user has of its own. *)
Definition personal : list string :=
  [method.WIREGUARD_DISCONNECT; method.OPENVPN_DISCONNECT; method.XRAY_DISCONNECT;
   method.OPENVPN_PROBE; method.ROUTES_REMOVE; method.TAILSCALE_UP; method.TAILSCALE_DOWN;
   method.NM_SET_ACTIVE].

Section needs.
Context `{Env} `{JsonCodec AlwaysOnDocument} `{FromValue WireGuardConnectParams}
  `{FromValue XrayConnectParams} `{IpNetLib} `{Base64Lib}.
Context (cfg : ServerConfig) (others : history → Server → Server) (peer : PeerIdentity).

(** What answering a question notes in the core: [wireguard.status] when it
    saw the handshake of a tunnel of its caller, [xray.serviceChecks] which
    connections of its caller are checked. No other method notes anything. *)
Inductive noted (m : string) (c : DaemonCore) : DaemonCore → Prop :=
| noted_handshake owner watch :
    m = method.WIREGUARD_STATUS →
    noted m c (set_wireguard_handshake (partial_alter (λ _, watch) (pi_uid peer, owner)) c)
| noted_checked owner :
    m = method.XRAY_SERVICE_CHECKS →
    noted m c (set_service_checks (λ keys, {[(pi_uid peer, owner)]} ∪ keys) c)
| noted_unchecked owner :
    m = method.XRAY_SERVICE_CHECKS →
    noted m c (set_service_checks (λ keys, keys ∖ {[(pi_uid peer, owner)]}) c).

(** What becomes of the server's state while a request waits: other
    connections change it, and such notes are taken. *)
Definition idle_step (m : string) (s s' : Server) : Prop :=
  (∃ h, s' = others h s) ∨ ∃ c, noted m (sv_core s) c ∧ s' = with_sv_core c s.

Definition waits (m : string) : Server → Server → Prop := rtc (idle_step m).

(** The action a request needs that began in the state [s0] with the calls
    [h0]. A connection needs the one of the mode the daemon is in; removing
    everything takes an administrator when the user has an enabled always-on
    profile. Methods that are not here need none, and may change nothing. *)
Inductive needs (s0 : Server) (h0 : history) : string → Value → Action → Prop :=
| needs_administrative m v : m ∈ administrative → needs s0 h0 m v SystemNetwork
| needs_personal m v : m ∈ personal → needs s0 h0 m v ConnectProfile
| needs_wireguard v params plan s :
    from_value v = Ok params →
    parse_wireguard_config (wc_config params) (wc_routes params) = Ok plan →
    waits method.WIREGUARD_CONNECT s0 s →
    needs s0 h0 method.WIREGUARD_CONNECT v
      (connect_action (sv_settings s) (wp_full_ipv4 plan || wp_full_ipv6 plan))
| needs_openvpn v s :
    waits method.OPENVPN_CONNECT s0 s →
    needs s0 h0 method.OPENVPN_CONNECT v (connect_action (sv_settings s) true)
| needs_xray m v params s :
    m ∈ [method.XRAY_CONNECT; method.XRAY_RELOAD] → from_value v = Ok params → waits m s0 s →
    needs s0 h0 m v (connect_action (sv_settings s) (xray_broad params))
| needs_cleanup_storeless v :
    cfg_always_on cfg = None → needs s0 h0 method.RECOVERY_CLEANUP v ConnectProfile
| needs_cleanup v root document s h :
    cfg_always_on cfg = Some root → waits method.RECOVERY_CLEANUP s0 s → grown h0 h →
    (AlwaysOn.load_uid root (pi_uid peer) s h).1.1 = Some (Ok document) →
    needs s0 h0 method.RECOVERY_CLEANUP v
      (if existsb se_enabled (ad_entries document) then SystemNetwork else ConnectProfile).

End needs.

(** Polkit granted the caller, among the calls [new], an action of those. *)
Definition granted (peer : PeerIdentity) (enough : Action → Prop) (new : history) : Prop :=
  ∃ action, enough action ∧ Ev (PolkitCheck peer action) (Ok Authorized) ∈ new.

Definition granted_since peer enough (h0 h : history) : Prop :=
  ∃ new, h = new ++ h0 ∧ granted peer enough new.

(** An effect since [h0] comes after such a grant. *)
Definition authorized_since peer enough (h0 : history) (e : event) (h : history) : Prop :=
  effect e = true → granted_since peer enough h0 h.

Definition harmless_event (e : event) (_ : history) : Prop := effect e = false.

(** Makes calls that change nothing, and leaves the state within [R]. *)
Abbreviation harmless R := (obeys R harmless_event (λ _, True)).
(** Makes calls at all. *)
Abbreviation grows := (obeys any_state (λ _ _, True) (λ _, True)).

(** ** Handlers that ask first *)

Section guarded.
Context `{Env} (others : history → Server → Server) (peer : PeerIdentity) (name : string).
Context (s0 : Server) (h0 : history) (enough : Action → Prop).

Abbreviation stays := (waits others peer name).

(** The request has only waited so far. *)
Definition unasked (s : Server) (h : history) : Prop := stays s0 s ∧ grown h0 h.

(** What [m] may give while the request waits. *)
Definition possible {A} (m : M Server A) (a : A) : Prop :=
  ∃ s h, unasked s h ∧ (m s h).1.1 = Some a.

Definition guarded {A} (m : M Server A) : Prop :=
  ∀ s h, unasked s h →
    traced (authorized_since peer enough h0) h (m s h).2 ∧
    (stays s0 (m s h).1.2 ∨ granted_since peer enough h0 (m s h).2).

Lemma guarded_harmless {A} (m : M Server A) : harmless stays m → guarded m.
Proof.
  intros Hm s h [Hs _]. destruct (Hm s h I) as [Hs' Ht]. split.
  - eapply traced_mono; [|exact Ht]. unfold harmless_event, authorized_since. congruence.
  - left. unfold waits in *. by etransitivity.
Qed.

Lemma guarded_bind {A B} (m : M Server A) (f : A → M Server B) :
  harmless stays m → (∀ a, possible m a → guarded (f a)) → guarded (bind m f).
Proof.
  intros Hm Hf s h Hu. pose proof Hu as [Hs Hh]. destruct (Hm s h I) as [Hs' Ht]. unfold bind.
  destruct (m s h) as [[[a|] s'] h'] eqn:Hrun; simpl in *.
  2: { pose proof (guarded_harmless m Hm s h Hu) as Hg. by rewrite Hrun in Hg. }
  assert (unasked s' h') as Hu'.
  { split; [unfold waits in *; by etransitivity|]. etransitivity; [exact Hh|by eapply traced_grown]. }
  destruct (Hf a) with (s := s') (h := h') as [Ht2 Hs2]; [|done|].
  { exists s, h. by rewrite Hrun. }
  split; [|done]. eapply traced_trans; [|exact Ht2]. eapply traced_mono; [|exact Ht].
  unfold harmless_event, authorized_since. congruence.
Qed.

Lemma guarded_try {A B E} (m : M Server (result A E)) (f : A → M Server (result B E)) :
  harmless stays m → (∀ a, possible m (Ok a) → guarded (f a)) → guarded (try_bind m f).
Proof.
  intros Hm Hf. apply guarded_bind; [done|]. intros [a|e] Ha; [by apply Hf|].
  apply guarded_harmless, obeys_ret.
Qed.

(** After a grant anything goes. *)
Lemma traced_granted h h1 :
  granted_since peer enough h0 h → traced (λ _ _, True) h h1 →
  traced (authorized_since peer enough h0) h h1 ∧ granted_since peer enough h0 h1.
Proof.
  intros Hg. induction 1 as [|e h' _ [Ht Hg'] _]; [split; [constructor|done]|].
  split; [constructor; [done|]; by intros _|].
  destruct Hg' as (new & -> & action & Hen & Hin). exists (e :: new). split; [done|].
  exists action. split; [done|]. by apply list_elem_of_further.
Qed.

Lemma guarded_authorize {A} action (f : unit → M Server (result A Failure)) :
  enough action → (∀ a, grows (f a)) → guarded (let? a := authorize peer action in f a).
Proof.
  intros Hen Hf s h [Hs [new ->]]. unfold authorize, awaited, try_bind, bind, call, ret, dropped.
  assert (∀ e, effect e = false → traced (authorized_since peer enough h0) (new ++ h0) (e :: new ++ h0)) as Hone.
  { intros e He. constructor; [constructor|]. unfold authorized_since. congruence. }
  assert (∀ e h, effect e = false → traced (authorized_since peer enough h0) (new ++ h0) h →
    traced (authorized_since peer enough h0) (new ++ h0) (e :: h)) as Hmore.
  { intros e h He Ht. constructor; [done|]. unfold authorized_since. congruence. }
  destruct (answer _ (PolkitCheck peer action)) as [[]|err] eqn:Ha;
    destruct (answer _ RequestExpired); cbn [map_err];
    try (split; [by apply Hmore; [|apply Hone]|by left]).
  set (h1 := Ev RequestExpired false :: Ev (PolkitCheck peer action) (Ok Authorized) :: new ++ h0).
  destruct (traced_granted h1 (f tt s h1).2) as [Ht Hg]; [|exact (proj2 (Hf tt s h1 I))|].
  - exists (Ev RequestExpired false :: Ev (PolkitCheck peer action) (Ok Authorized) :: new).
    split; [done|]. exists action. split; [done|]. set_solver.
  - split; [|by right]. eapply traced_trans; [|exact Ht]. by apply Hmore; [|apply Hone].
Qed.

(** ** The lock *)

Lemma stays_before_lock (G : event → history → Prop) P : obeys stays G P (before_lock others).
Proof. intros s h _. split; [|constructor]. apply rtc_once. left. by exists h. Qed.

(** Code that takes notes at most. *)
Lemma stays_on_core {A} (G : event → history → Prop) P (m : M DaemonCore A) :
  obeys (rtc (noted peer name)) G P m → obeys stays G P (on_core m).
Proof.
  intros Hm s h Hh. unfold on_core. destruct (Hm (sv_core s) h Hh) as [Hc Ht].
  destruct (m (sv_core s) h) as [[r c] h']. simpl in *. split; [|done]. clear Ht.
  assert (s = with_sv_core (sv_core s) s) as Hs by by destruct s.
  rewrite Hs at 1. revert Hc. generalize (sv_core s) at 1 2. clear Hs. intros c0. unfold waits.
  induction 1 as [c1|c1 c2 c3 Hstep _ IH]; [done|]. eapply rtc_l; [|exact IH].
  right. by exists c2.
Qed.

Lemma possible_mode mode : possible (vpn_auth_mode others) mode → ∃ s, stays s0 s ∧ mode = sv_settings s.
Proof.
  intros (s & h & [Hs _] & [= <-]). eexists. split; [|done]. etransitivity; [exact Hs|].
  apply rtc_once. left. by eexists.
Qed.

End guarded.

Lemma obeys_on_core {A} (G : event → history → Prop) P (m : M DaemonCore A) :
  obeys any_state G P m → obeys any_state G P (on_core m).
Proof.
  intros Hm s h Hh. split; [done|]. unfold on_core.
  specialize (proj2 (Hm (sv_core s) h Hh)). by destruct (m (sv_core s) h) as [[r c] h'].
Qed.

Lemma obeys_before_lock (G : event → history → Prop) P others :
  obeys any_state G P (before_lock others).
Proof. intros s h _. split; [done|constructor]. Qed.

Lemma obeys_dropped {R} `{!PreOrder R} (G : event → history → Prop) P {A} :
  obeys R G P (dropped (A := A)).
Proof. intros s h _. split; [reflexivity|constructor]. Qed.

#[export] Instance waits_preorder others peer name : PreOrder (waits others peer name).
Proof. unfold waits. apply _. Qed.

(** ** What the handlers do before and after *)

#[export] Hint Extern 0 (PreOrder _) => typeclasses eauto : obeys.

(** Hints for the loops: their bodies are where [obeys] goes on by itself. *)
Section loops.
Context `{Env} `{IpNetLib} {S : Type}.

Lemma grows_rollback rev_added text still :
  grows (rollback_routes (S := S) rev_added text still).
Proof. revert text still. induction rev_added as [|r rs IH]; intros text still; simpl; obeys. Qed.
Hint Resolve grows_rollback : obeys.

Lemma grows_apply_from rev_added routes : grows (apply_routes_from (S := S) rev_added routes).
Proof. revert rev_added. induction routes as [|r rs IH]; intros rev_added; simpl; obeys; apply IH. Qed.

Lemma grows_find_slot c plan existing wg_marks slots :
  grows (find_slot c plan existing wg_marks slots).
Proof. induction slots as [|slot rest IH]; simpl; obeys. Qed.

Lemma grows_find_mark rules marks : grows (find_mark rules marks).
Proof. induction marks as [|slot marks IH]; simpl; obeys. Qed.

Lemma harmless_private_dir {R : S → S → Prop} `{!PreOrder R} p :
  harmless R (check_private_dir (S := S) p false).
Proof.
  unfold check_private_dir. obeys_step; [obeys|]. destruct a as [meta|err]; [obeys|].
  destruct (has_kind NotFound err); simpl; obeys.
Qed.

End loops.
#[export] Hint Resolve grows_apply_from grows_find_slot grows_find_mark harmless_private_dir : obeys.

Section operations.
Context `{Env} `{IpNetLib} `{UrlLib} `{JsonText} `{Base64Lib} `{RuntimeDir}.
Context `{JsonCodec AlwaysOnDocument} `{JsonCodec CondRulesDocument} `{JsonCodec IntentDocument}.

Section reads.
Context {S : Type} {R : S → S → Prop} `{!PreOrder R}.
Lemma harmless_always_on_load root uid : harmless R (AlwaysOn.load_uid (S := S) root uid).
Proof using PreOrder0. obeys. Qed.
Lemma harmless_cond_load root uid : harmless R (CondRules.load_uid (S := S) root uid).
Proof using PreOrder0. obeys. Qed.
Lemma harmless_prepare_xray uid params mark : harmless R (prepare_xray (S := S) uid params mark).
Proof using PreOrder0. by apply obeys_prepare. Qed.
End reads.

(** The core's answers to the questions asked without polkit. *)
Section looks.
Context {R : DaemonCore → DaemonCore → Prop} `{!PreOrder R}.
Abbreviation looks := (harmless R).
Lemma looks_intent_list uid : looks (net_intent_list uid).
Proof using PreOrder0. obeys. Qed.
Lemma looks_tables : looks net_tables.
Proof using PreOrder0. obeys. Qed.
Lemma looks_explain uid : looks (net_explain uid).
Proof using PreOrder0. obeys. Qed.
Lemma looks_plan uid plan : looks (plan_openvpn uid plan).
Proof using PreOrder0. obeys. Qed.
Lemma looks_xray uid profile_id : looks (xray_status uid profile_id).
Proof using PreOrder0. obeys. Qed.
Lemma looks_exits uid profile_id : looks (xray_proxy_exits uid profile_id).
Proof using PreOrder0. obeys. Qed.
End looks.

Lemma grows_prepare_xray uid params mark : grows (prepare_xray (S := DaemonCore) uid params mark).
Proof. apply obeys_prepare. Qed.
Lemma grows_pin show_ip plan : grows (pin_server_addresses show_ip resolve_host_addrs plan).
Proof. by apply obeys_pin. Qed.
Hint Resolve grows_prepare_xray grows_pin : obeys.

Lemma grows_apply_routes uid owner routes : grows (apply_routes uid owner routes).
Proof. obeys. Qed.
Hint Resolve grows_apply_routes : obeys.
Lemma grows_connect_wireguard uid profile_id plan : grows (connect_wireguard uid profile_id plan).
Proof. obeys. Qed.
Hint Resolve grows_connect_wireguard : obeys.
Lemma grows_connect_openvpn uid plan : grows (connect_openvpn uid plan).
Proof. obeys. Qed.
Lemma grows_start_probe uid plan : grows (start_openvpn_probe uid plan).
Proof. obeys. Qed.
Lemma grows_reconcile_conditional addrs observed rules :
  grows (reconcile_conditional addrs observed rules).
Proof. obeys. Qed.
Lemma grows_apply_definition uid definition : grows (apply_definition uid definition).
Proof. obeys. Qed.
Lemma grows_connect_xray show_ip uid params : grows (connect_xray show_ip uid params).
Proof. obeys. Qed.
Lemma grows_reload_xray show_ip uid params : grows (reload_xray show_ip uid params).
Proof. obeys. Qed.
Lemma grows_intent_set uid params : grows (net_intent_set uid params).
Proof. obeys. Qed.
End operations.
#[export] Hint Resolve harmless_always_on_load harmless_cond_load harmless_prepare_xray
  looks_intent_list looks_tables looks_explain looks_plan looks_xray looks_exits grows_apply_routes grows_connect_wireguard grows_connect_openvpn
  grows_start_probe grows_reconcile_conditional grows_apply_definition grows_connect_xray
  grows_reload_xray grows_intent_set : obeys.

(** Membership in a list of method names. *)
Ltac listed := apply (bool_decide_unpack _); vm_compute; exact I.

(** [obeys] for handlers, and [guarded] over it. *)
Ltac server_step :=
  lazymatch goal with
  | |- obeys any_state _ _ (on_core _) => apply obeys_on_core
  | |- obeys (waits _ _ _) _ _ (on_core _) => apply stays_on_core
  | |- obeys any_state _ _ (before_lock _) => apply obeys_before_lock
  | |- obeys (waits _ _ _) _ _ (before_lock _) => apply stays_before_lock
  | |- obeys _ _ _ dropped => apply obeys_dropped
  | |- _ => obeys_step
  end.
Ltac served := repeat server_step.

Ltac needed :=
  lazymatch goal with
  | |- needs _ _ _ _ _ _ _ SystemNetwork => apply needs_administrative; listed
  | |- needs _ _ _ _ _ _ _ ConnectProfile => apply needs_personal; listed
  | |- _ => eauto
  end.
Ltac guarded_step :=
  lazymatch goal with
  | |- guarded _ _ _ _ _ _ (try_bind (authorize _ _) _) =>
    apply guarded_authorize; [solve [needed]|intros ?; solve [served]]
  | |- guarded _ _ _ _ _ _ (try_bind _ _) =>
    apply guarded_try; [solve [served]|let Hp := fresh "Hp" in intros ? Hp]
  | |- guarded _ _ _ _ _ _ (bind _ _) =>
    apply guarded_bind; [solve [served]|let Hp := fresh "Hp" in intros ? Hp]
  | |- guarded _ _ _ _ _ _ (let _ := _ in _) => cbv zeta
  | |- guarded _ _ _ _ _ _ (match ?x with _ => _ end) => destruct x
  | |- guarded _ _ _ _ _ _ _ => apply guarded_harmless; solve [served]
  end.
Ltac asks_first :=
  match goal with |- guarded _ _ _ _ _ _ ?m => let f := head_of m in unfold f; cbv beta end;
  repeat guarded_step.

(** ** The handlers *)

Section handlers.
Context `{Env} `{IpNetLib} `{UrlLib} `{JsonText} `{Base64Lib} `{RuntimeDir}.
Context `{JsonCodec AlwaysOnDocument} `{JsonCodec CondRulesDocument} `{JsonCodec IntentDocument}.
Context `{JsonCodec SettingsDocument} `{ToValue}.
Context `{FromValue SettingsSetParams} `{FromValue AlwaysOnSetParams} `{FromValue AlwaysOnRemoveParams}
  `{FromValue WireGuardConnectParams} `{FromValue ProfileParams} `{FromValue OpenVpnConnectRequest}
  `{FromValue XrayConnectParams} `{FromValue XrayServiceChecksParams} `{FromValue XrayInstallParams}
  `{FromValue RoutesApplyParams} `{FromValue OwnerParams} `{FromValue CondRulesPutParams}
  `{FromValue CondRulesRemoveParams} `{FromValue NmSetActiveParams} `{FromValue NetRouteAddParams}
  `{FromValue NetRouteDelParams} `{FromValue NetRuleAddParams} `{FromValue NetRuleDelParams}
  `{FromValue NetDnsProbeParams} `{FromValue NetIntentSetParams} `{FromValue NetIntentDelParams}
  `{FromValue LinkSetStateParams} `{FromValue ExternalTunnelStopParams}.
Context (show_ip : IpAddr → string) (cfg : ServerConfig) (others : history → Server → Server).
Context (peer : PeerIdentity).

Lemma grows_poll_probe fuel uid profile_id : grows (poll_probe others fuel uid profile_id).
Proof. induction fuel as [|fuel IH]; simpl; served. Qed.
Hint Resolve grows_poll_probe : obeys.

(** *** What is noted without asking *)

Lemma noted_wireguard profile_id :
  harmless (rtc (noted peer method.WIREGUARD_STATUS)) (wireguard_status (pi_uid peer) profile_id).
Proof.
  obeys. apply obeys_modify. intros c0. apply rtc_once.
  match goal with |- noted _ _ _ (set_wireguard_handshake (λ _, match ?w with _ => _ end) _) =>
    destruct w as [w|] end; by apply noted_handshake.
Qed.

Lemma noted_checks profile_id checks :
  harmless (rtc (noted peer method.XRAY_SERVICE_CHECKS))
    (set_xray_service_checks (pi_uid peer) profile_id checks).
Proof.
  obeys; (apply obeys_modify; intros c0; apply rtc_once; by constructor).
Qed.
Hint Resolve noted_wireguard noted_checks : obeys.

(** *** The action of each method *)

Section actions.
Context (name : string) (value : Value) (s0 : Server) (h0 : history).
Abbreviation gives := (possible others peer name s0 h0).
Abbreviation action_for := (needs cfg others peer s0 h0 name value).

Lemma needs_mode_wireguard params plan mode :
  name = method.WIREGUARD_CONNECT → from_value value = Ok params →
  gives (wireguard_plan params) (Ok plan) → gives (vpn_auth_mode others) mode →
  action_for (connect_action mode (wp_full_ipv4 plan || wp_full_ipv6 plan)).
Proof.
  intros -> Hv Hplan (s & Hs & ->)%possible_mode. destruct Hplan as (s1 & h1 & _ & Hrun).
  assert (∃ plan0, parse_wireguard_config (wc_config params) (wc_routes params) = Ok plan0 ∧
    wp_full_ipv4 plan = wp_full_ipv4 plan0 ∧ wp_full_ipv6 plan = wp_full_ipv6 plan0) as (plan0 & Hp & -> & ->).
  { revert Hrun. unfold wireguard_plan. destruct (parse_wireguard_config _ _) as [plan0|[message|]]; [|done..].
    cbv zeta. unfold secondary_ok, try_bind, bind, lift, ret. destruct (validate_secondary _ _ _); [|done].
    simpl. repeat case_match; intros [= <-]; by exists plan0. }
  by eapply needs_wireguard.
Qed.

Lemma needs_mode_openvpn mode :
  name = method.OPENVPN_CONNECT → gives (vpn_auth_mode others) mode →
  action_for (connect_action mode true).
Proof. intros -> (s & Hs & ->)%possible_mode. by apply needs_openvpn. Qed.

Lemma needs_mode_xray message params mode :
  name ∈ [method.XRAY_CONNECT; method.XRAY_RELOAD] →
  gives (checked_xray (pi_uid peer) message value) (Ok params) → gives (vpn_auth_mode others) mode →
  action_for (connect_action mode (xray_broad params)).
Proof.
  intros Hn Hp (s & Hs & ->)%possible_mode. destruct Hp as (s1 & h1 & _ & Hrun).
  eapply needs_xray; [done| |done]. revert Hrun. unfold checked_xray, params_or, try_bind, bind, lift, ret.
  destruct (from_value value) as [q|]; [|done]. simpl.
  destruct (prepare_xray _ _ _ _ _) as [[[[?|?]|] ?] ?]; [|done..]. simpl.
  unfold secondary_ok, lift, ret. destruct (map_err _ (validate_secondary _ _ _)); [|done]. by intros [= ->].
Qed.

Lemma needs_found_cleanup action :
  name = method.RECOVERY_CLEANUP → gives (cleanup_action cfg (pi_uid peer)) (Ok action) →
  action_for action.
Proof.
  intros -> (s & h & [Hs Hh] & Hrun). revert Hrun. unfold cleanup_action.
  destruct (cfg_always_on cfg) as [root|] eqn:Hc.
  2: { intros [= <-]. by apply needs_cleanup_storeless. }
  unfold with_store. rewrite Hc. unfold awaited, try_bind, bind, ret.
  destruct (AlwaysOn.load_uid root (pi_uid peer) s h) as [[[[document|e]|] s1] h1] eqn:Hload; [| |done];
    unfold call; destruct (answer _ RequestExpired); simpl; try done.
  intros [= <-]. eapply needs_cleanup; [done..|]. by rewrite Hload.
Qed.

End actions.

(** Every arm of the match. *)
Definition asks (value : Value) (arm : string * M Server (result Value Failure)) : Prop :=
  ∀ s0 h0, guarded others peer (fst arm) s0 h0 (needs cfg others peer s0 h0 (fst arm) value) (snd arm).

Lemma possible_params {T} `{FromValue T} name s0 h0 (value : Value) (q : T) :
  possible others peer name s0 h0 (params value) (Ok q) → from_value value = Ok q.
Proof.
  intros (s & h & _ & Hrun). revert Hrun. unfold params, lift, ret. simpl.
  destruct (from_value value); [|done]. by intros [= ->].
Qed.

Hint Resolve needs_mode_openvpn needs_found_cleanup : core.
Hint Extern 1 (needs _ _ _ _ _ _ _ (connect_action _ (xray_broad _))) =>
  eapply needs_mode_xray; [listed|eassumption|eassumption] : core.
Hint Extern 1 (needs _ _ _ _ _ _ _ (connect_action _ (wp_full_ipv4 _ || _))) =>
  eapply needs_mode_wireguard; [reflexivity|eapply possible_params; eassumption|eassumption|eassumption] : core.

Lemma handlers_ask value : Forall (asks value) (handlers show_ip cfg others peer value).
Proof.
  unfold handlers, handle_xray_connect, handle_xray_reload.
  repeat first [apply Forall_nil_2 | apply Forall_cons_2]; intros s0 h0; cbn [fst snd];
    solve [asks_first].
Qed.

Abbreviation action_for request s0 h0 :=
  (needs cfg others peer s0 h0 (rq_method request) (rq_params request)).

Lemma dispatch_guarded request s0 h0 :
  guarded others peer (rq_method request) s0 h0 (action_for request s0 h0)
    (dispatch show_ip cfg others request peer).
Proof.
  assert (guarded others peer (rq_method request) s0 h0 (action_for request s0 h0)
    (handle show_ip cfg others request peer)) as Hh.
  { unfold handle. destruct (List.find _ _) as [[name run]|] eqn:Hfind.
    - apply find_some in Hfind as [Hin%list_elem_of_In Hname]. apply bool_decide_eq_true in Hname. simpl in Hname.
      rewrite <- Hname. exact (proj1 (Forall_forall _ _) (handlers_ask (rq_params request)) _ Hin s0 h0).
    - apply guarded_harmless, obeys_ret. }
  intros s h Hu. specialize (Hh s h Hu). unfold dispatch, bind, ret.
  by destruct (handle _ _ _ _ _ _ _) as [[[r|] s'] h'].
Qed.

(** C5. Whatever the request and whatever polkit answers: each change the
    daemon makes for it to the system, its stores or the journal comes after
    polkit granted the caller, in answer to this request, the action the
    method needs; and until it does, the daemon's state stays as it was, but
    for what other connections change while the request waits and for two
    notes on the caller's own tunnels: the handshake that [wireguard.status]
    saw, and which connections [xray.serviceChecks] was asked to check. *)
Theorem dispatch_asks_first request s h :
  let enough := action_for request s h in
  let '(_, s', h') := dispatch show_ip cfg others request peer s h in
  traced (authorized_since peer enough h) h h' ∧
  (rtc (idle_step others peer (rq_method request)) s s' ∨ granted_since peer enough h h').
Proof.
  cbv zeta. pose proof (dispatch_guarded request s h s h) as Hg.
  destruct (dispatch _ _ _ _ _ _ _) as [[r s'] h']. apply Hg. split; [done|reflexivity].
Qed.

End handlers.
