(* ===== verification/Session.v ===== *)
(** * Connections and client sessions: [crates/daemon/src/server.rs]

    What runs around [dispatch]: a connection from its first frame to its
    end, and the watch over client processes, whose tunnels are torn down
    when the last of them has been gone for the grace period. *)

From S2P Require Export ServerAuth.

(** ** Client processes *)

(** In milliseconds. *)
Definition CLIENT_DEATH_GRACE : Z := 30000.

Record TrackedClient : Type := mkTracked {
  tc_pidfds : list (Z * Z);
  tc_dead_since : option Z;
}.

Definition ClientTracker : Type := gmap Z TrackedClient.

(** The order in which [HashMap::retain] visits the entries. *)
Class RetainOrder : Type := {
  retain_order : ClientTracker → list Z;
  retain_order_perm m : retain_order m ≡ₚ (map_to_list m).*1;
}.

Section tracker.
Context `{Env} `{RetainOrder}.

(** A freshly accepted client; whether this cancelled a grace window. *)
Definition track (peer : PeerIdentity) : M ClientTracker bool :=
  match pi_pidfd peer with
  | None => ret false
  | Some pidfd =>
    let! inner := get in
    let entry := unwrap_or (inner !! pi_uid peer) (mkTracked [] None) in
    let pidfds :=
      if existsb (λ '(pid, _), Z.eqb pid (pi_pid peer)) (tc_pidfds entry)
      then tc_pidfds entry else tc_pidfds entry ++ [(pi_pid peer, pidfd)] in
    put (<[pi_uid peer := mkTracked pidfds None]> inner) ;;;
    ret (is_some (tc_dead_since entry))
  end.

Definition keep_alive (pidfds : list (Z * Z)) : M ClientTracker (list (Z * Z)) :=
  for_acc pidfds [] (λ kept '(pid, fd),
    let! alive := call (PidfdAlive fd) in
    ret (if alive : bool then kept ++ [(pid, fd)] else kept)).

(** The closure of [retain]: [true] reports the user. *)
Definition reap_client (grace now uid : Z) : M ClientTracker bool :=
  let! inner := get in
  match inner !! uid with
  | None => ret false
  | Some entry =>
    let! pidfds := keep_alive (tc_pidfds entry) in
    match pidfds with
    | [] =>
      let since := unwrap_or (tc_dead_since entry) now in
      if Z.leb grace (Z.max 0 (now - since)) then
        modify (delete uid) ;;; ret true
      else
        modify (insert uid (mkTracked [] (Some since))) ;;; ret false
    | _ => modify (insert uid (mkTracked pidfds (tc_dead_since entry))) ;;; ret false
    end
  end.

Definition expired (grace : Z) : M ClientTracker (list Z) :=
  let! now := call Monotonic in
  let! inner := get in
  for_acc (retain_order inner) [] (λ fired uid,
    let! gone := reap_client grace now uid in
    ret (if gone : bool then fired ++ [uid] else fired)).

End tracker.

(** ** The watch *)

Record Session : Type := mkSession {
  ss_clients : ClientTracker;
  ss_server : Server;
}.

Section watch.
Context `{Env} `{RetainOrder} `{IpNetLib} `{RuntimeDir} `{JsonCodec AlwaysOnDocument}.
(** What connections did before the core was locked. *)
Context (others : history → Session → Session).

Definition on_clients {A} (m : M ClientTracker A) : M Session A := λ s h,
  match m (ss_clients s) h with
  | (r, c, h') => (r, mkSession c (ss_server s), h')
  end.

Definition on_server {A} (m : M Server A) : M Session A := λ s h,
  match m (ss_server s) h with
  | (r, v, h') => (r, mkSession (ss_clients s) v, h')
  end.

(** The owners to keep, of every user. *)
Definition kept_owners (store : option path) : M Session (gset owner_key) :=
  match store with
  | None => ret ∅
  | Some root =>
    let! owners := replayable_owners root in
    ret (unwrap_or (ok owners) ∅)
  end.

(** A turn of the loop of [watch_client_sessions], but for the lines it
    logs. *)
Definition watch_turn (store : option path) : M Session unit :=
  let! gone := on_clients (expired CLIENT_DEATH_GRACE) in
  match gone with
  | [] => ret tt
  | _ =>
    let! keep := kept_owners store in
    (λ s h, (Some tt, others h s, h)) ;;;
    for_each gone (λ uid,
      let! result := on_server (on_core (cleanup_session_uid uid keep)) in
      match result with
      | Ok result => for_each (cr_removed_owners result) (λ owner, call (Notify uid owner))
      | Err _ => ret tt
      end)
  end.

End watch.

(** ** A connection *)

Record HelloResult : Type := mkHelloResult {
  hr_protocol : Z;
  hr_daemon_version : string;
  hr_uid : Z;
  hr_capabilities : list string;
  hr_tools : list (string * bool);
}.

Inductive EventFrame : Type :=
| OwnedChanged (owner : string)
| Resync.

Inductive Frame : Type :=
| ResponseF (response : ResponseFrame)
| EventF (event : EventFrame).

(** [serde_json] on the frames. *)
Class FrameText : Type := {
  frame_json : Frame → option bytes;
  hello_value : HelloResult → result Value text;
}.

(** What [broadcast::Receiver::recv] returns. *)
Inductive Received : Type :=
| Sent (uid : Z) (owner : string)
| Lagged
| ChannelClosed.

(** What the connection waits for: the next frame of the reader task, whose
    channel may be closed, an event, or the end of the time for [hello]. *)
Inductive Arrival : Type :=
| FrameArrives (frame : option (io_result (option bytes)))
| EventArrives (e : Received)
| HelloTimesOut.

(** Where [serve_connection] is: whether there is a subscription, and at the
    end its result. *)
Inductive Phase : Type :=
| AwaitHello
| Serving (subscribed : bool)
| Closed (r : io_result unit).

(** [cn_sent]: the frames written so far, the newest first. *)
Record Connection : Type := mkConnection {
  cn_phase : Phase;
  cn_server : Server;
  cn_sent : list Frame;
}.

Section connection.
Context `{Env} `{IpNetLib} `{UrlLib} `{JsonText} `{Base64Lib} `{RuntimeDir}.
Context `{JsonCodec AlwaysOnDocument} `{JsonCodec CondRulesDocument} `{JsonCodec IntentDocument}.
Context `{JsonCodec SettingsDocument} `{ToValue}.
Context `{FromValue SettingsSetParams} `{FromValue AlwaysOnSetParams} `{FromValue AlwaysOnRemoveParams}
  `{FromValue WireGuardConnectParams} `{FromValue ProfileParams} `{FromValue OpenVpnConnectRequest}
  `{FromValue XrayConnectParams} `{FromValue XrayServiceChecksParams} `{FromValue XrayInstallParams}
  `{FromValue RoutesApplyParams} `{FromValue OwnerParams} `{FromValue CondRulesPutParams}
  `{FromValue CondRulesRemoveParams} `{FromValue NmSetActiveParams} `{FromValue NetRouteAddParams}
  `{FromValue NetRouteDelParams} `{FromValue NetRuleAddParams} `{FromValue NetRuleDelParams}
  `{FromValue NetDnsProbeParams} `{FromValue NetIntentSetParams} `{FromValue NetIntentDelParams}
  `{FromValue LinkSetStateParams} `{FromValue ExternalTunnelStopParams}.
Context `{JsonCodec RequestFrame} `{FromValue HelloParams} `{FrameText}.
Context (show_ip : IpAddr → string) (cfg : ServerConfig) (others : history → Server → Server).
Context (version : string) (peer : PeerIdentity).

Definition encode_frame (f : Frame) : io_result bytes :=
  json <-? ok_or (frame_json f) (err_new InvalidData "unserializable frame") ;
  Ok (encode_line json).

Definition write_frame (f : Frame) : M Connection (io_result unit) :=
  let? line := lift (encode_frame f) in
  let? _ := call (StreamWrite line) in
  modify (λ c, mkConnection (cn_phase c) (cn_server c) (f :: cn_sent c)) ;;;
  call StreamFlush.

Definition enter (phase : Phase) : M Connection unit :=
  modify (λ c, mkConnection phase (cn_server c) (cn_sent c)).

(** The [?] of [serve_connection]. *)
Definition written (f : Frame) (k : M Connection unit) : M Connection unit :=
  let! r := write_frame f in
  match r with Ok _ => k | Err e => enter (Closed (Err e)) end.

(** [None] ends the connection. *)
Definition next_frame (frame : option (io_result (option bytes)))
    : M Connection (io_result (option bytes)) :=
  match frame with
  | Some (Ok (Some frame)) => ret (Ok (Some frame))
  | Some (Err err) =>
    if has_kind InvalidData err then
      let? _ := write_frame (ResponseF (response_error 0 FrameTooLarge (emsg err))) in
      ret (Ok None)
    else ret (Ok None)
  | _ => ret (Ok None)
  end.

Definition ok_response (id : Z) (value : result Value text) : ResponseFrame :=
  match value with
  | Ok value => response_ok id value
  | Err err => response_error id Internal err
  end.

Definition on_first_frame (frame : bytes) : M Connection unit :=
  match handshake frame with
  | Err response =>
    let! r := write_frame (ResponseF response) in
    enter (Closed r)
  | Ok request_id =>
    let! tools := call ToolsProbe in
    let hello := mkHelloResult PROTOCOL_VERSION version (pi_uid peer) method.CAPABILITIES tools in
    written (ResponseF (ok_response request_id (hello_value hello))) (enter (Serving false))
  end.

(** [timeout(DISPATCH_TIMEOUT, dispatch(..))]: what the request did before it
    was dropped stays done, that of the blocking task it was awaiting
    included; the task may end later than the answer is written, here it has
    ended before. Without a result and in time, the daemon has aborted. *)
Definition dispatch_on (request : RequestFrame) : M Connection ResponseFrame := λ c h,
  match dispatch show_ip cfg others request peer (cn_server c) h with
  | (r, v, h') =>
    (match r with
     | Some response => Some response
     | None =>
       if timed_out h' then Some (response_error (rq_id request) Internal (txt "request timed out"))
       else None
     end, mkConnection (cn_phase c) v (cn_sent c), h')
  end.

Definition on_request (subscribed : bool) (frame : bytes) : M Connection unit :=
  match from_slice frame with
  | Some request =>
    enter (Serving (subscribed || (rq_method request =b method.SUBSCRIBE))) ;;;
    let! response := dispatch_on request in
    written (ResponseF response) (ret tt)
  | None =>
    written (ResponseF (response_error 0 InvalidParams (txt "malformed request frame"))) (ret tt)
  end.

(** An event for another user is passed over; a closed channel never
    resolves. *)
Definition on_event (e : Received) : M Connection unit :=
  match e with
  | Sent uid owner => if Z.eqb uid (pi_uid peer) then written (EventF (OwnedChanged owner)) (ret tt) else ret tt
  | Lagged => written (EventF Resync) (ret tt)
  | ChannelClosed => ret tt
  end.

(** [next_frame(frame, ..).await?] and what follows. *)
Definition with_frame (frame : option (io_result (option bytes))) (k : bytes → M Connection unit)
    : M Connection unit :=
  let! next := next_frame frame in
  match next with
  | Ok (Some frame) => k frame
  | Ok None => enter (Closed (Ok tt))
  | Err e => enter (Closed (Err e))
  end.

(** One step of [serve_connection]; what it does not wait for passes by. *)
Definition on_arrival (a : Arrival) : M Connection unit :=
  let! c := get in
  match cn_phase c, a with
  | AwaitHello, HelloTimesOut => enter (Closed (Ok tt))
  | AwaitHello, FrameArrives frame => with_frame frame on_first_frame
  | Serving subscribed, FrameArrives frame => with_frame frame (on_request subscribed)
  | Serving true, EventArrives e => on_event e
  | _, _ => ret tt
  end.

Definition serve_connection (arrivals : list Arrival) : M Connection unit := for_each arrivals on_arrival.

End connection.

(** ** The reader task *)

(** The frames it hands over: up to the first that is none. [buffers] are what
    the socket delivers; every frame takes a newline of them, so the number of
    their bytes and of the buffers is enough. *)
Fixpoint read_frames (fuel : nat) (buffers : list bytes) : list (io_result (option bytes)) :=
  match fuel with
  | O => []
  | Datatypes.S fuel =>
    let '(frame, rest) := read_frame MAX_FRAME_BYTES [] buffers in
    frame :: match frame with Ok (Some _) => read_frames fuel rest | _ => [] end
  end.

Definition reader_task (buffers : list bytes) : list (io_result (option bytes)) :=
  read_frames (Datatypes.S (length (concat buffers))) buffers.

(** ** Accepting *)

(** [serve_accepted]: [None] when there is no room. *)
Definition admit_connection `{Env} `{FrameText} (permits : Z) (peer : PeerIdentity)
    : M ClientTracker (option bool) :=
  if Z.leb MAX_CONNECTIONS permits then
    let! _ :=
      (let? line := lift (encode_frame (ResponseF (response_error 0 Busy (txt "too many connections")))) in
       let? _ := call (StreamWrite line) in
       call StreamFlush) in
    ret None
  else
    let! cancelled := track peer in
    ret (Some cancelled).
