(* ===== verification/SessionProps.v ===== *)
(** * What a connection does, and when a session ends

    A connection answers its requests in order, tells only what is its
    user's, and changes nothing before it was greeted and polkit agreed. A
    user's session ends no earlier than the grace period after the last
    connection. *)

From S2P Require Export Session.

(** ** One connection *)

Section connection.
Context `{Env} `{IpNetLib} `{UrlLib} `{JsonText} `{Base64Lib} `{RuntimeDir}.
Context `{JsonCodec AlwaysOnDocument} `{JsonCodec CondRulesDocument} `{JsonCodec IntentDocument}.
Context `{JsonCodec SettingsDocument} `{ToValue}.
Context `{FromValue SettingsSetParams} `{FromValue AlwaysOnSetParams} `{FromValue AlwaysOnRemoveParams}
  `{FromValue WireGuardConnectParams} `{FromValue ProfileParams} `{FromValue OpenVpnConnectRequest}
  `{FromValue XrayConnectParams} `{FromValue XrayServiceChecksParams} `{FromValue XrayInstallParams}
  `{FromValue RoutesApplyParams} `{FromValue OwnerParams} `{FromValue CondRulesPutParams}
  `{FromValue CondRulesRemoveParams} `{FromValue NmSetActiveParams} `{FromValue NetRouteAddParams}
  `{FromValue NetRouteDelParams} `{FromValue NetRuleAddParams} `{FromValue NetRuleDelParams}
  `{FromValue NetDnsProbeParams} `{FromValue NetIntentSetParams} `{FromValue NetIntentDelParams}
  `{FromValue LinkSetStateParams} `{FromValue ExternalTunnelStopParams}.
Context `{JsonCodec RequestFrame} `{FromValue HelloParams} `{FrameText}.
Context (show_ip : IpAddr → string) (cfg : ServerConfig) (others : history → Server → Server).
Context (version : string) (peer : PeerIdentity).
(** Everything that arrives, the daemon at the start, and the calls before. *)
Context (all : list Arrival) (server : Server) (h0 : history).

Abbreviation arrive := (on_arrival show_ip cfg others version peer).

(** Where the connection is when [done] has arrived. *)
Definition served_to (done : list Arrival) (c : Connection) (h : history) : Prop :=
  serve_connection show_ip cfg others version peer done (mkConnection AwaitHello server []) h0 =
  (Some tt, c, h).

(** The answer to an accepted [hello] was written. *)
Definition greeted (h : history) : Prop :=
  ∃ new frame id tools line, h = new ++ h0 ∧
    FrameArrives (Some (Ok (Some frame))) ∈ all ∧ handshake frame = Ok id ∧
    encode_frame (ResponseF (ok_response id (hello_value
      (mkHelloResult PROTOCOL_VERSION version (pi_uid peer) method.CAPABILITIES tools)))) = Ok line ∧
    Ev (StreamWrite line) (Ok tt) ∈ new.

(** The request that arrives. *)
Definition asked (a : Arrival) : option RequestFrame :=
  match a with
  | FrameArrives (Some (Ok (Some frame))) => from_slice frame
  | _ => None
  end.

(** Polkit granted, since the request came to the daemon in the state of [c]
    with the calls [h], what it needs. *)
Definition allowed (request : RequestFrame) (c : Connection) (h h' : history) : Prop :=
  granted_since peer
    (needs cfg others peer (cn_server c) h (rq_method request) (rq_params request)) h h'.

(** A change comes after the greeting and such a grant for one of the requests
    that came. *)
Definition connection_guard (e : event) (h : history) : Prop :=
  effect e = true → greeted h ∧
    ∃ done a request c1 h1, done ++ [a] `prefix_of` all ∧ asked a = Some request ∧
      served_to done c1 h1 ∧ allowed request c1 h1 h.

(** What an arrival does to the daemon's state: nothing but what others do and
    what is noted, before the request is allowed. *)
Definition stays_until_allowed (a : Arrival) (c : Connection) (h : history) : Prop :=
  let '(_, c', h') := arrive a c h in
  match asked a with
  | None => cn_server c' = cn_server c
  | Some request =>
    rtc (idle_step others peer (rq_method request)) (cn_server c) (cn_server c') ∨
    greeted h ∧ allowed request c h h'
  end.

Definition subscribed_by : Prop :=
  ∃ frame request, FrameArrives (Some (Ok (Some frame))) ∈ all ∧
    from_slice frame = Some request ∧ rq_method request = method.SUBSCRIBE.

(** What may be written: an event only after a subscription, and only one of
    the client's user, or that events were lost. *)
Definition may_tell (f : Frame) : Prop :=
  match f with
  | ResponseF _ => True
  | EventF (OwnedChanged owner) => subscribed_by ∧ EventArrives (Sent (pi_uid peer) owner) ∈ all
  | EventF Resync => subscribed_by ∧ EventArrives Lagged ∈ all
  end.

(** The id an arrival is answered with, when it is a frame. *)
Definition frame_id (frame : bytes) : Z :=
  match from_slice frame with Some request => rq_id request | None => 0 end.

Definition answered_id (a : Arrival) : option Z :=
  match a with
  | FrameArrives (Some (Ok (Some frame))) => Some (frame_id frame)
  | FrameArrives (Some (Err err)) => if has_kind InvalidData err then Some 0%Z else None
  | _ => None
  end.

(** The ids of the answers, the oldest first. *)
Definition answers (c : Connection) : list Z :=
  rev (omap (λ f, match f with ResponseF r => Some (rs_id r) | EventF _ => None end) (cn_sent c)).

(** However the connection goes on. *)
Definition settled (c : Connection) : Prop :=
  Forall may_tell (cn_sent c) ∧ answers c `prefix_of` omap answered_id all.

Definition runs {A} (m : M Connection A) (Q : A → Connection → history → Prop) (c : Connection)
    (h : history) : Prop :=
  let '(r, c', h') := m c h in
  traced connection_guard h0 h' ∧ match r with Some a => Q a c' h' | None => settled c' end.

Lemma runs_ret {A} (a : A) (Q : A → Connection → history → Prop) c h :
  traced connection_guard h0 h → Q a c h → runs (ret a) Q c h.
Proof. done. Qed.

Lemma runs_bind {A B} (m : M Connection A) (f : A → M Connection B) Q c h :
  runs m (λ a c' h', runs (f a) Q c' h') c h → runs (bind m f) Q c h.
Proof. unfold runs, bind. destruct (m c h) as [[[a|] c'] h']; [|done]. by intros [_ Hf]. Qed.

Lemma runs_mono {A} (m : M Connection A) (Q Q' : A → Connection → history → Prop) c h :
  (∀ a c' h', traced connection_guard h0 h' → Q a c' h' → Q' a c' h') → runs m Q c h → runs m Q' c h.
Proof. intros HQ. unfold runs. destruct (m c h) as [[[a|] c'] h']; [|done]. intros [? ?]. auto. Qed.

Lemma runs_get {A} (f : Connection → M Connection A) (Q : A → Connection → history → Prop) c h :
  runs (f c) Q c h → runs (bind get f) Q c h.
Proof. done. Qed.

Lemma runs_modify f (Q : unit → Connection → history → Prop) c h :
  traced connection_guard h0 h → Q tt (f c) h → runs (modify f) Q c h.
Proof. done. Qed.

Lemma runs_call {A} (q : ext A) (Q : A → Connection → history → Prop) c h :
  (∀ a, effect (Ev q a) = false) → traced connection_guard h0 h →
  (∀ a, traced connection_guard h0 (Ev q a :: h) → Q a c (Ev q a :: h)) → runs (call q) Q c h.
Proof.
  intros He Ht HQ. assert (traced connection_guard h0 (Ev q (answer A q h) :: h)) as Ht'.
  { constructor; [done|]. intros Hx. by rewrite He in Hx. }
  split; [done|]. by apply HQ.
Qed.

(** Writing a frame: it is among those sent, or the connection ends. *)
Lemma runs_write f (Q : io_result unit → Connection → history → Prop) c h :
  traced connection_guard h0 h →
  (∀ e h', traced connection_guard h0 h' → Q (Err e) c h') →
  (∀ r h' line, traced connection_guard h0 h' → encode_frame f = Ok line →
     (∃ new, h' = new ++ h ∧ Ev (StreamWrite line) (Ok tt) ∈ new) →
     Q r (mkConnection (cn_phase c) (cn_server c) (f :: cn_sent c)) h') →
  runs (write_frame f) Q c h.
Proof.
  intros Ht Herr Hok. unfold write_frame, try_bind. apply runs_bind, runs_ret; [done|].
  destruct (encode_frame f) as [line|e]; [|by apply runs_ret; [done|apply Herr]].
  apply runs_bind, runs_call; [done..|]. intros [[]|e] Ht1; [|by apply runs_ret; [done|apply Herr]].
  apply runs_bind, runs_modify; [done|]. apply runs_call; [done..|]. intros r Ht2.
  eapply Hok; [done..|]. eexists [_; _]. split; [done|]. set_solver.
Qed.

Lemma answers_response ph sv r sent :
  answers (mkConnection ph sv (ResponseF r :: sent)) = answers (mkConnection ph sv sent) ++ [rs_id r].
Proof. done. Qed.

Lemma answers_event ph sv e sent :
  answers (mkConnection ph sv (EventF e :: sent)) = answers (mkConnection ph sv sent).
Proof. done. Qed.

Lemma answers_same c c' : cn_sent c = cn_sent c' → answers c = answers c'.
Proof. unfold answers. by intros ->. Qed.

Lemma greeted_later h h' : (∃ new, h' = new ++ h) → greeted h → greeted h'.
Proof.
  intros [n ->] (new & frame & id & tools & line & -> & ? & ? & ? & Hin).
  exists (n ++ new), frame, id, tools, line. rewrite app_assoc. split_and!; [done..|]. set_solver.
Qed.

(** Where the connection is after [done] has arrived. *)
Definition so_far (done : list Arrival) (c : Connection) (h : history) : Prop :=
  Forall may_tell (cn_sent c) ∧
  match cn_phase c with
  | AwaitHello => answers c = omap answered_id done
  | Serving subscribed =>
    greeted h ∧ (subscribed = true → subscribed_by) ∧ answers c = omap answered_id done
  | Closed _ => answers c `prefix_of` omap answered_id done
  end.

Lemma so_far_prefix done c h : so_far done c h → answers c `prefix_of` omap answered_id done.
Proof. intros [_ Hp]. destruct (cn_phase c); [by rewrite Hp|destruct Hp as (_ & _ & ->)|]; done. Qed.

Lemma so_far_settled done c h : done `prefix_of` all → so_far done c h → settled c.
Proof.
  intros [rest Hall] Hs. split; [by destruct Hs|]. etransitivity; [by eapply so_far_prefix|].
  rewrite Hall, omap_app. by eexists.
Qed.

Lemma omap_snoc done a : omap answered_id (done ++ [a]) = omap answered_id done ++ omap answered_id [a].
Proof. by rewrite omap_app. Qed.

(** A request is answered under its id. *)
Lemma dispatch_id request s h r s' h' :
  dispatch show_ip cfg others request peer s h = (Some r, s', h') → rs_id r = rq_id request.
Proof.
  unfold dispatch, bind, ret.
  destruct (handle _ _ _ _ _ _ _) as [[[[v|[code msg]]|] s1] h1]; [| |done]; by intros [= <- _ _].
Qed.

Lemma runs_dispatch done a request c0 Q c h :
  done ++ [a] `prefix_of` all → asked a = Some request → served_to done c0 h →
  cn_server c = cn_server c0 →
  greeted h → settled c → traced connection_guard h0 h →
  (∀ response c' h', traced connection_guard h0 h' → (∃ new, h' = new ++ h) →
     rs_id response = rq_id request → cn_sent c' = cn_sent c → cn_phase c' = cn_phase c →
     Q response c' h') →
  runs (dispatch_on show_ip cfg others peer request) Q c h.
Proof.
  intros Hpre Hasked Hto Hsame Hg Hset Ht HQ. unfold runs, dispatch_on.
  pose proof (dispatch_guarded show_ip cfg others peer request (cn_server c0) h (cn_server c) h) as Hd.
  destruct Hd as [Hd _]; [split; [by rewrite Hsame|reflexivity]|].
  pose proof (dispatch_id request (cn_server c) h) as Hid.
  destruct (dispatch _ _ _ _ _ _ _) as [[r s'] h'] eqn:Hrun. simpl in Hd.
  assert (traced connection_guard h0 h') as Ht'.
  { eapply traced_trans; [exact Ht|]. clear HQ Hset Hid Hrun. induction Hd as [|e h1 Hd IH He]; [constructor|].
    constructor; [done|]. intros Heff. split.
    - eapply greeted_later; [|exact Hg]. by eapply traced_grown.
    - exists done, a, request, c0, h. split_and!; [done..|]. by apply He. }
  split; [done|]. assert (∃ new, h' = new ++ h) as Hgrown by (by eapply traced_grown).
  destruct r as [r|]; [|destruct (timed_out h')]; [apply HQ; [done..|by eapply Hid|done|done]|by apply HQ|exact Hset].
Qed.

(** A frame to be answered: nothing was written, and its end. *)
Lemma runs_written f (k : M Connection unit) (Q : unit → Connection → history → Prop) c h :
  traced connection_guard h0 h →
  (∀ e h' sent, traced connection_guard h0 h' → sent = cn_sent c ∨ sent = f :: cn_sent c →
     Q tt (mkConnection (Closed (Err e)) (cn_server c) sent) h') →
  (∀ h' line, traced connection_guard h0 h' → encode_frame f = Ok line →
     (∃ new, h' = new ++ h ∧ Ev (StreamWrite line) (Ok tt) ∈ new) →
     runs k Q (mkConnection (cn_phase c) (cn_server c) (f :: cn_sent c)) h') →
  runs (written f k) Q c h.
Proof.
  intros Ht Hend Hk. unfold written. apply runs_bind, runs_write; [done| |].
  - intros e h' Ht'. apply runs_modify; [done|]. apply Hend; [done|by left].
  - intros [u|e] h' line Ht' Hl Hw; [by eapply Hk|]. apply runs_modify; [done|].
    apply Hend; [done|by right].
Qed.

(** What becomes of a frame before it is looked at. *)
Lemma runs_with_frame frame k (Q : unit → Connection → history → Prop) c h :
  traced connection_guard h0 h →
  (∀ r h' sent, traced connection_guard h0 h' →
     sent = cn_sent c ∨ (∃ err m, frame = Some (Err err) ∧ has_kind InvalidData err = true ∧
       sent = ResponseF (response_error 0 FrameTooLarge m) :: cn_sent c) →
     Q tt (mkConnection (Closed r) (cn_server c) sent) h') →
  (∀ bs, frame = Some (Ok (Some bs)) → runs (k bs) Q c h) →
  runs (with_frame frame k) Q c h.
Proof.
  intros Ht Hend Hk. unfold with_frame. apply runs_bind.
  assert (∀ r, runs (enter (Closed r)) Q c h) as Hclose.
  { intros r. apply runs_modify; [done|]. apply Hend; [done|by left]. }
  destruct frame as [[[bs|]|err]|]; cbn [next_frame].
  1: { apply runs_ret; [done|by apply Hk]. }
  1, 3: by apply runs_ret.
  destruct (has_kind InvalidData err) eqn:Hk'; [|by apply runs_ret].
  unfold try_bind. apply runs_bind, runs_write; [done| |].
  - intros e h' Ht'. apply runs_ret; [done|]. apply runs_modify; [done|]. apply Hend; [done|by left].
  - intros r h' line Ht' _ _. assert (∀ res, runs (enter (Closed res)) Q
      (mkConnection (cn_phase c) (cn_server c) (ResponseF (response_error 0 FrameTooLarge (emsg err)) :: cn_sent c)) h') as Hc.
    { intros res. apply runs_modify; [done|]. apply Hend; [done|]. right. by exists err, (emsg err). }
    destruct r; by apply runs_ret.
Qed.

Lemma so_far_closed done a r c sent sv h h' :
  so_far done c h →
  sent = cn_sent c ∨ (∃ f, may_tell f ∧ sent = f :: cn_sent c ∧
    answers (mkConnection (cn_phase c) sv (f :: cn_sent c)) `prefix_of` omap answered_id (done ++ [a])) →
  so_far (done ++ [a]) (mkConnection (Closed r) sv sent) h'.
Proof.
  intros Hs Hsent. destruct Hsent as [->|(f & Hf & -> & Hp)]; (split; simpl; [|]).
  - by destruct Hs.
  - rewrite omap_snoc. apply prefix_app_r. rewrite (answers_same _ c) by done. by eapply so_far_prefix.
  - constructor; [done|by destruct Hs].
  - exact Hp.
Qed.

Lemma handshake_id frame response : handshake frame = Err response → rs_id response = frame_id frame.
Proof.
  unfold handshake, frame_id. destruct (from_slice frame) as [request|]; [|by intros [= <-]].
  repeat case_match; by intros [= <-].
Qed.

Lemma handshake_ok_id frame id : handshake frame = Ok id → id = frame_id frame.
Proof.
  unfold handshake, frame_id. destruct (from_slice frame) as [request|]; [|done].
  repeat case_match; by intros [= <-].
Qed.

(** One arrival. *)
Lemma runs_first_frame done c h frame :
  cn_phase c = AwaitHello → FrameArrives (Some (Ok (Some frame))) ∈ all →
  traced connection_guard h0 h → so_far done c h →
  runs (on_first_frame version peer frame)
    (λ _ c' h', so_far (done ++ [FrameArrives (Some (Ok (Some frame)))]) c' h') c h.
Proof.
  intros Hph Hin Ht Hs. pose proof Hs as [Hsent Hans]. rewrite Hph in Hans.
  assert (∀ id, id = frame_id frame → answers c ++ [id] =
    omap answered_id (done ++ [FrameArrives (Some (Ok (Some frame)))])) as Hsnoc.
  { intros id ->. by rewrite omap_snoc, Hans. }
  unfold on_first_frame. destruct (handshake frame) as [id|response] eqn:Hh.
  - apply runs_bind, runs_call; [done..|]. intros tools Ht1.
    apply runs_written; [done| |].
    + intros e h' sent Ht' Hcase. eapply so_far_closed; [exact Hs|]. destruct Hcase as [->| ->]; [by left|].
      right. eexists. split_and!; [|done|]; [done|]. rewrite answers_response. simpl.
      rewrite (answers_same _ c) by done. rewrite <- (Hsnoc id); [|by apply handshake_ok_id].
      by destruct (hello_value _).
    + intros h' line Ht' Hl Hw. apply runs_modify; [done|]. split; [by constructor|]. simpl. split_and!.
      * destruct (traced_grown _ _ _ Ht1) as [n Hn]. destruct Hw as (new & -> & Hw).
        exists (new ++ n), frame, id, tools, line. rewrite Hn, app_assoc. split_and!; [done..|]. set_solver.
      * done.
      * rewrite answers_response, (answers_same _ c) by done. rewrite <- (Hsnoc id); [|by apply handshake_ok_id].
        by destruct (hello_value _).
  - apply runs_bind, runs_write; [done| |].
    + intros e h' Ht'. apply runs_modify; [done|]. eapply so_far_closed; [exact Hs|by left].
    + intros r h' line Ht' _ _. apply runs_modify; [done|]. eapply so_far_closed; [exact Hs|].
      right. eexists. split_and!; [|done|]; [done|]. rewrite answers_response, (answers_same _ c) by done.
      by rewrite <- (Hsnoc (rs_id response)) by (by apply handshake_id).
Qed.

(** The answer to a frame, or the end. *)
Lemma runs_answer done c h frame response subscribed :
  cn_phase c = Serving subscribed → traced connection_guard h0 h → so_far done c h →
  rs_id response = frame_id frame →
  runs (written (ResponseF response) (ret tt))
    (λ _ c' h', so_far (done ++ [FrameArrives (Some (Ok (Some frame)))]) c' h') c h.
Proof.
  intros Hph Ht Hs Hid. pose proof Hs as [Hsent Hans]. rewrite Hph in Hans. destruct Hans as (Hg & Hsub & Hans).
  assert (∀ ph sv, answers (mkConnection ph sv (ResponseF response :: cn_sent c)) =
    omap answered_id (done ++ [FrameArrives (Some (Ok (Some frame)))])) as Hnew.
  { intros ph sv. rewrite answers_response, (answers_same _ c), Hans, omap_snoc, Hid by done. done. }
  apply runs_written; [done| |].
  - intros e h' sent Ht' Hcase. eapply so_far_closed; [exact Hs|]. destruct Hcase as [->| ->]; [by left|].
    right. eexists. split_and!; [|done|]; [done|]. by rewrite Hnew.
  - intros h' line Ht' _ (new & -> & _). apply runs_ret; [done|]. split; [by constructor|]. simpl. rewrite Hph.
    split_and!; [eapply greeted_later; [by eexists|done]|done|apply Hnew].
Qed.

Lemma runs_request done c h frame subscribed :
  done ++ [FrameArrives (Some (Ok (Some frame)))] `prefix_of` all → served_to done c h →
  cn_phase c = Serving subscribed → FrameArrives (Some (Ok (Some frame))) ∈ all →
  traced connection_guard h0 h → so_far done c h →
  runs (on_request show_ip cfg others peer subscribed frame)
    (λ _ c' h', so_far (done ++ [FrameArrives (Some (Ok (Some frame)))]) c' h') c h.
Proof.
  intros Hpre Hto Hph Hin Ht Hs. unfold on_request. destruct (from_slice frame) as [request|] eqn:Hreq.
  2: { eapply runs_answer; [done..|]. unfold frame_id. by rewrite Hreq. }
  apply runs_bind, runs_modify; [done|].
  pose proof Hs as [Hsent Hans]. rewrite Hph in Hans. destruct Hans as (Hg & Hsub & Hans).
  set (c1 := mkConnection _ _ _).
  assert (so_far done c1 h) as Hs1.
  { split; [done|]. simpl. split_and!; [done| |by rewrite (answers_same _ c)].
    intros [Hx|Hx]%orb_prop; [by apply Hsub|]. exists frame, request. by apply bool_decide_eq_true in Hx. }
  assert (done `prefix_of` all) as Hdone by (etransitivity; [by eexists|exact Hpre]).
  apply runs_bind. eapply runs_dispatch; [exact Hpre|exact Hreq|exact Hto|done|done|by eapply so_far_settled|done|].
  intros response c' h' Ht' Hgrown Hid Hsame Hphase. eapply runs_answer.
  - rewrite Hphase. done.
  - done.
  - destruct Hs1 as [Hsent1 Hans1]. split; [by rewrite Hsame|]. rewrite Hphase. simpl in Hans1 |- *.
    destruct Hans1 as (Hg2 & Hsub2 & Hans2). split_and!; [by eapply greeted_later|done|].
    by rewrite (answers_same _ c1).
  - unfold frame_id. by rewrite Hreq.
Qed.

Lemma runs_event done c h e :
  cn_phase c = Serving true → EventArrives e ∈ all → traced connection_guard h0 h → so_far done c h →
  runs (on_event peer e) (λ _ c' h', so_far (done ++ [EventArrives e]) c' h') c h.
Proof.
  intros Hph Hin Ht Hs. pose proof Hs as [Hsent Hans]. rewrite Hph in Hans. destruct Hans as (Hg & Hsub & Hans).
  assert (so_far (done ++ [EventArrives e]) c h) as Hskip.
  { split; [done|]. rewrite Hph. by rewrite omap_snoc, app_nil_r. }
  assert (∀ ev, may_tell (EventF ev) → runs (written (EventF ev) (ret tt))
    (λ _ c' h', so_far (done ++ [EventArrives e]) c' h') c h) as Htell.
  { intros ev Hev. apply runs_written; [done| |].
    - intros err h' sent Ht' Hcase. eapply so_far_closed; [exact Hs|]. destruct Hcase as [->| ->]; [by left|].
      right. eexists. split_and!; [exact Hev|done|]. rewrite answers_event, (answers_same _ c) by done.
      rewrite omap_snoc. apply prefix_app_r. by rewrite Hans.
    - intros h' line Ht' _ (new & -> & _). apply runs_ret; [done|]. split; [by constructor|]. simpl. rewrite Hph.
      split_and!; [eapply greeted_later; [by eexists|done]|done|].
      by rewrite answers_event, (answers_same _ c), omap_snoc, app_nil_r by done. }
  unfold on_event. destruct e as [uid owner| |]; [|apply Htell; by split; [apply Hsub|]|by apply runs_ret].
  destruct (Z.eqb_spec uid (pi_uid peer)) as [->|]; [|by apply runs_ret].
  apply Htell. by split; [apply Hsub|].
Qed.

Lemma runs_arrival done a c h :
  done ++ [a] `prefix_of` all → served_to done c h → traced connection_guard h0 h → so_far done c h →
  runs (arrive a) (λ _ c' h', so_far (done ++ [a]) c' h') c h.
Proof.
  intros Hpre Hto Ht Hs. assert (a ∈ all) as Hin by (destruct Hpre as [rest ->]; set_solver).
  assert (done `prefix_of` all) as Hdone by (etransitivity; [|exact Hpre]; by eexists).
  assert (answered_id a = None → cn_phase c = AwaitHello ∨ (∃ s, cn_phase c = Serving s) → so_far (done ++ [a]) c h) as Hpass.
  { intros Hnone Hcase. assert (omap answered_id (done ++ [a]) = omap answered_id done) as He.
    { rewrite omap_snoc. simpl. rewrite Hnone. apply app_nil_r. }
    destruct Hs as [Hsent Hans]. split; [done|]. destruct (cn_phase c) as [|sub|r]; rewrite ?He; [done..|].
    by destruct Hcase as [|[? ?]]. }
  assert (∀ frame, a = FrameArrives frame → ∀ k, cn_phase c = AwaitHello ∨ (∃ s, cn_phase c = Serving s) →
    (∀ bs, frame = Some (Ok (Some bs)) → runs (k bs) (λ _ c' h', so_far (done ++ [a]) c' h') c h) →
    runs (with_frame frame k) (λ _ c' h', so_far (done ++ [a]) c' h') c h) as Hframe.
  { intros frame -> k Hcase Hk. apply runs_with_frame; [done| |done].
    intros r h' sent Ht' [->|(err & m & -> & Hk' & ->)]; (eapply so_far_closed; [exact Hs|]); [by left|].
    right. eexists. split_and!; [|done|]; [done|]. rewrite answers_response, (answers_same _ c) by done.
    rewrite omap_snoc. simpl. rewrite Hk'. destruct Hs as [_ Hans].
    destruct Hcase as [Hc|[s' Hc]]; rewrite Hc in Hans; [by rewrite Hans|].
    destruct Hans as (_ & _ & Hans). by rewrite Hans. }
  unfold on_arrival. apply runs_get. destruct (cn_phase c) as [|[]|r] eqn:Hph.
  4: { apply runs_ret; [done|]. destruct Hs as [Hsent Hans]. split; [done|]. rewrite Hph in Hans |- *.
       rewrite omap_snoc. by apply prefix_app_r. }
  all: destruct a as [frame|e|]; try (apply runs_ret; [done|]; apply Hpass; [done|]; eauto).
  - eapply Hframe; [done|by left|]. intros bs ->. by apply runs_first_frame.
  - apply runs_modify; [done|]. eapply so_far_closed; [exact Hs|by left].
  - eapply Hframe; [done|eauto|]. intros bs ->. by eapply runs_request.
  - by apply runs_event.
  - eapply Hframe; [done|eauto|]. intros bs ->. by eapply runs_request.
Qed.

(** One more arrival. *)
Lemma for_each_snoc {S A} (l : list A) x (f : A → M S unit) s h s1 h1 :
  for_each l f s h = (Some tt, s1, h1) → for_each (l ++ [x]) f s h = f x s1 h1.
Proof.
  revert s h. induction l as [|y l IH]; intros s h; cbn [for_each app].
  - intros [= -> ->]. unfold bind. by destruct (f x s1 h1) as [[[[]|] ?] ?].
  - unfold bind. destruct (f y s h) as [[[u|] s2] h2]; [apply IH|done].
Qed.

Lemma runs_arrivals rest done c h :
  done ++ rest `prefix_of` all → served_to done c h → traced connection_guard h0 h → so_far done c h →
  runs (for_each rest arrive) (λ _ c' h', so_far (done ++ rest) c' h') c h.
Proof.
  revert done c h. induction rest as [|a rest IH]; intros done c h Hpre Hto Ht Hs; cbn [for_each].
  { apply runs_ret; [done|]. by rewrite app_nil_r. }
  assert (done ++ a :: rest = (done ++ [a]) ++ rest) as Heq by (by rewrite <- app_assoc).
  assert (done ++ [a] `prefix_of` all) as Hpre1 by (etransitivity; [|exact Hpre]; rewrite Heq; by eexists).
  pose proof (runs_arrival done a c h Hpre1 Hto Ht Hs) as Ha. unfold runs, bind in *.
  pose proof (for_each_snoc done a arrive _ _ c h Hto) as Hsnoc.
  destruct (arrive a c h) as [[[[]|] c'] h']; [|done]. destruct Ha as [Ht' Hs'].
  rewrite Heq. apply IH; [by rewrite <- Heq|exact Hsnoc|done..].
Qed.

(** *** What an arrival does to the daemon's state *)

Definition same_server (c c' : Connection) : Prop := cn_server c' = cn_server c.
#[local] Instance same_server_preorder : PreOrder same_server.
Proof. split; [done|]. unfold same_server. by intros c1 c2 c3 -> ->. Qed.

Abbreviation writes_only := (obeys same_server (λ _ _, True) (λ _, True)).

Ltac writes := obeys; by apply obeys_modify.

Lemma write_frame_only f : writes_only (write_frame f).
Proof. writes. Qed.
Hint Resolve write_frame_only : obeys.
Lemma enter_only phase : writes_only (enter phase).
Proof. by apply obeys_modify. Qed.
Hint Resolve enter_only : obeys.
Lemma first_frame_only frame : writes_only (on_first_frame version peer frame).
Proof. obeys. Qed.
Lemma next_frame_only frame : writes_only (next_frame frame).
Proof. obeys. Qed.
Lemma on_event_only e : writes_only (on_event peer e).
Proof. obeys. Qed.
Lemma written_only f : writes_only (written f (ret tt)).
Proof. obeys. Qed.

(** A request that is dispatched. *)
Lemma on_request_stays subscribed frame request c h :
  from_slice frame = Some request →
  let '(_, c', h') := on_request show_ip cfg others peer subscribed frame c h in
  rtc (idle_step others peer (rq_method request)) (cn_server c) (cn_server c') ∨
  allowed request c h h'.
Proof.
  intros Hreq. unfold on_request. rewrite Hreq. unfold bind at 1, enter, modify.
  unfold bind at 1, dispatch_on. cbn [cn_server cn_phase cn_sent].
  pose proof (dispatch_guarded show_ip cfg others peer request (cn_server c) h (cn_server c) h) as Hd.
  destruct Hd as [_ Hd]; [by split|].
  destruct (dispatch _ _ _ _ _ _ _) as [[r v] h1]. cbn [fst snd] in Hd.
  destruct (match r with Some _ => _ | None => _ end) as [response|]; [|exact Hd].
  set (c1 := mkConnection _ _ _). destruct (written_only (ResponseF response) c1 h1 I) as [Hsame Hgrow].
  destruct (written _ _ c1 h1) as [[u c2] h2]. cbn [fst snd] in Hsame, Hgrow.
  unfold same_server in Hsame. rewrite Hsame. destruct Hd as [Hd|(new & -> & action & Hen & Hin)]; [by left|right].
  apply traced_grown in Hgrow as [new' ->]. exists (new' ++ new). split; [by rewrite app_assoc|].
  exists action. split; [done|]. set_solver.
Qed.

(** What an arrival is: a request to dispatch, or nothing that touches the
    daemon. *)
Lemma arrival_cases a c h :
  (∃ m : M Connection unit, writes_only m ∧ arrive a c h = m c h) ∨
  ∃ subscribed frame request, cn_phase c = Serving subscribed ∧
    a = FrameArrives (Some (Ok (Some frame))) ∧ from_slice frame = Some request ∧
    arrive a c h = on_request show_ip cfg others peer subscribed frame c h.
Proof.
  assert (∀ frame k, (∀ bs, writes_only (k bs)) → writes_only (with_frame frame k)) as Hframe.
  { intros frame k Hk. apply obeys_bind; [apply next_frame_only|]. intros []; obeys. }
  assert (∀ frame k k', (∀ bs, frame ≠ Some (Ok (Some bs))) → with_frame frame k c h = with_frame frame k' c h) as Hnone.
  { intros [[[bs|]|err]|] k k' Hn; [by destruct (Hn bs)|done| |done]. unfold with_frame, next_frame.
    destruct (has_kind InvalidData err); [|done]. unfold try_bind, bind.
    by destruct (write_frame _ c h) as [[[[u|e]|] c'] h']. }
  unfold on_arrival, bind, get. destruct (cn_phase c) as [|sub|r] eqn:Hph; destruct a as [frame|e|];
    try (left; eexists; split; [|reflexivity]; first
      [apply obeys_ret|apply enter_only|apply Hframe, first_frame_only]).
  - destruct frame as [[[bs|]|err]|].
    2-4: left; eexists; (split; [|destruct sub; apply (Hnone _ _ (λ _, ret tt)); congruence]);
      apply Hframe; intros; apply obeys_ret.
    destruct (from_slice bs) as [request|] eqn:Hreq.
    + right. exists sub, bs, request. split_and!; [done..|]. by destruct sub.
    + left. exists (written (ResponseF (response_error 0 InvalidParams (txt "malformed request frame"))) (ret tt)).
      split; [apply written_only|]. unfold with_frame, next_frame, bind, ret, on_request. rewrite Hreq.
      by destruct sub.
  - left. destruct sub; eexists; (split; [|reflexivity]); [apply on_event_only|apply obeys_ret].
  - left. exists (ret tt). split; [apply obeys_ret|by destruct sub].
Qed.

Lemma arrival_stays a c h :
  ((∃ subscribed, cn_phase c = Serving subscribed) → greeted h) → stays_until_allowed a c h.
Proof.
  intros Hg. unfold stays_until_allowed.
  destruct (arrival_cases a c h) as [(m & Hm & ->)|(sub & frame & request & Hph & -> & Hreq & ->)].
  - destruct (Hm c h I) as [Hs _]. destruct (m c h) as [[r c'] h']. simpl in Hs.
    unfold same_server in Hs. destruct (asked a); [left|done]. by rewrite Hs.
  - cbn [asked]. rewrite Hreq. pose proof (on_request_stays sub frame request c h Hreq) as Hs.
    destruct (on_request _ _ _ _ _ _ c h) as [[r c'] h']. destruct Hs as [?|?]; [by left|right; eauto].
Qed.

Lemma served_prefix done c h :
  done `prefix_of` all → served_to done c h → so_far done c h.
Proof.
  intros Hpre Hto. pose proof (runs_arrivals done [] (mkConnection AwaitHello server []) h0) as Hrun.
  unfold runs in Hrun. unfold served_to, serve_connection in Hto. rewrite Hto in Hrun.
  by destruct Hrun as [_ Hs]; [|done|constructor|by split|].
Qed.

(** C6. Whatever arrives on a connection in whatever order, and whether or not
    the answer to a request comes in time. Nothing is changed before an
    accepted [hello] was answered and polkit granted this client the action
    that one of its requests needs, since that request came; and no arrival
    changes the daemon's state before that, but for what other connections do
    and what [wireguard.status] and [xray.serviceChecks] note. An event is
    written only after the client subscribed, and only one of its own user or
    that events were lost; and the answers carry the ids of the frames that
    came, in their order, one answer each. *)
Theorem connection_serves :
  let '(_, c', h') :=
    serve_connection show_ip cfg others version peer all (mkConnection AwaitHello server []) h0 in
  traced connection_guard h0 h' ∧
  (∀ done a c h, done ++ [a] `prefix_of` all → served_to done c h → stays_until_allowed a c h) ∧
  Forall may_tell (cn_sent c') ∧ answers c' `prefix_of` omap answered_id all.
Proof.
  pose proof (runs_arrivals all [] (mkConnection AwaitHello server []) h0) as Hrun.
  unfold runs, serve_connection in *. destruct (for_each _ _ _ _) as [[r c'] h'].
  destruct Hrun as [Ht Hr]; [done|done|constructor|by split|]. split; [done|]. split.
  - intros done a c h Hpre Hto. apply arrival_stays. intros [sub Hph].
    destruct (served_prefix done c h) as [_ Hs]; [etransitivity; [by eexists|exact Hpre]|exact Hto|].
    rewrite Hph in Hs. by destruct Hs.
  - destruct r; [|exact Hr]. eapply so_far_settled; [|exact Hr]. done.
Qed.

End connection.

(** ** The reader task *)

Lemma at_newline_concat b l r : at_newline b = Some (l, r) → length r < length b.
Proof.
  revert l. induction b as [|x b IH]; intros l; simpl; [done|]. destruct (Z.eqb x NEWLINE).
  - intros [= _ <-]. lia.
  - destruct (at_newline b) as [[l' r']|]; simpl; [|done]. intros [= _ <-]. specialize (IH l' eq_refl). lia.
Qed.

Lemma read_frame_consumes max line buffers frame rest :
  read_frame max line buffers = (Ok (Some frame), rest) →
  length (concat rest) < length (concat buffers).
Proof.
  revert line. induction buffers as [|b buffers IH]; intros line; [simpl; by case_match|].
  destruct b as [|x b]; [simpl; by case_match|]. cbn [read_frame].
  destruct (at_newline (x :: b)) as [[l r]|] eqn:Hat; (case_match; [done|]).
  - apply at_newline_concat in Hat. intros [= _ <-].
    destruct r; cbn [concat]; rewrite !length_app in *; simpl in *; lia.
  - intros Hr%IH. cbn [concat]. rewrite length_app. lia.
Qed.

(** The fuel of the reader task is enough: with more it reads the same. *)
Lemma read_frames_enough fuel buffers :
  length (concat buffers) < fuel → read_frames fuel buffers = reader_task buffers.
Proof.
  unfold reader_task. assert (∀ n m buffers, length (concat buffers) < n → length (concat buffers) < m →
    read_frames n buffers = read_frames m buffers) as Hsame.
  { clear. induction n as [|n IH]; intros [|m] buffers Hn Hm; [lia..|]. cbn [read_frames].
    destruct (read_frame _ _ _) as [[[frame|]|e] rest] eqn:Hr; [|done..]. f_equal.
    apply read_frame_consumes in Hr. apply IH; lia. }
  intros Hf. apply Hsame; lia.
Qed.

(** ** The end of a session *)

(** What happened to the tracker, the latest first: a client was accepted, or
    the watch looked at the time [now] and reported users. *)
Inductive watch_step : Type :=
| Tracked (peer : PeerIdentity)
| Reaped (now : Z) (fired : list Z).

(** The clients of a user accepted since it was last reported, the latest
    first. *)
Fixpoint session_peers (uid : Z) (steps : list watch_step) : list PeerIdentity :=
  match steps with
  | [] => []
  | Tracked peer :: steps =>
    if Z.eqb (pi_uid peer) uid && is_some (pi_pidfd peer)
    then peer :: session_peers uid steps else session_peers uid steps
  | Reaped _ fired :: steps => if vec_contains fired uid then [] else session_peers uid steps
  end.

(** No client of the user with a handle was accepted. *)
Definition untracked (uid : Z) (step : watch_step) : Prop :=
  match step with
  | Tracked peer => pi_uid peer ≠ uid ∨ pi_pidfd peer = None
  | Reaped _ _ => True
  end.

(** [ok] holds of the handles of the clients, except of a client that came
    while another of its process id was tracked. *)
Fixpoint covered (ok : Z * Z → Prop) (peers : list PeerIdentity) : Prop :=
  match peers with
  | [] => True
  | peer :: older =>
    (∀ fd, pi_pidfd peer = Some fd →
       ok (pi_pid peer, fd) ∨ ∃ other, other ∈ older ∧ pi_pid other = pi_pid peer) ∧
    covered ok older
  end.

Lemma covered_mono (ok ok' : Z * Z → Prop) peers :
  (∀ x, ok x → ok' x) → covered ok peers → covered ok' peers.
Proof.
  intros Hok. induction peers as [|peer older IH]; simpl; [done|]. intros [Hp Ho]. split; [|by apply IH].
  intros fd Hfd. destruct (Hp fd Hfd) as [?|?]; [left; by apply Hok|by right].
Qed.

(** The kernel said that the process of the handle is gone. *)
Definition gone (h : history) (x : Z * Z) : Prop := Ev (PidfdAlive (snd x)) false ∈ h.

Lemma gone_later h h' x : grown h h' → gone h x → gone h' x.
Proof. intros [new ->] Hg. unfold gone in *. set_solver. Qed.

Section sessions.
Context `{Env} `{RetainOrder}.

(** The runs of the tracker; calls of others come in between. *)
Inductive watched : list watch_step → ClientTracker → history → Prop :=
| watched_start h : watched [] ∅ h
| watched_calls steps m h new : watched steps m h → watched steps m (new ++ h)
| watched_track steps m h peer cancelled m' h' :
    watched steps m h → track peer m h = (Some cancelled, m', h') →
    watched (Tracked peer :: steps) m' h'
| watched_expired steps m h now fired m' h' :
    watched steps m h → now = answer _ Monotonic h →
    expired CLIENT_DEATH_GRACE m h = (Some fired, m', h') →
    watched (Reaped now fired :: steps) m' h'.

(** The user has been without a client since the watch looked at [t]. *)
Definition alone_since (uid t : Z) (steps : list watch_step) : Prop :=
  ∃ later fired earlier, steps = later ++ Reaped t fired :: earlier ∧ Forall (untracked uid) later.

Record tracks (steps : list watch_step) (m : ClientTracker) (h : history) : Prop := {
  tracks_dead uid e t : m !! uid = Some e → tc_dead_since e = Some t →
    tc_pidfds e = [] ∧ alone_since uid t steps;
  tracks_known uid e x : m !! uid = Some e → x ∈ tc_pidfds e →
    ∃ peer, peer ∈ session_peers uid steps ∧ pi_pid peer = fst x;
  tracks_peers uid :
    covered (λ x, gone h x ∨ ∃ e, m !! uid = Some e ∧ x ∈ tc_pidfds e) (session_peers uid steps);
}.

Lemma keep_alive_wp pidfds m h :
  wp (keep_alive pidfds) (λ kept m' h', m' = m ∧ grown h h' ∧ (∀ x, x ∈ kept → x ∈ pidfds) ∧
    ∀ x, x ∈ pidfds → x ∈ kept ∨ gone h' x) m h.
Proof.
  unfold keep_alive. eapply (wp_for_acc _ _ _ (λ l kept m' h', m' = m ∧ grown h h' ∧
    (∀ x, x ∈ kept → x ∈ pidfds) ∧ (∀ x, x ∈ l → x ∈ pidfds) ∧ ∀ x, x ∈ pidfds → x ∈ l ∨ x ∈ kept ∨ gone h' x)).
  - split_and!; [done..| |done|auto]. set_solver.
  - intros [pid fd] l kept m' h1 (-> & Hg & Hsub & Hl & Hall). wp_step. wp_step. wp_step.
    set (h2 := Ev _ _ :: h1). assert (grown h1 h2) as G2 by (by eexists [_]).
    split_and!; [done|by grow| |set_solver|].
    + destruct a; set_solver.
    + intros x Hx. destruct (Hall x Hx) as [[->|Hx']%elem_of_cons|[Hx'|Hx']].
      * destruct a; [set_solver|]. right. right. subst h2. apply list_elem_of_here.
      * by left.
      * right. left. destruct a; set_solver.
      * right. right. by eapply gone_later.
  - intros kept m' h1 (-> & Hg & Hsub & _ & Hall). split_and!; [done..|]. intros x Hx.
    destruct (Hall x Hx) as [Hx'|?]; [by apply elem_of_nil in Hx'|done].
Qed.

(** What a look at a user's entry leaves of it. *)
Definition looked (now : Z) (h : history) (e e' : TrackedClient) : Prop :=
  (∀ x, x ∈ tc_pidfds e → x ∈ tc_pidfds e' ∨ gone h x) ∧
  (∀ x, x ∈ tc_pidfds e' → x ∈ tc_pidfds e) ∧
  (tc_dead_since e' = tc_dead_since e ∨ (tc_pidfds e' = [] ∧ tc_dead_since e' = Some now)).

(** The user is reported: nothing alive, and alone for the grace period. *)
Definition overdue_since (now : Z) (h : history) (e : TrackedClient) : Prop :=
  (∀ x, x ∈ tc_pidfds e → gone h x) ∧
  ∃ t, tc_dead_since e = Some t ∧ (t + CLIENT_DEATH_GRACE ≤ now)%Z.

Lemma reap_client_wp now uid m h :
  wp (reap_client CLIENT_DEATH_GRACE now uid) (λ fired m' h', grown h h' ∧
    if fired : bool then ∃ e, m !! uid = Some e ∧ m' = delete uid m ∧ overdue_since now h' e
    else m' = m ∧ m !! uid = None ∨
      ∃ e e', m !! uid = Some e ∧ m' = <[uid := e']> m ∧ looked now h' e e') m h.
Proof.
  unfold reap_client. wp_step. wp_step. destruct (m !! uid) as [e|] eqn:He; [|wp_step; by split; [|left]].
  wp_step. eapply wp_mono; [|apply keep_alive_wp]. intros kept m' h1 (-> & Hg & Hsub & Hall).
  destruct kept as [|x kept].
  - assert (∀ x, x ∈ tc_pidfds e → gone h1 x) as Hgone.
    { intros x Hx. destruct (Hall x Hx) as [Hx'|?]; [by apply elem_of_nil in Hx'|done]. }
    destruct (Z.leb_spec CLIENT_DEATH_GRACE (Z.max 0 (now - unwrap_or (tc_dead_since e) now))) as [Hle|Hlt].
    + wp_steps. split; [done|]. exists e. split_and!; [done..|]. split; [done|].
      unfold CLIENT_DEATH_GRACE in *. destruct (tc_dead_since e) as [t|]; simpl in Hle; [|lia].
      exists t. split; [done|lia].
    + wp_steps. split; [done|]. right. exists e, (mkTracked [] (Some (unwrap_or (tc_dead_since e) now))).
      split_and!; [done..|]. split_and!; simpl; [by right; apply Hgone|by intros x ?%elem_of_nil|].
      destruct (tc_dead_since e) as [t|]; simpl; [by left|by right].
  - wp_steps. split; [done|]. right. eexists e, _. split_and!; [done..|].
    split_and!; simpl; [done|done|by left].
Qed.

Lemma looked_refl now h e : looked now h e e.
Proof. split_and!; [by left|done|by left]. Qed.

Lemma looked_trans now h1 h2 e1 e2 e3 :
  grown h1 h2 → looked now h1 e1 e2 → looked now h2 e2 e3 → looked now h2 e1 e3.
Proof.
  intros Hg (Ha & Hb & Hc) (Ha' & Hb' & Hc'). split_and!.
  - intros x Hx. destruct (Ha x Hx) as [Hx'|Hx']; [by apply Ha'|]. right. by eapply gone_later.
  - auto.
  - destruct Hc' as [Hc'|Hc']; [|by right]. rewrite Hc'. destruct Hc as [Hc|[Hp Hc]]; [by left|right].
    split; [|done]. destruct (tc_pidfds e3) as [|x l]; [done|]. specialize (Hb' x (list_elem_of_here _ _)).
    rewrite Hp in Hb'. by apply elem_of_nil in Hb'.
Qed.

(** After a look at every user. *)
Lemma expired_wp m h :
  wp (expired CLIENT_DEATH_GRACE) (λ fired m' h', grown (Ev Monotonic (answer _ Monotonic h) :: h) h' ∧
    (∀ uid, uid ∈ fired → m' !! uid = None ∧
       ∃ e, m !! uid = Some e ∧ overdue_since (answer _ Monotonic h) h' e) ∧
    (∀ uid, uid ∉ fired →
       (m !! uid = None ∧ m' !! uid = None) ∨
       ∃ e e', m !! uid = Some e ∧ m' !! uid = Some e' ∧ looked (answer _ Monotonic h) h' e e')) m h.
Proof.
  unfold expired. wp_step. unfold wp at 1, call. cbv zeta. set (now := answer _ Monotonic h).
  set (h1 := Ev Monotonic now :: h). change (wp (let! inner := get in
    for_acc (retain_order inner) [] (λ fired uid,
      let! gone := reap_client CLIENT_DEATH_GRACE now uid in
      ret (if gone : bool then fired ++ [uid] else fired))) (λ fired m' h', grown h1 h' ∧
    (∀ uid, uid ∈ fired → m' !! uid = None ∧ ∃ e, m !! uid = Some e ∧ overdue_since now h' e) ∧
    (∀ uid, uid ∉ fired → (m !! uid = None ∧ m' !! uid = None) ∨
       ∃ e e', m !! uid = Some e ∧ m' !! uid = Some e' ∧ looked now h' e e')) m h1).
  wp_step. wp_step. eapply (wp_for_acc _ _ _ (λ _ fired m' h', grown h1 h' ∧
    (∀ uid, uid ∈ fired → m' !! uid = None ∧ ∃ e, m !! uid = Some e ∧ overdue_since now h' e) ∧
    (∀ uid, uid ∉ fired → (m !! uid = None ∧ m' !! uid = None) ∨
       ∃ e e', m !! uid = Some e ∧ m' !! uid = Some e' ∧ looked now h' e e'))); [| |done].
  - split_and!; [done|by intros ? ?%elem_of_nil|]. intros uid _. destruct (m !! uid) as [e|]; [right|by left].
    exists e, e. split_and!; [done..|apply looked_refl].
  - intros uid l fired m' h2 (Hg & Hfired & Hrest). wp_step. eapply wp_mono; [|apply reap_client_wp].
    intros b m2 h3 [Hg3 Hb]. wp_step. split; [by grow|].
    assert (∀ e, overdue_since now h2 e → overdue_since now h3 e) as Hmono.
    { intros e [Hx Ht]. split; [|done]. intros x Hin. eapply gone_later; [exact Hg3|by apply Hx]. }
    assert (∀ e e', looked now h2 e e' → looked now h3 e e') as Hmono2.
    { intros e e' Hl. eapply looked_trans; [exact Hg3|exact Hl|apply looked_refl]. }
    destruct b.
    + destruct Hb as (e2 & He2 & -> & Hover).
      assert (uid ∉ fired) as Hnew. { intros [Hn _]%Hfired. congruence. }
      assert (∃ e, m !! uid = Some e ∧ overdue_since now h3 e) as He.
      { destruct (Hrest uid Hnew) as [[_ Hn]|(e & e' & He & He' & Hl)]; [congruence|].
        rewrite He2 in He'. injection He' as <-. exists e. split; [done|].
        destruct Hover as [Hgone (t & Ht & Hle)]. destruct (Hmono2 _ _ Hl) as (Ha & _ & Hc). split.
        - intros x Hx. destruct (Ha x Hx) as [Hx'|?]; [by apply Hgone|done].
        - exists t. split; [|done]. destruct Hc as [Hc|[_ Hc]]; [congruence|].
          unfold CLIENT_DEATH_GRACE in Hle. assert (t = now) by congruence. lia. }
      unfold ClientTracker in *. split; intros uid' Hin.
      * apply elem_of_app in Hin as [Hin| ->%list_elem_of_singleton].
        -- destruct (Hfired uid' Hin) as [Hn (e & ? & ?)]. split; [|by exists e; auto].
           rewrite lookup_delete_ne; [done|]. intros ->. done.
        -- by rewrite lookup_delete_eq.
      * apply not_elem_of_app in Hin as [Hin Hne]. rewrite lookup_delete_ne by set_solver.
        destruct (Hrest uid' Hin) as [?|(e & e' & ? & ? & ?)]; [by left|right]. exists e, e'. auto.
    + unfold ClientTracker in *. split.
      * intros uid' Hin. destruct (Hfired uid' Hin) as [Hn (e & ? & ?)]. split; [|by exists e; auto].
        destruct Hb as [[-> _]|(e1 & e2 & He1 & -> & _)]; [done|].
        rewrite lookup_insert_ne; [done|]. intros ->. congruence.
      * intros uid' Hin. destruct Hb as [[-> _]|(e1 & e2 & He1 & -> & Hl)].
        { destruct (Hrest uid' Hin) as [?|(e & e' & ? & ? & ?)]; [by left|right]. exists e, e'. auto. }
        destruct (decide (uid = uid')) as [->|Hne].
        -- rewrite lookup_insert_eq. destruct (Hrest uid' Hin) as [[_ Hn]|(e & e' & He & He' & Hl')]; [congruence|].
           right. exists e, e2. split_and!; [done..|]. rewrite He1 in He'. injection He' as <-. by eapply looked_trans.
        -- rewrite lookup_insert_ne by done.
           destruct (Hrest uid' Hin) as [?|(e & e' & ? & ? & ?)]; [by left|right]. exists e, e'. auto.
Qed.

Lemma track_tracks steps m h peer cancelled m' h' :
  tracks steps m h → track peer m h = (Some cancelled, m', h') → tracks (Tracked peer :: steps) m' h'.
Proof.
  intros [Hdead Hknown Hpeers]. unfold track. destruct (pi_pidfd peer) as [fd|] eqn:Hfd.
  2: { intros [= <- <- <-]. split.
    - intros uid e t He Ht. destruct (Hdead uid e t He Ht) as (Hp & later & fired & earlier & -> & Hl).
      split; [done|]. exists (Tracked peer :: later), fired, earlier. split; [done|]. constructor; [by right|done].
    - intros uid e x He Hx. simpl. rewrite Hfd, andb_false_r. by eapply Hknown.
    - intros uid. simpl. rewrite Hfd, andb_false_r. apply Hpeers. }
  unfold ClientTracker in *. unfold bind, get, put, ret. intros [= _ <- <-].
  set (e0 := unwrap_or (m !! pi_uid peer) (mkTracked [] None)).
  assert (∀ uid x, (∃ e, m !! uid = Some e ∧ x ∈ tc_pidfds e) →
    ∃ e, <[pi_uid peer := mkTracked (if existsb (λ '(pid, _), Z.eqb pid (pi_pid peer)) (tc_pidfds e0)
      then tc_pidfds e0 else tc_pidfds e0 ++ [(pi_pid peer, fd)]) None]> m !! uid = Some e ∧ x ∈ tc_pidfds e) as Hkeep.
  { intros uid x (e & He & Hx). destruct (decide (pi_uid peer = uid)) as [<-|Hne].
    - rewrite lookup_insert_eq. eexists. split; [done|]. simpl. subst e0. rewrite He. simpl. case_match; set_solver.
    - rewrite lookup_insert_ne by done. by exists e. }
  split; unfold ClientTracker in *.
  - intros uid e t. destruct (decide (pi_uid peer = uid)) as [<-|Hne].
    { rewrite lookup_insert_eq. by intros [= <-]. }
    rewrite lookup_insert_ne by done. intros He Ht.
    destruct (Hdead uid e t He Ht) as (Hp & later & fired & earlier & -> & Hl).
    split; [done|]. exists (Tracked peer :: later), fired, earlier. split; [done|]. constructor; [by left|done].
  - intros uid e x. simpl. rewrite Hfd, andb_true_r. destruct (Z.eqb_spec (pi_uid peer) uid) as [<-|Hne].
    2: { rewrite lookup_insert_ne by done. apply Hknown. }
    rewrite lookup_insert_eq. intros [= <-]. simpl. intros Hx.
    assert (x ∈ tc_pidfds e0 ∨ x = (pi_pid peer, fd)) as [Hx'| ->] by (case_match; set_solver).
    2: { exists peer. split; [set_solver|done]. }
    subst e0. destruct (m !! pi_uid peer) as [e|] eqn:He; simpl in Hx'; [|by apply elem_of_nil in Hx'].
    destruct (Hknown _ _ _ He Hx') as (p & Hp & Hpid). exists p. split; [set_solver|done].
  - intros uid. simpl. rewrite Hfd, andb_true_r. destruct (Z.eqb_spec (pi_uid peer) uid) as [<-|Hne].
    2: { eapply covered_mono; [|apply Hpeers]. intros x [?|?]; [by left|right; by apply Hkeep]. }
    split; [|eapply covered_mono; [|apply Hpeers]; intros x [?|?]; [by left|right; by apply Hkeep]].
    intros fd' Hfd'. rewrite Hfd in Hfd'. injection Hfd' as <-. destruct (existsb _ (tc_pidfds e0)) eqn:Hex.
    + right. apply existsb_exists in Hex as ([pid fd2] & Hin & Hpid%Z.eqb_eq). apply list_elem_of_In in Hin.
      subst e0. destruct (m !! pi_uid peer) as [e|] eqn:He; simpl in Hin; [|by apply elem_of_nil in Hin].
      destruct (Hknown _ _ _ He Hin) as (p & Hp & Hpid'). exists p. split; [done|]. simpl in Hpid'. congruence.
    + left. right. rewrite lookup_insert_eq. eexists. split; [done|]. simpl. set_solver.
Qed.

Lemma expired_tracks steps m h fired m' h' :
  tracks steps m h → expired CLIENT_DEATH_GRACE m h = (Some fired, m', h') →
  tracks (Reaped (answer _ Monotonic h) fired :: steps) m' h'.
Proof.
  intros [Hdead Hknown Hpeers] Hrun. pose proof (expired_wp m h) as Hw. unfold wp in Hw. rewrite Hrun in Hw.
  destruct Hw as (Hg & Hfired & Hrest). assert (grown h h') as Gh by (etransitivity; [by eexists [_]|exact Hg]).
  assert (∀ uid e', m' !! uid = Some e' → uid ∉ fired ∧ ∃ e, m !! uid = Some e ∧ looked (answer _ Monotonic h) h' e e') as Hback.
  { intros uid e' He'. assert (uid ∉ fired) as Hni by (intros [Hn _]%Hfired; congruence). split; [done|].
    destruct (Hrest uid Hni) as [[_ Hn]|(e & e2 & He & He2 & Hl)]; [congruence|]. exists e.
    rewrite He' in He2. by injection He2 as <-. }
  assert (∀ uid, uid ∉ fired → vec_contains fired uid = false) as Hvec.
  { intros uid Hni. unfold vec_contains. by apply bool_decide_eq_false. }
  split.
  - intros uid e' t He' Ht. destruct (Hback uid e' He') as (Hni & e & He & (Ha & Hb & Hc)).
    destruct Hc as [Hc|[Hp Hc]].
    + rewrite Ht in Hc. destruct (Hdead uid e t He (eq_sym Hc)) as (Hp & later & f & earlier & -> & Hl). split.
      * destruct (tc_pidfds e') as [|x l]; [done|]. specialize (Hb x (list_elem_of_here _ _)).
        rewrite Hp in Hb. by apply elem_of_nil in Hb.
      * exists (Reaped (answer _ Monotonic h) fired :: later), f, earlier. split; [done|]. by constructor.
    + split; [done|]. rewrite Ht in Hc. injection Hc as ->. by exists [], fired, steps.
  - intros uid e' x He' Hx. destruct (Hback uid e' He') as (Hni & e & He & (_ & Hb & _)). simpl.
    rewrite Hvec by done. by eapply Hknown; [|apply Hb].
  - intros uid. simpl. destruct (vec_contains fired uid) eqn:Hv; [done|]. apply bool_decide_eq_false in Hv.
    eapply covered_mono; [|apply Hpeers]. intros x [Hx|(e & He & Hx)]; [left; by eapply gone_later|].
    destruct (Hrest uid Hv) as [[Hn _]|(e1 & e2 & He1 & He2 & (Ha & _ & _))]; [congruence|].
    rewrite He in He1. injection He1 as <-. destruct (Ha x Hx) as [?|?]; [right; by exists e2|by left].
Qed.

Lemma watched_tracks steps m h : watched steps m h → tracks steps m h.
Proof.
  induction 1 as [h|steps m h new Hw [Hd Hk Hp]|steps m h peer cancelled m' h' Hw IH Hrun
    |steps m h now fired m' h' Hw IH -> Hrun].
  - split; [by intros ? ? ? ?%lookup_empty_Some..|done].
  - split; [done..|]. intros uid. eapply covered_mono; [|apply Hp]. intros x [Hx|?]; [|by right].
    left. eapply gone_later; [|exact Hx]. by exists new.
  - by eapply track_tracks.
  - eapply expired_tracks; [exact IH|exact Hrun].
Qed.

(** C37. When the watch ends a user's session, an earlier look had found the
    user without a client, the grace period has passed since, no client was
    accepted in between, and the kernel has reported every process accepted
    for the session gone, but for one accepted under a process id that was
    still tracked. The user is reported once. *)
Theorem session_ends_after_grace (steps : list watch_step) (m : ClientTracker) (h : history)
    (Hrun : watched steps m h) :
  wp (expired CLIENT_DEATH_GRACE) (λ fired m' h', ∀ uid, uid ∈ fired →
    m' !! uid = None ∧ ∃ now t, Ev Monotonic now ∈ h' ∧ (t + CLIENT_DEATH_GRACE ≤ now)%Z ∧
      alone_since uid t steps ∧ covered (gone h') (session_peers uid steps)) m h.
Proof.
  destruct (watched_tracks _ _ _ Hrun) as [Hdead Hknown Hpeers].
  eapply wp_mono; [|apply expired_wp]. intros fired m' h' (Hg & Hfired & _) uid Hin.
  destruct (Hfired uid Hin) as (Hnone & e & He & Hgone & t & Ht & Hle). split; [done|].
  exists (answer _ Monotonic h), t. split_and!; [|done| |].
  - destruct Hg as [new ->]. set_solver.
  - by destruct (Hdead uid e t He Ht).
  - eapply covered_mono; [|apply Hpeers]. intros x [Hx|(e' & He' & Hx)].
    + eapply gone_later; [|exact Hx]. etransitivity; [by eexists [_]|exact Hg].
    + rewrite He in He'. injection He' as <-. by apply Hgone.
Qed.

End sessions.

(** ** Runs of the watch *)

#[local] Instance demo_retain : RetainOrder := {|
  retain_order m := (map_to_list m).*1;
  retain_order_perm m := reflexivity _;
|}.

Fixpoint clock_reads (h : history) : Z :=
  match h with
  | [] => 0
  | Ev Monotonic _ :: h => 1 + clock_reads h
  | _ :: h => clock_reads h
  end.

(** Forty seconds from one look to the next; only the process behind the
    handle 9 lives. *)
#[local] Instance demo_world : Env := λ A c h,
  match c in ext A return A → A with
  | Monotonic => λ _, (40000 * clock_reads h)%Z
  | PidfdAlive fd => λ _, Z.eqb fd 9
  | _ => λ a, a
  end (failing_answer c).

Definition demo_client (fd : Z) : PeerIdentity := mkPeer 1000 42 None (Some fd).
Definition run_state {S A} (r : option A * S * history) : S * history := (r.1.2, r.2).

Definition accepted : ClientTracker * history := run_state (track (demo_client 7) ∅ []).
Definition watched_once : ClientTracker * history :=
  run_state (expired CLIENT_DEATH_GRACE accepted.1 accepted.2).

Lemma demo_watched : watched [Reaped 0 []; Tracked (demo_client 7)] watched_once.1 watched_once.2.
Proof.
  apply (watched_expired _ accepted.1 accepted.2 0 []); [|reflexivity|vm_compute; reflexivity].
  apply (watched_track [] ∅ [] (demo_client 7) false); [apply watched_start|vm_compute; reflexivity].
Defined.

Lemma session_ends_after_grace_witness :
  ∃ now t, (t + CLIENT_DEATH_GRACE ≤ now)%Z ∧ alone_since 1000 t [Reaped 0 []; Tracked (demo_client 7)].
Proof.
  pose proof (session_ends_after_grace _ _ _ demo_watched) as Hw. unfold wp in Hw.
  destruct (expired CLIENT_DEATH_GRACE watched_once.1 watched_once.2) as [[fired m'] h'] eqn:Hrun.
  assert (fired = Some [1000%Z]) as ->.
  { change fired with ((fired, m', h').1.1). rewrite <- Hrun. vm_compute. reflexivity. }
  destruct (Hw 1000%Z (list_elem_of_here _ _)) as (_ & now & t & _ & Hle & Halone & _).
  by exists now, t.
Defined.

(** A process id used again before the watch looked: the client that lives is
    not tracked, and its user is reported. *)
Definition recycled : ClientTracker * history :=
  let '(m, h) := run_state (track (demo_client 9) accepted.1 accepted.2) in
  run_state (expired CLIENT_DEATH_GRACE m h).

Example recycled_pid_reported :
  (expired CLIENT_DEATH_GRACE recycled.1 recycled.2).1.1 = Some [1000%Z] ∧
  answer _ (PidfdAlive 9) recycled.2 = true.
Proof. split; vm_compute; reflexivity. Qed.

(** When the always-on store cannot be read the watch keeps no owner. *)
Example unreadable_store_keeps_none `{JsonCodec AlwaysOnDocument} (server : Server) :
  (kept_owners (Some ["/"%string]) (mkSession ∅ server) []).1.1 = Some ∅.
Proof. reflexivity. Qed.
