(* ===== verification/SafetyTeardown.v ===== *)
(** * Teardown never forgets a live artifact

    The invariant [Inv] of the crash-safety argument, and the proof that
    every teardown keeps it: an entry loses a resource only once the
    artifact is gone. *)

From S2P Require Export Kernel.

(** The in-memory journal is well formed and accounts for everything live. *)
Definition accounts (es : list JournalEntry) (h : history) : Prop :=
  wf_entries es ∧ ∀ a, live h a → covered es a.

Definition Inv (s : DaemonCore) (h : history) : Prop :=
  crash_safe h ∧ accounts (entries s) h.

(** The disk holds the in-memory journal. *)
Definition synced (s : DaemonCore) (h : history) : Prop := disk h = [dc_journal s].

(** From [h] to [h'] nothing was created and the journal file was not
    touched. *)
Definition calm (h h' : history) : Prop :=
  (crash_safe h → crash_safe h') ∧ (∀ a, live h' a → live h a) ∧ disk h' = disk h.

(** From [h] to [h'] nothing came to be live. *)
Definition shrinks (h h' : history) : Prop := ∀ a, live h' a → live h a.

(** The resources of one entry account for an artifact. *)
Definition res_covered (rs : list OwnedResource) (a : artifact) : Prop :=
  ∃ r, r ∈ rs ∧ covers r a.

(** Outcome of a teardown of entry [index]: gone, or kept with the same
    owner. *)
Definition teardown_post (s : DaemonCore) (index : nat) (h : history)
    (r : io_result unit) (s' : DaemonCore) (h' : history) : Prop :=
  Inv s' h' ∧ shrinks h h' ∧ dc_wired s' = dc_wired s ∧
  match r with
  | Ok _ => entries s' = delete index (entries s)
  | Err _ => ∃ e e', entries s !! index = Some e ∧ entry_key e' = entry_key e ∧
      entries s' = <[index := e']> (entries s)
  end.

(** ** Calm histories *)

Lemma calm_refl h : calm h h.
Proof. done. Qed.

Lemma calm_trans h1 h2 h3 : calm h1 h2 → calm h2 h3 → calm h1 h3.
Proof.
  intros (S1 & L1 & D1) (S2 & L2 & D2). split_and!; [auto| |congruence].
  intros a Ha. by apply L1, L2.
Qed.

Lemma calm_shrinks h h' : calm h h' → shrinks h h'.
Proof. by intros (_ & ? & _). Qed.

Lemma shrinks_trans h1 h2 h3 : shrinks h1 h2 → shrinks h2 h3 → shrinks h1 h3.
Proof. intros H1 H2 a Ha. by apply H1, H2. Qed.

Lemma calm_quiet e h : quiet e → calm h (e :: h).
Proof.
  intros Hq. split_and!; [by apply crash_safe_quiet| |by destruct Hq].
  intros a Ha. by destruct (live_quiet _ _ _ Hq Ha).
Qed.

Lemma calm_quiet_trans e h h' : quiet e → calm h h' → calm h (e :: h').
Proof. intros Hq Hc. eapply calm_trans; [exact Hc|by apply calm_quiet]. Qed.

Create HintDb calm discriminated.
#[export] Hint Resolve calm_refl calm_quiet calm_quiet_trans calm_shrinks : calm.

(** Calls that only look, and removals, are quiet. *)
Ltac solve_quiet :=
  match goal with
  | |- quiet (Ev _ _) =>
    split; [let a := fresh in intros a; simpl; try (intros []); intuition congruence|done]
  end.
#[export] Hint Extern 1 (quiet _) => solve_quiet : calm.

Lemma accounts_calm es h h' : calm h h' → accounts es h → accounts es h'.
Proof. intros (_ & Hl & _) [Hwf Hc]. split; [done|]. intros a Ha. by apply Hc, Hl. Qed.

Lemma Inv_calm s h h' : calm h h' → Inv s h → Inv s h'.
Proof.
  intros Hc [Hs Ha]. split; [by apply Hc|]. by eapply accounts_calm.
Qed.

Lemma synced_calm s h h' : calm h h' → synced s h → synced s h'.
Proof. intros (_ & _ & Hd). unfold synced. by rewrite Hd. Qed.

(** ** Entry lists *)

Lemma delete_insert_same {A} (l : list A) i x : i < length l → delete i (<[i := x]> l) = delete i l.
Proof.
  revert i. induction l as [|y l IH]; intros [|i] Hi; simpl in *; try lia; [done|].
  f_equal. apply IH. lia.
Qed.

Lemma covered_perm es es' a : es ≡ₚ es' → covered es a → covered es' a.
Proof.
  intros Hp (e & r & He & Hr). exists e, r. by rewrite <- Hp.
Qed.

Lemma covered_split es i e a :
  es !! i = Some e → covered es a ↔ res_covered (je_resources e) a ∨ covered (delete i es) a.
Proof.
  intros Hi. pose proof (delete_Permutation _ _ _ Hi) as Hp. split.
  - intros (e' & r & He' & Hr). rewrite Hp in He'.
    apply elem_of_cons in He' as [->|He']; [left; by exists r|right; by exists e', r].
  - intros [(r & Hr)|Hc].
    + exists e, r. split; [by eapply list_elem_of_lookup_2|done].
    + eapply covered_perm; [by symmetry|]. destruct Hc as (e' & r & He' & Hr).
      exists e', r. split; [by right|done].
Qed.

Lemma covered_insert es i e' a :
  i < length es →
  covered (<[i := e']> es) a ↔ res_covered (je_resources e') a ∨ covered (delete i es) a.
Proof.
  intros Hi. rewrite (covered_split _ i e') by (by apply list_lookup_insert_eq).
  by rewrite delete_insert_same.
Qed.

Lemma wf_delete es i : wf_entries es → wf_entries (delete i es).
Proof.
  intros [Hall Hnd]. split.
  - by apply Forall_delete.
  - eapply sublist_NoDup; [exact Hnd|]. apply fmap_sublist, sublist_delete.
Qed.

Lemma wf_insert es i e e' :
  es !! i = Some e → wf_entry e' → entry_key e' = entry_key e →
  wf_entries es → wf_entries (<[i := e']> es).
Proof.
  intros Hi He' Hkey [Hall Hnd]. split; [by apply Forall_insert|].
  rewrite list_fmap_insert, Hkey.
  rewrite list_insert_id; [done|]. by rewrite list_lookup_fmap, Hi.
Qed.

Lemma wf_entry_lookup es i e : wf_entries es → es !! i = Some e → wf_entry e.
Proof. intros [Hall _] Hi. by eapply Forall_lookup_1. Qed.

(** A sub-list of the resources keeps an entry generic. *)
Lemma wf_generic_sub e st rs :
  wf_entry e → starts_with (je_owner e) "wg:" = false → openvpn_owner (je_owner e) = false →
  (∀ r, r ∈ rs → r ∈ je_resources e) →
  wf_entry (mkEntry (je_uid e) (je_owner e) st rs).
Proof.
  intros [Ho Hr] Hwg Hov Hsub. split; [done|]. simpl. rewrite Hwg, Hov in *.
  apply Forall_forall. intros r Hin. rewrite Forall_forall in Hr. by apply Hr, Hsub.
Qed.

Lemma wf_with_state e st : wf_entry e → wf_entry (with_state st e).
Proof. done. Qed.

(** ** Access to the journal *)

Section access_rules.
Context `{Env}.

Lemma wp_entry_at index e (Q : JournalEntry → DaemonCore → history → Prop) s h :
  entries s !! index = Some e → Q e s h → wp (entry_at index) Q s h.
Proof. intros He HQ. unfold entry_at. wp_steps. rewrite He. by apply wp_ret. Qed.

Lemma wp_update_entry index e f (Q : unit → DaemonCore → history → Prop) s h :
  entries s !! index = Some e →
  Q tt (set_entries (λ es, <[index := f e]> es) s) h → wp (update_entry index f) Q s h.
Proof.
  intros He HQ. unfold update_entry. apply wp_bind. eapply wp_entry_at; [done|].
  by apply wp_modify.
Qed.

Lemma wp_remove_entry index e (Q : unit → DaemonCore → history → Prop) s h :
  entries s !! index = Some e →
  Q tt (set_entries (delete index) s) h → wp (remove_entry index) Q s h.
Proof.
  intros He HQ. unfold remove_entry. apply wp_bind. eapply wp_entry_at; [done|].
  by apply wp_modify.
Qed.

Lemma wp_with_policy {A} (f : M DaemonCore (io_result A)) Q s h :
  (ex_policy (dc_wired s) = true → wp f Q s h) →
  (ex_policy (dc_wired s) = false → Q (Err policy_unavailable) s h) →
  wp (with_policy f) Q s h.
Proof.
  intros H1 H2. unfold with_policy. wp_steps.
  destruct (ex_policy (dc_wired s)); [by apply H1|]. wp_steps. by apply H2.
Qed.

(** Saving keeps the invariant, and a success synchronises the disk. *)
Lemma wp_store_save_journal (Q : io_result unit → DaemonCore → history → Prop) s h :
  Inv s h →
  (∀ r h', Inv s h' → (∀ a, live h' a → live h a) → (is_ok r = true → synced s h') → Q r s h') →
  wp store_save_journal Q s h.
Proof.
  intros [Hs [Hwf Hc]] HQ. unfold store_save_journal. wp_steps.
  assert (∀ a0, live (Ev (StoreSave (dc_journal s)) a :: h) a0 → live h a0) as Hl
    by (intros a0 [[]|[? _]]; done).
  apply HQ.
  - split; [by apply crash_safe_save|]. split; [done|]. intros a0 Ha0. by apply Hc, Hl.
  - done.
  - intros Hok. unfold synced. simpl. by rewrite Hok.
Qed.

Lemma wp_persist (Q : unit → DaemonCore → history → Prop) s h :
  Inv s h → (∀ h', Inv s h' → (∀ a, live h' a → live h a) → Q tt s h') → wp persist Q s h.
Proof.
  intros HI HQ. unfold persist. apply wp_bind. apply wp_store_save_journal; [done|].
  intros r h' HI' Hl _. apply wp_ret. by apply HQ.
Qed.
End access_rules.

(** ** Generic owners *)

Section generic.
Context `{Env}.

(** Released without error: nothing the resource covers is live. *)
Definition released (r : OwnedResource) (result : io_result unit) (h' : history) : Prop :=
  is_ok result = true → ∀ a, covers r a → ¬ live h' a.

Lemma ok_if_spec k r : is_ok (ok_if k r) = true →
  match r with Ok _ => True | Err e => ekind e = k end.
Proof.
  destruct r as [|e]; simpl; [done|]. unfold has_kind. by case_bool_decide.
Qed.

Lemma wp_release_resource r s h :
  generic_resource r →
  wp (release_resource r) (λ res s' h', s' = s ∧ calm h h' ∧ released r res h') s h.
Proof.
  intros Hg. unfold release_resource, released.
  destruct r; simpl in Hg; try done; wp_steps.
  - split_and!; [done|eauto with calm|]. intros Hok%ok_if_spec a0 Hc.
    apply not_live_ended; [eauto with calm|done].
  - split_and!; [done|eauto with calm|]. intros Hok%ok_if_spec a0 Hc.
    apply not_live_ended; [eauto with calm|done].
  - apply wp_with_policy; intros _; wp_steps.
    + split_and!; [done|eauto with calm|]. intros Hok%ok_if_spec a0 Hc.
      apply not_live_ended; [eauto with calm|done].
    + split_and!; [done|eauto with calm|done].
  - split_and!; [done|eauto with calm|]. intros Hok%ok_if_spec a0 Hc.
    apply not_live_ended; [eauto with calm|done].
  - apply wp_with_policy; intros _; wp_steps.
    + split_and!; [done|eauto with calm|]. intros Hok%ok_if_spec a0 Hc.
      apply not_live_ended; [eauto with calm|done].
    + split_and!; [done|eauto with calm|done].
Qed.

(** What a loop that releases [rs] leaves in [failed]. *)
Definition all_released (rs failed : list OwnedResource) (h' : history) : Prop :=
  (∀ r, r ∈ failed → r ∈ rs) ∧
  ∀ r a, r ∈ rs → covers r a → live h' a → res_covered failed a.

Lemma all_released_nil rs failed h' :
  all_released rs failed h' → ∀ a, res_covered rs a → live h' a → res_covered failed a.
Proof. intros [_ Hr] a (r & Hin & Hc). by apply (Hr r). Qed.

Lemma wp_release_resources rs s h :
  Forall generic_resource rs →
  wp (release_resources rs) (λ failed s' h', s' = s ∧ calm h h' ∧ all_released rs failed h') s h.
Proof.
  intros Hg. unfold release_resources.
  apply wp_for_acc with (I := λ todo failed s' h', s' = s ∧ calm h h' ∧
    (∀ r, r ∈ todo → r ∈ rs) ∧ (∀ r, r ∈ failed → r ∈ rs) ∧
    ∀ r a, r ∈ rs → covers r a → live h' a → r ∈ todo ∨ res_covered failed a).
  - split_and!; try done; [by intros r ?%elem_of_nil|]. by left.
  - intros r todo failed s' h' (-> & Hcalm & Htodo & Hfailed & Hcov).
    rewrite Forall_forall in Hg.
    apply wp_bind. eapply wp_mono; [|apply wp_release_resource, Hg, Htodo, list_elem_of_here].
    intros res s' h'' (-> & Hcalm' & Hrel). apply wp_ret.
    split_and!; [done|by eapply calm_trans| | |].
    + intros r' Hr'. apply Htodo. by right.
    + destruct res; [done|]. intros r' [Hr'| ->%list_elem_of_singleton]%elem_of_app; [auto|].
      apply Htodo, list_elem_of_here.
    + intros r' a Hr' Hc Ha.
      destruct (Hcov r' a Hr' Hc) as [Hin|(q & Hq & Hqc)]; [by apply Hcalm'| |].
      * apply elem_of_cons in Hin as [->|Hin]; [|by left].
        destruct res as [|e]; [by destruct (Hrel eq_refl a Hc)|]. right.
        exists r. split; [|done]. apply elem_of_app. right. apply list_elem_of_here.
      * right. exists q. split; [|done]. destruct res; [done|]. apply elem_of_app. by left.
  - intros failed s' h' (-> & Hcalm & _ & Hfailed & Hcov). split_and!; try done.
    split; [done|]. intros r a Hr Hc Ha.
    destruct (Hcov r a Hr Hc Ha) as [Hin|]; [by apply elem_of_nil in Hin|done].
Qed.

(** The last step of a teardown: drop the entry, or keep what failed. *)
Lemma teardown_drop s index e h h' :
  entries s !! index = Some e → Inv s h → calm h h' →
  (∀ a, res_covered (je_resources e) a → ¬ live h' a) →
  teardown_post s index h (Ok tt) (set_entries (delete index) s) h'.
Proof.
  intros He [Hs [Hwf Hc]] Hcalm Hdead.
  split_and!; [|by apply calm_shrinks|by destruct s|apply entries_set].
  split; [by apply Hcalm|]. rewrite entries_set. split; [by apply wf_delete|].
  intros a Ha. assert (covered (entries s) a) as Hcov by by apply Hc, Hcalm.
  apply (covered_split _ index e a He) in Hcov as [Hr|]; [|done]. by destruct (Hdead a Hr).
Qed.

Lemma teardown_keep s index e e' err h h' :
  entries s !! index = Some e → Inv s h → calm h h' → wf_entry e' →
  entry_key e' = entry_key e →
  (∀ a, res_covered (je_resources e) a → live h' a → res_covered (je_resources e') a) →
  teardown_post s index h (Err err) (set_entries (λ es, <[index := e']> es) s) h'.
Proof.
  intros He [Hs [Hwf Hc]] Hcalm Hwf' Hkey Hkeep.
  split_and!; [|by apply calm_shrinks|by destruct s|].
  - split; [by apply Hcalm|]. rewrite entries_set. split; [by eapply wf_insert|].
    intros a Ha. assert (covered (entries s) a) as Hcov by by apply Hc, Hcalm.
    apply (covered_split _ index e a He) in Hcov.
    apply covered_insert; [by eapply lookup_lt_Some|]. destruct Hcov as [Hr|]; [left|by right].
    by apply Hkeep.
  - exists e, e'. by rewrite entries_set.
Qed.

(** A teardown that stops early changes at most the state. *)
Lemma teardown_same s index e err h h' :
  entries s !! index = Some e → Inv s h → calm h h' →
  teardown_post s index h (Err err) s h'.
Proof.
  intros He HI Hcalm. split_and!; [by eapply Inv_calm|by apply calm_shrinks|done|].
  exists e, e. by rewrite list_insert_id.
Qed.

Lemma wp_mark_stale_fail index e err s h0 h :
  entries s !! index = Some e → Inv s h0 → calm h0 h →
  wp (mark_stale index ;;; fail (A := unit) err) (teardown_post s index h0) s h.
Proof.
  intros He HI Hcalm. apply wp_bind. eapply wp_update_entry; [done|]. wp_steps.
  eapply teardown_keep; try done. destruct HI as [_ [Hwf _]].
  apply wf_with_state. by eapply wf_entry_lookup.
Qed.

Lemma wp_teardown_generic index e s h :
  entries s !! index = Some e → Inv s h → starts_with (je_owner e) "wg:" = false →
  openvpn_owner (je_owner e) = false →
  wp (teardown_generic index) (teardown_post s index h) s h.
Proof.
  intros He HI Hwg Hov. unfold teardown_generic. apply wp_bind. eapply wp_entry_at; [done|].
  assert (wf_entry e) as Hwfe by (destruct HI as [_ [Hwf _]]; by eapply wf_entry_lookup).
  apply wp_bind. eapply wp_mono; [|apply wp_release_resources].
  - intros failed s' h' (-> & Hcalm & [Hsub Hrel]).
    assert (∀ a, res_covered (je_resources e) a → live h' a → res_covered (rev failed) a) as Hkeep.
    { intros a (r & Hr & Hc) Ha.
      destruct (Hrel r a) as (q & Hq & Hqc); [by apply elem_of_rev|done|done|].
      exists q. split; [by apply elem_of_rev|done]. }
    destruct failed as [|r failed]; apply wp_bind.
    + eapply wp_remove_entry; [done|]. wp_steps. eapply teardown_drop; [done..|].
      intros a Hr Ha. destruct (Hkeep a Hr Ha) as (q & Hq & _). by apply elem_of_nil in Hq.
    + eapply wp_update_entry; [done|]. wp_steps. eapply teardown_keep; try done.
      apply wf_generic_sub; [done..|]. intros q Hq.
      rewrite elem_of_rev in Hq. apply Hsub in Hq. by rewrite elem_of_rev in Hq.
  - destruct Hwfe as [_ Hr]. rewrite Hwg, Hov in Hr. apply Forall_forall. intros r Hin.
    rewrite Forall_forall in Hr. apply Hr. by rewrite elem_of_rev in Hin.
Qed.
End generic.

(** ** WireGuard owners *)

Section wireguard.
Context `{Env}.

(** Only the entries and the executors matter to the outcome. *)
Lemma teardown_post_state s1 s index h r s' h' :
  entries s1 = entries s → dc_wired s1 = dc_wired s →
  teardown_post s1 index h r s' h' → teardown_post s index h r s' h'.
Proof. unfold teardown_post. by intros -> ->. Qed.

Lemma Inv_state s1 s h : entries s1 = entries s → Inv s h → Inv s1 h.
Proof. unfold Inv. by intros ->. Qed.

Lemma removed_spec (r : io_result unit) : removed r = true → gone r.
Proof. destruct r as [|e]; simpl; [done|]. unfold has_kind. by case_bool_decide. Qed.

(** Nothing of the interface is live. *)
Definition dead_interface (index : Z) (h : history) : Prop :=
  ∀ a, on_interface index a → ¬ live h a.

Lemma dead_interface_calm index h h' : calm h h' → dead_interface index h → dead_interface index h'.
Proof. intros (_ & Hl & _) Hd a Ha Hlive. by apply (Hd a Ha), Hl. Qed.

Lemma dead_interface_covers index h r a :
  link_resource index r → dead_interface index h → covers r a → ¬ live h a ∨ ∃ rule, r = Rule rule.
Proof.
  intros Hr Hd Hc. destruct r; simpl in *; try done; [left|left|by right; eexists].
  - apply Hd. destruct a; simpl in *; try done.
    unfold kernel_route in Hc.
    repeat case_match; simpl in *; simplify_eq; simpl in *; congruence.
  - apply Hd. destruct a; simpl in *; try done. by destruct Hc as [-> _].
Qed.

Lemma wp_revert_dns name failure s h :
  wp (revert_dns name failure) (λ _ s' h', s' = s ∧ calm h h') s h.
Proof.
  unfold revert_dns. wp_steps. destruct (ex_dns (dc_wired s)); wp_steps; eauto with calm.
Qed.

(** What one step of the release loop promises for a resource other than
    the link itself. *)
Definition wg_released (r : OwnedResource) (h' : history)
    (res : io_result (option (io_result unit))) : Prop :=
  match res with
  | Err _ => True
  | Ok None => False
  | Ok (Some x) => removed x = true → ∀ a, covers r a → ¬ live h' a
  end.

Lemma wp_release_wireguard owned failed index r s h :
  link_resource index r → (owned = false → dead_interface index h) →
  wp (release_wireguard_resource owned failed r)
     (λ res s' h', s' = s ∧ calm h h' ∧ wg_released r h' res) s h.
Proof.
  intros Hr Hd. unfold release_wireguard_resource. wp_steps.
  destruct r; simpl in Hr; try done.
  - destruct owned; wp_steps; (split_and!; [done|eauto with calm|]).
    + intros Hok%removed_spec a0 Hc. apply not_live_ended; [eauto with calm|done].
    + intros _ a0 Hc. by destruct (dead_interface_covers index h (Route r) a0 Hr (Hd eq_refl) Hc)
        as [|[? [=]]].
  - destruct owned; wp_steps; (split_and!; [done|eauto with calm|]).
    + intros Hok%removed_spec a1 Hc. apply not_live_ended; [eauto with calm|done].
    + intros _ a0 Hc. by destruct (dead_interface_covers index h (Address a) a0 Hr (Hd eq_refl) Hc)
        as [|[? [=]]].
  - destruct (ex_policy (dc_wired s)); wp_steps; (split_and!; [done|eauto with calm|]); [|done].
    intros Hok%removed_spec a0 Hc. apply not_live_ended; [eauto with calm|done].
  - destruct owned; wp_steps; [|split_and!; [done|eauto with calm|by intros _ a0 Hc]].
    eapply wp_mono; [|apply wp_revert_dns]. intros x s' h' [-> Hcalm]. apply wp_ret.
    split_and!; [done|done|by intros _ a0 Hc].
Qed.

Lemma wp_release_wireguard_link owned failed link s h :
  wp (release_wireguard_resource owned failed (WireGuardLink link))
     (λ res s' h', s' = s ∧ calm h h' ∧ ∃ x, res = Ok x ∧ (x = None ∨ failed = [])) s h.
Proof.
  unfold release_wireguard_resource. wp_steps.
  destruct failed, owned; wp_steps; split_and!; eauto with calm.
Qed.

(** The invariant of the loop over [rev (link :: rest)]. *)
Definition wg_loop (s : DaemonCore) (h : history) (link : WireGuardLinkResource)
    (rest todo failed : list OwnedResource) (s' : DaemonCore) (h' : history) : Prop :=
  s' = s ∧ calm h h' ∧
  (∀ r a, r ∈ rest → covers r a → live h' a → r ∈ todo ∨ res_covered failed a) ∧
  ((∃ todo', todo = todo' ++ [WireGuardLink link] ∧ (∀ r, r ∈ todo' → r ∈ rest) ∧
      ∀ r, r ∈ failed → r ∈ rest) ∨
   (todo = [] ∧ (failed = [] ∨ ∃ f, failed = f ++ [WireGuardLink link] ∧ ∀ r, r ∈ f → r ∈ rest))).

Definition wg_after (resource : OwnedResource) (failed : list OwnedResource)
    (result : option (io_result unit)) : list OwnedResource :=
  match result with
  | None => failed ++ [resource]
  | Some r => if removed r then failed else failed ++ [resource]
  end.

Lemma wg_after_cases resource failed result :
  wg_after resource failed result = failed ∨ wg_after resource failed result = failed ++ [resource].
Proof. destruct result as [r|]; simpl; [destruct (removed r)|]; auto. Qed.

Lemma wg_after_mono resource failed result a :
  res_covered failed a → res_covered (wg_after resource failed result) a.
Proof.
  intros (q & Hq & Hc). exists q. split; [|done].
  destruct (wg_after_cases resource failed result) as [->| ->]; [done|]. apply elem_of_app. by left.
Qed.

(** A resource of the link: settled, or among the failed ones. *)
Lemma wg_loop_rest s h link rest r todo failed s' h' h'' result :
  calm h' h'' → wg_released r h'' (Ok result) →
  wg_loop s h link rest (r :: todo) failed s' h' → r ∈ rest →
  todo ≠ [] →
  wg_loop s h link rest todo (wg_after r failed result) s' h''.
Proof.
  intros Hcalm Hrel (-> & Hcalm0 & Hcov & Hshape) Hr Htodo.
  split_and!; [done|by eapply calm_trans| |].
  - intros q a Hq Hc Ha. destruct (Hcov q a Hq Hc) as [Hin|Hf]; [by apply Hcalm| |].
    + apply elem_of_cons in Hin as [->|Hin]; [|by left]. right.
      destruct result as [x|]; [|done]. simpl in *. destruct (removed x) eqn:Hx.
      * by destruct (Hrel eq_refl a Hc).
      * exists r. split; [|done]. apply elem_of_app. right. apply list_elem_of_here.
    + right. by apply wg_after_mono.
  - left. destruct Hshape as [(t & Ht & Hsub & Hf)|[[=] _]].
    destruct t as [|r' t]; [by injection Ht|]. injection Ht as <- ->.
    exists t. split_and!; [done| |].
    + intros q Hq. apply Hsub. by right.
    + destruct (wg_after_cases r failed result) as [->| ->]; [done|].
      intros q [Hq| ->%list_elem_of_singleton]%elem_of_app; [by apply Hf|done].
Qed.

Lemma wg_loop_link s h link rest failed s' h' h'' result :
  calm h' h'' → wg_loop s h link rest [WireGuardLink link] failed s' h' →
  (result = None ∨ failed = []) →
  wg_loop s h link rest [] (wg_after (WireGuardLink link) failed result) s' h''.
Proof.
  intros Hcalm (-> & Hcalm0 & Hcov & Hshape) Hres.
  destruct Hshape as [(t & Ht & Hsub & Hf)|[[=] _]].
  split_and!; [done|by eapply calm_trans| |].
  - intros q a Hq Hc Ha. right. apply wg_after_mono.
    destruct (Hcov q a Hq Hc) as [Hin|?]; [by apply Hcalm| |done].
    by apply list_elem_of_singleton in Hin as ->.
  - right. split; [done|]. destruct Hres as [->| ->].
    + right. exists failed. done.
    + destruct (wg_after_cases (WireGuardLink link) [] result) as [->| ->]; [by left|].
      right. exists []. split; [done|]. by intros r ?%elem_of_nil.
Qed.

Lemma wp_wg_loop owned s h link rest :
  Forall (link_resource (wl_index link)) rest →
  (owned = false → dead_interface (wl_index link) h) →
  wp (for_try (rev (WireGuardLink link :: rest)) [] (λ failed resource,
        let? result := release_wireguard_resource owned failed resource in
        ret (Ok (wg_after resource failed result))))
     (λ r s' h', match r with
                 | Ok failed => wg_loop s h link rest [] failed s' h'
                 | Err _ => s' = s ∧ calm h h'
                 end) s h.
Proof.
  intros Hrest Hdead. rewrite Forall_forall in Hrest.
  apply wp_for_try with (I := wg_loop s h link rest).
  - split_and!; [done|done| |].
    + intros r a Hr Hc Ha. left. rewrite elem_of_rev. by right.
    + left. exists (rev rest). split_and!; [done|by intros r; rewrite elem_of_rev|].
      by intros r ?%elem_of_nil.
  - intros r todo failed s' h' Hloop. pose proof Hloop as (-> & Hcalm & _ & Hshape).
    destruct Hshape as [(t & Ht & Hsub & Hf)|[[=] _]].
    destruct t as [|r' t]; injection Ht as -> ->; apply wp_try_bind.
    + eapply wp_mono; [|apply wp_release_wireguard_link]. cbv beta.
      intros res s' h'' (-> & Hcalm' & (x & -> & Hx)). apply wp_ret. by eapply wg_loop_link; eauto.
    + assert (r' ∈ rest) as Hr by by apply Hsub, list_elem_of_here.
      eapply wp_mono; [|apply (wp_release_wireguard owned failed (wl_index link));
        [by apply Hrest|intros Ho; by eapply dead_interface_calm, Hdead]].
      cbv beta. intros [res|e] s' h'' (-> & Hcalm' & Hrel); [|split; [done|by eapply calm_trans]].
      apply wp_ret. eapply wg_loop_rest; [done|done|done|done|].
      by destruct t.
  - done.
Qed.

(** What the loop leaves is again the entry of a link, or nothing. *)
Lemma wg_loop_end s h link rest failed s' h' st uid owner :
  Forall (link_resource (wl_index link)) rest →
  wg_loop s h link rest [] failed s' h' →
  wf_entry (mkEntry uid owner st (WireGuardLink link :: rest)) →
  starts_with owner "wg:" = true →
  (failed = [] → ∀ a, res_covered (WireGuardLink link :: rest) a → ¬ live h' a) ∧
  (∀ a, res_covered (WireGuardLink link :: rest) a → live h' a → res_covered (rev failed) a) ∧
  (failed ≠ [] → wf_entry (mkEntry uid owner Stale (rev failed))).
Proof.
  intros Hrest (-> & Hcalm & Hcov & Hshape) [Ho _] Hwg. simpl in Ho.
  assert (∀ a, res_covered (WireGuardLink link :: rest) a → live h' a →
    res_covered (rev failed) a) as Hkeep.
  { intros a (r & Hr & Hc) Ha. apply elem_of_cons in Hr as [->|Hr]; [done|].
    destruct (Hcov r a Hr Hc Ha) as [Hin|(q & Hq & Hqc)]; [by apply elem_of_nil in Hin|].
    exists q. by rewrite elem_of_rev. }
  split_and!; [|done|].
  - intros -> a Hr Ha. destruct (Hkeep a Hr Ha) as (q & Hq & _). by apply elem_of_nil in Hq.
  - intros Hne. destruct Hshape as [(t & Ht & _)|[_ [?|(f & -> & Hf)]]]; [|done|].
    { by destruct t. }
    split; [done|]. simpl. rewrite Hwg. exists link, (rev f). split; [by rewrite rev_unit|].
    apply Forall_forall. intros r Hr. rewrite Forall_forall in Hrest.
    apply Hrest, Hf. by rewrite <- elem_of_rev.
Qed.
End wireguard.

(** ** OpenVPN owners *)

Section openvpn.
Context `{Env}.

Definition openvpn_shape (e : JournalEntry) : Prop :=
  ∃ process rest, je_resources e = OpenVpnProcess process :: rest ∧ Forall openvpn_resource rest.

(** An owner of one tunnel kind is not of the other. *)
Lemma starts_with_disjoint owner p q :
  starts_with owner p = true → starts_with p q = false → starts_with q p = false →
  starts_with owner q = false.
Proof.
  revert p q. induction owner as [|a owner IH]; intros [|b p] [|c q]; simpl; try done.
  unfold starts_with in *. cbn [String.prefix].
  destruct (ascii_dec b a) as [->|]; [|done]. destruct (ascii_dec c a) as [->|]; [|done].
  destruct (ascii_dec a a); [|done]. by apply IH.
Qed.

Lemma openvpn_owner_not_wg owner : openvpn_owner owner = true → starts_with owner "wg:" = false.
Proof.
  unfold openvpn_owner. intros [Ho|Ho]%orb_true_iff;
    (eapply starts_with_disjoint; [exact Ho|done|done]).
Qed.

Lemma wf_openvpn e : wf_entry e → openvpn_owner (je_owner e) = true → openvpn_shape e.
Proof. intros [_ Hr] Hov. by rewrite (openvpn_owner_not_wg _ Hov), Hov in Hr. Qed.

Lemma wf_openvpn_entry e e' :
  wf_entry e → openvpn_owner (je_owner e) = true → je_owner e' = je_owner e → openvpn_shape e' →
  wf_entry e'.
Proof.
  intros [Ho _] Hov Hk Hsh. split; [by rewrite Hk|].
  by rewrite Hk, (openvpn_owner_not_wg _ Hov), Hov.
Qed.

Lemma wp_release_openvpn link_present r s h :
  openvpn_resource r →
  wp (release_openvpn_resource link_present r)
     (λ res s' h', s' = s ∧ calm h h' ∧
        ∀ x, res = Ok x → removed x = true → ∀ a, covers r a → ¬ live h' a) s h.
Proof.
  intros Hr. unfold release_openvpn_resource. wp_steps. destruct r; simpl in Hr; try done.
  - wp_steps. split_and!; [done|eauto with calm|]. intros x [= <-] Hok%removed_spec a1 Hc.
    apply not_live_ended; [eauto with calm|done].
  - case_match; wp_steps; (split_and!; [done|eauto with calm|]); [|done].
    intros x [= <-] Hok%removed_spec a1 Hc. apply not_live_ended; [eauto with calm|done].
  - repeat (case_match; wp_steps); split_and!; eauto with calm.
Qed.

(** The state besides the journal that a session depends on. *)
Definition aside (s : DaemonCore) : Executors * gmap owner_key OpenVpnRuntime :=
  (dc_wired s, dc_openvpn_runtime s).

(** Outcome of [clear_openvpn_network]: the entry stays, and on success only
    its process is left. *)
Definition clear_post (s : DaemonCore) (index : nat) (e : JournalEntry) (h : history)
    (r : io_result unit) (s' : DaemonCore) (h' : history) : Prop :=
  Inv s' h' ∧ shrinks h h' ∧ aside s' = aside s ∧
  ∃ e', entry_key e' = entry_key e ∧ openvpn_shape e' ∧
    entries s' = <[index := e']> (entries s) ∧
    (is_ok r = true → ∃ process, je_resources e' = [OpenVpnProcess process]).

(** The loop over the resources of the entry. *)
Definition clear_loop (s : DaemonCore) (rest : list OwnedResource) (h0 : history)
    (todo : list OwnedResource) (s' : DaemonCore) (h : history) : Prop :=
  s' = s ∧ calm h0 h ∧ (∀ r, r ∈ todo → r ∈ rest ∨ is_openvpn_process r = true) ∧
  ∀ r a, r ∈ rest → covers r a → live h a → r ∈ todo.

Lemma wf_stale_openvpn s index e h h' :
  entries s !! index = Some e → Inv s h → shrinks h h' → crash_safe h' →
  Inv (set_entries (λ es, <[index := with_state Stale e]> es) s) h'.
Proof.
  intros He [Hs [Hwf Hc]] Hsh Hs'. split; [done|]. rewrite entries_set. split.
  - eapply wf_insert; [done| |done|done]. apply wf_with_state. by eapply wf_entry_lookup.
  - intros a Ha%Hsh%Hc. apply (covered_split _ index e) in Ha; [|done].
    apply covered_insert; [by eapply lookup_lt_Some|done].
Qed.

Lemma clear_first_full_process rs process rest :
  rs = OpenVpnProcess process :: rest → Forall openvpn_resource rest →
  ∃ process', clear_first_full (bfilter is_openvpn_process rs) = [OpenVpnProcess process'].
Proof.
  intros -> Hrest. cbn [bfilter List.filter is_openvpn_process]. unfold bfilter.
  assert (List.filter is_openvpn_process rest = []) as ->; [|by eexists].
  induction Hrest as [|r rest Hr _ IH]; simpl; [done|]. by destruct r.
Qed.

Lemma wp_clear_openvpn index e s h :
  entries s !! index = Some e → Inv s h → openvpn_owner (je_owner e) = true →
  wp (clear_openvpn_network index) (clear_post s index e h) s h.
Proof.
  intros He HI Hov. assert (wf_entry e) as Hwfe
    by (destruct HI as [_ [Hwf _]]; by eapply wf_entry_lookup).
  destruct (wf_openvpn e Hwfe Hov) as (process & rest & Hres & Hrest).
  assert (∀ h' r, is_ok r = false → calm h h' → clear_post s index e h r s h') as Hstop.
  { intros h' r Hr Hcalm. split_and!; [by eapply Inv_calm|by apply calm_shrinks|done|].
    exists e. rewrite list_insert_id by done. split_and!; [done|by exists process, rest|done|].
    by rewrite Hr. }
  unfold clear_openvpn_network. wp_step. eapply wp_entry_at; [done|].
  rewrite Hres. cbn [find_openvpn find_map ok_or]. do 4 wp_step.
  case_match; [by apply Hstop|]. do 2 wp_step.
  destruct a as [link|err]; [|apply Hstop; [done|eauto with calm]]. cbv zeta. wp_step.
  apply wp_for_try with (I := λ todo _, clear_loop s rest h todo).
  - split_and!; [done|eauto with calm| |].
    + intros r. rewrite elem_of_rev, elem_of_cons. intros [->|?]; [by right|by left].
    + intros r a Hr _ _. rewrite elem_of_rev. by right.
  - intros r todo [] s' h' (-> & Hcalm & Htodo & Hcov). wp_step.
    destruct (Htodo r) as [Hr|Hr]; [by apply list_elem_of_here| |].
    + assert (openvpn_resource r) as Hor by by eapply Forall_forall in Hrest.
      eapply wp_mono; [|by apply wp_release_openvpn].
      intros [x|err] s' h'' (-> & Hcalm' & Hrel); [|apply Hstop; [done|by eapply calm_trans]].
      destruct (removed x) eqn:Hx.
      * apply wp_ret. split_and!; [done|by eapply calm_trans| |].
        { intros q Hq. apply Htodo. by right. }
        intros q a Hq Hc Ha. pose proof (Hcov q a Hq Hc) as Hin.
        apply elem_of_cons in Hin as [->|]; [|done|by apply Hcalm'].
        by destruct (Hrel x eq_refl Hx a Hc).
      * wp_step. eapply wp_update_entry; [done|]. wp_step.
        assert (calm h h'') as Hcalm2 by by eapply calm_trans.
        apply wp_persist.
        { eapply wf_stale_openvpn; [done|done|by apply calm_shrinks|]. by apply Hcalm2, HI. }
        intros h3 HI3 Hl. apply wp_ret. split_and!; [done| |by destruct s|].
        { eapply shrinks_trans; [by apply calm_shrinks|exact Hl]. }
        exists (with_state Stale e). rewrite entries_set. split_and!; try done.
        by exists process, rest.
    + destruct r; try done. unfold release_openvpn_resource. wp_steps. cbn [removed].
      apply wp_ret. split_and!; [done|done| |].
      { intros q Hq. apply Htodo. by right. }
      intros q a Hq Hc Ha. pose proof (Hcov q a Hq Hc Ha) as Hin.
      by apply elem_of_cons in Hin as [->|].
  - intros [] s' h' (-> & Hcalm & _ & Hcov). wp_step. eapply wp_update_entry; [done|].
    set (e' := with_resources _ e). set (s1 := set_entries _ s).
    destruct (clear_first_full_process (je_resources e) process rest Hres Hrest) as [process' Hp].
    assert (openvpn_shape e') as Hsh by (exists process', []; by split).
    assert (Inv s1 h') as HI1.
    { destruct HI as [Hs [Hwf Hc]]. split; [by apply Hcalm|]. unfold s1. rewrite entries_set. split.
      - eapply wf_insert; [done| |done|done]. by eapply (wf_openvpn_entry e).
      - intros a Ha. assert (covered (entries s) a) as Hold by by apply Hc, Hcalm.
        apply (covered_split _ index e) in Hold; [|done].
        apply covered_insert; [by eapply lookup_lt_Some|]. right.
        destruct Hold as [(r & Hr & Hrc)|]; [|done]. rewrite Hres in Hr.
        apply elem_of_cons in Hr as [->|Hr]; [done|].
        pose proof (Hcov r a Hr Hrc Ha) as Hin. by apply elem_of_nil in Hin. }
    apply wp_store_save_journal; [done|]. intros r h3 HI3 Hl _.
    split_and!; [done| |by destruct s|].
    { eapply shrinks_trans; [by apply calm_shrinks|exact Hl]. }
    exists e'. unfold s1. rewrite entries_set. split_and!; try done. intros _. by exists process'.
Qed.

Lemma wp_teardown_openvpn index e s h :
  entries s !! index = Some e → Inv s h → openvpn_owner (je_owner e) = true →
  wp (teardown_openvpn_entry index) (teardown_post s index h) s h.
Proof.
  intros He HI Hov. assert (wf_entry e) as Hwfe
    by (destruct HI as [_ [Hwf _]]; by eapply wf_entry_lookup).
  destruct (wf_openvpn e Hwfe Hov) as (process & rest & Hres & Hrest).
  assert (∀ err h', calm h h' → wp (mark_stale index ;;; fail (A := unit) err)
            (teardown_post s index h) s h') as Hstale.
  { intros err h' Hc. by eapply wp_mark_stale_fail. }
  unfold teardown_openvpn_entry. wp_step. eapply wp_entry_at; [done|].
  rewrite Hres. cbn [find_openvpn find_map ok_or]. do 4 wp_step.
  case_match; [by apply Hstale|]. do 2 wp_step.
  case_match; [apply Hstale; eauto with calm|]. do 2 wp_step.
  destruct a0 as [[link|]|err]; cbn [is_some is_Some];
    [apply Hstale; eauto with calm| |eapply teardown_same; eauto with calm].
  match goal with |- wp _ _ _ ?hh => set (h1 := hh); assert (calm h h1) as Hcalm by eauto with calm end.
  wp_step. eapply wp_mono; [|eapply wp_clear_openvpn; [done|by eapply Inv_calm|done]].
  intros r s1 h2 (HI2 & Hsh & [= Hw _] & e' & Hk & Hshape & Hes & Hok).
  assert (entries s1 !! index = Some e') as He'
    by (rewrite Hes; apply list_lookup_insert_eq; by eapply lookup_lt_Some).
  assert (∀ err h', calm h2 h' → wp (mark_stale index ;;; fail (A := unit) err)
            (teardown_post s index h) s1 h') as Hstale2.
  { intros err h' Hc. wp_step. eapply wp_update_entry; [done|]. apply wp_ret.
    split_and!.
    - eapply wf_stale_openvpn; [done|done|by apply calm_shrinks|]. by apply Hc, HI2.
    - eapply shrinks_trans; [by apply calm_shrinks|].
      eapply shrinks_trans; [exact Hsh|by apply calm_shrinks].
    - rewrite <- Hw. by destruct s1.
    - exists e, (with_state Stale e'). split_and!; [done|done|].
      by rewrite entries_set, Hes, list_insert_insert_eq. }
  destruct r as [[]|err]; [|apply Hstale2, calm_refl]. do 2 wp_step.
  case_match; [apply Hstale2; eauto with calm|].
  match goal with |- wp _ _ _ ?hh => set (h3 := hh); assert (calm h2 h3) as Hcalm3 by eauto with calm end.
  wp_step. eapply wp_remove_entry; [done|]. do 2 wp_step. apply wp_ret.
  destruct (Hok eq_refl) as [process' Hres']. split_and!.
  - eapply Inv_state with (s := set_entries (delete index) s1); [by destruct s1|].
    destruct (Inv_calm _ _ _ Hcalm3 HI2) as [Hs3 [Hwf3 Hc3]]. split; [done|].
    rewrite entries_set. split; [by apply wf_delete|]. intros q Ha.
    apply Hc3 in Ha. apply (covered_split _ index e') in Ha as [(r & Hr & Hrc)|]; [|done..].
    rewrite Hres' in Hr. by apply list_elem_of_singleton in Hr as ->.
  - eapply shrinks_trans; [by apply calm_shrinks|].
    eapply shrinks_trans; [exact Hsh|by apply calm_shrinks].
  - rewrite <- Hw. by destruct s1.
  - transitivity (entries (set_entries (delete index) s1)); [by destruct s1|].
    rewrite entries_set, Hes. apply delete_insert_same. by eapply lookup_lt_Some.
Qed.
End openvpn.

Section teardown.
Context `{Env}.

Lemma dead_interface_answer name index h :
  dead_interface index (Ev (WgLinkPresent name index) (Ok false) :: h).
Proof.
  intros a Ha. apply not_live_ended; [eauto with calm|by split].
Qed.

(** The part of the teardown after the ownership questions. *)
Lemma wp_teardown_wireguard_release owned s s1 index e h h0 link rest :
  entries s1 = entries s → dc_wired s1 = dc_wired s → entries s !! index = Some e →
  je_resources e = WireGuardLink link :: rest → starts_with (je_owner e) "wg:" = true →
  Inv s h0 → calm h0 h → (owned = false → dead_interface (wl_index link) h) →
  wp (let? failed :=
        for_try (rev (je_resources e)) [] (λ failed resource,
          let? result := release_wireguard_resource owned failed resource in
          ret (Ok (wg_after resource failed result))) in
      match failed with
      | [] => remove_entry index ;;; ret (Ok tt)
      | _ => keep_failed index failed ;;;
             fail (err_other "WireGuard cleanup left owned resources")
      end) (teardown_post s index h0) s1 h.
Proof.
  intros Hes Hw He Hres Hwg HI Hcalm Hdead.
  assert (wf_entry e) as Hwfe by (destruct HI as [_ [Hwf _]]; by eapply wf_entry_lookup).
  assert (Forall (link_resource (wl_index link)) rest) as Hrest.
  { destruct Hwfe as [_ Hr]. rewrite Hwg, Hres in Hr. by destruct Hr as (l & t & [= -> ->] & Hr). }
  assert (entries s1 !! index = Some e) as He1 by by rewrite Hes.
  assert (Inv s1 h0) as HI1 by by eapply Inv_state.
  rewrite Hres. apply wp_try_bind. eapply wp_mono; [|by apply wp_wg_loop].
  cbv beta. intros [failed|err] s' h' Hloop.
  - pose proof Hloop as (-> & Hcalm' & _).
    destruct (wg_loop_end s1 h link rest failed s1 h' (je_state e) (je_uid e) (je_owner e))
      as (Hnone & Hkeep & Hwf'); [done|done| |done|].
    { rewrite <- Hres. by destruct e. }
    rewrite <- Hres in Hnone, Hkeep. assert (calm h0 h') as Hcalm2 by by eapply calm_trans.
    eapply wp_mono; [intros ???; by apply teardown_post_state|].
    destruct failed as [|r failed]; apply wp_bind.
    + eapply wp_remove_entry; [done|]. apply wp_ret. eapply teardown_drop; eauto.
    + eapply wp_update_entry; [done|]. apply wp_ret. eapply teardown_keep; try done.
      by apply Hwf'.
  - destruct Hloop as [-> Hcalm']. eapply teardown_post_state; [done|done|].
    eapply teardown_same; [done|done|by eapply calm_trans].
Qed.

Lemma wp_teardown_wireguard index e s h :
  entries s !! index = Some e → Inv s h → starts_with (je_owner e) "wg:" = true →
  wp (teardown_wireguard_entry index) (teardown_post s index h) s h.
Proof.
  intros He HI Hwg. unfold teardown_wireguard_entry. apply wp_bind.
  eapply wp_entry_at; [done|]. do 2 wp_step.
  set (s1 := set_wireguard_handshake _ s).
  assert (entries s1 = entries s) as Hes by by destruct s.
  assert (dc_wired s1 = dc_wired s) as Hw by by destruct s.
  assert (wf_entry e) as Hwfe by (destruct HI as [_ [Hwf _]]; by eapply wf_entry_lookup).
  destruct Hwfe as [_ Hr]. rewrite Hwg in Hr. destruct Hr as (link & rest & Hres & _).
  assert (entries s1 !! index = Some e) as He1 by by rewrite Hes.
  assert (Inv s1 h) as HI1 by by eapply Inv_state.
  assert (∀ err h', calm h h' → wp (mark_stale index ;;; fail (A := unit) err)
            (teardown_post s index h) s1 h') as Hstale.
  { intros err h' Hc. eapply wp_mono; [intros ???; by apply teardown_post_state|].
    by eapply wp_mark_stale_fail. }
  assert (find_wireguard (je_resources e) = Some link) as -> by by rewrite Hres.
  do 1 wp_step. simpl ok_or. do 1 wp_step. cbv iota. do 2 wp_step.
  destruct (negb (ex_wg (dc_wired s1))); [by apply Hstale|].
  do 2 wp_step. destruct a as [owned|err]; [|apply Hstale; eauto with calm].
  wp_step.
  destruct owned; wp_step.
  - eapply wp_teardown_wireguard_release; eauto with calm. done.
  - destruct a as [present|err]; [|apply Hstale; eauto with calm].
    destruct present; [apply Hstale; eauto with calm|].
    eapply wp_teardown_wireguard_release; eauto with calm.
    intros _. apply dead_interface_answer.
Qed.

Theorem wp_teardown_entry index e s h :
  entries s !! index = Some e → Inv s h →
  wp (teardown_entry index) (teardown_post s index h) s h.
Proof.
  intros He HI. unfold teardown_entry. apply wp_bind. eapply wp_entry_at; [done|].
  assert (wf_entry e) as [Ho _] by (destruct HI as [_ [Hwf _]]; by eapply wf_entry_lookup).
  unfold other_tunnel in Ho. rewrite Ho. fold (openvpn_owner (je_owner e)).
  destruct (openvpn_owner (je_owner e)) eqn:Hov; [by eapply wp_teardown_openvpn|].
  destruct (starts_with (je_owner e) "wg:") eqn:Hwg;
    [by eapply wp_teardown_wireguard|by eapply wp_teardown_generic].
Qed.

(** ** The whole journal *)

(** [teardown] visits the indices downwards, so a removal never moves an
    entry it has yet to visit. *)
Lemma wp_teardown_loop matches n result s h :
  n ≤ length (entries s) → Inv s h →
  wp (for_acc (rev (seq 0 n)) result (teardown_step matches))
     (λ _ s' h', Inv s' h' ∧ shrinks h h' ∧ dc_wired s' = dc_wired s) s h.
Proof.
  revert result s h. induction n as [|n IH]; intros result s h Hn HI.
  { apply wp_ret. split_and!; [done|by intros a|done]. }
  rewrite seq_S, rev_unit. simpl. apply wp_bind. unfold teardown_step.
  destruct (lookup_lt_is_Some_2 (entries s) n) as [e He]; [lia|].
  apply wp_bind. eapply wp_entry_at; [done|].
  destruct (negb (matches e)); [apply wp_ret, IH; [lia|done]|].
  apply wp_bind. eapply wp_mono; [|by eapply wp_teardown_entry].
  intros r s' h' (HI' & Hcalm & Hw & Hr). apply wp_ret.
  eapply wp_mono; [|apply IH; [|done]].
  - intros _ s'' h'' (HI'' & Hcalm' & Hw').
    split_and!; [done|by eapply shrinks_trans|by rewrite Hw'].
  - destruct r as [[]|err].
    + rewrite Hr. rewrite length_delete; [lia|done].
    + destruct Hr as (e1 & e' & _ & _ & ->). rewrite length_insert. lia.
Qed.

Theorem wp_teardown matches s h :
  Inv s h →
  wp (teardown matches)
     (λ r s' h', Inv s' h' ∧ (∀ a, live h' a → live h a) ∧ dc_wired s' = dc_wired s ∧
        (is_ok r = true → synced s' h')) s h.
Proof.
  intros HI. unfold teardown. do 3 wp_step.
  eapply wp_mono; [|apply wp_teardown_loop; [done|done]].
  intros result s' h' (HI' & Hl & Hw). do 1 wp_step.
  apply wp_store_save_journal; [done|]. intros r h'' HI'' Hl' Hsync.
  assert (∀ a, live h'' a → live h a) as Hl2 by (intros a Ha; by apply Hl, Hl').
  destruct r as [[]|err]; [apply wp_ret|]; by split_and!.
Qed.
End teardown.
