(* ===== verification/SafetyRoutes.v ===== *)
(** * Client routes and manual overrides are accounted for

    Every operation of [CoreRoutes] that records before it acts keeps the
    invariant [Inv]: what it creates is already on disk, and what it forgets
    is gone. *)

From S2P Require Export SafetyTeardown.

(** An operation that keeps the invariant, whatever the world answers, and
    never panics. *)
Definition safe_op {A} (m : M DaemonCore A) : Prop :=
  ∀ s h, Inv s h → wp m (λ _ s' h', Inv s' h') s h.

(** [h'] is reached from [h0] by calls that created only what [all] covers;
    what is live now was live before or is covered by [now]. *)
Definition reach (all now : list OwnedResource) (h0 h : history) : Prop :=
  disk h = disk h0 ∧
  (crash_safe h0 →
   (∀ d a, d ∈ disk h0 → res_covered all a → covered (jd_entries d) a) → crash_safe h) ∧
  ∀ a, live h a → live h0 a ∨ res_covered now a.

(** ** Changing the recorded entries *)

Section entries.

Lemma accounts_insert es i e e' h :
  es !! i = Some e → wf_entry e' → entry_key e' = entry_key e →
  (∀ a, live h a → res_covered (je_resources e) a → res_covered (je_resources e') a) →
  accounts es h → accounts (<[i := e']> es) h.
Proof.
  intros He Hwf' Hkey Hkeep [Hwf Hc]. split; [by eapply wf_insert|].
  intros a Ha. specialize (Hc a Ha). apply (covered_split _ i e a He) in Hc.
  apply covered_insert; [by eapply lookup_lt_Some|]. destruct Hc; [left; auto|by right].
Qed.

Lemma accounts_delete es i e h :
  es !! i = Some e → (∀ a, live h a → ¬ res_covered (je_resources e) a) →
  accounts es h → accounts (delete i es) h.
Proof.
  intros He Hdead [Hwf Hc]. split; [by apply wf_delete|].
  intros a Ha. specialize (Hc a Ha). apply (covered_split _ i e a He) in Hc.
  destruct Hc as [Hc|]; [|done]. by destruct (Hdead a Ha).
Qed.

Lemma covered_app es es' a : covered (es ++ es') a ↔ covered es a ∨ covered es' a.
Proof.
  split.
  - intros (e & r & [He|He]%elem_of_app & Hr); [left|right]; by exists e, r.
  - intros [(e & r & He & Hr)|(e & r & He & Hr)]; exists e, r; rewrite elem_of_app; tauto.
Qed.

Lemma accounts_push es e h :
  wf_entry e → entry_key e ∉ entry_key <$> es → accounts es h → accounts (es ++ [e]) h.
Proof.
  intros He Hkey [[Hall Hnd] Hc]. split; [split|].
  - apply Forall_app. split; [done|]. by constructor.
  - rewrite fmap_app. apply NoDup_app. split_and!; [done| |apply NoDup_singleton].
    intros k Hk ->%list_elem_of_singleton. by apply Hkey.
  - intros a Ha. apply covered_app. left. by apply Hc.
Qed.

Lemma position_no_key c uid owner :
  position_of c uid owner = None → (uid, owner) ∉ entry_key <$> entries c.
Proof.
  intros Hp (e & Hk & He)%list_elem_of_fmap. injection Hk as -> ->.
  assert (Z.eqb (je_uid e) (je_uid e) && (je_owner e =b je_owner e) = false) as Hf.
  { unfold position_of in Hp. rewrite position_None in Hp. by apply (Hp e). }
  by rewrite Z.eqb_refl, bool_decide_eq_true_2 in Hf.
Qed.

Lemma res_covered_app rs rs' a : res_covered (rs ++ rs') a ↔ res_covered rs a ∨ res_covered rs' a.
Proof.
  split.
  - intros (r & [Hr|Hr]%elem_of_app & Hc); [left|right]; by exists r.
  - intros [(r & Hr & Hc)|(r & Hr & Hc)]; exists r; rewrite elem_of_app; tauto.
Qed.

Lemma res_covered_one r a : res_covered [r] a ↔ covers r a.
Proof.
  split; [by intros (q & ->%list_elem_of_singleton & Hc)|].
  intros Hc. exists r. split; [by apply list_elem_of_singleton|done].
Qed.

Lemma covered_entry es i e a :
  es !! i = Some e → res_covered (je_resources e) a → covered es a.
Proof. intros He Hr. apply (covered_split _ i e); [done|by left]. Qed.
End entries.

(** ** Reaching *)

Section reach.
Implicit Types all now : list OwnedResource.

Lemma reach_refl all h : reach all [] h h.
Proof. split_and!; [done|done|]. by left. Qed.

Lemma reach_calm all now h0 h h' : calm h h' → reach all now h0 h → reach all now h0 h'.
Proof.
  intros (Hs & Hl & Hd) (Hd0 & Hs0 & Hl0). split_and!; [congruence|auto|].
  intros a Ha. by apply Hl0, Hl.
Qed.

Lemma reach_mono all now now' h0 h :
  (∀ a, res_covered now a → res_covered now' a) → reach all now h0 h → reach all now' h0 h.
Proof.
  intros Hm (Hd & Hs & Hl). split_and!; [done|done|].
  intros a [?|?]%Hl; [by left|right; auto].
Qed.

(** One more call, which creates only what [r], of [all], covers. *)
Lemma reach_create all now h0 h r e :
  r ∈ all → (∀ a, creates e a → covers r a) → (∀ h', disk (e :: h') = disk h') →
  reach all now h0 h → reach all (now ++ [r]) h0 (e :: h).
Proof.
  intros Hr Hcr Hdisk (Hd & Hs & Hl). split_and!.
  - by rewrite Hdisk.
  - intros Hs0 Hcov. specialize (Hs Hs0 Hcov). split; [|done].
    intros d Hin. rewrite Hdisk, Hd in Hin.
    destruct (crash_safe_now h Hs d) as [Hwf Hold]; [by rewrite Hd|]. split; [done|].
    intros a [Ha|[Ha _]]; [|by apply Hold]. apply (Hcov d a Hin). exists r. auto.
  - intros a [Ha|[Ha _]]; rewrite res_covered_app, res_covered_one.
    + right. right. auto.
    + destruct (Hl a Ha); auto.
Qed.

(** The state whose journal is on disk accounts for all that was reached. *)
Lemma Inv_reach all now s h0 h :
  Inv s h0 → synced s h0 → (∀ a, res_covered all a → covered (entries s) a) →
  (∀ a, res_covered now a → res_covered all a) →
  reach all now h0 h → Inv s h.
Proof.
  intros [Hs [Hwf Hc]] Hsync Hall Hnow (Hd & Hs' & Hl). split.
  - apply Hs'; [done|]. intros d a Hin Hr. rewrite Hsync in Hin.
    apply list_elem_of_singleton in Hin as ->. by apply Hall.
  - split; [done|]. intros a [?|?]%Hl; [by apply Hc|]. by apply Hall, Hnow.
Qed.

Lemma crash_safe_reach all now s h0 h :
  Inv s h0 → synced s h0 → (∀ a, res_covered all a → covered (entries s) a) →
  reach all now h0 h → crash_safe h.
Proof.
  intros [Hs _] Hsync Hall (_ & Hs' & _). apply Hs'; [done|]. intros d a Hin Hr.
  rewrite Hsync in Hin. apply list_elem_of_singleton in Hin as ->. by apply Hall.
Qed.
End reach.

(** ** Route transactions *)

Section transactions.
Context `{Env}.

Lemma wp_rollback_reach all routes msg still (s : DaemonCore) h0 h :
  reach all (map Route still ++ map Route routes) h0 h →
  wp (rollback_routes routes msg still)
     (λ out s' h', s' = s ∧ reach all (map Route out.2) h0 h') s h.
Proof.
  revert msg still s h. induction routes as [|r routes IH]; intros msg still s h Hr; simpl.
  { apply wp_ret. split; [done|]. by rewrite app_nil_r in Hr. }
  wp_step. wp_step. destruct a as [[]|err].
  - apply IH. pose proof Hr as (Hd & Hs & Hl). split_and!; [done| |].
    + intros. apply crash_safe_quiet; [|auto]. eauto with calm.
    + intros a [[]|[Ha Hn]]. destruct (Hl a Ha) as [|Hc]; [by left|]. right.
      destruct Hc as (q & [Hq|Hq]%elem_of_app & Hqc); [exists q; rewrite elem_of_app; tauto|].
      simpl in Hq. apply elem_of_cons in Hq as [->|Hq]; [by destruct Hn|].
      exists q. rewrite elem_of_app. tauto.
  - apply IH. rewrite map_app, <- app_assoc. simpl. eapply reach_calm; [|exact Hr].
    eauto with calm.
Qed.

Lemma wp_apply_routes_reach all done_ routes (s : DaemonCore) h0 h :
  (∀ r, r ∈ routes → Route r ∈ all) → reach all (map Route done_) h0 h →
  wp (apply_routes_from done_ routes)
     (λ out s' h', s' = s ∧
        match out with
        | Ok _ => reach all (map Route done_ ++ map Route routes) h0 h'
        | Err (_, still) => reach all (map Route still) h0 h'
        end) s h.
Proof.
  revert done_ s h. induction routes as [|r routes IH]; intros done_ s h Hall Hr; simpl.
  { apply wp_ret. by rewrite app_nil_r. }
  assert (reach all (map Route done_ ++ [Route r]) h0 (Ev (AddRoute r) (Ok tt) :: h)) as Hr'.
  { apply reach_create; [apply Hall, list_elem_of_here|by intros a [_ Ha]|done|done]. }
  wp_step. wp_step. destruct a as [[]|err].
  - eapply wp_mono; [|apply IH].
    + intros [[]|[e still]] s' h' [-> Hout]; split; try done. eapply reach_mono; [|exact Hout].
      intros a. rewrite !res_covered_app. simpl. intros [(q & Hq & Hc)|(q & Hq & Hc)].
      * apply elem_of_cons in Hq as [->|Hq]; [right; exists (Route r)|left; by exists q].
        split; [apply list_elem_of_here|done].
      * right. exists q. split; [by right|done].
    + intros q Hq. apply Hall. by right.
    + eapply reach_mono; [|exact Hr']. intros a. rewrite res_covered_app. simpl.
      intros [(q & Hq & Hc)|Hc]; [exists q; split; [by right|done]|].
      apply res_covered_one in Hc. exists (Route r). split; [apply list_elem_of_here|done].
  - wp_step. eapply wp_mono; [|apply (wp_rollback_reach all done_ _ [] s h0)].
    + intros [m still] s' h' [-> Hout]. by apply wp_ret.
    + simpl. eapply reach_calm; [|exact Hr].
      split_and!; [| |done]; [intros; apply crash_safe_quiet|]; try done.
      * split; [|done]. intros a [[=] _].
      * intros a [[[=] _]|[? _]]; done.
Qed.
End transactions.

(** ** Client routes *)

(** Owners of the client operations: no tunnel's. *)
Definition plain_owner (owner : string) : Prop :=
  other_tunnel owner = false ∧ starts_with owner "wg:" = false ∧ openvpn_owner owner = false.

Lemma wf_entry_plain uid owner st rs :
  plain_owner owner → Forall generic_resource rs → wf_entry (mkEntry uid owner st rs).
Proof. intros (Ho & Hw & Hov) Hrs. split; [done|]. simpl. by rewrite Hw, Hov. Qed.

Lemma generic_routes attach routes :
  Forall generic_resource (attach_resources attach ++ map Route routes).
Proof.
  apply Forall_app. split; [destruct attach; by repeat constructor|].
  apply Forall_forall. intros r Hr. apply list_elem_of_fmap in Hr as (q & -> & _). done.
Qed.

Section apply.
Context `{Env} `{IpNetLib}.

Lemma res_covered_attach attach rs a :
  res_covered (attach_resources attach ++ rs) a ↔ res_covered rs a.
Proof.
  rewrite res_covered_app. split; [|by right]. intros [(r & Hr & Hc)|]; [|done].
  destruct attach; simpl in Hr; [apply list_elem_of_singleton in Hr as ->|apply elem_of_nil in Hr];
    done.
Qed.

(** The tail of an operation: change the entries, save, answer. *)
Lemma wp_update_persist {B} index e f (x : B) s h :
  entries s !! index = Some e → Inv (set_entries (λ es, <[index := f e]> es) s) h →
  wp (update_entry index f ;;; persist ;;; ret x) (λ _, Inv) s h.
Proof.
  intros He HI. apply wp_bind. eapply wp_update_entry; [done|]. wp_step.
  apply wp_persist; [done|]. intros h' HI' _. by apply wp_ret.
Qed.

Lemma apply_routes_inner_safe uid owner routes attach :
  plain_owner owner → safe_op (apply_routes_inner uid owner routes attach).
Proof.
  intros Ho s h HI. unfold apply_routes_inner. wp_step. wp_step.
  destruct (map_err invalid_input (validate_apply routes)) as [[]|err]; [|done].
  wp_step. wp_step. destruct (position_of s uid owner) eqn:Hpos; simpl; [by apply wp_ret|].
  set (e := mkEntry uid owner Applying (attach_resources attach ++ map Route routes)).
  set (s1 := set_entries (λ es, es ++ [e]) s).
  assert (entries s1 = entries s ++ [e]) as Hes by apply entries_set.
  assert (wf_entry e) as Hwfe by (apply wf_entry_plain; [done|apply generic_routes]).
  assert (Inv s1 h) as HI1.
  { destruct HI as [Hs Ha]. split; [done|]. rewrite Hes.
    apply accounts_push; [done|by apply position_no_key|done]. }
  wp_step. apply wp_modify. wp_step. apply wp_store_save_journal; [done|]. intros saved h1 HI2 Hl Hsync.
  destruct saved as [[]|err].
  2: { wp_step. apply wp_modify, wp_ret. destruct HI2 as [Hs2 _]. split; [done|].
       rewrite !entries_set, pop_list_app. destruct HI as [_ [Hwf Hc]].
       split; [done|]. intros a Ha. by apply Hc, Hl. }
  specialize (Hsync eq_refl). fold s1. do 3 wp_step.
  assert (entries s1 !! (length (entries s1) - 1) = Some e) as He1 by (rewrite Hes; apply lookup_snoc).
  assert (∀ a, res_covered (je_resources e) a → covered (entries s1) a) as Hall
    by (intros a; by eapply covered_entry).
  eapply wp_mono; [|apply (wp_apply_routes_reach (je_resources e) [] routes s1 h1 h1)].
  - cbv beta. intros [[]|[err still]] s' h2 [-> Hr].
    + eapply wp_update_persist; [done|].
      assert (Inv s1 h2) as [Hs3 Ha3].
      { eapply Inv_reach; [exact HI2|exact Hsync|exact Hall| |exact Hr].
        intros a Hra. simpl in Hra. by apply res_covered_attach. }
      split; [done|]. rewrite entries_set. by eapply accounts_insert.
    + assert (crash_safe h2) as Hs3 by (by eapply crash_safe_reach).
      assert (∀ a, live h2 a → covered (entries s) a ∨ res_covered (map Route still) a) as Hc3.
      { destruct HI as [_ [_ Hc]]. destruct Hr as (_ & _ & Hlr).
        intros a [Hold|?]%Hlr; [left; by apply Hc, Hl|by right]. }
      destruct HI1 as [_ [Hwf1 _]].
      assert (wf_entries (entries s)) as Hwf by by destruct HI as [_ [? _]].
      wp_step. destruct (Nat.eqb (length still) 0 && is_none attach) eqn:Hempty.
      * apply andb_true_iff in Hempty as [Hz%Nat.eqb_eq _]. apply nil_length_inv in Hz as ->.
        eapply wp_remove_entry; [done|]. wp_step.
        apply wp_persist; [|intros h' HI' _; by apply wp_ret].
        split; [done|]. rewrite entries_set, Hes, delete_snoc. split; [done|].
        intros a [?|(r & Hr' & _)]%Hc3; [done|by apply elem_of_nil in Hr'].
      * eapply wp_update_entry; [done|]. wp_step.
        apply wp_persist; [|intros h' HI' _; by apply wp_ret].
        split; [done|]. rewrite entries_set. split.
        -- eapply wf_insert; [done| |done|done].
           apply wf_entry_plain; [done|apply generic_routes].
        -- intros a Ha. apply covered_insert; [by eapply lookup_lt_Some|].
           rewrite Hes, delete_snoc. simpl. destruct (Hc3 a Ha); [by right|left].
           by apply res_covered_attach.
  - intros r Hr. simpl. apply elem_of_app. right. by apply list_elem_of_fmap_2.
  - apply reach_refl.
Qed.

Lemma client_owner_plain owner : is_ok (check_client_owner owner) = true → plain_owner owner.
Proof.
  unfold check_client_owner. rewrite is_ok_rbind. intros [_ Hok].
  destruct (reserved_owner owner) eqn:Hr; [done|]. unfold reserved_owner in Hr.
  rewrite !orb_false_iff in Hr. destruct Hr as ((((((?&?)&?)&?)&?)&?)&?).
  split_and!; [done|done|]. unfold openvpn_owner. by rewrite !orb_false_iff.
Qed.

Lemma apply_routes_safe uid owner routes : safe_op (apply_routes uid owner routes).
Proof.
  intros s h HI. unfold apply_routes. wp_step. wp_step.
  destruct (check_client_owner owner) as [[]|] eqn:Ho; [|done].
  apply apply_routes_inner_safe; [|done]. apply client_owner_plain. by rewrite Ho.
Qed.

Lemma apply_attach_safe uid owner spec routes : safe_op (apply_attach uid owner spec routes).
Proof.
  intros s h HI. unfold apply_attach. wp_step. wp_step.
  destruct (check_client_owner owner) as [[]|] eqn:Ho; [|done].
  wp_step. wp_step. destruct (map_err _ _) as [[]|]; [|done].
  apply apply_routes_inner_safe; [|done]. apply client_owner_plain. by rewrite Ho.
Qed.
End apply.

(** ** Record, then act *)

Section record.
Context `{Env} `{IpNetLib}.

(** [act] creates at most what [r] covers, and nothing when it fails. *)
Definition creates_only (r : OwnedResource) (act : M DaemonCore (io_result unit)) : Prop :=
  ∀ s h, wp act (λ ans s' h', s' = s ∧ reach [r] (if is_ok ans then [r] else []) h h') s h.

Lemma call_creates_only r (c : ext (io_result unit)) :
  (∀ a ans, creates (Ev c ans) a → is_ok ans = true ∧ covers r a) →
  (∀ ans h, disk (Ev c ans :: h) = disk h) →
  creates_only r (call c).
Proof.
  intros Hc Hd s h. apply wp_call. intros ans. split; [done|].
  destruct (is_ok ans) eqn:Hok.
  - apply (reach_create [r] []); [apply list_elem_of_here| |apply Hd|apply reach_refl].
    intros a Ha. by apply Hc in Ha as [_ ?].
  - eapply reach_calm; [|apply reach_refl]. apply calm_quiet. split; [|apply Hd].
    intros a Ha. apply Hc in Ha as [? _]. congruence.
Qed.

Lemma with_policy_creates_only r act : creates_only r act → creates_only r (with_policy act).
Proof.
  intros Ha s h. apply wp_with_policy; intros _; [apply Ha|].
  split; [done|]. apply reach_refl.
Qed.

(** An action that creates nothing. *)
Definition creates_nothing {A} (act : M DaemonCore A) : Prop :=
  ∀ s h, wp act (λ _ s' h', s' = s ∧ calm h h') s h.

Lemma call_creates_nothing {A} (c : ext A) :
  (∀ ans, quiet (Ev c ans)) → creates_nothing (call c).
Proof. intros Hq s h. apply wp_call. intros ans. split; [done|]. by apply calm_quiet. Qed.

Lemma with_policy_creates_nothing {A} (act : M DaemonCore (io_result A)) :
  creates_nothing act → creates_nothing (with_policy act).
Proof. intros Ha s h. apply wp_with_policy; intros _; [apply Ha|done]. Qed.

(** The recorded entry after the push: what it was, and [r]. *)
Definition recorded (r : OwnedResource) (st : OwnedState) (e : JournalEntry) : JournalEntry :=
  with_state st (push_resource r e).

Lemma recorded_Inv s index e r st h :
  entries s !! index = Some e → plain_owner (je_owner e) → generic_resource r → Inv s h →
  Inv (set_entries (λ es, <[index := recorded r st e]> es) s) h.
Proof.
  intros He Ho Hr [Hs Ha]. split; [done|]. rewrite entries_set.
  assert (wf_entry e) as Hwf by (destruct Ha as [Hwf _]; by eapply wf_entry_lookup).
  eapply accounts_insert; [done| |done| |done].
  - apply (wf_entry_plain (je_uid e) (je_owner e) st); [done|]. simpl.
    apply Forall_app. split; [|by constructor].
    destruct Hwf as [_ Hrs]. destruct Ho as (_ & Hwg & Hov). by rewrite Hwg, Hov in Hrs.
  - intros a _ Hc. simpl. apply res_covered_app. by left.
Qed.

(** [forget_last] brings the entry back, or drops it when nothing is left. *)
Lemma wp_forget_last s0 s index e r st h0 h (Q : unit → DaemonCore → history → Prop) :
  entries s0 !! index = Some e → plain_owner (je_owner e) →
  entries s = <[index := recorded r st e]> (entries s0) →
  Inv s0 h0 → crash_safe h → (∀ a, live h a → live h0 a) →
  (∀ s', Inv s' h → Q tt s' h) →
  wp (forget_last index) Q s h.
Proof.
  intros He Ho Hes [_ Ha] Hs Hl HQ. assert (index < length (entries s0)) as Hi
    by by eapply lookup_lt_Some.
  assert (entries s !! index = Some (recorded r st e)) as He1
    by (rewrite Hes; by apply list_lookup_insert_eq).
  assert (wf_entry e) as Hwf by (destruct Ha as [Hwf _]; by eapply wf_entry_lookup).
  assert (accounts (entries s0) h) as Ha' by (destruct Ha; split; auto).
  unfold forget_last. wp_step. eapply wp_update_entry; [done|].
  set (s1 := set_entries _ s).
  assert (entries s1 = <[index := with_state st e]> (entries s0)) as Hes1.
  { unfold s1. rewrite entries_set, Hes, list_insert_insert_eq. f_equal.
    destruct e. unfold pop_resource, recorded, push_resource, with_resources, with_state. simpl.
    by rewrite pop_list_app. }
  assert (entries s1 !! index = Some (with_state st e)) as He2
    by (rewrite Hes1; by apply list_lookup_insert_eq).
  wp_step. eapply wp_entry_at; [done|].
  assert (accounts (entries s1) h) as Ha1
    by (rewrite Hes1; by eapply accounts_insert).
  destruct (je_resources (with_state st e)) eqn:Hres.
  - eapply wp_remove_entry; [done|]. apply HQ. split; [done|]. rewrite entries_set.
    eapply accounts_delete; [done| |done]. rewrite Hres. intros a _ (q & Hq & _).
    by apply elem_of_nil in Hq.
  - apply wp_ret, HQ. by split.
Qed.

(** The shared shape of the edits: push the resource, save, act; keep it
    when that worked, forget it when it failed. *)
Lemma wp_record_then {B} index e r st (act : M DaemonCore (io_result unit))
    (k : M DaemonCore (io_result B)) s h :
  entries s !! index = Some e → plain_owner (je_owner e) → generic_resource r → Inv s h →
  creates_only r act →
  (∀ s' h', Inv s' h' → entries s' !! index = Some (recorded r st e) →
     wp k (λ _, Inv) s' h') →
  wp (update_entry index (push_resource r) ;;;
      update_entry index (with_state st) ;;;
      let? _ := store_save_journal in
      let! added := act in
      match added with
      | Ok _ => k
      | Err err => forget_last index ;;; persist ;;; fail err
      end) (λ _, Inv) s h.
Proof.
  intros He Ho Hr HI Hact Hk. wp_step. eapply wp_update_entry; [done|]. wp_step.
  assert (index < length (entries s)) as Hi by by eapply lookup_lt_Some.
  eapply wp_update_entry; [rewrite entries_set; by apply list_lookup_insert_eq|].
  rewrite set_entries_twice. set (s1 := set_entries _ s).
  assert (entries s1 = <[index := recorded r st e]> (entries s)) as Hes1.
  { unfold s1. rewrite entries_set. apply list_insert_insert_eq. }
  assert (entries s1 !! index = Some (recorded r st e)) as He1
    by (rewrite Hes1; by apply list_lookup_insert_eq).
  assert (Inv s1 h) as HI1.
  { destruct (recorded_Inv s index e r st h) as [Hs Ha]; [done..|].
    split; [done|]. rewrite entries_set in Ha. by rewrite Hes1. }
  wp_step. apply wp_store_save_journal; [done|]. intros saved h1 HI2 Hl Hsync.
  destruct saved as [[]|err]; [|done]. specialize (Hsync eq_refl).
  assert (∀ a, res_covered [r] a → covered (entries s1) a) as Hall.
  { intros a Hc. eapply covered_entry; [done|]. simpl. apply res_covered_app. by right. }
  wp_step. eapply wp_mono; [|apply Hact]. intros ans s' h2 [-> Hreach].
  destruct ans as [[]|err]; simpl in Hreach.
  - apply Hk; [|done]. eapply Inv_reach; [exact HI2|exact Hsync|exact Hall|done|exact Hreach].
  - wp_step. eapply (wp_forget_last s s1 index e r st h); [done..| | |].
    + by eapply crash_safe_reach.
    + destruct Hreach as (_ & _ & Hlr). intros a [Ha|(q & Hq & _)]%Hlr; [by apply Hl|].
      by apply elem_of_nil in Hq.
    + intros s' HI'. wp_step. apply wp_persist; [done|]. intros h' HI3 _. by apply wp_ret.
Qed.

(** [manual_entry] returns an index of the [manual] owner. *)
Lemma wp_manual_entry uid s h (Q : io_result nat → DaemonCore → history → Prop) :
  Inv s h →
  (∀ r s' h', Inv s' h' →
     match r with
     | Ok index => ∃ e, entries s' !! index = Some e ∧ plain_owner (je_owner e)
     | Err _ => True
     end → Q r s' h') →
  wp (manual_entry uid) Q s h.
Proof.
  assert (plain_owner MANUAL_OWNER) as Hm by done.
  intros HI HQ. unfold manual_entry. wp_step. wp_step.
  destruct (position_of s uid MANUAL_OWNER) as [index|] eqn:Hpos.
  - apply wp_ret, HQ; [done|]. apply position_key in Hpos as (e & He & _ & Ho).
    exists e. by rewrite Ho.
  - wp_step. apply wp_modify. set (s1 := set_entries _ s).
    assert (entries s1 = entries s ++ [mkEntry uid MANUAL_OWNER Applying []]) as Hes
      by apply entries_set.
    wp_step. apply wp_store_save_journal.
    { destruct HI as [Hs Ha]. split; [done|]. rewrite Hes.
      apply accounts_push; [by apply wf_entry_plain|by apply position_no_key|done]. }
    intros [[]|err] h' HI' _ _; [|by apply HQ].
    do 3 wp_step. apply HQ; [done|]. rewrite Hes. eexists. by rewrite lookup_snoc.
Qed.
End record.

(** ** The manual edits *)

Section edits.
Context `{Env} `{IpNetLib}.

Lemma add_route_creates route :
  sr_managed route = true → creates_only (NetRoute route) (call (AddSystemRoute route)).
Proof. intros Hm. apply call_creates_only; [|done]. simpl. tauto. Qed.

Lemma suppress_route_creates route :
  sr_managed route = false → creates_only (SuppressedRoute route) (call (RemoveSystemRoute route)).
Proof. intros Hm. apply call_creates_only; [|done]. simpl. tauto. Qed.

Lemma add_rule_creates rule :
  ru_managed rule = true → creates_only (NetRule rule) (call (AddSystemRule rule)).
Proof. intros Hm. apply call_creates_only; [|done]. simpl. tauto. Qed.

Lemma suppress_rule_creates rule :
  ru_managed rule = false → creates_only (SuppressedRule rule) (call (RemoveSystemRule rule)).
Proof. intros Hm. apply call_creates_only; [|done]. simpl. tauto. Qed.

(** The success branch of an addition: the entry is now [Applied]. *)
Lemma wp_mark_applied {B} index e (x : B) s h :
  entries s !! index = Some e → Inv s h →
  wp (update_entry index (with_state Applied) ;;; persist ;;; ret x) (λ _, Inv) s h.
Proof.
  intros He [Hs Ha]. eapply wp_update_persist; [done|]. split; [done|]. rewrite entries_set.
  eapply accounts_insert; [done| |done|done|done].
  destruct Ha as [Hwf _]. apply wf_with_state. by eapply wf_entry_lookup.
Qed.

Lemma wp_persist_ret {B} (x : B) s h : Inv s h → wp (persist ;;; ret x) (λ _, Inv) s h.
Proof. intros HI. wp_step. apply wp_persist; [done|]. intros h' HI' _. by apply wp_ret. Qed.

(** What looks at the world only. *)
Lemma route_interface_index_looks params : creates_nothing (route_interface_index params).
Proof.
  intros s h. unfold route_interface_index.
  destruct (ra_interface_index params), (ra_interface_name params) as [name|];
    wp_steps; try done.
  destruct (map_err invalid_input (validate_iface_name name)) as [[]|]; [|done].
  wp_steps. destruct a as [index|]; wp_steps; eauto with calm.
Qed.

Lemma net_route_add_safe uid params : safe_op (net_route_add uid params).
Proof.
  intros s h HI. unfold net_route_add. cbv zeta. case_match; [done|].
  wp_step. eapply wp_mono; [|apply route_interface_index_looks].
  intros [interface_index|err] s1 h1 [-> Hcalm]; [|by eapply Inv_calm].
  case_match; [by eapply Inv_calm|].
  wp_step. apply wp_manual_entry; [by eapply Inv_calm|].
  intros [index|err] s1 h2 HI1 Hr; [|done]. destruct Hr as (e & He & Ho).
  eapply wp_record_then; [done|done|done|done|by apply add_route_creates|].
  intros s2 h3 HI2 He2. by eapply wp_mark_applied.
Qed.

(** Forgetting what is gone from the [manual] entry. *)
Lemma wp_retain_manual uid keep s h (Q : unit → DaemonCore → history → Prop) :
  Inv s h → (∀ r a, generic_resource r → keep r = false → covers r a → ¬ live h a) →
  (∀ s', Inv s' h → Q tt s' h) → wp (retain_manual uid keep) Q s h.
Proof.
  intros [Hs Ha] Hkeep HQ. unfold retain_manual. wp_step. wp_step.
  destruct (position_of s uid MANUAL_OWNER) as [index|] eqn:Hpos; [|by apply wp_ret, HQ].
  apply position_key in Hpos as (e & He & _ & Ho).
  assert (wf_entry e) as Hwf by (destruct Ha as [Hwf _]; by eapply wf_entry_lookup).
  assert (starts_with (je_owner e) "wg:" = false) as Hwg by (rewrite Ho; reflexivity).
  assert (openvpn_owner (je_owner e) = false) as Hov by (rewrite Ho; reflexivity).
  wp_step. eapply wp_update_entry; [done|].
  set (e' := with_resources (bfilter keep) e). set (s1 := set_entries _ s).
  assert (entries s1 = <[index := e']> (entries s)) as Hes by apply entries_set.
  assert (entries s1 !! index = Some e') as He1.
  { rewrite Hes. apply list_lookup_insert_eq. by eapply lookup_lt_Some. }
  assert (accounts (entries s1) h) as Ha1.
  { rewrite Hes. eapply accounts_insert; [done| |done| |done].
    - apply wf_generic_sub; [done..|]. intros r Hr. by apply elem_of_bfilter in Hr as [_ ?].
    - intros a Hl (r & Hr & Hc). exists r. split; [|done]. simpl. apply elem_of_bfilter.
      split; [|done]. destruct (keep r) eqn:Hk; [done|].
      destruct (Hkeep r a); [|done|done|done].
      destruct Hwf as [_ Hall]. rewrite Hwg, Hov, Forall_forall in Hall. by apply Hall. }
  wp_step. eapply wp_entry_at; [done|]. destruct (je_resources e') eqn:Hres.
  - eapply wp_remove_entry; [done|]. apply HQ. split; [done|]. rewrite entries_set.
    eapply accounts_delete; [done| |done]. rewrite Hres. intros a _ (q & Hq & _).
    by apply elem_of_nil in Hq.
  - apply wp_ret, HQ. by split.
Qed.

(** Deleting a managed object creates nothing and, on success, ends it. *)
Lemma quiet_remove_managed_route route ans :
  sr_managed route = true → quiet (Ev (RemoveSystemRoute route) ans).
Proof. intros Hm. split; [|done]. intros a (_ & Hf & _). congruence. Qed.

Lemma quiet_remove_managed_rule rule ans :
  ru_managed rule = true → quiet (Ev (RemoveSystemRule rule) ans).
Proof. intros Hm. split; [|done]. intros a (_ & Hf & _). congruence. Qed.

Lemma net_route_del_manual_safe uid route :
  sr_managed route = true → safe_op (net_route_del_manual uid route).
Proof.
  intros Hm s h HI. unfold net_route_del_manual. wp_step. wp_step.
  assert (calm h (Ev (RemoveSystemRoute route) a :: h)) as Hcalm
    by by apply calm_quiet, quiet_remove_managed_route.
  destruct a as [[]|err]; [|by eapply Inv_calm].
  wp_step. apply wp_retain_manual; [by eapply Inv_calm| |].
  - intros r a Hg Hk Hc. destruct r; try done. apply negb_false_iff in Hk.
    apply same_system_route_identity in Hk.
    apply not_live_ended; [by apply quiet_remove_managed_route|].
    split_and!; [done|done|]. destruct a; simpl in *; try done. congruence.
  - intros s' HI'. by apply wp_persist_ret.
Qed.

Lemma net_route_del_safe uid route : safe_op (net_route_del uid route).
Proof.
  intros s h HI. unfold net_route_del. case_match; [done|]. case_match; [done|].
  destruct (sr_managed route) eqn:Hm.
  - unfold net_route_del_owned. do 2 wp_step. case_match; [case_match|].
    + by apply net_route_del_manual_safe.
    + by wp_steps.
    + wp_step. wp_step.
      assert (Inv s (Ev (RemoveSystemRoute route) a :: h)).
      { eapply Inv_calm; [|done]. by apply calm_quiet, quiet_remove_managed_route. }
      by destruct a as [[]|]; [apply wp_ret|].
  - wp_step. apply wp_manual_entry; [done|].
    intros [index|err] s1 h2 HI1 Hr; [|done]. destruct Hr as (e & He & Ho).
    eapply wp_record_then; [done|done|done|done|by apply suppress_route_creates|].
    intros s2 h3 HI2 He2. by apply wp_persist_ret.
Qed.

Lemma net_rule_add_safe uid params : safe_op (net_rule_add uid params).
Proof.
  intros s h HI. unfold net_rule_add. do 3 (case_match; [done|]).
  wp_step. wp_step. destruct (map_err _ _) as [[]|]; [|done]. cbv zeta.
  wp_step. apply wp_manual_entry; [done|].
  intros [index|err] s1 h2 HI1 Hr; [|done]. destruct Hr as (e & He & Ho).
  eapply wp_record_then; [done|done|done|done| |].
  - by apply with_policy_creates_only, add_rule_creates.
  - intros s2 h3 HI2 He2. by eapply wp_mark_applied.
Qed.

Lemma wp_remove_rule rule (Q : io_result unit → DaemonCore → history → Prop) s h :
  ru_managed rule = true → Inv s h →
  (∀ r h', Inv s h' → (is_ok r = true → ¬ live h' (ANetRule rule)) → Q r s h') →
  wp (with_policy (call (RemoveSystemRule rule))) Q s h.
Proof.
  intros Hm HI HQ. apply wp_with_policy; intros _; [|by apply HQ].
  apply wp_call. intros r. apply HQ.
  - eapply Inv_calm; [|done]. by apply calm_quiet, quiet_remove_managed_rule.
  - intros Hok. apply not_live_ended; [by apply quiet_remove_managed_rule|].
    by destruct r.
Qed.

Lemma net_rule_del_safe uid rule : safe_op (net_rule_del uid rule).
Proof.
  intros s h HI. unfold net_rule_del. do 2 (case_match; [done|]).
  destruct (ru_managed rule) eqn:Hm.
  - unfold net_rule_del_owned. do 2 wp_step. case_match; [case_match; [done|]|].
    + wp_step. apply wp_remove_rule; [done..|]. intros [[]|err] h' HI' Hdead; [|done].
      wp_step. apply wp_retain_manual; [done| |].
      * intros r a Hg Hk Hc. destruct r; try done. apply negb_false_iff, bool_decide_eq_true in Hk.
        subst. destruct a; simpl in Hc; try done. subst. by apply Hdead.
      * intros s' HI2. by apply wp_persist_ret.
    + wp_step. apply wp_remove_rule; [done..|]. intros [[]|err] h' HI' _; [|done].
      by apply wp_persist_ret.
  - wp_step. apply wp_manual_entry; [done|].
    intros [index|err] s1 h2 HI1 Hr; [|done]. destruct Hr as (e & He & Ho).
    eapply wp_record_then; [done|done|done|done| |].
    + by apply with_policy_creates_only, suppress_rule_creates.
    + intros s2 h3 HI2 He2. by apply wp_persist_ret.
Qed.

(** ** Removal *)

Lemma teardown_post_Inv s index h r s' h' : teardown_post s index h r s' h' → Inv s' h'.
Proof. by intros [? _]. Qed.

Lemma wp_teardown_persist {B} index e (x : io_result unit → B) s h :
  entries s !! index = Some e → Inv s h →
  wp (let! result := teardown_entry index in persist ;;; ret (x result)) (λ _, Inv) s h.
Proof.
  intros He HI. wp_step. eapply wp_mono; [|by eapply wp_teardown_entry].
  intros r s' h' Hp%teardown_post_Inv. by apply wp_persist_ret.
Qed.

Lemma remove_owner_inner_safe uid owner : safe_op (remove_owner_inner uid owner).
Proof.
  intros s h HI. unfold remove_owner_inner. do 4 wp_step.
  destruct (position_of s uid owner) as [index|] eqn:Hpos; [|done].
  apply position_key in Hpos as (e & He & _). simpl. wp_step.
  eapply wp_entry_at; [done|]. cbv zeta. by eapply wp_teardown_persist.
Qed.

Lemma remove_owner_safe uid owner : safe_op (remove_owner uid owner).
Proof.
  intros s h HI. unfold remove_owner. do 2 wp_step. case_match; [|done]. do 4 wp_step.
  destruct (position_of s uid owner) as [index|] eqn:Hpos; [|done].
  apply position_key in Hpos as (e & He & _). simpl. do 2 (case_match; [done|]). wp_step.
  eapply wp_entry_at; [done|]. cbv zeta. by eapply wp_teardown_persist.
Qed.

Lemma teardown_safe matches : safe_op (teardown matches).
Proof. intros s h HI. eapply wp_mono; [|by apply wp_teardown]. by intros r s' h' [? _]. Qed.

Lemma cleanup_uid_safe uid : safe_op (cleanup_uid uid).
Proof.
  intros s h HI. unfold cleanup_uid. do 2 wp_step. apply teardown_safe.
  eapply Inv_state; [|done]. by destruct s.
Qed.
End edits.
