(* ===== verification/SafetyWireGuard.v ===== *)
(** * WireGuard connections are accounted for

    [connect_wireguard] and [disconnect_wireguard] keep the invariant
    [Inv]: each address, route and rule of a connection is on disk before
    the kernel gets it. *)

From S2P Require Export SafetyRoutes.

(** Entry [index] is the one of the connection being built, its link at
    interface [i]. *)
Definition linked (key : owner_key) (index : nat) (i : Z) (s : DaemonCore) : Prop :=
  ∃ e link rest, entries s !! index = Some e ∧ entry_key e = key ∧
    je_resources e = WireGuardLink link :: rest ∧ wl_index link = i ∧
    Forall (link_resource i) rest.

Definition building (key : owner_key) (index : nat) (i : Z) (s : DaemonCore) (h : history) : Prop :=
  Inv s h ∧ linked key index i s.

Definition wg_key (key : owner_key) : Prop :=
  starts_with key.2 "wg:" = true ∧ other_tunnel key.2 = false.

Lemma wg_key_of uid profile_id : wg_key (uid, "wg:" +:+ profile_id).
Proof. split; [apply starts_with_app|reflexivity]. Qed.

Section steps.
Context `{Env} `{IpNetLib}.
Context (key : owner_key) (Hkey : wg_key key) (index : nat).

Lemma wf_entry_wg uid owner st link rest :
  (uid, owner) = key → Forall (link_resource (wl_index link)) rest →
  wf_entry (mkEntry uid owner st (WireGuardLink link :: rest)).
Proof.
  intros Hk Hrest. destruct Hkey as [Hwg Ho]. rewrite <- Hk in Hwg, Ho. simpl in Hwg, Ho.
  split; [done|]. simpl. rewrite Hwg. by exists link, rest.
Qed.

Lemma building_calm i s h h' : calm h h' → building key index i s h → building key index i s h'.
Proof. intros Hc [HI Hl]. split; [by eapply Inv_calm|done]. Qed.

Lemma building_state i s s' h :
  entries s' = entries s → building key index i s h → building key index i s' h.
Proof. unfold building, linked, Inv. by intros ->. Qed.

(** A change of the entry's resources that forgets nothing live. *)
Lemma wp_update_building f i i' s h (Q : unit → DaemonCore → history → Prop) :
  building key index i s h →
  (∀ link rest, (∀ e, entries s !! index = Some e → je_resources e = WireGuardLink link :: rest) →
     wl_index link = i → Forall (link_resource i) rest → ∃ link' rest',
     f (WireGuardLink link :: rest) = WireGuardLink link' :: rest' ∧ wl_index link' = i' ∧
     Forall (link_resource i') rest' ∧ ∀ a, res_covered rest a → res_covered rest' a) →
  (∀ s', building key index i' s' h → Q tt s' h) →
  wp (update_entry index (with_resources f)) Q s h.
Proof.
  intros [[Hs Ha] (e & link & rest & He & Hk & Hres & Hi & Hrest)] Hf HQ.
  eapply wp_update_entry; [done|].
  destruct (Hf link rest) as (link' & rest' & Hres' & Hi' & Hrest' & Hcov);
    [intros; congruence|done|done|].
  assert (je_resources (with_resources f e) = WireGuardLink link' :: rest') as Hres2
    by (simpl; by rewrite Hres).
  assert (wf_entry (with_resources f e)) as Hwf.
  { destruct e as [u o st rs]. simpl in *. unfold with_resources. simpl. rewrite Hres2.
    apply wf_entry_wg; [done|]. by rewrite Hi'. }
  apply HQ. split.
  - split; [done|]. rewrite entries_set. eapply accounts_insert; [done|done|done| |done].
    intros a _ (r & Hr & Hc). rewrite Hres in Hr. apply elem_of_cons in Hr as [->|Hr]; [done|].
    rewrite Hres2. destruct (Hcov a) as (q & Hq & Hqc); [by exists r|].
    exists q. split; [by right|done].
  - exists (with_resources f e), link', rest'. rewrite entries_set.
    split_and!; try done. apply list_lookup_insert_eq. by eapply lookup_lt_Some.
Qed.

Lemma wp_save_building i s h (Q : io_result unit → DaemonCore → history → Prop) :
  building key index i s h →
  (∀ r h', building key index i s h' → (is_ok r = true → synced s h') → Q r s h') →
  wp store_save_journal Q s h.
Proof.
  intros [HI Hl] HQ. apply wp_store_save_journal; [done|]. intros r h' HI' _ Hsync.
  by apply HQ.
Qed.

(** The last resource recorded for the entry. *)
Definition last_resource (r : OwnedResource) (s : DaemonCore) : Prop :=
  ∃ e link rest, entries s !! index = Some e ∧ je_resources e = WireGuardLink link :: rest ++ [r].

Lemma wp_push_and_save r i s h (Q : io_result unit → DaemonCore → history → Prop) :
  link_resource i r → building key index i s h →
  (∀ ans s' h', building key index i s' h' → last_resource r s' →
     (is_ok ans = true → synced s' h') → Q ans s' h') →
  wp (push_and_save index r) Q s h.
Proof.
  intros Hr [[Hs Ha] (e & link & rest & He & Hk & Hres & Hi & Hrest)] HQ.
  unfold push_and_save. wp_step. eapply wp_update_entry; [done|]. set (s1 := set_entries _ s).
  assert (je_resources (push_resource r e) = WireGuardLink link :: (rest ++ [r])) as Hres2
    by (simpl; by rewrite Hres).
  assert (entries s1 = <[index := push_resource r e]> (entries s)) as Hes by apply entries_set.
  assert (entries s1 !! index = Some (push_resource r e)) as He1.
  { rewrite Hes. apply list_lookup_insert_eq. by eapply lookup_lt_Some. }
  assert (Forall (link_resource i) (rest ++ [r])) as Hrest2
    by (apply Forall_app; split; [done|by constructor]).
  eapply wp_save_building.
  - split; [split; [done|]|].
    + rewrite Hes. eapply accounts_insert; [done| |done| |done].
      * destruct e as [u o st rs]. unfold push_resource, with_resources. simpl in *.
        rewrite Hres2. apply wf_entry_wg; [done|]. by rewrite Hi.
      * intros a _ Hc. simpl. apply res_covered_app. by left.
    + by exists (push_resource r e), link, (rest ++ [r]).
  - intros ans h1 Hb Hsync. apply HQ; [done| |done]. by exists (push_resource r e), link, rest.
Qed.

Lemma last_resource_covers r s a : last_resource r s → covers r a → covered (entries s) a.
Proof.
  intros (e & link & rest & He & Hres) Hc. eapply covered_entry; [done|]. rewrite Hres.
  exists r. split; [|done]. right. apply elem_of_app. right. by apply list_elem_of_singleton.
Qed.

(** Record [r], then act: the pattern of every step of a connection. *)
Lemma wp_record_act {B} r (act : M DaemonCore (io_result B)) i s h :
  link_resource i r → building key index i s h →
  (∀ s h, wp act (λ _ s' h', s' = s ∧ reach [r] [r] h h') s h) →
  wp (let? _ := push_and_save index r in act)
     (λ _ s' h', building key index i s' h') s h.
Proof.
  intros Hr Hb Hact. wp_step. eapply wp_push_and_save; [done|done|].
  intros [[]|err] s1 h1 Hb1 Hlast Hsync; [|done].
  specialize (Hsync eq_refl). destruct Hb1 as [HI Hl].
  eapply wp_mono; [|apply Hact]. intros ans s' h2 [-> Hreach]. split; [|done].
  eapply Inv_reach; [exact HI|exact Hsync| |done|exact Hreach].
  intros a Hc%res_covered_one. by eapply last_resource_covers.
Qed.

(** A call that only [r] covers. *)
Lemma call_reach {B} r (c : ext B) s h :
  (∀ a ans, creates (Ev c ans) a → covers r a) → (∀ ans h, disk (Ev c ans :: h) = disk h) →
  wp (call (S := DaemonCore) c) (λ _ s' h', s' = s ∧ reach [r] [r] h h') s h.
Proof.
  intros Hc Hd. apply wp_call. intros ans. split; [done|].
  apply (reach_create [r] []); [apply list_elem_of_here|intros a; apply Hc|apply Hd|apply reach_refl].
Qed.

Lemma wp_look {B} (act : M DaemonCore B) i s h (Q : B → DaemonCore → history → Prop) :
  creates_nothing act → building key index i s h →
  (∀ b h', building key index i s h' → Q b s h') → wp act Q s h.
Proof.
  intros Hact Hb HQ. eapply wp_mono; [|apply Hact]. intros b s' h' [-> Hc].
  apply HQ. by eapply building_calm.
Qed.
End steps.

#[export] Hint Extern 2 (creates_nothing (call _)) =>
  apply call_creates_nothing; intros; solve_quiet : calm.

Lemma creates_nothing_ret `{Env} {A} (x : A) : creates_nothing (ret x).
Proof. done. Qed.
#[export] Hint Resolve creates_nothing_ret : calm.

Lemma creates_nothing_bind `{Env} {A B} (m : M DaemonCore A) (f : A → M DaemonCore B) :
  creates_nothing m → (∀ x, creates_nothing (f x)) → creates_nothing (bind m f).
Proof.
  intros Hm Hf s h. wp_step. eapply wp_mono; [|apply Hm]. intros x s' h' [-> Hc].
  eapply wp_mono; [|apply Hf]. intros y s'' h'' [-> Hc']. split; [done|by eapply calm_trans].
Qed.

Lemma creates_nothing_try `{Env} {A B} (m : M DaemonCore (io_result A))
    (f : A → M DaemonCore (io_result B)) :
  creates_nothing m → (∀ x, creates_nothing (f x)) → creates_nothing (try_bind m f).
Proof. intros Hm Hf. apply creates_nothing_bind; [done|]. intros [x|e]; [apply Hf|done]. Qed.

Lemma creates_nothing_get `{Env} {A} (f : DaemonCore → M DaemonCore A) :
  (∀ c, creates_nothing (f c)) → creates_nothing (bind get f).
Proof. intros Hf s h. do 2 wp_step. apply Hf. Qed.

Lemma creates_nothing_for_acc `{Env} {A B} (l : list A) (acc : B) (body : B → A → M DaemonCore B) :
  (∀ acc x, creates_nothing (body acc x)) → creates_nothing (for_acc l acc body).
Proof.
  intros Hb. revert acc. induction l as [|x l IH]; intros acc; simpl; [done|].
  apply creates_nothing_bind; [apply Hb|done].
Qed.

(** Shows that a definition only looks, by its structure. *)
Ltac look :=
  lazymatch goal with
  | |- creates_nothing (ret _) => apply creates_nothing_ret
  | |- creates_nothing (lift _) => apply creates_nothing_ret
  | |- creates_nothing (fail _) => apply creates_nothing_ret
  | |- creates_nothing (call _) => apply call_creates_nothing; intros; solve_quiet
  | |- creates_nothing (bind get _) => apply creates_nothing_get; intros ?
  | |- creates_nothing (try_bind _ _) => apply creates_nothing_try; [|intros ?]
  | |- creates_nothing (bind _ _) => apply creates_nothing_bind; [|intros ?]
  | |- creates_nothing (match _ with _ => _ end) => case_match
  | |- creates_nothing (for_acc _ _ _) => apply creates_nothing_for_acc; intros ? ?
  | |- creates_nothing (let _ := _ in _) => cbv zeta
  end.
Ltac looks := repeat look.

(** ** The steps of a connection *)

Section connect.
Context `{Env} `{IpNetLib}.

Lemma create_link_looks name fallback_name marker :
  creates_nothing (create_link name fallback_name marker).
Proof. unfold create_link. looks. Qed.

Lemma find_slot_looks c plan existing wg_marks slots :
  creates_nothing (find_slot c plan existing wg_marks slots).
Proof. induction slots as [|slot slots IH]; simpl; looks; exact IH. Qed.

Lemma allocate_full_looks plan s h :
  ex_wg_config (dc_wired s) = true →
  wp (allocate_full plan) (λ _ s' h', s' = s ∧ calm h h') s h.
Proof.
  intros Hw. unfold allocate_full. case_match; [done|]. do 2 wp_step. do 2 (case_match; [done|]).
  do 2 wp_step. destruct a as [existing|err]; [|eauto with calm].
  do 2 wp_step. rewrite Hw. change (negb true) with false. cbv iota. do 2 wp_step. destruct a as [marks|err]; [|eauto with calm].
  eapply wp_mono; [|apply find_slot_looks]. intros r s' h' [-> Hc]. split; [done|].
  eapply calm_trans; [|exact Hc]. eauto with calm.
Qed.

Section with_key.
Context (key : owner_key) (Hkey : wg_key key) (index : nat).
Local Notation building := (building key index).

Lemma link_resource_route plan full i route :
  link_resource i (Route (wireguard_route plan full i route)).
Proof. unfold wireguard_route. by case_match. Qed.

(** The last loop of a list of recorded steps. *)
Lemma wp_for_building {A} (l : list A) (body : A → M DaemonCore (io_result unit)) i s h :
  (∀ x s h, building i s h → wp (body x) (λ _, building i) s h) → building i s h →
  wp (for_try l tt (λ _, body)) (λ _, building i) s h.
Proof.
  intros Hbody Hb. apply wp_for_try with (I := λ _ _, building i); [done| |done].
  intros x l' [] s' h' Hb'. eapply wp_mono; [|by apply Hbody]. by intros [[]|e].
Qed.

Lemma wp_addresses_loop plan i s h :
  building i s h →
  wp (for_try (wp_addresses plan) tt (λ _ address,
        let? _ := push_and_save index (Address (mkAddressResource i address)) in
        call (WgAddAddress i address))) (λ _, building i) s h.
Proof.
  apply wp_for_building. intros address s' h' Hb.
  apply (wp_record_act key Hkey index (Address (mkAddressResource i address))); [done|done|].
  intros s1 h1. apply call_reach; [|done]. by intros a ans [_ Ha].
Qed.

Lemma wp_routes_loop plan full i s h :
  building i s h →
  wp (for_try (wp_routes plan) tt (λ _ route,
        if existsb (λ address, trunc address =b pr_destination route) (wp_addresses plan)
        then ret (Ok tt)
        else
          let applied := wireguard_route plan full i route in
          let? _ := push_and_save index (Route applied) in
          call (AddRoute applied))) (λ _, building i) s h.
Proof.
  apply wp_for_building. intros route s' h' Hb. case_match; [by apply wp_ret|]. cbv zeta.
  apply (wp_record_act key Hkey index (Route (wireguard_route plan full i route)));
    [apply link_resource_route|done|].
  intros s1 h1. apply call_reach; [|done]. by intros a ans [_ Ha].
Qed.

Lemma wp_rules_loop full i s h :
  building i s h →
  wp (for_try (full_policy_rules full) tt (λ _ rule,
        let? _ := push_and_save index (Rule rule) in
        call (AddRule rule))) (λ _, building i) s h.
Proof.
  apply wp_for_building. intros rule s' h' Hb.
  apply (wp_record_act key Hkey index (Rule rule)); [done|done|].
  intros s1 h1. apply call_reach; [|done]. by intros a ans [_ Ha].
Qed.

(** Changes of the link record that do not move it. *)
Lemma wp_update_link_building f i s h (Q : unit → DaemonCore → history → Prop) :
  building i s h → (∀ l, wl_index l = i → wl_index (f l) = i) →
  (∀ s', building i s' h → Q tt s' h) →
  wp (update_entry index (with_resources (update_link f))) Q s h.
Proof.
  intros Hb Hf HQ. eapply wp_update_building; [done|done| |done].
  intros link rest _ Hi Hrest. exists (f link), rest. by split_and!; [|apply Hf| |].
Qed.

(** ** The DNS record, the last of the entry *)

Lemma last_dns_split (link : OwnedResource) (rest : list OwnedResource) d :
  last (link :: rest ++ [Dns d]) = Some (Dns d) ∧
  pop_list (link :: rest ++ [Dns d]) = link :: rest.
Proof. split; [by rewrite app_comm_cons, last_snoc|by rewrite app_comm_cons, pop_list_app]. Qed.

Lemma res_covered_dns rest d d' a : res_covered (rest ++ [Dns d]) a → res_covered (rest ++ [Dns d']) a.
Proof.
  rewrite !res_covered_app. intros [?|(r & ->%list_elem_of_singleton & [])]. by left.
Qed.

Lemma wp_dns_building f i s h (Q : unit → DaemonCore → history → Prop) :
  building i s h → (∃ d, last_resource index (Dns d) s) →
  (f = mark_last_dns ∨ f = pop_list) →
  (∀ s', building i s' h → Q tt s' h) →
  wp (update_entry index (with_resources f)) Q s h.
Proof.
  intros [[Hs Ha] (e & link & rest & He & Hk & Hres & Hi & Hrest)]
    (d & e' & link' & rest' & He' & Hres') Hf HQ.
  assert (e' = e) as -> by congruence. rewrite Hres' in Hres. injection Hres as <- <-.
  eapply wp_update_entry; [done|]. destruct (last_dns_split (WireGuardLink link') rest' d) as [Hlast Hpop].
  assert (∃ tl, f (je_resources e) = WireGuardLink link' :: tl ∧
    Forall (link_resource i) tl ∧ ∀ a, res_covered (rest' ++ [Dns d]) a → res_covered tl a)
    as (tl & Htl & Hall & Hcov).
  { apply Forall_app in Hrest as [Hr1 Hr2]. rewrite Hres'. destruct Hf as [->| ->].
    - exists (rest' ++ [Dns (dns_with_applied true d)]). unfold mark_last_dns.
      rewrite Hlast, Hpop. split_and!; [done| |intros a; apply res_covered_dns].
      apply Forall_app. split; [done|by constructor].
    - exists rest'. rewrite Hpop. split_and!; [done|done|].
      intros a. rewrite res_covered_app. by intros [?|(r & ->%list_elem_of_singleton & [])]. }
  apply HQ. split.
  - split; [done|]. rewrite entries_set. eapply accounts_insert; [done| |done| |done].
    + destruct e as [u o st rs]. unfold with_resources. simpl in *. rewrite Htl.
      eapply wf_entry_wg; [done|done|]. by rewrite Hi.
    + intros a _ (r & Hr & Hc). simpl. rewrite Hres' in Hr. rewrite Htl.
      apply elem_of_cons in Hr as [->|Hr]; [done|].
      destruct (Hcov a) as (q & Hq & Hqc); [by exists r|]. exists q. split; [by right|done].
  - exists (with_resources f e), link', tl. rewrite entries_set.
    split_and!; try done. apply list_lookup_insert_eq. by eapply lookup_lt_Some.
Qed.

Lemma connect_dns_building plan full i name s h :
  building i s h → wp (connect_dns index plan full i name) (λ _, building i) s h.
Proof.
  intros Hb. unfold connect_dns. destruct (wp_dns_servers plan) as [|x l]; [by apply wp_ret|].
  wp_step. eapply wp_push_and_save; [done|done|done|].
  intros [[]|err] s1 h1 Hb1 Hlast _; [|done]. do 2 wp_step.
  assert (∀ s' h', building i s' h' → wp store_save_journal (λ _, building i) s' h') as Hsave.
  { intros s' h' Hb'. by eapply wp_save_building. }
  set (h2 := _ :: h1). assert (building i s1 h2) as Hb2
    by (eapply building_calm; [|done]; apply calm_quiet; solve_quiet).
  destruct a as [outcome|e]; [|by apply wp_ret]. wp_step. destruct outcome.
  - eapply wp_dns_building; [done|by eexists|by left|auto].
  - eapply wp_update_link_building; [done|done|auto].
  - wp_step. eapply wp_dns_building; [done|by eexists|by right|]. intros s2 Hb3.
    eapply wp_update_link_building; [done|done|auto].
Qed.

(** The link exists: its record moves to the interface created. *)
Lemma wp_place_link ifindex name s h (Q : unit → DaemonCore → history → Prop) :
  building 0 s h → (∃ e link, entries s !! index = Some e ∧ je_resources e = [WireGuardLink link]) →
  (∀ s', building ifindex s' h → Q tt s' h) →
  wp (update_entry index (with_resources (update_link (with_index ifindex name)))) Q s h.
Proof.
  intros Hb (e & l & He & Hres) HQ. eapply wp_update_building; [done|done| |done].
  intros link rest Hall _ _. rewrite (Hall e He) in Hres. injection Hres as -> ->.
  exists (with_index ifindex name l), []. by split_and!.
Qed.

(** Sequencing of steps that keep [building]. *)
Lemma wp_building_try {A B} (m : M DaemonCore (io_result A)) (f : A → M DaemonCore (io_result B))
    i s h :
  wp m (λ _, building i) s h →
  (∀ x s' h', building i s' h' → wp (f x) (λ _, building i) s' h') →
  wp (try_bind m f) (λ _, building i) s h.
Proof. intros Hm Hf. wp_step. eapply wp_mono; [|exact Hm]. intros [x|e] s' h' Hb; auto. Qed.

Lemma wp_building_look {A} (m : M DaemonCore A) i s h :
  creates_nothing m → building i s h → wp m (λ _, building i) s h.
Proof. intros Hm Hb. by eapply wp_look. Qed.

Lemma connect_body_building plan full i name s h :
  building i s h → wp (connect_body index plan full i name) (λ _, building i) s h.
Proof.
  intros Hb. unfold connect_body. apply wp_building_try.
  { apply wp_building_look; [looks|done]. }
  clear Hb. intros _ s1 h1 Hb. apply wp_building_try; [by apply wp_addresses_loop|].
  clear Hb. intros _ s2 h2 Hb. apply wp_building_try.
  { apply wp_building_look; [looks|done]. }
  clear Hb. intros _ s3 h3 Hb. apply wp_building_try.
  { apply wp_building_look; [looks|done]. }
  clear Hb. intros _ s4 h4 Hb. apply wp_building_try; [by apply wp_routes_loop|].
  clear Hb. intros _ s5 h5 Hb. apply wp_building_try.
  { destruct full as [full|]; [|by apply wp_ret].
    apply wp_building_try; [by apply wp_rules_loop|]. intros _ s6 h6 Hb6.
    apply wp_building_look; [looks|done]. }
  clear Hb. intros _ s6 h6 Hb. by apply connect_dns_building.
Qed.

Lemma connect_steps_building plan full name fallback_name marker s h :
  building 0 s h → (∃ e link, entries s !! index = Some e ∧ je_resources e = [WireGuardLink link]) →
  wp (connect_steps index plan full name fallback_name marker)
     (λ _ s' h', ∃ i, building i s' h') s h.
Proof.
  intros Hb Hone. unfold connect_steps. wp_step. eapply wp_look; [apply create_link_looks|done|].
  intros [[ifindex name']|err] h1 Hb1; [|by exists 0%Z].
  wp_step. eapply wp_place_link; [done|done|]. clear Hb. intros s2 Hb.
  eapply wp_mono; [intros ? ? ? Hp; exists ifindex; exact Hp|].
  apply wp_building_try; [by eapply wp_save_building|].
  clear Hb. intros _ s3 h3 Hb. apply wp_building_try.
  { apply wp_building_look; [looks|done]. }
  clear Hb. intros _ s4 h4 Hb. wp_step. eapply wp_look; [looks|done|].
  intros [endpoints|err] h5 Hb5; [|done].
  case_match; [done|]. by apply connect_body_building.
Qed.
End with_key.

(** ** Connecting and disconnecting *)

(** Status only looks, and tracks the handshake. *)
Definition keeps_entries {A} (m : M DaemonCore A) : Prop :=
  ∀ s h, wp m (λ _ s' h', entries s' = entries s ∧ dc_wired s' = dc_wired s ∧ calm h h') s h.

Lemma keeps_entries_safe {A} (m : M DaemonCore A) : keeps_entries m → safe_op m.
Proof.
  intros Hm s h HI. eapply wp_mono; [|apply Hm]. intros x s' h' (He & _ & Hc).
  eapply Inv_calm; [done|]. by eapply Inv_state.
Qed.

Lemma wireguard_status_keeps uid profile_id : keeps_entries (wireguard_status uid profile_id).
Proof.
  intros s h. unfold wireguard_status. cbv zeta. wp_step. wp_step. wp_step.
  eapply wp_mono with (Q := λ _ s' h', entries s' = entries s ∧ dc_wired s' = dc_wired s ∧ calm h h').
  { intros [[[]]] s' h' Hp. by apply wp_ret. }
  case_match; [case_match|]; [|by apply wp_ret|by case_match; apply wp_ret].
  case_match; [|by apply wp_ret]. wp_step.
  destruct (ex_wg_config (dc_wired s)); wp_steps; [|done].
  destruct a as [[[handshake rx] tx]|]; simpl; wp_steps; [|split_and!; eauto with calm].
  destruct (observe_handshake _ _ _ _) as [state watch]. wp_steps.
  split_and!; [by destruct s|by destruct s|eauto with calm].
Qed.

(** The entry removed when the link never came to be covers nothing. *)
Lemma only_intent_covers rs a : only_intent rs = true → ¬ res_covered rs a.
Proof.
  intros Hr (r & Hin & Hc). destruct rs as [|[] [|]]; try done.
  by apply list_elem_of_singleton in Hin as ->.
Qed.

Lemma wp_teardown_persist_fail {B} index e err s h :
  entries s !! index = Some e → Inv s h →
  wp (let! _ := teardown_entry index in persist ;;; fail (A := B) (E := io_error) err)
     (λ _, Inv) s h.
Proof.
  intros He HI. wp_step. eapply wp_mono; [|by eapply wp_teardown_entry].
  intros r s' h' Hp%teardown_post_Inv. by apply wp_persist_ret.
Qed.

(** After the write-ahead record: connect, and undo on any failure. *)
Lemma wp_connect_after uid profile_id index plan full name fallback_name marker s h :
  building (uid, "wg:" +:+ profile_id) index 0 s h →
  (∃ e link, entries s !! index = Some e ∧ je_resources e = [WireGuardLink link]) →
  wp (let! result := connect_steps index plan full name fallback_name marker in
      match result with
      | Err err =>
        let! entry := entry_at index in
        if has_kind AlreadyExists err && only_intent (je_resources entry) then
          remove_entry index ;;; persist ;;; fail err
        else
          let! _ := teardown_entry index in
          persist ;;; fail err
      | Ok _ =>
        update_entry index (with_state Applied) ;;;
        let! saved := store_save_journal in
        match saved with
        | Err err =>
          let! _ := teardown_entry index in
          persist ;;; fail err
        | Ok _ =>
          modify (set_tunnel_failed (λ m, m ∖ {[(uid, "wg:" +:+ profile_id)]})) ;;;
          modify (set_wireguard_handshake (delete (uid, "wg:" +:+ profile_id))) ;;;
          let! status := wireguard_status uid profile_id in
          ret (Ok status)
        end
      end) (λ _, Inv) s h.
Proof.
  intros Hb Hone. wp_step.
  eapply wp_mono; [|apply connect_steps_building; [apply wg_key_of|exact Hb|exact Hone]].
  intros [[]|err] s1 h1 (i & [HI Hl]).
  all: destruct Hl as (e & link & rest & He & Hk & Hres & Hi & Hrest).
  - wp_step. eapply wp_update_entry; [done|]. set (s2 := set_entries _ s1).
    assert (entries s2 = <[index := with_state Applied e]> (entries s1)) as Hes
      by apply entries_set.
    assert (Inv s2 h1) as HI2.
    { destruct HI as [Hs Ha]. split; [done|]. rewrite Hes.
      eapply accounts_insert; [done| |done|done|done]. apply wf_with_state.
      destruct Ha as [Hwf _]. by eapply wf_entry_lookup. }
    wp_step. apply wp_store_save_journal; [done|]. intros [[]|err] h2 HI3 _ _.
    + do 5 wp_step. eapply wp_mono; [|apply wireguard_status_keeps].
      intros status s' h' (Hes' & _ & Hc). apply wp_ret. eapply Inv_calm; [done|].
      eapply Inv_state; [|exact HI3]. rewrite Hes'. by destruct s2.
    + eapply wp_teardown_persist_fail; [|done].
      rewrite Hes. apply list_lookup_insert_eq. by eapply lookup_lt_Some.
  - wp_step. eapply wp_entry_at; [done|].
    destruct (has_kind AlreadyExists err && only_intent (je_resources e)) eqn:Hint.
    + apply andb_true_iff in Hint as [_ Hint]. wp_step. eapply wp_remove_entry; [done|].
      apply wp_persist_ret. destruct HI as [Hs Ha]. split; [done|]. rewrite entries_set.
      eapply accounts_delete; [done| |done]. intros a _. by apply only_intent_covers.
    + by eapply wp_teardown_persist_fail.
Qed.

Lemma connect_wireguard_safe uid profile_id plan :
  safe_op (connect_wireguard uid profile_id plan).
Proof.
  intros s h HI. unfold connect_wireguard, wireguard_owner. do 2 wp_step.
  destruct (map_err invalid_input (validate_owner profile_id)) as [[]|]; [|done].
  unfold rbind. cbv beta iota. do 2 wp_step. case_match; [done|].
  destruct (position_of s uid ("wg:" +:+ profile_id)) eqn:Hpos; [done|].
  destruct (negb (ex_wg (dc_wired s)) || negb (ex_wg_config (dc_wired s))) eqn:Hex; [done|].
  apply orb_false_iff in Hex as [_ Hcfg%negb_false_iff].
  change (is_some None) with false. cbv iota.
  wp_step. eapply wp_mono; [|by apply allocate_full_looks]. intros [full|err] s' h1 [-> Hc];
    [|by eapply Inv_calm].
  destruct (wireguard_name uid profile_id (wp_interface_name plan)) as [name fallback_name].
  cbv zeta. wp_step. apply wp_modify. do 2 wp_step. wp_step.
  match goal with |- context [set_entries (λ es, es ++ [?x]) s] => set (e := x) end.
  set (s1 := set_entries _ s).
  assert (entries s1 = entries s ++ [e]) as Hes by apply entries_set.
  assert (entries s1 !! (length (entries s1) - 1) = Some e) as He1
    by (rewrite Hes; apply lookup_snoc).
  assert (Inv s1 h1) as HI1.
  { eapply (Inv_calm _ _ _ Hc) in HI as [Hs Ha]. split; [done|]. rewrite Hes.
    apply accounts_push; [|by apply position_no_key|done].
    apply (wf_entry_wg (uid, "wg:" +:+ profile_id)); [apply wg_key_of|done|constructor]. }
  apply wp_store_save_journal; [done|]. intros [[]|err] h2 HI2 Hl _.
  - apply wp_connect_after; [|by do 2 eexists].
    split; [done|]. eexists _, _, []. by split_and!.
  - wp_step. apply wp_modify, wp_ret. destruct HI2 as [Hs2 _]. split; [done|].
    rewrite entries_set, Hes, pop_list_app.
    eapply (Inv_calm _ _ _ Hc) in HI as [_ [Hwf Hcov]]. split; [done|].
    intros a Ha. by apply Hcov, Hl.
Qed.

Lemma disconnect_wireguard_safe uid profile_id : safe_op (disconnect_wireguard uid profile_id).
Proof.
  intros s h HI. unfold disconnect_wireguard. do 2 wp_step.
  destruct (wireguard_owner profile_id) as [owner|]; [|done]. do 2 wp_step.
  destruct (position_of s uid owner) as [index|] eqn:Hpos.
  - apply position_key in Hpos as (e & He & _). wp_step.
    eapply wp_mono; [|by eapply wp_teardown_entry]. intros r s' h' HI'%teardown_post_Inv.
    wp_step. apply wp_store_save_journal; [done|]. by intros [[]|err] h'' HI'' _ _.
  - case_match; [|by apply wp_ret]. wp_steps. eapply Inv_state; [|done]. by destruct s.
Qed.
End connect.
