(* ===== verification/SafetyOpenVpn.v ===== *)
(** * OpenVPN connections are accounted for

    [connect_openvpn], the probe, [disconnect_openvpn] and
    [reconcile_openvpn] keep the invariant [Inv]: each route and rule of a
    session is on disk before the kernel gets it, and a failed session is
    torn down or kept with everything it may still have. *)

From S2P Require Export SafetyWireGuard.

Lemma openvpn_owner_other owner : openvpn_owner owner = true → other_tunnel owner = false.
Proof.
  unfold openvpn_owner, other_tunnel. intros [Ho|Ho]%orb_true_iff;
    (eapply starts_with_disjoint; [exact Ho|done|done]).
Qed.

Lemma connection_owner profile_id : openvpn_owner ("ovpn:" +:+ profile_id) = true.
Proof. unfold openvpn_owner. by rewrite starts_with_app. Qed.

Lemma probe_owner profile_id : openvpn_owner ("ovpn-probe:" +:+ profile_id) = true.
Proof. unfold openvpn_owner. rewrite (starts_with_app "ovpn-probe:"). apply orb_true_r. Qed.

(** ** Recording and undoing *)

Lemma entry_at_bind `{Env} {B} index e (k : JournalEntry → M DaemonCore B) s h :
  entries s !! index = Some e → bind (entry_at index) k s h = k e s h.
Proof. intros He. unfold bind, entry_at, get, bind. by rewrite He. Qed.

Section steps.
Context `{Env}.
Context (key : owner_key) (Hkey : openvpn_owner key.2 = true) (index : nat).

(** The entry of the session is at [index]. *)
Definition serving (s : DaemonCore) (h : history) : Prop :=
  Inv s h ∧ ∃ e, entries s !! index = Some e ∧ entry_key e = key.

Lemma serving_calm s h h' : calm h h' → serving s h → serving s h'.
Proof. intros Hc [HI He]. split; [by eapply Inv_calm|done]. Qed.

Lemma serving_state s s' h : entries s' = entries s → serving s h → serving s' h.
Proof. unfold serving, Inv. by intros ->. Qed.

Lemma serving_shape s h e :
  serving s h → entries s !! index = Some e → wf_entry e ∧ entry_key e = key ∧ openvpn_shape e.
Proof.
  intros [[_ [Hwf _]] (e' & He' & Hk)] He. assert (e' = e) as -> by congruence.
  assert (wf_entry e) as Hwfe by by eapply wf_entry_lookup.
  split_and!; [done|done|]. apply wf_openvpn; [done|]. by rewrite <- Hk in Hkey.
Qed.

(** A change of the entry's resources that keeps its shape and what it covers. *)
Lemma wp_update_serving f s h (Q : unit → DaemonCore → history → Prop) :
  serving s h →
  (∀ process rest, Forall openvpn_resource rest → ∃ process' rest',
     f (OpenVpnProcess process :: rest) = OpenVpnProcess process' :: rest' ∧
     Forall openvpn_resource rest' ∧ ∀ a, res_covered rest a → res_covered rest' a) →
  (∀ s', serving s' h → aside s' = aside s → Q tt s' h) →
  wp (update_entry index (with_resources f)) Q s h.
Proof.
  intros Hserv Hf HQ. pose proof Hserv as [[Hs Ha] (e & He & _)].
  destruct (serving_shape _ _ _ Hserv He) as (Hwf & Hk & process & rest & Hres & Hrest).
  destruct (Hf process rest Hrest) as (process' & rest' & Hres' & Hrest' & Hcov).
  eapply wp_update_entry; [done|]. apply HQ; [|by destruct s]. split.
  - split; [done|]. rewrite entries_set. eapply accounts_insert; [done| |done| |done].
    + eapply (wf_openvpn_entry e); [done|by rewrite <- Hk in Hkey|done|].
      exists process', rest'. simpl. by rewrite Hres, Hres'.
    + intros a _ (r & Hr & Hc). rewrite Hres in Hr. simpl. rewrite Hres, Hres'.
      apply elem_of_cons in Hr as [->|Hr]; [done|].
      destruct (Hcov a) as (q & Hq & Hqc); [by exists r|]. exists q. split; [by right|done].
  - exists (with_resources f e). rewrite entries_set. split; [|done].
    apply list_lookup_insert_eq. by eapply lookup_lt_Some.
Qed.

(** After [push_and_save]: the resource is recorded, and on disk if the save
    went through. *)
Definition recorded_last (r : OwnedResource) (s0 : DaemonCore) (h0 : history)
    (s : DaemonCore) (h : history) : Prop :=
  serving s h ∧ aside s = aside s0 ∧ shrinks h0 h ∧
  ∃ e, entries s0 !! index = Some e ∧ entries s = <[index := push_resource r e]> (entries s0).

Lemma wp_record r s h (Q : io_result unit → DaemonCore → history → Prop) :
  serving s h → openvpn_resource r →
  (∀ ans s' h', recorded_last r s h s' h' → (is_ok ans = true → synced s' h') → Q ans s' h') →
  wp (push_and_save index r) Q s h.
Proof.
  intros Hserv Hr HQ. unfold push_and_save, push_resource. wp_step.
  pose proof Hserv as [_ (e & He & _)].
  assert (∃ s1, serving s1 h ∧ aside s1 = aside s ∧
      entries s1 = <[index := push_resource r e]> (entries s) ∧
      ∀ P : unit → DaemonCore → history → Prop, P tt s1 h →
        wp (update_entry index (with_resources (λ rs, rs ++ [r]))) P s h) as (s1 & Hs1 & Hw & Hes & Hwp).
  { exists (set_entries (λ es, <[index := push_resource r e]> es) s).
    split_and!; [|by destruct s|apply entries_set|].
    - assert (wp (update_entry index (with_resources (λ rs, rs ++ [r])))
                 (λ _ s' h', serving s' h' ∧ h' = h) s h) as Hwp.
      { eapply wp_update_serving; [done| |done]. intros process rest Hrest.
        exists process, (rest ++ [r]). split_and!; [done| |].
        - apply Forall_app. split; [done|by constructor].
        - intros a Ha. apply res_covered_app. by left. }
      unfold wp, update_entry, bind, entry_at, get, bind in Hwp.
      cbv beta iota zeta in Hwp. rewrite He in Hwp. by destruct Hwp.
    - intros P HP. by eapply wp_update_entry. }
  apply Hwp. pose proof Hs1 as [HI1 He1]. apply wp_store_save_journal; [done|].
  intros ans h' HI' Hl Hsync. apply HQ; [|done]. split_and!; [by split|done|done|]. by exists e.
Qed.

(** [resources.pop()] brings the state before the record back. *)
Lemma wp_unrecord r s0 h0 s h (Q : unit → DaemonCore → history → Prop) :
  serving s0 h0 → recorded_last r s0 h0 s h →
  (∀ s', serving s' h → aside s' = aside s → Q tt s' h) →
  wp (update_entry index pop_resource) Q s h.
Proof.
  intros Hserv0 ([[Hs Ha] _] & Hw & Hl & e & He & Hes) HQ.
  destruct (serving_shape s0 h0 e) as (_ & Hk & _); [done|done|].
  destruct Hserv0 as [[_ Ha0] _].
  assert (index < length (entries s0)) as Hi by by eapply lookup_lt_Some.
  eapply wp_update_entry; [by rewrite Hes; apply list_lookup_insert_eq|].
  assert (pop_resource (push_resource r e) = e) as Hpop.
  { destruct e. unfold pop_resource, push_resource, with_resources. simpl. by rewrite pop_list_app. }
  assert (entries (set_entries (λ es, <[index := pop_resource (push_resource r e)]> es) s)
          = entries s0) as Hback.
  { rewrite entries_set, Hes, Hpop, list_insert_insert_eq. by apply list_insert_id. }
  apply HQ; [|by destruct s]. split.
  - split; [done|]. rewrite Hback. destruct Ha0 as [Hwf Hc]. split; [done|].
    intros a Hla. by apply Hc, Hl.
  - exists e. by rewrite Hback.
Qed.

(** A call on what is recorded: a success creates at most that, a failure
    nothing. *)
Lemma wp_act {B} r (c : ext (io_result B)) s0 h0 s h (Q : io_result B → DaemonCore → history → Prop) :
  recorded_last r s0 h0 s h → synced s h →
  (∀ a ans, creates (Ev c ans) a → is_ok ans = true ∧ covers r a) →
  (∀ ans h, disk (Ev c ans :: h) = disk h) →
  (∀ ans h', serving s h' → (is_ok ans = false → recorded_last r s0 h0 s h') → Q ans s h') →
  wp (call c) Q s h.
Proof.
  intros Hrec Hsync Hc Hd HQ. pose proof Hrec as ([[Hs [Hwf Hcov]] He] & Hw & Hl & e & He0 & Hes).
  assert (∀ a ans, creates (Ev c ans) a → covered (entries s) a) as Hcr.
  { intros a ans [_ Ha]%Hc. eapply covered_entry.
    - rewrite Hes. apply list_lookup_insert_eq. by eapply lookup_lt_Some.
    - exists r. split; [|done]. simpl. apply elem_of_app. right. by apply list_elem_of_singleton. }
  assert (∀ ans, serving s (Ev c ans :: h)) as Hserv.
  { intros ans. split; [|done]. split.
    - unfold synced in Hsync. destruct (dc_journal s) as [v es] eqn:Hj.
      eapply crash_safe_create; [exact Hsync|apply Hd| |done].
      intros a Ha. assert (es = entries s) as -> by (unfold entries; by rewrite Hj). by eapply Hcr.
    - split; [done|]. intros a [Ha|[Ha _]]; [by eapply Hcr|by apply Hcov]. }
  apply wp_call. intros ans. apply HQ; [done|]. intros Herr. split_and!; [done|done| |by exists e].
  intros a [Ha|[Ha _]]; [|by apply Hl]. apply Hc in Ha as [Hok _]. congruence.
Qed.

(** [fail_openvpn] tears down and always returns an error. *)
Lemma wp_fail_openvpn (s : DaemonCore) h :
  Inv s h → wp (fail_openvpn key.1 key.2) (λ r s' h', Inv s' h' ∧ is_err r = true) s h.
Proof.
  intros HI. unfold fail_openvpn. do 3 wp_step.
  eapply wp_mono with (Q := λ _ s' h', Inv s' h').
  2: { case_match; [|by apply wp_ret]. apply wp_modify. eapply Inv_state; [|done]. by destruct s. }
  clear s h HI. intros _ s h HI. do 3 wp_step.
  eapply wp_mono with (Q := λ _ s' h', Inv s' h').
  - intros _ s' h' HI'. do 2 wp_step. apply wp_ret. split; [|done].
    eapply Inv_state; [|done]. by destruct s'.
  - destruct (position_of s key.1 key.2) as [i|] eqn:Hpos; [|by apply wp_ret].
    apply position_key in Hpos as (e & He & _ & Ho). wp_step.
    eapply wp_mono; [|eapply wp_teardown_openvpn; [done|done|by rewrite Ho]].
    intros r s' h' HI'%teardown_post_Inv. apply wp_persist; [done|]. auto.
Qed.
End steps.

(** ** Installing the network of a session *)

Section install.
Context `{Env} `{IpNetLib}.
Context (key : owner_key) (Hkey : openvpn_owner key.2 = true) (index : nat).
Local Notation serving := (serving key index).
Local Notation uid := (key.1).
Local Notation owner := (key.2).

(** What the entry of the session holds. *)
Definition holds (P : list OwnedResource → Prop) (s : DaemonCore) : Prop :=
  ∃ e, entries s !! index = Some e ∧ P (je_resources e).

(** A step either takes the session on, to resources in [P], or ends it with
    an error. *)
Definition progress (w : Executors * gmap owner_key OpenVpnRuntime) (P : list OwnedResource → Prop) (r : io_result unit)
    (s : DaemonCore) (h : history) : Prop :=
  Inv s h ∧ (is_ok r = true → serving s h ∧ aside s = w ∧ holds P s).

Lemma holds_mono (P Q : list OwnedResource → Prop) s : (∀ rs, P rs → Q rs) → holds P s → holds Q s.
Proof. intros HPQ (e & He & HP). exists e. split; [done|by apply HPQ]. Qed.

Lemma wp_fail_progress w P s h : Inv s h → wp (fail_openvpn uid owner) (progress w P) s h.
Proof.
  intros HI. eapply wp_mono; [|by apply wp_fail_openvpn]. intros r s' h' [HI' Hr].
  split; [done|]. by destruct r.
Qed.

(** A loop that records and installs [g x] for each [x]. *)
Lemma wp_progress_for {A} w (g : A → OwnedResource) total (l : list A)
    (body : A → M DaemonCore (io_result unit)) s h :
  (∀ x rs s h, serving s h → aside s = w → holds (λ rs', rs' = rs) s →
     wp (body x) (progress w (λ rs', rs' = rs ++ [g x])) s h) →
  serving s h → aside s = w → holds (λ rs, rs ++ map g l = total) s →
  wp (for_try l tt (λ _, body)) (progress w (λ rs, rs = total)) s h.
Proof.
  intros Hbody Hserv Hw Hholds.
  apply wp_for_try with (I := λ l _ s' h', serving s' h' ∧ aside s' = w ∧
    holds (λ rs, rs ++ map g l = total) s'); [done| |].
  - intros x l' [] s' h' (Hs' & Hw' & e & He & Htotal).
    eapply wp_mono; [|apply (Hbody x (je_resources e)); [done|done|by exists e]].
    intros [[]|err] s1 h1 [HI Hok]; [|by split]. destruct (Hok eq_refl) as (? & ? & Hh).
    split_and!; [done|done|]. eapply holds_mono; [|exact Hh]. intros rs ->.
    by rewrite <- app_assoc.
  - intros [] s' h' (Hs' & Hw' & Hh). split; [apply Hs'|]. intros _. split_and!; [done|done|].
    eapply holds_mono; [|exact Hh]. intros rs. simpl. by rewrite app_nil_r.
Qed.

Lemma wp_progress_try w P Q (m k : M DaemonCore (io_result unit)) s h :
  wp m (progress w P) s h →
  (∀ s' h', serving s' h' → aside s' = w → holds P s' → wp k (progress w Q) s' h') →
  wp (let? _ := m in k) (progress w Q) s h.
Proof.
  intros Hm Hk. wp_step. eapply wp_mono; [|exact Hm].
  intros [[]|e] s' h' [HI Hok]; [destruct (Hok eq_refl) as (?&?&?); by apply Hk|by split].
Qed.

(** The entry after a record. *)
Lemma recorded_holds r rs s0 h0 s h :
  holds (λ rs', rs' = rs) s0 → recorded_last key index r s0 h0 s h →
  holds (λ rs', rs' = rs ++ [r]) s.
Proof.
  intros (e & He & Hrs) (_ & _ & _ & e' & He' & Hes). assert (e' = e) as -> by congruence.
  exists (push_resource r e). rewrite Hes. split; [|by simpl; rewrite Hrs].
  apply list_lookup_insert_eq. by eapply lookup_lt_Some.
Qed.

(** The shape of the two recorded installations. *)
Lemma wp_recorded_call w r rs (c : ext (io_result unit)) s h :
  (∀ a ans, creates (Ev c ans) a → is_ok ans = true ∧ covers r a) →
  (∀ ans h, disk (Ev c ans :: h) = disk h) →
  ∀ s0 h0, serving s0 h0 → aside s0 = w → holds (λ rs', rs' = rs) s0 →
  recorded_last key index r s0 h0 s h → synced s h →
  wp (let! added := call c in
      match added with
      | Ok _ => ret (Ok tt)
      | Err err =>
        (if has_kind AlreadyExists err then update_entry index pop_resource else ret tt) ;;;
        fail_openvpn uid owner
      end) (progress w (λ rs', rs' = rs ++ [r])) s h.
Proof.
  intros Hc Hd s0 h0 Hs0 Hw0 Hh Hrec Hsync. wp_step. eapply wp_act; [done|done|done|done|].
  intros [[]|err] h' Hserv Herr.
  - apply wp_ret. split; [apply Hserv|]. intros _. split_and!; [done| |by eapply recorded_holds].
    destruct Hrec as (_ & -> & _). done.
  - wp_step. eapply wp_mono with (Q := λ _ s' h', Inv s' h').
    + intros _ s' h2 HI. by apply wp_fail_progress.
    + case_match; [|apply wp_ret, Hserv]. eapply wp_unrecord; [exact Hkey|exact Hs0|by apply Herr|].
      by intros s' [HI _] _.
Qed.

Lemma wp_install_route w rs applied s h :
  serving s h → aside s = w → holds (λ rs', rs' = rs) s →
  wp (install_openvpn_route uid owner index applied)
     (progress w (λ rs', rs' = rs ++ [Route applied])) s h.
Proof.
  intros Hserv Hw Hh. unfold install_openvpn_route. wp_step. eapply wp_record; [done|done|done|].
  intros [[]|err] s1 h1 Hrec Hsync.
  - eapply wp_recorded_call; [by intros a ans [? ?]|done|exact Hserv|done|done|done|by apply Hsync].
  - wp_step. eapply wp_unrecord; [exact Hkey|exact Hserv|exact Hrec|]. intros s2 [HI2 _] _. wp_step.
    eapply wp_mono; [|by apply wp_fail_openvpn]. intros r s' h' [HI' _]. by apply wp_ret; split.
Qed.

Lemma wp_install_rule w rs rule s h :
  ex_policy w.1 = true → serving s h → aside s = w → holds (λ rs', rs' = rs) s →
  wp (install_openvpn_rule uid owner index rule)
     (progress w (λ rs', rs' = rs ++ [Rule rule])) s h.
Proof.
  intros Hpol Hserv Hw Hh. unfold install_openvpn_rule. wp_step. eapply wp_record; [done|done|done|].
  intros [[]|err] s1 h1 Hrec Hsync.
  - do 2 wp_step. pose proof Hrec as (_ & Hw1 & _). change (dc_wired s1) with (aside s1).1. rewrite Hw1, Hw, Hpol. cbn [negb].
    eapply wp_recorded_call; [by intros a ans [? ?]|done|exact Hserv|done|done|done|by apply Hsync].
  - wp_step. eapply wp_unrecord; [exact Hkey|exact Hserv|exact Hrec|].
    intros s2 [HI2 _] _. by apply wp_fail_progress.
Qed.

Lemma mark_last_dns_snoc rs d : mark_last_dns (rs ++ [Dns d]) = rs ++ [Dns (dns_with_applied true d)].
Proof. unfold mark_last_dns. by rewrite last_snoc, pop_list_app. Qed.

Lemma mark_last_dns_shape process rest :
  Forall openvpn_resource rest → ∃ process' rest',
    mark_last_dns (OpenVpnProcess process :: rest) = OpenVpnProcess process' :: rest' ∧
    Forall openvpn_resource rest' ∧ ∀ a, res_covered rest a → res_covered rest' a.
Proof.
  intros Hrest. unfold mark_last_dns.
  destruct rest as [|x rest _] using rev_ind; [by exists process, []|].
  rewrite app_comm_cons, last_snoc, pop_list_app. apply Forall_app in Hrest as [Hr Hx].
  destruct x;
    try (eexists process, _; split_and!; [by rewrite <- app_comm_cons|by apply Forall_app|done]).
  exists process, (rest ++ [Dns (dns_with_applied true d)]). split_and!; [done| |].
  - apply Forall_app. split; [done|by constructor].
  - apply res_covered_dns.
Qed.

(** The DNS record of the network, if it has servers. *)
Definition dns_part (network : OpenVpnNetworkPlan) (full : option WireGuardFullResource)
    (rs : list OwnedResource) : Prop :=
  match np_dns_servers network with
  | [] => rs = []
  | servers => ∃ d, rs = [Dns d] ∧ wd_servers d = servers ∧ wd_domains d = np_dns_domains network ∧
      wd_full d = is_some full
  end.

Lemma wp_install_dns w rs network full link_index name s h :
  (np_dns_servers network ≠ [] → ex_dns w.1 = true) →
  serving s h → aside s = w → holds (λ rs', rs' = rs) s →
  wp (install_openvpn_dns uid owner index network full link_index name)
     (progress w (λ rs', ∃ dns, rs' = rs ++ dns ∧ dns_part network full dns)) s h.
Proof.
  intros Hdns Hserv Hw Hh. unfold install_openvpn_dns, dns_part.
  destruct (np_dns_servers network) as [|server servers].
  { apply wp_ret; split; [apply Hserv|]. intros _. split_and!; [done|done|].
    eapply holds_mono; [|exact Hh]. intros rs' ->. exists []. by rewrite app_nil_r. }
  wp_step. eapply wp_record; [done|done|done|]. intros [[]|err] s1 h1 Hrec _.
  - do 2 wp_step. pose proof Hrec as (Hserv1 & Hw1 & _). change (dc_wired s1) with (aside s1).1. rewrite Hw1, Hw, Hdns by done. cbn [negb].
    do 2 wp_step. match goal with |- wp _ _ _ ?hh => set (h2 := hh) end.
    assert (serving s1 h2) as Hserv2 by (eapply serving_calm; [|done]; apply calm_quiet; solve_quiet).
    eapply recorded_holds in Hrec as Hh1; [|exact Hh].
    assert (progress w (λ rs', ∃ dns, rs' = rs ++ dns ∧ ∃ d, dns = [Dns d] ∧
      wd_servers d = server :: servers ∧ wd_domains d = np_dns_domains network ∧
      wd_full d = is_some full) (Ok tt) s1 h2) as Hsame.
    { split; [apply Hserv2|]. intros _. split_and!; [done|congruence|].
      eapply holds_mono; [|exact Hh1]. intros rs' ->. eexists. split; [done|]. by eexists. }
    destruct a as [[]|e]; [|by apply wp_ret..|apply wp_fail_progress, Hserv2].
    wp_step. destruct Hh1 as (e1 & He1 & Hrs1).
    assert (∃ s2, serving s2 h2 ∧ aside s2 = aside s1 ∧
      holds (λ rs', rs' = mark_last_dns (je_resources e1)) s2 ∧
      ∀ P : unit → DaemonCore → history → Prop, P tt s2 h2 →
        wp (update_entry index (with_resources mark_last_dns)) P s1 h2)
      as (s2 & Hserv3 & Hw3 & Hh3 & Hwp).
    { exists (set_entries (λ es, <[index := with_resources mark_last_dns e1]> es) s1).
      split_and!; [|by destruct s1| |intros P HP; by eapply wp_update_entry].
      - assert (wp (update_entry index (with_resources mark_last_dns))
                   (λ _ s' h', serving s' h' ∧ h' = h2) s1 h2) as Hwp.
        { eapply wp_update_serving; [done|done|apply mark_last_dns_shape|done]. }
        unfold wp, update_entry in Hwp. rewrite (entry_at_bind _ e1) in Hwp by done. by destruct Hwp.
      - eexists. rewrite entries_set. split; [apply list_lookup_insert_eq; by eapply lookup_lt_Some|].
        done. }
    apply Hwp. wp_step. pose proof Hserv3 as [HI3 He3]. apply wp_persist; [done|].
    intros h3 HI4 _. apply wp_ret. split; [done|]. intros _. split_and!; [by split|congruence|].
    eapply holds_mono; [|exact Hh3]. intros rs' ->. rewrite Hrs1, mark_last_dns_snoc.
    eexists. split; [done|]. by eexists.
  - wp_step. eapply wp_unrecord; [exact Hkey|exact Hserv|exact Hrec|].
    intros s2 [HI2 _] _. by apply wp_fail_progress.
Qed.

Lemma set_first_full_shape full process rest :
  Forall openvpn_resource rest → ∃ process' rest',
    set_first_full full (OpenVpnProcess process :: rest) = OpenVpnProcess process' :: rest' ∧
    Forall openvpn_resource rest' ∧ ∀ a, res_covered rest a → res_covered rest' a.
Proof. intros Hrest. by eexists _, rest. Qed.

(** The entry holds the network of the plan: its process, a route per planned
    route, the policy rules of a full tunnel, and its DNS. *)
Definition installed (network : OpenVpnNetworkPlan) (full : option WireGuardFullResource)
    (link_index : Z) (rs : list OwnedResource) : Prop :=
  ∃ process dns,
    rs = OpenVpnProcess process
           :: map (λ route, Route (openvpn_route network full link_index route)) (np_routes network)
           ++ map Rule (match full with Some full => full_policy_rules full | None => [] end) ++ dns ∧
    op_full process = full ∧ dns_part network full dns.

(** What a replacement leaves: nothing when the plan wants nothing. *)
Definition replaced (network : OpenVpnNetworkPlan) (full : option WireGuardFullResource)
    (rs : list OwnedResource) : Prop :=
  (np_routes network = [] ∧ np_dns_servers network = [] ∧ ∃ process, rs = [OpenVpnProcess process]) ∨
  ∃ link_index, installed network full link_index rs.

(** What is installed is in sync: the next round changes nothing. *)
Lemma installed_in_sync network full link_index rs :
  installed network full link_index rs → network_in_sync network full rs = true.
Proof.
  intros (process & dns & -> & Hfull & Hdns). unfold network_in_sync.
  set (routes := map (λ r, Route _) (np_routes network)).
  generalize (match full with Some full => full_policy_rules full | None => [] end) as us.
  intros us. assert (current_keys dns = []) as Hdns0.
  { unfold dns_part in Hdns. destruct (np_dns_servers network); [by rewrite Hdns|].
    by destruct Hdns as (d & -> & _). }
  assert (∀ l : list PolicyRoute, current_keys (map (λ route,
      Route (openvpn_route network full link_index route)) l ++ map Rule us ++ dns)
    = map (desired_key network full) l) as Hkeys.
  { induction l as [|route l IH]; simpl; [by induction us|]. f_equal; [|exact IH].
    unfold openvpn_route, desired_key. case_match; reflexivity. }
  assert (∀ B (f : OwnedResource → option B) (l : list PolicyRoute),
      (∀ route, f (Route route) = None) → (∀ rule, f (Rule rule) = None) →
      find_map f (map (λ route, Route (openvpn_route network full link_index route)) l
                  ++ map Rule us ++ dns) = find_map f dns) as Hskip.
  { intros B f l Hr Hu. induction l as [|route l IH]; simpl; [|by rewrite Hr].
    clear Hkeys. induction us as [|u us IH]; simpl; [done|]. rewrite Hu. exact IH. }
  assert (current_keys (OpenVpnProcess process :: routes ++ map Rule us ++ dns)
    = map (desired_key network full) (np_routes network)) as -> by apply Hkeys.
  assert (find_dns_resource (OpenVpnProcess process :: routes ++ map Rule us ++ dns)
    = find_dns_resource dns) as -> by by apply Hskip.
  assert (current_full (OpenVpnProcess process :: routes ++ map Rule us ++ dns) = full) as ->.
  { unfold current_full. cbn [find_map]. rewrite Hfull. destruct full; [done|].
    unfold routes. rewrite Hskip by done. unfold dns_part in Hdns.
    destruct (np_dns_servers network); [by rewrite Hdns|]. by destruct Hdns as (d & -> & _). }
  rewrite !bool_decide_true by done. simpl. unfold dns_part in Hdns.
  destruct (np_dns_servers network) eqn:Hs; [by rewrite Hdns|].
  destruct Hdns as (d & -> & Hsrv & Hdom & Hf). simpl.
  rewrite !bool_decide_true by congruence. by rewrite Hf, eqb_reflx.
Qed.

Lemma wp_set_first_full full process s h (Q : unit → DaemonCore → history → Prop) :
  serving s h → holds (λ rs, rs = [OpenVpnProcess process]) s →
  (∀ s', serving s' h → aside s' = aside s →
     holds (λ rs, rs = set_first_full full [OpenVpnProcess process]) s' → Q tt s' h) →
  wp (update_entry index (with_resources (set_first_full full))) Q s h.
Proof.
  intros Hserv (e & He & Hrs) HQ.
  assert (wp (update_entry index (with_resources (set_first_full full)))
             (λ _ s' h', serving s' h' ∧ aside s' = aside s ∧ h' = h) s h) as Hwp.
  { eapply wp_update_serving; [done|done|apply set_first_full_shape|done]. }
  unfold wp, update_entry in *. rewrite (entry_at_bind _ e) in Hwp |- * by done.
  destruct Hwp as (Hserv' & Hw' & _). apply HQ; [done|done|].
  eexists. rewrite entries_set. split; [apply list_lookup_insert_eq; by eapply lookup_lt_Some|].
  by rewrite <- Hrs.
Qed.

Lemma wp_replace_network w name network full s h :
  serving s h → aside s = w → ex_policy w.1 = true →
  (np_dns_servers network ≠ [] → ex_dns w.1 = true) →
  wp (replace_openvpn_network uid owner index name network full)
     (progress w (replaced network full)) s h.
Proof.
  intros Hserv Hw Hpol Hdns. unfold replace_openvpn_network. wp_step.
  pose proof Hserv as [HI (e & He & Hk)].
  eapply wp_mono; [|eapply wp_clear_openvpn; [done|done|by rewrite <- Hk in Hkey]].
  intros cleared s1 h1 (HI1 & _ & Hw1 & e1 & Hk1 & _ & Hes1 & Hcleared).
  assert (entries s1 !! index = Some e1) as He1
    by (rewrite Hes1; apply list_lookup_insert_eq; by eapply lookup_lt_Some).
  assert (serving s1 h1) as Hserv1 by (split; [done|]; exists e1; by rewrite Hk1).
  assert (aside s1 = w) as Hw1' by congruence. clear Hw1 Hserv.
  destruct cleared as [[]|err]; cbn [is_err]; [|by apply wp_fail_progress].
  destruct (Hcleared eq_refl) as [process Hres1]. case_match eqn:Hempty.
  { apply andb_true_iff in Hempty as [H1%Nat.eqb_eq H2%Nat.eqb_eq].
    apply length_zero_iff_nil in H1, H2.
    apply wp_ret; split; [done|]. intros _. split_and!; [done|done|]. exists e1. split; [done|].
    left. split_and!; [done|done|by exists process]. }
  do 2 wp_step. match goal with |- wp _ _ _ ?hh => set (h2 := hh) end.
  assert (serving s1 h2) as Hserv2 by (eapply serving_calm; [|done]; apply calm_quiet; solve_quiet).
  destruct a as [[link_index|]|err]; [|apply wp_fail_progress, Hserv2..].
  wp_step. eapply wp_set_first_full; [done|by exists e1|].
  intros s3 [HI3 He3] Hw3 Hh3. assert (aside s3 = w) as Hw3' by congruence.
  wp_step. apply wp_store_save_journal; [done|]. intros saved h4 HI4 _ _.
  case_match; [by apply wp_fail_progress|].
  set (routes := map (λ route, Route (openvpn_route network full link_index route)) (np_routes network)).
  set (first := set_first_full full [OpenVpnProcess process]) in *.
  eapply (wp_progress_try w (λ rs, rs = first ++ routes)).
  { eapply wp_progress_for; [|by split|done|eapply holds_mono; [|exact Hh3]; by intros rs ->].
    intros route rs s' h' Hs' Hw' Hh'. by apply wp_install_route. }
  set (rules := map Rule (match full with Some full => full_policy_rules full | None => [] end)).
  intros s5 h5 Hserv5 Hw5 Hh5. eapply (wp_progress_try w (λ rs, rs = first ++ routes ++ rules)).
  - destruct full as [full|].
    + eapply wp_progress_for; [|done|done|eapply holds_mono; [|exact Hh5]].
      * intros rule rs s' h' Hs' Hw' Hh'. by apply wp_install_rule.
      * intros rs ->. by rewrite <- app_assoc.
    + apply wp_ret; split; [apply Hserv5|]. intros _. split_and!; [done|done|].
      eapply holds_mono; [|exact Hh5]. intros rs ->. unfold rules. by rewrite app_nil_r.
  - intros s6 h6 Hserv6 Hw6 Hh6. eapply wp_mono; [|by apply wp_install_dns].
    intros r s7 h7 [HI7 Hok]. split; [done|]. intros Hr.
    destruct (Hok Hr) as (? & ? & Hh7). split_and!; [done|done|].
    eapply holds_mono; [|exact Hh7]. intros rs (dns & -> & Hpart). right. exists link_index.
    eexists _, dns. split_and!; [unfold first; simpl; by rewrite <- app_assoc|done|done].
Qed.

End install.

(** ** One session's reconciliation *)

(** Only the runtime of [key] may change, and no executor. *)
Definition only_key (key : owner_key) (s s' : DaemonCore) : Prop :=
  dc_wired s' = dc_wired s ∧
  ∀ k, k ≠ key → dc_openvpn_runtime s' !! k = dc_openvpn_runtime s !! k.

#[export] Instance only_key_preorder key : PreOrder (only_key key).
Proof.
  unfold only_key. split; [by intros s|]. intros s1 s2 s3 [W1 R1] [W2 R2].
  split; [congruence|]. intros k Hk. by rewrite R2, R1.
Qed.

Section owner.
Context `{Env} `{IpNetLib}.

Lemma only_key_runtime key f s :
  (∀ m k, k ≠ key → f m !! k = m !! k) → only_key key s (set_openvpn_runtime f s).
Proof. intros Hf. split; [by destruct s|]. intros k Hk. destruct s. simpl. by apply Hf. Qed.

Lemma teardown_openvpn_only index e s h :
  entries s !! index = Some e →
  only_key (entry_key e) s (teardown_openvpn_entry index s h).1.2.
Proof.
  intros He. unfold teardown_openvpn_entry. rewrite (entry_at_bind _ e) by done.
  match goal with |- only_key _ s (?m s h).1.2 => cut (preserves (only_key (entry_key e)) m) end.
  { intros Hp. apply Hp. }
  frame; try by split. apply only_key_runtime. intros m k Hk. by rewrite lookup_delete_ne.
Qed.

Lemma fail_openvpn_only uid owner : preserves (only_key (uid, owner)) (fail_openvpn uid owner).
Proof.
  unfold fail_openvpn. apply preserves_bind; [typeclasses eauto|apply preserves_get; typeclasses eauto|].
  intros c. cbv zeta. apply preserves_bind; [typeclasses eauto|frame; by split|]. intros _.
  intros s h. change (bind get ?f s h) with (f s s h).
  apply preserves_bind_at; [typeclasses eauto| |intros _; frame; by split].
  destruct (position_of s uid owner) as [index|] eqn:Hpos; [|simpl; reflexivity].
  apply position_key in Hpos as (e & He & Hu & Ho). subst uid owner.
  pose proof (teardown_openvpn_only index e s h He) as Ht.
  unfold bind. destruct (teardown_openvpn_entry index s h) as [[[r|] s'] h']; [|done].
  etransitivity; [exact Ht|]. cut (preserves (only_key (entry_key e)) persist); [|frame].
  intros Hp. apply Hp.
Qed.

Hint Resolve fail_openvpn_only : frame.

Lemma openvpn_event_only uid owner event :
  preserves (only_key (uid, owner)) (openvpn_event uid owner event).
Proof.
  frame; try by split. apply only_key_runtime. intros m k Hk. by rewrite lookup_alter_ne.
Qed.

Hint Resolve openvpn_event_only : frame.

Lemma reconcile_owner_only uid owner :
  preserves (only_key (uid, owner)) (reconcile_openvpn_owner uid owner).
Proof. frame; by split. Qed.

Section session.
Context (key : owner_key) (Hkey : openvpn_owner key.2 = true) (index : nat).
Local Notation serving := (serving key index).
Local Notation uid := (key.1).
Local Notation owner := (key.2).

Lemma wp_full_plan ipv4 ipv6 s h :
  serving s h → wp (openvpn_full_plan index ipv4 ipv6) (λ _ s' h', s' = s ∧ calm h h') s h.
Proof.
  intros [_ (e & He & _)]. unfold openvpn_full_plan. case_match; [done|]. do 2 wp_step.
  case_match; [done|]. wp_step. eapply wp_entry_at; [done|].
  match goal with |- wp ?m _ _ _ => cut (creates_nothing m); [intros Hm; apply Hm|] end.
  unfold slot_occupied. looks.
Qed.

Lemma wp_openvpn_event w event s h :
  serving s h → dc_wired s = w → is_Some (dc_openvpn_runtime s !! key) →
  wp (openvpn_event uid owner event)
     (λ r s' h', Inv s' h' ∧ (is_ok r = true →
        serving s' h' ∧ dc_wired s' = w ∧ is_Some (dc_openvpn_runtime s' !! key))) s h.
Proof.
  intros Hserv Hw Hrt. unfold openvpn_event. wp_step.
  eapply wp_mono with (Q := λ r s' h', Inv s' h' ∧ (is_ok r = true → s' = s ∨
    ∃ f, s' = set_openvpn_failures f s) ∧ (is_ok r = true → h' = h)).
  - intros [[]|err] s' h' (HI & Hs & Hh); [|by split].
    rewrite (Hh eq_refl) in *. do 2 wp_step. apply wp_ret.
    assert (entries s' = entries s ∧ dc_wired s' = dc_wired s ∧
            dc_openvpn_runtime s' = dc_openvpn_runtime s) as (He & Hw' & Hr).
    { destruct (Hs eq_refl) as [->|[f ->]]; [done|by destruct s]. }
    destruct key as [u o]. simpl. split; [eapply Inv_state; [|exact HI]; by destruct s'|].
    intros _. split_and!.
    + eapply serving_state; [|exact Hserv]. rewrite <- He. by destruct s'.
    + destruct s'; simpl in *; congruence.
    + destruct s'. simpl in *. rewrite lookup_alter_eq, Hr. destruct Hrt as [rt ->]. by eexists.
  - pose proof Hserv as [HI _].
    assert (∀ s1 h1, Inv s1 h1 → wp (fail_openvpn uid owner) (λ r s' h', Inv s' h' ∧
        (is_ok r = true → s' = s ∨ ∃ f, s' = set_openvpn_failures f s) ∧
        (is_ok r = true → h' = h)) s1 h1) as Hfail'.
    { intros s1 h1 HI1. eapply wp_mono; [|by apply wp_fail_openvpn].
      intros r s2 h2 [HI2 Hr]. destruct r; [done|]. by split_and!. }
    destruct event; try (apply wp_ret; split_and!; [done|by left|done]).
    + do 2 wp_step. case_match.
      * apply Hfail'. eapply Inv_state; [|done]. by destruct s.
      * apply wp_ret. split_and!; [|by right; eexists|done].
        eapply Inv_state; [|done]. by destruct s.
    + by apply Hfail'.
    + do 4 wp_step. apply Hfail'. eapply Inv_state; [|done]. by destruct s.
Qed.

End session.

(** What a reconciliation that succeeds leaves: a session that asks for no
    network yet, or an entry that holds what the session's plan wants. *)
Definition settled (key : owner_key) (s : DaemonCore) : Prop :=
  ∃ index e runtime, entries s !! (index : nat) = Some e ∧ entry_key e = key ∧
    dc_openvpn_runtime s !! key = Some runtime ∧
    (openvpn_network runtime = None ∨
     ∃ network, openvpn_network runtime = Some (Ok network) ∧
       ((np_routes network = [] ∧ np_dns_servers network = [] ∧
           ∃ process, je_resources e = [OpenVpnProcess process]) ∨
        ∃ full, network_in_sync network full (je_resources e) = true)).

Lemma reconcile_owner_safe key w s h :
  openvpn_owner key.2 = true → Inv s h → dc_wired s = w → ex_openvpn w = true →
  ex_policy w = true → is_Some (dc_openvpn_runtime s !! key) →
  wp (reconcile_openvpn_owner key.1 key.2)
     (λ r s' h', Inv s' h' ∧ (r = Ok tt → settled key s')) s h.
Proof.
  intros Hkey HI Hw Hov Hpol Hrt. unfold reconcile_openvpn_owner. do 4 wp_step.
  destruct (position_of s key.1 key.2) as [index|] eqn:Hpos; [|done].
  apply position_key in Hpos as (e & He & Hu & Ho). cbn [ok_or]. wp_step.
  eapply wp_entry_at; [done|]. assert (entry_key e = key) as Hk
    by (destruct key; unfold entry_key; simpl in *; congruence).
  assert (serving key index s h) as Hserv by (split; [done|by exists e]).
  do 2 wp_step. destruct (find_openvpn (je_resources e)) as [process|]; [|done].
  cbn [ok_or]. cbv zeta. rewrite Hw, Hov. cbn [negb]. do 2 wp_step.
  match goal with |- wp _ _ _ ?hh => set (h1 := hh) end.
  assert (serving key index s h1) as Hserv1
    by (eapply serving_calm; [|done]; apply calm_quiet; solve_quiet).
  assert (∀ s h, Inv s h → wp (fail_openvpn key.1 key.2)
            (λ r s' h', Inv s' h' ∧ (r = Ok tt → settled key s')) s h) as Hfail.
  { intros s' h' HI'. eapply wp_mono; [|by apply wp_fail_openvpn].
    intros r s2 h2 [? Hr]. split; [done|]. by intros ->. }
  destruct a as [events|err]; [|apply Hfail, Hserv1]. wp_step.
  apply wp_for_try with (I := λ _ _ s' h', serving key index s' h' ∧ dc_wired s' = w ∧
    is_Some (dc_openvpn_runtime s' !! key)); [done| |].
  { intros event l [] s' h' (Hs' & Hw' & Hr'). eapply wp_mono; [|by apply wp_openvpn_event].
    intros [[]|err] s2 h2 [HI2 Hok]; [by apply Hok|by split]. }
  clear s h HI Hw He Hserv Hserv1 h1 Hrt. intros [] s h (Hserv & Hw & Hrt). do 2 wp_step.
  destruct Hrt as [rt Hrt]. destruct key as [uid owner]. cbn [fst snd] in *. rewrite Hrt.
  destruct (openvpn_network rt) as [[network|err]|] eqn:Hnet; [|apply Hfail, Hserv|].
  2:{ apply wp_ret. split; [apply Hserv|]. intros _. destruct Hserv as [_ (e' & He' & Hk')].
      exists index, e', rt. by split_and!; [| | |left]. }
  wp_step. eapply wp_mono; [|by eapply wp_full_plan]. intros planned s' h' [-> Hcalm].
  assert (serving (uid, owner) index s h') as Hserv1 by by eapply serving_calm.
  destruct planned as [full|err]; [|apply Hfail, Hserv1].
  destruct (negb (length (np_dns_servers network) =? 0)%nat && negb (ex_dns (dc_wired s))) eqn:Hdns;
    [apply Hfail, Hserv1|].
  pose proof Hserv1 as [_ (e' & He' & Hk')]. wp_step. eapply wp_entry_at; [done|].
  case_match eqn:Hsync.
  { apply wp_ret. split; [apply Hserv1|]. intros _. exists index, e', rt.
    split_and!; [done..|]. right. exists network. split; [done|]. right. by exists full. }
  eapply wp_mono; [|eapply (wp_replace_network (uid, owner)); [done|exact Hserv1|done| |]].
  - intros [[]|err2] s2 h2 [HI2 Hok]; [|by split]. split; [done|]. intros _.
    destruct (Hok eq_refl) as ([_ (e2 & He2 & Hk2)] & Hside & e3 & He3 & Hrep).
    assert (e3 = e2) as -> by congruence. exists index, e2, rt.
    assert (dc_openvpn_runtime s2 = dc_openvpn_runtime s) as Hrt2 by apply (f_equal snd Hside).
    rewrite Hrt2. split_and!; [done..|]. right. exists network. split; [done|].
    destruct Hrep as [?|[link Hinst]]; [by left|right]. exists full. by eapply installed_in_sync.
  - by simpl; rewrite Hw.
  - simpl. destruct (np_dns_servers network); [done|]. intros _. by destruct (ex_dns (dc_wired s)).
Qed.

End owner.

(** ** Operations *)

(** The keys of the runtime map are connections. *)
Definition runtime_ok (s : DaemonCore) : Prop :=
  ∀ k, is_Some (dc_openvpn_runtime s !! k) → openvpn_owner k.2 = true.

(** What every operation keeps besides the journal: the executors, and the
    owners the runtime map may hold. *)
Definition sane (s s' : DaemonCore) : Prop :=
  dc_wired s' = dc_wired s ∧ (runtime_ok s → runtime_ok s').

#[export] Instance sane_preorder : PreOrder sane.
Proof. unfold sane. split; [by intros s|]. intros s1 s2 s3 [W1 R1] [W2 R2]. split; [congruence|auto]. Qed.

Lemma sane_runtime f s :
  (∀ m k, is_Some (f m !! k) → is_Some (m !! k) ∨ openvpn_owner k.2 = true) →
  sane s (set_openvpn_runtime f s).
Proof.
  intros Hf. split; [by destruct s|]. intros Hok k Hk. destruct s. simpl in *.
  apply Hf in Hk as [?|?]; [by apply Hok|done].
Qed.

(** Changes of anything but the runtime map. *)
Lemma sane_same s s' :
  dc_wired s' = dc_wired s → dc_openvpn_runtime s' = dc_openvpn_runtime s → sane s s'.
Proof. intros Hw Hr. split; [done|]. unfold runtime_ok. by rewrite Hr. Qed.

Ltac sane_step :=
  lazymatch goal with
  | |- sane _ (set_openvpn_runtime (delete _) _) =>
    apply sane_runtime; let H := fresh in intros ? ? H; left; revert H;
    rewrite lookup_delete_is_Some; tauto
  | |- sane _ (set_openvpn_runtime (alter _ _) _) =>
    apply sane_runtime; let H := fresh in intros ? ? H; left; revert H;
    rewrite lookup_alter_is_Some; tauto
  | |- sane _ _ => apply sane_same; reflexivity
  end.
Ltac keeps_sane := frame; sane_step.

Section operations.
Context `{Env} `{IpNetLib} `{RuntimeDir} `{HashOrder}.

Lemma find_mark_looks rules slots : creates_nothing (find_mark rules slots).
Proof. induction slots as [|slot slots IH]; simpl; looks; exact IH. Qed.

Lemma find_mark_sane rules slots : preserves sane (find_mark rules slots).
Proof. induction slots as [|slot slots IH]; simpl; frame; try exact IH; sane_step. Qed.
Hint Resolve find_mark_sane : frame.

Lemma allocate_mark_looks : creates_nothing allocate_openvpn_mark.
Proof. unfold allocate_openvpn_mark. looks. apply find_mark_looks. Qed.

Lemma resolve_name_looks uid plan : creates_nothing (resolve_openvpn_name uid plan).
Proof. unfold resolve_openvpn_name, name_free. looks. Qed.

Lemma launch_openvpn_safe uid owner plan s h :
  openvpn_owner owner = true → position_of s uid owner = None → Inv s h →
  wp (launch_openvpn uid owner plan) (λ _, Inv) s h.
Proof.
  intros Hov Hpos HI. unfold launch_openvpn. wp_step.
  eapply wp_mono; [|apply allocate_mark_looks]. intros [mark|err] s' h1 [-> Hc1];
    [|by eapply Inv_calm]. eapply Inv_calm in HI; [|exact Hc1]. clear h Hc1.
  do 2 wp_step. case_match; [done|]. do 2 wp_step.
  assert (Inv s (Ev OvpnVerifyBinary a :: h1)) as HI1
    by (eapply Inv_calm; [|done]; apply calm_quiet; solve_quiet).
  case_match; [|done]. wp_step. eapply wp_mono; [|apply resolve_name_looks].
  intros [name|err] s' h2 [-> Hc2]; [|by eapply Inv_calm].
  eapply Inv_calm in HI1; [|exact Hc2]. cbv zeta. wp_step. apply wp_modify.
  match goal with |- context [set_entries (λ es, es ++ [?x]) s] => set (e := x) end.
  do 2 wp_step. cbv zeta. wp_step. set (s1 := set_entries _ s).
  assert (entries s1 = entries s ++ [e]) as Hes by apply entries_set.
  assert (entries s1 !! (length (entries s1) - 1) = Some e) as He1
    by (rewrite Hes; apply lookup_snoc).
  assert (Inv s1 h2) as HI2.
  { destruct HI1 as [Hs Ha]. split; [done|]. rewrite Hes.
    apply accounts_push; [|by apply position_no_key|done].
    split; [by apply openvpn_owner_other|]. simpl. rewrite (openvpn_owner_not_wg _ Hov), Hov.
    by eexists _, []. }
  apply wp_store_save_journal; [done|]. intros [[]|err] h3 HI3 Hl _.
  - wp_step. eapply wp_mono with (Q := λ _ s' h', s' = s1 ∧ calm h3 h').
    + intros started s' h4 [-> Hc4]. assert (Inv s1 h4) as HI4 by by eapply Inv_calm.
      destruct started as [[]|err].
      * wp_step. eapply wp_update_entry; [done|]. apply wp_persist_ret.
        destruct HI4 as [Hs Ha]. split; [done|]. rewrite entries_set.
        eapply accounts_insert; [done| |done|done|done].
        apply wf_with_state. destruct Ha as [Hwf _]. by eapply wf_entry_lookup.
      * wp_step. eapply wp_mono; [|by eapply wp_teardown_openvpn].
        intros r s' h' HI'%teardown_post_Inv. by apply wp_persist_ret.
    + match goal with |- wp ?m _ _ _ => cut (creates_nothing m); [intros Hm; apply Hm|looks] end.
  - wp_step. apply wp_modify, wp_ret. destruct HI3 as [Hs3 _]. split; [done|].
    rewrite entries_set, Hes, pop_list_app. destruct HI1 as [_ [Hwf Hcov]]. split; [done|].
    intros q Ha. by apply Hcov, Hl.
Qed.

Lemma openvpn_active_none s uid profile_id :
  openvpn_active s uid profile_id = false →
  position_of s uid ("ovpn:" +:+ profile_id) = None ∧
  position_of s uid ("ovpn-probe:" +:+ profile_id) = None.
Proof. unfold openvpn_active. destruct (position_of s uid _), (position_of s uid _); done. Qed.

Lemma connect_openvpn_safe uid plan : safe_op (connect_openvpn uid plan).
Proof.
  intros s h HI. unfold connect_openvpn. cbv zeta. do 2 wp_step. case_match; [|done].
  do 2 wp_step. case_match eqn:Hact; [done|]. apply openvpn_active_none in Hact as [Hpos _].
  wp_step. eapply wp_mono; [|by apply launch_openvpn_safe; [apply connection_owner| |]].
  intros [[]|err] s' h' HI'; [|done]. unfold forget_failure. wp_steps.
  eapply Inv_state; [|exact HI']. by destruct s'.
Qed.

Lemma start_openvpn_probe_safe uid plan : safe_op (start_openvpn_probe uid plan).
Proof.
  intros s h HI. unfold start_openvpn_probe. cbv zeta. do 2 wp_step. case_match; [|done].
  do 2 wp_step. case_match eqn:Hact; [done|]. apply openvpn_active_none in Hact as [_ Hpos].
  by apply launch_openvpn_safe; [apply probe_owner| |].
Qed.

Lemma plan_openvpn_looks uid plan : creates_nothing (plan_openvpn uid plan).
Proof. unfold plan_openvpn. looks. all: try match goal with x : (_ * _)%type |- _ => destruct x end; looks. Qed.

Lemma poll_openvpn_probe_safe uid profile_id : safe_op (poll_openvpn_probe uid profile_id).
Proof.
  intros s h HI. unfold poll_openvpn_probe. do 4 wp_step.
  destruct (position_of s uid _) as [index|] eqn:Hpos; [|done].
  apply position_key in Hpos as (e & He & _). cbn [ok_or]. wp_step. eapply wp_entry_at; [done|].
  match goal with |- wp ?m _ _ _ => cut (creates_nothing m); [intros Hm|looks] end.
  eapply wp_mono; [|apply Hm]. intros r s' h' [-> Hc]. by eapply Inv_calm.
Qed.

Lemma finish_openvpn_probe_safe uid profile_id : safe_op (finish_openvpn_probe uid profile_id).
Proof.
  intros s h HI. unfold finish_openvpn_probe. do 4 wp_step.
  destruct (position_of s uid _) as [index|] eqn:Hpos; [|done].
  apply position_key in Hpos as (e & He & _ & Ho). cbn [ok_or]. wp_step.
  eapply wp_mono; [|eapply wp_teardown_openvpn; [done|done|rewrite Ho; apply probe_owner]].
  intros r s' h' HI'%teardown_post_Inv. by apply wp_persist_ret.
Qed.

Lemma disconnect_openvpn_safe uid profile_id : safe_op (disconnect_openvpn uid profile_id).
Proof.
  intros s h HI. unfold disconnect_openvpn. cbv zeta. do 2 wp_step.
  destruct (position_of s uid _) as [index|] eqn:Hpos.
  - apply position_key in Hpos as (e & He & _). wp_step.
    eapply wp_mono; [|by eapply wp_teardown_entry]. intros r s' h' HI'%teardown_post_Inv.
    wp_step. apply wp_persist; [done|]. intros h2 HI2 _. wp_step.
    case_match; [unfold forget_failure|]; wp_steps; [|done].
    eapply Inv_state; [|exact HI2]. by destruct s'.
  - case_match; [|done]. unfold forget_failure. wp_steps. eapply Inv_state; [|done]. by destruct s.
Qed.

Lemma openvpn_owners_runtime s k :
  k ∈ openvpn_owners s → is_Some (dc_openvpn_runtime s !! k).
Proof.
  intros [_ Hk]%elem_of_bfilter. rewrite hash_keys_perm in Hk.
  apply list_elem_of_fmap in Hk as ([k' rt] & -> & Hk). apply elem_of_map_to_list in Hk.
  by eexists.
Qed.

Lemma openvpn_owners_nodup s : NoDup (openvpn_owners s).
Proof.
  unfold openvpn_owners, bfilter. apply NoDup_ListNoDup, List.NoDup_filter, NoDup_ListNoDup.
  rewrite hash_keys_perm. apply NoDup_fst_map_to_list.
Qed.

Lemma reconcile_openvpn_safe s h :
  Inv s h → runtime_ok s → ex_openvpn (dc_wired s) = true → ex_policy (dc_wired s) = true →
  wp reconcile_openvpn (λ _, Inv) s h.
Proof.
  intros HI Hok Hov Hpol. unfold reconcile_openvpn. do 3 wp_step.
  set (w := dc_wired s) in *.
  apply wp_for_acc with (I := λ todo _ s' h', Inv s' h' ∧ dc_wired s' = w ∧ NoDup todo ∧
    ∀ k, k ∈ todo → openvpn_owner k.2 = true ∧ is_Some (dc_openvpn_runtime s' !! k)).
  - split_and!; [done|done|apply openvpn_owners_nodup|]. intros k Hk%openvpn_owners_runtime.
    split; [by apply Hok|done].
  - intros [uid owner] todo first s' h' (HI' & Hw & [Hnin Hnd]%NoDup_cons & Htodo).
    destruct (Htodo (uid, owner)) as [Ho Hrt]; [apply list_elem_of_here|]. wp_step.
    eapply wp_mono; [|eapply (wp_frame (only_key (uid, owner))); [apply reconcile_owner_only|
      by eapply (reconcile_owner_safe (uid, owner))]].
    intros r s2 h2 [[HI2 _] [Hw2 Honly]]. apply wp_ret. split_and!; [done|congruence|done|].
    intros k Hk. rewrite Honly; [|by intros ->]. apply Htodo. by right.
  - intros [err|] s' h' (HI' & _); by apply wp_ret.
Qed.

End operations.
