(* ===== verification/SafetyIntents.v ===== *)
(** * Intents, conditional rules and replay are accounted for

    The operations that compose the client routes and the tunnels:
    the intent operations, the evaluation of conditional rules, the static
    route reconciliation and the replay of always-on profiles. *)

From S2P Require Export SafetyWireGuard.

(** ** The stores only touch files *)

Section stores.
Context `{Env}.

Lemma check_private_dir_looks p create : creates_nothing (check_private_dir p create).
Proof. unfold check_private_dir. looks. Qed.

Section store.
Context {D : Type} `{JsonCodec D} (cfg : StoreConfig D).

Lemma store_load_uid_looks uid : creates_nothing (store_load_uid cfg uid).
Proof.
  unfold store_load_uid. apply creates_nothing_try; [apply check_private_dir_looks|].
  intros root_ok. case_match; [apply creates_nothing_ret|].
  apply creates_nothing_try; [apply check_private_dir_looks|]. intros dir_ok. looks.
Qed.

Lemma store_save_looks uid document : creates_nothing (store_save cfg uid document).
Proof.
  unfold store_save. apply creates_nothing_try; [apply check_private_dir_looks|]. intros _.
  apply creates_nothing_try; [apply check_private_dir_looks|]. intros _. looks.
Qed.

Lemma store_load_all_looks : creates_nothing (store_load_all cfg).
Proof.
  unfold store_load_all. apply creates_nothing_try; [apply check_private_dir_looks|].
  intros root_ok. looks. apply store_load_uid_looks.
Qed.
End store.

Context `{JsonCodec IntentDocument}.

Lemma intents_upsert_looks root uid params : creates_nothing (Intents.upsert root uid params).
Proof.
  unfold Intents.upsert. apply creates_nothing_try; [apply store_load_uid_looks|].
  intros document. apply creates_nothing_try; [apply creates_nothing_ret|].
  intros document'. apply store_save_looks.
Qed.

Lemma intents_remove_looks root uid id : creates_nothing (Intents.remove root uid id).
Proof.
  unfold Intents.remove. apply creates_nothing_try; [apply store_load_uid_looks|].
  intros document. cbv zeta. case_match; [apply creates_nothing_ret|].
  apply creates_nothing_try; [apply store_save_looks|]. intros. apply creates_nothing_ret.
Qed.

Lemma intents_load_all_looks root : creates_nothing (Intents.load_all root).
Proof.
  unfold Intents.load_all. apply creates_nothing_try; [apply store_load_all_looks|].
  intros. apply creates_nothing_ret.
Qed.
End stores.

(** ** Composition of safe operations *)

Lemma safe_look `{Env} {A} (m : M DaemonCore A) : creates_nothing m → safe_op m.
Proof. intros Hm s h HI. eapply wp_mono; [|apply Hm]. intros a s' h' [-> Hc]. by eapply Inv_calm. Qed.

Lemma safe_ret `{Env} {A} (a : A) : safe_op (ret a).
Proof. by intros s h HI. Qed.

Lemma safe_bind `{Env} {A B} (m : M DaemonCore A) (f : A → M DaemonCore B) :
  safe_op m → (∀ a, safe_op (f a)) → safe_op (bind m f).
Proof.
  intros Hm Hf s h HI. wp_step. eapply wp_mono; [|by apply Hm]. intros a s' h' HI'. by apply Hf.
Qed.

Lemma safe_try `{Env} {A B} (m : M DaemonCore (io_result A)) (f : A → M DaemonCore (io_result B)) :
  safe_op m → (∀ a, safe_op (f a)) → safe_op (try_bind m f).
Proof. intros Hm Hf. apply safe_bind; [done|]. intros [a|e]; [apply Hf|apply safe_ret]. Qed.

(** The value of a pure check is known afterwards. *)
Lemma safe_lift `{Env} {A B} (r : io_result A) (f : A → M DaemonCore (io_result B)) :
  (∀ a, r = Ok a → safe_op (f a)) → safe_op (try_bind (lift r) f).
Proof. intros Hf s h HI. do 2 wp_step. destruct r as [a|e]; [by apply Hf|done]. Qed.

Lemma safe_get `{Env} {A} (f : DaemonCore → M DaemonCore A) :
  (∀ c, safe_op (f c)) → safe_op (bind get f).
Proof. intros Hf s h HI. do 2 wp_step. by apply Hf. Qed.

Lemma safe_modify `{Env} (f : DaemonCore → DaemonCore) :
  (∀ s, entries (f s) = entries s) → safe_op (modify f).
Proof. intros Hf s h HI. wp_step. eapply Inv_state; [apply Hf|done]. Qed.

Lemma safe_for_acc `{Env} {A B} (l : list A) (acc : B) (body : B → A → M DaemonCore B) :
  (∀ acc x, safe_op (body acc x)) → safe_op (for_acc l acc body).
Proof.
  intros Hb. revert acc. induction l as [|x l IH]; intros acc; simpl; [apply safe_ret|].
  apply safe_bind; [apply Hb|done].
Qed.

Lemma safe_persist `{Env} : safe_op persist.
Proof. intros s h HI. by apply wp_persist. Qed.

Lemma safe_save `{Env} : safe_op store_save_journal.
Proof. intros s h HI. by apply wp_store_save_journal. Qed.

(** [if let Some(index) = self.position(..)] and the index at once used. *)
Lemma safe_at_position `{Env} {B} uid owner (f : nat → M DaemonCore B) (k : M DaemonCore B) :
  (∀ index s h e, Inv s h → entries s !! index = Some e → wp (f index) (λ _, Inv) s h) →
  safe_op k →
  safe_op (let! c := get in
           match position_of c uid owner with
           | Some index => f index
           | None => k
           end).
Proof.
  intros Hf Hk s h HI. do 2 wp_step.
  destruct (position_of s uid owner) as [index|] eqn:Hpos; [|by apply Hk].
  apply position_key in Hpos as (e & He & _). by eapply Hf.
Qed.

(** Follows the structure of a definition down to its named parts. *)
Ltac safe_step :=
  lazymatch goal with
  | |- safe_op (ret _) => apply safe_ret
  | |- safe_op (lift _) => apply safe_ret
  | |- safe_op (fail _) => apply safe_ret
  | |- safe_op persist => apply safe_persist
  | |- safe_op store_save_journal => apply safe_save
  | |- safe_op (call _) => apply safe_look; look
  | |- safe_op (bind get _) => first [apply safe_at_position | apply safe_get; intros ?]
  | |- safe_op (try_bind _ _) => apply safe_try; [|intros ?]
  | |- safe_op (bind _ _) => apply safe_bind; [|intros ?]
  | |- safe_op (for_acc _ _ _) => apply safe_for_acc; intros ? ?
  | |- safe_op (modify _) => apply safe_modify; intros []; reflexivity
  | |- safe_op (match _ with _ => _ end) => case_match
  | |- safe_op (let _ := _ in _) => cbv zeta
  end.
Ltac safe := repeat safe_step.

(** ** Teardown of an owner found by its position *)

Section owners.
Context `{Env} `{IpNetLib}.

Lemma teardown_existing_safe uid owner : safe_op (teardown_existing uid owner).
Proof.
  unfold teardown_existing. apply safe_at_position; [|apply safe_ret].
  intros index s h e HI He. wp_step. eapply wp_mono; [|by eapply wp_teardown_entry].
  intros [[]|err] s' h' Hp%teardown_post_Inv; [by apply wp_persist_ret|done].
Qed.

Lemma uplink_next_hop_looks destination : creates_nothing (uplink_next_hop destination).
Proof. unfold uplink_next_hop. looks. Qed.

Lemma uplink_bypass_route_looks host : creates_nothing (uplink_bypass_route host).
Proof.
  unfold uplink_bypass_route, uplink_host_route. apply creates_nothing_bind; [|intros; looks].
  apply uplink_next_hop_looks.
Qed.

Lemma resolve_endpoint_ips_looks host : creates_nothing (resolve_endpoint_ips host).
Proof. unfold resolve_endpoint_ips. looks. Qed.

Lemma attach_desired_looks spec : creates_nothing (attach_desired spec).
Proof.
  unfold attach_desired, attach_routes_desired. apply creates_nothing_bind.
  - looks. apply uplink_next_hop_looks.
  - intros desired. looks; [apply resolve_endpoint_ips_looks|].
    apply uplink_bypass_route_looks.
Qed.
End owners.

(** ** Intents *)

Section intents.
Context `{Env} `{IpNetLib} `{JsonCodec IntentDocument}.

Lemma intent_owner_plain id owner : intent_owner id = Ok owner → plain_owner owner.
Proof.
  unfold intent_owner. case_match; [done|]. cbv zeta.
  destruct (map_err _ _); [|done]. intros [= <-]. split_and!; reflexivity.
Qed.

Lemma net_intent_set_safe uid params : safe_op (net_intent_set uid params).
Proof.
  unfold net_intent_set. apply safe_lift. intros owner Ho%intent_owner_plain.
  apply safe_lift. intros spec _. safe.
  - apply safe_look, attach_desired_looks.
  - apply teardown_existing_safe.
  - by apply apply_routes_inner_safe.
  - apply safe_look, intents_upsert_looks.
  - intros index s h entry HI He. wp_step. eapply wp_mono; [|by eapply wp_teardown_entry].
    intros r s' h' Hp%teardown_post_Inv. by apply wp_persist.
Qed.

Lemma net_intent_del_safe uid id : safe_op (net_intent_del uid id).
Proof.
  unfold net_intent_del. apply safe_lift. intros owner Ho%intent_owner_plain. safe.
  - apply safe_look, intents_remove_looks.
  - apply remove_owner_inner_safe.
Qed.

Lemma replay_intents_safe : safe_op replay_intents.
Proof.
  unfold replay_intents. safe.
  - apply safe_look, intents_load_all_looks.
  - unfold replay_intent. safe; [apply safe_look, attach_desired_looks|].
    apply apply_routes_inner_safe. by eapply intent_owner_plain.
Qed.

Lemma explain_resource_looks owner state resource tables names :
  creates_nothing (explain_resource owner state resource tables names).
Proof. unfold explain_resource. cbv zeta. destruct resource; looks. Qed.

Lemma net_explain_looks uid : creates_nothing (net_explain uid).
Proof. unfold net_explain. looks. apply explain_resource_looks. Qed.

Lemma net_intent_list_looks uid : creates_nothing (net_intent_list uid).
Proof.
  unfold net_intent_list. looks; [apply store_load_uid_looks|apply attach_desired_looks].
Qed.
End intents.

(** ** Conditional rules and static routes *)

Section reconcile.
Context `{Env} `{IpNetLib}.

(** A loop over the indices downwards that removes at most the entry it is at. *)
Lemma wp_downwards {A} (body : A → nat → M DaemonCore A) n (acc : A) s h
    (Q : A → DaemonCore → history → Prop) :
  n ≤ length (entries s) → Inv s h →
  (∀ acc index e s h, Inv s h → entries s !! index = Some e →
     wp (body acc index) (λ _ s' h', Inv s' h' ∧ length (entries s) ≤ S (length (entries s'))) s h) →
  (∀ acc s' h', Inv s' h' → Q acc s' h') →
  wp (for_acc (rev (seq 0 n)) acc body) Q s h.
Proof.
  intros Hn HI Hbody HQ. revert acc s h Hn HI. induction n as [|n IH]; intros acc s h Hn HI.
  { by apply wp_ret, HQ. }
  rewrite seq_S, rev_unit. simpl. wp_step.
  destruct (lookup_lt_is_Some_2 (entries s) n) as [e He]; [lia|].
  eapply wp_mono; [|by eapply Hbody]. intros acc' s' h' [HI' Hlen]. apply IH; [lia|done].
Qed.

Lemma teardown_post_length s index e h r s' h' :
  entries s !! index = Some e → teardown_post s index h r s' h' →
  length (entries s) ≤ S (length (entries s')).
Proof.
  intros He (_ & _ & _ & Hr). destruct r as [[]|err].
  - rewrite Hr, length_delete; [lia|done].
  - destruct Hr as (e1 & e' & _ & _ & ->). rewrite length_insert. lia.
Qed.

Lemma wp_remove_owner_inner_length uid owner s h :
  Inv s h →
  wp (remove_owner_inner uid owner)
     (λ _ s' h', Inv s' h' ∧ length (entries s) ≤ S (length (entries s'))) s h.
Proof.
  intros HI. unfold remove_owner_inner. do 4 wp_step.
  destruct (position_of s uid owner) as [index|] eqn:Hpos; [|by split; [|lia]].
  apply position_key in Hpos as (e & He & _). change (ok_or (Some ?x) ?y) with (Ok (E := io_error) x).
  cbv iota. wp_step.
  eapply wp_entry_at; [done|]. cbv zeta. wp_step.
  eapply wp_mono; [|by eapply wp_teardown_entry]. intros r s' h' Hp. wp_step.
  apply wp_persist; [by eapply teardown_post_Inv|]. intros h'' HI' _. apply wp_ret.
  split; [done|]. by eapply teardown_post_length.
Qed.

Lemma reconcile_static_routes_safe observed replayable :
  safe_op (reconcile_static_routes observed replayable).
Proof.
  intros s h HI. unfold reconcile_static_routes. do 3 wp_step.
  apply wp_downwards; [done|done| |].
  - clear s h HI. intros acc index e s h HI He. unfold reconcile_static_step. wp_step.
    eapply wp_entry_at; [done|]. case_match; [apply wp_ret; auto with lia|].
    case_match; [|apply wp_ret; auto with lia]. wp_step.
    eapply wp_mono; [|by eapply wp_teardown_entry]. intros r s' h' Hp. apply wp_ret.
    split; [by eapply teardown_post_Inv|by eapply teardown_post_length].
  - intros [removed_ failed] s' h' HI'.
    eapply safe_try; [apply safe_save| |done]. intros. safe.
Qed.

Lemma reconcile_rule_safe observed uid owner desired :
  plain_owner owner → safe_op (reconcile_rule observed uid owner desired).
Proof.
  intros Ho s h HI. unfold reconcile_rule. do 2 wp_step.
  destruct (position_of s uid owner) as [index|] eqn:Hpos, desired as [routes|].
  - apply position_key in Hpos as (e & He & _). wp_step. eapply wp_entry_at; [done|].
    case_match; [by apply wp_ret|]. eapply safe_bind; [|intros; safe|done].
    apply safe_try; [apply remove_owner_inner_safe|intros _; by apply apply_routes_inner_safe].
  - eapply safe_bind; [apply remove_owner_inner_safe|intros; safe|done].
  - eapply safe_bind; [by apply apply_routes_inner_safe|intros; safe|done].
  - by apply wp_ret.
Qed.

Lemma cond_owner_plain rule : plain_owner (cond_owner rule).
Proof. split_and!; reflexivity. Qed.

Lemma reconcile_conditional_safe addrs observed rules :
  safe_op (reconcile_conditional addrs observed rules).
Proof.
  intros s h HI. unfold reconcile_conditional. cbv zeta. do 3 wp_step.
  apply wp_downwards; [done|done| |].
  - clear s h HI. intros acc index e s h HI He. unfold drop_orphan. wp_step.
    eapply wp_entry_at; [done|]. cbv zeta. case_match; [apply wp_ret; auto with lia|].
    wp_step. eapply wp_mono; [|by apply wp_remove_owner_inner_length].
    intros r s' h' Hp. by apply wp_ret.
  - intros changed s' h' HI'. revert HI'. generalize s' h'. clear.
    intros s h HI. eapply safe_get; [|done]. intros c. safe.
    apply reconcile_rule_safe, cond_owner_plain.
Qed.
End reconcile.

(** ** Always-on profiles *)

Section always_on.
Context `{Env} `{IpNetLib} `{Base64Lib} `{JsonCodec AlwaysOnDocument}.

Lemma apply_definition_safe uid definition : safe_op (apply_definition uid definition).
Proof.
  unfold apply_definition. safe; [apply connect_wireguard_safe|apply apply_routes_safe].
Qed.

Lemma replay_safe root : safe_op (replay root).
Proof.
  unfold replay. safe.
  - apply safe_look, store_load_all_looks.
  - unfold replay_document. safe. unfold replay_entry. safe. apply apply_definition_safe.
Qed.
End always_on.
