(* ===== verification/Safety.v ===== *)
(** * The daemon as a transition system

    Operations run one at a time under the lock of the core; the process may
    die between any two calls and start again from the journal file. The
    theorems of this file hold in every reachable state, whatever the kernel
    and the disk answer. *)

From S2P Require Export SafetyIntents SafetyOpenVpn.

(** ** [reapply_dns] moves nothing *)

Section dns.
Context `{Env} `{IpNetLib}.

Lemma Forall_set_dns (P : OwnedResource → Prop) applied rs :
  (∀ d, P (Dns d) → P (Dns (dns_with_applied applied d))) →
  Forall P rs → Forall P (set_dns_applied applied rs).
Proof.
  intros HP. induction 1 as [|r rs Hr Hrs IH]; simpl; [constructor|].
  destruct r; constructor; auto.
Qed.

Lemma covered_set_dns applied rs a : res_covered rs a → res_covered (set_dns_applied applied rs) a.
Proof.
  induction rs as [|r rs IH]; simpl; [done|]. intros (q & Hq & Hc).
  apply elem_of_cons in Hq as [->|Hq].
  - destruct r; simpl in Hc; try done; (eexists; split; [apply list_elem_of_here|done]).
  - destruct IH as (q' & Hq' & Hc'); [by exists q|].
    destruct r; first [by exists q'; split; [right|] | by exists q; split; [right|]].
Qed.

Lemma wf_set_dns applied e :
  wf_entry e → wf_entry (with_resources (set_dns_applied applied) e).
Proof.
  intros [Ho Hr]. split; [done|]. simpl.
  destruct (starts_with (je_owner e) "wg:"); [|destruct (openvpn_owner (je_owner e))].
  - destruct Hr as (link & rest & Hres & Hall). exists link, (set_dns_applied applied rest).
    rewrite Hres. split; [done|]. by apply Forall_set_dns.
  - destruct Hr as (process & rest & Hres & Hall). exists process, (set_dns_applied applied rest).
    rewrite Hres. split; [done|]. by apply Forall_set_dns.
  - by apply Forall_set_dns.
Qed.

Lemma wf_set_warnings applied e :
  wf_entry e → wf_entry (with_resources (set_link_warnings applied) e).
Proof.
  intros [Ho Hr]. split; [done|]. simpl.
  destruct (starts_with (je_owner e) "wg:"); [|destruct (openvpn_owner (je_owner e))].
  - destruct Hr as (link & rest & Hres & Hall). rewrite Hres. simpl. by do 2 eexists.
  - destruct Hr as (process & rest & Hres & Hall). rewrite Hres. simpl.
    exists process, (set_link_warnings applied rest). split; [done|]. clear Hres.
    induction Hall as [|r rs Hr Hrs IH]; simpl; [constructor|]. destruct r; by constructor.
  - induction Hr as [|r rs Hr Hrs IH]; simpl; [constructor|]. destruct r; by constructor.
Qed.

Lemma covered_set_warnings applied rs a :
  res_covered rs a → res_covered (set_link_warnings applied rs) a.
Proof.
  induction rs as [|r rs IH]; simpl; [done|]. intros (q & Hq & Hc).
  apply elem_of_cons in Hq as [->|Hq].
  - destruct r; simpl in Hc; try done; (eexists; split; [apply list_elem_of_here|done]).
  - destruct IH as (q' & Hq' & Hc'); [by exists q|].
    destruct r; first [by exists q'; split; [right|] | by exists q; split; [right|]].
Qed.

(** The end of every branch that re-applied: the entry with its flags. *)
Lemma wp_reapplied {B} index e f (x : B) s h :
  entries s !! index = Some e → Inv s h → wf_entry (with_resources f e) →
  (∀ a, res_covered (je_resources e) a → res_covered (f (je_resources e)) a) →
  wp (update_entry index (with_resources f) ;;; ret x)
     (λ _ s' h', Inv s' h' ∧ length (entries s') = length (entries s)) s h.
Proof.
  intros He [Hs Ha] Hwf Hf. wp_step. eapply wp_update_entry; [done|]. apply wp_ret.
  split; [split; [done|]|by rewrite entries_set, length_insert].
  rewrite entries_set. eapply accounts_insert; [done|done|done| |done].
  intros a _ Hc. by apply Hf.
Qed.

Lemma wp_reapply_dns_entry {B} index e dns (x : bool → B) s h :
  entries s !! index = Some e → Inv s h →
  wp (let! applied := apply_dns dns in
      update_entry index (with_resources (set_dns_applied applied)) ;;; ret (x applied))
     (λ _ s' h', Inv s' h' ∧ length (entries s') = length (entries s)) s h.
Proof.
  intros He HI. unfold apply_dns. do 4 wp_step.
  eapply wp_reapplied; [done| | |intros ?; apply covered_set_dns].
  - eapply Inv_calm; [|done]. apply calm_quiet. solve_quiet.
  - apply wf_set_dns. destruct HI as [_ [Hwf _]]. by eapply wf_entry_lookup.
Qed.

Lemma reapply_entry_safe changed index e s h :
  Inv s h → entries s !! index = Some e →
  wp (reapply_entry changed index)
     (λ _ s' h', Inv s' h' ∧ length (entries s') = length (entries s)) s h.
Proof.
  intros HI He. unfold reapply_entry. do 3 wp_step. eapply wp_entry_at; [done|].
  assert (wf_entry e) as Hwf by (destruct HI as [_ [Hwf _]]; by eapply wf_entry_lookup).
  pose proof Hwf as [Hx _]. unfold other_tunnel in Hx. cbv zeta. rewrite Hx.
  case_match; [by apply wp_ret|]. case_match.
  - destruct (find_dns (je_resources e)) as [dns|]; [|by apply wp_ret]. wp_step.
    eapply wp_mono with (Q := λ _ s' h', s' = s ∧ Inv s' h').
    { intros b s' h' [-> HI']. case_match; [by apply wp_ret|]. by eapply wp_reapply_dns_entry. }
    case_match; wp_steps; split; try done. eapply Inv_calm; [|done]. apply calm_quiet. solve_quiet.
  - case_match; [by apply wp_ret|].
    destruct (find_wireguard (je_resources e)) as [link|]; [|by apply wp_ret].
    destruct (find_dns (je_resources e)) as [dns|]; [|by apply wp_ret].
    do 2 wp_step. set (h1 := _ :: h). assert (Inv s h1) as HI1
      by (eapply Inv_calm; [|done]; apply calm_quiet; solve_quiet).
    destruct a as [[]|err]; [|by apply wp_ret|done]. change (negb true) with false. cbv iota.
    unfold apply_dns. do 4 wp_step. eapply wp_reapplied; [done| | |].
    + eapply Inv_calm; [|done]. apply calm_quiet. solve_quiet.
    + match goal with |- wf_entry (with_resources (λ rs, set_link_warnings ?b _) _) =>
        apply (wf_set_warnings b (with_resources (set_dns_applied b) e)) end.
      by apply wf_set_dns.
    + intros x Hc. by apply covered_set_warnings, covered_set_dns.
Qed.

Lemma reapply_dns_safe : safe_op reapply_dns.
Proof.
  intros s h HI. unfold reapply_dns. do 2 wp_step. case_match; [done|]. wp_step.
  apply wp_for_try with (I := λ todo _ s' h', Inv s' h' ∧ length (entries s') = length (entries s) ∧
    ∀ i, i ∈ todo → i < length (entries s)).
  - split_and!; [done|done|]. intros i Hi%elem_of_seq. lia.
  - intros index todo changed s' h' (HI' & Hlen & Htodo).
    destruct (lookup_lt_is_Some_2 (entries s') index) as [e He].
    { rewrite Hlen. apply Htodo, list_elem_of_here. }
    eapply wp_mono; [|by eapply reapply_entry_safe].
    intros [b|err] s1 h1 [HI1 Hlen1]; [|done]. split_and!; [done|congruence|].
    intros i Hi. apply Htodo. by right.
  - intros changed s' h' (HI' & _). destruct changed; [by apply safe_save|by apply wp_ret].
Qed.
End dns.

(** ** Operations *)

Inductive operation : Type :=
| OpApplyRoutes (uid : Z) (owner : string) (routes : list AppliedRoute)
| OpApplyAttach (uid : Z) (owner : string) (spec : AttachSpecParams) (routes : list AppliedRoute)
| OpRemoveOwner (uid : Z) (owner : string)
| OpNetRouteAdd (uid : Z) (params : NetRouteAddParams)
| OpNetRouteDel (uid : Z) (route : SystemRoute)
| OpNetRuleAdd (uid : Z) (params : NetRuleAddParams)
| OpNetRuleDel (uid : Z) (rule : SystemRule)
| OpConnectWireguard (uid : Z) (profile_id : string) (plan : WireGuardPlan)
| OpDisconnectWireguard (uid : Z) (profile_id : string)
| OpWireguardStatus (uid : Z) (profile_id : string)
| OpIntentSet (uid : Z) (params : NetIntentSetParams)
| OpIntentDel (uid : Z) (id : string)
| OpIntentList (uid : Z)
| OpReplayIntents
| OpExplain (uid : Z)
| OpReapplyDns
| OpReconcileConditional (addrs : list IfaceAddr) (observed : list AppliedRoute)
    (rules : list (Z * ConditionalRouteRule))
| OpReconcileStaticRoutes (observed : list AppliedRoute) (replayable : gset owner_key)
| OpReplay (root : path)
| OpCleanupUid (uid : Z)
| OpCleanupSessionUid (uid : Z) (keep : gset owner_key)
| OpShutdown
| OpPlanOpenVpn (uid : Z) (plan : OpenVpnPlan)
| OpConnectOpenVpn (uid : Z) (plan : OpenVpnPlan)
| OpDisconnectOpenVpn (uid : Z) (profile_id : string)
| OpStartOpenVpnProbe (uid : Z) (plan : OpenVpnPlan)
| OpPollOpenVpnProbe (uid : Z) (profile_id : string)
| OpFinishOpenVpnProbe (uid : Z) (profile_id : string)
| OpReconcileOpenVpn
| OpSetLinkState (name : string) (up : bool)
| OpStopExternalLink (name : string).

Section system.
Context `{Env} `{IpNetLib} `{Base64Lib} `{RuntimeDir} `{HashOrder}
  `{JsonCodec IntentDocument} `{JsonCodec AlwaysOnDocument}.

Definition done_with {A} (m : M DaemonCore A) : M DaemonCore unit := m ;;; ret tt.

Definition run_operation (op : operation) : M DaemonCore unit :=
  match op with
  | OpApplyRoutes uid owner routes => done_with (apply_routes uid owner routes)
  | OpApplyAttach uid owner spec routes => done_with (apply_attach uid owner spec routes)
  | OpRemoveOwner uid owner => done_with (remove_owner uid owner)
  | OpNetRouteAdd uid params => done_with (net_route_add uid params)
  | OpNetRouteDel uid route => done_with (net_route_del uid route)
  | OpNetRuleAdd uid params => done_with (net_rule_add uid params)
  | OpNetRuleDel uid rule => done_with (net_rule_del uid rule)
  | OpConnectWireguard uid profile_id plan => done_with (connect_wireguard uid profile_id plan)
  | OpDisconnectWireguard uid profile_id => done_with (disconnect_wireguard uid profile_id)
  | OpWireguardStatus uid profile_id => done_with (wireguard_status uid profile_id)
  | OpIntentSet uid params => done_with (net_intent_set uid params)
  | OpIntentDel uid id => done_with (net_intent_del uid id)
  | OpIntentList uid => done_with (net_intent_list uid)
  | OpReplayIntents => done_with replay_intents
  | OpExplain uid => done_with (net_explain uid)
  | OpReapplyDns => done_with reapply_dns
  | OpReconcileConditional addrs observed rules =>
    done_with (reconcile_conditional addrs observed rules)
  | OpReconcileStaticRoutes observed replayable =>
    done_with (reconcile_static_routes observed replayable)
  | OpReplay root => done_with (replay root)
  | OpCleanupUid uid => done_with (cleanup_uid uid)
  | OpCleanupSessionUid uid keep => done_with (cleanup_session_uid uid keep)
  | OpShutdown => done_with shutdown
  | OpPlanOpenVpn uid plan => done_with (plan_openvpn uid plan)
  | OpConnectOpenVpn uid plan => done_with (connect_openvpn uid plan)
  | OpDisconnectOpenVpn uid profile_id => done_with (disconnect_openvpn uid profile_id)
  | OpStartOpenVpnProbe uid plan => done_with (start_openvpn_probe uid plan)
  | OpPollOpenVpnProbe uid profile_id => done_with (poll_openvpn_probe uid profile_id)
  | OpFinishOpenVpnProbe uid profile_id => done_with (finish_openvpn_probe uid profile_id)
  | OpReconcileOpenVpn => done_with reconcile_openvpn
  | OpSetLinkState name up => done_with (set_link_state name up)
  | OpStopExternalLink name => done_with (stop_external_link name)
  end.

Lemma set_link_state_looks name up : creates_nothing (set_link_state name up).
Proof. unfold set_link_state. looks. Qed.

Lemma stop_external_link_looks name : creates_nothing (stop_external_link name).
Proof. unfold stop_external_link. looks. Qed.

(** The executors the daemon's [main] always hands over, of those the
    code unwraps. *)
Definition daemon_wired (w : Executors) : Prop := ex_openvpn w = true ∧ ex_policy w = true.

(** The invariant of a core that is up. *)
Definition Sound (s : DaemonCore) (h : history) : Prop :=
  Inv s h ∧ daemon_wired (dc_wired s) ∧ runtime_ok s.

Lemma run_operation_safe op s h : Sound s h → wp (run_operation op) (λ _, Inv) s h.
Proof.
  intros (HI & [Hov Hpol] & Hrt). revert HI.
  destruct op; cbn [run_operation];
    lazymatch goal with
    | |- _ → wp (done_with reconcile_openvpn) _ _ _ => idtac
    | _ => apply safe_bind; [|intros; apply safe_ret]
    end.
  - apply apply_routes_safe.
  - apply apply_attach_safe.
  - apply remove_owner_safe.
  - apply net_route_add_safe.
  - apply net_route_del_safe.
  - apply net_rule_add_safe.
  - apply net_rule_del_safe.
  - apply connect_wireguard_safe.
  - apply disconnect_wireguard_safe.
  - apply keeps_entries_safe, wireguard_status_keeps.
  - apply net_intent_set_safe.
  - apply net_intent_del_safe.
  - apply safe_look, net_intent_list_looks.
  - apply replay_intents_safe.
  - apply safe_look, net_explain_looks.
  - apply reapply_dns_safe.
  - apply reconcile_conditional_safe.
  - apply reconcile_static_routes_safe.
  - apply replay_safe.
  - apply cleanup_uid_safe.
  - apply teardown_safe.
  - apply teardown_safe.
  - apply safe_look, plan_openvpn_looks.
  - apply connect_openvpn_safe.
  - apply disconnect_openvpn_safe.
  - apply start_openvpn_probe_safe.
  - apply poll_openvpn_probe_safe.
  - apply finish_openvpn_probe_safe.
  - intros HI. unfold done_with. wp_step. eapply wp_mono; [|by apply reconcile_openvpn_safe].
    intros r s' h' HI'. by apply wp_ret.
  - apply safe_look, set_link_state_looks.
  - apply safe_look, stop_external_link_looks.
Qed.

Lemma apply_routes_from_sane rev_added routes :
  preserves sane (apply_routes_from (S := DaemonCore) rev_added routes).
Proof.
  revert rev_added. induction routes as [|route routes IH]; intros rev_added; simpl; [frame|].
  assert (∀ text still, preserves sane (rollback_routes (S := DaemonCore) rev_added text still)) as Hr.
  { induction rev_added as [|r l IHl]; intros text still; simpl; frame. }
  frame.
Qed.
Hint Resolve apply_routes_from_sane : frame.

Lemma find_slot_sane c plan existing wg_marks slots :
  preserves sane (find_slot c plan existing wg_marks slots).
Proof. induction slots as [|slot slots IH]; simpl; frame. Qed.
Hint Resolve find_slot_sane find_mark_sane : frame.

Lemma run_operation_sane op : preserves sane (run_operation op).
Proof.
  destruct op; frame; try sane_step.
  apply sane_runtime. intros m k [rt Hk]. destruct (decide (k = (uid, "ovpn:" +:+ ol_profile_id plan))) as [->|Hne].
  - right. apply connection_owner.
  - left. rewrite lookup_insert_ne in Hk by done. by exists rt.
Qed.

Lemma run_operation_sound op s h : Sound s h → wp (run_operation op) (λ _, Sound) s h.
Proof.
  intros Hs. eapply wp_mono; [|eapply (wp_frame sane); [apply run_operation_sane|
    by apply run_operation_safe]].
  intros [] s' h' (HI & Hw & Hrt). destruct Hs as (_ & Hw0 & Hrt0).
  split_and!; [done|by rewrite Hw|by apply Hrt].
Qed.

(** ** Runs *)

(** The process: down, or up with its core. *)
Inductive process : Type :=
| Down
| Up (core : DaemonCore).

(** [open_recovery] ignores the state it is run from. *)
Definition no_core : DaemonCore := core_with journal_default unwired.

(** A crash during a run of [m] leaves any part of the calls made. *)
Definition interrupted {A} (m : M DaemonCore A) (s : DaemonCore) (h h1 : history) : Prop :=
  ∃ later, (m s h).2 = later ++ h1.

Inductive step : process * history → process * history → Prop :=
| step_open wired s h h' :
    daemon_wired wired → open_recovery wired no_core h = (Some (Ok tt), s, h') → step (Down, h) (Up s, h')
| step_open_error wired err s h h' :
    daemon_wired wired → open_recovery wired no_core h = (Some (Err err), s, h') → step (Down, h) (Down, h')
| step_open_crash wired h h1 :
    daemon_wired wired → interrupted (open_recovery wired) no_core h h1 → step (Down, h) (Down, h1)
| step_operation op s h s' h' :
    run_operation op s h = (Some tt, s', h') → step (Up s, h) (Up s', h')
| step_operation_crash op s h h1 :
    interrupted (run_operation op) s h h1 → step (Up s, h) (Down, h1)
| step_crash s h : step (Up s, h) (Down, h).

Inductive reachable : process * history → Prop :=
| reachable_start : reachable (Down, [])
| reachable_step st st' : reachable st → step st st' → reachable st'.

(** What [JournalStore::load] promises: a document the file may hold. *)
Definition load_faithful : Prop :=
  ∀ h d, answer _ StoreLoad h = Ok d → d ∈ disk h.

Lemma crash_safe_suffix h1 h2 : crash_safe (h1 ++ h2) → crash_safe h2.
Proof. induction h1 as [|e h1 IH]; simpl; [done|]. intros [_ Hs]. by apply IH. Qed.

Lemma teardown_sane matches : preserves sane (teardown matches).
Proof. frame; sane_step. Qed.

Lemma wp_open_recovery wired s h :
  load_faithful → crash_safe h → daemon_wired wired →
  wp (open_recovery wired)
     (λ r s' h', crash_safe h' ∧ (r = Ok tt → Sound s' h')) s h.
Proof.
  intros Hload Hs Hw. unfold open_recovery. wp_step. unfold wp, call.
  destruct (answer _ StoreLoad h) as [journal|err] eqn:Hans.
  - assert (Inv (core_with journal wired) (Ev StoreLoad (Ok journal) :: h)) as HI.
    { apply Hload in Hans. destruct (crash_safe_now h Hs journal Hans) as [Hwf Hc].
      eapply Inv_calm; [apply calm_quiet; solve_quiet|]. by split. }
    assert (runtime_ok (core_with journal wired)) as Hrt by by intros k [].
    change (wp (put (core_with journal wired) ;;;
      match jd_entries journal with
      | [] => ret (Ok tt)
      | _ => let? _ := teardown (λ _, true) in ret (Ok tt)
      end) (λ r s' h', crash_safe h' ∧ (r = Ok tt → Sound s' h')) s
      (Ev StoreLoad (Ok journal) :: h)).
    do 2 wp_step. destruct (jd_entries journal).
    + apply wp_ret. split; [apply HI|by intros _].
    + wp_step. eapply wp_mono; [|eapply (wp_frame sane); [apply teardown_sane|by apply teardown_safe]].
      intros [r|err] s' h' [HI' [Hw' Hrt']]; [|by split; [apply HI'|]].
      apply wp_ret. split; [apply HI'|]. intros _. split_and!; [done|by rewrite Hw'|by apply Hrt'].
  - split; [|done]. apply crash_safe_quiet; [solve_quiet|done].
Qed.

Lemma wp_interrupted {A} (m : M DaemonCore A) s h h1 :
  wp m (λ _ _ h', crash_safe h') s h → interrupted m s h h1 → crash_safe h1.
Proof.
  unfold wp, interrupted. intros Hm [later Hl]. destruct (m s h) as [[[a|] s'] h']; [|done].
  simpl in Hl. subst. by eapply crash_safe_suffix.
Qed.

Definition sound (st : process * history) : Prop :=
  crash_safe st.2 ∧ match st.1 with Up s => Sound s st.2 | Down => True end.

Lemma reachable_sound st : load_faithful → reachable st → sound st.
Proof.
  intros Hload. induction 1 as [|st st' Hr [Hs IH] Hstep]; [split; [apply crash_safe_nil|done]|].
  destruct Hstep as [wired s h h' Hw Hrun|wired err s h h' Hw Hrun|wired h h1 Hw Hrun
    |op s h s' h' Hrun|op s h h1 Hrun|s h]; simpl in Hs, IH.
  - destruct (wp_run _ _ _ _ _ _ _ (wp_open_recovery wired no_core h Hload Hs Hw) Hrun) as [? HI].
    split; [done|by apply HI].
  - by destruct (wp_run _ _ _ _ _ _ _ (wp_open_recovery wired no_core h Hload Hs Hw) Hrun).
  - split; [|done]. eapply wp_interrupted; [|exact Hrun].
    eapply wp_mono; [|by apply wp_open_recovery]. by intros r s' h' [? _].
  - pose proof (wp_run _ _ _ _ _ _ _ (run_operation_sound op s h IH) Hrun) as HI.
    split; [apply HI|done].
  - split; [|done]. eapply wp_interrupted; [|exact Hrun].
    eapply wp_mono; [|by apply run_operation_sound]. intros r s' h' [HI _]. apply HI.
  - by split.
Qed.
End system.
