(* ===== verification/XrayReload.v ===== *)
(** * Reloading an Xray connection

    [reload_xray] swaps the configuration of a connected tunnel without
    touching its network. It may do so only when the plan asks for the
    network the journal holds; what that comparison accepts and refuses. *)

From S2P Require Export XrayConnect.
From S2P Require Import XrayTheorems RouteProps Safety.

(** ** The orders sorted by *)

Lemma lex_le_cons x y a b :
  lex_le (x :: a) (y :: b) = true ↔ (x < y)%Z ∨ (x = y ∧ lex_le a b = true).
Proof. simpl. rewrite orb_true_iff, andb_true_iff, Z.ltb_lt, Z.eqb_eq. tauto. Qed.

Lemma lex_le_total a b : lex_le a b = true ∨ lex_le b a = true.
Proof.
  revert b. induction a as [|x a IH]; intros [|y b]; [by left..|by right|].
  rewrite !lex_le_cons. destruct (Z.lt_trichotomy x y) as [?|[->|?]]; [tauto| |tauto].
  destruct (IH b); tauto.
Qed.

Lemma lex_le_trans a b c : lex_le a b = true → lex_le b c = true → lex_le a c = true.
Proof.
  revert b c. induction a as [|x a IH]; intros [|y b] [|z c]; try done.
  rewrite !lex_le_cons. intros [?|[-> ?]] [?|[-> ?]]; [left; lia..|]. right. split; [done|]. by eapply IH.
Qed.

Lemma lex_le_antisymm a b : lex_le a b = true → lex_le b a = true → a = b.
Proof.
  revert b. induction a as [|x a IH]; intros [|y b]; try done.
  rewrite !lex_le_cons. intros [?|[-> ?]] [?|[? ?]]; [lia..|]. f_equal. by apply IH.
Qed.

#[export] Instance net_key_inj : Inj (=) (=) net_key.
Proof.
  intros [[a|a] p] [[b|b] q]; unfold net_key, net_is_ipv4; simpl; intros [= ]; by subst.
Qed.

#[export] Instance tun_route_key_inj : Inj (=) (=) tun_route_key.
Proof.
  intros [[n m] t] [[n' m'] t']. unfold tun_route_key. intros Heq.
  apply app_inj_1 in Heq as [Hn Hrest]; [|done]. apply (inj net_key) in Hn.
  destruct t, t'; naive_solver.
Qed.

Lemma sort_nets_eq l1 l2 : sort_nets l1 = sort_nets l2 ↔ l1 ≡ₚ l2.
Proof.
  apply sort_by_eq; [intros; apply lex_le_total|intros; by eapply lex_le_trans|].
  intros x y Hx Hy. apply (inj net_key). by apply lex_le_antisymm.
Qed.

Lemma sort_routes_eq l1 l2 : sort_routes l1 = sort_routes l2 ↔ l1 ≡ₚ l2.
Proof.
  apply sort_by_eq; [intros; apply lex_le_total|intros; by eapply lex_le_trans|].
  intros x y Hx Hy. apply (inj tun_route_key). by apply lex_le_antisymm.
Qed.

(** ** What a plan and a journal entry must agree on *)

Record same_network (plan : XrayPlan) (process : XrayProcessResource) (rs : list OwnedResource)
    (targets : list IpAddr) : Prop := mkSame {
  sn_name : xl_name plan = xp_name process;
  sn_ipv4 : xl_full_ipv4 plan = is_some_and wf_ipv4 (xp_full process);
  sn_ipv6 : xl_full_ipv6 plan = is_some_and wf_ipv6 (xp_full process);
  sn_quic : xl_reject_quic plan = xp_reject_quic process;
  sn_mtu : xp_mtu process = None ∨ xp_mtu process = Some (xl_mtu plan);
  sn_exits : xl_proxy_exits plan = xp_proxy_exits process;
  sn_address : journaled_addresses rs = [xl_address plan];
  sn_dns : match find_dns rs with
           | Some dns => xl_dns_servers plan ≠ [] ∧ wd_servers dns = xl_dns_servers plan ∧
                         wd_domains dns = xl_dns_domains plan
           | None => xl_dns_servers plan = []
           end;
  sn_routes : journaled_tun_routes process rs ≡ₚ desired_tun_routes plan process;
  sn_bypass : bypassed_nets process rs ≡ₚ map net_of_ip targets;
}.

Lemma dns_matches_spec plan rs :
  dns_matches plan rs = true ↔
  match find_dns rs with
  | Some dns => xl_dns_servers plan ≠ [] ∧ wd_servers dns = xl_dns_servers plan ∧
                wd_domains dns = xl_dns_domains plan
  | None => xl_dns_servers plan = []
  end.
Proof.
  unfold dns_matches. destruct (find_dns rs), (xl_dns_servers plan);
    rewrite ?andb_true_iff, ?bool_decide_eq_true; naive_solver.
Qed.

Lemma plan_matches_spec plan process rs targets :
  plan_matches plan process rs = true ∧ sort_nets (bypassed_nets process rs) = sort_nets (map net_of_ip targets)
  ↔ same_network plan process rs targets.
Proof.
  unfold plan_matches. rewrite sort_nets_eq.
  rewrite !andb_true_iff, !bool_decide_eq_true, !eqb_true_iff, dns_matches_spec, sort_routes_eq.
  assert (is_none_or (λ mtu, Z.eqb mtu (xl_mtu plan)) (xp_mtu process) = true ↔
          xp_mtu process = None ∨ xp_mtu process = Some (xl_mtu plan)) as ->.
  { destruct (xp_mtu process); simpl; rewrite ?Z.eqb_eq; naive_solver. }
  split; [intros; destruct_and!; by constructor|]. intros []. tauto.
Qed.

(** ** What happens before the swap *)

(** A name resolution: all that a refused reload may ask for. *)
Definition resolution (e : event) (_ : history) : Prop :=
  match e with Ev c _ => match c with ResolveHost _ => True | _ => False end end.

Abbreviation reads := (obeys (S := DaemonCore) eq resolution (λ _, True)).

(** A run that, short of [Q], changed nothing, resolved names at most and
    did not succeed. *)
Definition refused_or {A} (Q : Prop) (c : DaemonCore) (h : history)
    (x : option (io_result A) * DaemonCore * history) : Prop :=
  Q ∨ (x.1.2 = c ∧ traced resolution h x.2 ∧ ∀ a, x.1.1 ≠ Some (Ok a)).

Lemma elem_of_add_targets targets ips ip : ip ∈ add_targets targets ips ↔ ip ∈ targets ∨ ip ∈ ips.
Proof.
  unfold add_targets. revert targets. induction ips as [|x ips IH]; intros targets; simpl; [set_solver|].
  rewrite IH. destruct (vec_contains targets x) eqn:Hx; [|set_solver].
  apply vec_contains_spec in Hx. set_solver.
Qed.

Section reload.
Context `{Env} `{IpNetLib} `{UrlLib} `{JsonText}.
Context (show_ip : IpAddr → string).

(** [let? a = m in f]: [m] only reads. *)
Lemma refused_or_try {A B} Q c h0 h (m : M DaemonCore (io_result A)) (f : A → M DaemonCore (io_result B)) :
  reads m → traced resolution h0 h →
  (∀ a h1, m c h = (Some (Ok a), c, h1) → traced resolution h0 h1 → refused_or Q c h0 (f a c h1)) →
  refused_or Q c h0 (try_bind m f c h).
Proof.
  intros Hm Hh Hf. destruct (Hm c h I) as [Hs Ht]. unfold try_bind, bind.
  destruct (m c h) as [[[[a|e]|] c1] h1] eqn:Hrun; simpl in *; subst c1.
  - apply Hf; [done|]. by eapply traced_trans.
  - right. split; [done|]. split; [by eapply traced_trans|done].
  - right. split; [done|]. split; [by eapply traced_trans|done].
Qed.

Lemma refused_or_bind {A B} Q c h0 h (m : M DaemonCore A) (f : A → M DaemonCore (io_result B)) :
  reads m → traced resolution h0 h →
  (∀ a h1, m c h = (Some a, c, h1) → traced resolution h0 h1 → refused_or Q c h0 (f a c h1)) →
  refused_or Q c h0 (bind m f c h).
Proof.
  intros Hm Hh Hf. destruct (Hm c h I) as [Hs Ht]. unfold bind.
  destruct (m c h) as [[[a|] c1] h1] eqn:Hrun; simpl in *; subst c1.
  - apply Hf; [done|]. by eapply traced_trans.
  - right. split; [done|]. split; [by eapply traced_trans|done].
Qed.

Lemma refused_or_fail {A} Q c h0 h e :
  traced resolution h0 h → refused_or (A := A) Q c h0 (fail e c h).
Proof. by right. Qed.

Lemma reads_entry_at index : reads (entry_at index).
Proof. obeys. Qed.

Lemma reads_compatible index plan process : reads (ensure_xray_reload_compatible index plan process).
Proof.
  unfold ensure_xray_reload_compatible. obeys_step; [apply reads_entry_at|].
  cbv zeta. obeys_step; [obeys|]. obeys_step; [by apply obeys_targets|]. obeys.
Qed.

Lemma wp_resolve host c h : wp (resolve_host_addrs host) (λ _ _ _, True) c h.
Proof. unfold resolve_host_addrs. destruct (parse_ip host); [by apply wp_ret|by apply wp_call]. Qed.

(** ** The comparison *)

Lemma compatible_run index plan process c h entry targets h1 :
  entries c !! index = Some entry → bypass_targets plan c h = (Some targets, c, h1) →
  ensure_xray_reload_compatible index plan process c h =
    (if plan_matches plan process (je_resources entry)
     then (Some (if sort_nets (bypassed_nets process (je_resources entry))
                    =b sort_nets (map net_of_ip targets) then Ok tt else Err incompatible), c, h1)
     else (Some (Err incompatible), c, h)).
Proof.
  intros He Ht. unfold ensure_xray_reload_compatible, bind, entry_at, bind. simpl. rewrite He. simpl.
  destruct (plan_matches _ _ _); simpl; [|done]. rewrite Ht. by case_bool_decide.
Qed.

Lemma compatible_ok index plan process c h a c' h' :
  ensure_xray_reload_compatible index plan process c h = (Some (Ok a), c', h') →
  c' = c ∧ ∃ entry targets, entries c !! index = Some entry ∧
    bypass_targets plan c h = (Some targets, c, h') ∧
    same_network plan process (je_resources entry) targets.
Proof.
  intros Hrun.
  destruct (reads_compatible index plan process c h I) as [Hs _]. rewrite Hrun in Hs. simpl in Hs. subst c'.
  split; [done|]. revert Hrun.
  unfold ensure_xray_reload_compatible, bind, entry_at, bind. simpl.
  destruct (entries c !! index) as [entry|]; simpl; [|done].
  destruct (plan_matches _ _ _) eqn:Hm; simpl; [|done].
  destruct (bypass_targets plan c h) as [[[targets|] c1] h1]; [|done].
  case_bool_decide as Hb; [|done]. intros [= <- <- <-]. exists entry, targets.
  split; [done|]. split; [done|]. by apply plan_matches_spec.
Qed.

(** C20. A reload either finds the network of the journal in the new plan and
    goes on to swap the child, or ends in an error or panic with the core as
    it was, having done nothing but resolve names. *)
Theorem reload_same_network_or_refused uid params c h :
  refused_or (∃ index entry process plan0 plan targets h1 h2 h3,
      position_of c uid ("xray:" +:+ xq_profile_id params) = Some index ∧
      entries c !! index = Some entry ∧ je_state entry = Applied ∧
      find_xray (je_resources entry) = Some process ∧
      prepare_xray uid params (xp_transport_mark process) c h = (Some (Ok plan0), c, h1) ∧
      pin_server_addresses show_ip resolve_host_addrs plan0 c h1 = (Some (Ok plan), c, h2) ∧
      bypass_targets plan c h2 = (Some targets, c, h3) ∧
      same_network plan process (je_resources entry) targets)
    c h (reload_xray show_ip uid params c h).
Proof.
  assert (traced resolution h h) as Hh by constructor. unfold reload_xray. cbv zeta.
  apply refused_or_try; [obeys|done|]. intros ? ? [= _ <-] _.
  apply refused_or_bind; [obeys|done|]. intros ? ? [= <- <-] _.
  apply refused_or_try; [obeys|done|]. intros index ? [= Hindex <-] _.
  apply refused_or_bind; [apply reads_entry_at|done|]. intros entry h0 Hentry _.
  unfold entry_at, bind in Hentry. simpl in Hentry.
  destruct (entries c !! index) as [e|] eqn:He; [|done]. injection Hentry as -> <-.
  case_bool_decide as Hst; simpl; [|by apply refused_or_fail].
  apply refused_or_try; [obeys|done|]. intros process ? [= Hp <-] _.
  apply refused_or_try; [apply obeys_prepare|done|]. intros plan0 h1 Hprepare Hh1.
  apply refused_or_try; [exact (obeys_pin show_ip (λ _ _ _, I) _)|done|]. intros plan h2 Hpin Hh2.
  apply refused_or_try; [apply reads_compatible|done|]. intros ? h3 Hcompat Hh3.
  apply compatible_ok in Hcompat as (_ & entry' & targets & He' & Ht & Hsame).
  left. exists index, entry, process, plan0, plan, targets, h1, h2, h3. simplify_eq.
  destruct (position_of _ _ _); [|done]. destruct (find_xray _); [|done]. by simplify_eq/=.
Qed.
(** The host route of a literal server is among the journaled ones. *)
Lemma literal_target plan c h targets c' h' host ip :
  bypass_targets plan c h = (Some targets, c', h') →
  host ∈ xl_server_hosts plan ++ xl_unpinned_hosts plan → parse_ip host = Some ip → ip ∈ targets.
Proof.
  intros Hrun Hhost Hip. refine (wp_run _ (λ targets _ _, ip ∈ targets) _ _ _ _ _ _ Hrun).
  unfold bypass_targets. apply wp_bind.
  apply wp_for_acc with (I := λ rest targets _ _, host ∈ rest ∨ ip ∈ targets); [by left|..].
  - intros x rest b s h0 [Hx|Hb].
    + apply elem_of_cons in Hx as [<-|Hx].
      * unfold resolve_host_addrs. rewrite Hip. apply wp_bind, wp_ret, wp_ret. right.
        apply elem_of_add_targets. right. by apply list_elem_of_here.
      * apply wp_bind. eapply wp_mono; [|apply wp_resolve]. intros ips ?? _. apply wp_ret. by left.
    + apply wp_bind. eapply wp_mono; [|apply wp_resolve]. intros ips ?? _. apply wp_ret. right.
      apply elem_of_add_targets. by left.
  - intros b s h0 [Hb%elem_of_nil|Hb]; [done|]. cbv zeta.
    apply wp_for_acc with (I := λ _ targets _ _, ip ∈ targets); [apply elem_of_add_targets; by left| |done].
    intros x rest b' s' h1 Hb'. apply wp_bind. eapply wp_mono; [|apply wp_resolve].
    intros ips ?? _. apply wp_ret. apply elem_of_add_targets. by left.
Qed.

(** A reload that is accepted has the host route of every literal server
    in the journal, although a connection does not install one for a server no
    uplink reaches. *)
Theorem reload_needs_every_bypass index plan process c h c' h' a host ip :
  ensure_xray_reload_compatible index plan process c h = (Some (Ok a), c', h') →
  host ∈ xl_server_hosts plan ++ xl_unpinned_hosts plan → parse_ip host = Some ip →
  ∃ entry, entries c !! index = Some entry ∧
    net_of_ip ip ∈ bypassed_nets process (je_resources entry).
Proof.
  intros (_ & entry & targets & He & Ht & Hsame)%compatible_ok Hhost Hip.
  exists entry. split; [done|]. rewrite (sn_bypass _ _ _ _ Hsame).
  apply list_elem_of_fmap. exists ip. split; [done|]. by eapply literal_target.
Qed.

End reload.

(** ** The same parameters twice

    A machine without a default gateway: the tunnel connects, without a bypass
    route, and then refuses to be reloaded with what it was connected with. *)

#[local] Existing Instance ipnet_model.
#[local] Existing Instance demo_urls.
#[local] Existing Instance demo_text.

Fixpoint xray_started (h : history) : bool :=
  match h with
  | [] => false
  | Ev c _ :: h' => match c with XrayStart _ _ _ _ => true | _ => xray_started h' end
  end.

Definition island_env (gateways : list (IpAddr * Z)) : Env := λ A c h,
  match c in ext A return A → A with
  | StoreSave _ => λ _, Ok tt
  | AddRoute _ => λ _, Ok tt
  | DefaultGateways => λ _, Ok gateways
  | OnLinkNetworks => λ _, Ok []
  | RulesSnapshot => λ _, Ok []
  | TableInUse _ => λ _, Ok false
  | ResolveHost _ => λ _, [ip4 203 0 113 9]
  | XrayVerifyBinary => λ _, Ok tt
  | XrayLinkIndex _ => λ _, Ok (if xray_started h then Some 7%Z else None)
  | XrayStart _ _ _ _ => λ _, Ok tt
  | XrayHealth _ => λ _, Ok true
  | WgAddAddress _ _ => λ _, Ok tt
  | WgSetMtu _ _ => λ _, Ok tt
  | WgSetState _ _ => λ _, Ok tt
  | _ => λ d, d
  end (failing_answer c).

Definition island_wired : Executors := mkExecutors true true true true true true true false None.
Definition island_core : DaemonCore := core_with journal_default island_wired.

Definition island_connect (gateways : list (IpAddr * Z)) :=
  @connect_xray (island_env gateways) _ _ _ demo_show 1000 (demo_params "client") island_core [].
Definition island_reload (gateways : list (IpAddr * Z)) :=
  @reload_xray (island_env gateways) _ _ _ demo_show 1000 (demo_params "client")
    (island_connect gateways).1.2 (island_connect gateways).2.

Definition outcome {A} (x : option (io_result A)) : option (option io_error) :=
  match x with Some (Ok _) => Some None | Some (Err e) => Some (Some e) | None => None end.

Example island_reload_refused :
  (outcome (island_connect []).1.1, outcome (island_reload []).1.1) = (Some None, Some (Some incompatible)).
Proof. vm_compute. reflexivity. Qed.

(** With a gateway the same reload gets past the comparison. *)
Definition uplink : list (IpAddr * Z) := [(ip4 192 168 1 1, 2%Z)].
Definition uplink_core : DaemonCore := Eval vm_compute in (island_connect uplink).1.2.
Definition uplink_process : XrayProcessResource := Eval vm_compute in
  unwrap_or (find_xray (unwrap_or (je_resources <$> entries uplink_core !! 0) []))
    (xray_process_of 0 "" no_plan 0 None).
Definition uplink_plan : XrayPlan := Eval vm_compute in
  plan_or (pin_server_addresses demo_show (@resolve_host_addrs (island_env uplink) _) demo_plan
    uplink_core []).1.1 no_plan.

Lemma reload_needs_every_bypass_witness :
  xl_server_hosts uplink_plan = ["203.0.113.9"%string] ∧
  ∃ entry, entries uplink_core !! 0 = Some entry ∧
    net_of_ip (ip4 203 0 113 9) ∈ bypassed_nets uplink_process (je_resources entry).
Proof.
  split; [vm_compute; reflexivity|].
  apply (@reload_needs_every_bypass (island_env uplink) _ 0 uplink_plan uplink_process
           uplink_core [] uplink_core [] tt "203.0.113.9" (ip4 203 0 113 9));
    [vm_compute; reflexivity| |vm_compute; reflexivity].
  apply list_elem_of_here.
Defined.
