(* ===== verification/ServerPolicy.v ===== *)
(** * What a connection may capture without an administrator

    Under [FullTunnelOnly] the daemon asks an administrator before changes
    that capture all traffic. For the routes of an Xray connection it does;
    its DNS settings are not looked at. *)

From S2P Require Export ServerAuth.
From S2P Require Import Dns XrayTheorems XrayReload RouteProps Safety.

(** ** What a prepared plan keeps of the request *)

Lemma try_bind_ok {S A B E} (m : M S (result A E)) (f : A → M S (result B E)) s h b s' h' :
  try_bind m f s h = (Some (Ok b), s', h') →
  ∃ a s1 h1, m s h = (Some (Ok a), s1, h1) ∧ f a s1 h1 = (Some (Ok b), s', h').
Proof.
  unfold try_bind, bind. destruct (m s h) as [[[[a|e]|] s1] h1]; [|done..]. intros Hf.
  by exists a, s1, h1.
Qed.

Section plan.
Context `{IpNetLib} `{UrlLib} `{JsonText} {S : Type}.

Lemma prepared_keeps uid params mark s h plan s' h' :
  prepare_xray (S := S) uid params mark s h = (Some (Ok plan), s', h') →
  xray_coverage_ok params = true ∧ xray_routes_ok [] (xq_routes params) = true ∧
  xl_dns_domains plan = xq_dns_domains params ∧
  xl_full_ipv4 plan = covers_v4 (map pr_destination (xq_routes params)) ∧
  xl_full_ipv6 plan = covers_v6 (map pr_destination (xq_routes params)).
Proof.
  unfold prepare_xray. intros (? & s1 & h1 & _ & Hrun)%try_bind_ok.
  destruct (negb (xray_limits_ok params mark)); [done|].
  apply try_bind_ok in Hrun as (? & ? & ? & _ & Hrun).
  destruct (negb _) eqn:Hok; [done|]. apply negb_false_iff in Hok.
  apply andb_true_iff in Hok as [[Hroutes _]%andb_true_iff Hcov]. do 2 (split; [done|]).
  do 5 (apply try_bind_ok in Hrun as (? & ? & ? & _ & Hrun)).
  cbv zeta in Hrun. destruct (tunnel_link_names _ _ _ _) as [name ?].
  apply try_bind_ok in Hrun as (? & ? & ? & _ & Hrun). destruct (negb _); [done|].
  apply try_bind_ok in Hrun as (? & ? & ? & _ & Hrun). destruct (has_pool _ && _ && _); [done|].
  destruct (Nat.ltb 33 _); [done|].
  do 2 (apply try_bind_ok in Hrun as (? & ? & ? & _ & Hrun)). by injection Hrun as <- _ _.
Qed.

Lemma not_broad_seen params :
  xray_broad params = false →
  covers_v4 (map pr_destination (xq_routes params)) = false ∧
  covers_v6 (map pr_destination (xq_routes params)) = false.
Proof.
  intros Hb.
  assert (∀ n, captures_all_traffic n = true → vec_contains (map pr_destination (xq_routes params)) n = false)
    as Hn.
  { intros n Hn. apply not_true_iff_false. intros Hin%vec_contains_spec.
    apply list_elem_of_fmap in Hin as (route & -> & Hin). apply not_true_iff_false in Hb. apply Hb.
    apply existsb_exists. exists route. split; [by apply list_elem_of_In|done]. }
  unfold covers_v4, covers_v6. rewrite !Hn by reflexivity. done.
Qed.

End plan.

(** ** Routes *)

(** An address of its family, and a length. *)
Definition net_valid (n : IpNet) : Prop :=
  (0 ≤ addr_bits (net_addr n) < 2 ^ addr_width (net_addr n))%Z ∧ (0 ≤ prefix_len n)%Z.

(** The request asks for no default route and no half of one, its routes
    together do not amount to one either, and no plan made from it, whatever
    the mark, is a full tunnel. *)
Definition split_request `{IpNetLib} `{UrlLib} `{JsonText} (uid : Z) (params : XrayConnectParams) : Prop :=
  (∀ route, route ∈ xq_routes params → (2 ≤ prefix_len (pr_destination route))%Z) ∧
  full_coverage (map pr_destination (xq_routes params)) = (false, false) ∧
  ∀ S mark (s : S) h plan s' h', prepare_xray uid params mark s h = (Some (Ok plan), s', h') →
    xl_full_ipv4 plan = false ∧ xl_full_ipv6 plan = false.

Section routes.
Context `{IpNetLib} `{UrlLib} `{JsonText}.
(** [trunc] leaves no host bits. *)
Context (trunc_clears : ∀ n, trunc n = n → (2 ^ host_bits n | addr_bits (net_addr n))%Z).

Lemma long_prefix n :
  net_valid n → trunc n = n → captures_all_traffic n = false → (2 ≤ prefix_len n)%Z.
Proof using trunc_clears.
  intros [Hbits Hlen] Ht Hc. apply trunc_clears in Ht as [q Hq].
  assert (prefix_len n = 0 ∨ prefix_len n = 1 ∨ 2 ≤ prefix_len n)%Z as [Hl|[Hl|?]] by lia; [..|done];
    exfalso; apply not_true_iff_false in Hc; apply Hc; apply vec_contains_spec;
    unfold host_bits in Hq; destruct n as [[z|z] len]; cbn in *; subst len; cbn in *;
    (match type of Hq with _ = (_ * ?p)%Z => let v := eval vm_compute in p in change p with v in Hq end).
  - assert (z = 0)%Z as -> by lia. set_solver.
  - assert (z = 0)%Z as -> by lia. set_solver.
  - assert (q = 0 ∨ q = 1)%Z as [-> | ->] by lia; subst z; set_solver.
  - assert (q = 0 ∨ q = 1)%Z as [-> | ->] by lia; subst z; set_solver.
Qed.

Lemma routes_truncated seen routes route :
  xray_routes_ok seen routes = true → route ∈ routes → trunc (pr_destination route) = pr_destination route.
Proof.
  revert seen. induction routes as [|r routes IH]; intros seen; simpl; [by intros _ ?%elem_of_nil|].
  intros [Hr Hrest]%andb_true_iff. intros [->|Hin]%elem_of_cons; [|by eapply IH].
  apply negb_true_iff, orb_false_iff in Hr as [[_ Hr]%orb_false_iff _]. apply negb_false_iff in Hr.
  by apply bool_decide_eq_true in Hr.
Qed.

Lemma unbroad_split {S} uid params mark (s : S) h plan s' h' :
  prepare_xray uid params mark s h = (Some (Ok plan), s', h') →
  (∀ route, route ∈ xq_routes params → net_valid (pr_destination route)) →
  xray_broad params = false → split_request uid params.
Proof using trunc_clears.
  intros (Hcov & Hok & _)%prepared_keeps Hvalid Hb. pose proof (not_broad_seen params Hb) as [H4 H6].
  split_and!.
  - intros route Hin. apply long_prefix; [by apply Hvalid|by eapply routes_truncated|].
    apply not_true_iff_false. intros Hc. apply not_true_iff_false in Hb. apply Hb, existsb_exists.
    exists route. split; [by apply list_elem_of_In|done].
  - revert Hcov. unfold xray_coverage_ok. rewrite H4, H6. by destruct (full_coverage _) as [[] []].
  - intros S' mark' s0 h1 plan' s1 h2 (_ & _ & _ & -> & ->)%prepared_keeps. done.
Qed.
End routes.

(** ** The requests *)

Section requests.
Context `{Env} `{IpNetLib} `{UrlLib} `{JsonText} `{Base64Lib} `{RuntimeDir}.
Context `{JsonCodec AlwaysOnDocument} `{JsonCodec CondRulesDocument} `{JsonCodec IntentDocument}.
Context `{JsonCodec SettingsDocument} `{ToValue}.
Context `{FromValue SettingsSetParams} `{FromValue AlwaysOnSetParams} `{FromValue AlwaysOnRemoveParams}
  `{FromValue WireGuardConnectParams} `{FromValue ProfileParams} `{FromValue OpenVpnConnectRequest}
  `{FromValue XrayConnectParams} `{FromValue XrayServiceChecksParams} `{FromValue XrayInstallParams}
  `{FromValue RoutesApplyParams} `{FromValue OwnerParams} `{FromValue CondRulesPutParams}
  `{FromValue CondRulesRemoveParams} `{FromValue NmSetActiveParams} `{FromValue NetRouteAddParams}
  `{FromValue NetRouteDelParams} `{FromValue NetRuleAddParams} `{FromValue NetRuleDelParams}
  `{FromValue NetDnsProbeParams} `{FromValue NetIntentSetParams} `{FromValue NetIntentDelParams}
  `{FromValue LinkSetStateParams} `{FromValue ExternalTunnelStopParams}.
Context (show_ip : IpAddr → string) (cfg : ServerConfig) (others : history → Server → Server).
Context (peer : PeerIdentity).

(** Enough for an Xray request of these parameters under [FullTunnelOnly]: an
    administrator, or the user alone when the request is split. *)
Definition split_or_admin (value : Value) (action : Action) : Prop :=
  action = ConnectProfileAdmin ∨
  action = ConnectProfile ∧ ∃ params, from_value value = Ok params ∧ split_request (pi_uid peer) params.

Lemma waits_mode name s s' :
  (∀ h s, sv_settings (others h s) = sv_settings s) → waits others peer name s s' →
  sv_settings s' = sv_settings s.
Proof.
  intros Hkeep. induction 1 as [|s1 s2 s3 [[h ->]|(c & _ & ->)] _ IH]; [done|..]; rewrite IH; auto.
Qed.

Lemma checked_split name s0 h0 message value params :
  possible others peer name s0 h0 (checked_xray (pi_uid peer) message value) (Ok params) →
  from_value value = Ok params ∧
  ∃ s h plan s' h', prepare_xray (S := Server) (pi_uid peer) params 1 s h = (Some (Ok plan), s', h').
Proof.
  intros (s & h & _ & Hrun). revert Hrun. unfold checked_xray, params_or, try_bind, bind, lift, ret.
  destruct (from_value value) as [q|]; [|done]. simpl.
  destruct (prepare_xray _ _ _ _ _) as [[[[plan|?]|] s1] h1] eqn:Hp; [|done..]. simpl.
  unfold secondary_ok, lift, ret. destruct (map_err _ (validate_secondary _ _ _)); [|done]. intros [= ->].
  split; [done|]. by exists s, h, plan, s1, h1.
Qed.

Lemma start_split message start value s0 h0 :
  (∀ n, trunc n = n → (2 ^ host_bits n | addr_bits (net_addr n))%Z) →
  (∀ params, from_value value = Ok params →
     ∀ route, route ∈ xq_routes params → net_valid (pr_destination route)) →
  (∀ h s, sv_settings (others h s) = sv_settings s) → sv_settings s0 = FullTunnelOnly →
  (∀ uid params, grows (start uid params)) → ∀ name,
  guarded others peer name s0 h0 (split_or_admin value) (handle_xray_start others message start peer value).
Proof.
  intros Hclear Hvalid Hkeep Hmode Hstart name. unfold handle_xray_start. cbv zeta.
  apply guarded_try; [served|]. intros params (Hvalue & s & h & plan & s' & h' & Hprep)%checked_split.
  apply guarded_bind; [served|]. intros mode (s1 & Hs1 & ->)%possible_mode.
  apply guarded_authorize; [|intros []; served; apply Hstart].
  rewrite (waits_mode _ _ _ Hkeep Hs1), Hmode. unfold connect_action.
  destruct (xray_broad params) eqn:Hb; [by left|right]. split; [done|].
  exists params. split; [done|]. eapply unbroad_split; [done..|by apply Hvalid|done].
Qed.

(** C26. Under [FullTunnelOnly], the mode the daemon starts in, an Xray
    connection or reload changes nothing, in the system or in the daemon's
    state, before polkit granted it; and when polkit asked no administrator,
    no destination of the request is a default route or a half of one, its
    routes together cover neither family, and no plan made from it is a full
    tunnel. *)
Theorem unprompted_xray_is_split request (s : Server) (h : history)
    (Hclears : ∀ n, trunc n = n → (2 ^ host_bits n | addr_bits (net_addr n))%Z)
    (Hvalid : ∀ params : XrayConnectParams, from_value (rq_params request) = Ok params →
       ∀ route, route ∈ xq_routes params → net_valid (pr_destination route))
    (Hkeep : ∀ h s, sv_settings (others h s) = sv_settings s)
    (Hmode : sv_settings s = FullTunnelOnly)
    (Hmethod : rq_method request ∈ [method.XRAY_CONNECT; method.XRAY_RELOAD]) :
  let enough := split_or_admin (rq_params request) in
  let '(_, s', h') := dispatch show_ip cfg others request peer s h in
  traced (authorized_since peer enough h) h h' ∧
  (rtc (idle_step others peer (rq_method request)) s s' ∨ granted_since peer enough h h').
Proof.
  cbv zeta.
  assert (guarded others peer (rq_method request) s h (split_or_admin (rq_params request))
    (handle show_ip cfg others request peer)) as Hg.
  { unfold handle. set_unfold in Hmethod. destruct Hmethod as [->|[->|[]]]; cbn;
      (apply start_split; [done..|intros; auto with obeys]). }
  destruct (Hg s h) as [Ht Hs]; [by split|]. unfold dispatch, bind, ret.
  by destruct (handle _ _ _ _ _ s h) as [[[r|] s'] h'].
Qed.

End requests.

(** ** Names *)

(** The request only ever asks polkit for [action]. *)
Definition asks_only (action : Action) (e : event) (_ : history) : Prop :=
  match e with Ev c _ => match c with PolkitCheck _ a => a = action | _ => True end end.

Section names.
Context `{Env} `{IpNetLib} `{UrlLib} `{JsonText} `{ToValue} `{FromValue XrayConnectParams}.
Context (show_ip : IpAddr → string) (others : history → Server → Server) (peer : PeerIdentity).

Abbreviation silent := (obeys any_state (asks_only ConnectProfile) (λ _, True)).

Lemma silent_prepare uid params mark :
  silent (prepare_xray (S := DaemonCore) uid params mark).
Proof. apply obeys_prepare. Qed.
Lemma silent_pin plan : silent (pin_server_addresses show_ip resolve_host_addrs plan).
Proof. by apply obeys_pin. Qed.
Lemma silent_find_mark rules marks : silent (find_mark rules marks).
Proof. induction marks as [|slot marks IH]; simpl; obeys. Qed.
Hint Resolve silent_prepare silent_pin silent_find_mark : obeys.

Lemma silent_connect uid params : silent (connect_xray show_ip uid params).
Proof. obeys. Qed.
Hint Resolve silent_connect : obeys.

Lemma silent_started uid params :
  silent (let? status := with_core others (connect_xray show_ip uid params) in
          notify uid ("xray:" +:+ xq_profile_id params) ;;; to_value (RXrayConnect status)).
Proof. served. Qed.

(** A split Xray connection with the DNS domain [.] connects under
    [FullTunnelOnly] without an administrator: polkit is only asked for
    [ConnectProfile]. The plan keeps the domain, and for it the DNS executor
    sends the link the routing domain of a full tunnel, [~.], so every name is
    resolved through the tunnel. *)
Theorem global_dns_unprompted (value : Value) (params : XrayConnectParams) (s : Server) (h : history)
    (Hchecked : checked_xray (pi_uid peer) "invalid Xray connect parameters" value s h
                = (Some (Ok params), s, h))
    (Hsplit : xray_broad params = false)
    (Hmode : sv_settings (others h s) = FullTunnelOnly)
    (Hroot : "."%string ∈ xq_dns_domains params) :
  traced (asks_only ConnectProfile) h (handle_xray_connect show_ip others peer value s h).2 ∧
  ∀ mark (c c' : DaemonCore) h1 h2 plan,
    prepare_xray (pi_uid peer) params mark c h1 = (Some (Ok plan), c', h2) →
    "~."%string ∈ domain_args (xl_name plan) (xl_dns_domains plan) false ∧
    "~."%string ∈ domain_args (xl_name plan) (xl_dns_domains plan) true.
Proof.
  split.
  - unfold handle_xray_connect, handle_xray_start. cbv zeta.
    unfold try_bind at 1. unfold bind at 1. rewrite Hchecked.
    unfold bind at 1, vpn_auth_mode, bind at 1, before_lock, bind at 1, get, ret. rewrite Hmode, Hsplit.
    assert (silent (let? _ := authorize peer (connect_action FullTunnelOnly false) in
      let? status := with_core others (connect_xray show_ip (pi_uid peer) params) in
      notify (pi_uid peer) ("xray:" +:+ xq_profile_id params) ;;; to_value (RXrayConnect status))) as Hs.
    { apply obeys_try; [served|intros _; apply silent_started]. }
    exact (proj2 (Hs (others h s) h I)).
  - intros mark c c' h1 h2 plan (_ & _ & -> & _)%prepared_keeps. split.
    + apply elem_of_app. right. apply list_elem_of_fmap. by exists "."%string.
    + by apply elem_of_app; right; apply list_elem_of_here.
Qed.

End names.

(** ** The request *)

#[local] Existing Instance ipnet_model.
#[local] Existing Instance demo_urls.

(** The codec of the demo with one more document: the configuration rewritten
    for the mark of the checks. *)
Definition probe_run : Value := Eval vm_compute in
  value_of (rewrite_config (S := unit) "xray0" 1500 1 None [] [] demo_client tt []).1.1 JNull.

Definition root_from (text : string) : option Value :=
  if text =b "probe"%string then Some probe_run else demo_from text.
Definition root_to (v : Value) : option string :=
  if v =b probe_run then Some "probe"%string
  else if v =b demo_run then Some "run"%string else None.

Lemma root_codec v text : root_to v = Some text → root_from text = Some v.
Proof.
  unfold root_to. case_bool_decide as Hp; [intros [= <-]; by rewrite Hp|].
  case_bool_decide as Hr; [intros [= <-]; by rewrite Hr|done].
Qed.

#[local] Instance root_text : JsonText :=
  {| from_str := root_from; to_string := root_to; from_str_to_string := root_codec |}.

(** The client's demo configuration, one private network and its resolver,
    asked for every name. *)
Definition root_params : XrayConnectParams :=
  mkXrayParams "home" "client" [mkPolicyRoute (mkNet (ip4 10 0 0 0) 8) 5 None]
    [ip4 10 0 0 53] ["."%string] [] (Some "xray0"%string) None None Primary None false None None [] [].

#[local] Instance root_value : FromValue XrayConnectParams := λ _, Ok root_params.
#[local] Instance any_reply : ToValue := λ _, Ok JNull.
#[local] Instance refusing_env : Env := λ A c _, failing_answer c.

Definition user : PeerIdentity := mkPeer 1000 4242 None None.
Definition default_server : Server := mkServer (core_with journal_default unwired) FullTunnelOnly.

Lemma global_dns_unprompted_witness :
  xray_broad root_params = false ∧
  traced (asks_only ConnectProfile) []
    (handle_xray_connect demo_show (λ _ s, s) user JNull default_server []).2.
Proof.
  assert (xray_broad root_params = false) as Hb by (vm_compute; reflexivity).
  split; [exact Hb|].
  refine (proj1 (global_dns_unprompted demo_show (λ _ s, s) user JNull root_params default_server []
    _ Hb eq_refl _)); [vm_compute; reflexivity|apply list_elem_of_here].
Defined.

(** *** A whole request, which polkit grants *)

Definition granting_env : Env := λ A c _,
  match c in ext A return A → A with
  | PolkitCheck _ _ => λ _, Ok Authorized
  | _ => λ a, a
  end (failing_answer c).

#[local] Instance no_decoder : Base64Lib := {| b64_decode _ := None |}.
#[local] Instance packaged : RuntimeDir := {| runtime_dir_env := None |}.
#[local] Instance no_codec {D} : JsonCodec D :=
  {| to_vec _ := None; from_slice _ := None;
     from_slice_to_vec _ _ H := match H with eq_refl => I end |}.
#[local] Instance no_value {T} : FromValue T | 100 := λ _, Err (txt "not understood").

Definition root_request : RequestFrame := mkRequest 7 method.XRAY_CONNECT JNull.
Definition storeless : ServerConfig := mkServerConfig None None None.

Lemma model_clears n : trunc n = n → (2 ^ host_bits n | addr_bits (net_addr n))%Z.
Proof.
  intros Ht. change (trunc n) with (model_trunc n) in Ht. rewrite <- Ht at 2. unfold model_trunc. cbn [net_addr].
  rewrite (proj1 (with_bits_bits _ _)). rewrite Z.shiftl_mul_pow2 by (unfold host_bits; lia). by eexists.
Qed.

Lemma root_valid params : from_value (rq_params root_request) = Ok params →
  ∀ route, route ∈ xq_routes params → net_valid (pr_destination route).
Proof. intros [= <-] route ->%list_elem_of_singleton. vm_compute. split; [split|]; congruence. Qed.

Lemma unprompted_xray_is_split_witness :
  sv_settings default_server = FullTunnelOnly ∧
  traced (authorized_since user (split_or_admin user JNull) []) []
    (dispatch (H := granting_env) demo_show storeless (λ _ s, s) root_request user default_server []).2 ∧
  last (dispatch (H := granting_env) demo_show storeless (λ _ s, s) root_request user default_server []).2 =
    Some (Ev (PolkitCheck user ConnectProfile) (Ok Authorized)).
Proof.
  pose proof (unprompted_xray_is_split (H := granting_env) demo_show storeless (λ _ s, s) user root_request
    default_server [] model_clears root_valid (λ _ _, eq_refl) eq_refl
    (list_elem_of_here _ _)) as Hw.
  split; [done|]. cbv zeta in Hw. split.
  - destruct (dispatch _ _ _ _ _ _ _) as [[r s'] h']. exact (proj1 Hw).
  - vm_compute. reflexivity.
Defined.
