(* ===== verification/SafetyTheorems.v ===== *)
(** * Crash safety, totality, complete cleanup

    The theorems about every reachable state of the daemon, with a run on a
    concrete environment as witness. *)

From S2P Require Export Safety.

(** ** A complete teardown *)

Section complete.
Context `{Env}.

Definition unmatched (matches : JournalEntry → bool) : list JournalEntry → list JournalEntry :=
  bfilter (λ e, negb (matches e)).

Lemma unmatched_app matches es es' :
  unmatched matches (es ++ es') = unmatched matches es ++ unmatched matches es'.
Proof. apply List.filter_app. Qed.

(** One index of the loop: [Ok] removes the entry, an error is reported. *)
Lemma wp_teardown_step matches result index e s h :
  entries s !! index = Some e → Inv s h →
  wp (teardown_step matches result index)
     (λ res s' h', Inv s' h' ∧ length (entries s) ≤ S (length (entries s')) ∧
        ∃ failed, cr_failed res = cr_failed result ++ failed ∧
        (failed = [] → entries s' = if matches e then delete index (entries s) else entries s)) s h.
Proof.
  intros He HI. unfold teardown_step. wp_step. eapply wp_entry_at; [done|].
  destruct (matches e); simpl.
  - wp_step. eapply wp_mono; [|by eapply wp_teardown_entry].
    intros r s' h' Hp. apply wp_ret. split_and!; [by eapply teardown_post_Inv|by eapply teardown_post_length|].
    destruct Hp as (_ & _ & _ & Hr). destruct r as [[]|err]; simpl.
    + exists []. by rewrite app_nil_r.
    + by exists [je_owner e].
  - apply wp_ret. split_and!; [done|lia|]. exists []. by rewrite app_nil_r.
Qed.

Lemma wp_teardown_complete_loop matches n result s h :
  n ≤ length (entries s) → Inv s h →
  wp (for_acc (rev (seq 0 n)) result (teardown_step matches))
     (λ res s' h', Inv s' h' ∧ ∃ failed, cr_failed res = cr_failed result ++ failed ∧
        (failed = [] →
         entries s' = unmatched matches (take n (entries s)) ++ drop n (entries s))) s h.
Proof.
  revert result s h. induction n as [|n IH]; intros result s h Hn HI.
  { apply wp_ret. split; [done|]. exists []. rewrite app_nil_r. done. }
  rewrite seq_S, rev_unit. simpl. wp_step.
  destruct (lookup_lt_is_Some_2 (entries s) n) as [e He]; [lia|].
  eapply wp_mono; [|by apply wp_teardown_step].
  intros res s1 h1 (HI1 & Hlen & failed & Hfailed & Hdel).
  eapply wp_mono; [|apply IH; [lia|done]].
  intros res' s2 h2 (HI2 & failed' & Hfailed' & Hes). split; [done|].
  exists (failed ++ failed'). rewrite Hfailed', Hfailed, app_assoc. split; [done|].
  intros [-> ->]%app_nil. rewrite (Hes eq_refl), (Hdel eq_refl).
  rewrite (take_S_r _ _ _ He), unmatched_app, <- app_assoc. unfold unmatched at 3. simpl.
  destruct (matches e); simpl.
  - rewrite delete_take_drop. rewrite take_app_le by (rewrite length_take; lia).
    rewrite take_take, Nat.min_id, drop_app_ge by (rewrite length_take; lia).
    rewrite length_take, Nat.min_l by lia. by rewrite Nat.sub_diag, drop_0.
  - by rewrite <- (drop_S _ _ _ He).
Qed.

Lemma wp_teardown_complete matches s h :
  Inv s h →
  wp (teardown matches)
     (λ r s' h', Inv s' h' ∧ ∀ res, r = Ok res → cr_failed res = [] →
        entries s' = unmatched matches (entries s)) s h.
Proof.
  intros HI. unfold teardown. do 3 wp_step.
  eapply wp_mono; [|by apply wp_teardown_complete_loop]. intros res s' h' (HI' & failed & Hf & Hes).
  wp_step. apply wp_store_save_journal; [done|]. intros [[]|err] h'' HI'' _ _; [|done].
  apply wp_ret. split; [done|]. intros res' [= <-] Hnil. simpl in Hf. rewrite Hf in Hnil.
  rewrite (Hes Hnil), take_ge, drop_ge by lia. by rewrite app_nil_r.
Qed.
End complete.

(** ** The theorems *)

Section theorems.
Context `{Env} `{IpNetLib} `{Base64Lib} `{RuntimeDir} `{HashOrder}
  `{JsonCodec IntentDocument} `{JsonCodec AlwaysOnDocument}.

(** C1 (crash safety). In every reachable state, after any sequence of
    operations, failures of the kernel, the network or the disk, and crashes
    between any two calls, each document the journal file may hold accounts
    for every route, rule, address and suppression of the daemon that is live
    in the kernel; so does the journal in memory while the daemon is up. *)
Theorem journal_accounts_for_kernel (p : process) (h : history)
    (Hload : load_faithful) (Hr : reachable (p, h)) :
  (∀ d a, d ∈ disk h → live h a → covered (jd_entries d) a) ∧
  (∀ s a, p = Up s → live h a → covered (entries s) a).
Proof.
  destruct (reachable_sound _ Hload Hr) as [Hs HI]. split.
  - intros d a Hd Ha. by apply (crash_safe_now h Hs d Hd).
  - intros s a -> Ha. destruct HI as [[_ [_ Hc]] _]. by apply Hc.
Qed.

(** C2 (no panic). From every reachable state every operation returns: no
    index of the journal is ever out of range and no missing executor is
    unwrapped. *)
Theorem operations_return (s : DaemonCore) (h : history) (op : operation)
    (Hload : load_faithful) (Hr : reachable (Up s, h)) :
  ∃ s' h', run_operation op s h = (Some tt, s', h').
Proof.
  destruct (reachable_sound _ Hload Hr) as [_ HI].
  pose proof (run_operation_sound op s h HI) as Hwp. unfold wp in Hwp.
  destruct (run_operation op s h) as [[[[]|] s'] h']; [by do 2 eexists|done].
Qed.

(** C3 (complete cleanup). When the cleanup of a user reports no failed owner,
    exactly the entries of that user are gone, and everything still live in
    the kernel is accounted for by an entry of another user. *)
Theorem cleanup_uid_complete (s s' : DaemonCore) (h h' : history) (uid : Z) (r : CleanupResult)
    (Hload : load_faithful) (Hr : reachable (Up s, h))
    (Hrun : cleanup_uid uid s h = (Some (Ok r), s', h')) (Hnone : cr_failed r = []) :
  entries s' = unmatched (λ e, Z.eqb (je_uid e) uid) (entries s) ∧
  ∀ a, live h' a → ∃ e res, e ∈ entries s ∧ je_uid e ≠ uid ∧ res ∈ je_resources e ∧ covers res a.
Proof.
  destruct (reachable_sound _ Hload Hr) as [_ [HI _]].
  unfold cleanup_uid, bind, modify in Hrun. set (s1 := set_tunnel_failed _ s) in Hrun.
  assert (entries s1 = entries s) as Hes by by destruct s.
  assert (Inv s1 h) as HI1 by by eapply Inv_state.
  pose proof (wp_run _ _ _ _ _ _ _ (wp_teardown_complete _ s1 h HI1) Hrun) as [HI' Hdone].
  specialize (Hdone r eq_refl Hnone). rewrite Hes in Hdone. split; [done|].
  intros a Ha. destruct HI' as [_ [_ Hc]]. destruct (Hc a Ha) as (e & res & He & Hres & Hcov).
  rewrite Hdone in He. apply elem_of_bfilter in He as [Hu He]. exists e, res.
  split_and!; try done. apply negb_true_iff, Z.eqb_neq in Hu. done.
Qed.

(** C4 (journal well-formedness). In every reachable state no two entries have
    the same user and owner, a WireGuard owner's entry holds its link first
    and everything else on that link, an OpenVPN owner's entry its process
    first, then routes, rules and DNS, and any other owner's entry only
    routes, rules and overrides; so does every document the journal file may
    hold. *)
Theorem journal_well_formed (p : process) (h : history)
    (Hload : load_faithful) (Hr : reachable (p, h)) :
  (∀ s, p = Up s → wf_entries (entries s)) ∧
  (∀ d, d ∈ disk h → wf_entries (jd_entries d)).
Proof.
  destruct (reachable_sound _ Hload Hr) as [Hs HI]. split.
  - intros s ->. destruct HI as [[_ [Hwf _]] _]. exact Hwf.
  - intros d Hd. by apply (crash_safe_now h Hs d Hd).
Qed.

End theorems.

(** ** A concrete environment *)

(** The OpenVPN process was started. *)
Fixpoint started (h : history) : bool :=
  match h with
  | [] => false
  | Ev c _ :: h' => match c with OvpnStart _ _ _ _ _ => true | _ => started h' end
  end.

Definition demo_push : PushedNetworkConfig := mkPushed [mkNet (ip4 10 9 0 0) 16] false [] [] [] false.

(** The disk works, the kernel takes and drops routes, and the OpenVPN
    server pushes one. *)
#[local] Instance demo_env : Env := λ A c h,
  match c in ext A return A → A with
  | StoreSave _ => λ _, Ok tt
  | StoreLoad => λ d, match disk h with doc :: _ => Ok doc | [] => d end
  | AddRoute _ => λ _, Ok tt
  | RemoveRoute _ => λ _, Ok tt
  | RulesSnapshot => λ _, Ok []
  | TableInUse _ => λ _, Ok false
  | OvpnVerifyBinary => λ _, Ok tt
  | OvpnStagingExists _ _ => λ _, Ok false
  | OvpnLinkIndex _ => λ _, Ok (if started h then Some 7%Z else None)
  | OvpnStart _ _ _ _ _ => λ _, Ok tt
  | OvpnPoll _ => λ _, Ok [EvPushReply demo_push; EvState Connected]
  | _ => λ d, d
  end (failing_answer c).

Lemma demo_load_faithful : load_faithful.
Proof.
  intros h d. cbv [answer demo_env]. destruct (disk h) as [|doc docs]; [done|].
  intros [= <-]. apply list_elem_of_here.
Qed.

#[local] Existing Instance ipnet_model.

#[local] Instance demo_base64 : Base64Lib := {| b64_decode _ := None |}.
#[local] Instance demo_intents : JsonCodec IntentDocument.
Proof. by refine {| to_vec _ := None; from_slice _ := None |}. Defined.
#[local] Instance demo_always_on : JsonCodec AlwaysOnDocument.
Proof. by refine {| to_vec _ := None; from_slice _ := None |}. Defined.

#[local] Instance demo_runtime_dir : RuntimeDir := {| runtime_dir_env := None |}.
#[local] Instance demo_hash_order : HashOrder.
Proof. by refine {| hash_keys m := (map_to_list m).*1 |}. Defined.

Definition demo_wired : Executors := mkExecutors false false true false false true false false None.

Definition demo_request : OpenVpnConnectRequest :=
  mkOvpnRequest (mkOvpnParams "home" ("client" +:+ newline +:+ "remote vpn.example 1194" +:+ newline)
                   ∅ [] None Primary []) None.
Definition demo_plan : io_result OpenVpnPlan := prepare_openvpn 1000 demo_request.

Definition demo_route : AppliedRoute := on_link (mkNet (ip4 10 0 0 0) 8) 3 100.
Definition demo_op : operation := OpApplyRoutes 1000 "profile" [demo_route].

(** Opened, one route applied, an OpenVPN profile connected and polled. *)
Definition demo_opened : option (io_result unit) * DaemonCore * history :=
  open_recovery demo_wired no_core [].
Definition demo_applied : option unit * DaemonCore * history :=
  run_operation demo_op demo_opened.1.2 demo_opened.2.
Definition demo_connected : option unit * DaemonCore * history :=
  match demo_plan with
  | Ok plan => run_operation (OpConnectOpenVpn 1000 plan) demo_applied.1.2 demo_applied.2
  | Err _ => demo_applied
  end.
Definition demo_polled : option unit * DaemonCore * history :=
  run_operation OpReconcileOpenVpn demo_connected.1.2 demo_connected.2.

Lemma demo_opened_reachable : reachable (Up demo_opened.1.2, demo_opened.2).
Proof.
  eapply reachable_step; [apply reachable_start|]. apply (step_open demo_wired); [by split|reflexivity].
Qed.

Lemma demo_applied_reachable : reachable (Up demo_applied.1.2, demo_applied.2).
Proof.
  eapply reachable_step; [apply demo_opened_reachable|]. apply (step_operation demo_op).
  vm_compute. reflexivity.
Qed.

Lemma demo_connected_reachable : reachable (Up demo_connected.1.2, demo_connected.2).
Proof.
  eapply reachable_step; [apply demo_applied_reachable|].
  assert (demo_connected.1.1 = Some tt) as Hdone by (vm_compute; reflexivity).
  assert (is_ok demo_plan = true) as Hplan by (vm_compute; reflexivity).
  unfold demo_connected in *. destruct demo_plan as [plan|]; [|done].
  apply (step_operation (OpConnectOpenVpn 1000 plan)).
  destruct (run_operation _ _ _) as [[r s'] h']. simpl in *. by rewrite Hdone.
Qed.

Lemma demo_polled_reachable : reachable (Up demo_polled.1.2, demo_polled.2).
Proof.
  eapply reachable_step; [apply demo_connected_reachable|].
  apply (step_operation OpReconcileOpenVpn).
  assert (demo_polled.1.1 = Some tt) as Hdone by (vm_compute; reflexivity).
  unfold demo_polled in *. destruct (run_operation _ _ _) as [[r s'] h']. simpl in *.
  by rewrite Hdone.
Qed.

Definition demo_pushed_route : AppliedRoute := on_link (mkNet (ip4 10 9 0 0) 16) 7 5.

Lemma demo_routes_live :
  live demo_polled.2 (ARoute demo_route) ∧ live demo_polled.2 (ARoute demo_pushed_route).
Proof. vm_compute. tauto. Qed.

(** After the run the applied and the pushed route are live, and the journal
    has them. *)
Lemma journal_accounts_for_kernel_witness :
  live demo_polled.2 (ARoute demo_pushed_route) ∧
  covered (entries demo_polled.1.2) (ARoute demo_route) ∧
  covered (entries demo_polled.1.2) (ARoute demo_pushed_route).
Proof.
  pose proof (proj2 (journal_accounts_for_kernel _ _ demo_load_faithful demo_polled_reachable)
                _ (ARoute demo_route) eq_refl) as H1.
  pose proof (proj2 (journal_accounts_for_kernel _ _ demo_load_faithful demo_polled_reachable)
                _ (ARoute demo_pushed_route) eq_refl) as H2.
  destruct demo_routes_live as [L1 L2]. split; [exact L2|]. split; [exact (H1 L1)|exact (H2 L2)].
Defined.

Lemma journal_well_formed_witness : wf_entries (entries demo_polled.1.2).
Proof.
  exact (proj1 (journal_well_formed _ _ demo_load_faithful demo_polled_reachable) _ eq_refl).
Defined.

Lemma operations_return_witness :
  ∃ s' h', run_operation (OpDisconnectOpenVpn 1000 "home") demo_polled.1.2 demo_polled.2
           = (Some tt, s', h').
Proof.
  exact (operations_return _ _ (OpDisconnectOpenVpn 1000 "home") demo_load_faithful
           demo_polled_reachable).
Defined.

(** Cleaning up the user leaves nothing. *)
Lemma cleanup_uid_complete_witness :
  entries (cleanup_uid 1000 demo_applied.1.2 demo_applied.2).1.2
  = unmatched (λ e, Z.eqb (je_uid e) 1000) (entries demo_applied.1.2).
Proof.
  exact (proj1 (cleanup_uid_complete demo_applied.1.2 _ demo_applied.2 _ 1000
           (mkCleanup ["profile"%string] [])
           demo_load_faithful demo_applied_reachable eq_refl eq_refl)).
Defined.

